(* ===== verification/_CoqProject ===== *)
-Q . S2P
Prelude.v
Bytes.v
Params.v
CString.v
Dll.v
FsState.v
Bio.v
Log.v
Crash.v
Store.v
Txn.v
Fs.v
FsAlloc.v
FsInode.v
FsFile.v
FsWrite.v
FsPath.v
FsDir.v
Kalloc.v
Vm.v
VmMap.v
VmSpace.v
VmFree.v
Spinlock.v
Pipe.v
Kernel.v
VmUser.v
File.v
Proc.v
Syscall.v
Sysproc.v
Sysfile.v
Exec.v
Ulib.v
Console.v
Trap.v
ProcSpec.v
UserInit.v
ProcInv.v
ProcTree.v
ExitSpec.v
TrapSpec.v
MemDemo.v
MemoryProps.v
Demo.v
KernelProps.v
StorageProps.v
Grep.v
Sh.v
ShParse.v
ShPrint.v
ShRun.v
ShJobs.v
Utils.v
Umalloc.v
Mkfs.v
UserProps.v
Calls.v
Programs.v
ProgramSpec.v
GrepMain.v
ShMain.v
ProgramProps.v
Ide.v
Boot.v
Mp.v
Devices.v
BootProps.v
Start.v
Segment.v
Cprintf.v
Main.v
MainSpec.v
DeviceProps.v
MainProps.v
Asm.v
AsmSpec.v
AsmBoot.v
AsmProps.v
StartProps.v
