(* ===== verification/Prelude.v ===== *)
(** * A verification development for the xv6 teaching kernel

    The program is a small multiprocessor Unix: a kernel in C (processes, virtual
    memory, pipes, a crash-safe file system, a console) and the user programs
    that run on it, extended with exit statuses, [waitpid], process statistics,
    signal handlers and the shell's job control.  This library translates the C
    sources into executable functions, routine by routine, and proves what the
    parts promise each other and their users.

    ** How the program hangs together, and where it is modelled

    - Storage.  [fs.c] keeps inodes, directories and files in disk blocks; it
      reaches them through the buffer cache ([bio.c], over the disk of
      [memide.c]) and makes its changes atomic with the log ([log.c]).
      [FsState] is the common state; [Bio], [Log] and [Fs] hold the routines
      under their names in the code.  [Dll] relates the cache's pointers to a
      list.  [Crash] is recovery, [Txn] the life of a transaction; [Store]
      states as the class [BlockStore] what the log promises the file system,
      with the log as instance, and [FsAlloc], [FsInode], [FsFile], [FsWrite],
      [FsPath] and [FsDir] prove the routines of [fs.c] against it.
    - Memory.  [Kalloc] is [kalloc.c], [Vm] the page tables of [vm.c]; [VmMap]
      reads them as maps from page numbers to entries, [VmSpace] and [VmFree]
      are the building, copying and destroying of address spaces, [VmUser] what
      the processor's page walk makes of them.
    - Processes.  [Kernel] joins the process table, open files, pipes, memory
      and storage in one record.  [Spinlock], [Pipe], [File] and [Proc] are
      [spinlock.c], [pipe.c], [file.c] and [proc.c]; [Syscall], [Sysproc],
      [Sysfile] and [Exec] the system calls ([syscall.c], [sysproc.c],
      [sysfile.c], [exec.c]); [Trap] is [trap.c] and [Console] is [console.c]
      with [kbd.c].  [ProcSpec], [UserInit] (with [forkret]), [ProcInv],
      [ProcTree], [ExitSpec] and [TrapSpec] hold their proofs.
    - User programs.  [Ulib] is [ulib.c] and [printf.c], [Umalloc] the allocator
      [umalloc.c], [Grep] is [grep.c], [Utils] has [cat.c], [wc.c], [echo.c] and
      the name formatting of [ls.c].  [Sh] is the shell [sh.c]: its parser (with
      [ShParse] and [ShPrint]), the execution of commands ([ShRun]) and the job
      list ([ShJobs]).  [Calls] has the system calls as the events of an
      interaction tree and what the kernel may answer; [Programs] has the main
      functions of [init.c], [cat.c], [wc.c], [ls.c], [echo.c], [rm.c],
      [mkdir.c], [ln.c], [kill.c], [zombie.c], [forktest.c] and [stressfs.c] as
      such trees, and [ProgramSpec] their lemmas; [GrepMain] and [ShMain] are the
      main functions of [grep.c] and [sh.c].
    - Devices and start-up.  [Mkfs] is [mkfs.c], which writes the image the
      kernel starts from, [Boot] the boot loader [bootmain.c].  [Ide] is the
      disk driver [ide.c], [Mp] the discovery of processors [mp.c], [Devices]
      the interrupt controllers, timer, clock and serial port ([picirq.c],
      [ioapic.c], [lapic.c], [timer.c], [uart.c]), [Start] is [startothers] of
      [main.c], [Segment] the segments and gates ([mmu.h], [seginit] and
      [switchuvm] of [vm.c], [tvinit] of [trap.c]), [Cprintf] the kernel's
      messages ([cprintf] and [panic] of [console.c], [procdump] of [proc.c]).
      [Main] is [main], [mpmain] and [mpenter] of [main.c] on the joint state of
      the components, [MainSpec] its lemmas.
    - Assembly.  [Asm] has the instructions the sources use, as steps of a machine
      with registers, segments, flags and memory, the processor's way through a
      gate, and the listings of [swtch.S], [trapasm.S], the entry points
      [vectors.pl] prints, [usys.S], [initcode.S], [entry.S], [bootasm.S] and
      [entryother.S].  [AsmSpec] runs the context switch, the trap entry and the
      return from it, [AsmBoot] the start-up code with the boot page directory.
    - [CString] is [string.c], [Params] the constants of the headers, [Bytes] the
      little-endian fields of C structures.  [MemDemo] and [Demo] are the
      concrete machine and disk on which the theorems are instantiated.

    ** Conventions

    A routine is a function of the state that ends in a value [outcome]: it
    returns ([Ok]), stops the kernel ([Panic]), goes to sleep on a channel
    ([Sleep]) or, in a model with a bound on a loop, runs out of it ([Fuel]).
    [wp m Q s] says that [m] returns from [s] and [Q] holds then, so a theorem
    stated with it includes termination.  Pointers into tables are indices and
    null pointers [None] or 0, as in the code; machine integers are [Z] with
    every wrap-around written out.  A routine that sleeps is modelled up to that
    point; the loops of the code test their conditions again after a sleep, which
    is the same call again.  A critical section is one step; [Spinlock] proves
    mutual exclusion for the lock that protects it.

    What is not under the source tree is an argument of the definitions that use
    it: the addresses the linker chooses ([kend], [data], [trapret], [forkret],
    [at_] for the instructions of a listing, [cpu_at] and [idt_at] for tables),
    the device switch [dv], the bytes of [initcode] and of the code an exiting
    process returns to, the characters devices deliver and the bytes ports
    answer ([inputs]), when a write of another processor is seen ([visible]),
    whether a push of a segment register writes two or four bytes ([wide]; the
    theorems hold for both).  A device is an instance
    of a class that states its documented behaviour: [Controller] (an ATA disk
    controller), [Hardware] (ports and APIC registers), [RealTimeClock].  Each
    class has a concrete instance, on which the theorems are instantiated.
    Programs run against every answer the kernel may give: [must] is total
    correctness of a program that ends, [safe] what holds at every call of one
    that does not, [ends] both together.

    Bounds on loops: the loops over tables and bit maps run over lists and need
    none.  [readi], [writei] and [namex] get a bound from the size or the path
    ([io_fuel n] is one more than the blocks [n] bytes can touch), the shell's
    parser one that is linear in the length of the line ([parse_fuel]), the
    allocator one that is linear in the size of the heap; the theorems show that
    these suffice.  The runs of assembly are given the number of their steps, or
    for the polling loops of [bootasm.S] one that exists.  Loops that poll a device have a bound too: the class of the
    device says that it answers after finitely many polls, and the theorems hold
    for every bound from there on.

    ** What is proved

    - [StorageProps]: a transaction survives a crash completely or not at all,
      wherever the crash hits the commit or the recovery; the cache is coherent;
      blocks and inodes are allocated and freed exactly; what is written to a
      file is what is read back, and nothing else changes; names linked into a
      directory are found; errors leave the state alone.
    - [MemoryProps]: growing, copying, shrinking and freeing address spaces does
      to the pages, the tables and the free list what it should, byte for byte.
    - [KernelProps]: [fork] makes a faithful copy; [exit] and [waitpid] hand the
      status to the parent and release what the child held; every trap, with any
      system call and any arguments, keeps the process tree well formed; a fault
      in a program ends that program only; locks exclude, pipes are queues, the
      scheduler starves nobody, the console delivers the lines that were typed;
      pointers from user programs are checked.
    - [UserProps]: the shell runs what the typed line says, and its parser ends on
      every line; its job list stays consistent; [grep] decides the language of
      the pattern and prints the matching lines; [malloc] never hands out a byte
      twice and loses none; numbers survive printing; [wc] counts.
    - [ProgramProps]: [init] keeps one shell running; the shell keeps to the line
      that was typed and to the pipes of its jobs in every session; [cat] copies
      what it reads, [grep] prints the matching lines, [rm] and its like do their
      work in order and report failure, [ls] ends.
    - [BootProps]: [mkfs] writes an image with the files it is given; the disk
      driver serves requests in order and refines the memory disk; [mpinit]
      finds the processors.
    - [StartProps]: the machine gets from the first instruction of the boot
      sector through the boot loader to [main], other processors to [mpenter].
      [MainProps]: [main] brings the kernel up to the scheduler.
    - [AsmProps]: a process that is switched away from continues; a trap is
      invisible to the code it interrupts but for its result; a system call goes
      from its stub into the kernel and back; a child returns from [fork] like
      its parent; the first process runs [/init]; a program that returns from
      [main] exits with the wrong status.
    - [DeviceProps]: programs enter the kernel only through its gates; interrupts
      are routed to the processors they are enabled for; the clock is read at one
      moment; every other processor is started with a stack of its own; kernel
      messages read like those of [printf].

    The theorems on allocating disk blocks assume that the blocks the bitmap shows
    as free are not blocks of the log.  The image [mkfs.c] writes does not meet
    that, since it leaves the blocks of the log marked as free; [Demo] does.

    ** Not modelled

    The linker script [kernel.ld] and [sign.pl], which are input of the build; the
    multiboot header of [entry.S], which is data for another boot loader.  The
    encoding of instructions as bytes: the assembly is run as a listing, and the
    bytes of [initcode] and [entryother.S] that the build embeds are arguments.
    The caches and store buffers of the processors: an access to memory is one
    step.  The memory allocator under the shell's jobs is an argument of [ShMain],
    with the property [Umalloc] proves of it. *)

From stdpp Require Export base tactics numbers list strings option sets gmap fin_maps.
From Stdlib Require Export ZArith Lia.

#[export] Set Warnings "-clear-no-such-hyp".

#[global] Open Scope Z_scope.

(** ** Machine integers

    C's [uint], [ushort] and [uchar] are kept as [Z] in range, with the
    wrap-around of every arithmetic operation written out. *)

Definition wrap (w x : Z) : Z := x mod 2 ^ w.
Definition u32 (x : Z) : Z := wrap 32 x.
Definition u16 (x : Z) : Z := wrap 16 x.
Definition u8 (x : Z) : Z := wrap 8 x.

(** The value of a 32-bit word read as a signed [int]. *)
Definition s32 (x : Z) : Z := (x + 2 ^ 31) mod 2 ^ 32 - 2 ^ 31.

(** The value of a 16-bit field read as a [short]. *)
Definition s16 (x : Z) : Z := (x + 2 ^ 15) mod 2 ^ 16 - 2 ^ 15.

Lemma s16_wrap x : s16 (x mod 2 ^ 16) = s16 x.
Proof. unfold s16. by rewrite Zplus_mod_idemp_l. Qed.

Lemma s16_small x : - 2 ^ 15 <= x < 2 ^ 15 -> s16 x = x.
Proof. intros. unfold s16. rewrite Z.mod_small; lia. Qed.

Lemma u32_range x : 0 <= u32 x < 2 ^ 32.
Proof. apply Z.mod_pos_bound. lia. Qed.

Lemma u32_small x : 0 <= x < 2 ^ 32 -> u32 x = x.
Proof. apply Z.mod_small. Qed.

Lemma u32_u32 x : u32 (u32 x) = u32 x.
Proof. apply u32_small, u32_range. Qed.

Lemma u32_add_l x y : u32 (u32 x + y) = u32 (x + y).
Proof. apply Zplus_mod_idemp_l. Qed.

Lemma u32_sub_both x y : u32 (u32 x - u32 y) = u32 (x - y).
Proof. symmetry. apply Zminus_mod. Qed.

Lemma s32_small x : - 2 ^ 31 <= x < 2 ^ 31 -> s32 x = x.
Proof. intros. unfold s32. rewrite Z.mod_small; lia. Qed.

Lemma s32_range x : - 2 ^ 31 <= s32 x < 2 ^ 31.
Proof. unfold s32. pose proof (Z.mod_pos_bound (x + 2 ^ 31) (2 ^ 32)). lia. Qed.

(** A signed [int] and the word that holds it agree modulo [2 ^ 32]. *)
Lemma u32_s32 x : u32 (s32 x) = u32 x.
Proof.
  unfold u32, wrap, s32. rewrite Zminus_mod_idemp_l. f_equal. lia.
Qed.

(** ** Flag words

    [has f m] is C's test [(f & m) != 0]; the masks of this code base are all
    single bits. *)

Definition has (f m : Z) : bool := negb (Z.land f m =? 0).
Definition set_flag (f m : Z) : Z := Z.lor f m.
Definition clr_flag (f m : Z) : Z := Z.land f (Z.lnot m).

Lemma has_bit f k : 0 <= k -> has f (2 ^ k) = Z.testbit f k.
Proof.
  intros Hk. unfold has. destruct (Z.testbit f k) eqn:E.
  - destruct (Z.eqb_spec (Z.land f (2 ^ k)) 0) as [H|]; [|done].
    apply (f_equal (fun z => Z.testbit z k)) in H.
    rewrite Z.land_spec, E, Z.pow2_bits_true, Z.bits_0 in H by lia. done.
  - replace (Z.land f (2 ^ k)) with 0; [done|]. symmetry.
    apply Z.bits_inj'. intros n Hn.
    rewrite Z.land_spec, Z.pow2_bits_eqb, Z.bits_0 by lia.
    destruct (Z.eqb_spec k n) as [<-|]; [by rewrite E|by rewrite andb_false_r].
Qed.

Lemma has_set f k j :
  0 <= k -> 0 <= j ->
  has (set_flag f (2 ^ k)) (2 ^ j) = (k =? j) || has f (2 ^ j).
Proof.
  intros. rewrite !has_bit by lia. unfold set_flag.
  rewrite Z.lor_spec, Z.pow2_bits_eqb by lia. apply orb_comm.
Qed.

Lemma has_clr f k j :
  0 <= k -> 0 <= j ->
  has (clr_flag f (2 ^ k)) (2 ^ j) = negb (k =? j) && has f (2 ^ j).
Proof.
  intros. rewrite !has_bit by lia. unfold clr_flag.
  rewrite Z.land_spec, Z.lnot_spec, Z.pow2_bits_eqb by lia. apply andb_comm.
Qed.

(** Masks that are a single bit, and the laws of setting and clearing them. *)
Definition single (m : Z) : Prop := exists k, 0 <= k /\ m = 2 ^ k.

Lemma has_set_same f m : single m -> has (set_flag f m) m = true.
Proof. intros (k & Hk & ->). by rewrite has_set, Z.eqb_refl by lia. Qed.

Lemma has_set_diff f m m' :
  single m -> single m' -> m <> m' -> has (set_flag f m) m' = has f m'.
Proof.
  intros (k & Hk & ->) (j & Hj & ->) Hne. rewrite has_set by lia.
  destruct (Z.eqb_spec k j); [congruence|done].
Qed.

Lemma has_clr_same f m : single m -> has (clr_flag f m) m = false.
Proof. intros (k & Hk & ->). by rewrite has_clr, Z.eqb_refl by lia. Qed.

Lemma has_clr_diff f m m' :
  single m -> single m' -> m <> m' -> has (clr_flag f m) m' = has f m'.
Proof.
  intros (k & Hk & ->) (j & Hj & ->) Hne. rewrite has_clr by lia.
  destruct (Z.eqb_spec k j); [congruence|done].
Qed.

Lemma land_single f m : single m -> Z.land f m = if has f m then m else 0.
Proof.
  intros (k & Hk & ->). rewrite has_bit by done. apply Z.bits_inj'. intros n Hn.
  rewrite Z.land_spec, Z.pow2_bits_eqb by done.
  destruct (Z.eqb_spec k n) as [<-|]; destruct (Z.testbit f k) eqn:E;
    rewrite ?Z.pow2_bits_true, ?Z.pow2_bits_false, ?Z.bits_0 by (done || lia);
    by rewrite ?E, ?andb_false_r.
Qed.

(** ** Kernel computations

    A kernel routine is a function of the state it works on.  It returns a
    value, stops the machine with [panic], or gives up the processor in
    [sleep]; the state a sleeping routine leaves behind is kept.  [Fuel] is
    not a behaviour of the code: it marks a loop that was cut off by the bound
    of the model, and every theorem that a routine returns excludes it. *)

(** Sleep channels.  In C a channel is the address of an object; distinct
    objects have distinct addresses, so one constructor per kind of object
    with the object's index is an injective naming of them. *)
Inductive chan :=
  | ch_proc (i : nat)
  | ch_buf (i : nat)
  | ch_inode (i : nat)
  | ch_log
  | ch_ticks
  | ch_nread (p : Z)
  | ch_nwrite (p : Z)
  | ch_input.

#[export] Instance chan_eq_dec : EqDecision chan.
Proof. solve_decision. Defined.

Inductive outcome (St A : Type) :=
  | Ok (a : A) (s : St)
  | Panic (msg : string)
  | Sleep (c : chan) (s : St)
  | Fuel.
Arguments Ok {St A} _ _.
Arguments Panic {St A} _.
Arguments Sleep {St A} _ _.
Arguments Fuel {St A}.

Definition M (St A : Type) : Type := St -> outcome St A.

Definition ret {St A} (a : A) : M St A := fun s => Ok a s.

Definition bind {St A B} (m : M St A) (f : A -> M St B) : M St B :=
  fun s => match m s with
           | Ok a s' => f a s'
           | Panic msg => Panic msg
           | Sleep c s' => Sleep c s'
           | Fuel => Fuel
           end.

Definition panic {St A} (msg : string) : M St A := fun _ => Panic msg.
Definition sleep {St A} (c : chan) : M St A := fun s => Sleep c s.
Definition gets {St A} (f : St -> A) : M St A := fun s => Ok (f s) s.
Definition modify {St} (f : St -> St) : M St unit := fun s => Ok tt (f s).

Declare Scope kernel_scope.
Delimit Scope kernel_scope with kernel.

Notation "'let!' x ':=' m 'in' k" := (bind m (fun x => k))
  (at level 10, x pattern, m at level 100, k at level 200,
   format "'[v' 'let!'  x  ':='  m  'in' '/' k ']'") : kernel_scope.
Notation "m ';;;' k" := (bind m (fun _ => k))
  (at level 110, right associativity,
   format "'[v' m ';;;' '/' k ']'") : kernel_scope.

#[global] Open Scope kernel_scope.

(** [for_ xs body] is a counted loop over the list of the counter's values. *)
Fixpoint for_ {St A} (xs : list A) (body : A -> M St unit) : M St unit :=
  match xs with
  | [] => ret tt
  | x :: xs' => body x ;;; for_ xs' body
  end.

(** [first_ xs body] is a loop that its body may leave early with a value. *)
Fixpoint first_ {St A B} (xs : list A) (body : A -> M St (option B)) : M St (option B) :=
  match xs with
  | [] => ret None
  | x :: xs' =>
      let! r := body x in
      match r with
      | Some b => ret (Some b)
      | None => first_ xs' body
      end
  end.

(** The values [0, 1, ..., n - 1] of a loop counter. *)
Definition upto (n : Z) : list nat := seq 0 (Z.to_nat n).

(** ** Total-correctness predicates

    [wp m Q s]: run from [s], the routine [m] returns normally, and its value
    and final state satisfy [Q].  A panic or a sleep falsifies it. *)

Definition wp {St A} (m : M St A) (Q : A -> St -> Prop) (s : St) : Prop :=
  match m s with
  | Ok a s' => Q a s'
  | _ => False
  end.

Section WP.
Context {St A B : Type}.
Implicit Types (Q : B -> St -> Prop).

Lemma wp_ret (b : B) Q s : Q b s -> wp (ret b) Q s.
Proof. done. Qed.

Lemma wp_bind (m : M St A) (f : A -> M St B) Q s :
  wp m (fun a => wp (f a) Q) s -> wp (bind m f) Q s.
Proof. unfold wp, bind. by destruct (m s). Qed.

Lemma wp_mono (m : M St B) Q Q' s :
  wp m Q s -> (forall b s', Q b s' -> Q' b s') -> wp m Q' s.
Proof. unfold wp. destruct (m s); naive_solver. Qed.

Lemma wp_eq (m m' : M St B) Q s : m s = m' s -> wp m' Q s -> wp m Q s.
Proof. unfold wp. by intros ->. Qed.

Lemma wp_gets (f : St -> B) Q s : Q (f s) s -> wp (gets f) Q s.
Proof. done. Qed.

Lemma wp_ok (m : M St B) Q s : wp m Q s <-> exists b s', m s = Ok b s' /\ Q b s'.
Proof.
  unfold wp. split.
  - destruct (m s) as [b s'| | |]; [eauto|done..].
  - by intros (b & s' & -> & HQ).
Qed.

Lemma wp_run (m : M St B) Q s : wp m Q s -> exists b s', m s = Ok b s' /\ Q b s'.
Proof. apply wp_ok. Qed.

(** A run satisfies both of its specifications. *)
Lemma wp_both (m : M St B) Q R s : wp m Q s -> wp m R s -> exists a s', Q a s' /\ R a s'.
Proof. unfold wp. destruct (m s); eauto; done. Qed.
End WP.

Lemma wp_modify {St} (f : St -> St) (Q : unit -> St -> Prop) s :
  Q tt (f s) -> wp (modify f) Q s.
Proof. done. Qed.

(** The rule for counted loops: [I k] holds after [k] iterations. *)
Lemma wp_for {St A} (I : nat -> St -> Prop) (xs : list A) (body : A -> M St unit) s :
  I O s ->
  (forall k x s', xs !! k = Some x -> I k s' ->
     wp (body x) (fun _ => I (S k)) s') ->
  wp (for_ xs body) (fun _ => I (length xs)) s.
Proof.
  revert I s. induction xs as [|x xs IH]; intros I s H0 Hstep; [done|].
  simpl. apply wp_bind. eapply wp_mono; [by apply (Hstep O)|].
  intros [] s' H1. apply (IH (fun k => I (S k))); [done|].
  intros k y s'' Hk. by apply Hstep.
Qed.

(** The rule for loops with an early exit. *)
Lemma wp_first {St A B} (I : nat -> St -> Prop) (xs : list A) (body : A -> M St (option B)) Q s :
  I O s ->
  (forall k x s', xs !! k = Some x -> I k s' ->
     wp (body x) (fun r s'' => match r with Some _ => Q r s'' | None => I (S k) s'' end) s') ->
  (forall s', I (length xs) s' -> Q None s') ->
  wp (first_ xs body) Q s.
Proof.
  revert I s. induction xs as [|x xs IH]; intros I s H0 Hstep Hend; simpl.
  - apply wp_ret. by apply Hend.
  - apply wp_bind. eapply wp_mono; [by apply (Hstep O)|].
    intros [b|] s' H1; [by apply wp_ret|].
    apply (IH (fun k => I (S k))); [done| |done]. intros k y s'' Hk. by apply Hstep.
Qed.

Lemma lookup_upto n k i : upto n !! k = Some i -> i = k /\ Z.of_nat k < n.
Proof. intros [-> Hk]%lookup_seq. lia. Qed.

Lemma length_upto n : length (upto n) = Z.to_nat n.
Proof. apply length_seq. Qed.

Lemma bind_assoc {St A B C} (m : M St A) (f : A -> M St B) (g : B -> M St C) s :
  bind (bind m f) g s = bind m (fun a => bind (f a) g) s.
Proof. unfold bind. by destruct (m s). Qed.

Lemma wp_assoc {St A B C} (m : M St A) (f : A -> M St B) (g : B -> M St C) Q s :
  wp (bind (bind m f) g) Q s -> wp (bind m (fun a => bind (f a) g)) Q s.
Proof. apply wp_eq. symmetry. apply bind_assoc. Qed.

Create HintDb kernel.
Create Rewrite HintDb flags.
#[export] Hint Resolve wp_ret wp_gets wp_modify : kernel.

(** Peel the leading commands of a routine. *)
Ltac wp_step :=
  lazymatch goal with
  | |- wp (bind _ _) _ _ => apply wp_bind
  | |- wp (ret _) _ _ => apply wp_ret
  | |- wp (gets _) _ _ => apply wp_gets; cbn beta
  | |- wp (modify _) _ _ => apply wp_modify; cbn beta
  end.
Ltac wp_steps := repeat wp_step.

(** [wp_use H]: discharge the goal's leading call by the specification [H]. *)
Ltac wp_use H := eapply wp_mono; [eapply H|cbn beta].
