(* ===== verification/Bytes.v ===== *)
(** * Little-endian fields in byte buffers

    Disk blocks are arrays of bytes; the kernel reads superblocks, inodes,
    log headers and directory entries out of them by casting the buffer to a
    C struct.  This file holds the x86 (little-endian) layout of such fields:
    [ld n l o] is the [n]-byte unsigned field of [l] at byte offset [o] and
    [st n l o v] the buffer after storing [v] there. *)

From S2P Require Import Prelude.

Fixpoint le (n : nat) (v : Z) : list Z :=
  match n with
  | O => []
  | S n' => v mod 256 :: le n' (v / 256)
  end.

Fixpoint unle (l : list Z) : Z :=
  match l with
  | [] => 0
  | b :: l' => b + 256 * unle l'
  end.

(** Replacing the bytes of [l] from offset [o] on by those of [w]. *)
Definition splice (l : list Z) (o : nat) (w : list Z) : list Z :=
  take o l ++ w ++ drop (o + length w) l.

Definition slice (l : list Z) (o n : nat) : list Z := take n (drop o l).

Definition ld (n : nat) (l : list Z) (o : nat) : Z := unle (slice l o n).
Definition st (n : nat) (l : list Z) (o : nat) (v : Z) : list Z := splice l o (le n v).

Definition ld32 := ld 4.
Definition st32 := st 4.
Definition ld16 := ld 2.
Definition st16 := st 2.

(** The bytes of a buffer are in range. *)
Definition is_bytes (l : list Z) : Prop := Forall (fun b => 0 <= b < 256) l.

Lemma length_le n v : length (le n v) = n.
Proof. revert v. induction n; simpl; auto. Qed.

Lemma le_bytes n v : is_bytes (le n v).
Proof.
  revert v. induction n as [|n IH]; intros v; simpl; constructor; [|apply IH].
  apply Z.mod_pos_bound. lia.
Qed.

Lemma unle_le n v : unle (le n v) = v mod 2 ^ (8 * Z.of_nat n).
Proof.
  revert v. induction n as [|n IH]; intros v; simpl le; simpl unle.
  - by rewrite Z.mod_1_r.
  - rewrite IH. replace (8 * Z.of_nat (S n)) with (8 + 8 * Z.of_nat n) by lia.
    rewrite Z.pow_add_r by lia. change (2 ^ 8) with 256.
    rewrite Z.rem_mul_r by lia. lia.
Qed.

Lemma unle_range l : is_bytes l -> 0 <= unle l < 2 ^ (8 * Z.of_nat (length l)).
Proof.
  induction 1 as [|b l Hb _ IH]; simpl unle; simpl length; [lia|].
  replace (8 * Z.of_nat (S (length l))) with (8 + 8 * Z.of_nat (length l)) by lia.
  rewrite Z.pow_add_r by lia. change (2 ^ 8) with 256. nia.
Qed.

Lemma le_unle l : is_bytes l -> le (length l) (unle l) = l.
Proof.
  induction 1 as [|b l Hb _ IH]; simpl; [done|].
  replace (b + 256 * unle l) with (b + unle l * 256) by lia.
  rewrite Z.mod_add, Z.div_add, Z.mod_small, Z.div_small by lia.
  by rewrite Z.add_0_l, IH.
Qed.

Lemma unle_zero n : unle (replicate n 0) = 0.
Proof. induction n as [|n IH]; simpl; lia. Qed.

Section Splice.
Implicit Types (l w : list Z) (o n : nat).

Lemma length_splice l o w : (o + length w <= length l)%nat -> length (splice l o w) = length l.
Proof. intros. unfold splice. rewrite !length_app, length_take, length_drop. lia. Qed.

Lemma length_slice l o n : (o + n <= length l)%nat -> length (slice l o n) = n.
Proof. intros. unfold slice. rewrite length_take, length_drop. lia. Qed.

Lemma slice_splice_eq l o w : (o + length w <= length l)%nat -> slice (splice l o w) o (length w) = w.
Proof.
  intros. unfold slice, splice.
  rewrite drop_app_length' by (rewrite length_take; lia).
  by rewrite take_app_length.
Qed.

(** Reading outside the stored range is unaffected. *)
Lemma slice_splice_ne l o w o' n :
  (o + length w <= length l)%nat ->
  (o' + n <= o \/ o + length w <= o')%nat ->
  slice (splice l o w) o' n = slice l o' n.
Proof.
  intros Hl [Hd|Hd]; unfold slice, splice; apply list_eq; intros i.
  - destruct (decide (i < n)%nat).
    + rewrite !lookup_take_lt, !lookup_drop by lia.
      rewrite lookup_app_l by (rewrite length_take; lia).
      apply lookup_take_lt. lia.
    + by rewrite !lookup_take_ge by lia.
  - destruct (decide (i < n)%nat).
    + rewrite !lookup_take_lt, !lookup_drop by lia.
      rewrite lookup_app_r by (rewrite length_take; lia).
      rewrite lookup_app_r by (rewrite length_take; lia).
      rewrite lookup_drop. f_equal. rewrite length_take. lia.
    + by rewrite !lookup_take_ge by lia.
Qed.

(** Reading inside the stored range gives what was stored. *)
Lemma slice_splice_in l o w a n :
  (o + length w <= length l)%nat -> (a + n <= length w)%nat ->
  slice (splice l o w) (o + a) n = slice w a n.
Proof.
  intros Hl Ha. unfold slice, splice. apply list_eq. intros i. destruct (decide (i < n)%nat).
  - rewrite !lookup_take_lt, !lookup_drop by lia.
    rewrite lookup_app_r by (rewrite length_take; lia). rewrite length_take.
    rewrite lookup_app_l by lia. f_equal. lia.
  - by rewrite !lookup_take_ge by lia.
Qed.

Lemma splice_bytes l o w : is_bytes l -> is_bytes w -> is_bytes (splice l o w).
Proof.
  intros Hl Hw. unfold splice, is_bytes. rewrite !Forall_app. split_and!; [|done|].
  - by apply Forall_take.
  - by apply Forall_drop.
Qed.

Lemma slice_bytes l o n : is_bytes l -> is_bytes (slice l o n).
Proof. intros. by apply Forall_take, Forall_drop. Qed.

Lemma slice_all l n : length l = n -> slice l 0 n = l.
Proof. intros. unfold slice. rewrite drop_0. apply take_ge. lia. Qed.

Lemma length_st n l o v : (o + n <= length l)%nat -> length (st n l o v) = length l.
Proof. intros. apply length_splice. rewrite length_le. lia. Qed.

Lemma ld_st_eq n l o v :
  (o + n <= length l)%nat -> ld n (st n l o v) o = v mod 2 ^ (8 * Z.of_nat n).
Proof.
  intros. unfold ld, st.
  pose proof (slice_splice_eq l o (le n v)) as E. rewrite length_le in E.
  by rewrite E, unle_le.
Qed.

Lemma ld_st_ne n m l o o' v :
  (o + n <= length l)%nat -> (o' + m <= o \/ o + n <= o')%nat ->
  ld m (st n l o v) o' = ld m l o'.
Proof. intros. unfold ld, st. rewrite slice_splice_ne; rewrite ?length_le; auto. Qed.

Lemma st_bytes n l o v : is_bytes l -> is_bytes (st n l o v).
Proof. intros. apply splice_bytes; [done|apply le_bytes]. Qed.

Lemma ld_range n l o :
  is_bytes l -> (o + n <= length l)%nat -> 0 <= ld n l o < 2 ^ (8 * Z.of_nat n).
Proof.
  intros Hb Hl. unfold ld.
  pose proof (unle_range (slice l o n)) as H.
  rewrite length_slice in H by done. by apply H, slice_bytes.
Qed.
End Splice.

Create HintDb bytes.
#[export] Hint Resolve le_bytes splice_bytes slice_bytes st_bytes : bytes.
