(* ===== verification/Params.v ===== *)
(** * Constants and layout macros

    [param.h], the on-disk format of [fs.h], the buffer and inode flags of
    [buf.h] and [file.h], the address macros of [mmu.h] and [memlayout.h]. *)

From S2P Require Import Prelude.

(** ** [param.h] *)

Definition NPROC : nat := 64.
Definition KSTACKSIZE : Z := 4096.
Definition NCPU : nat := 8.
Definition NOFILE : nat := 16.
Definition NFILE : nat := 100.
Definition NINODE : nat := 50.
Definition NDEV : Z := 10.
Definition ROOTDEV : Z := 1.
Definition MAXARG : Z := 32.
Definition MAXOPBLOCKS : Z := 10.
Definition LOGSIZE : Z := MAXOPBLOCKS * 3.
Definition NBUF : nat := Z.to_nat (MAXOPBLOCKS * 3).

(** ** [buf.h] *)

Definition B_BUSY : Z := 1.
Definition B_VALID : Z := 2.
Definition B_DIRTY : Z := 4.

(** ** [fs.h] *)

Definition ROOTINO : Z := 1.
Definition BSIZE : Z := 512.
Definition NDIRECT : Z := 12.
Definition NINDIRECT : Z := BSIZE / 4.
Definition MAXFILE : Z := NDIRECT + NINDIRECT.
(** [sizeof(struct dinode)]: four shorts, a uint and [NDIRECT+1] uints. *)
Definition DINODE_SIZE : Z := 4 * 2 + 4 + (NDIRECT + 1) * 4.
Definition IPB : Z := BSIZE / DINODE_SIZE.
Definition IBLOCK (i : Z) : Z := i / IPB + 2.
Definition BPB : Z := BSIZE * 8.
Definition BBLOCK (b ninodes : Z) : Z := b / BPB + ninodes / IPB + 3.
Definition DIRSIZ : nat := 14.
Definition DIRENT_SIZE : Z := 16.
Definition T_DIR : Z := 1.
Definition T_FILE : Z := 2.
Definition T_DEV : Z := 3.

(** ** [mmu.h] and [memlayout.h] *)

Definition PGSIZE : Z := 4096.
Definition PTXSHIFT : Z := 12.
Definition PDXSHIFT : Z := 22.
Definition NPDENTRIES : Z := 1024.
Definition NPTENTRIES : Z := 1024.
Definition PDX (va : Z) : Z := Z.land (Z.shiftr va PDXSHIFT) 0x3FF.
Definition PTX (va : Z) : Z := Z.land (Z.shiftr va PTXSHIFT) 0x3FF.
Definition PGADDR (d t o : Z) : Z :=
  u32 (Z.lor (Z.lor (Z.shiftl d PDXSHIFT) (Z.shiftl t PTXSHIFT)) o).
Definition PGROUNDUP (sz : Z) : Z := Z.land (u32 (sz + PGSIZE - 1)) (u32 (Z.lnot (PGSIZE - 1))).
Definition PGROUNDDOWN (a : Z) : Z := Z.land a (u32 (Z.lnot (PGSIZE - 1))).
Definition PTE_P : Z := 0x001.
Definition PTE_W : Z := 0x002.
Definition PTE_U : Z := 0x004.
Definition PTE_ADDR (pte : Z) : Z := Z.land pte (u32 (Z.lnot 0xFFF)).
Definition PTE_FLAGS (pte : Z) : Z := Z.land pte 0xFFF.

Definition EXTMEM : Z := 0x100000.
Definition PHYSTOP : Z := 0xE000000.
Definition DEVSPACE : Z := 0xFE000000.
Definition KERNBASE : Z := 0x80000000.
Definition KERNLINK : Z := KERNBASE + EXTMEM.
Definition v2p (a : Z) : Z := u32 (a - KERNBASE).
Definition p2v (a : Z) : Z := u32 (a + KERNBASE).

(** [fcntl.h] *)
Definition O_RDONLY : Z := 0.
Definition O_WRONLY : Z := 1.
Definition O_RDWR : Z := 2.
Definition O_CREATE : Z := 0x200.

(** ** Rounding and address splitting *)

Lemma land_high_mask x k w :
  0 <= k <= w -> 0 <= x < 2 ^ w -> Z.land x ((2 ^ w - 1) - (2 ^ k - 1)) = x / 2 ^ k * 2 ^ k.
Proof.
  intros Hk Hx.
  replace ((2 ^ w - 1) - (2 ^ k - 1)) with (Z.shiftl (Z.ones (w - k)) k).
  - apply Z.bits_inj'. intros n Hn.
    rewrite Z.land_spec, Z.shiftl_spec, <- Z.shiftr_div_pow2, <- Z.shiftl_mul_pow2 by lia.
    rewrite Z.shiftl_spec by lia.
    destruct (Z.ltb_spec n k).
    + rewrite !(Z.testbit_neg_r _ (n - k)) by lia. apply andb_false_r.
    + rewrite Z.shiftr_spec by lia. replace (n - k + k) with n by lia.
      destruct (Z.ltb_spec n w).
      * rewrite Z.ones_spec_low by lia. apply andb_true_r.
      * rewrite <- (Z.mod_small x (2 ^ w)), Z.mod_pow2_bits_high by lia. done.
  - rewrite Z.ones_equiv, Z.shiftl_mul_pow2 by lia. unfold Z.pred.
    rewrite Z.mul_add_distr_r, <- Z.pow_add_r by lia.
    replace (w - k + k) with w by lia. lia.
Qed.

Lemma pground_mask x : 0 <= x < 2 ^ 32 -> Z.land x (u32 (Z.lnot (PGSIZE - 1))) = x / PGSIZE * PGSIZE.
Proof. apply (land_high_mask x 12 32). lia. Qed.

Lemma PGROUNDDOWN_spec a : 0 <= a < 2 ^ 32 -> PGROUNDDOWN a = a - a mod PGSIZE.
Proof.
  intros. unfold PGROUNDDOWN. rewrite pground_mask by done.
  pose proof (Z.div_mod a PGSIZE). unfold PGSIZE in *. lia.
Qed.

(** Below [2 ^ 32 - PGSIZE + 1] rounding up does not wrap. *)
Lemma PGROUNDUP_spec a :
  0 <= a <= 2 ^ 32 - PGSIZE ->
  a <= PGROUNDUP a < a + PGSIZE /\ PGROUNDUP a mod PGSIZE = 0.
Proof.
  intros. unfold PGROUNDUP. rewrite (u32_small (_ - 1)) by (unfold PGSIZE in *; lia).
  rewrite pground_mask by (unfold PGSIZE in *; lia).
  pose proof (Z.div_mod (a + PGSIZE - 1) PGSIZE).
  pose proof (Z.mod_pos_bound (a + PGSIZE - 1) PGSIZE).
  rewrite Z.mod_mul by (unfold PGSIZE; lia).
  unfold PGSIZE in *. lia.
Qed.

Lemma PDX_spec va : 0 <= va < 2 ^ 32 -> PDX va = va / 2 ^ 22.
Proof.
  intros. unfold PDX. change 0x3FF with (Z.ones 10).
  rewrite Z.land_ones, Z.shiftr_div_pow2 by (unfold PDXSHIFT; lia).
  unfold PDXSHIFT. apply Z.mod_small. split; [apply Z.div_pos; lia|].
  apply Z.div_lt_upper_bound; lia.
Qed.

Lemma PTX_spec va : 0 <= va -> PTX va = va / 2 ^ 12 mod 1024.
Proof.
  intros. unfold PTX. change 0x3FF with (Z.ones 10).
  by rewrite Z.land_ones, Z.shiftr_div_pow2 by (unfold PTXSHIFT; lia).
Qed.
