(* ===== verification/CString.v ===== *)
(** * The kernel's memory and string routines ([string.c])

    The block routines work on a byte-addressed memory, since their point is
    how they behave when words are stored instead of bytes ([memset]) or when
    source and destination overlap ([memmove]).  The string routines read
    through [char*] pointers, modelled as functions from offsets to bytes. *)

From S2P Require Import Prelude Bytes.

(** Memory: the byte at each address. *)
Abbreviation mem := (Z -> Z).

Definition poke (a v : Z) (m : mem) : mem := fun x => if x =? a then v else m x.

(** ** [x86.h]'s string stores *)

Fixpoint stosb (m : mem) (dst c : Z) (n : nat) : mem :=
  match n with
  | O => m
  | S n' => stosb (poke dst (u8 c) m) (dst + 1) c n'
  end.

(** One 32-bit store, low byte first. *)
Definition store32 (a v : Z) (m : mem) : mem :=
  poke (a + 3) (u8 (Z.shiftr v 24)) (poke (a + 2) (u8 (Z.shiftr v 16))
    (poke (a + 1) (u8 (Z.shiftr v 8)) (poke a (u8 v) m))).

Fixpoint stosl (m : mem) (dst v : Z) (n : nat) : mem :=
  match n with
  | O => m
  | S n' => stosl (store32 dst v m) (dst + 4) v n'
  end.

(** ** [string.c] *)

Definition memset (m : mem) (dst c n : Z) : mem :=
  if (Z.rem (s32 dst) 4 =? 0) && (n mod 4 =? 0) then
    let c := Z.land c 0xFF in
    stosl m dst (Z.lor (Z.lor (Z.lor (Z.shiftl c 24) (Z.shiftl c 16)) (Z.shiftl c 8)) c) (Z.to_nat (n / 4))
  else stosb m dst c (Z.to_nat n).

Fixpoint memcmp (m : mem) (s1 s2 : Z) (n : nat) : Z :=
  match n with
  | O => 0
  | S n' => if m s1 =? m s2 then memcmp m (s1 + 1) (s2 + 1) n' else m s1 - m s2
  end.

Fixpoint copy_up (m : mem) (d s : Z) (n : nat) : mem :=
  match n with
  | O => m
  | S n' => copy_up (poke d (m s) m) (d + 1) (s + 1) n'
  end.

(** [while(n-- > 0) *--d = *--s;] *)
Fixpoint copy_down (m : mem) (d s : Z) (n : nat) : mem :=
  match n with
  | O => m
  | S n' => copy_down (poke (d - 1) (m (s - 1)) m) (d - 1) (s - 1) n'
  end.

Definition memmove (m : mem) (dst src n : Z) : mem :=
  if (src <? dst) && (dst <? src + n)
  then copy_down m (dst + n) (src + n) (Z.to_nat n)
  else copy_up m dst src (Z.to_nat n).

(** A [char*]: the bytes from it on. *)
Abbreviation cptr := (nat -> Z).

(** Where a pointer points into an array, or to a string whose terminator is
    left implicit. *)
Definition ptr (l : list Z) : cptr := fun i => nth i l 0.

Definition next (p : cptr) : cptr := fun i => p (S i).

Fixpoint strncmp (p q : cptr) (n : nat) : Z :=
  match n with
  | O => 0
  | S n' =>
      if negb (p O =? 0) && (p O =? q O) then strncmp (next p) (next q) n'
      else u8 (p O) - u8 (q O)
  end.

(** The bytes stored from [s] on. *)
Fixpoint strncpy (t : cptr) (n : nat) : list Z :=
  match n with
  | O => []
  | S n' => if t O =? 0 then 0 :: replicate n' 0 else t O :: strncpy (next t) n'
  end.

(** The loop [while(--n > 0 && ( *s++ = *t++ ) != 0)] with [n] already
    decremented, and the final store. *)
Fixpoint safestrcpy_loop (t : cptr) (n : nat) : list Z :=
  match n with
  | O => [0]
  | S n' => if t O =? 0 then [0; 0] else t O :: safestrcpy_loop (next t) n'
  end.

Definition safestrcpy (t : cptr) (n : Z) : list Z :=
  if n <=? 0 then [] else safestrcpy_loop t (Z.to_nat (n - 1)).

(** [None] when no terminator is found within [fuel] bytes. *)
Fixpoint strlen_from (s : cptr) (n : nat) (fuel : nat) : option Z :=
  match fuel with
  | O => None
  | S f => if s n =? 0 then Some (Z.of_nat n) else strlen_from s (S n) f
  end.

Definition strlen (s : cptr) (fuel : nat) : option Z := strlen_from s 0 fuel.

(** ** Block routines *)

(** What filling a range means. *)
Definition filled (m : mem) (dst v n : Z) : mem :=
  fun x => if (dst <=? x) && (x <? dst + n) then v else m x.

Ltac zcmp :=
  repeat match goal with
    | |- context [?a <? ?b] => destruct (Z.ltb_spec a b)
    | |- context [?a <=? ?b] => destruct (Z.leb_spec a b)
    | |- context [?a =? ?b] => destruct (Z.eqb_spec a b)
    end; simpl; try lia; try congruence.

Lemma stosb_spec m dst c n x : stosb m dst c n x = filled m dst (u8 c) (Z.of_nat n) x.
Proof.
  revert m dst. induction n as [|n IH]; intros m dst; simpl stosb.
  - unfold filled. zcmp.
  - rewrite IH. unfold filled, poke. zcmp.
Qed.

(** The four bytes of the word [memset] stores are all the byte [c]. *)
Lemma splat_byte c k :
  0 <= c < 256 -> 0 <= k < 4 ->
  u8 (Z.shiftr (Z.lor (Z.lor (Z.lor (Z.shiftl c 24) (Z.shiftl c 16)) (Z.shiftl c 8)) c) (8 * k)) = c.
Proof.
  intros Hc Hk. unfold u8, wrap. apply Z.bits_inj'. intros n Hn.
  assert (forall j, 8 <= j -> Z.testbit c j = false) as Hhi.
  { intros j Hj. apply Z.bits_above_log2; [lia|]. destruct (decide (c = 0)) as [->|]; [simpl; lia|].
    apply Z.log2_lt_pow2; [lia|]. pose proof (Z.pow_le_mono_r 2 8 j). lia. }
  destruct (decide (n < 8)).
  - rewrite Z.mod_pow2_bits_low, Z.shiftr_spec, !Z.lor_spec, !Z.shiftl_spec by lia.
    assert (k = 0 \/ k = 1 \/ k = 2 \/ k = 3) as [->|[->|[->| ->]]] by lia;
      repeat match goal with
        | |- context [Z.testbit c ?j] =>
            lazymatch j with n => fail | _ => first
              [ replace j with n by lia
              | rewrite (Z.testbit_neg_r c j) by lia
              | rewrite (Hhi j) by lia ] end
        end; by destruct (Z.testbit c n).
  - rewrite Z.mod_pow2_bits_high by lia. symmetry. apply Hhi. lia.
Qed.

Lemma stosl_spec m dst v b n x :
  (forall k, 0 <= k < 4 -> u8 (Z.shiftr v (8 * k)) = b) ->
  stosl m dst v n x = filled m dst b (4 * Z.of_nat n) x.
Proof.
  intros Hb.
  pose proof (Hb 0 ltac:(lia) : u8 (Z.shiftr v 0) = b) as H0.
  pose proof (Hb 1 ltac:(lia) : u8 (Z.shiftr v 8) = b) as H1.
  pose proof (Hb 2 ltac:(lia) : u8 (Z.shiftr v 16) = b) as H2.
  pose proof (Hb 3 ltac:(lia) : u8 (Z.shiftr v 24) = b) as H3.
  rewrite Z.shiftr_0_r in H0. revert m dst. induction n as [|n IH]; intros m dst; cbn [stosl].
  - unfold filled. zcmp.
  - rewrite IH. unfold filled, store32, poke. rewrite H0, H1, H2, H3. zcmp.
Qed.

(** The word loop and the byte loop of [memset] do the same. *)
Lemma memset_spec m dst c n x : 0 <= n -> memset m dst c n x = filled m dst (u8 c) n x.
Proof.
  intros Hn. unfold memset. destruct (_ && _) eqn:E.
  - apply andb_true_iff in E as [_ E%Z.eqb_eq].
    replace (u8 c) with (Z.land c 0xFF) by (apply (Z.land_ones c 8); lia).
    rewrite (stosl_spec _ _ _ (Z.land c 0xFF)).
    + f_equal. rewrite Z2Nat.id by (apply Z.div_pos; lia). pose proof (Z.div_mod n 4). lia.
    + intros k Hk. apply splat_byte; [|done].
      change 0xFF with (Z.ones 8). rewrite Z.land_ones by lia. apply Z.mod_pos_bound. lia.
  - rewrite stosb_spec. by rewrite Z2Nat.id.
Qed.

(** What moving a block means: the destination holds what the source held. *)
Definition moved (m : mem) (dst src n : Z) : mem :=
  fun x => if (dst <=? x) && (x <? dst + n) then m (src + (x - dst)) else m x.

Lemma copy_up_spec m d s n x :
  d <= s \/ s + Z.of_nat n <= d -> copy_up m d s n x = moved m d s (Z.of_nat n) x.
Proof.
  revert m d s. induction n as [|n IH]; intros m d s Hd; simpl copy_up.
  - unfold moved. zcmp.
  - rewrite IH by lia. unfold moved, poke. zcmp; f_equal; lia.
Qed.

Lemma copy_down_spec m d s n x :
  s <= d -> copy_down m d s n x = moved m (d - Z.of_nat n) (s - Z.of_nat n) (Z.of_nat n) x.
Proof.
  revert m d s. induction n as [|n IH]; intros m d s Hd; simpl copy_down.
  - unfold moved. zcmp.
  - rewrite IH by lia. unfold moved, poke. zcmp; f_equal; lia.
Qed.

Lemma memmove_spec m dst src n x : 0 <= n -> memmove m dst src n x = moved m dst src n x.
Proof.
  intros Hn. unfold memmove. destruct (Z.ltb_spec src dst), (Z.ltb_spec dst (src + n)); simpl;
    try (rewrite copy_up_spec by lia; by rewrite Z2Nat.id).
  rewrite copy_down_spec by lia. rewrite Z2Nat.id by done. f_equal; lia.
Qed.

Lemma memcmp_zero m s1 s2 n :
  memcmp m s1 s2 n = 0 <-> forall k, 0 <= k < Z.of_nat n -> m (s1 + k) = m (s2 + k).
Proof.
  revert s1 s2. induction n as [|n IH]; intros s1 s2; simpl memcmp; [split; [lia|done]|].
  destruct (Z.eqb_spec (m s1) (m s2)) as [E|E].
  - rewrite IH. split; intros H k Hk.
    + destruct (decide (k = 0)) as [->|]; [by rewrite !Z.add_0_r|].
      replace (s1 + k) with (s1 + 1 + (k - 1)) by lia. replace (s2 + k) with (s2 + 1 + (k - 1)) by lia.
      apply H. lia.
    + replace (s1 + 1 + k) with (s1 + (k + 1)) by lia. replace (s2 + 1 + k) with (s2 + (k + 1)) by lia.
      apply H. lia.
  - split; [lia|]. intros H. specialize (H 0 ltac:(lia)). rewrite !Z.add_0_r in H. done.
Qed.

(** [memcpy exists to placate GCC.] *)
Definition memcpy : mem -> Z -> Z -> Z -> mem := memmove.

(** ** String routines *)

(** The string a pointer points to, cut off after [n] bytes. *)
Fixpoint cstr (p : cptr) (n : nat) : list Z :=
  match n with
  | O => []
  | S n' => if p O =? 0 then [] else p O :: cstr (next p) n'
  end.

Definition byteptr (p : cptr) : Prop := forall i, 0 <= p i < 256.

Lemma byteptr_next p : byteptr p -> byteptr (next p).
Proof. intros Hp i. apply Hp. Qed.

Lemma u8_small x : 0 <= x < 256 -> u8 x = x.
Proof. apply Z.mod_small. Qed.

Lemma cstr_ext p q n : (forall i, (i < n)%nat -> p i = q i) -> cstr p n = cstr q n.
Proof.
  revert p q. induction n as [|n IH]; intros p q Hpq; simpl; [done|].
  rewrite (Hpq O) by lia. destruct (q O =? 0); [done|]. f_equal. apply IH.
  intros i Hi. apply Hpq. lia.
Qed.

Lemma length_cstr p n : (length (cstr p n) <= n)%nat.
Proof. revert p. induction n; intros p; simpl; [done|]. destruct (p O =? 0); simpl; [lia|]. by apply le_n_S. Qed.

(** Two strings compare equal exactly when they agree up to their terminators
    or up to [n] bytes. *)
Lemma strncmp_zero p q n : byteptr p -> byteptr q -> strncmp p q n = 0 <-> cstr p n = cstr q n.
Proof.
  revert p q. induction n as [|n IH]; intros p q Hp Hq; simpl; [done|].
  pose proof (Hp O). pose proof (Hq O). rewrite !u8_small by done.
  destruct (Z.eqb_spec (p O) 0) as [Ep|Ep]; simpl.
  - rewrite Ep. destruct (Z.eqb_spec (q O) 0); split; (done || lia).
  - destruct (Z.eqb_spec (p O) (q O)) as [E|E].
    + rewrite (IH _ _ (byteptr_next _ Hp) (byteptr_next _ Hq)), <- E.
      destruct (Z.eqb_spec (p O) 0); [done|]. split; [congruence|]. by intros [= ?].
    + split; [lia|]. destruct (Z.eqb_spec (q O) 0); [done|]. congruence.
Qed.

Lemma length_strncpy t n : length (strncpy t n) = n.
Proof.
  revert t. induction n as [|n IH]; intros t; simpl; [done|].
  destruct (t O =? 0); simpl; [by rewrite length_replicate|by rewrite IH].
Qed.

Lemma next_ptr x l : next (ptr (x :: l)) = ptr l.
Proof. done. Qed.

(** [strncpy] fills exactly [n] bytes with a copy of the string. *)
Lemma strncpy_cstr t n : cstr (ptr (strncpy t n)) n = cstr t n.
Proof.
  revert t. induction n as [|n IH]; intros t; simpl; [done|].
  destruct (Z.eqb_spec (t O) 0) as [E|E]; [done|]. change (ptr (t O :: strncpy (next t) n) O) with (t O).
  destruct (Z.eqb_spec (t O) 0); [done|]. f_equal. apply IH.
Qed.

Lemma safestrcpy_loop_spec t n :
  cstr (ptr (safestrcpy_loop t n)) (S n) = cstr t n /\
  (length (safestrcpy_loop t n) <= S n)%nat /\ last (safestrcpy_loop t n) = Some 0.
Proof.
  revert t. induction n as [|n IH]; intros t; simpl; [done|].
  destruct (IH (next t)) as (H1 & H2 & H3). destruct (Z.eqb_spec (t O) 0) as [E|E]; simpl.
  - split_and!; [done|lia|done].
  - change (ptr (t O :: safestrcpy_loop (next t) n) O) with (t O).
    destruct (Z.eqb_spec (t O) 0); [done|]. split_and!; [|lia|].
    + f_equal. rewrite <- H1. done.
    + destruct (safestrcpy_loop (next t) n); [done|]. exact H3.
Qed.

(** [safestrcpy] stays within [n] bytes and always terminates the copy. *)
Lemma safestrcpy_spec t n :
  0 < n ->
  cstr (ptr (safestrcpy t n)) (Z.to_nat n) = cstr t (Z.to_nat (n - 1)) /\
  Z.of_nat (length (safestrcpy t n)) <= n /\ last (safestrcpy t n) = Some 0.
Proof.
  intros Hn. unfold safestrcpy. destruct (Z.leb_spec n 0); [lia|].
  destruct (safestrcpy_loop_spec t (Z.to_nat (n - 1))) as (H1 & H2 & H3).
  replace (Z.to_nat n) with (S (Z.to_nat (n - 1))) by lia. split_and!; [done|lia|done].
Qed.

Lemma strlen_from_spec s n fuel k :
  (n <= k)%nat -> s k = 0 -> (forall i, (n <= i < k)%nat -> s i <> 0) -> (k - n < fuel)%nat ->
  strlen_from s n fuel = Some (Z.of_nat k).
Proof.
  revert n. induction fuel as [|f IH]; intros n Hn H0 Hne Hf; [lia|]. simpl.
  destruct (Z.eqb_spec (s n) 0) as [E|E].
  - assert (n = k) as ->; [|done]. destruct (decide (n = k)); [done|]. by destruct (Hne n); [lia|].
  - assert (n <> k) by congruence. apply IH; try done; [lia| |lia]. intros i Hi. apply Hne. lia.
Qed.

Lemma strlen_spec s k fuel :
  s k = 0 -> (forall i, (i < k)%nat -> s i <> 0) -> (k < fuel)%nat -> strlen s fuel = Some (Z.of_nat k).
Proof. intros. apply strlen_from_spec; try done; [lia| |lia]. intros i Hi. apply H0. lia. Qed.

Lemma ptr_bytes l : Forall (fun c => 0 <= c < 256) l -> byteptr (ptr l).
Proof.
  intros Hl i. unfold ptr. rewrite nth_lookup. destruct (l !! i) as [x|] eqn:E; simpl; [|lia].
  by apply (Forall_lookup_1 _ _ _ _ Hl E).
Qed.

Lemma strncpy_bytes t n : byteptr t -> is_bytes (strncpy t n).
Proof.
  revert t. induction n as [|n IH]; intros t Ht; simpl; [constructor|].
  destruct (t O =? 0); constructor; try lia; [apply Forall_replicate; lia|apply Ht|by apply IH, byteptr_next].
Qed.
