(* ===== verification/Dll.v ===== *)
(** * Circular doubly-linked lists

    The buffer cache of [bio.c] threads its buffers on a circular list through
    [prev] and [next] pointers, with a sentinel.  Pointers are indices and the
    two link fields are functions from indices to indices.  This file relates
    the pointer structure to the sequence of nodes it holds: [dll nx pv h l]
    says that the list with sentinel [h] holds exactly the nodes [l], in
    order.  It gives the effect on [l] of unlinking a node and of inserting
    one after the sentinel, and shows that a pointer walk visits [l]. *)

From S2P Require Import Prelude.

Definition upd (f : nat -> nat) (i v : nat) : nat -> nat :=
  fun j => if decide (j = i) then v else f j.

Lemma upd_eq f i v : upd f i v i = v.
Proof. unfold upd. by case_decide. Qed.

Lemma upd_ne f i v j : j <> i -> upd f i v j = f j.
Proof. unfold upd. by case_decide. Qed.

Lemma upd_ext f g i v j : (forall x, f x = g x) -> upd f i v j = upd g i v j.
Proof. intros H. unfold upd. by case_decide. Qed.

Fixpoint chain (nx pv : nat -> nat) (a : nat) (l : list nat) (z : nat) : Prop :=
  match l with
  | [] => nx a = z /\ pv z = a
  | x :: l' => nx a = x /\ pv x = a /\ chain nx pv x l' z
  end.

Definition dll (nx pv : nat -> nat) (h : nat) (l : list nat) : Prop :=
  NoDup (h :: l) /\ chain nx pv h l h.

(** Membership goals about the nodes of a chain, without its link equations. *)
Ltac nodes :=
  repeat match goal with
    | H : chain _ _ _ _ _ |- _ => clear H
    | H : @eq nat _ _ |- _ => clear H
    | H : forall _, NoDup _ -> _ |- _ => clear H
    end; set_solver.

Section Chain.
Implicit Types (nx pv : nat -> nat) (l : list nat) (a b h x z : nat).

Lemma chain_app nx pv a l1 x l2 z :
  chain nx pv a (l1 ++ x :: l2) z <-> chain nx pv a l1 x /\ chain nx pv x l2 z.
Proof.
  revert a. induction l1 as [|y l1 IH]; intros a; simpl; [tauto|].
  rewrite IH. tauto.
Qed.

Lemma chain_ext nx pv nx' pv' a l z :
  (forall x, x ∈ a :: l -> nx' x = nx x) ->
  (forall x, x ∈ z :: l -> pv' x = pv x) ->
  chain nx pv a l z -> chain nx' pv' a l z.
Proof.
  revert a. induction l as [|y l IH]; intros a Hn Hp; simpl.
  - intros [<- Ha]. rewrite Hn, Hp by set_solver. auto.
  - intros (<- & Ha & Hc). rewrite Hn, Hp by set_solver. split_and!; [done..|].
    apply IH; [set_solver..|done].
Qed.

Lemma chain_rev nx pv a l z : chain nx pv a l z -> chain pv nx z (reverse l) a.
Proof.
  revert a. induction l as [|y l IH]; intros a; simpl; [tauto|].
  intros (Hn & Hp & Hc). rewrite reverse_cons. apply chain_app.
  split; [by apply IH|]. simpl. auto.
Qed.

(** The neighbours a chain ends in. *)
Lemma chain_last nx pv a l z : chain nx pv a l z -> pv z = default a (last l).
Proof.
  revert a. induction l as [|y l IH]; intros a; simpl; [tauto|].
  intros (_ & _ & Hc). rewrite (IH _ Hc). rewrite last_cons. by destruct (last l).
Qed.

Lemma chain_first nx pv a l z : chain nx pv a l z -> nx a = default z (head l).
Proof. destruct l; simpl; tauto. Qed.

(** Redirecting the last link of a chain to a new end point. *)
Lemma chain_relink nx pv a l z w :
  NoDup (a :: l) -> z ∉ l -> w ∉ l -> chain nx pv a l z ->
  chain (upd nx (pv z) w) (upd pv w (pv z)) a l w.
Proof.
  revert a. induction l as [|y l IH]; intros a Hnd Hz Hw; simpl.
  - intros [_ Hp]. rewrite Hp, !upd_eq. auto.
  - intros (Hn & Hp & Hc).
    apply NoDup_cons in Hnd as [Ha Hnd].
    assert (pv z ∈ y :: l) as Hpz.
    { rewrite (chain_last _ _ _ _ _ Hc). destruct (last l) as [u|] eqn:E; simpl; [|nodes].
      apply last_Some in E as [l' ->]. nodes. }
    split_and!.
    + rewrite upd_ne; [done|]. nodes.
    + rewrite upd_ne; [done|]. nodes.
    + apply IH; [done|nodes|nodes|done].
Qed.

Lemma dll_ext nx pv nx' pv' h l :
  (forall x, nx' x = nx x) -> (forall x, pv' x = pv x) -> dll nx pv h l -> dll nx' pv' h l.
Proof. intros Hn Hp [Hnd Hc]. split; [done|]. by eapply chain_ext; [..|exact Hc]. Qed.

Lemma chain_next_in nx pv a l z x : chain nx pv a l z -> x ∈ a :: l -> nx x ∈ z :: l.
Proof.
  revert a. induction l as [|y l IH]; intros a; simpl.
  - intros [Hn _]. rewrite list_elem_of_singleton. intros ->. rewrite Hn. left.
  - intros (Hn & _ & Hc) [->|Hx]%elem_of_cons.
    + rewrite Hn. right. left.
    + specialize (IH _ Hc Hx). rewrite !elem_of_cons in *. tauto.
Qed.

(** The links of a list stay within it. *)
Lemma dll_links_in nx pv h l x : dll nx pv h l -> x ∈ h :: l -> nx x ∈ h :: l /\ pv x ∈ h :: l.
Proof.
  intros [_ Hc] Hx. split; [by eapply chain_next_in|].
  apply chain_rev in Hc. apply (chain_next_in _ _ _ _ _ x) in Hc.
  - by rewrite elem_of_cons, elem_of_reverse, <- elem_of_cons in Hc.
  - by rewrite elem_of_cons, elem_of_reverse, <- elem_of_cons.
Qed.

Lemma dll_perm_nodup nx pv h l : dll nx pv h l -> NoDup l /\ h ∉ l.
Proof. intros [H _]. apply NoDup_cons in H. tauto. Qed.

(** Unlinking [b]: [b->next->prev = b->prev; b->prev->next = b->next]. *)
Lemma dll_unlink nx pv h l1 b l2 :
  dll nx pv h (l1 ++ b :: l2) ->
  dll (upd nx (pv b) (nx b)) (upd pv (nx b) (pv b)) h (l1 ++ l2).
Proof.
  intros [Hnd Hc]. apply chain_app in Hc as [H1 H2].
  assert (NoDup (h :: l1 ++ l2)) as Hnd'.
  { apply NoDup_cons in Hnd as [Hh Hnd]. apply NoDup_cons.
    split; [nodes|]. apply NoDup_app in Hnd as (?&?&Hnd).
    apply NoDup_cons in Hnd as [??]. apply NoDup_app. nodes. }
  split; [done|].
  apply NoDup_cons in Hnd as [Hh Hnd]. apply NoDup_app in Hnd as (Hn1&Hd&Hn2).
  apply NoDup_cons in Hn2 as [Hb Hn2].
  assert (pv b ∈ h :: l1) as Hpb.
  { rewrite (chain_last _ _ _ _ _ H1). destruct (last l1) as [u|] eqn:E; simpl; [|nodes].
    apply last_Some in E as [l' ->]. nodes. }
  destruct l2 as [|c l2]; simpl in H2.
  - destruct H2 as [Hn Hp]. rewrite app_nil_r, Hn.
    apply chain_relink; [|nodes..|done].
    apply NoDup_cons. nodes.
  - destruct H2 as (Hn & Hp & H2). rewrite Hn. apply chain_app. split.
    + apply chain_relink; [|nodes..|done]. apply NoDup_cons. nodes.
    + apply NoDup_cons in Hn2 as [Hc2 Hn2].
      eapply chain_ext; [..|exact H2].
      * intros x Hx. apply upd_ne. nodes.
      * intros x Hx. apply upd_ne. nodes.
Qed.

(** Inserting [b] after the sentinel: [b->next = head.next; b->prev = &head;
    head.next->prev = b; head.next = b]. *)
Lemma dll_push nx pv h l b :
  b <> h -> b ∉ l -> dll nx pv h l ->
  dll (upd (upd nx b (nx h)) h b) (upd (upd pv b h) (nx h) b) h (b :: l).
Proof.
  intros Hbh Hbl [Hnd Hc]. pose proof Hnd as Hnd'. apply NoDup_cons in Hnd as [Hh Hnd].
  split; [apply NoDup_cons; split; [nodes|]; by apply NoDup_cons|].
  simpl. rewrite upd_eq. pose proof (chain_first _ _ _ _ _ Hc) as Hf.
  assert (nx h <> b) as Hne.
  { rewrite Hf. destruct l as [|c l]; simpl; nodes. }
  split_and!; [done| |].
  { rewrite upd_ne, upd_eq by congruence. done. }
  destruct l as [|c l]; simpl in *.
  - rewrite upd_ne, upd_eq by done. destruct Hc as [-> _]. by rewrite upd_eq.
  - destruct Hc as (-> & Hp & Hc). rewrite upd_ne, upd_eq by done.
    rewrite upd_eq. split_and!; [done..|].
    apply NoDup_cons in Hnd as [Hcl Hnd].
    eapply chain_ext; [..|exact Hc]; intros x Hx;
      rewrite !upd_ne by nodes; done.
Qed.
End Chain.

(** ** Pointer walks

    [scan step test h fuel b] is the loop
    [for(; b != h; b = step(b)) if(test(b)) return b;]: [Some (Some b)] when
    it stops at [b], [Some None] when it comes back to the sentinel, [None]
    when [fuel] iterations were not enough. *)

Fixpoint scan (step : nat -> nat) (test : nat -> bool) (h : nat) (fuel : nat) (b : nat)
    : option (option nat) :=
  match fuel with
  | O => None
  | S fuel' =>
      if (b =? h)%nat then Some None
      else if test b then Some (Some b)
      else scan step test h fuel' (step b)
  end.

Lemma scan_chain nx pv test a l h fuel :
  chain nx pv a l h -> h ∉ l -> (length l < fuel)%nat ->
  scan nx test h fuel (nx a) = Some (List.find test l).
Proof.
  revert a fuel. induction l as [|y l IH]; intros a fuel Hc Hh Hf; simpl in Hc.
  - destruct Hc as [-> _]. destruct fuel; [simpl in Hf; lia|].
    simpl. by rewrite Nat.eqb_refl.
  - destruct Hc as (-> & _ & Hc). destruct fuel; [simpl in Hf; lia|]. simpl.
    destruct (Nat.eqb_spec y h); [set_solver|].
    destruct (test y); [done|]. apply IH; [done|set_solver|simpl in Hf; lia].
Qed.

(** Walking forwards finds the first match, walking backwards the last. *)
Lemma scan_next nx pv test h l fuel :
  dll nx pv h l -> (length l < fuel)%nat ->
  scan nx test h fuel (nx h) = Some (List.find test l).
Proof.
  intros [Hnd Hc] Hf. apply NoDup_cons in Hnd as [Hh _]. by eapply scan_chain.
Qed.

Lemma scan_prev nx pv test h l fuel :
  dll nx pv h l -> (length l < fuel)%nat ->
  scan pv test h fuel (pv h) = Some (List.find test (reverse l)).
Proof.
  intros [Hnd Hc] Hf. apply NoDup_cons in Hnd as [Hh _].
  eapply scan_chain; [by apply chain_rev| |by rewrite length_reverse].
  by rewrite elem_of_reverse.
Qed.
