(* ===== verification/FsState.v ===== *)
(** * The state of the storage stack

    The kernel's disk, buffer cache ([bio.c]), log ([log.c]) and inode cache
    ([fs.c]) as one record, threaded through the routines of those files.
    Pointers to buffers and inodes are indices into their tables. *)

From S2P Require Import Prelude Bytes Params.

(** A disk block: [BSIZE] bytes. *)
Abbreviation block := (list Z).

Definition is_block (d : block) : Prop := length d = Z.to_nat BSIZE /\ is_bytes d.

(** [struct buf] of [buf.h]; [qnext] belongs to the interrupt-driven driver
    only. *)
Record buf := Buf {
  b_flags : Z;
  b_dev : Z;
  b_sector : Z;
  b_prev : nat;
  b_next : nat;
  b_data : block
}.

(** [struct log] of [log.c] with its in-memory header [lh]. *)
Record log_t := Log {
  l_start : Z;
  l_size : Z;
  l_outstanding : Z;
  l_committing : Z;
  l_dev : Z;
  lh_n : Z;
  lh_sector : list Z
}.

(** The in-memory [struct inode] of [file.h]. *)
Record inode := Inode {
  i_dev : Z;
  i_inum : Z;
  i_ref : Z;
  i_flags : Z;
  i_type : Z;
  i_major : Z;
  i_minor : Z;
  i_nlink : Z;
  i_size : Z;
  i_addrs : list Z
}.

(** [memdisk]/[disksize] are the disk of [memide.c], one entry per sector.
    [bcache] holds [bcache.buf] followed by [bcache.head].  [journal] records
    the writes the disk has carried out, oldest first, and [wakeups] the calls
    of [wakeup]; the code never reads either. *)
Record kst := K {
  memdisk : gmap Z block;
  disksize : Z;
  journal : list (Z * block);
  wakeups : list chan;
  bcache : list buf;
  log : log_t;
  icache : list inode
}.

(** The index of [bcache.head]. *)
Definition HEAD : nat := NBUF.

Definition zero_block : block := replicate (Z.to_nat BSIZE) 0.
Definition zero_buf : buf := Buf 0 0 0 0 0 zero_block.
Definition zero_log : log_t := Log 0 0 0 0 0 0 (replicate (Z.to_nat LOGSIZE) 0).
Definition zero_inode : inode := Inode 0 0 0 0 0 0 0 0 0 (replicate (Z.to_nat NDIRECT + 1) 0).

(** The zeroed [.bss] a freshly booted kernel starts from. *)
Definition boot (D : gmap Z block) (size : Z) : kst :=
  K D size [] [] (replicate (S NBUF) zero_buf) zero_log (replicate NINODE zero_inode).

(** ** Field updates *)

Definition with_flags (v : Z) (b : buf) : buf :=
  Buf v (b_dev b) (b_sector b) (b_prev b) (b_next b) (b_data b).
Definition with_dev (v : Z) (b : buf) : buf :=
  Buf (b_flags b) v (b_sector b) (b_prev b) (b_next b) (b_data b).
Definition with_sector (v : Z) (b : buf) : buf :=
  Buf (b_flags b) (b_dev b) v (b_prev b) (b_next b) (b_data b).
Definition with_prev (v : nat) (b : buf) : buf :=
  Buf (b_flags b) (b_dev b) (b_sector b) v (b_next b) (b_data b).
Definition with_next (v : nat) (b : buf) : buf :=
  Buf (b_flags b) (b_dev b) (b_sector b) (b_prev b) v (b_data b).
Definition with_data (v : block) (b : buf) : buf :=
  Buf (b_flags b) (b_dev b) (b_sector b) (b_prev b) (b_next b) v.

Definition buf_at (s : kst) (i : nat) : buf := default zero_buf (bcache s !! i).

Definition on_buf (i : nat) (f : buf -> buf) (s : kst) : kst :=
  K (memdisk s) (disksize s) (journal s) (wakeups s) (alter f i (bcache s)) (log s) (icache s).

(** Write one sector of the disk. *)
Definition disk_write (sec : Z) (d : block) (s : kst) : kst :=
  K (<[sec:=d]> (memdisk s)) (disksize s) (journal s ++ [(sec, d)]) (wakeups s)
    (bcache s) (log s) (icache s).

Definition wake (c : chan) (s : kst) : kst :=
  K (memdisk s) (disksize s) (journal s) (wakeups s ++ [c]) (bcache s) (log s) (icache s).

Definition on_log (f : log_t -> log_t) (s : kst) : kst :=
  K (memdisk s) (disksize s) (journal s) (wakeups s) (bcache s) (f (log s)) (icache s).

Definition on_inode (i : nat) (f : inode -> inode) (s : kst) : kst :=
  K (memdisk s) (disksize s) (journal s) (wakeups s) (bcache s) (log s) (alter f i (icache s)).

Definition wakeup (c : chan) : M kst unit := modify (wake c).

Definition next_of (s : kst) (i : nat) : nat := b_next (buf_at s i).
Definition prev_of (s : kst) (i : nat) : nat := b_prev (buf_at s i).
Definition flags_of (s : kst) (i : nat) : Z := b_flags (buf_at s i).

Lemma buf_at_on_buf s i f j :
  (i < length (bcache s))%nat ->
  buf_at (on_buf i f s) j = if decide (i = j) then f (buf_at s i) else buf_at s j.
Proof.
  intros Hi. unfold buf_at, on_buf. simpl. case_decide as E.
  - subst. destruct (lookup_lt_is_Some_2 (bcache s) j Hi) as [b Hb].
    by rewrite list_lookup_alter_eq, Hb.
  - by rewrite list_lookup_alter_ne.
Qed.

(** Only the value of an update at the buffer itself matters. *)
Lemma on_buf_eq s i f g : f (buf_at s i) = g (buf_at s i) -> on_buf i f s = on_buf i g s.
Proof.
  intros E. unfold on_buf. f_equal. apply list_eq. intros j. destruct (decide (i = j)) as [->|].
  - rewrite !list_lookup_alter_eq. unfold buf_at in E. destruct (bcache s !! j); simpl in *; congruence.
  - by rewrite !list_lookup_alter_ne.
Qed.

Lemma length_on_buf s i f : length (bcache (on_buf i f s)) = length (bcache s).
Proof. apply length_alter. Qed.

Lemma zero_block_ok : is_block zero_block.
Proof.
  split; [apply length_replicate|]. apply Forall_replicate. lia.
Qed.
