(* ===== verification/Bio.v ===== *)
(** * The buffer cache

    [bio.c] over the memory disk of [memide.c].  The routines follow the code
    down to the [prev]/[next] pointers of the LRU list.  Each runs with
    [bcache.lock] held between its sleeping points; a call that sleeps in
    [bget] starts over from the label [loop] when it is woken, which is the
    same call again, so [Sleep] leaves the state as it found it. *)

From S2P Require Import Prelude Bytes Params Dll FsState.

(** ** [memide.c] *)

(** Sync buf with disk.  If B_DIRTY is set, write it, else read it. *)
Definition iderw (b : nat) : M kst unit :=
  let! f := gets (fun s => flags_of s b) in
  if negb (has f B_BUSY) then panic "iderw: buf not busy"
  else if Z.land f (Z.lor B_VALID B_DIRTY) =? B_VALID then panic "iderw: nothing to do"
  else
    let! dev := gets (fun s => b_dev (buf_at s b)) in
    if negb (dev =? 1) then panic "iderw: request not for disk 1"
    else
      let! sec := gets (fun s => b_sector (buf_at s b)) in
      let! size := gets disksize in
      if size <=? sec then panic "iderw: sector out of range"
      else
        (if has f B_DIRTY then
           modify (on_buf b (fun x => with_flags (clr_flag (b_flags x) B_DIRTY) x)) ;;;
           let! d := gets (fun s => b_data (buf_at s b)) in
           modify (disk_write sec d)
         else
           let! d := gets (fun s => default zero_block (memdisk s !! sec)) in
           modify (on_buf b (with_data d))) ;;;
        modify (on_buf b (fun x => with_flags (set_flag (b_flags x) B_VALID) x)).

(** ** [bio.c] *)

Definition binit : M kst unit :=
  modify (on_buf HEAD (with_prev HEAD)) ;;;
  modify (on_buf HEAD (with_next HEAD)) ;;;
  for_ (seq 0 NBUF) (fun b =>
    let! hn := gets (fun s => next_of s HEAD) in
    modify (on_buf b (with_next hn)) ;;;
    modify (on_buf b (with_prev HEAD)) ;;;
    modify (on_buf b (with_dev (u32 (-1)))) ;;;
    let! hn' := gets (fun s => next_of s HEAD) in
    modify (on_buf hn' (with_prev b)) ;;;
    modify (on_buf HEAD (with_next b))).

(** Is this buffer caching sector [sector] of device [dev]? *)
Definition caches (s : kst) (dev sector : Z) (b : nat) : bool :=
  (b_dev (buf_at s b) =? dev) && (b_sector (buf_at s b) =? sector).

(** Can this buffer be recycled: neither in use nor waiting for a commit? *)
Definition recyclable (s : kst) (b : nat) : bool :=
  negb (has (flags_of s b) B_BUSY) && negb (has (flags_of s b) B_DIRTY).

(** Look for the sector in the cache, else recycle the least recently used
    clean buffer.  The two loops walk the list through [next] and [prev]; the
    bound is one more than the number of buffers. *)
Definition bget (dev sector : Z) : M kst nat := fun s =>
  match scan (next_of s) (caches s dev sector) HEAD (S NBUF) (next_of s HEAD) with
  | None => Fuel
  | Some (Some b) =>
      if negb (has (flags_of s b) B_BUSY) then
        Ok b (on_buf b (fun x => with_flags (set_flag (b_flags x) B_BUSY) x) s)
      else Sleep (ch_buf b) s
  | Some None =>
      match scan (prev_of s) (recyclable s) HEAD (S NBUF) (prev_of s HEAD) with
      | None => Fuel
      | Some (Some b) =>
          Ok b (on_buf b (fun x => with_flags B_BUSY (with_sector sector (with_dev dev x))) s)
      | Some None => Panic "bget: no buffers"
      end
  end.

(** Return a B_BUSY buf with the contents of the indicated disk sector. *)
Definition bread (dev sector : Z) : M kst nat :=
  let! b := bget dev sector in
  let! f := gets (fun s => flags_of s b) in
  (if negb (has f B_VALID) then iderw b else ret tt) ;;;
  ret b.

(** Write b's contents to disk.  Must be B_BUSY. *)
Definition bwrite (b : nat) : M kst unit :=
  let! f := gets (fun s => flags_of s b) in
  if negb (has f B_BUSY) then panic "bwrite"
  else
    modify (on_buf b (fun x => with_flags (set_flag (b_flags x) B_DIRTY) x)) ;;;
    iderw b.

(** Release a B_BUSY buffer and move it to the head of the MRU list. *)
Definition brelse (b : nat) : M kst unit :=
  let! f := gets (fun s => flags_of s b) in
  if negb (has f B_BUSY) then panic "brelse"
  else
    let! bn := gets (fun s => next_of s b) in
    let! bp := gets (fun s => prev_of s b) in
    modify (on_buf bn (with_prev bp)) ;;;
    let! bp' := gets (fun s => prev_of s b) in
    let! bn' := gets (fun s => next_of s b) in
    modify (on_buf bp' (with_next bn')) ;;;
    let! hn := gets (fun s => next_of s HEAD) in
    modify (on_buf b (with_next hn)) ;;;
    modify (on_buf b (with_prev HEAD)) ;;;
    let! hn' := gets (fun s => next_of s HEAD) in
    modify (on_buf hn' (with_prev b)) ;;;
    modify (on_buf HEAD (with_next b)) ;;;
    modify (on_buf b (fun x => with_flags (clr_flag (b_flags x) B_BUSY) x)) ;;;
    wakeup (ch_buf b).

(** ** Flags *)

Lemma single_busy : single B_BUSY.
Proof. by exists 0. Qed.
Lemma single_valid : single B_VALID.
Proof. by exists 1. Qed.
Lemma single_dirty : single B_DIRTY.
Proof. by exists 2. Qed.

#[export] Hint Resolve single_busy single_valid single_dirty : kernel.

Ltac flag_side := solve [auto with kernel | done].
#[export] Hint Rewrite has_set_same has_set_diff has_clr_same has_clr_diff
  using flag_side : flags.

Lemma iderw_idle_test f :
  (Z.land f (Z.lor B_VALID B_DIRTY) =? B_VALID) = has f B_VALID && negb (has f B_DIRTY).
Proof.
  rewrite Z.land_lor_distr_r, !land_single by auto with kernel.
  by destruct (has f B_VALID), (has f B_DIRTY).
Qed.

(** ** What the cache represents

    [rep s D P H]: the disk holds [D]; the dirty buffers nobody holds cache
    the not yet written blocks [P]; the buffers in use are those of [H], each
    with its sector, its current contents and its dirty bit.  A sector is
    cached at most once, and a clean unheld buffer agrees with the disk. *)

Record held := Held { h_sector : Z; h_data : block; h_dirty : bool }.

Definition buf_ok (D P : gmap Z block) (oh : option held) (b : buf) : Prop :=
  is_block (b_data b) /\
  match oh with
  | Some h =>
      b_dev b = ROOTDEV /\ has (b_flags b) B_BUSY = true /\
      has (b_flags b) B_VALID = true /\ has (b_flags b) B_DIRTY = h_dirty h /\
      b_sector b = h_sector h /\ b_data b = h_data h
  | None =>
      has (b_flags b) B_BUSY = false /\
      (has (b_flags b) B_DIRTY = true ->
         b_dev b = ROOTDEV /\ has (b_flags b) B_VALID = true /\
         P !! b_sector b = Some (b_data b)) /\
      (has (b_flags b) B_VALID = true -> has (b_flags b) B_DIRTY = false ->
         b_dev b = ROOTDEV /\ D !! b_sector b = Some (b_data b))
  end.

(** The list holds every buffer once, in the order [order], most recently
    released first. *)
Definition lru (s : kst) (order : list nat) : Prop :=
  length (bcache s) = S NBUF /\
  dll (next_of s) (prev_of s) HEAD order /\ order ≡ₚ seq 0 NBUF.

Definition links_ok (s : kst) : Prop := exists order, lru s order.

Record bufs_ok (s : kst) (D P : gmap Z block) (H : gmap nat held) : Prop := {
  bo_buf : forall i, (i < NBUF)%nat -> buf_ok D P (H !! i) (buf_at s i);
  bo_pin : forall sec d, P !! sec = Some d -> exists i, (i < NBUF)%nat /\
    H !! i = None /\ has (flags_of s i) B_DIRTY = true /\ b_sector (buf_at s i) = sec;
  bo_uniq : forall i j, (i < NBUF)%nat -> (j < NBUF)%nat ->
    b_dev (buf_at s i) = ROOTDEV -> b_dev (buf_at s j) = ROOTDEV ->
    b_sector (buf_at s i) = b_sector (buf_at s j) -> i = j;
  bo_held : forall i h, H !! i = Some h -> (i < NBUF)%nat
}.

Definition disk_ok (size : Z) (D : gmap Z block) : Prop :=
  (forall sec, is_Some (D !! sec) <-> 0 <= sec < size) /\
  (forall sec d, D !! sec = Some d -> is_block d).

Definition rep (s : kst) (D P : gmap Z block) (H : gmap nat held) : Prop :=
  memdisk s = D /\ disk_ok (disksize s) D /\ links_ok s /\ bufs_ok s D P H.

(** [sec] is not in use. *)
Definition unheld (H : gmap nat held) (sec : Z) : Prop :=
  forall i h, H !! i = Some h -> h_sector h <> sec.

(** The parts of the state that [bread], [bwrite] and [brelse] leave alone. *)
Definition same_rest (s s' : kst) : Prop :=
  disksize s' = disksize s /\ log s' = log s /\ icache s' = icache s.

#[export] Instance same_rest_preorder : PreOrder same_rest.
Proof.
  split; [done|]. intros s1 s2 s3 (?&?&?) (?&?&?). unfold same_rest. split_and!; congruence.
Qed.

(** *** Links *)

Lemma links_ext s s' :
  length (bcache s') = length (bcache s) ->
  (forall i, next_of s' i = next_of s i) -> (forall i, prev_of s' i = prev_of s i) ->
  links_ok s -> links_ok s'.
Proof.
  intros Hl Hn Hp (order & Hlen & Hd & Hperm). exists order.
  split; [congruence|]. split; [|done]. by eapply dll_ext.
Qed.

Lemma links_len s : links_ok s -> length (bcache s) = S NBUF.
Proof. by intros (order & ? & _). Qed.

(** An update of a buffer's contents keeps the list. *)
Lemma links_on_buf s i f :
  (forall b, b_next (f b) = b_next b) -> (forall b, b_prev (f b) = b_prev b) ->
  (i < NBUF)%nat -> links_ok s -> links_ok (on_buf i f s).
Proof.
  intros Hn Hp Hi Hl. pose proof (links_len _ Hl) as Hlen.
  apply (links_ext s); [apply length_on_buf|..|done]; intros j;
    unfold next_of, prev_of; rewrite buf_at_on_buf by lia; by case_decide; subst.
Qed.

Lemma order_lt (order : list nat) i : order ≡ₚ seq 0 NBUF -> i ∈ order <-> (i < NBUF)%nat.
Proof. intros Hp. rewrite Hp, elem_of_seq. lia. Qed.

Lemma order_length (order : list nat) : order ≡ₚ seq 0 NBUF -> (length order < S NBUF)%nat.
Proof. intros ->%Permutation_length. rewrite length_seq. lia. Qed.

(** The two loops of [bget] find a buffer with the property exactly when there
    is one. *)
Lemma find_buffers (test : nat -> bool) (l : list nat) :
  l ≡ₚ seq 0 NBUF ->
  match List.find test l with
  | Some b => (b < NBUF)%nat /\ test b = true
  | None => forall i, (i < NBUF)%nat -> test i = false
  end.
Proof.
  intros Hp. destruct (List.find test l) as [b|] eqn:E.
  - apply List.find_some in E as [Hin Ht]. split; [|done].
    apply (order_lt l); [done|by apply list_elem_of_In].
  - intros i Hi. apply (List.find_none _ _ E). apply list_elem_of_In. by apply order_lt.
Qed.

Lemma bget_scan s test :
  links_ok s ->
  (exists r, scan (next_of s) test HEAD (S NBUF) (next_of s HEAD) = Some r /\
     match r with Some b => (b < NBUF)%nat /\ test b = true
                | None => forall i, (i < NBUF)%nat -> test i = false end) /\
  (exists r, scan (prev_of s) test HEAD (S NBUF) (prev_of s HEAD) = Some r /\
     match r with Some b => (b < NBUF)%nat /\ test b = true
                | None => forall i, (i < NBUF)%nat -> test i = false end).
Proof.
  intros (order & _ & Hd & Hp). pose proof (order_length _ Hp). split.
  - rewrite (scan_next _ _ _ _ order) by done. eexists; split; [done|].
    by apply find_buffers.
  - rewrite (scan_prev _ _ _ _ order) by done. eexists; split; [done|].
    apply find_buffers. by rewrite reverse_Permutation.
Qed.

(** *** Contents *)

Definition payload (b : buf) : Z * Z * Z * block :=
  (b_flags b, b_dev b, b_sector b, b_data b).

Lemma buf_ok_payload D P oh b b' : payload b' = payload b -> buf_ok D P oh b -> buf_ok D P oh b'.
Proof. unfold payload, buf_ok. intros [= -> -> -> ->]. done. Qed.

(** The disk and pin maps matter to a buffer only at its own sector. *)
Lemma buf_ok_frame D P D' P' oh b :
  (b_dev b = ROOTDEV -> D' !! b_sector b = D !! b_sector b /\ P' !! b_sector b = P !! b_sector b) ->
  buf_ok D P oh b -> buf_ok D' P' oh b.
Proof.
  intros Heq [Hb H]. split; [done|]. destruct oh as [h|]; [done|].
  destruct H as (Hbusy & Hdirty & Hclean). split_and!; [done|..].
  - intros (Hdev & Hv & HP)%Hdirty. destruct (Heq Hdev) as [_ ->]. done.
  - intros Hv [Hdev HD]%Hclean; [|done]. destruct (Heq Hdev) as [-> _]. done.
Qed.

(** One buffer, [i], changes; every other keeps its contents. *)
Lemma bufs_ok_step s s' D P H D' P' H' i :
  bufs_ok s D P H -> (i < NBUF)%nat ->
  (forall j, (j < NBUF)%nat -> j <> i -> payload (buf_at s' j) = payload (buf_at s j)) ->
  (forall j, j <> i -> H' !! j = H !! j) ->
  buf_ok D' P' (H' !! i) (buf_at s' i) ->
  let sec := b_sector (buf_at s' i) in
  b_dev (buf_at s' i) = ROOTDEV ->
  (forall j, (j < NBUF)%nat -> j <> i -> b_dev (buf_at s j) = ROOTDEV ->
     b_sector (buf_at s j) <> sec) ->
  (forall x, x <> sec -> D' !! x = D !! x /\ P' !! x = P !! x) ->
  (is_Some (P' !! sec) -> H' !! i = None /\ has (flags_of s' i) B_DIRTY = true) ->
  (H !! i = None -> has (flags_of s i) B_DIRTY = true -> b_sector (buf_at s i) = sec) ->
  bufs_ok s' D' P' H'.
Proof.
  intros [Hbuf Hpin Huniq Hheld] Hi Hpay HH Hok sec Hdev Hsec Hmaps Hpini Hold.
  assert (forall j, (j < NBUF)%nat -> j <> i ->
            b_flags (buf_at s' j) = b_flags (buf_at s j) /\
            b_dev (buf_at s' j) = b_dev (buf_at s j) /\
            b_sector (buf_at s' j) = b_sector (buf_at s j)) as Hsame.
  { intros j Hj Hne. specialize (Hpay j Hj Hne). unfold payload in Hpay. by simplify_eq. }
  split.
  - intros j Hj. destruct (decide (j = i)) as [->|Hne]; [done|]. rewrite HH by done.
    eapply buf_ok_payload; [by apply Hpay|]. eapply buf_ok_frame; [|by apply Hbuf].
    intros Hd. apply Hmaps. by apply Hsec.
  - intros x d Hx. destruct (decide (x = sec)) as [->|Hne].
    + exists i. destruct Hpini; [by eexists|]. done.
    + destruct (Hmaps x Hne) as [_ HP]. rewrite HP in Hx.
      destruct (Hpin x d Hx) as (j & Hj & HHj & Hdj & Hsj).
      destruct (decide (j = i)) as [->|Hji]; [by destruct Hne; rewrite <- Hsj; apply Hold|].
      exists j. unfold flags_of in *. destruct (Hsame j Hj Hji) as (-> & _ & ->).
      rewrite HH by done. done.
  - intros j k Hj Hk. destruct (decide (j = i)) as [->|Hji], (decide (k = i)) as [->|Hki]; [done|..].
    + destruct (Hsame k Hk Hki) as (_ & -> & ->). intros _ Hdk E. by destruct (Hsec k Hk Hki Hdk).
    + destruct (Hsame j Hj Hji) as (_ & -> & ->). intros Hdj _ E. by destruct (Hsec j Hj Hji Hdj).
    + destruct (Hsame j Hj Hji) as (_ & -> & ->), (Hsame k Hk Hki) as (_ & -> & ->).
      by apply Huniq.
  - intros j h. destruct (decide (j = i)) as [->|Hne]; [done|]. rewrite HH by done. apply Hheld.
Qed.

(** If no buffer can be recycled, all are accounted for by [P] and [H]. *)
Lemma cache_full s D P H :
  bufs_ok s D P H -> (forall i, (i < NBUF)%nat -> recyclable s i = false) ->
  (NBUF <= size P + size H)%nat.
Proof.
  intros [Hbuf Hpin Huniq Hheld] Hfull.
  set (hs := filter (fun i => is_Some (H !! i)) (seq 0 NBUF)).
  set (ps := filter (fun i => ~ is_Some (H !! i)) (seq 0 NBUF)).
  assert (length hs + length ps = NBUF)%nat as Hsplit.
  { transitivity (length (seq 0 NBUF)); [|apply length_seq]. unfold hs, ps.
    clear. induction (seq 0 NBUF) as [|x l IH]; [done|].
    rewrite !filter_cons. destruct (decide (is_Some (H !! x))) as [Hx|Hx];
      destruct (decide (~ is_Some (H !! x))); try tauto; simpl; lia. }
  assert (NoDup hs /\ NoDup ps) as [Hnh Hnp].
  { split; apply NoDup_filter, NoDup_seq. }
  assert (forall i, i ∈ ps -> (i < NBUF)%nat /\ b_dev (buf_at s i) = ROOTDEV /\
            P !! b_sector (buf_at s i) = Some (b_data (buf_at s i))) as Hps.
  { intros i [Hn Hin]%list_elem_of_filter. apply elem_of_seq in Hin.
    assert (i < NBUF)%nat as Hi by lia. specialize (Hfull i Hi). specialize (Hbuf i Hi).
    apply eq_None_not_Some in Hn. rewrite Hn in Hbuf. destruct Hbuf as (_ & Hb & Hd & _).
    unfold recyclable, flags_of in Hfull. rewrite Hb in Hfull. simpl in Hfull.
    apply negb_false_iff in Hfull. destruct (Hd Hfull) as (? & _ & ?). done. }
  assert (length hs <= size H)%nat.
  { rewrite <- size_dom, <- (size_list_to_set (C:=gset nat) hs) by done.
    apply subseteq_size. intros i [Hi _]%elem_of_list_to_set%list_elem_of_filter.
    by apply elem_of_dom. }
  assert (length ps <= size P)%nat; [|lia].
  rewrite <- size_dom, <- (length_fmap (fun i => b_sector (buf_at s i)) ps).
  rewrite <- (size_list_to_set (C:=gset Z)).
  - apply subseteq_size. intros x Hx. apply elem_of_list_to_set, list_elem_of_fmap in Hx.
    destruct Hx as (i & -> & Hi). apply elem_of_dom. destruct (Hps i Hi) as (_ & _ & ->). by eexists.
  - apply NoDup_fmap_2_strong; [|done]. intros i j Hi Hj E.
    destruct (Hps i Hi) as (? & ? & _), (Hps j Hj) as (? & ? & _). by apply Huniq.
Qed.

(** ** The contract of the cache *)

Section Contract.
Implicit Types (s : kst) (D P : gmap Z block) (H : gmap nat held).

Lemma rep_len s D P H i : rep s D P H -> (i <= NBUF)%nat -> (i < length (bcache s))%nat.
Proof. intros (_ & _ & ->%links_len & _). lia. Qed.

(** The state after [iderw] on a buffer to be read, and on one to be written. *)
Lemma iderw_read s b d :
  has (flags_of s b) B_BUSY = true -> has (flags_of s b) B_VALID = false ->
  has (flags_of s b) B_DIRTY = false -> b_dev (buf_at s b) = ROOTDEV ->
  memdisk s !! b_sector (buf_at s b) = Some d -> b_sector (buf_at s b) < disksize s ->
  iderw b s = Ok tt (on_buf b (fun x => with_flags (set_flag (b_flags x) B_VALID) x)
                      (on_buf b (with_data d) s)).
Proof.
  intros Hb Hv Hd Hdev HD Hsec. unfold iderw, bind, gets, modify.
  rewrite Hb, iderw_idle_test, Hv, Hd. simpl. rewrite Hdev. simpl.
  destruct (Z.leb_spec (disksize s) (b_sector (buf_at s b))); [lia|]. by rewrite HD.
Qed.

Lemma iderw_write s b :
  (b < length (bcache s))%nat ->
  has (flags_of s b) B_BUSY = true -> has (flags_of s b) B_DIRTY = true ->
  b_dev (buf_at s b) = ROOTDEV -> b_sector (buf_at s b) < disksize s ->
  iderw b s = Ok tt (on_buf b (fun x => with_flags (set_flag (b_flags x) B_VALID) x)
                      (disk_write (b_sector (buf_at s b)) (b_data (buf_at s b))
                        (on_buf b (fun x => with_flags (clr_flag (b_flags x) B_DIRTY) x) s))).
Proof.
  intros Hl Hb Hd Hdev Hsec. unfold iderw, bind, gets, modify.
  rewrite Hb, iderw_idle_test, Hd, andb_false_r. simpl. rewrite Hdev. simpl.
  destruct (Z.leb_spec (disksize s) (b_sector (buf_at s b))); [lia|].
  rewrite buf_at_on_buf by done. by case_decide.
Qed.

(** The pinned block of a sector is in the one buffer that caches it. *)
Lemma pinned_unique s D P H i sec :
  bufs_ok s D P H -> (i < NBUF)%nat -> b_dev (buf_at s i) = ROOTDEV ->
  b_sector (buf_at s i) = sec -> is_Some (P !! sec) ->
  H !! i = None /\ has (flags_of s i) B_DIRTY = true.
Proof.
  intros Hok Hi Hdev Hsec [d HP].
  destruct (bo_pin _ _ _ _ Hok _ _ HP) as (j & Hj & HHj & Hdj & Hsj).
  destruct (bo_buf _ _ _ _ Hok j Hj) as [_ Hb]. rewrite HHj in Hb.
  destruct Hb as (_ & Hd & _). destruct (Hd Hdj) as (Hdevj & _ & _).
  rewrite (bo_uniq _ _ _ _ Hok i j); try done. congruence.
Qed.

Definition bread_post s D P H sec d0 (i : nat) s' : Prop :=
  rep s' D (delete sec P)
    (<[i := Held sec (default d0 (P !! sec)) (bool_decide (is_Some (P !! sec)))]> H) /\
  H !! i = None /\ journal s' = journal s /\ same_rest s s'.

(** Taking hold of a buffer: what is left to check once its new contents are
    known. *)
Lemma hold_buffer s s' D P H sec d0 i :
  rep s D P H -> H !! i = None -> (i < NBUF)%nat ->
  (forall j, (j < NBUF)%nat -> j <> i -> payload (buf_at s' j) = payload (buf_at s j)) ->
  memdisk s' = memdisk s -> links_ok s' -> journal s' = journal s -> same_rest s s' ->
  (forall j, (j < NBUF)%nat -> j <> i -> caches s ROOTDEV sec j = false) ->
  (has (flags_of s i) B_DIRTY = true -> b_sector (buf_at s i) = sec) ->
  buf_ok D (delete sec P)
    (Some (Held sec (default d0 (P !! sec)) (bool_decide (is_Some (P !! sec))))) (buf_at s' i) ->
  bread_post s D P H sec d0 i s'.
Proof.
  intros (Hmem & Hdisk & Hlinks & Hok) HHi Hi Hpay Hm Hl Hj Hr Hother Hold Hbok.
  unfold bread_post, rep. pose proof Hr as (-> & _).
  split_and!; try done; [congruence|].
  pose proof Hbok as (_ & Hdev & _ & _ & _ & Hsec & _). simpl in Hsec.
  eapply (bufs_ok_step s s' D P H _ _ _ i); try done.
  - intros j ?. by apply lookup_insert_ne.
  - by rewrite lookup_insert_eq.
  - intros j Hj' Hne Hdj E. specialize (Hother j Hj' Hne). unfold caches in Hother.
    rewrite Hdj, E, Hsec, !Z.eqb_refl in Hother. done.
  - intros x Hx. split; [done|]. apply lookup_delete_ne. congruence.
  - rewrite Hsec, lookup_delete_eq. by intros [].
  - intros _ Hd. rewrite Hsec. by apply Hold.
Qed.

(** Only one buffer caches a sector. *)
Lemma caches_unique s D P H sec i :
  bufs_ok s D P H -> (i < NBUF)%nat -> caches s ROOTDEV sec i = true ->
  forall j, (j < NBUF)%nat -> j <> i -> caches s ROOTDEV sec j = false.
Proof.
  intros Hok Hi [Hdi%Z.eqb_eq Hsi%Z.eqb_eq]%andb_true_iff j Hj Hne.
  apply not_true_is_false. intros [Hdj%Z.eqb_eq Hsj%Z.eqb_eq]%andb_true_iff.
  destruct Hne. apply (bo_uniq _ _ _ _ Hok); congruence.
Qed.

(** A sector is pinned only if the buffer that caches it is dirty. *)
Lemma cached_clean_unpinned s D P H sec i :
  bufs_ok s D P H -> (i < NBUF)%nat -> caches s ROOTDEV sec i = true ->
  has (flags_of s i) B_DIRTY = false -> P !! sec = None.
Proof.
  intros Hok Hi [Hdi%Z.eqb_eq Hsi%Z.eqb_eq]%andb_true_iff Hd.
  apply eq_None_not_Some. intros HP.
  destruct (pinned_unique s D P H i sec) as [_ E]; try done. congruence.
Qed.

Lemma uncached_unpinned s D P H sec :
  bufs_ok s D P H -> (forall i, (i < NBUF)%nat -> caches s ROOTDEV sec i = false) ->
  P !! sec = None.
Proof.
  intros Hok Hno. apply eq_None_not_Some. intros [d HP].
  destruct (bo_pin _ _ _ _ Hok _ _ HP) as (j & Hj & HHj & Hdj & Hsj).
  destruct (bo_buf _ _ _ _ Hok j Hj) as [_ Hb]. rewrite HHj in Hb.
  destruct Hb as (_ & Hd & _). destruct (Hd Hdj) as (Hdevj & _ & _).
  specialize (Hno j Hj). unfold caches in Hno. by rewrite Hdevj, Hsj, !Z.eqb_refl in Hno.
Qed.

(** Reading a held but invalid buffer from the disk. *)
Lemma bread_fill s s1 D P H sec d0 i :
  rep s D P H -> H !! i = None -> D !! sec = Some d0 -> (i < NBUF)%nat ->
  has (flags_of s i) B_DIRTY = false -> P !! sec = None ->
  (forall j, (j < NBUF)%nat -> j <> i -> caches s ROOTDEV sec j = false) ->
  (forall j, (j < NBUF)%nat -> j <> i -> payload (buf_at s1 j) = payload (buf_at s j)) ->
  memdisk s1 = memdisk s -> links_ok s1 -> journal s1 = journal s -> same_rest s s1 ->
  has (flags_of s1 i) B_BUSY = true -> has (flags_of s1 i) B_VALID = false ->
  has (flags_of s1 i) B_DIRTY = false -> b_dev (buf_at s1 i) = ROOTDEV ->
  b_sector (buf_at s1 i) = sec ->
  exists s', iderw i s1 = Ok tt s' /\ bread_post s D P H sec d0 i s'.
Proof.
  intros Hrep HHi HD Hi Hdi HP Hother Hpay Hm Hl Hj Hr Hb1 Hv1 Hd1 Hdev1 Hsec1.
  pose proof Hrep as (Hmem & Hdisk & _). pose proof Hr as (Hsz & _).
  assert (0 <= sec < disksize s) as Hrange by (apply Hdisk; by eexists).
  pose proof (links_len _ Hl) as Hlen.
  rewrite (iderw_read _ _ d0) by (done || congruence || lia).
  eexists. split; [done|].
  assert (i < length (bcache s1))%nat as Hl1 by lia.
  assert (i < length (bcache (on_buf i (with_data d0) s1)))%nat as Hl2 by (by rewrite length_on_buf).
  eapply hold_buffer; try done.
  - intros j Hj' Hne. rewrite !buf_at_on_buf by done. repeat case_decide; try congruence. by apply Hpay.
  - by repeat (apply links_on_buf; try done).
  - congruence.
  - rewrite !buf_at_on_buf by done. case_decide; [|done]. unfold flags_of in *.
    unfold buf_ok. simpl. autorewrite with flags. rewrite HP. simpl.
    split; [by eapply Hdisk|]. by split_and!.
Qed.

(** A buffer found in the cache. *)
Lemma bread_hit s D P H sec d0 i :
  rep s D P H -> D !! sec = Some d0 -> unheld H sec ->
  (i < NBUF)%nat -> caches s ROOTDEV sec i = true ->
  let s1 := on_buf i (fun x => with_flags (set_flag (b_flags x) B_BUSY) x) s in
  has (flags_of s i) B_BUSY = false /\
  exists s', ((if negb (has (flags_of s1 i) B_VALID) then iderw i else ret tt) s1 = Ok tt s') /\
    bread_post s D P H sec d0 i s'.
Proof.
  intros Hrep HD Hun Hi Hc s1. pose proof Hrep as (Hmem & Hdisk & Hlinks & Hok).
  pose proof (rep_len _ _ _ _ i Hrep ltac:(lia)) as Hlen.
  pose proof Hc as [Hdev%Z.eqb_eq Hsec%Z.eqb_eq]%andb_true_iff.
  pose proof (caches_unique _ _ _ _ _ _ Hok Hi Hc) as Hother.
  pose proof (cached_clean_unpinned _ _ _ _ _ _ Hok Hi Hc) as Hunp.
  pose proof (bo_buf _ _ _ _ Hok i Hi) as Hb. destruct (H !! i) as [h|] eqn:HHi.
  { destruct (Hun i h HHi). destruct Hb as (_ & _ & _ & _ & _ & E & _). congruence. }
  destruct Hb as (Hblk & Hbusy & Hdirty & Hclean). split; [done|].
  assert (buf_at s1 i = with_flags (set_flag (b_flags (buf_at s i)) B_BUSY) (buf_at s i)) as Hs1.
  { unfold s1. rewrite buf_at_on_buf by done. by case_decide. }
  assert (links_ok s1) as Hl1 by (by apply links_on_buf).
  assert (forall j, (j < NBUF)%nat -> j <> i -> payload (buf_at s1 j) = payload (buf_at s j)) as Hpay.
  { intros j Hj Hne. unfold s1. rewrite buf_at_on_buf by done. by case_decide. }
  unfold flags_of in *.
  destruct (has (b_flags (buf_at s i)) B_VALID) eqn:Hv; rewrite Hs1; simpl; autorewrite with flags;
    rewrite Hv; simpl.
  - exists s1. split; [done|]. eapply hold_buffer; try done.
    rewrite Hs1. unfold buf_ok. simpl. autorewrite with flags. split; [done|].
    destruct (has (b_flags (buf_at s i)) B_DIRTY) eqn:Hdty.
    + destruct (Hdirty eq_refl) as (_ & _ & HP). rewrite Hsec in HP. rewrite HP.
      rewrite bool_decide_true by (by eexists). by split_and!.
    + destruct (Hclean eq_refl eq_refl) as [_ HDi]. rewrite (Hunp eq_refl).
      rewrite bool_decide_false by (by intros []). split_and!; try done. simpl. congruence.
  - assert (has (b_flags (buf_at s i)) B_DIRTY = false) as Hdty.
    { destruct (has (b_flags (buf_at s i)) B_DIRTY); [|done].
      destruct (Hdirty eq_refl) as (_ & ? & _). done. }
    eapply bread_fill; try done; unfold flags_of; rewrite ?Hs1; simpl; autorewrite with flags; auto.
Qed.

(** [bread] returns a held buffer with the current contents of the sector. *)
Lemma bread_spec s D P H sec d0 :
  rep s D P H -> D !! sec = Some d0 -> unheld H sec ->
  is_Some (P !! sec) \/ (size P + size H < NBUF)%nat ->
  wp (bread ROOTDEV sec) (bread_post s D P H sec d0) s.
Proof.
  intros Hrep HD Hun Hroom. pose proof Hrep as (Hmem & Hdisk & Hlinks & Hok).
  destruct (bget_scan s (caches s ROOTDEV sec) Hlinks) as [(r & Hr & Hcase) _].
  unfold bread, bget. apply wp_ok. unfold bind, gets, ret. rewrite Hr.
  destruct r as [i|].
  - destruct Hcase as [Hi Hc].
    destruct (bread_hit _ _ _ _ _ _ _ Hrep HD Hun Hi Hc) as (-> & s' & E & Hpost).
    simpl. unfold ret in E. rewrite E. eauto.
  - pose proof (uncached_unpinned _ _ _ _ _ Hok Hcase) as HP.
    destruct (bget_scan s (recyclable s) Hlinks) as [_ (r & -> & Hcase')].
    destruct r as [i|].
    + destruct Hcase' as [Hi Hrec].
      apply andb_true_iff in Hrec as [Hb%negb_true_iff Hd%negb_true_iff].
      pose proof (rep_len _ _ _ _ i Hrep ltac:(lia)) as Hlen.
      set (s1 := on_buf i _ s).
      assert (buf_at s1 i = with_flags B_BUSY (with_sector sec (with_dev ROOTDEV (buf_at s i)))) as Hs1.
      { unfold s1. rewrite buf_at_on_buf by done. by case_decide. }
      destruct (H !! i) as [h|] eqn:HHi.
      { pose proof (bo_buf _ _ _ _ Hok i Hi) as Hbi. rewrite HHi in Hbi.
        destruct Hbi as (_ & _ & E & _). unfold flags_of in Hb. congruence. }
      destruct (bread_fill s s1 D P H sec d0 i) as (s' & E & Hpost); try done;
        unfold flags_of; rewrite ?Hs1; try done.
      * intros j Hj _. by apply Hcase.
      * intros j Hj Hne. unfold s1. rewrite buf_at_on_buf by done. by case_decide.
      * by apply links_on_buf.
      * simpl. rewrite E. eauto.
    + pose proof (cache_full _ _ _ _ Hok Hcase'). rewrite HP in Hroom.
      destruct Hroom as [[]|]; [done|lia].
Qed.

Lemma is_block_held s D P H i h : rep s D P H -> H !! i = Some h -> is_block (h_data h).
Proof.
  intros (_ & _ & _ & Hok) HHi. pose proof (bo_held _ _ _ _ Hok _ _ HHi) as Hi.
  destruct (bo_buf _ _ _ _ Hok i Hi) as [Hb Hh]. rewrite HHi in Hh.
  destruct Hh as (_ & _ & _ & _ & _ & <-). done.
Qed.

(** What is known of a held buffer. *)
Lemma held_buf s D P H i h :
  rep s D P H -> H !! i = Some h ->
  (i < NBUF)%nat /\ buf_ok D P (Some h) (buf_at s i) /\ P !! h_sector h = None /\
  (forall j, (j < NBUF)%nat -> j <> i -> b_dev (buf_at s j) = ROOTDEV ->
     b_sector (buf_at s j) <> h_sector h).
Proof.
  intros (_ & _ & _ & Hok) HHi. pose proof (bo_held _ _ _ _ Hok _ _ HHi) as Hi.
  pose proof (bo_buf _ _ _ _ Hok i Hi) as Hb. rewrite HHi in Hb.
  pose proof Hb as (_ & Hdev & _ & _ & _ & Hsec & _). split_and!; try done.
  - apply eq_None_not_Some. intros HP.
    destruct (pinned_unique s D P H i (h_sector h)) as [E _]; try done. congruence.
  - intros j Hj Hne Hdj E. destruct Hne. apply (bo_uniq _ _ _ _ Hok); congruence.
Qed.

(** A held buffer is updated in place, and possibly the disk with it. *)
Lemma rehold_buffer s s' D D' P H i h h' :
  rep s D P H -> H !! i = Some h -> h_sector h' = h_sector h ->
  (forall j, (j < NBUF)%nat -> j <> i -> payload (buf_at s' j) = payload (buf_at s j)) ->
  (forall x, x <> h_sector h -> D' !! x = D !! x) ->
  buf_ok D' P (Some h') (buf_at s' i) ->
  bufs_ok s' D' P (<[i:=h']> H).
Proof.
  intros Hrep HHi Hsec' Hpay HD' Hbok.
  pose proof (held_buf _ _ _ _ _ _ Hrep HHi) as (Hi & _ & HP & Hother).
  destruct Hrep as (_ & _ & _ & Hok).
  pose proof Hbok as (_ & Hdev & _ & _ & _ & Hsec & _).
  eapply (bufs_ok_step s s' D P H _ _ _ i); try done.
  - intros j ?. by apply lookup_insert_ne.
  - by rewrite lookup_insert_eq.
  - intros j Hj Hne Hdj. rewrite Hsec, Hsec'. by apply Hother.
  - intros x Hx. split; [|done]. apply HD'. congruence.
  - rewrite Hsec, Hsec', HP. by intros [].
  - congruence.
Qed.

(** Storing into the data of a held buffer. *)
Lemma set_data_spec s D P H i h d :
  rep s D P H -> H !! i = Some h -> is_block d ->
  rep (on_buf i (with_data d) s) D P (<[i := Held (h_sector h) d (h_dirty h)]> H).
Proof.
  intros Hrep HHi Hd. pose proof (held_buf _ _ _ _ _ _ Hrep HHi) as (Hi & Hb & _).
  pose proof (rep_len _ _ _ _ i Hrep ltac:(lia)) as Hlen.
  split_and!; [apply Hrep|apply Hrep|apply links_on_buf; try done; apply Hrep|].
  eapply (rehold_buffer s _ D D); try done.
  - intros j Hj Hne. rewrite buf_at_on_buf by done. by case_decide.
  - rewrite buf_at_on_buf by done. case_decide; [|done].
    destruct Hb as (_ & Hb). split; [done|]. simpl. tauto.
Qed.

(** Marking a held buffer dirty. *)
Lemma set_dirty_spec s D P H i h :
  rep s D P H -> H !! i = Some h ->
  rep (on_buf i (fun x => with_flags (set_flag (b_flags x) B_DIRTY) x) s) D P
    (<[i := Held (h_sector h) (h_data h) true]> H).
Proof.
  intros Hrep HHi. pose proof (held_buf _ _ _ _ _ _ Hrep HHi) as (Hi & Hb & _).
  pose proof (rep_len _ _ _ _ i Hrep ltac:(lia)) as Hlen.
  split_and!; [apply Hrep|apply Hrep|apply links_on_buf; try done; apply Hrep|].
  eapply (rehold_buffer s _ D D); try done.
  - intros j Hj Hne. rewrite buf_at_on_buf by done. by case_decide.
  - rewrite buf_at_on_buf by done. case_decide; [|done].
    destruct Hb as (Hd & Hb). split; [done|]. simpl. autorewrite with flags. tauto.
Qed.

Lemma disk_ok_insert size D sec d :
  disk_ok size D -> is_Some (D !! sec) -> is_block d -> disk_ok size (<[sec:=d]> D).
Proof.
  intros [Hdom Hblk] Hsec Hd. split.
  - intros x. rewrite <- Hdom. destruct (decide (sec = x)) as [<-|].
    + rewrite lookup_insert_eq. naive_solver.
    + by rewrite lookup_insert_ne.
  - intros x d'. destruct (decide (sec = x)) as [<-|].
    + rewrite lookup_insert_eq. congruence.
    + rewrite lookup_insert_ne by done. apply Hblk.
Qed.

(** [bwrite] makes the disk agree with the held buffer. *)
Lemma bwrite_spec s D P H i h :
  rep s D P H -> H !! i = Some h -> is_Some (D !! h_sector h) ->
  wp (bwrite i) (fun _ s' =>
    rep s' (<[h_sector h := h_data h]> D) P (<[i := Held (h_sector h) (h_data h) false]> H) /\
    journal s' = journal s ++ [(h_sector h, h_data h)] /\ same_rest s s') s.
Proof.
  intros Hrep HHi HD. pose proof (held_buf _ _ _ _ _ _ Hrep HHi) as (Hi & Hb & _).
  pose proof (rep_len _ _ _ _ i Hrep ltac:(lia)) as Hlen.
  pose proof (is_block_held _ _ _ _ _ _ Hrep HHi) as Hblk.
  pose proof Hrep as (Hmem & Hdisk & Hlinks & _).
  destruct Hb as (_ & Hdev & Hbusy & Hvalid & _ & Hsec & Hdat).
  unfold bwrite. apply wp_bind, wp_gets. unfold flags_of at 1. rewrite Hbusy. simpl.
  apply wp_bind, wp_modify, wp_ok. set (s1 := on_buf i _ s).
  assert (buf_at s1 i = with_flags (set_flag (b_flags (buf_at s i)) B_DIRTY) (buf_at s i)) as Hs1.
  { unfold s1. rewrite buf_at_on_buf by done. by case_decide. }
  assert (i < length (bcache s1))%nat as Hl1 by (unfold s1; by rewrite length_on_buf).
  apply (proj1 Hdisk) in HD as Hrange.
  rewrite iderw_write; unfold flags_of; rewrite ?Hs1; simpl; autorewrite with flags;
    rewrite ?Hsec, ?Hdat; try done; [|lia].
  do 2 eexists. split; [done|]. set (s2 := on_buf i _ s1).
  assert (i < length (bcache s2))%nat as Hl2 by (unfold s2; by rewrite length_on_buf).
  split; [|done]. split_and!; simpl.
  - by rewrite Hmem.
  - by apply disk_ok_insert.
  - apply links_on_buf; try done. apply (links_ext s2); try done.
    unfold s2, s1. by repeat (apply links_on_buf; try done).
  - eapply (rehold_buffer s _ D); try done.
    + intros j Hj Hne. rewrite buf_at_on_buf by done. case_decide; [done|].
      change (buf_at (disk_write _ _ s2) j) with (buf_at s2 j). unfold s2, s1.
      rewrite !buf_at_on_buf by (rewrite ?length_on_buf; done). by repeat case_decide.
    + intros x Hx. apply lookup_insert_ne. congruence.
    + rewrite buf_at_on_buf by done. case_decide; [|done].
      change (buf_at (disk_write _ _ s2) i) with (buf_at s2 i).
      unfold s2. rewrite buf_at_on_buf by done. case_decide; [|done]. rewrite Hs1.
      unfold buf_ok. simpl. autorewrite with flags. rewrite Hdat. split; [done|]. by split_and!.
Qed.

(** Link updates, as updates of the two link functions. *)
Lemma next_with_next s i v j :
  (i < length (bcache s))%nat -> next_of (on_buf i (with_next v) s) j = upd (next_of s) i v j.
Proof.
  intros. unfold next_of, upd. rewrite buf_at_on_buf by done. by repeat case_decide; subst.
Qed.

Lemma prev_with_prev s i v j :
  (i < length (bcache s))%nat -> prev_of (on_buf i (with_prev v) s) j = upd (prev_of s) i v j.
Proof.
  intros. unfold prev_of, upd. rewrite buf_at_on_buf by done. by repeat case_decide; subst.
Qed.

Lemma next_with_prev s i v j :
  (i < length (bcache s))%nat -> next_of (on_buf i (with_prev v) s) j = next_of s j.
Proof. intros. unfold next_of. rewrite buf_at_on_buf by done. by case_decide; subst. Qed.

Lemma prev_with_next s i v j :
  (i < length (bcache s))%nat -> prev_of (on_buf i (with_next v) s) j = prev_of s j.
Proof. intros. unfold prev_of. rewrite buf_at_on_buf by done. by case_decide; subst. Qed.

(** The links after the six pointer assignments of [brelse]. *)
Definition relink (b : nat) (s : kst) : kst :=
  let bn := next_of s b in
  let bp := prev_of s b in
  let s2 := on_buf bp (with_next bn) (on_buf bn (with_prev bp) s) in
  let hn := next_of s2 HEAD in
  on_buf HEAD (with_next b) (on_buf hn (with_prev b)
    (on_buf b (with_prev HEAD) (on_buf b (with_next hn) s2))).

Lemma relink_lru s l1 b l2 : lru s (l1 ++ b :: l2) -> lru (relink b s) (b :: l1 ++ l2).
Proof.
  intros (Hlen & Hd & Hperm).
  assert (forall x, x ∈ HEAD :: l1 ++ b :: l2 -> (x < S NBUF)%nat) as Hin.
  { intros x [->|Hx]%elem_of_cons; [unfold HEAD; lia|]. apply order_lt in Hx; [lia|done]. }
  assert (b ∈ HEAD :: l1 ++ b :: l2) as Hb by set_solver.
  destruct (dll_links_in _ _ _ _ _ Hd Hb) as [Hbn%Hin Hbp%Hin].
  apply Hin in Hb as Hbl.
  pose proof (dll_perm_nodup _ _ _ _ Hd) as [Hnd Hnh].
  apply NoDup_app in Hnd as (_ & Hdis & Hnd). apply NoDup_cons in Hnd as [Hb2 _].
  pose proof (dll_unlink _ _ _ _ _ _ Hd) as Hd1.
  destruct (dll_links_in _ _ _ _ HEAD Hd1 ltac:(left)) as [Hhn _].
  assert (upd (next_of s) (prev_of s b) (next_of s b) HEAD < S NBUF)%nat as Hhnl.
  { apply Hin. set_solver. }
  apply (dll_push _ _ _ _ b) in Hd1; [|set_solver..].
  split; [unfold relink; by rewrite !length_on_buf|]. split; [|by rewrite <- Hperm, Permutation_middle].
  unfold relink. set (bn := next_of s b) in *. set (bp := prev_of s b) in *.
  set (s2 := on_buf bp _ _).
  assert (forall x, next_of s2 x = upd (next_of s) bp bn x) as Hn2.
  { intros x. unfold s2. rewrite next_with_next by (rewrite length_on_buf; lia).
    apply upd_ext. intros y. apply next_with_prev. lia. }
  assert (forall x, prev_of s2 x = upd (prev_of s) bn bp x) as Hp2.
  { intros x. unfold s2. rewrite prev_with_next by (rewrite length_on_buf; lia).
    apply prev_with_prev. lia. }
  assert (length (bcache s2) = S NBUF) as Hl2 by (unfold s2; by rewrite !length_on_buf).
  rewrite Hn2. eapply dll_ext; [..|exact Hd1]; intros x.
  - rewrite next_with_next by (rewrite !length_on_buf; unfold HEAD; lia).
    apply upd_ext. intros y. rewrite !next_with_prev by (rewrite !length_on_buf; lia).
    rewrite next_with_next by lia. by apply upd_ext.
  - rewrite prev_with_next by (rewrite !length_on_buf; unfold HEAD; lia).
    rewrite prev_with_prev by (rewrite !length_on_buf; lia).
    apply upd_ext. intros y. rewrite prev_with_prev by (rewrite !length_on_buf; lia).
    apply upd_ext. intros z. rewrite prev_with_next by lia. apply Hp2.
Qed.

Lemma payload_on_buf s i f j :
  (forall b, payload (f b) = payload b) -> payload (buf_at (on_buf i f s) j) = payload (buf_at s j).
Proof.
  intros Hf. unfold buf_at, on_buf. simpl. destruct (decide (i = j)) as [->|].
  - rewrite list_lookup_alter_eq. destruct (bcache s !! j); simpl; [apply Hf|done].
  - by rewrite list_lookup_alter_ne.
Qed.

Lemma payload_relink s b j : payload (buf_at (relink b s) j) = payload (buf_at s j).
Proof. unfold relink. by rewrite !payload_on_buf. Qed.

Lemma links_split s b : links_ok s -> (b < NBUF)%nat -> exists l1 l2, lru s (l1 ++ b :: l2).
Proof.
  intros (order & Hl) Hb. pose proof Hl as (_ & _ & Hp).
  apply (order_lt _ _ Hp) in Hb. apply list_elem_of_split in Hb as (l1 & l2 & ->). eauto.
Qed.

Lemma brelse_run s b :
  links_ok s -> (b < NBUF)%nat -> has (flags_of s b) B_BUSY = true ->
  brelse b s = Ok tt (wake (ch_buf b)
    (on_buf b (fun x => with_flags (clr_flag (b_flags x) B_BUSY) x) (relink b s))).
Proof.
  intros Hl Hb Hbusy. destruct (links_split s b Hl Hb) as (l1 & l2 & Hlen & Hd & Hp).
  assert (b ∈ HEAD :: l1 ++ b :: l2) as Hin by set_solver.
  destruct (dll_links_in _ _ _ _ _ Hd Hin) as [Hbn Hbp].
  assert (forall x, x ∈ HEAD :: l1 ++ b :: l2 -> (x < length (bcache s))%nat) as Hlt.
  { intros x. rewrite Hlen, elem_of_cons. intros [->|Hx]; [unfold HEAD; lia|].
    apply order_lt in Hx; [lia|done]. }
  unfold brelse, wakeup, bind, gets, modify. rewrite Hbusy. change (negb true) with false. cbv iota beta.
  assert (prev_of (on_buf (next_of s b) (with_prev (prev_of s b)) s) b = prev_of s b) as ->.
  { rewrite prev_with_prev by (by apply Hlt). unfold upd. by case_decide. }
  rewrite (next_with_prev s) by (by apply Hlt).
  unfold relink. set (s2 := on_buf (prev_of s b) _ _).
  assert (length (bcache s2) = length (bcache s)) as Hl2 by (unfold s2; by rewrite !length_on_buf).
  rewrite next_with_prev by (rewrite length_on_buf; lia).
  rewrite next_with_next by lia. rewrite upd_ne by (unfold HEAD; lia). done.
Qed.

(** [brelse] gives the buffer back: a dirty one stays pinned in the cache, a
    clean one must agree with the disk. *)
Lemma brelse_spec s D P H i h :
  rep s D P H -> H !! i = Some h -> (h_dirty h = false -> D !! h_sector h = Some (h_data h)) ->
  wp (brelse i) (fun _ s' =>
    rep s' D (if h_dirty h then <[h_sector h := h_data h]> P else P) (delete i H) /\
    journal s' = journal s /\ same_rest s s') s.
Proof.
  intros Hrep HHi Hclean. pose proof (held_buf _ _ _ _ _ _ Hrep HHi) as (Hi & Hb & HP & Hother).
  pose proof (is_block_held _ _ _ _ _ _ Hrep HHi) as Hblk.
  pose proof Hrep as (Hmem & Hdisk & Hlinks & Hok). pose proof (links_len _ Hlinks) as Hlen.
  destruct Hb as (_ & Hdev & Hbusy & Hvalid & Hdirty & Hsec & Hdat).
  unfold wp. rewrite brelse_run by done. split; [|done]. set (s1 := relink i s).
  assert (links_ok s1) as Hl1.
  { destruct (links_split s i Hlinks Hi) as (l1 & l2 & Hl). eexists. by apply relink_lru. }
  pose proof (links_len _ Hl1) as Hlen1.
  assert (payload (buf_at s1 i) = payload (buf_at s i)) as Hp by apply payload_relink.
  unfold payload in Hp. injection Hp as Hf1 Hdev1 Hsec1 Hdat1.
  set (s2 := wake _ _).
  assert (buf_at s2 i = with_flags (clr_flag (b_flags (buf_at s1 i)) B_BUSY) (buf_at s1 i)) as Hs2.
  { change (buf_at s2 i) with (buf_at (on_buf i (fun x => with_flags (clr_flag (b_flags x) B_BUSY) x) s1) i).
    rewrite buf_at_on_buf by lia. by case_decide. }
  split_and!; [done|done|by apply links_on_buf|].
  eapply (bufs_ok_step s s2 D P H _ _ _ i); try done; rewrite ?Hs2; simpl; rewrite ?Hsec1, ?Hsec, ?Hdev1; try done.
  - intros j Hj Hne. rewrite <- (payload_relink s i j).
    change (buf_at s2 j) with (buf_at (on_buf i (fun x => with_flags (clr_flag (b_flags x) B_BUSY) x) s1) j).
    rewrite buf_at_on_buf by lia. by case_decide.
  - intros j Hne. by apply lookup_delete_ne.
  - rewrite lookup_delete_eq. unfold buf_ok. simpl. rewrite Hf1, Hdev1, Hsec1, Hsec, Hdat1, Hdat.
    autorewrite with flags. rewrite Hdirty. split; [done|]. split_and!; [done|..].
    + intros ->. rewrite lookup_insert_eq. done.
    + auto.
  - intros x Hx. split; [done|]. destruct (h_dirty h); [|done]. by apply lookup_insert_ne.
  - rewrite lookup_delete_eq. intros HP'. split; [done|].
    unfold flags_of. rewrite Hs2. simpl. autorewrite with flags. rewrite Hf1, Hdirty.
    destruct (h_dirty h); [done|]. rewrite HP in HP'. by destruct HP'.
Qed.

(** The state of the loop of [binit] after [k] iterations. *)
Definition binit_inv D (size : Z) (k : nat) s : Prop :=
  memdisk s = D /\ disksize s = size /\ journal s = [] /\ log s = zero_log /\
  icache s = replicate NINODE zero_inode /\
  length (bcache s) = S NBUF /\ dll (next_of s) (prev_of s) HEAD (reverse (seq 0 k)) /\
  forall i, b_flags (buf_at s i) = 0 /\ b_data (buf_at s i) = zero_block /\
    b_dev (buf_at s i) <> ROOTDEV.

Lemma binit_start D size :
  binit_inv D size 0
    (on_buf HEAD (with_next HEAD) (on_buf HEAD (with_prev HEAD) (boot D size))).
Proof.
  assert (forall i, buf_at (boot D size) i = zero_buf) as Hz.
  { intros i. unfold buf_at. change (bcache (boot D size)) with (replicate (S NBUF) zero_buf).
    destruct (decide (i < S NBUF)%nat); [by rewrite lookup_replicate_2|].
    by rewrite (proj1 (lookup_replicate_None _ _ _)) by lia. }
  split_and!; try done.
  - split; [apply NoDup_cons; split; [set_solver|constructor]|].
    assert (HEAD < length (bcache (boot D size)))%nat by (by apply Nat.ltb_lt).
    split; [by rewrite next_with_next, upd_eq by (by rewrite ?length_on_buf)|].
    by rewrite prev_with_next, prev_with_prev, upd_eq by (by rewrite ?length_on_buf).
  - intros i. rewrite !buf_at_on_buf by (by apply Nat.ltb_lt).
    repeat case_decide; rewrite ?Hz; done.
Qed.

Lemma binit_step D size k s :
  (k < NBUF)%nat -> binit_inv D size k s ->
  let hn := next_of s HEAD in
  let s1 := on_buf k (with_dev (u32 (-1))) (on_buf k (with_prev HEAD) (on_buf k (with_next hn) s)) in
  next_of s1 HEAD = hn /\
  binit_inv D size (S k) (on_buf HEAD (with_next k) (on_buf hn (with_prev k) s1)).
Proof.
  intros Hk (Hm & Hsz & Hj & Hlog & Hic & Hlen & Hd & Hb) hn s1.
  assert (hn ∈ HEAD :: reverse (seq 0 k)) as Hhn.
  { eapply (dll_links_in _ _ _ _ HEAD) in Hd as [? _]; [done|left]. }
  assert (hn < S NBUF)%nat as Hhl.
  { rewrite elem_of_cons, elem_of_reverse, elem_of_seq in Hhn. unfold HEAD in Hhn. lia. }
  assert (length (bcache s1) = S NBUF) as Hl1 by (unfold s1; by rewrite !length_on_buf).
  assert (forall x, next_of s1 x = upd (next_of s) k hn x) as Hn1.
  { intros x. unfold s1, next_of, upd. rewrite !buf_at_on_buf by (rewrite ?length_on_buf; lia).
    by repeat case_decide; subst. }
  assert (forall x, prev_of s1 x = upd (prev_of s) k HEAD x) as Hp1.
  { intros x. unfold s1, prev_of, upd. rewrite !buf_at_on_buf by (rewrite ?length_on_buf; lia).
    by repeat case_decide; subst. }
  split; [rewrite Hn1; apply upd_ne; unfold HEAD; lia|].
  split_and!; try done.
  - by rewrite !length_on_buf.
  - rewrite seq_S, reverse_app. change (reverse [0 + k]%nat ++ ?l) with (k :: l).
    apply (dll_push _ _ _ _ k) in Hd.
    + eapply dll_ext; [..|exact Hd]; intros x.
      * rewrite next_with_next by (rewrite length_on_buf; unfold HEAD; lia). apply upd_ext.
        intros y. rewrite next_with_prev by lia. apply Hn1.
      * rewrite prev_with_next by (rewrite length_on_buf; unfold HEAD; lia).
        rewrite prev_with_prev by lia. by apply upd_ext.
    + unfold HEAD. lia.
    + rewrite elem_of_reverse, elem_of_seq. lia.
  - intros i. unfold s1.
    rewrite !buf_at_on_buf by (rewrite ?length_on_buf; unfold HEAD; lia).
    pose proof (Hb i). pose proof (Hb k). pose proof (Hb hn). pose proof (Hb HEAD).
    repeat case_decide; simplify_eq; simpl; naive_solver.
Qed.

(** After [binit] the cache is empty. *)
Lemma binit_spec D size :
  disk_ok size D ->
  wp binit (fun _ s' => rep s' D ∅ ∅ /\ journal s' = [] /\ disksize s' = size /\
    log s' = zero_log /\ icache s' = replicate NINODE zero_inode) (boot D size).
Proof.
  intros Hdisk. unfold binit. wp_steps.
  eapply wp_mono; [apply (wp_for (binit_inv D size))|].
  - apply binit_start.
  - intros k b s' Hk Hinv. apply lookup_seq in Hk as [-> Hk]. simpl. wp_steps.
    destruct (binit_step D size k s' Hk Hinv) as [-> ?]. done.
  - intros [] s'. rewrite length_seq. intros (Hm & Hsz & Hj & Hlog & Hic & Hlen & Hd & Hb).
    split_and!; try done. split_and!; [done|by rewrite Hsz| |].
    + eexists. split; [done|]. split; [done|]. apply reverse_Permutation.
    + split.
      * intros i Hi. rewrite lookup_empty. destruct (Hb i) as (Hf & Hdat & Hdev).
        unfold buf_ok. rewrite Hf, Hdat. split; [apply zero_block_ok|]. done.
      * intros sec d. by rewrite lookup_empty.
      * intros i j _ _ Hdi. by destruct (Hb i) as (_ & _ & ?).
      * intros i h. by rewrite lookup_empty.
Qed.

Lemma held_data s D P H i h : rep s D P H -> H !! i = Some h -> b_data (buf_at s i) = h_data h.
Proof. intros Hrep HHi. by destruct (held_buf _ _ _ _ _ _ Hrep HHi) as (_ & (_ & _ & _ & _ & _ & _ & ?) & _). Qed.

Lemma held_sector s D P H i h : rep s D P H -> H !! i = Some h -> b_sector (buf_at s i) = h_sector h.
Proof. intros Hrep HHi. by destruct (held_buf _ _ _ _ _ _ Hrep HHi) as (_ & (_ & _ & _ & _ & _ & ? & _) & _). Qed.

(** The cache does not depend on the rest of the state. *)
Lemma rep_ext s s' D P H :
  memdisk s' = memdisk s -> disksize s' = disksize s -> bcache s' = bcache s ->
  rep s D P H -> rep s' D P H.
Proof.
  intros Hm Hs Hb (H1 & H2 & H3 & H4).
  assert (forall i, buf_at s' i = buf_at s i) as Hat by (intros i; unfold buf_at; by rewrite Hb).
  split_and!; [congruence|by rewrite Hs| |].
  - apply (links_ext s); [by rewrite Hb|..|done]; intros i; unfold next_of, prev_of; by rewrite Hat.
  - destruct H4 as [A B C E]. split; [..|done]; unfold flags_of in *.
    + intros i. rewrite Hat. apply A.
    + intros sec d (i & Hi)%B. exists i. by rewrite !Hat.
    + intros i j. rewrite !Hat. apply C.
Qed.

Lemma rep_on_log s f D P H : rep s D P H -> rep (on_log f s) D P H.
Proof. by apply rep_ext. Qed.

Lemma pinned_block s D P H sec d : rep s D P H -> P !! sec = Some d -> is_block d.
Proof.
  intros (_ & _ & _ & Hok) Hd. destruct (bo_pin _ _ _ _ Hok _ _ Hd) as (i & Hi & HH & Hdi & Hs).
  destruct (bo_buf _ _ _ _ Hok i Hi) as [Hb Hr]. rewrite HH in Hr.
  destruct Hr as (_ & Hr & _). destruct (Hr Hdi) as (_ & _ & E). rewrite Hs, Hd in E. congruence.
Qed.

Lemma rep_wake s c D P H : rep s D P H -> rep (wake c s) D P H.
Proof. by apply rep_ext. Qed.
End Contract.

#[export] Hint Resolve rep_on_log rep_wake : kernel.
