(* ===== verification/Log.v ===== *)
(** * The log: crash-safe transactions

    [log.c], with [readsb] of [fs.c].  The routines run over the buffer cache
    of [Bio]; [log.lock] protects the header between sleeping points, and a
    [begin_op] that sleeps re-tests both conditions when woken, which is the
    same call again. *)

From S2P Require Import Prelude Bytes Params FsState Bio.

(** ** Data *)

Record superblock := Superblock { sb_size : Z; sb_nblocks : Z; sb_ninodes : Z; sb_nlog : Z }.

Definition decode_sb (d : block) : superblock :=
  Superblock (ld32 d 0) (ld32 d 4) (ld32 d 8) (ld32 d 12).

(** [sizeof(struct logheader)] *)
Definition LOGHEADER_SIZE : Z := 4 + LOGSIZE * 4.

Definition with_start v l :=
  Log v (l_size l) (l_outstanding l) (l_committing l) (l_dev l) (lh_n l) (lh_sector l).
Definition with_size v l :=
  Log (l_start l) v (l_outstanding l) (l_committing l) (l_dev l) (lh_n l) (lh_sector l).
Definition with_outstanding v l :=
  Log (l_start l) (l_size l) v (l_committing l) (l_dev l) (lh_n l) (lh_sector l).
Definition with_committing v l :=
  Log (l_start l) (l_size l) (l_outstanding l) v (l_dev l) (lh_n l) (lh_sector l).
Definition with_ldev v l :=
  Log (l_start l) (l_size l) (l_outstanding l) (l_committing l) v (lh_n l) (lh_sector l).
Definition with_n v l :=
  Log (l_start l) (l_size l) (l_outstanding l) (l_committing l) (l_dev l) v (lh_sector l).
Definition with_lh_sector i v l :=
  Log (l_start l) (l_size l) (l_outstanding l) (l_committing l) (l_dev l) (lh_n l)
    (<[i:=v]> (lh_sector l)).

Definition sector_at (l : log_t) (i : nat) : Z := default 0 (lh_sector l !! i).

(** ** Routines *)

(** Read the super block. *)
Definition readsb (dev : Z) : M kst superblock :=
  let! bp := bread dev 1 in
  let! sb := gets (fun s => decode_sb (b_data (buf_at s bp))) in
  brelse bp ;;;
  ret sb.

(** Copy committed blocks from log to their home location *)
Definition install_trans : M kst unit :=
  let! n := gets (fun s => lh_n (log s)) in
  for_ (upto n) (fun tail =>
    let! l := gets log in
    let! lbuf := bread (l_dev l) (u32 (l_start l + Z.of_nat tail + 1)) in
    let! l := gets log in
    let! dbuf := bread (l_dev l) (u32 (sector_at l tail)) in
    let! d := gets (fun s => b_data (buf_at s lbuf)) in
    modify (on_buf dbuf (with_data d)) ;;;
    bwrite dbuf ;;;
    brelse lbuf ;;;
    brelse dbuf).

(** Read the log header from disk into the in-memory log header.  A header
    with more than LOGSIZE entries would make the code write past the array;
    the entries that fit are the ones modelled. *)
Definition read_head : M kst unit :=
  let! l := gets log in
  let! b := bread (l_dev l) (u32 (l_start l)) in
  let! d := gets (fun s => b_data (buf_at s b)) in
  modify (on_log (with_n (s32 (ld32 d 0)))) ;;;
  let! n := gets (fun s => lh_n (log s)) in
  for_ (upto n) (fun i =>
    let! d := gets (fun s => b_data (buf_at s b)) in
    modify (on_log (with_lh_sector i (s32 (ld32 d (4 + 4 * i)))))) ;;;
  brelse b.

(** Write in-memory log header to disk.  This is the true point at which the
    current transaction commits. *)
Definition write_head : M kst unit :=
  let! l := gets log in
  let! b := bread (l_dev l) (u32 (l_start l)) in
  let! n := gets (fun s => lh_n (log s)) in
  modify (on_buf b (fun x => with_data (st32 (b_data x) 0 n) x)) ;;;
  for_ (upto n) (fun i =>
    let! l := gets log in
    modify (on_buf b (fun x => with_data (st32 (b_data x) (4 + 4 * i) (sector_at l i)) x))) ;;;
  bwrite b ;;;
  brelse b.

Definition recover_from_log : M kst unit :=
  read_head ;;;
  install_trans ;;;
  modify (on_log (with_n 0)) ;;;
  write_head.

Definition initlog : M kst unit :=
  if BSIZE <=? LOGHEADER_SIZE then panic "initlog: too big logheader"
  else
    let! sb := readsb ROOTDEV in
    modify (on_log (with_start (s32 (sb_size sb - sb_nlog sb)))) ;;;
    modify (on_log (with_size (s32 (sb_nlog sb)))) ;;;
    modify (on_log (with_ldev ROOTDEV)) ;;;
    recover_from_log.

(** Called at the start of each FS system call. *)
Definition begin_op : M kst unit :=
  let! l := gets log in
  if negb (l_committing l =? 0) then sleep ch_log
  else if LOGSIZE <? lh_n l + (l_outstanding l + 1) * MAXOPBLOCKS then sleep ch_log
  else modify (on_log (with_outstanding (l_outstanding l + 1))).

(** Copy modified blocks from cache to log. *)
Definition write_log : M kst unit :=
  let! n := gets (fun s => lh_n (log s)) in
  for_ (upto n) (fun tail =>
    let! l := gets log in
    let! to := bread (l_dev l) (u32 (l_start l + Z.of_nat tail + 1)) in
    let! l := gets log in
    let! from := bread (l_dev l) (u32 (sector_at l tail)) in
    let! d := gets (fun s => b_data (buf_at s from)) in
    modify (on_buf to (with_data d)) ;;;
    bwrite to ;;;
    brelse from ;;;
    brelse to).

Definition commit : M kst unit :=
  let! n := gets (fun s => lh_n (log s)) in
  if 0 <? n then
    write_log ;;;
    write_head ;;;
    install_trans ;;;
    modify (on_log (with_n 0)) ;;;
    write_head
  else ret tt.

(** Called at the end of each FS system call; commits if this was the last
    outstanding operation. *)
Definition end_op : M kst unit :=
  modify (on_log (fun l => with_outstanding (l_outstanding l - 1) l)) ;;;
  let! l := gets log in
  if negb (l_committing l =? 0) then panic "log.committing"
  else if l_outstanding l =? 0 then
    modify (on_log (with_committing 1)) ;;;
    commit ;;;
    modify (on_log (with_committing 0)) ;;;
    wakeup ch_log
  else wakeup ch_log.

(** The index the loop of [log_write] stops at: that of the first entry equal
    to [sec] among the first [n], else [n]. *)
Fixpoint absorb (secs : list Z) (n : nat) (sec : Z) (i : nat) : nat :=
  match n with
  | O => i
  | S n' =>
      match secs with
      | x :: secs' => if u32 x =? sec then i else absorb secs' n' sec (S i)
      | [] => i
      end
  end.

(** Record the block number and pin in the cache with B_DIRTY. *)
Definition log_write (b : nat) : M kst unit :=
  let! l := gets log in
  if (LOGSIZE <=? lh_n l) || (l_size l - 1 <=? lh_n l) then panic "too big a transaction"
  else if l_outstanding l <? 1 then panic "log_write outside of trans"
  else
    let! sec := gets (fun s => b_sector (buf_at s b)) in
    let i := absorb (lh_sector l) (Z.to_nat (lh_n l)) sec 0 in
    modify (on_log (with_lh_sector i (s32 sec))) ;;;
    (if Z.of_nat i =? lh_n l then modify (on_log (with_n (lh_n l + 1))) else ret tt) ;;;
    modify (on_buf b (fun x => with_flags (set_flag (b_flags x) B_DIRTY) x)).

(** ** Moving a block between two held buffers *)

(** The tail of the loop bodies of [write_log] and [install_trans]. *)
Definition move (src dst : nat) : M kst unit :=
  let! d := gets (fun s => b_data (buf_at s src)) in
  modify (on_buf dst (with_data d)) ;;;
  bwrite dst ;;;
  brelse src ;;;
  brelse dst.

Lemma move_spec s D P H src dst hs hd :
  rep s D P H -> H !! src = Some hs -> H !! dst = Some hd -> src <> dst ->
  h_sector hs <> h_sector hd -> is_Some (D !! h_sector hd) ->
  (h_dirty hs = false -> D !! h_sector hs = Some (h_data hs)) ->
  wp (move src dst) (fun _ s' =>
    rep s' (<[h_sector hd := h_data hs]> D)
      (if h_dirty hs then <[h_sector hs := h_data hs]> P else P) (delete dst (delete src H)) /\
    journal s' = journal s ++ [(h_sector hd, h_data hs)] /\ same_rest s s') s.
Proof.
  intros Hrep Hs Hd Hne Hsne HD Hclean. unfold move. apply wp_bind, wp_gets.
  rewrite (held_data _ _ _ _ _ _ Hrep Hs). apply wp_bind, wp_modify.
  pose proof (is_block_held _ _ _ _ _ _ Hrep Hs) as Hblk.
  pose proof (set_data_spec _ _ _ _ _ _ _ Hrep Hd Hblk) as H1.
  apply wp_bind. eapply wp_mono; [eapply (bwrite_spec _ _ _ _ dst _ H1); [apply lookup_insert_eq|done]|].
  simpl. intros [] s2 (H2 & J2 & R2).
  apply wp_bind. eapply wp_mono; [eapply (brelse_spec _ _ _ _ src hs H2)|].
  { by rewrite !lookup_insert_ne by done. }
  { intros Hc. rewrite lookup_insert_ne by congruence. by apply Hclean. }
  intros [] s3 (H3 & J3 & R3).
  eapply wp_mono; [eapply (brelse_spec _ _ _ _ dst _ H3)|].
  { rewrite lookup_delete_ne by done. apply lookup_insert_eq. }
  { intros _. by rewrite lookup_insert_eq. }
  simpl. intros [] s4 (H4 & J4 & R4). split_and!.
  - replace (delete dst (delete src H)) with
      (delete dst (delete src (<[dst:=Held (h_sector hd) (h_data hs) false]>
        (<[dst:=Held (h_sector hd) (h_data hs) (h_dirty hd)]> H)))); [done|].
    apply map_eq. intros x. rewrite !lookup_delete, !lookup_insert. by repeat case_decide.
  - rewrite J4, J3, J2. done.
  - etransitivity; [exact R2|]. etransitivity; [exact R3|done].
Qed.

(** ** Sequences of disk writes *)

Definition apply_writes (ws : list (Z * block)) (D : gmap Z block) : gmap Z block :=
  foldl (fun D w => <[w.1 := w.2]> D) D ws.

Lemma apply_writes_app ws ws' D : apply_writes (ws ++ ws') D = apply_writes ws' (apply_writes ws D).
Proof. apply foldl_app. Qed.

Lemma apply_writes_notin ws D x : x ∉ ws.*1 -> apply_writes ws D !! x = D !! x.
Proof.
  revert D. induction ws as [|[y d] ws IH]; intros D Hx; simpl in *; [done|].
  apply not_elem_of_cons in Hx as [Hne Hx]. rewrite IH by done. by apply lookup_insert_ne.
Qed.

Lemma apply_writes_in ws D x d : NoDup ws.*1 -> (x, d) ∈ ws -> apply_writes ws D !! x = Some d.
Proof.
  revert D. induction ws as [|[y e] ws IH]; intros D Hnd Hx; simpl in *.
  - by apply not_elem_of_nil in Hx.
  - apply NoDup_cons in Hnd as [Hy Hnd]. apply elem_of_cons in Hx as [[= <- <-]|Hx].
    + rewrite apply_writes_notin by done. apply lookup_insert_eq.
    + by apply IH.
Qed.

Lemma apply_writes_some ws D x : is_Some (D !! x) -> is_Some (apply_writes ws D !! x).
Proof.
  revert D. induction ws as [|[y d] ws IH]; intros D Hx; simpl; [done|]. apply IH.
  destruct (decide (y = x)) as [->|]; [rewrite lookup_insert_eq|rewrite lookup_insert_ne by done]; eauto.
Qed.

(** The blocks of [P] for the logged sectors [hs]; their copies in the log
    area, which starts after the header block [start]; their home locations. *)
Definition blocks (P : gmap Z block) (hs : list Z) : list block :=
  map (fun h => default zero_block (P !! h)) hs.

Definition log_writes (start : Z) (bs : list block) : list (Z * block) :=
  imap (fun k d => (start + Z.of_nat k + 1, d)) bs.

Definition home_writes (hs : list Z) (bs : list block) : list (Z * block) := zip hs bs.

Lemma log_writes_lookup start bs k :
  log_writes start bs !! k = (fun d => (start + Z.of_nat k + 1, d)) <$> bs !! k.
Proof. unfold log_writes. by rewrite list_lookup_imap. Qed.

Lemma log_writes_fst start bs x :
  x ∈ (log_writes start bs).*1 -> start < x <= start + Z.of_nat (length bs).
Proof.
  intros ([y d] & -> & Hin)%list_elem_of_fmap. apply list_elem_of_lookup in Hin as [k Hk].
  rewrite log_writes_lookup in Hk. destruct (bs !! k) eqn:E; simplify_eq/=.
  apply lookup_lt_Some in E. lia.
Qed.

Lemma log_writes_nodup start bs : NoDup (log_writes start bs).*1.
Proof.
  apply NoDup_alt. intros i j x Hi Hj. rewrite !list_lookup_fmap, !log_writes_lookup in *.
  destruct (bs !! i), (bs !! j); simplify_eq/=. lia.
Qed.

Lemma home_writes_fst hs bs : length hs = length bs -> (home_writes hs bs).*1 = hs.
Proof. intros. apply fst_zip. lia. Qed.

(** ** The log in memory *)

(** The in-memory header lists the sectors [hs]. *)
Definition log_at (s : kst) (start : Z) (hs : list Z) : Prop :=
  l_start (log s) = start /\ l_dev (log s) = ROOTDEV /\ lh_n (log s) = Z.of_nat (length hs) /\
  length (lh_sector (log s)) = Z.to_nat LOGSIZE /\
  forall k h, hs !! k = Some h -> sector_at (log s) k = h.

(** The log area, the header block [start] and [nlog - 1] blocks after it, is
    inside the disk and no larger than the LOGSIZE blocks mkfs gives it; the
    logged sectors are distinct, outside the area, and fit into it. *)
Record log_geom (size start nlog : Z) (hs : list Z) : Prop := {
  lg_start : 0 < start;
  lg_end : start + nlog <= size;
  lg_size : size <= 2 ^ 31;
  lg_fit : Z.of_nat (length hs) < nlog;
  lg_max : nlog <= LOGSIZE;
  lg_home : forall h, h ∈ hs -> 0 <= h < size /\ (h < start \/ start + nlog <= h);
  lg_nodup : NoDup hs
}.

Lemma log_at_rest s s' start hs : log_at s start hs -> same_rest s s' -> log_at s' start hs.
Proof. intros Hl (_ & E & _). unfold log_at. by rewrite E. Qed.

(** ** The two copying loops *)

Section Loops.
Context (dsz start nlog : Z) (hs : list Z).
Implicit Types (s : kst) (D P : gmap Z block).

(** The two [bread]s at the head of a loop body. *)
Definition fetch2 (tail : nat) : M kst (nat * nat) :=
  let! l := gets log in
  let! x := bread (l_dev l) (u32 (l_start l + Z.of_nat tail + 1)) in
  let! l := gets log in
  let! y := bread (l_dev l) (u32 (sector_at l tail)) in
  ret (x, y).

Lemma fetch2_spec s D P k h dl dh :
  log_geom dsz start nlog hs -> rep s D P ∅ -> log_at s start hs -> hs !! k = Some h ->
  D !! (start + Z.of_nat k + 1) = Some dl -> D !! h = Some dh ->
  P !! (start + Z.of_nat k + 1) = None -> (size P < NBUF)%nat ->
  is_Some (P !! h) \/ (S (size P) < NBUF)%nat ->
  wp (fetch2 k) (fun '(x, y) s' =>
    rep s' D (delete h P)
      (<[y := Held h (default dh (P !! h)) (bool_decide (is_Some (P !! h)))]>
        (<[x := Held (start + Z.of_nat k + 1) dl false]> ∅)) /\
    x <> y /\ journal s' = journal s /\ same_rest s s') s.
Proof.
  intros Hg Hrep Hat Hk HDl HDh HPl Hroom Hroom2.
  pose proof Hat as (Hst & Hdev & _ & _ & Hsec).
  pose proof (lookup_lt_Some _ _ _ Hk) as Hklt.
  destruct Hg as [G1 G2 G3 G4 G5 G6 G7].
  destruct (G6 h) as [Hhr Hhout]; [by eapply list_elem_of_lookup_2|].
  unfold fetch2. apply wp_bind, wp_gets. rewrite Hst, Hdev.
  rewrite (u32_small (start + _ + 1)) by lia.
  apply wp_bind. eapply wp_mono; [eapply (bread_spec _ D P ∅); try done|].
  { right. rewrite map_size_empty. lia. }
  simpl. intros x s1 (H1 & Hx & J1 & R1). rewrite HPl in H1. simpl in H1.
  rewrite delete_id in H1 by done.
  apply wp_bind, wp_gets. pose proof R1 as (_ & -> & _). rewrite Hdev, (Hsec k h Hk).
  rewrite u32_small by lia.
  apply wp_bind. eapply wp_mono; [eapply (bread_spec _ D P _ h dh H1); try done|].
  { intros i h'. destruct (decide (i = x)) as [->|].
    - rewrite lookup_insert_eq. intros [= <-]. simpl. lia.
    - by rewrite lookup_insert_ne, lookup_empty by done. }
  { destruct Hroom2 as [|Hr]; [by left|right].
    rewrite map_size_insert_None, map_size_empty by apply lookup_empty. lia. }
  intros y s2 (H2 & Hy & J2 & R2). apply wp_ret. split_and!; try done.
  - intros <-. by rewrite lookup_insert_eq in Hy.
  - congruence.
  - by etransitivity.
Qed.

Lemma fetch2_bind (k : nat -> nat -> M kst unit) tail s :
  (let! l := gets log in
   let! x := bread (l_dev l) (u32 (l_start l + Z.of_nat tail + 1)) in
   let! l := gets log in
   let! y := bread (l_dev l) (u32 (sector_at l tail)) in
   k x y) s = (let! xy := fetch2 tail in k xy.1 xy.2) s.
Proof.
  unfold fetch2, bind, gets, ret. destruct (bread _ _ s) as [x s1| | |]; try done.
  by destruct (bread _ _ s1).
Qed.

(** What both loops need to know. *)
Record loop_pre s D P : Prop := {
  lp_geom : log_geom dsz start nlog hs;
  lp_rep : rep s D P ∅;
  lp_at : log_at s start hs;
  lp_dsz : disksize s = dsz;
  lp_area : forall x, start <= x < start + nlog -> P !! x = None;
  lp_room : (size P < NBUF)%nat
}.

Lemma loop_disk s D P x : loop_pre s D P -> 0 <= x < dsz -> is_Some (D !! x).
Proof. intros [_ (_ & [Hd _] & _) _ <- _ _] Hx. by apply Hd. Qed.

Lemma two_held (x y : nat) (h1 h2 : held) :
  delete x (delete y (<[y := h1]> (<[x := h2]> ∅))) = (∅ : gmap nat held).
Proof.
  apply map_eq. intros z. rewrite !lookup_delete, !lookup_insert, lookup_empty.
  by repeat case_decide.
Qed.

(** One iteration of [write_log] and one of [install_trans]. *)
Lemma write_log_iter s D P k h d :
  loop_pre s D P -> hs !! k = Some h -> P !! h = Some d ->
  wp (let! xy := fetch2 k in move xy.2 xy.1) (fun _ s' =>
    rep s' (<[start + Z.of_nat k + 1 := d]> D) P ∅ /\
    journal s' = journal s ++ [(start + Z.of_nat k + 1, d)] /\ same_rest s s') s.
Proof.
  intros Hpre Hh Hd. pose proof Hpre as [Hg Hrep Hat Hsz Harea Hroom].
  pose proof (lookup_lt_Some _ _ _ Hh) as Hk. pose proof Hg as [G1 G2 G3 G4 G5 G6 G7].
  destruct (G6 h) as [Hhr Hhout]; [by eapply list_elem_of_lookup_2|].
  destruct (loop_disk s D P (start + Z.of_nat k + 1)) as [dl HDl]; [done|lia|].
  destruct (loop_disk s D P h) as [dh HDh]; [done..|].
  apply wp_bind. eapply wp_mono; [eapply (fetch2_spec s D P k h); try done|].
  { apply Harea. lia. }
  { left. by eexists. }
  intros [x y] s2 (H2 & Hxy & J2 & R2). simpl.
  eapply wp_mono; [eapply (move_spec s2 D _ _ y x _ _ H2); simpl|]; simpl.
  { apply lookup_insert_eq. }
  { rewrite lookup_insert_ne by done. apply lookup_insert_eq. }
  { done. }
  { simpl. lia. }
  { by eexists. }
  { by rewrite Hd. }
  rewrite Hd. simpl. intros [] s3 (H3 & J3 & R3).
  rewrite two_held, insert_delete_id in H3 by done.
  split_and!; [done|congruence|by etransitivity].
Qed.

Lemma install_iter s D P k h d :
  loop_pre s D P -> hs !! k = Some h -> D !! (start + Z.of_nat k + 1) = Some d ->
  is_Some (P !! h) \/ (S (size P) < NBUF)%nat ->
  wp (let! xy := fetch2 k in move xy.1 xy.2) (fun _ s' =>
    rep s' (<[h := d]> D) (delete h P) ∅ /\
    journal s' = journal s ++ [(h, d)] /\ same_rest s s') s.
Proof.
  intros Hpre Hh Hd HP. pose proof Hpre as [Hg Hrep Hat Hsz Harea Hroom].
  pose proof (lookup_lt_Some _ _ _ Hh) as Hk. pose proof Hg as [G1 G2 G3 G4 G5 G6 G7].
  destruct (G6 h) as [Hhr Hhout]; [by eapply list_elem_of_lookup_2|].
  destruct (loop_disk s D P h) as [dh HDh]; [done..|].
  apply wp_bind. eapply wp_mono; [eapply (fetch2_spec s D P k h); try done|].
  { apply Harea. lia. }
  intros [x y] s2 (H2 & Hxy & J2 & R2). simpl.
  eapply wp_mono; [eapply (move_spec s2 D _ _ x y _ _ H2); simpl|]; simpl.
  { rewrite lookup_insert_ne by done. apply lookup_insert_eq. }
  { apply lookup_insert_eq. }
  { done. }
  { simpl. lia. }
  { by eexists. }
  { done. }
  intros [] s3 (H3 & J3 & R3). simpl in H3, J3.
  replace (delete y _) with (∅ : gmap nat held) in H3.
  - split_and!; [done|congruence|by etransitivity].
  - apply map_eq. intros z. rewrite !lookup_delete, !lookup_insert, lookup_empty. by repeat case_decide.
Qed.

(** [write_log] copies the pinned blocks to the log area and changes nothing
    else. *)
Lemma write_log_spec s D P :
  loop_pre s D P -> (forall h, h ∈ hs -> is_Some (P !! h)) ->
  let W := log_writes start (blocks P hs) in
  wp write_log (fun _ s' => rep s' (apply_writes W D) P ∅ /\
    journal s' = journal s ++ W /\ same_rest s s') s.
Proof.
  intros Hpre HP W. pose proof Hpre as [Hg Hrep Hat Hsz Harea Hroom].
  assert (length W = length hs) as HlW.
  { unfold W, log_writes, blocks. by rewrite length_imap, length_map. }
  unfold write_log. apply wp_bind, wp_gets. pose proof Hat as (_ & _ & -> & _ & _).
  unfold upto. rewrite Nat2Z.id.
  eapply wp_mono; [apply (wp_for (fun k s' => rep s' (apply_writes (take k W) D) P ∅ /\
    journal s' = journal s ++ take k W /\ same_rest s s'))|].
  - rewrite app_nil_r. done.
  - intros k x s1 [-> Hk]%lookup_seq (H1 & J1 & R1). simpl.
    destruct (lookup_lt_is_Some_2 hs k Hk) as [h Hh].
    destruct (HP h) as [d Hd]; [by eapply list_elem_of_lookup_2|].
    eapply wp_eq; [apply (fetch2_bind (fun to from => move from to))|].
    eapply wp_mono; [eapply (write_log_iter s1 _ P k h d); try done|].
    { split; try done; [by eapply log_at_rest|by destruct R1 as (-> & _)]. }
    intros [] s2 (H2 & J2 & R2).
    assert (W !! k = Some (start + Z.of_nat k + 1, d)) as HWk.
    { unfold W. rewrite log_writes_lookup. unfold blocks. rewrite list_lookup_fmap, Hh. simpl. by rewrite Hd. }
    rewrite (take_S_r _ _ _ HWk), apply_writes_app, app_assoc, <- J1.
    split_and!; [done|done|by etransitivity].
  - simpl. intros [] s1. rewrite length_seq, take_ge by lia. done.
Qed.

(** The log area holds the blocks [bs]. *)
Definition log_holds D (bs : list block) : Prop :=
  length bs = length hs /\ forall k d, bs !! k = Some d -> D !! (start + Z.of_nat k + 1) = Some d.

(** The pins that are left once the sectors [l] have been written. *)
Definition unpin P (l : list Z) : gmap Z block := filter (fun p => p.1 ∉ l) P.

Lemma unpin_nil P : unpin P [] = P.
Proof. apply map_filter_id. set_solver. Qed.

Lemma unpin_snoc P l h : unpin P (l ++ [h]) = delete h (unpin P l).
Proof.
  apply map_eq. intros x. apply option_eq. intros d. unfold unpin.
  rewrite lookup_delete_Some, !map_lookup_filter_Some. simpl.
  rewrite elem_of_app, list_elem_of_singleton. naive_solver.
Qed.

Lemma unpin_lookup P l x : x ∉ l -> unpin P l !! x = P !! x.
Proof.
  intros Hx. apply option_eq. intros d. unfold unpin. rewrite map_lookup_filter_Some. naive_solver.
Qed.

Lemma unpin_size P l : (size (unpin P l) <= size P)%nat.
Proof. apply map_subseteq_size, map_filter_subseteq. Qed.

(** [install_trans] writes the logged blocks home and unpins them. *)
Lemma install_trans_spec s D P bs :
  loop_pre s D P -> log_holds D bs ->
  (forall h, h ∈ hs -> is_Some (P !! h) \/ (S (size P) < NBUF)%nat) ->
  let W := home_writes hs bs in
  wp install_trans (fun _ s' => rep s' (apply_writes W D) (unpin P hs) ∅ /\
    journal s' = journal s ++ W /\ same_rest s s') s.
Proof.
  intros Hpre [Hlb Hlog] HP W. pose proof Hpre as [Hg Hrep Hat Hsz Harea Hroom].
  assert (length W = length hs) as HlW.
  { unfold W, home_writes. rewrite length_zip_with. lia. }
  unfold install_trans. apply wp_bind, wp_gets. pose proof Hat as (_ & _ & -> & _ & _).
  unfold upto. rewrite Nat2Z.id.
  eapply wp_mono; [apply (wp_for (fun k s' => rep s' (apply_writes (take k W) D) (unpin P (take k hs)) ∅ /\
    journal s' = journal s ++ take k W /\ same_rest s s'))|].
  - rewrite app_nil_r, unpin_nil. done.
  - intros k x s1 [-> Hk]%lookup_seq (H1 & J1 & R1). simpl.
    destruct (lookup_lt_is_Some_2 hs k Hk) as [h Hh].
    destruct (lookup_lt_is_Some_2 bs k ltac:(lia)) as [d Hd].
    pose proof Hg as [G1 G2 G3 G4 G5 G6 G7].
    destruct (G6 h) as [Hhr Hhout]; [by eapply list_elem_of_lookup_2|].
    assert (h ∉ take k hs) as Hnew.
    { intros (j & Hj & Hjk)%elem_of_take. pose proof (NoDup_lookup _ _ _ _ G7 Hj Hh). lia. }
    pose proof (unpin_size P (take k hs)) as Hs.
    eapply wp_eq; [apply (fetch2_bind move)|].
    eapply wp_mono; [eapply (install_iter s1 _ _ k h d); try done|].
    { split; try done; [by eapply log_at_rest|by destruct R1 as (-> & _)| |lia].
      intros x Hx. rewrite unpin_lookup; [by apply Harea|].
      intros (j & Hj%list_elem_of_lookup_2 & _)%elem_of_take. apply G6 in Hj. lia. }
    { rewrite apply_writes_notin; [by apply Hlog|].
      rewrite fmap_take. unfold W. rewrite home_writes_fst by done.
      intros (j & Hj%list_elem_of_lookup_2 & _)%elem_of_take. apply G6 in Hj. lia. }
    { rewrite unpin_lookup by done. destruct (HP h); [by eapply list_elem_of_lookup_2|by left|].
      right. lia. }
    intros [] s2 (H2 & J2 & R2).
    assert (W !! k = Some (h, d)) as HWk.
    { unfold W, home_writes. apply lookup_zip_with_Some. eauto. }
    rewrite (take_S_r _ _ _ HWk), (take_S_r _ _ _ Hh), apply_writes_app, unpin_snoc, app_assoc, <- J1.
    split_and!; [done|done|by etransitivity].
  - simpl. intros [] s1. rewrite length_seq, !take_ge by lia. done.
Qed.
End Loops.

(** ** The header block *)

(** The sectors listed in a header block. *)
Definition head_of (d : block) : list Z :=
  map (fun i => s32 (ld32 d (4 + 4 * i))) (upto (s32 (ld32 d 0))).

(** The header entries filled in so far. *)
Definition head_upto (d : block) (hs : list Z) (k : nat) : Prop :=
  is_block d /\ ld32 d 0 = Z.of_nat (length hs) /\
  forall j h, (j < k)%nat -> hs !! j = Some h -> ld32 d (4 + 4 * j) = h.

(** [d] is a header block for the sectors [hs]. *)
Definition is_head (d : block) (hs : list Z) : Prop :=
  is_block d /\ s32 (ld32 d 0) = Z.of_nat (length hs) /\ head_of d = hs.

Lemma head_upto_all d hs :
  Z.of_nat (length hs) <= LOGSIZE -> (forall h, h ∈ hs -> 0 <= h < 2 ^ 31) ->
  head_upto d hs (length hs) -> is_head d hs.
Proof.
  unfold LOGSIZE, MAXOPBLOCKS. intros Hl Hr (Hb & Hn & He). split; [done|].
  split; [rewrite Hn; apply s32_small; lia|]. unfold head_of, upto. rewrite Hn, s32_small, Nat2Z.id by lia.
  apply list_eq. intros k. rewrite list_lookup_fmap.
  destruct (hs !! k) as [h|] eqn:Hk.
  - pose proof (lookup_lt_Some _ _ _ Hk). rewrite lookup_seq_lt by lia.
    change (Some (s32 (ld32 d (4 + 4 * k))) = Some h). rewrite (He k h) by done. f_equal. apply s32_small.
    pose proof (Hr h ltac:(by eapply list_elem_of_lookup_2)). lia.
  - apply lookup_ge_None in Hk. by rewrite lookup_seq_ge.
Qed.

Lemma is_block_st32 d o v : is_block d -> (o + 4 <= 512)%nat -> is_block (st32 d o v).
Proof.
  intros [Hl Hb] Ho. change (Z.to_nat BSIZE) with 512%nat in Hl. unfold st32. split.
  - rewrite length_st by lia. done.
  - by apply st_bytes.
Qed.

Lemma ld32_st32_eq d o v : is_block d -> (o + 4 <= 512)%nat -> ld32 (st32 d o v) o = u32 v.
Proof.
  intros [Hl _] Ho. change (Z.to_nat BSIZE) with 512%nat in Hl. apply (ld_st_eq 4). lia.
Qed.

Lemma ld32_st32_ne d o o' v :
  is_block d -> (o + 4 <= 512)%nat -> (o' + 4 <= o \/ o + 4 <= o')%nat ->
  ld32 (st32 d o v) o' = ld32 d o'.
Proof.
  intros [Hl _] Ho Hd. change (Z.to_nat BSIZE) with 512%nat in Hl. apply (ld_st_ne 4 4); lia.
Qed.

Lemma head_upto_step d hs k h :
  Z.of_nat (length hs) <= LOGSIZE -> hs !! k = Some h -> 0 <= h < 2 ^ 31 ->
  head_upto d hs k -> head_upto (st32 d (4 + 4 * k) h) hs (S k).
Proof.
  unfold LOGSIZE, MAXOPBLOCKS. intros Hl Hk Hh (Hb & Hn & He). pose proof (lookup_lt_Some _ _ _ Hk).
  split_and!.
  - apply is_block_st32; [done|lia].
  - rewrite ld32_st32_ne by (done || lia). done.
  - intros j h' Hj Hj'. destruct (decide (j = k)) as [->|].
    + rewrite ld32_st32_eq by (done || lia). rewrite u32_small by lia. congruence.
    + rewrite ld32_st32_ne by (done || lia). apply He; [lia|done].
Qed.

(** [write_head] replaces the header block by one that lists [hs]. *)
Lemma write_head_spec s D P start hs :
  rep s D P ∅ -> log_at s start hs -> 0 <= start < 2 ^ 31 -> is_Some (D !! start) ->
  P !! start = None -> (size P < NBUF)%nat ->
  Z.of_nat (length hs) <= LOGSIZE -> (forall h, h ∈ hs -> 0 <= h < 2 ^ 31) ->
  wp write_head (fun _ s' => exists d, is_head d hs /\
    rep s' (<[start := d]> D) P ∅ /\ journal s' = journal s ++ [(start, d)] /\ same_rest s s') s.
Proof.
  intros Hrep Hat Hst [d0 HD] HP Hroom Hl Hr. pose proof Hat as (Hs & Hdev & Hn & _ & Hsec).
  unfold write_head. apply wp_bind, wp_gets. rewrite Hs, Hdev, u32_small by lia.
  apply wp_bind. eapply wp_mono; [eapply (bread_spec _ D P ∅); try done|].
  { right. rewrite map_size_empty. lia. }
  intros b s1 (H1 & _ & J1 & R1). rewrite HP, delete_id in H1 by done. simpl in H1.
  apply wp_bind, wp_gets. pose proof (log_at_rest _ _ _ _ Hat R1) as (_ & _ & -> & _ & _).
  apply wp_bind, wp_modify. unfold upto. rewrite Nat2Z.id.
  pose proof (is_block_held _ _ _ _ b _ H1 ltac:(apply lookup_insert_eq)) as Hb0. simpl in Hb0.
  apply wp_bind. eapply wp_mono; [apply (wp_for (fun k s' => exists d, head_upto d hs k /\
    rep s' D P (<[b := Held start d false]> ∅) /\ journal s' = journal s /\ same_rest s s'))|].
  - exists (st32 d0 0 (Z.of_nat (length hs))). split; [|split; [|by rewrite <- J1]].
    + unfold LOGSIZE, MAXOPBLOCKS in Hl. split_and!; [apply is_block_st32; [done|lia]| |lia].
      rewrite ld32_st32_eq by (done || lia). apply u32_small. lia.
    + rewrite (on_buf_eq _ _ _ (with_data (st32 d0 0 (Z.of_nat (length hs))))).
      * eapply set_data_spec in H1; [|apply lookup_insert_eq|apply (is_block_st32 d0 0 (Z.of_nat (length hs))); [done|lia]].
        simpl in H1. by rewrite insert_insert_eq in H1.
      * by rewrite (held_data _ _ _ _ b _ H1 ltac:(apply lookup_insert_eq)).
  - intros k x s2 [-> Hk]%lookup_seq (d & Hd & H2 & J2 & R2). apply wp_bind, wp_gets, wp_modify.
    destruct (lookup_lt_is_Some_2 hs k Hk) as [h Hh].
    pose proof (log_at_rest _ _ _ _ Hat R2) as (_ & _ & _ & _ & Hsec2).
    change (0 + k)%nat with k. rewrite (Hsec2 k h Hh).
    exists (st32 d (4 + 4 * k) h). unfold LOGSIZE, MAXOPBLOCKS in Hl.
    pose proof (Hr h ltac:(by eapply list_elem_of_lookup_2)) as Hhr.
    split; [by apply head_upto_step|]. split; [|done].
    rewrite (on_buf_eq _ _ _ (with_data (st32 d (4 + 4 * k) h))).
    + eapply set_data_spec in H2; [|apply lookup_insert_eq|apply (is_block_st32 d (4 + 4 * k) h); [apply Hd|lia]].
      simpl in H2. by rewrite insert_insert_eq in H2.
    + by rewrite (held_data _ _ _ _ b _ H2 ltac:(apply lookup_insert_eq)).
  - rewrite length_seq. intros [] s2 (d & Hd & H2 & J2 & R2).
    apply wp_bind. eapply wp_mono; [eapply (bwrite_spec _ _ _ _ b _ H2); [apply lookup_insert_eq|by eexists]|].
    simpl. intros [] s3 (H3 & J3 & R3). rewrite insert_insert_eq in H3.
    eapply wp_mono; [eapply (brelse_spec _ _ _ _ b _ H3); [apply lookup_insert_eq|intros _; apply lookup_insert_eq]|].
    simpl. intros [] s4 (H4 & J4 & R4). rewrite delete_insert_id in H4 by done.
    exists d. split; [by apply head_upto_all|]. split_and!; [done|congruence|].
    etransitivity; [exact R2|]. by etransitivity.
Qed.

(** ** Commit *)

(** A transaction ready to commit: the pinned blocks are exactly those of the
    logged sectors. *)
Record txn (s : kst) (D P : gmap Z block) (start nlog : Z) (hs : list Z) : Prop := {
  tx_geom : log_geom (disksize s) start nlog hs;
  tx_rep : rep s D P ∅;
  tx_at : log_at s start hs;
  tx_pins : forall x, is_Some (P !! x) <-> x ∈ hs
}.

Lemma txn_size s D P start nlog hs : txn s D P start nlog hs -> size P = length hs.
Proof.
  intros [[_ _ _ _ _ _ Hnd] _ _ Hp].
  rewrite <- size_dom, <- (size_list_to_set (C:=gset Z) hs) by done.
  f_equal. apply set_eq. intros x. by rewrite elem_of_dom, Hp, elem_of_list_to_set.
Qed.

Lemma txn_loop s D P start nlog hs :
  txn s D P start nlog hs -> loop_pre (disksize s) start nlog hs s D P.
Proof.
  intros Ht. pose proof (txn_size _ _ _ _ _ _ Ht) as Hs. destruct Ht as [Hg Hrep Hat Hp].
  split; try done.
  - intros x Hx. apply eq_None_not_Some. rewrite Hp. intros Hin.
    destruct (lg_home _ _ _ _ Hg x Hin). lia.
  - rewrite Hs. pose proof (lg_fit _ _ _ _ Hg). pose proof (lg_max _ _ _ _ Hg).
    unfold LOGSIZE, NBUF, MAXOPBLOCKS in *. lia.
Qed.

(** The disk writes of a commit, in order: the blocks into the log, the header
    that commits them, the blocks home, the header that empties the log. *)
Definition commit_writes (start : Z) (P : gmap Z block) (hs : list Z) (dh de : block) :=
  log_writes start (blocks P hs) ++ [(start, dh)] ++
  home_writes hs (blocks P hs) ++ [(start, de)].

Lemma log_holds_written start hs P D dh :
  log_holds start hs (<[start := dh]> (apply_writes (log_writes start (blocks P hs)) D)) (blocks P hs).
Proof.
  split; [apply length_map|]. intros k d Hk. rewrite lookup_insert_ne by lia.
  apply apply_writes_in; [apply log_writes_nodup|].
  apply list_elem_of_lookup. exists k. by rewrite log_writes_lookup, Hk.
Qed.

Lemma unpin_all P hs : (forall x, is_Some (P !! x) <-> x ∈ hs) -> unpin P hs = ∅.
Proof.
  intros Hp. apply map_eq. intros x. rewrite lookup_empty. apply eq_None_not_Some.
  intros [d Hd]. apply map_lookup_filter_Some in Hd as [Hd Hx]. apply Hx, Hp. by eexists.
Qed.

Definition quiet (s s' : kst) : Prop := disksize s' = disksize s /\ icache s' = icache s.

(** Committing a non-empty transaction carries out exactly [commit_writes] and
    leaves an empty log and no pinned block. *)
Lemma commit_spec s D P start nlog hs :
  txn s D P start nlog hs -> hs <> [] ->
  wp commit (fun _ s' => exists dh de, is_head dh hs /\ is_head de [] /\
    journal s' = journal s ++ commit_writes start P hs dh de /\
    rep s' (apply_writes (commit_writes start P hs dh de) D) ∅ ∅ /\
    log s' = with_n 0 (log s) /\ quiet s s') s.
Proof.
  intros Ht Hne. pose proof (txn_loop _ _ _ _ _ _ Ht) as Hpre.
  pose proof Ht as [Hg Hrep Hat Hp]. pose proof Hg as [G1 G2 G3 G4 G5 G6 G7].
  pose proof Hat as (Hst & Hdev & Hn & Hlen & Hsec).
  assert (0 < length hs)%nat as Hpos by (destruct hs; simpl; [done|lia]).
  assert (forall h, h ∈ hs -> 0 <= h < 2 ^ 31) as Hr by (intros h [? _]%G6; lia).
  assert (P !! start = None) as HPst by (apply (lp_area _ _ _ _ _ _ _ Hpre); lia).
  unfold commit. apply wp_bind, wp_gets. rewrite Hn.
  destruct (Z.ltb_spec 0 (Z.of_nat (length hs))); [|lia].
  apply wp_bind. eapply wp_mono; [apply (write_log_spec _ _ _ _ _ _ _ Hpre); apply Hp|].
  intros [] s1 (H1 & J1 & R1). set (W1 := log_writes _ _) in *.
  apply wp_bind. eapply wp_mono; [eapply (write_head_spec s1 _ P start hs H1); try done|].
  { by eapply log_at_rest. }
  { lia. }
  { apply apply_writes_some. eapply loop_disk; [done|lia]. }
  { apply (lp_room _ _ _ _ _ _ _ Hpre). }
  { lia. }
  intros [] s2 (dh & Hdh & H2 & J2 & R2).
  assert (same_rest s s2) as R12 by (by etransitivity).
  apply wp_bind. eapply wp_mono; [eapply (install_trans_spec (disksize s) start nlog hs s2 _ P (blocks P hs))|].
  { split; try done; [by eapply log_at_rest|apply R12|apply Hpre|apply Hpre]. }
  { apply log_holds_written. }
  { intros h Hh. left. by apply Hp. }
  rewrite (unpin_all P hs Hp). set (W2 := home_writes _ _).
  intros [] s3 (H3 & J3 & R3). assert (same_rest s s3) as R13 by (by etransitivity).
  apply wp_bind, wp_modify.
  eapply wp_mono; [eapply (write_head_spec (on_log (with_n 0) s3) _ ∅ start [])|].
  { by apply rep_on_log. }
  { destruct R13 as (_ & E & _). unfold log_at. simpl. rewrite E. split_and!; done. }
  { lia. }
  { apply apply_writes_some. rewrite lookup_insert_eq. by eexists. }
  { done. }
  { by apply Nat.ltb_lt. }
  { done. }
  { set_solver. }
  intros [] s4 (de & Hde & H4 & J4 & R4). exists dh, de.
  split; [done|]. split; [done|]. split; [|split; [|split; [|split]]].
  - rewrite J4. simpl. rewrite J3, J2, J1. unfold commit_writes. by rewrite <- !app_assoc.
  - unfold commit_writes. fold W1 W2. rewrite !apply_writes_app. simpl. exact H4.
  - destruct R4 as (_ & -> & _), R13 as (_ & E & _). simpl. by rewrite E.
  - destruct R4 as (-> & _ & _), R13 as (E & _ & _). done.
  - destruct R4 as (_ & _ & ->), R13 as (_ & _ & E). done.
Qed.
