(* ===== verification/Crash.v ===== *)
(** * Recovery, and atomicity of commits under crashes

    The boot path [binit]; [initlog] run on the disk a crash left behind, and
    the theorems that a transaction is atomic: whatever prefix of the disk
    writes of a commit (or of a recovery) was carried out, the next recovery
    brings the disk to the state before the transaction or to the state after
    it. *)

From S2P Require Import Prelude Bytes Params FsState Bio Log.

(** Reading a value out of a block and giving the buffer back. *)
Lemma peek_spec {A} (f : block -> A) s D P H sec d :
  rep s D P H -> D !! sec = Some d -> unheld H sec ->
  is_Some (P !! sec) \/ (size P + size H < NBUF)%nat ->
  wp (let! b := bread ROOTDEV sec in
      let! v := gets (fun s => f (b_data (buf_at s b))) in
      brelse b ;;; ret v)
    (fun v s' => v = f (default d (P !! sec)) /\ rep s' D P H /\ journal s' = journal s /\ same_rest s s') s.
Proof.
  intros Hrep HD Hun Hroom. apply wp_bind. eapply wp_mono; [by eapply bread_spec|].
  intros b s1 (H1 & Hb & J1 & R1). apply wp_bind, wp_gets.
  rewrite (held_data _ _ _ _ b _ H1 ltac:(apply lookup_insert_eq)). simpl.
  apply wp_bind. eapply wp_mono; [eapply (brelse_spec _ _ _ _ b _ H1); [apply lookup_insert_eq|]|].
  { simpl. intros Hd%bool_decide_eq_false. destruct (P !! sec); [by destruct Hd|done]. }
  simpl. intros [] s2 (H2 & J2 & R2). apply wp_ret.
  rewrite delete_insert_id in H2 by done.
  split; [done|]. split; [|split; [congruence|by etransitivity]].
  destruct (P !! sec) as [d'|] eqn:HP; simpl in H2.
  - by rewrite insert_delete_id in H2.
  - by rewrite delete_id in H2.
Qed.

Lemma readsb_spec s D P H d :
  rep s D P H -> D !! 1 = Some d -> unheld H 1 ->
  is_Some (P !! 1) \/ (size P + size H < NBUF)%nat ->
  wp (readsb ROOTDEV) (fun sb s' => sb = decode_sb (default d (P !! 1)) /\
    rep s' D P H /\ journal s' = journal s /\ same_rest s s') s.
Proof. apply (peek_spec decode_sb). Qed.

(** [read_head] loads the header that is on the disk. *)
Lemma read_head_spec s D start hs d :
  rep s D ∅ ∅ -> l_start (log s) = start -> l_dev (log s) = ROOTDEV ->
  length (lh_sector (log s)) = Z.to_nat LOGSIZE ->
  0 <= start < 2 ^ 31 -> D !! start = Some d -> is_head d hs -> Z.of_nat (length hs) <= LOGSIZE ->
  wp read_head (fun _ s' => rep s' D ∅ ∅ /\ log_at s' start hs /\ journal s' = journal s /\
    l_size (log s') = l_size (log s) /\ l_outstanding (log s') = l_outstanding (log s) /\
    l_committing (log s') = l_committing (log s) /\ quiet s s') s.
Proof.
  intros Hrep Hst Hdev Hlen Hr HD (Hb & Hn & Hh) Hl. unfold read_head.
  apply wp_bind, wp_gets. rewrite Hst, Hdev, u32_small by lia.
  apply wp_bind. eapply wp_mono; [eapply (bread_spec _ D ∅ ∅); try done|].
  { right. by apply Nat.ltb_lt. }
  intros b s1 (H1 & _ & J1 & R1). rewrite lookup_empty, delete_empty in H1. simpl in H1.
  apply wp_bind, wp_gets. rewrite (held_data _ _ _ _ b _ H1 ltac:(apply lookup_insert_eq)). cbn [h_data].
  apply wp_bind, wp_modify. apply wp_bind, wp_gets. cbn [log on_log with_n lh_n]. rewrite Hn. unfold upto. rewrite Nat2Z.id.
  destruct R1 as (Rd & Rl & Ri).
  apply wp_bind. eapply wp_mono; [apply (wp_for (fun k s' =>
    rep s' D ∅ (<[b := Held start d false]> ∅) /\ journal s' = journal s /\ quiet s s' /\
    length (lh_sector (log s')) = Z.to_nat LOGSIZE /\
    log s' = Log (l_start (log s)) (l_size (log s)) (l_outstanding (log s)) (l_committing (log s))
               (l_dev (log s)) (Z.of_nat (length hs)) (lh_sector (log s')) /\
    forall j h, (j < k)%nat -> hs !! j = Some h -> sector_at (log s') j = h))|].
  - split; [by apply rep_on_log|]. split_and!; simpl; try done; [by rewrite Rl| |lia].
    by rewrite Rl.
  - intros k x s2 [-> Hk]%lookup_seq (H2 & J2 & Q2 & L2 & E2 & S2).
    apply wp_bind, wp_gets, wp_modify. change (0 + k)%nat with k.
    rewrite (held_data _ _ _ _ b _ H2 ltac:(apply lookup_insert_eq)).
    destruct (lookup_lt_is_Some_2 hs k Hk) as [h Hhk].
    assert (s32 (ld32 d (4 + 4 * k)) = h) as Hd.
    { rewrite <- Hh in Hhk. unfold head_of, upto in Hhk.
      rewrite Hn, Nat2Z.id, list_lookup_fmap, lookup_seq_lt in Hhk by lia.
      change (Some (s32 (ld32 d (4 + 4 * k))) = Some h) in Hhk. congruence. }
    cbn [h_data]. rewrite Hd. split; [by apply rep_on_log|].
    split; [done|]. split; [done|]. cbn [log on_log with_lh_sector lh_sector l_start l_size l_outstanding l_committing l_dev lh_n].
    rewrite length_insert. split; [done|]. split; [by rewrite E2|].
    intros j h' Hj Hj'. unfold sector_at. simpl. destruct (decide (j = k)) as [->|].
    + rewrite list_lookup_insert_eq by lia. simpl. congruence.
    + rewrite list_lookup_insert_ne by done. apply S2; [lia|done].
  - rewrite length_seq. intros [] s2 (H2 & J2 & Q2 & L2 & E2 & S2).
    eapply wp_mono; [eapply (brelse_spec _ _ _ _ b _ H2); [apply lookup_insert_eq|done]|].
    simpl. intros [] s3 (H3 & J3 & R3). rewrite delete_insert_id in H3 by done.
    destruct R3 as (Rd3 & Rl3 & Ri3). split; [done|]. split.
    { unfold log_at. rewrite Rl3. rewrite E2. simpl. split_and!; try done.
      intros k h Hk. rewrite <- E2. apply S2; [by eapply lookup_lt_Some|done]. }
    rewrite Rl3, E2. simpl. split_and!; try done; [congruence|]. destruct Q2. split; congruence.
Qed.

(** ** Recovery *)

(** What the kernel does to the disk when it boots: [binit] from [main], then
    [initlog] in the first process. *)
Definition boot_log : M kst unit := binit ;;; initlog.

(** A disk whose log area lists the sectors [hs] and holds the blocks [bs]. *)
Record log_disk (dsz start nlog : Z) (hs : list Z) (bs : list block) (D : gmap Z block) : Prop := {
  ld_disk : disk_ok dsz D;
  ld_sb : exists d, D !! 1 = Some d /\ sb_size (decode_sb d) = start + nlog /\ sb_nlog (decode_sb d) = nlog;
  ld_head : exists d, D !! start = Some d /\ is_head d hs;
  ld_geom : log_geom dsz start nlog hs;
  ld_one : 1 < start /\ 1 ∉ hs;
  ld_holds : log_holds start hs D bs
}.

Definition recover_writes (start : Z) (hs : list Z) (bs : list block) (de : block) :=
  home_writes hs bs ++ [(start, de)].

(** The in-memory log of a freshly booted kernel. *)
Definition fresh_log (s : kst) (start nlog : Z) : Prop :=
  log_at s start [] /\ l_size (log s) = nlog /\ l_outstanding (log s) = 0 /\ l_committing (log s) = 0.

Lemma recover_spec s D start nlog dsz hs bs :
  log_disk dsz start nlog hs bs D -> rep s D ∅ ∅ -> disksize s = dsz ->
  l_start (log s) = start -> l_dev (log s) = ROOTDEV -> length (lh_sector (log s)) = Z.to_nat LOGSIZE ->
  wp recover_from_log (fun _ s' => exists de, is_head de [] /\
    journal s' = journal s ++ recover_writes start hs bs de /\
    rep s' (apply_writes (recover_writes start hs bs de) D) ∅ ∅ /\ log_at s' start [] /\
    l_size (log s') = l_size (log s) /\ l_outstanding (log s') = l_outstanding (log s) /\
    l_committing (log s') = l_committing (log s) /\ quiet s s') s.
Proof.
  intros [Hd _ (dh & HDs & Hh) Hg _ Hholds] Hrep Hsz Hst Hdev Hlen.
  pose proof Hg as [G1 G2 G3 G4 G5 G6 G7]. unfold recover_from_log.
  apply wp_bind. eapply wp_mono; [eapply (read_head_spec s D start hs dh); try done; lia|].
  intros [] s1 (H1 & A1 & J1 & Z1 & O1 & C1 & Q1).
  apply wp_bind. eapply wp_mono; [eapply (install_trans_spec dsz start nlog hs s1 D ∅ bs)|].
  { split; try done; [destruct Q1; congruence|]. by apply Nat.ltb_lt. }
  { done. }
  { intros h _. right. by apply Nat.ltb_lt. }
  intros [] s2 (H2 & J2 & R2). unfold unpin in H2. rewrite map_filter_empty in H2.
  destruct R2 as (Rd & Rl & Ri).
  apply wp_bind, wp_modify.
  eapply wp_mono; [eapply (write_head_spec (on_log (with_n 0) s2) _ ∅ start [])|].
  { by apply rep_on_log. }
  { unfold log_at in *. simpl. rewrite Rl. destruct A1 as (? & ? & _ & ? & _). by split_and!. }
  { lia. }
  { apply apply_writes_some. by eexists. }
  { done. }
  { by apply Nat.ltb_lt. }
  { done. }
  { set_solver. }
  intros [] s3 (de & Hde & H3 & J3 & (Rd3 & Rl3 & Ri3)). exists de. split; [done|].
  destruct Q1 as [Q1 Q1'].
  split; [|split; [|split]].
  - rewrite J3. simpl. rewrite J2, J1. unfold recover_writes. by rewrite <- app_assoc.
  - unfold recover_writes. rewrite apply_writes_app. exact H3.
  - unfold log_at in *. rewrite Rl3. simpl. rewrite Rl. destruct A1 as (? & ? & _ & ? & _). by split_and!.
  - rewrite Rl3. simpl. rewrite Rl. split_and!; try done. split; simpl in *; congruence.
Qed.

Lemma boot_log_spec D dsz start nlog hs bs :
  log_disk dsz start nlog hs bs D ->
  wp boot_log (fun _ s' => exists de, is_head de [] /\
    journal s' = recover_writes start hs bs de /\
    rep s' (apply_writes (recover_writes start hs bs de) D) ∅ ∅ /\
    fresh_log s' start nlog /\ disksize s' = dsz /\ icache s' = icache (boot D dsz)) (boot D dsz).
Proof.
  intros Hld. pose proof Hld as [Hd (d1 & HD1 & Hsb & Hnl) _ Hg [H1s _] _].
  pose proof Hg as [G1 G2 G3 G4 G5 G6 G7].
  unfold boot_log. apply wp_bind. eapply wp_mono; [by apply binit_spec|].
  intros [] s1 (H1 & J1 & Z1 & L1 & I1). unfold initlog.
  change (BSIZE <=? LOGHEADER_SIZE) with false. cbv iota.
  apply wp_bind. eapply wp_mono; [eapply (readsb_spec s1 D ∅ ∅ d1); try done|].
  { right. by apply Nat.ltb_lt. }
  intros sb s2 (-> & H2 & J2 & (Rd & Rl & Ri)). rewrite lookup_empty. simpl default.
  do 3 apply wp_bind, wp_modify. rewrite Hsb, Hnl.
  eapply wp_mono; [eapply (recover_spec _ D start nlog dsz hs bs Hld)|].
  { by repeat apply rep_on_log. }
  { simpl. congruence. }
  { simpl. rewrite s32_small; lia. }
  { done. }
  { simpl. by rewrite Rl, L1. }
  intros [] s3 (de & Hde & J3 & H3 & A3 & S3 & O3 & C3 & Q3 & Q3'). exists de. simpl in *.
  split; [done|]. rewrite J3, J2, J1. split; [done|]. split; [done|]. split; [|split; congruence].
  split; [done|]. rewrite S3, O3, C3. rewrite Rl, L1. simpl. split_and!; try done. rewrite s32_small; lia.
Qed.

(** ** Crashes *)

(** Sectors outside the log area: what the file system above the log sees. *)
Definition outside (start nlog x : Z) : Prop := x < start \/ start + nlog <= x.

(** The disk after a crash that let the first [k] writes of [ws] through. *)
Definition crashed (k : nat) (ws : list (Z * block)) (D : gmap Z block) : gmap Z block :=
  apply_writes (take k ws) D.

Lemma apply_writes_disk_ok dsz ws D :
  disk_ok dsz D -> (forall w, w ∈ ws -> is_Some (D !! w.1) /\ is_block w.2) ->
  disk_ok dsz (apply_writes ws D).
Proof.
  revert D. induction ws as [|w ws IH]; intros D HD Hw; [done|]. simpl. apply IH.
  - destruct (Hw w); [left|]. by apply disk_ok_insert.
  - intros w' Hin. destruct (Hw w') as [Hs Hb]; [by right|]. split; [|done].
    by apply (apply_writes_some [w]).
Qed.

Lemma home_writes_lookup hs P D x :
  NoDup hs -> (forall y, is_Some (P !! y) <-> y ∈ hs) ->
  apply_writes (home_writes hs (blocks P hs)) D !! x = (P ∪ D) !! x.
Proof.
  intros Hnd Hp. assert (length hs = length (blocks P hs)) as Hl by (symmetry; apply length_map).
  destruct (P !! x) as [d|] eqn:HP.
  - rewrite (lookup_union_Some_l _ _ _ _ HP). apply apply_writes_in.
    + by rewrite home_writes_fst.
    + assert (x ∈ hs) as Hx by (apply Hp; by eexists).
      apply list_elem_of_lookup in Hx as [k Hk]. apply list_elem_of_lookup. exists k.
      apply lookup_zip_with_Some. exists x, d. split_and!; try done.
      unfold blocks. by rewrite list_lookup_fmap, Hk; simpl; rewrite HP.
  - rewrite lookup_union_r by done. apply apply_writes_notin. rewrite home_writes_fst by done.
    rewrite <- Hp, HP. by intros [].
Qed.

(** Partial home writes are overwritten by a complete replay. *)
Lemma home_writes_replay hs bs D k x :
  NoDup hs -> length hs = length bs ->
  apply_writes (home_writes hs bs) (apply_writes (take k (home_writes hs bs)) D) !! x =
  apply_writes (home_writes hs bs) D !! x.
Proof.
  intros Hnd Hl. pose proof (home_writes_fst hs bs Hl) as Hf.
  destruct (decide (x ∈ hs)) as [Hx|Hx].
  - rewrite <- Hf in Hx. apply list_elem_of_fmap in Hx as ([y d] & -> & Hin).
    by rewrite !(apply_writes_in _ _ y d) by (rewrite ?Hf; done).
  - rewrite !(apply_writes_notin (home_writes hs bs)) by (by rewrite Hf).
    apply apply_writes_notin. rewrite fmap_take, Hf. intros (j & Hj & _)%elem_of_take.
    by apply Hx; eapply list_elem_of_lookup_2.
Qed.

Section Atomicity.
Context (dsz start nlog : Z).
Implicit Types (D P : gmap Z block) (hs : list Z) (bs : list block).

(** Writing inside the disk keeps a disk recoverable, when the superblock is
    left alone and the header and the log area read as [hs'] and [bs']. *)
Lemma log_disk_writes hs bs hs' bs' ws D :
  log_disk dsz start nlog hs bs D ->
  (forall w, w ∈ ws -> is_Some (D !! w.1) /\ is_block w.2) -> 1 ∉ ws.*1 ->
  (exists d, apply_writes ws D !! start = Some d /\ is_head d hs') ->
  log_geom dsz start nlog hs' -> 1 ∉ hs' -> log_holds start hs' (apply_writes ws D) bs' ->
  log_disk dsz start nlog hs' bs' (apply_writes ws D).
Proof.
  intros [Hd (d1 & HD1 & Hsb) _ Hg [H1 _] _] Hw H1w Hh Hg' H1' Hl'.
  split; try done.
  - by apply apply_writes_disk_ok.
  - exists d1. by rewrite apply_writes_notin.
Qed.

Lemma log_geom_nil hs : log_geom dsz start nlog hs -> log_geom dsz start nlog [].
Proof.
  intros [G1 G2 G3 G4 G5 G6 G7]. split; try done; simpl; try lia; [set_solver|constructor].
Qed.

Lemma log_holds_nil D : log_holds start [] D [].
Proof. split; [done|]. intros k d. by rewrite lookup_nil. Qed.

(** Recovering from a disk with an empty log leaves everything outside the
    log area as it is. *)
Lemma recover_empty D :
  log_disk dsz start nlog [] [] D ->
  wp boot_log (fun _ s => forall x, outside start nlog x -> memdisk s !! x = D !! x) (boot D dsz).
Proof.
  intros Hd. eapply wp_mono; [by apply boot_log_spec|].
  intros [] s (de & _ & _ & (-> & _) & _) x Hx. simpl.
  destruct Hd as [_ _ _ [G1 G2 G3 G4 G5 G6 G7] _ _]. simpl in *.
  apply lookup_insert_ne. destruct Hx; lia.
Qed.

(** Installing some of a logged transaction keeps the log readable. *)
Lemma log_disk_replay hs bs D k :
  log_disk dsz start nlog hs bs D ->
  log_disk dsz start nlog hs bs (apply_writes (take k (home_writes hs bs)) D).
Proof.
  intros Hd. pose proof Hd as [[_ Hblk] _ (d & HD & Hh) Hg [H1s H1] [Hl Hb]].
  pose proof Hg as [G1 G2 G3 G4 G5 G6 G7].
  assert (forall w, w ∈ take k (home_writes hs bs) -> w.1 ∈ hs /\ is_block w.2) as Hin.
  { intros w (i & Hi & _)%elem_of_take. apply lookup_zip_with_Some in Hi as (h & e & -> & Hhi & Hei).
    split; [by eapply list_elem_of_lookup_2|]. by eapply Hblk, Hb. }
  assert (forall x, start <= x < start + nlog -> x ∉ (take k (home_writes hs bs)).*1) as Hn.
  { intros x Hx (w & -> & Hw)%list_elem_of_fmap. apply Hin in Hw as [Hw _]. apply G6 in Hw. lia. }
  eapply log_disk_writes; try done.
  - intros w [Hw ?]%Hin. split; [|done]. by apply Hd, G6.
  - intros (w & E & [Hw _]%Hin)%list_elem_of_fmap. congruence.
  - exists d. by rewrite apply_writes_notin by (apply Hn; lia).
  - split; [done|]. intros j e Hj. pose proof (lookup_lt_Some _ _ _ Hj).
    rewrite apply_writes_notin by (apply Hn; lia). by apply Hb.
Qed.

(** Writing the empty header empties the log. *)
Lemma log_disk_clear hs bs D de :
  log_disk dsz start nlog hs bs D -> is_head de [] -> log_disk dsz start nlog [] [] (<[start := de]> D).
Proof.
  intros Hd Hde. pose proof Hd as [_ _ (d & HD & _) Hg [H1s _] _].
  apply (log_disk_writes _ _ [] [] [(start, de)] _ Hd).
  - intros w ->%list_elem_of_singleton. split; [by eexists|apply Hde].
  - intros E%list_elem_of_singleton. simpl in E. lia.
  - exists de. split; [apply lookup_insert_eq|done].
  - by eapply log_geom_nil.
  - set_solver.
  - apply log_holds_nil.
Qed.

(** Recovery leaves the log on the disk empty. *)
Lemma log_disk_recovered hs bs D de :
  log_disk dsz start nlog hs bs D -> is_head de [] ->
  log_disk dsz start nlog [] [] (apply_writes (recover_writes start hs bs de) D).
Proof.
  intros Hd Hde. unfold recover_writes. rewrite apply_writes_app. simpl.
  eapply log_disk_clear; [|done]. rewrite <- (firstn_all (home_writes hs bs)). by apply log_disk_replay.
Qed.

(** Recovering from a disk with a committed log installs it. *)
Lemma recover_committed hs bs D :
  log_disk dsz start nlog hs bs D ->
  wp boot_log (fun _ s => forall x, outside start nlog x ->
    memdisk s !! x = apply_writes (home_writes hs bs) D !! x) (boot D dsz).
Proof.
  intros Hd. eapply wp_mono; [by apply boot_log_spec|].
  intros [] s (de & _ & _ & (-> & _) & _) x Hx. unfold recover_writes.
  rewrite apply_writes_app. simpl. destruct Hd as [_ _ _ [G1 G2 G3 G4 G5 G6 G7] _ _].
  apply lookup_insert_ne. destruct Hx; lia.
Qed.

(** The three stages a crash can leave a commit in. *)
Section Commit.
Context (s : kst) (D P : gmap Z block) (hs : list Z) (dh de : block).
Hypothesis (Ht : txn s D P start nlog hs) (Hsz : disksize s = dsz) (H1 : 1 ∉ hs).
Hypothesis (HD : log_disk dsz start nlog [] [] D).
Hypothesis (Hdh : is_head dh hs) (Hde : is_head de []).

Let LW := log_writes start (blocks P hs).
Let HW := home_writes hs (blocks P hs).

Lemma commit_geom : log_geom dsz start nlog hs.
Proof. rewrite <- Hsz. apply Ht. Qed.

Lemma commit_blocks d : d ∈ blocks P hs -> is_block d.
Proof.
  intros (h & -> & Hin)%list_elem_of_fmap. apply (tx_pins _ _ _ _ _ _ Ht) in Hin as [d Hd].
  rewrite Hd. simpl. eapply pinned_block; [apply Ht|done].
Qed.

Lemma LW_ok w : w ∈ LW -> start < w.1 < start + nlog /\ is_block w.2.
Proof.
  intros Hw. pose proof commit_geom as [G1 G2 G3 G4 G5 G6 G7]. split.
  - assert (w.1 ∈ LW.*1) as Hw1 by (by apply list_elem_of_fmap_2).
    apply log_writes_fst in Hw1. unfold blocks in Hw1. rewrite length_map in Hw1. lia.
  - apply list_elem_of_lookup in Hw as [k Hk]. unfold LW in Hk. rewrite log_writes_lookup in Hk.
    destruct (blocks P hs !! k) eqn:E; [|done]. injection Hk as <-. simpl.
    apply commit_blocks. by eapply list_elem_of_lookup_2.
Qed.

Lemma HW_ok w : w ∈ HW -> w.1 ∈ hs /\ is_block w.2.
Proof.
  intros Hw. apply list_elem_of_lookup in Hw as [k Hk].
  apply lookup_zip_with_Some in Hk as (h & d & -> & Hh & Hd). simpl.
  split; [by eapply list_elem_of_lookup_2|]. apply commit_blocks. by eapply list_elem_of_lookup_2.
Qed.

Lemma in_disk x : 0 <= x < dsz -> is_Some (D !! x).
Proof. apply HD. Qed.

Lemma crash_before k :
  log_disk dsz start nlog [] [] (apply_writes (take k LW) D) /\
  forall x, outside start nlog x -> apply_writes (take k LW) D !! x = D !! x.
Proof.
  pose proof commit_geom as [G1 G2 G3 G4 G5 G6 G7]. pose proof HD as [_ _ (d & Hd & Hh) Hg [Hs1 _] _].
  assert (forall w, w ∈ take k LW -> start < w.1 < start + nlog /\ is_block w.2) as Hin.
  { intros w (i & Hi & _)%elem_of_take. by eapply LW_ok, list_elem_of_lookup_2. }
  assert (forall x, (x <= start \/ start + nlog <= x) -> x ∉ (take k LW).*1) as Hn.
  { intros x Hx (w & -> & Hw)%list_elem_of_fmap. apply Hin in Hw. lia. }
  split.
  - eapply log_disk_writes; try done.
    + intros w Hw. apply Hin in Hw as [Hr Hb]. split; [|done]. apply in_disk. lia.
    + apply Hn. lia.
    + exists d. rewrite apply_writes_notin by (apply Hn; lia). done.
    + set_solver.
  - intros x Hx. apply apply_writes_notin, Hn. destruct Hx; lia.
Qed.

Lemma crash_middle k :
  log_disk dsz start nlog hs (blocks P hs)
    (apply_writes (LW ++ [(start, dh)] ++ take k HW) D).
Proof.
  pose proof commit_geom as Hg. pose proof Hg as [G1 G2 G3 G4 G5 G6 G7].
  pose proof HD as [_ _ _ _ [Hs1 _] _].
  assert (forall w, w ∈ take k HW -> w.1 ∈ hs /\ is_block w.2) as Hin.
  { intros w (i & Hi & _)%elem_of_take. by eapply HW_ok, list_elem_of_lookup_2. }
  assert (forall x, start <= x < start + nlog -> x ∉ (take k HW).*1) as Hn.
  { intros x Hx (w & -> & Hw)%list_elem_of_fmap. apply Hin in Hw as [Hw _]. apply G6 in Hw. lia. }
  eapply log_disk_writes; try done.
  - intros w [Hw|[->%list_elem_of_singleton|Hw]%elem_of_app]%elem_of_app.
    + apply LW_ok in Hw as [Hr Hb]. split; [|done]. apply in_disk. lia.
    + split; [apply in_disk; simpl; lia|apply Hdh].
    + apply Hin in Hw as [Hr Hb]. split; [|done]. apply in_disk. by apply G6.
  - intros (w & Ew & [Hw|[->%list_elem_of_singleton|Hw]%elem_of_app]%elem_of_app)%list_elem_of_fmap.
    + apply LW_ok in Hw. lia.
    + simpl in Ew. lia.
    + apply Hin in Hw as [Hw _]. congruence.
  - exists dh. split; [|done]. rewrite !apply_writes_app.
    rewrite apply_writes_notin by (apply Hn; lia). apply lookup_insert_eq.
  - split; [apply length_map|]. intros j d Hj. rewrite !apply_writes_app.
    pose proof (lookup_lt_Some _ _ _ Hj) as Hlt. unfold blocks in Hlt. rewrite length_map in Hlt.
    rewrite apply_writes_notin by (apply Hn; lia). by apply log_holds_written.
Qed.

Lemma crash_after :
  log_disk dsz start nlog [] [] (apply_writes (LW ++ [(start, dh)] ++ HW ++ [(start, de)]) D).
Proof.
  replace (LW ++ [(start, dh)] ++ HW ++ [(start, de)])
    with ((LW ++ [(start, dh)] ++ take (length HW) HW) ++ [(start, de)])
    by (rewrite firstn_all, <- !app_assoc; done).
  rewrite apply_writes_app. pose proof (crash_middle (length HW)) as Hm.
  by eapply log_disk_clear.
Qed.

(** The disk the file system sees after recovery: all of the transaction
    once the header has been written, none of it before. *)
Lemma commit_prefix k :
  wp boot_log (fun _ s' => forall x, outside start nlog x ->
      memdisk s' !! x = if (k <=? length hs)%nat then D !! x else (P ∪ D) !! x)
    (boot (crashed k (commit_writes start P hs dh de) D) dsz).
Proof.
  pose proof commit_geom as [G1 G2 G3 G4 G5 G6 G7].
  assert (length LW = length hs) as HlL.
  { unfold LW, log_writes, blocks. by rewrite length_imap, length_map. }
  assert (length HW = length hs) as HlH.
  { unfold HW, home_writes, blocks. rewrite length_zip_with, length_map. lia. }
  assert (forall x j, outside start nlog x ->
    apply_writes HW (apply_writes (LW ++ [(start, dh)] ++ take j HW) D) !! x = (P ∪ D) !! x) as Hnew.
  { intros x j Hx. rewrite !apply_writes_app. unfold HW at 1 2.
    rewrite home_writes_replay by (done || (symmetry; apply length_map)).
    rewrite home_writes_lookup by (done || apply Ht). rewrite !lookup_union. f_equal.
    simpl. rewrite lookup_insert_ne by (destruct Hx; lia).
    rewrite <- (firstn_all LW). by apply crash_before. }
  unfold crashed, commit_writes. fold LW HW. destruct (Nat.leb_spec k (length hs)) as [Hk|Hk].
  - rewrite take_app_le by lia. destruct (crash_before k) as [Hd Heq].
    eapply wp_mono; [by apply recover_empty|]. intros [] s' Hs x Hx. by rewrite Hs, Heq.
  - rewrite take_app_ge by lia. destruct (k - length LW)%nat as [|r] eqn:Er; [lia|]. simpl take.
    destruct (decide (r <= length hs)%nat) as [Hr|Hr].
    + rewrite take_app_le by lia. eapply wp_mono.
      { eapply recover_committed. apply (crash_middle r). }
      intros [] s' Hs x Hx. rewrite Hs by done. by apply Hnew.
    + rewrite take_ge by (rewrite length_app, HlH; simpl; lia).
      eapply wp_mono; [apply recover_empty, crash_after|].
      intros [] s' Hs x Hx. rewrite Hs by done.
      change (LW ++ (start, dh) :: HW ++ [(start, de)]) with (LW ++ [(start, dh)] ++ HW ++ [(start, de)]).
      rewrite !app_assoc, apply_writes_app. simpl. rewrite lookup_insert_ne by (destruct Hx; lia).
      rewrite apply_writes_app, <- (Hnew x O Hx). simpl. done.
Qed.
End Commit.

(** A crash while recovering, after any number of recovery's own writes, is
    repaired by recovering again. *)
Lemma recover_prefix hs bs de D k :
  log_disk dsz start nlog hs bs D -> is_head de [] ->
  wp boot_log (fun _ s => forall x, outside start nlog x ->
      memdisk s !! x = apply_writes (home_writes hs bs) D !! x)
    (boot (crashed k (recover_writes start hs bs de) D) dsz).
Proof.
  intros Hd Hde. pose proof Hd as [_ _ _ _ _ [Hl _]]. unfold crashed, recover_writes.
  destruct (decide (k <= length (home_writes hs bs))%nat) as [Hk|Hk].
  - rewrite take_app_le by done. eapply wp_mono; [by apply recover_committed, log_disk_replay|].
    intros [] s Hs x Hx. rewrite Hs by done. rewrite home_writes_replay; [done|apply Hd|done].
  - rewrite take_ge by (rewrite length_app; simpl; lia).
    eapply wp_mono; [by apply recover_empty, log_disk_recovered|].
    intros [] s Hs x Hx. rewrite Hs, apply_writes_app by done. simpl. apply lookup_insert_ne.
    destruct Hd as [_ _ _ [G1 G2 G3 G4 G5 G6 G7] _ _], Hx; lia.
Qed.
End Atomicity.
