(* ===== verification/Store.v ===== *)
(** * The interface between the file system and the layers below it

    [fs.c] reaches the disk only through [bread], [log_write] and [brelse].
    [BlockStore] states what those promise inside a transaction, in terms of
    one map from sectors to their current contents; the theorems on [fs.c] are
    proved against it, and the log ([Txn]) is its instance. *)

From S2P Require Import Prelude Bytes Params FsState Bio Log.

Definition with_icache (l : list inode) (s : kst) : kst :=
  K (memdisk s) (disksize s) (journal s) (wakeups s) (bcache s) (log s) l.

(** [bs_at V H r s]: the sectors hold [V], the buffers [H] are in use, and
    [r] more sectors may be changed in this transaction. *)
Class BlockStore := {
  bs_at : gmap Z block -> gmap nat held -> nat -> kst -> Prop;
  bs_writable : Z -> Prop;
  bs_data V H r s i h : bs_at V H r s -> H !! i = Some h -> b_data (buf_at s i) = h_data h;
  bs_block V H r s sec d : bs_at V H r s -> V !! sec = Some d -> is_block d;
  bs_bread V H r s sec d :
    bs_at V H r s -> V !! sec = Some d -> unheld H sec -> (size H <= 3)%nat ->
    wp (bread ROOTDEV sec) (fun i s' => H !! i = None /\ icache s' = icache s /\
      exists dirty, bs_at V (<[i := Held sec d dirty]> H) r s') s;
  bs_brelse V H r s i h :
    bs_at V H r s -> H !! i = Some h ->
    wp (brelse i) (fun _ s' => bs_at V (delete i H) r s' /\ icache s' = icache s) s;
  bs_log_write V H r s i h f :
    bs_at V H (S r) s -> H !! i = Some h -> is_block (f (h_data h)) -> bs_writable (h_sector h) ->
    wp (modify (on_buf i (fun b => with_data (f (b_data b)) b)) ;;; log_write i) (fun _ s' =>
      bs_at (<[h_sector h := f (h_data h)]> V) (<[i := Held (h_sector h) (f (h_data h)) true]> H) r s' /\
      icache s' = icache s) s;
  bs_weaken V H r r' s : (r' <= r)%nat -> bs_at V H r s -> bs_at V H r' s;
  bs_icache V H r s l : bs_at V H r s -> bs_at V H r (with_icache l s);
  bs_wake V H r s c : bs_at V H r s -> bs_at V H r (wake c s)
}.

Section Derived.
Context `{BlockStore}.
Implicit Types (V : gmap Z block).

(** Read a block, look at it, release it. *)
Lemma read_block {A} (g : block -> A) V Hd r s sec d Q :
  bs_at V Hd r s -> V !! sec = Some d -> unheld Hd sec -> (size Hd <= 3)%nat ->
  (forall s', bs_at V Hd r s' -> icache s' = icache s -> Q (g d) s') ->
  wp (let! b := bread ROOTDEV sec in
      let! x := gets (fun s => g (b_data (buf_at s b))) in
      brelse b ;;; ret x) Q s.
Proof.
  intros Hs Hsec Hun Hsz HQ. apply wp_bind. eapply wp_mono; [by apply bs_bread|].
  intros i s1 (Hi & I1 & dirty & H1). apply wp_bind, wp_gets, wp_bind.
  rewrite (bs_data _ _ _ _ i _ H1 ltac:(apply lookup_insert_eq)).
  eapply wp_mono; [eapply (bs_brelse _ _ _ _ i _ H1), lookup_insert_eq|].
  intros [] s2 [H2 I2]. rewrite delete_insert_id in H2 by done. apply wp_ret, HQ; [done|congruence].
Qed.

(** Read a block, change it, log it and release it. *)
Lemma update_block f V Hd r s sec d Q :
  bs_at V Hd (S r) s -> V !! sec = Some d -> unheld Hd sec -> (size Hd <= 3)%nat ->
  is_block (f d) -> bs_writable sec ->
  (forall s', bs_at (<[sec := f d]> V) Hd r s' -> icache s' = icache s -> Q tt s') ->
  wp (let! b := bread ROOTDEV sec in
      modify (on_buf b (fun x => with_data (f (b_data x)) x)) ;;;
      log_write b ;;;
      brelse b) Q s.
Proof.
  intros Hs Hsec Hun Hsz Hf Hw HQ. apply wp_bind. eapply wp_mono; [by apply bs_bread|].
  intros i s1 (Hi & I1 & dirty & H1). apply wp_bind, wp_modify, wp_bind.
  pose proof (bs_log_write _ _ _ _ i _ f H1 ltac:(apply lookup_insert_eq) Hf Hw) as Hlw.
  eapply wp_mono; [exact Hlw|].
  intros [] s2 [H2 I2]. eapply wp_mono; [eapply (bs_brelse _ _ _ _ i _ H2), lookup_insert_eq|].
  intros [] s3 [H3 I3]. rewrite insert_insert_eq, delete_insert_id in H3 by done.
  apply HQ; [done|congruence].
Qed.

Lemma update_then {A} (k : M kst A) f V Hd r s sec d Q :
  bs_at V Hd (S r) s -> V !! sec = Some d -> unheld Hd sec -> (size Hd <= 3)%nat ->
  is_block (f d) -> bs_writable sec ->
  (forall s', bs_at (<[sec := f d]> V) Hd r s' -> icache s' = icache s -> wp k Q s') ->
  wp (let! b := bread ROOTDEV sec in
      modify (on_buf b (fun x => with_data (f (b_data x)) x)) ;;;
      log_write b ;;;
      brelse b ;;;
      k) Q s.
Proof.
  intros Hs Hsec Hun Hsz Hf Hw HQ.
  pose proof (update_block f V Hd r s sec d (fun _ => wp k Q) Hs Hsec Hun Hsz Hf Hw) as Hu.
  apply wp_bind in Hu; [|by intros s' ? ?; apply HQ]. revert Hu. apply wp_eq.
  unfold bind, modify. destruct (bread ROOTDEV sec s); try done.
  destruct (log_write _ _); done.
Qed.
End Derived.
