(* ===== verification/Txn.v ===== *)
(** * Transactions as the file system uses them

    [begin_op], [log_write] and [end_op] over the cache: blocks changed inside
    a transaction stay pinned until the last operation ends, and the commit
    then carries them out atomically. *)

From S2P Require Import Prelude Bytes Params FsState Bio Log Crash Store.

(** The sectors logged after [log_write] of one more. *)
Definition log_add (hs : list Z) (x : Z) : list Z := if decide (x ∈ hs) then hs else hs ++ [x].

Lemma elem_of_log_add hs x y : y ∈ log_add hs x <-> y ∈ hs \/ y = x.
Proof. unfold log_add. case_decide; set_solver. Qed.

Lemma NoDup_log_add hs x : NoDup hs -> NoDup (log_add hs x).
Proof.
  intros. unfold log_add. case_decide; [done|]. apply NoDup_app. split_and!; [done| |apply NoDup_singleton].
  set_solver.
Qed.

Lemma length_log_add hs x :
  (length hs <= length (log_add hs x) <= S (length hs))%nat.
Proof. unfold log_add. case_decide; rewrite ?length_app; simpl; lia. Qed.

(** The sectors of a transaction: pinned, or dirty in a buffer in use. *)
Definition logged (P : gmap Z block) (H : gmap nat held) (x : Z) : Prop :=
  is_Some (P !! x) \/ exists i h, H !! i = Some h /\ h_sector h = x /\ h_dirty h = true.

Lemma logged_insert P H i h x :
  H !! i = None -> logged P (<[i := h]> H) x <-> logged P H x \/ (h_sector h = x /\ h_dirty h = true).
Proof.
  intros Hi. unfold logged. split.
  - intros [HP|(j & h' & Hj & Hs & Hd)]; [by left; left|].
    destruct (decide (j = i)) as [->|]; simplify_map_eq; [by right|left; right; eauto].
  - intros [[HP|(j & h' & Hj & Hs & Hd)]|[Hs Hd]]; [by left|right..].
    + exists j, h'. rewrite lookup_insert_ne by congruence. done.
    + exists i, h. by rewrite lookup_insert_eq.
Qed.

(** Holding a buffer moves its pin into the held buffer. *)
Lemma logged_bread P H i sec d x :
  H !! i = None ->
  logged (delete sec P) (<[i := Held sec d (bool_decide (is_Some (P !! sec)))]> H) x <-> logged P H x.
Proof.
  intros Hi. rewrite logged_insert by done. simpl. rewrite bool_decide_eq_true. unfold logged.
  destruct (decide (sec = x)) as [->|].
  - rewrite lookup_delete_eq. split; [intros [[[? ?]|?]|[_ ?]]; [done|tauto..]|tauto].
  - rewrite lookup_delete_ne by done. tauto.
Qed.

(** Releasing it moves a dirty block back among the pinned ones. *)
Lemma logged_brelse P H i h x :
  H !! i = Some h ->
  logged (if h_dirty h then <[h_sector h := h_data h]> P else P) (delete i H) x <-> logged P H x.
Proof.
  intros Hi. rewrite <- (insert_delete_id H i h Hi) at 2.
  rewrite logged_insert by apply lookup_delete_eq. unfold logged.
  destruct (h_dirty h); [|split; [tauto|intros [|[_ ?]]; [tauto|done]]].
  destruct (decide (h_sector h = x)) as [->|].
  - rewrite lookup_insert_eq. split; [tauto|]. intros _. left. by eexists.
  - rewrite lookup_insert_ne by done. tauto.
Qed.

(** Making a held buffer dirty adds its sector. *)
Lemma logged_dirty P H i h d x :
  H !! i = Some h ->
  logged P H x \/ x = h_sector h <-> logged P (<[i := Held (h_sector h) d true]> H) x.
Proof.
  intros Hi. rewrite <- (insert_delete_eq H i (Held _ d true)).
  rewrite <- (insert_delete_id H i h Hi) at 1.
  rewrite !logged_insert by apply lookup_delete_eq. simpl. naive_solver.
Qed.

Lemma logged_set P H i h d x :
  H !! i = Some h -> logged P H x <-> logged P (<[i := Held (h_sector h) d (h_dirty h)]> H) x.
Proof.
  intros Hi. rewrite <- (insert_delete_eq H i (Held _ d _)).
  rewrite <- (insert_delete_id H i h Hi) at 1.
  rewrite !logged_insert by apply lookup_delete_eq. done.
Qed.

(** A transaction in progress, with the buffers [H] in use. *)
Record in_txn (s : kst) (D P : gmap Z block) (H : gmap nat held) (start nlog : Z) (hs : list Z) : Prop := {
  it_geom : log_geom (disksize s) start nlog hs;
  it_rep : rep s D P H;
  it_at : log_at s start hs;
  it_size : l_size (log s) = nlog;
  it_pins : forall x, x ∈ hs <-> logged P H x
}.

Lemma in_txn_txn s D P start nlog hs : in_txn s D P ∅ start nlog hs -> txn s D P start nlog hs.
Proof.
  intros [Hg Hr Ha _ Hp]. split; try done. intros x. rewrite Hp.
  split; [by left|]. intros [|(i & h & Hi & _)]; [done|]. by rewrite lookup_empty in Hi.
Qed.

(** ** [log_write] *)

Lemma absorb_found secs n sec i j x :
  (j < n)%nat -> secs !! j = Some x -> u32 x = sec ->
  (forall j' y, (j' < j)%nat -> secs !! j' = Some y -> u32 y <> sec) ->
  absorb secs n sec i = (i + j)%nat.
Proof.
  revert n i j. induction secs as [|y secs IH]; intros n i j Hj Hx Hs Hf; [done|].
  destruct n as [|n]; [lia|]. destruct j as [|j]; simpl in *.
  - injection Hx as ->. destruct (Z.eqb_spec (u32 x) sec); [lia|congruence].
  - destruct (Z.eqb_spec (u32 y) sec) as [E|]; [by destruct (Hf O y); [lia|..]|].
    rewrite (IH n (S i) j); try done; [lia|lia|]. intros j' z Hj' Hz. apply (Hf (S j')); [lia|done].
Qed.

Lemma absorb_none secs n sec i :
  (n <= length secs)%nat -> (forall j y, (j < n)%nat -> secs !! j = Some y -> u32 y <> sec) ->
  absorb secs n sec i = (i + n)%nat.
Proof.
  revert n i. induction secs as [|y secs IH]; intros n i Hl Hf; simpl in *.
  - destruct n; [simpl; lia|lia].
  - destruct n as [|n]; simpl; [lia|]. destruct (Z.eqb_spec (u32 y) sec) as [E|]; [by destruct (Hf O y); [lia|..]|].
    rewrite IH; [lia|lia|]. intros j z Hj Hz. apply (Hf (S j)); [lia|done].
Qed.

Lemma sector_at_lookup l k : (k < length (lh_sector l))%nat -> lh_sector l !! k = Some (sector_at l k).
Proof. intros Hk. unfold sector_at. by destruct (lookup_lt_is_Some_2 _ _ Hk) as [x ->]. Qed.

(** The in-memory header after [log_write] lists the sector, once. *)
Lemma log_at_add s start hs sec :
  log_at s start hs -> NoDup hs -> (forall h, h ∈ hs -> 0 <= h < 2 ^ 31) ->
  0 <= sec < 2 ^ 31 -> Z.of_nat (length hs) < LOGSIZE ->
  let l := log s in
  let i := absorb (lh_sector l) (Z.to_nat (lh_n l)) sec 0 in
  let l1 := with_lh_sector i (s32 sec) l in
  let l2 := if Z.of_nat i =? lh_n l then with_n (lh_n l + 1) l1 else l1 in
  log_at (on_log (fun _ => l2) s) start (log_add hs sec).
Proof.
  intros (Hst & Hdev & Hn & Hlen & Hsec) Hnd Hr Hs Hl. cbv zeta.
  unfold LOGSIZE, MAXOPBLOCKS in Hl, Hlen. rewrite Hn, Nat2Z.id.
  assert (forall j y, (j < length hs)%nat -> lh_sector (log s) !! j = Some y ->
            exists h, hs !! j = Some h /\ y = h /\ u32 y = h) as Hent.
  { intros j y Hj Hy. destruct (lookup_lt_is_Some_2 hs j Hj) as [h Hh].
    specialize (Hsec j h Hh). unfold sector_at in Hsec. rewrite Hy in Hsec. simpl in Hsec. subst.
    exists h. split_and!; try done. apply u32_small.
    pose proof (Hr h ltac:(by eapply list_elem_of_lookup_2)). lia. }
  unfold log_add. case_decide as Hin.
  - apply list_elem_of_lookup in Hin as [j Hj]. pose proof (lookup_lt_Some _ _ _ Hj) as Hjl.
    assert (absorb (lh_sector (log s)) (length hs) sec 0 = j) as Ei.
    { rewrite (absorb_found _ _ _ _ j sec); try done.
      - rewrite sector_at_lookup by lia. by rewrite (Hsec j sec Hj).
      - apply u32_small. lia.
      - intros j' y Hj' Hy E. destruct (Hent j' y) as (h & Hh & _ & E'); [lia|done|].
        assert (h = sec) as -> by congruence. pose proof (NoDup_lookup _ _ _ _ Hnd Hh Hj). lia. }
    rewrite Ei. destruct (Z.eqb_spec (Z.of_nat j) (Z.of_nat (length hs))); [lia|].
    unfold log_at. simpl. rewrite length_insert. split_and!; try done. intros k h Hk.
    unfold sector_at. simpl. destruct (decide (k = j)) as [->|].
    + rewrite list_lookup_insert_eq by lia. simpl. rewrite s32_small by lia. congruence.
    + rewrite list_lookup_insert_ne by done. by apply Hsec.
  - assert (absorb (lh_sector (log s)) (length hs) sec 0 = length hs) as Ei.
    { rewrite absorb_none; [lia|lia|]. intros j y Hj Hy E. destruct (Hent j y) as (h & Hh & _ & E'); try done.
      apply Hin. rewrite <- E, E'. by eapply list_elem_of_lookup_2. }
    rewrite Ei, Z.eqb_refl. unfold log_at. simpl. rewrite length_insert, length_app. simpl.
    split_and!; try done; [lia|]. intros k h Hk. unfold sector_at. simpl.
    apply lookup_app_Some in Hk as [Hk|[Hk Hk']].
    + pose proof (lookup_lt_Some _ _ _ Hk). rewrite list_lookup_insert_ne by lia. by apply Hsec.
    + destruct (k - length hs)%nat as [|m] eqn:E; [|by destruct m].
      assert (k = length hs) as -> by lia. rewrite list_lookup_insert_eq by lia.
      simpl in *. rewrite s32_small by lia. congruence.
Qed.

(** Where a sector may be changed through the log. *)
Definition loggable (s : kst) (start nlog sec : Z) : Prop :=
  0 <= sec < disksize s /\ outside start nlog sec.

Lemma log_geom_add dsz start nlog hs sec :
  log_geom dsz start nlog hs -> 0 <= sec < dsz -> outside start nlog sec ->
  Z.of_nat (length hs) < nlog - 1 -> log_geom dsz start nlog (log_add hs sec).
Proof.
  intros [G1 G2 G3 G4 G5 G6 G7] Hs Ho Hl. pose proof (length_log_add hs sec).
  split; try done; [lia| |by apply NoDup_log_add].
  intros h [Hh| ->]%elem_of_log_add; [by apply G6|done].
Qed.

Lemma log_write_spec s D P H start nlog hs i h :
  in_txn s D P H start nlog hs -> H !! i = Some h -> 1 <= l_outstanding (log s) ->
  Z.of_nat (length hs) < nlog - 1 -> loggable s start nlog (h_sector h) ->
  wp (log_write i) (fun _ s' =>
    in_txn s' D P (<[i := Held (h_sector h) (h_data h) true]> H) start nlog (log_add hs (h_sector h)) /\
    journal s' = journal s /\ (l_outstanding (log s') = l_outstanding (log s) /\
    l_committing (log s') = l_committing (log s)) /\ quiet s s') s.
Proof.
  intros [Hg Hrep Hat Hsz Hp] Hi Ho Hl [Hsr Hsout].
  pose proof Hg as [G1 G2 G3 G4 G5 G6 G7]. pose proof Hat as (_ & _ & Hn & _ & _).
  assert (forall x, x ∈ hs -> 0 <= x < 2 ^ 31) as Hr by (intros x [? _]%G6; lia).
  pose proof (log_at_add s start hs (h_sector h) Hat G7 Hr ltac:(lia) ltac:(lia)) as Hat'.
  cbv zeta in Hat'. rewrite Hn in Hat'.
  unfold log_write. apply wp_bind, wp_gets. rewrite Hn, Hsz.
  destruct (Z.leb_spec LOGSIZE (Z.of_nat (length hs))); [lia|].
  destruct (Z.leb_spec (nlog - 1) (Z.of_nat (length hs))); [lia|]. simpl orb. cbv iota.
  destruct (Z.ltb_spec (l_outstanding (log s)) 1); [lia|].
  apply wp_bind, wp_gets. rewrite (held_sector _ _ _ _ _ _ Hrep Hi).
  apply wp_bind, wp_modify.
  set (j := absorb _ _ _ _) in *. set (s1 := on_log (with_lh_sector j (s32 (h_sector h))) s).
  match type of Hat' with log_at ?x _ _ => set (s2 := x) in * end.
  assert (wp (if Z.of_nat j =? Z.of_nat (length hs)
              then modify (on_log (with_n (Z.of_nat (length hs) + 1))) else ret tt)
            (fun _ s' => s' = s2) s1) as Hw.
  { unfold s2. by destruct (Z.of_nat j =? Z.of_nat (length hs)). }
  apply wp_bind. eapply wp_mono; [exact Hw|]. intros [] s' ->. apply wp_modify.
  pose proof (set_dirty_spec s2 D P H i h ltac:(by apply rep_on_log) Hi) as Hrep'.
  split; [|split; [done|split; [|done]]].
  2: { unfold s2. simpl. by destruct (Z.of_nat j =? Z.of_nat (length hs)). }
  split; try done.
  - by apply log_geom_add.
  - unfold s2. simpl. by destruct (Z.of_nat j =? Z.of_nat (length hs)).
  - intros x. rewrite elem_of_log_add, Hp. by apply logged_dirty.
Qed.

(** ** [begin_op] *)

(** [begin_op] admits an operation exactly when no commit is running and the
    log has room for MAXOPBLOCKS more blocks per operation; else it sleeps and
    changes nothing. *)
Lemma begin_op_run s :
  begin_op s =
    if (l_committing (log s) =? 0) && (lh_n (log s) + (l_outstanding (log s) + 1) * MAXOPBLOCKS <=? LOGSIZE)
    then Ok tt (on_log (with_outstanding (l_outstanding (log s) + 1)) s)
    else Sleep ch_log s.
Proof.
  unfold begin_op, bind, gets, modify, sleep. destruct (l_committing (log s) =? 0); simpl; [|done].
  destruct (Z.ltb_spec LOGSIZE (lh_n (log s) + (l_outstanding (log s) + 1) * MAXOPBLOCKS)),
    (Z.leb_spec (lh_n (log s) + (l_outstanding (log s) + 1) * MAXOPBLOCKS) LOGSIZE); try lia; done.
Qed.

(** ** The invariant of the log

    Outside a commit the log on the disk is empty, and the superblock is never
    part of a transaction. *)
Record log_inv (s : kst) (D P : gmap Z block) (H : gmap nat held) (start nlog : Z) (hs : list Z) : Prop := {
  li_txn : in_txn s D P H start nlog hs;
  li_disk : log_disk (disksize s) start nlog [] [] D;
  li_sb : 1 ∉ hs
}.

Lemma in_txn_on_log s f D P H start nlog hs :
  in_txn s D P H start nlog hs -> log_at (on_log f s) start hs ->
  l_size (f (log s)) = nlog ->
  in_txn (on_log f s) D P H start nlog hs.
Proof. intros [Hg Hr Ha Hs Hp] Ha' Hs'. split; try done. by apply rep_on_log. Qed.

Lemma begin_op_inv s D P H start nlog hs :
  log_inv s D P H start nlog hs ->
  log_inv (on_log (with_outstanding (l_outstanding (log s) + 1)) s) D P H start nlog hs.
Proof.
  intros [Ht Hd H1]. split; try done. apply in_txn_on_log; try done; apply Ht.
Qed.

(** The pins are within the log, so the cache has a buffer to spare. *)
Lemma in_txn_room s D P H start nlog hs :
  in_txn s D P H start nlog hs -> (size P <= length hs)%nat /\ (size P < NBUF)%nat.
Proof.
  intros [Hg _ _ _ Hp]. pose proof Hg as [G1 G2 G3 G4 G5 G6 G7].
  assert (size P <= length hs)%nat.
  { rewrite <- size_dom, <- (size_list_to_set (C:=gset Z) hs) by done.
    apply subseteq_size. intros x Hx%elem_of_dom. apply elem_of_list_to_set, Hp. by left. }
  split; [done|]. unfold LOGSIZE, NBUF, MAXOPBLOCKS in *. lia.
Qed.

(** The disk writes [W] are a crash-atomic change from [D] to the contents [P]
    on top of [D]: recovery after any prefix of them yields one or the other. *)
Definition crash_atomic (dsz start nlog : Z) (D P : gmap Z block) (W : list (Z * block)) (n : nat) : Prop :=
  forall k, wp boot_log (fun _ s' => forall x, outside start nlog x ->
      memdisk s' !! x = if (k <=? n)%nat then D !! x else (P ∪ D) !! x)
    (boot (crashed k W D) dsz).

(** Committing, by the last [end_op], an arbitrary transaction. *)
Lemma commit_inv s D P start nlog hs :
  log_inv s D P ∅ start nlog hs ->
  wp commit (fun _ s' => exists W,
    journal s' = journal s ++ W /\ crash_atomic (disksize s) start nlog D P W (length hs) /\
    log_inv s' (apply_writes W D) ∅ ∅ start nlog [] /\
    (l_outstanding (log s') = l_outstanding (log s) /\ l_committing (log s') = l_committing (log s)) /\
    quiet s s' /\ forall x, outside start nlog x -> apply_writes W D !! x = (P ∪ D) !! x) s.
Proof.
  intros [Hit Hd H1]. pose proof (in_txn_txn _ _ _ _ _ _ Hit) as Ht.
  pose proof Hit as [Hg Hr Ha Hsz _]. pose proof (tx_pins _ _ _ _ _ _ Ht) as Hp.
  pose proof Ha as (Hst & Hdev & Hn & Hlen & _).
  destruct (decide (hs = [])) as [->|Hne].
  - assert (P = ∅) as ->.
    { apply map_eq. intros x. rewrite lookup_empty. apply eq_None_not_Some. rewrite Hp. set_solver. }
    unfold commit. apply wp_bind, wp_gets. rewrite Hn. simpl. apply wp_ret. exists [].
    rewrite app_nil_r. split; [done|]. split; [|split; [done|split; [done|split; [done|]]]].
    + intros k. unfold crashed. rewrite take_nil. simpl.
      eapply wp_mono; [by apply (recover_empty _ start nlog)|]. intros [] s' Hs x Hx. rewrite Hs by done.
      rewrite map_empty_union. by destruct (k <=? 0)%nat.
    + intros x _. by rewrite map_empty_union.
  - eapply wp_mono; [by eapply commit_spec|].
    intros [] s' (dh & de & Hdh & Hde & HJ & Hr' & Hl & Q1 & Q2).
    pose proof (crash_after (disksize s) start nlog s D P hs dh de Ht eq_refl H1 Hd Hdh Hde) as Hda.
    set (W := commit_writes start P hs dh de) in *. exists W.
    split; [done|]. split.
    { intros k. by apply (commit_prefix (disksize s) start nlog s D P hs dh de). }
    split.
    { split; [|by rewrite Q1|set_solver]. split; try done.
      - rewrite Q1. by eapply log_geom_nil.
      - unfold log_at. rewrite Hl. simpl. by split_and!.
      - by rewrite Hl.
      - intros x. split; [set_solver|]. intros [[]|(i & h & Hi & _)]; by rewrite lookup_empty in *. }
    split; [by rewrite Hl|]. split; [done|]. intros x Hx.
    assert (length hs < length W)%nat as HlW.
    { unfold W, commit_writes, log_writes, blocks. rewrite !length_app, length_imap, length_map. simpl. lia. }
    pose proof (commit_prefix (disksize s) start nlog s D P hs dh de Ht eq_refl H1 Hd Hdh Hde (length W)) as Hf.
    destruct (Nat.leb_spec (length W) (length hs)); [lia|].
    unfold crashed in Hf. fold W in Hf. rewrite firstn_all in Hf.
    destruct (wp_both _ _ _ _ Hf (recover_empty (disksize s) start nlog _ Hda)) as ([] & s1 & E1 & E2).
    by rewrite <- E1, <- E2.
Qed.

Lemma log_inv_on_log s f D P H start nlog hs :
  log_inv s D P H start nlog hs -> log_at (on_log f s) start hs ->
  l_size (f (log s)) = nlog ->
  log_inv (on_log f s) D P H start nlog hs.
Proof. intros [Ht Hd H1] **. split; try done. by apply in_txn_on_log. Qed.

Lemma log_inv_wake s c D P H start nlog hs :
  log_inv s D P H start nlog hs -> log_inv (wake c s) D P H start nlog hs.
Proof. intros [[Hg Hr Ha Hs Hp] Hd H1]. split; try done. split; try done. by apply rep_wake. Qed.

(** ** [end_op] *)

(** An operation that is not the last one only leaves the log. *)
Lemma end_op_more s D P H start nlog hs :
  log_inv s D P H start nlog hs -> l_committing (log s) = 0 -> 1 < l_outstanding (log s) ->
  end_op s = Ok tt (wake ch_log (on_log (fun l => with_outstanding (l_outstanding l - 1) l) s)) /\
  log_inv (wake ch_log (on_log (fun l => with_outstanding (l_outstanding l - 1) l) s)) D P H start nlog hs.
Proof.
  intros Hi Hb Ho. pose proof Hi as [[Hg Hr Ha Hs Hp] Hd H1]. split.
  - unfold end_op, bind, modify, gets, ret. simpl. rewrite Hb. simpl.
    destruct (Z.eqb_spec (l_outstanding (log s) - 1) 0); [lia|done].
  - by apply log_inv_wake, log_inv_on_log.
Qed.

(** The last operation commits. *)
Lemma end_op_last s D P start nlog hs :
  log_inv s D P ∅ start nlog hs -> l_committing (log s) = 0 -> l_outstanding (log s) = 1 ->
  wp end_op (fun _ s' => exists W,
    journal s' = journal s ++ W /\ crash_atomic (disksize s) start nlog D P W (length hs) /\
    log_inv s' (apply_writes W D) ∅ ∅ start nlog [] /\
    (l_outstanding (log s') = 0 /\ l_committing (log s') = 0) /\ quiet s s' /\
    forall x, outside start nlog x -> apply_writes W D !! x = (P ∪ D) !! x) s.
Proof.
  intros Hi Hb Ho. pose proof Hi as [[Hg Hr Ha Hs Hp] Hd H1].
  unfold end_op. apply wp_bind, wp_modify, wp_bind, wp_gets.
  set (s1 := on_log _ s). assert (log_inv s1 D P ∅ start nlog hs) as Hi1 by (by apply log_inv_on_log).
  change (l_committing (log s1)) with (l_committing (log s)). rewrite Hb.
  change (l_outstanding (log s1)) with (l_outstanding (log s) - 1). rewrite Ho. simpl negb. cbv iota.
  change (1 - 1 =? 0) with true. cbv iota.
  apply wp_bind, wp_modify. set (s2 := on_log (with_committing 1) s1).
  assert (log_inv s2 D P ∅ start nlog hs) as Hi2 by (by apply log_inv_on_log).
  apply wp_bind. eapply wp_mono; [exact (commit_inv s2 D P start nlog hs Hi2)|].
  intros [] s3 (W & J3 & Hc & Hi3 & [O3 _] & Q3 & Hv).
  apply wp_bind, wp_modify, wp_modify. exists W. split; [exact J3|]. split; [exact Hc|]. split.
  { destruct (li_txn _ _ _ _ _ _ _ Hi3). by apply log_inv_wake, log_inv_on_log. }
  split; [|split; [exact Q3|exact Hv]]. simpl. rewrite O3. simpl. lia.
Qed.

(** ** The block store that the file system programs against

    What stays fixed while a transaction runs: where the log is, how many
    operations take part, the disk and the writes it has carried out. *)
Record txn_env := Env {
  e_start : Z;
  e_nlog : Z;
  e_ops : Z;
  e_size : Z;
  e_journal : list (Z * block);
  e_disk : gmap Z block
}.

(** [store e V H r s]: [V] is what the running transaction has made of the
    disk, [H] the buffers in use, and [r] more sectors may still be logged. *)
Record store (e : txn_env) (V : gmap Z block) (H : gmap nat held) (r : nat) (s : kst) : Prop := {
  st_log : exists P hs, log_inv s (e_disk e) P H (e_start e) (e_nlog e) hs /\
    Z.of_nat (length hs + r) < e_nlog e /\ (length hs + r + 4 <= NBUF)%nat /\
    (forall x, unheld H x -> V !! x = (P ∪ e_disk e) !! x);
  st_held : forall i h, H !! i = Some h -> V !! h_sector h = Some (h_data h) /\
    (h_dirty h = false -> e_disk e !! h_sector h = Some (h_data h));
  st_op : l_outstanding (log s) = e_ops e /\ 1 <= e_ops e;
  st_busy : l_committing (log s) = 0;
  st_quiet : disksize s = e_size e /\ journal s = e_journal e
}.

Lemma unheld_insert H i h x : unheld (<[i := h]> H) x -> H !! i = None -> unheld H x /\ h_sector h <> x.
Proof.
  intros Hu Hi. split.
  - intros j h' Hj. apply (Hu j). rewrite lookup_insert_ne; [done|]. intros ->. congruence.
  - apply (Hu i). apply lookup_insert_eq.
Qed.

Section Store.
Context (e : txn_env).
Implicit Types (V P : gmap Z block) (H : gmap nat held).

Lemma store_rep V H r s : store e V H r s -> exists P, rep s (e_disk e) P H.
Proof. intros [(P & hs & [Ht _ _] & _) _ _ _ _]. exists P. apply Ht. Qed.

(** Reading the contents of a held buffer. *)
Lemma store_data V H r s i h :
  store e V H r s -> H !! i = Some h -> b_data (buf_at s i) = h_data h.
Proof. intros [P Hr]%store_rep Hi. by eapply held_data. Qed.

Lemma store_bread V H r s sec d :
  store e V H r s -> V !! sec = Some d -> unheld H sec -> (size H <= 3)%nat ->
  wp (bread ROOTDEV sec) (fun i s' => H !! i = None /\ icache s' = icache s /\ exists dirty,
    store e V (<[i := Held sec d dirty]> H) r s') s.
Proof.
  intros [(P & hs & Hinv & Hl & Hn & HV) Hh Ho Hb [Hz HJ]] Hd Hun Hsz. pose proof Hinv as [Ht Hdk H1].
  pose proof Ht as [Hg Hr Ha Hs Hp]. destruct (in_txn_room _ _ _ _ _ _ _ Ht) as [HszP _].
  pose proof (HV sec Hun) as Hsec. rewrite Hd in Hsec.
  assert (exists d0, (e_disk e) !! sec = Some d0 /\ default d0 (P !! sec) = d) as (d0 & HD & Hdef).
  { symmetry in Hsec. apply lookup_union_Some_raw in Hsec as [E|[E E']].
    - assert (is_Some ((e_disk e) !! sec)) as [d0 HD].
      { assert (sec ∈ hs) as Hin by (apply Hp; left; by eexists).
        apply (lg_home _ _ _ _ Hg) in Hin as [Hin _]. by apply Hdk. }
      exists d0. by rewrite E.
    - exists d. by rewrite E. }
  eapply wp_mono; [by eapply (bread_spec s (e_disk e) P H sec d0); [| | |right; lia]|].
  intros i s' (Hr' & Hi & RJ & (Rd & Rl & Ri)). rewrite Hdef in Hr'. split; [done|]. split; [done|].
  exists (bool_decide (is_Some (P !! sec))). split; [| |by rewrite Rl|by rewrite Rl|split; congruence].
  - exists (delete sec P), hs. split_and!; try done.
    + split; [|by rewrite Rd|done]. split; try done; try (by rewrite Rd); try congruence.
      { unfold log_at. by rewrite Rl. }
      intros x. rewrite Hp. symmetry. by apply logged_bread.
    + intros x [Hu Hne]%unheld_insert; [|done]. simpl in Hne. rewrite (HV x Hu), !lookup_union.
      by rewrite lookup_delete_ne.
  - intros j h. destruct (decide (j = i)) as [->|].
    + rewrite lookup_insert_eq. intros [= <-]. simpl. split; [done|].
      intros E%bool_decide_eq_false_1. apply eq_None_not_Some in E. rewrite E in Hdef. simpl in Hdef. congruence.
    + rewrite lookup_insert_ne by done. apply Hh.
Qed.

Lemma store_brelse V H r s i h :
  store e V H r s -> H !! i = Some h ->
  wp (brelse i) (fun _ s' => store e V (delete i H) r s' /\ icache s' = icache s) s.
Proof.
  intros [(P & hs & Hinv & Hl & Hn & HV) Hh Ho Hb [Hz HJ]] Hi. pose proof Hinv as [Ht Hdk H1].
  pose proof Ht as [Hg Hr Ha Hs Hp]. destruct (Hh i h Hi) as [HVi Hclean].
  destruct (held_buf _ _ _ _ _ _ Hr Hi) as (_ & _ & HPi & _).
  eapply wp_mono; [by eapply (brelse_spec s (e_disk e) P H i h)|].
  intros [] s' (Hr' & RJ & (Rd & Rl & Ri)). split; [|done]. split; [| |by rewrite Rl|by rewrite Rl|split; congruence].
  - eexists _, hs. split_and!; try done.
    + split; [|by rewrite Rd|done]. split; try exact Hr'; try (by rewrite Rd); try congruence.
      { unfold log_at. by rewrite Rl. }
      intros x. rewrite Hp. symmetry. by apply logged_brelse.
    + intros x Hu. destruct (decide (h_sector h = x)) as [<-|Hne].
      * rewrite HVi, lookup_union. destruct (h_dirty h).
        -- rewrite lookup_insert_eq. by destruct ((e_disk e) !! h_sector h).
        -- by rewrite HPi, Hclean.
      * rewrite HV; [rewrite !lookup_union|].
        -- destruct (h_dirty h); [|done]. by rewrite lookup_insert_ne.
        -- intros j h' Hj. destruct (decide (j = i)) as [->|]; [congruence|].
           apply (Hu j). by rewrite lookup_delete_ne.
  - intros j h' [_ Hj]%lookup_delete_Some. by apply (Hh j).
Qed.

(** Two buffers in use hold different sectors. *)
Lemma store_distinct V H r s i h j h' :
  store e V H r s -> H !! i = Some h -> H !! j = Some h' -> i <> j -> h_sector h <> h_sector h'.
Proof.
  intros [P Hr]%store_rep Hi Hj Hne E.
  destruct (held_buf _ _ _ _ _ _ Hr Hi) as (_ & _ & _ & Hoth).
  destruct (held_buf _ _ _ _ _ _ Hr Hj) as (Hj' & (_ & Hdev & _ & _ & _ & Hsec & _) & _).
  apply (Hoth j); congruence.
Qed.

(** Changing a held buffer and logging the change. *)
Lemma store_log_write V H r s i h f :
  store e V H (S r) s -> H !! i = Some h -> is_block (f (h_data h)) ->
  outside (e_start e) (e_nlog e) (h_sector h) -> h_sector h <> 1 ->
  wp (modify (on_buf i (fun b => with_data (f (b_data b)) b)) ;;; log_write i) (fun _ s' =>
    store e (<[h_sector h := f (h_data h)]> V)
      (<[i := Held (h_sector h) (f (h_data h)) true]> H) r s' /\ icache s' = icache s) s.
Proof.
  intros Hst Hi Hf Hout H1s. pose proof (store_data _ _ _ _ _ _ Hst Hi) as Hdat.
  pose proof (fun j h' => store_distinct _ _ _ _ i h j h' Hst Hi) as Hdist.
  destruct Hst as [(P & hs & Hinv & Hl & Hn & HV) Hh Ho Hb [Hz HJ]]. pose proof Hinv as [Ht Hdk H1].
  pose proof Ht as [Hg Hr Ha Hs Hp]. set (h1 := Held (h_sector h) (f (h_data h)) (h_dirty h)).
  apply wp_bind, wp_modify. rewrite (on_buf_eq s i _ (with_data (f (h_data h)))) by (by rewrite Hdat).
  set (s1 := on_buf i _ s).
  assert (in_txn s1 (e_disk e) P (<[i := h1]> H) (e_start e) (e_nlog e) hs) as Ht1.
  { split; try done; [by apply set_data_spec|]. intros x. rewrite Hp. by apply logged_set. }
  assert (0 <= h_sector h < disksize s) as Hrange.
  { destruct (h_dirty h) eqn:Ed; [|apply Hdk; destruct (Hh i h Hi) as [_ E]; rewrite E; done].
    apply (lg_home _ _ _ _ Hg), Hp. right. eauto. }
  eapply wp_mono; [eapply (log_write_spec s1 (e_disk e) P (<[i := h1]> H) (e_start e) (e_nlog e) hs i h1); try done|].
  { apply lookup_insert_eq. }
  { change (log s1) with (log s). lia. }
  { lia. }
  intros [] s' (Ht2 & J2 & [O2 C2] & [Q2 Q3]). rewrite insert_insert_eq in Ht2. split; [|done].
  pose proof (length_log_add hs (h_sector h)). split.
  - exists P, (log_add hs (h_sector h1)). split; [|simpl; split; [lia|split; [lia|]]].
    + split; [done|by rewrite Q2|]. intros [?|?]%elem_of_log_add; [done|simpl in *; congruence].
    + intros x Hu. pose proof (Hu i _ ltac:(apply lookup_insert_eq)) as Hx. simpl in Hx.
      rewrite lookup_insert_ne by done. apply HV. intros j h' Hj. destruct (decide (j = i)) as [->|].
      * congruence.
      * apply (Hu j). by rewrite lookup_insert_ne.
  - intros j h'. destruct (decide (j = i)) as [->|].
    + rewrite lookup_insert_eq. intros [= <-]. simpl. by rewrite lookup_insert_eq.
    + rewrite lookup_insert_ne by done. intros Hj.
      rewrite lookup_insert_ne by (apply (Hdist j h'); congruence). by apply (Hh j).
  - rewrite O2. done.
  - by rewrite C2.
  - rewrite Q2, J2. done.
Qed.

Lemma store_block V H r s sec d : store e V H r s -> V !! sec = Some d -> is_block d.
Proof.
  intros [(P & hs & Hinv & _ & _ & HV) Hh _ _ _] Hd.
  pose proof (it_rep _ _ _ _ _ _ _ (li_txn _ _ _ _ _ _ _ Hinv)) as Hr.
  destruct (decide (map_Exists (fun _ h => h_sector h = sec) H)) as [(i & h & Hi & <-)|Hn].
  - destruct (Hh i h Hi) as [E _]. rewrite E in Hd. injection Hd as <-. by eapply is_block_held.
  - rewrite HV in Hd.
    + apply lookup_union_Some_raw in Hd as [E|[_ E]]; [by eapply pinned_block|]. by eapply Hr.
    + intros i h Hi E. apply Hn. by exists i, h.
Qed.

Lemma store_weaken V H r r' s : (r' <= r)%nat -> store e V H r s -> store e V H r' s.
Proof.
  intros Hr [(P & hs & Hi & Hl & Hn & HV) Hh Ho Hb Hq]. split; try done.
  exists P, hs. split_and!; try done; lia.
Qed.

(** The store depends on the disk, the buffers and the log only. *)
Lemma store_ext V H r s s' :
  memdisk s' = memdisk s -> disksize s' = disksize s -> journal s' = journal s ->
  bcache s' = bcache s -> log s' = log s -> store e V H r s -> store e V H r s'.
Proof.
  intros Em Ed Ej Eb El [(P & hs & [[Hg Hr Ha Hs Hp] Hd H1] & Hb) Hh Ho Hc Hq].
  split; rewrite ?El, ?Ed, ?Ej; try done. exists P, hs. split; [|done].
  split; rewrite ?Ed; try done. split; rewrite ?Ed, ?El; try done.
  - by eapply rep_ext.
  - unfold log_at. by rewrite El.
Qed.
End Store.

(** The log implements the interface the file system is written against. *)
#[export] Instance log_store (e : txn_env) : BlockStore := {|
  bs_at := store e;
  bs_writable := fun sec => outside (e_start e) (e_nlog e) sec /\ sec <> 1;
  bs_data := store_data e;
  bs_block := store_block e;
  bs_bread := store_bread e;
  bs_brelse := store_brelse e;
  bs_log_write V H r s i h f Hs Hi Hf Hw := store_log_write e V H r s i h f Hs Hi Hf (proj1 Hw) (proj2 Hw);
  bs_weaken := store_weaken e;
  bs_icache V H r s l := store_ext e V H r s (with_icache l s) eq_refl eq_refl eq_refl eq_refl eq_refl;
  bs_wake V H r s c := store_ext e V H r s (wake c s) eq_refl eq_refl eq_refl eq_refl eq_refl
|}.

(** Nothing is running and nothing is pinned: the state between transactions. *)
Record idle (start nlog : Z) (D : gmap Z block) (s : kst) : Prop := {
  id_log : log_inv s D ∅ ∅ start nlog [];
  id_op : l_outstanding (log s) = 0;
  id_busy : l_committing (log s) = 0
}.

(** Booting, recovery included, establishes it. *)
Lemma boot_idle dsz start nlog hs bs D :
  log_disk dsz start nlog hs bs D ->
  wp boot_log (fun _ s => exists D', idle start nlog D' s /\ disksize s = dsz /\
    icache s = icache (boot D dsz) /\ forall x, outside start nlog x -> D' !! x = apply_writes (home_writes hs bs) D !! x) (boot D dsz).
Proof.
  intros Hd. eapply wp_mono; [by apply boot_log_spec|].
  intros [] s (de & Hde & _ & Hr & (Ha & Hs & Ho & Hc) & Hz & Hic).
  pose proof Hd as [_ _ _ Hg [H1 _] _]. pose proof Hg as [G1 G2 G3 G4 G5 G6 G7].
  eexists. split; [|split; [done|split; [done|]]].
  - split; try done. split; [|rewrite Hz; by apply log_disk_recovered|set_solver].
    split; try done.
    + rewrite Hz. by eapply log_geom_nil.
    + intros x. split; [set_solver|]. intros [[? E]|(i & h & E & _)]; by rewrite lookup_empty in E.
  - intros x Hx. unfold recover_writes. rewrite apply_writes_app. simpl. apply lookup_insert_ne.
    destruct Hx; lia.
Qed.

Lemma boot_runs dsz start nlog hs bs D :
  log_disk dsz start nlog hs bs D ->
  exists s D', boot_log (boot D dsz) = Ok tt s /\ idle start nlog D' s /\ disksize s = dsz /\
    icache s = icache (boot D dsz) /\
    forall x, outside start nlog x -> D' !! x = apply_writes (home_writes hs bs) D !! x.
Proof.
  intros Hd. destruct (wp_run _ _ _ (boot_idle _ _ _ _ _ _ Hd)) as ([] & s & E & D' & H).
  exists s, D'. split; [exact E|exact H].
Qed.

(** The first [begin_op] opens an empty transaction. *)
Lemma begin_op_store start nlog D s r :
  idle start nlog D s -> Z.of_nat r < nlog -> (r + 4 <= NBUF)%nat ->
  wp begin_op (fun _ s' => store (Env start nlog 1 (disksize s) (journal s) D) D ∅ r s' /\
    icache s' = icache s) s.
Proof.
  intros [Hl Ho Hb] Hr Hr'. pose proof Hl as [[Hg Hre Ha Hs Hp] Hd H1].
  pose proof Ha as (_ & _ & Hn & _). unfold wp. rewrite begin_op_run, Hb, Hn, Ho. simpl.
  split; [|done]. split; try done.
  - exists ∅, []. split; [by apply log_inv_on_log|]. split; [done|]. split; [done|].
    intros x _. by rewrite map_empty_union.
Qed.

(** [W] takes the committed contents from [D] to [V] atomically. *)
Definition atomic_to (dsz start nlog : Z) (D V : gmap Z block) (W : list (Z * block)) : Prop :=
  exists n, forall k, wp boot_log (fun _ s' => forall x, outside start nlog x ->
      memdisk s' !! x = if (k <=? n)%nat then D !! x else V !! x)
    (boot (crashed k W D) dsz).

Lemma end_op_store start nlog dsz J D V r s :
  store (Env start nlog 1 dsz J D) V ∅ r s ->
  wp end_op (fun _ s' => exists W D', idle start nlog D' s' /\
    (forall x, outside start nlog x -> D' !! x = V !! x) /\
    journal s' = J ++ W /\ atomic_to dsz start nlog D V W /\ disksize s' = dsz /\ icache s' = icache s) s.
Proof.
  intros [(P & hs & Hinv & _ & _ & HV) _ [Ho _] Hb [Hz HJs]]. simpl in *. subst.
  assert (forall x, V !! x = (P ∪ D) !! x) as HV'.
  { intros x. apply HV. intros i h Hi. by rewrite lookup_empty in Hi. }
  eapply wp_mono; [by eapply end_op_last|].
  intros [] s' (W & HJ & Hc & Hi & [O C] & Q & Hv). exists W, (apply_writes W D).
  split; [by split|]. split; [intros x Hx; by rewrite Hv, HV'|]. split; [exact HJ|]. split; [|exact Q].
  exists (length hs). intros k. eapply wp_mono; [apply (Hc k)|].
  intros [] s1 E x Hx. rewrite (E x Hx). by destruct (k <=? length hs)%nat.
Qed.

(** A whole operation: whatever it does to the store becomes durable
    atomically. *)
Lemma transaction {A} (op : M kst A) start nlog D s r (Q : A -> gmap Z block -> kst -> Prop) :
  idle start nlog D s -> Z.of_nat r < nlog -> (r + 4 <= NBUF)%nat ->
  (forall s1, store (Env start nlog 1 (disksize s) (journal s) D) D ∅ r s1 -> icache s1 = icache s ->
     wp op (fun a s2 => exists V r', store (Env start nlog 1 (disksize s) (journal s) D) V ∅ r' s2 /\
       Q a V s2) s1) ->
  wp (begin_op ;;; let! a := op in end_op ;;; ret a) (fun a s' => exists W D' V s2,
    Q a V s2 /\ idle start nlog D' s' /\ (forall x, outside start nlog x -> D' !! x = V !! x) /\
    journal s' = journal s ++ W /\ atomic_to (disksize s) start nlog D V W /\
    icache s' = icache s2) s.
Proof.
  intros Hi Hr Hr' Hop. apply wp_bind. eapply wp_mono; [by eapply begin_op_store|].
  intros [] s1 (H1 & I1). apply wp_bind. eapply wp_mono; [by apply Hop|].
  intros a s2 (V & r' & H2 & HQ). apply wp_bind.
  eapply wp_mono; [by eapply end_op_store|].
  intros [] s3 (W & D' & Hid & HV & J3 & Hat & _ & I3). apply wp_ret. exists W, D', V, s2.
  split; [exact HQ|]. split; [exact Hid|]. split; [exact HV|]. split; [exact J3|]. split; [exact Hat|exact I3].
Qed.
