(* ===== verification/Fs.v ===== *)
(** * The file system ([fs.c])

    Block allocation, the inode cache, inode contents, directories and path
    names, over the buffer cache and the log.  An inode pointer is an index
    into [icache.inode]; [char] buffers are lists of bytes. *)

From S2P Require Import Prelude Bytes Params CString FsState Bio Log.

(** ** Field access *)

Definition I_BUSY : Z := 1.
Definition I_VALID : Z := 2.

Definition inode_at (ip : nat) (s : kst) : inode := default zero_inode (icache s !! ip).

Definition i_with_ref v p := Inode (i_dev p) (i_inum p) v (i_flags p) (i_type p) (i_major p)
  (i_minor p) (i_nlink p) (i_size p) (i_addrs p).
Definition i_with_flags v p := Inode (i_dev p) (i_inum p) (i_ref p) v (i_type p) (i_major p)
  (i_minor p) (i_nlink p) (i_size p) (i_addrs p).
Definition i_with_type v p := Inode (i_dev p) (i_inum p) (i_ref p) (i_flags p) v (i_major p)
  (i_minor p) (i_nlink p) (i_size p) (i_addrs p).
Definition i_with_nlink v p := Inode (i_dev p) (i_inum p) (i_ref p) (i_flags p) (i_type p) (i_major p)
  (i_minor p) v (i_size p) (i_addrs p).
Definition i_with_size v p := Inode (i_dev p) (i_inum p) (i_ref p) (i_flags p) (i_type p) (i_major p)
  (i_minor p) (i_nlink p) v (i_addrs p).
Definition i_with_addr k v p := Inode (i_dev p) (i_inum p) (i_ref p) (i_flags p) (i_type p) (i_major p)
  (i_minor p) (i_nlink p) (i_size p) (<[k := v]> (i_addrs p)).

Definition addr_of (p : inode) (k : nat) : Z := nth k (i_addrs p) 0.

Definition data_of (b : nat) (s : kst) : block := b_data (buf_at s b).
Definition set_data (b : nat) (f : block -> block) : M kst unit :=
  modify (on_buf b (fun x => with_data (f (b_data x)) x)).

(** ** Blocks *)

(** Zero a block. *)
Definition bzero (dev bno : Z) : M kst unit :=
  let! bp := bread dev bno in
  set_data bp (fun _ => replicate (Z.to_nat BSIZE) 0) ;;;
  log_write bp ;;;
  brelse bp.

(** The mask of a block's bit in its byte of the bitmap. *)
Definition bit_mask (bi : Z) : Z := Z.shiftl 1 (bi mod 8).

Definition byte_of (d : block) (bi : Z) : Z := nth (Z.to_nat (bi / 8)) d 0.

Definition mark_used (bi : Z) (d : block) : block :=
  <[Z.to_nat (bi / 8) := Z.lor (byte_of d bi) (bit_mask bi)]> d.

Definition mark_free (bi : Z) (d : block) : block :=
  <[Z.to_nat (bi / 8) := Z.land (byte_of d bi) (Z.lnot (bit_mask bi))]> d.

(** The first block numbers of the bitmap blocks: [b = 0; b < size; b += BPB]. *)
Definition bitmap_starts (size : Z) : list Z :=
  (fun k => Z.of_nat k * BPB) <$> upto ((size + BPB - 1) / BPB).

(** The body of [balloc]'s inner loop: take the block if it is free. *)
Definition balloc_bit (dev b : Z) (bp k : nat) : M kst (option Z) :=
  let bi := Z.of_nat k in
  let! d := gets (data_of bp) in
  if Z.land (byte_of d bi) (bit_mask bi) =? 0 then
    set_data bp (mark_used bi) ;;;
    log_write bp ;;;
    brelse bp ;;;
    bzero dev (b + bi) ;;;
    ret (Some (b + bi))
  else ret None.

(** The body of its outer loop: search one block of the bitmap. *)
Definition balloc_block (dev : Z) (sb : superblock) (b : Z) : M kst (option Z) :=
  let! bp := bread dev (BBLOCK b (sb_ninodes sb)) in
  let! r := first_ (upto (Z.min BPB (sb_size sb - b))) (balloc_bit dev b bp) in
  match r with
  | Some x => ret (Some x)
  | None => brelse bp ;;; ret None
  end.

(** Allocate a zeroed disk block. *)
Definition balloc (dev : Z) : M kst Z :=
  let! sb := readsb dev in
  let! r := first_ (bitmap_starts (sb_size sb)) (balloc_block dev sb) in
  match r with
  | Some b => ret b
  | None => panic "balloc: out of blocks"
  end.

(** Free a disk block. *)
Definition bfree (dev b : Z) : M kst unit :=
  let! sb := readsb dev in
  let! bp := bread dev (BBLOCK b (sb_ninodes sb)) in
  let bi := b mod BPB in
  let! d := gets (data_of bp) in
  if Z.land (byte_of d bi) (bit_mask bi) =? 0 then panic "freeing free block"
  else
    set_data bp (mark_free bi) ;;;
    log_write bp ;;;
    brelse bp.

(** ** Inodes *)

(** The position of a dinode in its block. *)
Definition dinode_off (inum : Z) : nat := Z.to_nat (inum mod IPB * DINODE_SIZE).

(** The [addrs] array at the end of a dinode. *)
Definition encode_addrs (l : list Z) : list Z := concat (le 4 <$> l).
Definition decode_addrs (d : block) (o : nat) : list Z :=
  (fun k => ld32 d (o + 4 * k)) <$> seq 0 (Z.to_nat NDIRECT + 1).

(** Store the fields of an inode into its dinode at [o], in [iupdate]'s
    order. *)
Definition put_dinode (p : inode) (o : nat) (d : block) : block :=
  let d := st16 d o (i_type p) in
  let d := st16 d (o + 2) (i_major p) in
  let d := st16 d (o + 4) (i_minor p) in
  let d := st16 d (o + 6) (i_nlink p) in
  let d := st32 d (o + 8) (i_size p) in
  splice d (o + 12) (encode_addrs (i_addrs p)).

(** Load the fields of an inode from its dinode, in [ilock]'s order. *)
Definition get_dinode (d : block) (o : nat) (p : inode) : inode :=
  Inode (i_dev p) (i_inum p) (i_ref p) (i_flags p)
    (s16 (ld16 d o)) (s16 (ld16 d (o + 2))) (s16 (ld16 d (o + 4))) (s16 (ld16 d (o + 6)))
    (ld32 d (o + 8)) (decode_addrs d (o + 12)).

(** Copy a modified in-memory inode to disk. *)
Definition iupdate (ip : nat) : M kst unit :=
  let! p := gets (inode_at ip) in
  let! bp := bread (i_dev p) (IBLOCK (i_inum p)) in
  set_data bp (put_dinode p (dinode_off (i_inum p))) ;;;
  log_write bp ;;;
  brelse bp.

(** The loop of [iget]: the entry that caches the inode, else the first free
    entry seen. *)
Fixpoint iget_scan (l : list inode) (i : nat) (dev inum : Z) (empty : option nat) : nat + option nat :=
  match l with
  | [] => inr empty
  | p :: l' =>
      if (0 <? i_ref p) && (i_dev p =? dev) && (i_inum p =? inum) then inl i
      else
        iget_scan l' (S i) dev inum
          (match empty with
           | Some e => Some e
           | None => if i_ref p =? 0 then Some i else None
           end)
  end.

(** Find the inode with number [inum] on device [dev] and return the in-memory
    copy. *)
Definition iget (dev inum : Z) : M kst nat :=
  let! r := gets (fun s => iget_scan (icache s) 0 dev inum None) in
  match r with
  | inl ip => modify (on_inode ip (fun p => i_with_ref (i_ref p + 1) p)) ;;; ret ip
  | inr None => panic "iget: no inodes"
  | inr (Some ip) =>
      modify (on_inode ip (fun p => Inode dev inum 1 0 (i_type p) (i_major p) (i_minor p)
        (i_nlink p) (i_size p) (i_addrs p))) ;;;
      ret ip
  end.

(** Allocate a new inode with the given type on device [dev]. *)
Definition ialloc (dev type : Z) : M kst nat :=
  let! sb := readsb dev in
  let! r := first_ (seq 1 (Z.to_nat (sb_ninodes sb - 1))) (fun k =>
    let inum := Z.of_nat k in
    let! bp := bread dev (IBLOCK inum) in
    let o := dinode_off inum in
    let! d := gets (data_of bp) in
    if s16 (ld16 d o) =? 0 then
      set_data bp (fun d => st16 (splice d o (replicate (Z.to_nat DINODE_SIZE) 0)) o type) ;;;
      log_write bp ;;;
      brelse bp ;;;
      let! ip := iget dev inum in
      ret (Some ip)
    else
      brelse bp ;;;
      ret None) in
  match r with
  | Some ip => ret ip
  | None => panic "ialloc: no inodes"
  end.

(** Increment reference count for [ip]. *)
Definition idup (ip : nat) : M kst nat :=
  modify (on_inode ip (fun p => i_with_ref (i_ref p + 1) p)) ;;;
  ret ip.

(** Lock the given inode, reading it from disk if necessary. *)
Definition ilock (ip : nat) : M kst unit :=
  let! p := gets (inode_at ip) in
  if i_ref p <? 1 then panic "ilock"
  else if has (i_flags p) I_BUSY then sleep (ch_inode ip)
  else
    modify (on_inode ip (fun p => i_with_flags (set_flag (i_flags p) I_BUSY) p)) ;;;
    let! p := gets (inode_at ip) in
    if has (i_flags p) I_VALID then ret tt
    else
      let! bp := bread (i_dev p) (IBLOCK (i_inum p)) in
      let! d := gets (data_of bp) in
      modify (on_inode ip (get_dinode d (dinode_off (i_inum p)))) ;;;
      brelse bp ;;;
      modify (on_inode ip (fun p => i_with_flags (set_flag (i_flags p) I_VALID) p)) ;;;
      let! p := gets (inode_at ip) in
      if i_type p =? 0 then panic "ilock: no type" else ret tt.

(** Unlock the given inode. *)
Definition iunlock (ip : nat) : M kst unit :=
  let! p := gets (inode_at ip) in
  if negb (has (i_flags p) I_BUSY) || (i_ref p <? 1) then panic "iunlock"
  else
    modify (on_inode ip (fun p => i_with_flags (clr_flag (i_flags p) I_BUSY) p)) ;;;
    wakeup (ch_inode ip).

(** ** Inode content *)

(** Return the disk block address of the nth block in inode [ip], allocating
    one if there is none. *)
Definition bmap (ip : nat) (bn : Z) : M kst Z :=
  let! p := gets (inode_at ip) in
  if bn <? NDIRECT then
    let addr := addr_of p (Z.to_nat bn) in
    if addr =? 0 then
      let! addr := balloc (i_dev p) in
      modify (on_inode ip (i_with_addr (Z.to_nat bn) addr)) ;;;
      ret addr
    else ret addr
  else
    let bn := bn - NDIRECT in
    if bn <? NINDIRECT then
      let! addr :=
        let addr := addr_of p (Z.to_nat NDIRECT) in
        if addr =? 0 then
          let! addr := balloc (i_dev p) in
          modify (on_inode ip (i_with_addr (Z.to_nat NDIRECT) addr)) ;;;
          ret addr
        else ret addr in
      let! bp := bread (i_dev p) addr in
      let! a := gets (data_of bp) in
      let addr := ld32 a (4 * Z.to_nat bn) in
      let! addr :=
        if addr =? 0 then
          let! addr := balloc (i_dev p) in
          set_data bp (fun a => st32 a (4 * Z.to_nat bn) addr) ;;;
          log_write bp ;;;
          ret addr
        else ret addr in
      brelse bp ;;;
      ret addr
    else panic "bmap: out of range".

(** Truncate inode (discard contents). *)
Definition itrunc (ip : nat) : M kst unit :=
  for_ (upto NDIRECT) (fun i =>
    let! p := gets (inode_at ip) in
    if addr_of p i =? 0 then ret tt
    else
      bfree (i_dev p) (addr_of p i) ;;;
      modify (on_inode ip (i_with_addr i 0))) ;;;
  let! p := gets (inode_at ip) in
  (if addr_of p (Z.to_nat NDIRECT) =? 0 then ret tt
   else
     let! bp := bread (i_dev p) (addr_of p (Z.to_nat NDIRECT)) in
     for_ (upto NINDIRECT) (fun j =>
       let! a := gets (data_of bp) in
       if ld32 a (4 * j) =? 0 then ret tt
       else bfree (i_dev p) (ld32 a (4 * j))) ;;;
     brelse bp ;;;
     bfree (i_dev p) (addr_of p (Z.to_nat NDIRECT)) ;;;
     modify (on_inode ip (i_with_addr (Z.to_nat NDIRECT) 0))) ;;;
  modify (on_inode ip (i_with_size 0)) ;;;
  iupdate ip.

(** Drop a reference to an in-memory inode; if it was the last one and the
    inode has no links, free the inode and its content on disk. *)
Definition iput (ip : nat) : M kst unit :=
  let! p := gets (inode_at ip) in
  (if (i_ref p =? 1) && has (i_flags p) I_VALID && (i_nlink p =? 0) then
     if has (i_flags p) I_BUSY then panic "iput busy"
     else
       modify (on_inode ip (fun p => i_with_flags (set_flag (i_flags p) I_BUSY) p)) ;;;
       itrunc ip ;;;
       modify (on_inode ip (i_with_type 0)) ;;;
       iupdate ip ;;;
       modify (on_inode ip (i_with_flags 0)) ;;;
       wakeup (ch_inode ip)
   else ret tt) ;;;
  modify (on_inode ip (fun p => i_with_ref (i_ref p - 1) p)).

Definition iunlockput (ip : nat) : M kst unit :=
  iunlock ip ;;;
  iput ip.

(** [struct stat] *)
Record stat := Stat { st_type : Z; st_dev : Z; st_ino : Z; st_nlink : Z; st_size : Z }.

(** Copy stat information from inode. *)
Definition stati (p : inode) : stat :=
  Stat (i_type p) (s32 (i_dev p)) (i_inum p) (i_nlink p) (i_size p).

(** The device switch: the [read] and [write] functions the drivers have put
    into [devsw]. *)
Record devsw := Devsw {
  dev_read : Z -> option (nat -> Z -> M kst (Z * list Z));
  dev_write : Z -> option (nat -> list Z -> Z -> M kst Z)
}.

(** The copying loop of [readi]: [left] bytes are still to be read at [off];
    [acc] is what has been stored through [dst]. *)
Fixpoint readi_loop (fuel : nat) (ip : nat) (off left : Z) (acc : list Z) : M kst (list Z) :=
  if left <=? 0 then ret acc
  else
    match fuel with
    | O => fun _ => Fuel
    | S f =>
        let! addr := bmap ip (off / BSIZE) in
        let! dev := gets (fun s => i_dev (inode_at ip s)) in
        let! bp := bread dev addr in
        let m := Z.min left (BSIZE - off mod BSIZE) in
        let! d := gets (data_of bp) in
        brelse bp ;;;
        readi_loop f ip (u32 (off + m)) (left - m)
          (acc ++ slice d (Z.to_nat (off mod BSIZE)) (Z.to_nat m))
    end.

(** More iterations than [n] bytes can take. *)
Definition io_fuel (n : Z) : nat := Z.to_nat (n / BSIZE + 2).

(** Read data from inode: the return value and the bytes stored at [dst]. *)
Definition readi (dv : devsw) (ip : nat) (off n : Z) : M kst (Z * list Z) :=
  let! p := gets (inode_at ip) in
  if i_type p =? T_DEV then
    if (i_major p <? 0) || (NDEV <=? i_major p) then ret (-1, [])
    else match dev_read dv (i_major p) with
         | None => ret (-1, [])
         | Some rd => rd ip n
         end
  else if (i_size p <? off) || (u32 (off + n) <? off) then ret (-1, [])
  else
    let n := if i_size p <? u32 (off + n) then i_size p - off else n in
    let! data := readi_loop (io_fuel n) ip off n [] in
    ret (s32 n, data).

(** The copying loop of [writei]: returns the final [off]. *)
Fixpoint writei_loop (fuel : nat) (ip : nat) (src : list Z) (off left : Z) : M kst Z :=
  if left <=? 0 then ret off
  else
    match fuel with
    | O => fun _ => Fuel
    | S f =>
        let! addr := bmap ip (off / BSIZE) in
        let! dev := gets (fun s => i_dev (inode_at ip s)) in
        let! bp := bread dev addr in
        let m := Z.min left (BSIZE - off mod BSIZE) in
        set_data bp (fun d => splice d (Z.to_nat (off mod BSIZE)) (take (Z.to_nat m) src)) ;;;
        log_write bp ;;;
        brelse bp ;;;
        writei_loop f ip (drop (Z.to_nat m) src) (u32 (off + m)) (left - m)
    end.

(** Write data to inode. *)
Definition writei (dv : devsw) (ip : nat) (src : list Z) (off n : Z) : M kst Z :=
  let! p := gets (inode_at ip) in
  if i_type p =? T_DEV then
    if (i_major p <? 0) || (NDEV <=? i_major p) then ret (-1)
    else match dev_write dv (i_major p) with
         | None => ret (-1)
         | Some wr => wr ip src n
         end
  else if (i_size p <? off) || (u32 (off + n) <? off) then ret (-1)
  else if MAXFILE * BSIZE <? u32 (off + n) then ret (-1)
  else
    let! off := writei_loop (io_fuel n) ip src off n in
    let! p := gets (inode_at ip) in
    (if (0 <? n) && (i_size p <? off) then
       modify (on_inode ip (i_with_size off)) ;;;
       iupdate ip
     else ret tt) ;;;
    ret (s32 n).

(** ** Directories *)

Definition namecmp (s t : list Z) : Z := strncmp (ptr s) (ptr t) DIRSIZ.

(** The offsets [off = 0; off < size; off += sizeof(de)]. *)
Definition dirent_offs (size : Z) : list Z :=
  (fun k => Z.of_nat k * DIRENT_SIZE) <$> upto ((size + DIRENT_SIZE - 1) / DIRENT_SIZE).

Definition de_inum (de : list Z) : Z := ld16 de 0.
Definition de_name (de : list Z) : list Z := drop 2 de.

(** Look for a directory entry in a directory: the inode and the byte offset
    of the entry. *)
Definition dirlookup (dv : devsw) (dp : nat) (name : list Z) : M kst (option (nat * Z)) :=
  let! p := gets (inode_at dp) in
  if negb (i_type p =? T_DIR) then panic "dirlookup not DIR"
  else
    first_ (dirent_offs (i_size p)) (fun off =>
      let! r := readi dv dp off DIRENT_SIZE in
      if negb (r.1 =? DIRENT_SIZE) then panic "dirlink read"
      else if de_inum r.2 =? 0 then ret None
      else if namecmp name (de_name r.2) =? 0 then
        let! dev := gets (fun s => i_dev (inode_at dp s)) in
        let! ip := iget dev (de_inum r.2) in
        ret (Some (ip, off))
      else ret None).

(** Write a new directory entry (name, inum) into the directory [dp]. *)
Definition dirlink (dv : devsw) (dp : nat) (name : list Z) (inum : Z) : M kst Z :=
  let! r := dirlookup dv dp name in
  match r with
  | Some (ip, _) => iput ip ;;; ret (-1)
  | None =>
      let! p := gets (inode_at dp) in
      let offs := dirent_offs (i_size p) in
      let! r := first_ offs (fun off =>
        let! r := readi dv dp off DIRENT_SIZE in
        if negb (r.1 =? DIRENT_SIZE) then panic "dirlink read"
        else if de_inum r.2 =? 0 then ret (Some off) else ret None) in
      let off := default (Z.of_nat (length offs) * DIRENT_SIZE) r in
      let de := le 2 inum ++ strncpy (ptr name) DIRSIZ in
      let! w := writei dv dp de off DIRENT_SIZE in
      if negb (w =? DIRENT_SIZE) then panic "dirlink" else ret 0
  end.

(** ** Paths *)

Definition slash : Z := 47.

(** [while( *path == '/' ) path++;] *)
Fixpoint skip_slashes (path : list Z) : list Z :=
  match path with
  | c :: path' => if c =? slash then skip_slashes path' else path
  | [] => []
  end.

(** [while( *path != '/' && *path != 0 ) path++;], with the bytes passed. *)
Fixpoint take_elem (path : list Z) : list Z * list Z :=
  match path with
  | c :: path' =>
      if (c =? slash) || (c =? 0) then ([], path)
      else let (e, rest) := take_elem path' in (c :: e, rest)
  | [] => ([], [])
  end.

(** Copy the next path element from [path] into [name]: the rest of the path
    and the contents of [name], or [None] if there is no element. *)
Definition skipelem (path name : list Z) : option (list Z * list Z) :=
  let path := skip_slashes path in
  if hd 0 path =? 0 then None
  else
    let (s, path) := take_elem path in
    let name :=
      if (DIRSIZ <=? length s)%nat then splice name 0 (take DIRSIZ s)
      else splice (splice name 0 s) (length s) [0] in
    Some (skip_slashes path, name).

(** The loop of [namex]: the inode, if any, and the contents of [name]. *)
Fixpoint namex_loop (fuel : nat) (dv : devsw) (ip : nat) (path : list Z) (nameiparent : bool)
    (name : list Z) : M kst (option nat * list Z) :=
  match skipelem path name with
  | None => if nameiparent then iput ip ;;; ret (None, name) else ret (Some ip, name)
  | Some (path, name) =>
      match fuel with
      | O => fun _ => Fuel
      | S f =>
          ilock ip ;;;
          let! p := gets (inode_at ip) in
          if negb (i_type p =? T_DIR) then
            iunlockput ip ;;;
            ret (None, name)
          else if nameiparent && (hd 0 path =? 0) then
            iunlock ip ;;;
            ret (Some ip, name)
          else
            let! next := dirlookup dv ip name in
            match next with
            | None => iunlockput ip ;;; ret (None, name)
            | Some (next, _) => iunlockput ip ;;; namex_loop f dv next path nameiparent name
            end
      end
  end.

(** Look up the inode for a path name; [cwd] is [proc->cwd] and [name] the
    caller's buffer. *)
Definition namex (dv : devsw) (cwd : nat) (path : list Z) (nameiparent : bool) (name : list Z)
    : M kst (option nat * list Z) :=
  let! ip := if hd 0 path =? slash then iget ROOTDEV ROOTINO else idup cwd in
  namex_loop (length path) dv ip path nameiparent name.

(** [name] stands for the uninitialised local buffer. *)
Definition namei (dv : devsw) (cwd : nat) (path name : list Z) : M kst (option nat) :=
  let! r := namex dv cwd path false name in
  ret r.1.

Definition nameiparent (dv : devsw) (cwd : nat) (path name : list Z) : M kst (option nat * list Z) :=
  namex dv cwd path true name.
