(* ===== verification/FsAlloc.v ===== *)
(** * Allocating disk blocks ([balloc] and [bfree] of [fs.c])

    The free bitmap as a set of block numbers: [balloc] takes the lowest free
    block, zeroes it and leaves every other bit alone; [bfree] is its inverse. *)

From S2P Require Import Prelude Bytes Params FsState Bio Log Store Fs.

(** ** The bitmap *)

(** The bit of a block number in a block of the bitmap. *)
Definition bit_of (d : block) (bi : Z) : bool := Z.testbit (byte_of d bi) (bi mod 8).

Definition used (V : gmap Z block) (sb : superblock) (b : Z) : bool :=
  match V !! BBLOCK b (sb_ninodes sb) with
  | Some d => bit_of d (b mod BPB)
  | None => true
  end.

Lemma bit_mask_spec bi : bit_mask bi = 2 ^ (bi mod 8).
Proof. unfold bit_mask. rewrite Z.shiftl_mul_pow2; [lia|]. apply Z.mod_pos_bound. lia. Qed.

Lemma bit_mask_test d bi : (Z.land (byte_of d bi) (bit_mask bi) =? 0) = negb (bit_of d bi).
Proof.
  unfold bit_of. rewrite bit_mask_spec, <- has_bit by (apply Z.mod_pos_bound; lia).
  unfold has. by rewrite negb_involutive.
Qed.

Lemma byte_of_insert d bi bi' v :
  is_block d -> 0 <= bi < BPB -> 0 <= bi' ->
  byte_of (<[Z.to_nat (bi / 8) := v]> d) bi' = if bi / 8 =? bi' / 8 then v else byte_of d bi'.
Proof.
  intros [Hl _] Hb Hb'. unfold byte_of. rewrite !nth_lookup.
  assert (0 <= bi / 8 < 512) by (split; [apply Z.div_pos|apply Z.div_lt_upper_bound]; unfold BPB, BSIZE in *; lia).
  pose proof (Z.div_pos bi' 8 ltac:(lia) ltac:(lia)).
  destruct (Z.eqb_spec (bi / 8) (bi' / 8)) as [<-|Hne].
  - rewrite list_lookup_insert_eq; [done|]. rewrite Hl. unfold BSIZE. lia.
  - by rewrite list_lookup_insert_ne by lia.
Qed.

Lemma same_bit bi bi' : bi / 8 = bi' / 8 -> bi mod 8 = bi' mod 8 -> bi = bi'.
Proof. intros. rewrite (Z.div_mod bi 8), (Z.div_mod bi' 8) by lia. congruence. Qed.

Lemma bit_of_mark_used d bi bi' :
  is_block d -> 0 <= bi < BPB -> 0 <= bi' ->
  bit_of (mark_used bi d) bi' = (bi =? bi') || bit_of d bi'.
Proof.
  intros Hd Hb Hb'. unfold bit_of, mark_used. rewrite byte_of_insert by done.
  pose proof (Z.mod_pos_bound bi 8). pose proof (Z.mod_pos_bound bi' 8).
  destruct (Z.eqb_spec (bi / 8) (bi' / 8)) as [E|E].
  - rewrite Z.lor_spec, bit_mask_spec, Z.pow2_bits_eqb by lia.
    replace (byte_of d bi) with (byte_of d bi') by (unfold byte_of; by rewrite E).
    rewrite orb_comm. f_equal. destruct (Z.eqb_spec (bi mod 8) (bi' mod 8)), (Z.eqb_spec bi bi'); try done.
    + by destruct (same_bit bi bi').
    + congruence.
  - destruct (Z.eqb_spec bi bi'); [congruence|done].
Qed.

Lemma bit_of_mark_free d bi bi' :
  is_block d -> 0 <= bi < BPB -> 0 <= bi' ->
  bit_of (mark_free bi d) bi' = negb (bi =? bi') && bit_of d bi'.
Proof.
  intros Hd Hb Hb'. unfold bit_of, mark_free. rewrite byte_of_insert by done.
  pose proof (Z.mod_pos_bound bi 8). pose proof (Z.mod_pos_bound bi' 8).
  destruct (Z.eqb_spec (bi / 8) (bi' / 8)) as [E|E].
  - rewrite Z.land_spec, Z.lnot_spec, bit_mask_spec, Z.pow2_bits_eqb by lia.
    replace (byte_of d bi) with (byte_of d bi') by (unfold byte_of; by rewrite E).
    rewrite andb_comm. do 2 f_equal. destruct (Z.eqb_spec (bi mod 8) (bi' mod 8)), (Z.eqb_spec bi bi'); try done.
    + by destruct (same_bit bi bi').
    + congruence.
  - destruct (Z.eqb_spec bi bi'); [congruence|done].
Qed.

Lemma byte_of_range d bi : is_block d -> 0 <= byte_of d bi < 256.
Proof.
  intros [_ Hb]. unfold byte_of. rewrite nth_lookup.
  destruct (d !! _) as [x|] eqn:E; simpl; [|lia]. by eapply (Forall_lookup_1 _ _ _ _ Hb).
Qed.

(** Bitwise operations on bytes give bytes. *)
Lemma byte_bits x : (forall n, 8 <= n -> Z.testbit x n = false) -> 0 <= x -> 0 <= x < 256.
Proof.
  intros Hn Hx. split; [done|]. destruct (decide (x = 0)) as [->|]; [lia|].
  change 256 with (2 ^ 8). apply Z.log2_lt_pow2; [lia|].
  destruct (decide (Z.log2 x < 8)); [done|].
  pose proof (Z.bit_log2 x ltac:(lia)). rewrite Hn in H by lia. done.
Qed.

Lemma byte_high x n : 0 <= x < 256 -> 8 <= n -> Z.testbit x n = false.
Proof.
  intros Hx Hn. rewrite <- (Z.mod_small x (2 ^ 8)) by lia. apply Z.mod_pow2_bits_high. lia.
Qed.

Lemma insert_block d k v : is_block d -> 0 <= v < 256 -> is_block (<[k := v]> d).
Proof. intros [Hl Hb] Hv. split; [by rewrite length_insert|]. by apply Forall_insert. Qed.

Lemma mark_used_block d bi : is_block d -> is_block (mark_used bi d).
Proof.
  intros Hd. apply insert_block; [done|]. pose proof (byte_of_range d bi Hd).
  pose proof (Z.mod_pos_bound bi 8). rewrite bit_mask_spec. apply byte_bits.
  - intros n Hn. rewrite Z.lor_spec, byte_high, Z.pow2_bits_eqb by lia.
    destruct (Z.eqb_spec (bi mod 8) n); [lia|done].
  - apply Z.lor_nonneg. split; [lia|]. apply Z.pow_nonneg. lia.
Qed.

Lemma mark_free_block d bi : is_block d -> is_block (mark_free bi d).
Proof.
  intros Hd. apply insert_block; [done|]. pose proof (byte_of_range d bi Hd). apply byte_bits.
  - intros n Hn. by rewrite Z.land_spec, byte_high by lia.
  - apply Z.land_nonneg. lia.
Qed.

(** ** [balloc] *)

Lemma BBLOCK_add k bi n : 0 <= bi < BPB -> BBLOCK (k * BPB + bi) n = BBLOCK (k * BPB) n.
Proof.
  intros. unfold BBLOCK. rewrite Z.div_add_l, Z.div_mul, Z.div_small by (unfold BPB, BSIZE in *; lia). lia.
Qed.

Lemma BPB_mod k bi : 0 <= bi < BPB -> (k * BPB + bi) mod BPB = bi.
Proof. intros. rewrite Z.add_comm, Z.mod_add by (unfold BPB, BSIZE; lia). by apply Z.mod_small. Qed.

Lemma BPB_split b : b = b / BPB * BPB + b mod BPB.
Proof. rewrite (Z.div_mod b BPB) at 1 by (unfold BPB, BSIZE; lia). lia. Qed.

Lemma BPB_bound b : 0 <= b mod BPB < BPB.
Proof. apply Z.mod_pos_bound. unfold BPB, BSIZE. lia. Qed.

Lemma alter_insert_id (V : gmap Z block) k f d : V !! k = Some d -> alter f k V = <[k := f d]> V.
Proof.
  intros HV. apply map_eq. intros x. destruct (decide (k = x)) as [<-|].
  - by rewrite lookup_insert_eq, lookup_alter_eq, HV.
  - by rewrite lookup_insert_ne, lookup_alter_ne.
Qed.

Section Balloc.
Context `{BS : BlockStore}.
Implicit Types (V : gmap Z block) (Hd : gmap nat held).

(** A file system image: its superblock and its bitmap are there, and the free
    blocks are data blocks. *)
Record image V (sb : superblock) : Prop := {
  im_sb : exists d, V !! 1 = Some d /\ decode_sb d = sb;
  im_size : 0 <= sb_size sb;
  im_map : forall b, 0 <= b < sb_size sb ->
    let m := BBLOCK b (sb_ninodes sb) in is_Some (V !! m) /\ bs_writable m /\ m <> 1;
  im_free : forall b, 0 <= b < sb_size sb -> used V sb b = false ->
    is_Some (V !! b) /\ bs_writable b /\ b <> 1 /\
    forall b', 0 <= b' < sb_size sb -> b <> BBLOCK b' (sb_ninodes sb)
}.

(** The buffers in use are those of allocated data blocks. *)
Definition apart V sb Hd : Prop :=
  forall i h, Hd !! i = Some h -> h_sector h <> 1 /\
    (forall b, 0 <= b < sb_size sb -> h_sector h <> BBLOCK b (sb_ninodes sb)) /\
    (0 <= h_sector h < sb_size sb -> used V sb (h_sector h) = true).

(** The image after allocating block [b]. *)
Definition allocated V (sb : superblock) (b : Z) : gmap Z block :=
  <[b := zero_block]> (alter (mark_used (b mod BPB)) (BBLOCK b (sb_ninodes sb)) V).

Definition lowest_free V sb (b : Z) : Prop :=
  0 <= b < sb_size sb /\ used V sb b = false /\ forall b', 0 <= b' < b -> used V sb b' = true.

Lemma readsb_store V Hd r s sb Q :
  image V sb -> bs_at V Hd r s -> unheld Hd 1 -> (size Hd <= 3)%nat ->
  (forall s', bs_at V Hd r s' -> icache s' = icache s -> Q sb s') ->
  wp (readsb ROOTDEV) Q s.
Proof. intros [(d & Hd1 & <-) _ _ _] **. by eapply (read_block decode_sb). Qed.

Lemma bzero_store V Hd r s b d Q :
  bs_at V Hd (S r) s -> V !! b = Some d -> unheld Hd b -> (size Hd <= 3)%nat -> bs_writable b ->
  (forall s', bs_at (<[b := zero_block]> V) Hd r s' -> icache s' = icache s -> Q tt s') ->
  wp (bzero ROOTDEV b) Q s.
Proof.
  intros. eapply (update_block (fun _ => zero_block)); try done. apply zero_block_ok.
Qed.

Lemma apart_free V sb Hd b : apart V sb Hd -> 0 <= b < sb_size sb -> used V sb b = false -> unheld Hd b.
Proof. intros Ha Hb Hu i h Hi E. destruct (Ha i h Hi) as (_ & _ & HU). subst. rewrite HU in Hu; done. Qed.

Lemma apart_map V sb Hd b : apart V sb Hd -> 0 <= b < sb_size sb -> unheld Hd (BBLOCK b (sb_ninodes sb)).
Proof. intros Ha Hb i h Hi. by apply (Ha i h Hi). Qed.

Lemma used_at V sb k bi d :
  V !! BBLOCK (k * BPB) (sb_ninodes sb) = Some d -> 0 <= bi < BPB ->
  used V sb (k * BPB + bi) = bit_of d bi.
Proof. intros HV Hb. unfold used. by rewrite BBLOCK_add, HV, BPB_mod. Qed.

(** The inner loop's body, on a bitmap block in use. *)
Lemma balloc_bit_spec V sb Hd r s k bi bp d dirty :
  let b := Z.of_nat k * BPB in
  image V sb -> apart V sb Hd -> (size Hd <= 3)%nat ->
  V !! BBLOCK b (sb_ninodes sb) = Some d -> Hd !! bp = None ->
  bs_at V (<[bp := Held (BBLOCK b (sb_ninodes sb)) d dirty]> Hd) (S (S r)) s ->
  0 <= b + Z.of_nat bi < sb_size sb -> Z.of_nat bi < BPB ->
  wp (balloc_bit ROOTDEV b bp bi) (fun o s' => icache s' = icache s /\
    match o with
    | Some x => x = b + Z.of_nat bi /\ used V sb x = false /\ bs_at (allocated V sb x) Hd r s'
    | None => s' = s /\ used V sb (b + Z.of_nat bi) = true
    end) s.
Proof.
  intros b Him Hap Hsz HV Hbp Hst Hb Hbi. unfold balloc_bit.
  apply wp_bind, wp_gets. unfold data_of. rewrite (bs_data _ _ _ _ bp _ Hst (lookup_insert_eq _ _ _)).
  cbn [h_data]. rewrite bit_mask_test.
  assert (used V sb (b + Z.of_nat bi) = bit_of d (Z.of_nat bi)) as Hu by (apply used_at; [done|lia]).
  rewrite <- Hu. destruct (used V sb (b + Z.of_nat bi)) eqn:Euse; simpl negb; cbv iota; [by apply wp_ret|].
  destruct (im_map _ _ Him _ Hb) as (_ & Hw & _). unfold b in Hw. rewrite BBLOCK_add in Hw by lia.
  destruct (im_free _ _ Him _ Hb Euse) as ([dx Hdx] & Hwx & _ & Hnm).
  pose proof (bs_block _ _ _ _ _ _ Hst HV) as Hblk. unfold set_data. apply wp_assoc, wp_bind.
  eapply wp_mono; [eapply (bs_log_write _ _ _ _ bp _ (mark_used (Z.of_nat bi)) Hst (lookup_insert_eq _ _ _))|].
  { by apply mark_used_block. }
  { done. }
  cbn [h_sector h_data]. intros [] s1 [H1 I1]. rewrite insert_insert_eq in H1.
  apply wp_bind. eapply wp_mono; [eapply (bs_brelse _ _ _ _ bp _ H1 (lookup_insert_eq _ _ _))|].
  intros [] s2 [H2 I2]. rewrite delete_insert_id in H2 by done. apply wp_bind.
  eapply (bzero_store _ _ _ _ _ _ _ H2); try done.
  { rewrite lookup_insert_ne; [exact Hdx|]. intros E. apply (Hnm (b + Z.of_nat bi) Hb).
    unfold b. rewrite BBLOCK_add by lia. done. }
  { by eapply apart_free. }
  intros s3 H3 I3. apply wp_ret. split; [congruence|]. split; [done|]. split; [done|].
  unfold allocated. unfold b at 2 3. rewrite BBLOCK_add, BPB_mod by lia. fold b.
  by rewrite (alter_insert_id V _ _ d).
Qed.

(** One block of the bitmap: the first free block it describes, if any. *)
Lemma balloc_block_spec V sb Hd r s k :
  let b := Z.of_nat k * BPB in
  image V sb -> apart V sb Hd -> (size Hd <= 3)%nat -> bs_at V Hd (S (S r)) s ->
  b < sb_size sb ->
  wp (balloc_block ROOTDEV sb b) (fun o s' => icache s' = icache s /\
    match o with
    | Some x => b <= x < sb_size sb /\ used V sb x = false /\
        (forall b', b <= b' < x -> used V sb b' = true) /\ bs_at (allocated V sb x) Hd r s'
    | None => (forall b', b <= b' < Z.min (b + BPB) (sb_size sb) -> used V sb b' = true) /\
        bs_at V Hd (S (S r)) s'
    end) s.
Proof.
  intros b Him Hap Hsz Hst Hb. assert (0 <= b) by (unfold b, BPB, BSIZE; lia).
  destruct (im_map _ _ Him b ltac:(lia)) as ([d HV] & _).
  unfold balloc_block. apply wp_bind. eapply wp_mono.
  { eapply (bs_bread _ _ _ _ _ d Hst); [done| |done]. apply (apart_map _ _ _ _ Hap). lia. }
  intros bp s1 (Hbp & I1 & dirty & H1). apply wp_bind.
  eapply (wp_first (fun n s' => s' = s1 /\ forall b', b <= b' < b + Z.of_nat n -> used V sb b' = true)).
  - split; [done|lia].
  - intros n x s' [-> Hn]%lookup_upto [-> Hall].
    eapply wp_mono; [apply (balloc_bit_spec V sb Hd r s1 k n bp d dirty); try done; fold b; lia|].
    fold b. intros [x|] s' [I2 Ho].
    + destruct Ho as (-> & Hu & Hs). apply wp_ret. split; [congruence|]. split; [lia|]. split; [done|].
      split; [|done]. intros b' Hb'. apply Hall. lia.
    + destruct Ho as [-> Hu]. split; [done|]. intros b' Hb'.
      destruct (decide (b' = b + Z.of_nat n)) as [->|]; [done|]. apply Hall. lia.
  - intros s' [-> Hall]. rewrite length_upto in Hall. apply wp_bind.
    eapply wp_mono; [eapply (bs_brelse _ _ _ _ bp _ H1 (lookup_insert_eq _ _ _))|].
    intros [] s2 [H2 I2]. rewrite delete_insert_id in H2 by done. apply wp_ret.
    split; [congruence|]. split; [|done]. intros b' Hb'. apply Hall. lia.
Qed.

Lemma lookup_bitmap_starts size k x :
  bitmap_starts size !! k = Some x -> x = Z.of_nat k * BPB /\ Z.of_nat k * BPB < size.
Proof.
  unfold bitmap_starts. rewrite list_lookup_fmap.
  destruct (upto _ !! k) as [i|] eqn:E; [|done]. intros [= <-].
  apply lookup_upto in E as [-> Hk]. split; [done|].
  pose proof (Z.div_mod (size + BPB - 1) BPB ltac:(unfold BPB, BSIZE; lia)).
  pose proof (BPB_bound (size + BPB - 1)). unfold BPB, BSIZE in *. nia.
Qed.

Lemma bitmap_starts_cover size b :
  0 <= b < size -> b < Z.of_nat (length (bitmap_starts size)) * BPB.
Proof.
  intros Hb. unfold bitmap_starts. rewrite length_fmap, length_upto.
  pose proof (Z.div_mod (size + BPB - 1) BPB ltac:(unfold BPB, BSIZE; lia)).
  pose proof (BPB_bound (size + BPB - 1)). unfold BPB, BSIZE in *. nia.
Qed.

(** The search over the whole bitmap. *)
Lemma balloc_search V sb Hd r s :
  image V sb -> apart V sb Hd -> (size Hd <= 3)%nat -> bs_at V Hd (S (S r)) s ->
  wp (first_ (bitmap_starts (sb_size sb)) (balloc_block ROOTDEV sb)) (fun o s' => icache s' = icache s /\
    match o with
    | Some x => lowest_free V sb x /\ bs_at (allocated V sb x) Hd r s'
    | None => (forall b, 0 <= b < sb_size sb -> used V sb b = true) /\ bs_at V Hd (S (S r)) s'
    end) s.
Proof.
  intros Him Hap Hsz Hst.
  eapply (wp_first (fun n s' => icache s' = icache s /\ bs_at V Hd (S (S r)) s' /\
    forall b, 0 <= b < Z.min (Z.of_nat n * BPB) (sb_size sb) -> used V sb b = true)).
  - split; [done|]. split; [done|]. lia.
  - intros k x s' [-> Hk]%lookup_bitmap_starts (I1 & H1 & Hall).
    assert (0 <= Z.of_nat k * BPB) by (unfold BPB, BSIZE; lia).
    eapply wp_mono; [by apply (balloc_block_spec V sb Hd r s' k)|].
    cbv zeta. intros [x|] s2 [I2 Ho].
    + destruct Ho as (Hx & Hu & Hlow & Hs). split; [congruence|]. split; [|done].
      split; [lia|]. split; [done|]. intros b' Hb'.
      destruct (decide (b' < Z.of_nat k * BPB)); [apply Hall; lia|apply Hlow; lia].
    + destruct Ho as [Hlow Hs]. split; [congruence|]. split; [done|]. intros b Hb.
      destruct (decide (b < Z.of_nat k * BPB)); [apply Hall; lia|]. apply Hlow. lia.
  - intros s' (I1 & H1 & Hall). split; [done|]. split; [|done]. intros b Hb.
    apply Hall. pose proof (bitmap_starts_cover _ _ Hb). lia.
Qed.

(** [balloc] hands out the lowest free block, zeroed and marked in use. *)
Lemma balloc_spec V sb Hd r s b0 :
  image V sb -> apart V sb Hd -> (size Hd <= 3)%nat -> bs_at V Hd (S (S r)) s ->
  0 <= b0 < sb_size sb -> used V sb b0 = false ->
  wp (balloc ROOTDEV) (fun b s' => lowest_free V sb b /\ bs_at (allocated V sb b) Hd r s' /\
    icache s' = icache s) s.
Proof.
  intros Him Hap Hsz Hst Hb0 Hu0. unfold balloc. apply wp_bind.
  eapply readsb_store; try done. { intros i h Hi. by apply (Hap i h Hi). }
  intros s1 H1 I1. apply wp_bind. eapply wp_mono; [by apply balloc_search|].
  intros [x|] s2 [I2 Ho].
  - apply wp_ret. destruct Ho as [Hl Hs]. split; [done|]. split; [done|congruence].
  - destruct Ho as [Hall _]. rewrite Hall in Hu0 by done. done.
Qed.

(** When every block is in use, it stops the machine. *)
Lemma balloc_full V sb Hd r s :
  image V sb -> apart V sb Hd -> (size Hd <= 3)%nat -> bs_at V Hd (S (S r)) s ->
  (forall b, 0 <= b < sb_size sb -> used V sb b = true) ->
  balloc ROOTDEV s = Panic "balloc: out of blocks".
Proof.
  intros Him Hap Hsz Hst Hall.
  assert (wp (readsb ROOTDEV) (fun sb' s1 => sb' = sb /\ bs_at V Hd (S (S r)) s1) s) as Hsb.
  { eapply readsb_store; try done. intros i h Hi. by apply (Hap i h Hi). }
  apply wp_ok in Hsb as (? & s1 & E1 & -> & H1).
  pose proof (balloc_search V sb Hd r s1 Him Hap Hsz H1) as Hsearch.
  apply wp_ok in Hsearch as (o & s2 & E2 & _ & Ho).
  unfold balloc, bind. rewrite E1, E2. destruct o as [x|]; [|done].
  destruct Ho as [(Hx & Hu & _) _]. by rewrite Hall in Hu.
Qed.

(** ** [bfree] *)

(** The image after freeing block [b]. *)
Definition freed V (sb : superblock) (b : Z) : gmap Z block :=
  alter (mark_free (b mod BPB)) (BBLOCK b (sb_ninodes sb)) V.

Lemma bfree_test V sb Hd r s b :
  image V sb -> apart V sb Hd -> (size Hd <= 3)%nat -> bs_at V Hd (S r) s -> 0 <= b < sb_size sb ->
  exists bp s1 d dirty, bs_at V (<[bp := Held (BBLOCK b (sb_ninodes sb)) d dirty]> Hd) (S r) s1 /\
    V !! BBLOCK b (sb_ninodes sb) = Some d /\ Hd !! bp = None /\ icache s1 = icache s /\
    bfree ROOTDEV b s =
      if used V sb b then
        (set_data bp (mark_free (b mod BPB)) ;;; log_write bp ;;; brelse bp) s1
      else Panic "freeing free block".
Proof.
  intros Him Hap Hsz Hst Hb. destruct (im_map _ _ Him b Hb) as ([d HV] & _ & _).
  assert (wp (readsb ROOTDEV) (fun sb' s1 => sb' = sb /\ bs_at V Hd (S r) s1 /\ icache s1 = icache s) s) as Hsb.
  { eapply readsb_store; try done. intros i h Hi. by apply (Hap i h Hi). }
  apply wp_ok in Hsb as (? & s1 & E1 & -> & H1 & I1).
  pose proof (bs_bread _ _ _ _ _ d H1 HV (apart_map _ _ _ _ Hap Hb) Hsz) as Hbr.
  apply wp_ok in Hbr as (bp & s2 & E2 & Hbp & I2 & dirty & H2).
  exists bp, s2, d, dirty. split; [done|]. split; [done|]. split; [done|]. split; [congruence|].
  unfold bfree, bind at 1. rewrite E1. unfold bind at 1. rewrite E2. cbv zeta. unfold bind at 1, gets, data_of.
  rewrite (bs_data _ _ _ _ bp _ H2 (lookup_insert_eq _ _ _)). cbn [h_data]. rewrite bit_mask_test.
  unfold used. rewrite HV. by destruct (bit_of d (b mod BPB)).
Qed.

(** [bfree] clears the bit of its block. *)
Lemma bfree_spec V sb Hd r s b :
  image V sb -> apart V sb Hd -> (size Hd <= 3)%nat -> bs_at V Hd (S r) s -> 0 <= b < sb_size sb ->
  used V sb b = true ->
  wp (bfree ROOTDEV b) (fun _ s' => bs_at (freed V sb b) Hd r s' /\ icache s' = icache s) s.
Proof.
  intros Him Hap Hsz Hst Hb Hu.
  destruct (bfree_test V sb Hd r s b Him Hap Hsz Hst Hb) as (bp & s1 & d & dirty & H1 & HV & Hbp & I1 & E).
  unfold wp at 1. rewrite E, Hu. fold (wp (set_data bp (mark_free (b mod BPB)) ;;; log_write bp ;;; brelse bp)
    (fun _ s' => bs_at (freed V sb b) Hd r s' /\ icache s' = icache s) s1).
  unfold set_data. apply wp_assoc, wp_bind.
  eapply wp_mono; [eapply (bs_log_write _ _ _ _ bp _ _ H1 (lookup_insert_eq _ _ _))|].
  { apply mark_free_block. by eapply bs_block. }
  { by apply (im_map _ _ Him). }
  cbn [h_sector h_data]. intros [] s2 [H2 I2]. rewrite insert_insert_eq in H2.
  eapply wp_mono; [eapply (bs_brelse _ _ _ _ bp _ H2 (lookup_insert_eq _ _ _))|].
  intros [] s3 [H3 I3]. rewrite delete_insert_id in H3 by done. split; [|congruence].
  unfold freed. by rewrite (alter_insert_id V _ _ d).
Qed.

Lemma bfree_free V sb Hd r s b :
  image V sb -> apart V sb Hd -> (size Hd <= 3)%nat -> bs_at V Hd (S r) s -> 0 <= b < sb_size sb ->
  used V sb b = false -> bfree ROOTDEV b s = Panic "freeing free block".
Proof.
  intros Him Hap Hsz Hst Hb Hu.
  destruct (bfree_test V sb Hd r s b Him Hap Hsz Hst Hb) as (bp & s1 & d & dirty & _ & _ & _ & _ & E).
  by rewrite E, Hu.
Qed.

(** ** The bitmap as a set *)

Lemma used_alter V sb f b b' :
  is_Some (V !! BBLOCK b (sb_ninodes sb)) -> 0 <= b -> 0 <= b' ->
  (forall d bi, V !! BBLOCK b (sb_ninodes sb) = Some d -> 0 <= bi ->
     bit_of (f d) bi = if b mod BPB =? bi then negb (bit_of d bi) else bit_of d bi) ->
  used (alter f (BBLOCK b (sb_ninodes sb)) V) sb b' = if b =? b' then negb (used V sb b') else used V sb b'.
Proof.
  intros [d HV] Hb Hb' Hf. unfold used.
  destruct (decide (BBLOCK b (sb_ninodes sb) = BBLOCK b' (sb_ninodes sb))) as [E|E].
  - rewrite <- E, lookup_alter_eq, HV. simpl. pose proof (BPB_bound b').
    rewrite (Hf d) by (done || lia). destruct (Z.eqb_spec (b mod BPB) (b' mod BPB)) as [Em|Em].
    + assert (b = b') as ->; [|by rewrite Z.eqb_refl].
      unfold BBLOCK in E. rewrite (BPB_split b), (BPB_split b'). f_equal; [|done]. f_equal. lia.
    + destruct (Z.eqb_spec b b'); [congruence|done].
  - rewrite lookup_alter_ne by done. destruct (Z.eqb_spec b b'); [congruence|done].
Qed.

Lemma used_allocated V sb b b' :
  image V sb -> (forall sec d, V !! sec = Some d -> is_block d) ->
  0 <= b < sb_size sb -> used V sb b = false -> 0 <= b' < sb_size sb ->
  used (allocated V sb b) sb b' = (b =? b') || used V sb b'.
Proof.
  intros Him Hblk Hb Hu Hb'. destruct (im_free _ _ Him b Hb Hu) as (_ & _ & _ & Hnm).
  transitivity (used (alter (mark_used (b mod BPB)) (BBLOCK b (sb_ninodes sb)) V) sb b').
  { unfold used at 1, allocated. by rewrite lookup_insert_ne by (by apply Hnm). }
  pose proof (BPB_bound b). rewrite used_alter; [|apply (im_map _ _ Him _ Hb)|lia|lia|].
  - destruct (Z.eqb_spec b b') as [<-|]; [by rewrite Hu|done].
  - intros d bi HV Hbi. rewrite bit_of_mark_used by (done || by eapply Hblk).
    destruct (Z.eqb_spec (b mod BPB) bi) as [<-|]; [|done]. unfold used in Hu. rewrite HV in Hu. by rewrite Hu.
Qed.

Lemma used_freed V sb b b' :
  image V sb -> (forall sec d, V !! sec = Some d -> is_block d) ->
  0 <= b < sb_size sb -> used V sb b = true -> 0 <= b' < sb_size sb ->
  used (freed V sb b) sb b' = negb (b =? b') && used V sb b'.
Proof.
  intros Him Hblk Hb Hu Hb'. unfold freed. pose proof (BPB_bound b).
  rewrite used_alter; [|apply (im_map _ _ Him _ Hb)|lia|lia|].
  - destruct (Z.eqb_spec b b') as [<-|]; [by rewrite Hu|done].
  - intros d bi HV Hbi. rewrite bit_of_mark_free by (done || by eapply Hblk).
    destruct (Z.eqb_spec (b mod BPB) bi) as [<-|]; [|done]. unfold used in Hu. rewrite HV in Hu. by rewrite Hu.
Qed.

(** Allocation and freeing keep the image well formed. *)
Lemma image_allocated V sb b :
  image V sb -> (forall sec d, V !! sec = Some d -> is_block d) ->
  0 <= b < sb_size sb -> used V sb b = false -> image (allocated V sb b) sb.
Proof.
  intros Him Hblk Hb Hu. pose proof Him as [(d & HV1 & Hsb) Hsz Hmap Hfree].
  destruct (Hfree b Hb Hu) as (_ & _ & Hb1 & Hnm). destruct (Hmap b Hb) as ([dm Hm] & _ & Hm1).
  assert (forall x, is_Some (V !! x) -> is_Some (allocated V sb b !! x)) as Hdom.
  { intros x Hx. unfold allocated. destruct (decide (b = x)) as [<-|]; [rewrite lookup_insert_eq; eauto|].
    rewrite lookup_insert_ne by done. by apply lookup_alter_is_Some. }
  split; [|done| |].
  - exists d. split; [|done]. unfold allocated. by rewrite lookup_insert_ne, lookup_alter_ne.
  - intros b' Hb'. destruct (Hmap b' Hb') as (Hs & ?). split; [by apply Hdom|done].
  - intros b' Hb'. rewrite used_allocated by done. intros [_ Hu']%orb_false_iff.
    destruct (Hfree b' Hb' Hu') as (Hs & ?). split; [by apply Hdom|done].
Qed.

Lemma image_freed V sb b :
  image V sb -> (forall sec d, V !! sec = Some d -> is_block d) ->
  0 <= b < sb_size sb -> used V sb b = true ->
  is_Some (V !! b) -> bs_writable b -> b <> 1 -> (forall b', 0 <= b' < sb_size sb -> b <> BBLOCK b' (sb_ninodes sb)) ->
  image (freed V sb b) sb.
Proof.
  intros Him Hblk Hb Hu HVb Hw H1 Hnm. pose proof Him as [(d & HV1 & Hsb) Hsz Hmap Hfree].
  destruct (Hmap b Hb) as (_ & _ & Hm1).
  assert (forall x, is_Some (V !! x) -> is_Some (freed V sb b !! x)) as Hdom.
  { intros x Hx. unfold freed. by apply lookup_alter_is_Some. }
  split; [|done| |].
  - exists d. split; [|done]. unfold freed. by rewrite lookup_alter_ne.
  - intros b' Hb'. destruct (Hmap b' Hb') as (Hs & ?). split; [by apply Hdom|done].
  - intros b' Hb'. rewrite used_freed by done. intros [E|Hu']%andb_false_iff.
    + apply negb_false_iff, Z.eqb_eq in E as <-. split; [by apply Hdom|done].
    + destruct (Hfree b' Hb' Hu') as (Hs & ?). split; [by apply Hdom|done].
Qed.
End Balloc.
