(* ===== verification/FsInode.v ===== *)
(** * Inodes ([ialloc], [iupdate], [iget], [ilock], [iput], ... of [fs.c])

    The on-disk inode format and its round trip through [iupdate] and [ilock],
    the inode cache with its reference counts, and inode allocation. *)

From S2P Require Import Prelude Bytes Params FsState Bio Log Store Fs FsAlloc.

(** ** The on-disk format *)

(** The copied fields are in the range of their C types. *)
Record inode_ok (p : inode) : Prop := {
  io_type : - 2 ^ 15 <= i_type p < 2 ^ 15;
  io_major : - 2 ^ 15 <= i_major p < 2 ^ 15;
  io_minor : - 2 ^ 15 <= i_minor p < 2 ^ 15;
  io_nlink : - 2 ^ 15 <= i_nlink p < 2 ^ 15;
  io_size : 0 <= i_size p < 2 ^ 32;
  io_addrs : length (i_addrs p) = (Z.to_nat NDIRECT + 1)%nat /\ Forall (fun a => 0 <= a < 2 ^ 32) (i_addrs p)
}.

(** The fields of [p] on the identity of [q]. *)
Definition loaded (q p : inode) : inode :=
  Inode (i_dev q) (i_inum q) (i_ref q) (i_flags q) (i_type p) (i_major p) (i_minor p) (i_nlink p)
    (i_size p) (i_addrs p).

Lemma length_encode_addrs l : length (encode_addrs l) = (4 * length l)%nat.
Proof.
  unfold encode_addrs. induction l as [|x l IH]; cbn [concat fmap list_fmap]; [done|].
  rewrite length_app, length_le, IH. simpl. lia.
Qed.

Lemma slice_encode_addrs l k x :
  l !! k = Some x -> slice (encode_addrs l) (4 * k) 4 = le 4 x.
Proof.
  unfold encode_addrs. revert k. induction l as [|y l IH]; intros k Hk; [done|].
  change (concat (le 4 <$> y :: l)) with (le 4 y ++ concat (le 4 <$> l)).
  destruct k as [|k]; simpl in Hk.
  - injection Hk as ->. unfold slice. rewrite drop_0, take_app_length'; [done|by rewrite length_le].
  - rewrite <- (IH k Hk). unfold slice. replace (4 * S k)%nat with (4 + 4 * k)%nat by lia.
    by rewrite <- drop_drop, (drop_app_length' (le 4 y)) by (by rewrite length_le).
Qed.

Lemma encode_addrs_bytes l : is_bytes (encode_addrs l).
Proof.
  unfold encode_addrs. induction l as [|x l IH]; [constructor|].
  change (concat (le 4 <$> x :: l)) with (le 4 x ++ concat (le 4 <$> l)).
  apply Forall_app. split; [apply le_bytes|done].
Qed.

Lemma decode_encode_addrs d o l :
  length l = (Z.to_nat NDIRECT + 1)%nat -> Forall (fun a => 0 <= a < 2 ^ 32) l ->
  (o + 4 * length l <= length d)%nat ->
  decode_addrs (splice d o (encode_addrs l)) o = l.
Proof.
  intros Hl Hr Hd. apply list_eq. intros k. unfold decode_addrs. rewrite list_lookup_fmap, <- Hl.
  destruct (l !! k) as [x|] eqn:E.
  - pose proof (lookup_lt_Some _ _ _ E) as Hk. rewrite lookup_seq_lt by done.
    change (Some (ld32 (splice d o (encode_addrs l)) (o + 4 * k)) = Some x). f_equal. unfold ld32, ld.
    rewrite slice_splice_in by (rewrite length_encode_addrs; lia).
    rewrite (slice_encode_addrs l k x E), unle_le. apply Z.mod_small.
    by apply (Forall_lookup_1 _ _ _ _ Hr E).
  - apply lookup_ge_None in E. by rewrite lookup_seq_ge by done.
Qed.

(** Lengths of stored-into buffers. *)
Ltac blen :=
  repeat first [ rewrite length_st | rewrite length_splice | rewrite length_encode_addrs
               | rewrite length_replicate | rewrite length_le ]; lia.

Section Dinode.
Implicit Types (d : block) (o : nat).

Lemma length_put_dinode p o d :
  (o + 64 <= length d)%nat -> length (i_addrs p) = (Z.to_nat NDIRECT + 1)%nat ->
  length (put_dinode p o d) = length d.
Proof.
  intros Ho Hl. unfold put_dinode, st16, st32. change (Z.to_nat NDIRECT + 1)%nat with 13%nat in Hl. blen.
Qed.

Lemma put_dinode_block p o d :
  is_block d -> (o + 64 <= length d)%nat -> length (i_addrs p) = (Z.to_nat NDIRECT + 1)%nat ->
  is_block (put_dinode p o d).
Proof.
  intros [Hl Hb] Ho Ha. split; [by rewrite length_put_dinode|].
  unfold put_dinode, st16, st32. apply splice_bytes; [|apply encode_addrs_bytes]. auto 10 with bytes.
Qed.

(** [ilock] reads back what [iupdate] wrote. *)
Lemma get_put_dinode p q o d :
  inode_ok p -> (o + 64 <= length d)%nat -> get_dinode (put_dinode p o d) o q = loaded q p.
Proof.
  intros [Ht Hma Hmi Hnl Hs [Hl Ha]] Ho. pose proof Hl as Hl'.
  change (Z.to_nat NDIRECT + 1)%nat with 13%nat in Hl'.
  unfold get_dinode, loaded, put_dinode, ld16, ld32, st16, st32.
  rewrite decode_encode_addrs by (done || (rewrite Hl'; blen)).
  assert (forall n o' x, (o' + n <= o + 12)%nat -> (o + 12 + 4 * length (i_addrs p) <= length x)%nat ->
    ld n (splice x (o + 12) (encode_addrs (i_addrs p))) o' = ld n x o') as Hsp.
  { intros n o' x Hn Hx. unfold ld. rewrite slice_splice_ne; [done| |left; lia].
    rewrite length_encode_addrs. lia. }
  rewrite !Hsp by (try lia; rewrite Hl'; blen).
  repeat first [rewrite ld_st_eq by blen | rewrite (ld_st_ne _ _ _ _ _) by (lia || blen)].
  change (8 * Z.of_nat 2) with 16. change (8 * Z.of_nat 4) with 32.
  rewrite !s16_wrap, !s16_small, Z.mod_small by done. done.
Qed.

(** Only the stored bytes matter to a dinode. *)
Lemma get_dinode_ext d d' o q :
  (forall o' n, (o <= o')%nat -> (o' + n <= o + 64)%nat -> slice d o' n = slice d' o' n) ->
  get_dinode d o q = get_dinode d' o q.
Proof.
  intros H. unfold get_dinode, ld16, ld32, ld.
  rewrite !(H _ 2%nat), (H _ 4%nat) by lia. f_equal. unfold decode_addrs. apply list_fmap_ext.
  intros i k Hk. apply lookup_seq in Hk as [-> Hk]. unfold ld32, ld.
  change (Z.to_nat NDIRECT + 1)%nat with 13%nat in Hk. rewrite H; [done|lia|lia].
Qed.

(** The other inodes of the block are left alone. *)
Lemma get_put_dinode_ne p q o o' d :
  length (i_addrs p) = (Z.to_nat NDIRECT + 1)%nat -> (o + 64 <= length d)%nat ->
  (o' + 64 <= o \/ o + 64 <= o')%nat -> get_dinode (put_dinode p o d) o' q = get_dinode d o' q.
Proof.
  intros Hl Ho Hd. change (Z.to_nat NDIRECT + 1)%nat with 13%nat in Hl.
  apply get_dinode_ext. intros a n Ha Hn. unfold put_dinode, st16, st32, st.
  rewrite !slice_splice_ne; try done; rewrite ?length_encode_addrs, ?length_le; try lia;
    fold (st 2 d o (i_type p)); fold (st 4); rewrite ?Hl; try blen;
    repeat match goal with |- context [splice ?x ?y (le ?n ?v)] => fold (st n x y v) end; blen.
Qed.
End Dinode.

(** ** Positions *)

Lemma IPB_eq : IPB = 8.
Proof. done. Qed.

Lemma dinode_off_bound inum : (dinode_off inum + 64 <= Z.to_nat BSIZE)%nat.
Proof.
  unfold dinode_off. pose proof (Z.mod_pos_bound inum IPB ltac:(rewrite IPB_eq; lia)) as H.
  rewrite IPB_eq in *. change DINODE_SIZE with 64. change BSIZE with 512. lia.
Qed.

(** Inodes with different numbers are stored apart. *)
Lemma dinode_apart i j :
  IBLOCK i = IBLOCK j -> i <> j ->
  (dinode_off i + 64 <= dinode_off j \/ dinode_off j + 64 <= dinode_off i)%nat.
Proof.
  intros E Hne. unfold IBLOCK, dinode_off in *. rewrite IPB_eq in *. change DINODE_SIZE with 64.
  pose proof (Z.div_mod i 8). pose proof (Z.div_mod j 8).
  pose proof (Z.mod_pos_bound i 8). pose proof (Z.mod_pos_bound j 8). lia.
Qed.

(** ** The inode cache *)

Lemma inode_at_on_inode ip f s j :
  (ip < length (icache s))%nat ->
  inode_at j (on_inode ip f s) = if decide (ip = j) then f (inode_at ip s) else inode_at j s.
Proof.
  intros Hi. unfold inode_at, on_inode. simpl. case_decide as E.
  - subst. destruct (lookup_lt_is_Some_2 (icache s) j Hi) as [p Hp]. by rewrite list_lookup_alter_eq, Hp.
  - by rewrite list_lookup_alter_ne.
Qed.

Definition caches_inode (p : inode) (dev inum : Z) : Prop :=
  0 < i_ref p /\ i_dev p = dev /\ i_inum p = inum.

(** At most one entry in use per inode, and no negative reference count. *)
Record icache_ok (l : list inode) : Prop := {
  ic_len : length l = NINODE;
  ic_ref : forall i p, l !! i = Some p -> 0 <= i_ref p;
  ic_uniq : forall i j p q dev inum, l !! i = Some p -> l !! j = Some q ->
    caches_inode p dev inum -> caches_inode q dev inum -> i = j
}.

Lemma caches_inode_test p dev inum :
  (0 <? i_ref p) && (i_dev p =? dev) && (i_inum p =? inum) = true <-> caches_inode p dev inum.
Proof. unfold caches_inode. rewrite !andb_true_iff, Z.ltb_lt, !Z.eqb_eq. tauto. Qed.

(** What the loop of [iget] finds. *)
Lemma iget_scan_spec l i dev inum empty :
  match iget_scan l i dev inum empty with
  | inl j => exists p, l !! (j - i)%nat = Some p /\ (i <= j)%nat /\ caches_inode p dev inum
  | inr e =>
      (forall k p, l !! k = Some p -> ~ caches_inode p dev inum) /\
      match empty with
      | Some e0 => e = Some e0
      | None =>
          match e with
          | Some j => exists p, l !! (j - i)%nat = Some p /\ (i <= j)%nat /\ i_ref p = 0
          | None => forall k p, l !! k = Some p -> i_ref p <> 0
          end
      end
  end.
Proof.
  revert i empty. induction l as [|p l IH]; intros i empty; simpl.
  - split; [intros k p; by rewrite lookup_nil|]. destruct empty; [done|]. intros k p; by rewrite lookup_nil.
  - destruct (_ && _ && _) eqn:E.
    + apply caches_inode_test in E. exists p. rewrite Nat.sub_diag. split_and!; [done|lia|done].
    + assert (~ caches_inode p dev inum) as Hn by (rewrite <- caches_inode_test, E; done).
      set (e1 := match empty with Some e => Some e | None => if i_ref p =? 0 then Some i else None end).
      specialize (IH (S i) e1). destruct (iget_scan l (S i) dev inum e1) as [j|e].
      * destruct IH as (q & Hq & Hj & Hc). exists q. replace (j - i)%nat with (S (j - S i)) by lia.
        split_and!; [done|lia|done].
      * destruct IH as [Hall He]. split.
        { intros [|k] q; simpl; [by intros [= <-]|apply Hall]. }
        unfold e1 in He. destruct empty as [e0|]; [done|].
        destruct (Z.eqb_spec (i_ref p) 0) as [E0|E0].
        -- subst e. exists p. rewrite Nat.sub_diag. split_and!; [done|lia|done].
        -- destruct e as [j|].
           ++ destruct He as (q & Hq & Hj & Hc). exists q. replace (j - i)%nat with (S (j - S i)) by lia.
              split_and!; [done|lia|done].
           ++ intros [|k] q; simpl; [by intros [= <-]|apply He].
Qed.


Lemma icache_ok_alter l i p p' :
  icache_ok l -> l !! i = Some p -> 0 <= i_ref p' ->
  (forall j q dev inum, j <> i -> l !! j = Some q -> caches_inode p' dev inum -> ~ caches_inode q dev inum) ->
  icache_ok (<[i := p']> l).
Proof.
  intros [Hl Hr Hu] Hi Hr' Hother. pose proof (lookup_lt_Some _ _ _ Hi) as Hlt.
  split; [by rewrite length_insert|..].
  - intros j q. destruct (decide (i = j)) as [<-|].
    + rewrite list_lookup_insert_eq by done. by intros [= <-].
    + rewrite list_lookup_insert_ne by done. apply Hr.
  - intros j k q q' dev inum. destruct (decide (i = j)) as [<-|], (decide (i = k)) as [<-|]; [done|..].
    + rewrite list_lookup_insert_eq, list_lookup_insert_ne by done. intros [= <-] Hk Hc Hc'.
      by destruct (Hother k q' dev inum).
    + rewrite list_lookup_insert_ne, list_lookup_insert_eq by done. intros Hj [= <-] Hc Hc'.
      by destruct (Hother j q dev inum).
    + rewrite !list_lookup_insert_ne by done. apply Hu.
Qed.

(** Changing an entry without giving it a new identity. *)
Lemma icache_ok_keep l i p p' :
  icache_ok l -> l !! i = Some p -> 0 <= i_ref p' ->
  i_dev p' = i_dev p -> i_inum p' = i_inum p -> (0 < i_ref p' -> 0 < i_ref p) -> icache_ok (<[i := p']> l).
Proof.
  intros Hok Hi Hr Hdev Hin Href. eapply icache_ok_alter; try done.
  intros j q dev inum Hne Hj (Hr' & Hd & Hn) Hc. apply Hne.
  apply (ic_uniq _ Hok j i q p dev inum); try done. unfold caches_inode. rewrite <- Hdev, <- Hin. auto.
Qed.

Lemma alter_insert_list (l : list inode) i f p : l !! i = Some p -> alter f i l = <[i := f p]> l.
Proof.
  intros Hi. apply list_eq. intros j. destruct (decide (i = j)) as [<-|].
  - rewrite list_lookup_alter_eq, list_lookup_insert_eq by (by eapply lookup_lt_Some). by rewrite Hi.
  - by rewrite list_lookup_alter_ne, list_lookup_insert_ne.
Qed.

Lemma inode_at_some ip s p : icache s !! ip = Some p -> inode_at ip s = p.
Proof. intros Hp. unfold inode_at. by rewrite Hp. Qed.

(** [iget] yields the entry of the inode with one more reference: the entry
    already in use if there is one, else a free one, marked not yet read. *)
Lemma iget_spec s dev inum :
  icache_ok (icache s) ->
  (exists i p, icache s !! i = Some p /\ (caches_inode p dev inum \/ i_ref p = 0)) ->
  wp (iget dev inum) (fun ip s' => exists p p', icache s !! ip = Some p /\
    s' = on_inode ip (fun _ => p') s /\ icache_ok (icache s') /\ caches_inode p' dev inum /\
    ((caches_inode p dev inum /\ p' = i_with_ref (i_ref p + 1) p) \/
     (i_ref p = 0 /\ i_ref p' = 1 /\ i_flags p' = 0 /\
      forall j q, icache s !! j = Some q -> ~ caches_inode q dev inum))) s.
Proof.
  intros Hok (i0 & p0 & Hi0 & Hor). unfold iget. apply wp_bind, wp_gets.
  pose proof (iget_scan_spec (icache s) 0 dev inum None) as Hscan.
  destruct (iget_scan _ _ _ _ _) as [ip|e].
  - destruct Hscan as (p & Hp & _ & Hc). rewrite Nat.sub_0_r in Hp. pose proof Hc as (Hr & Hd & Hn).
    apply wp_bind, wp_modify, wp_ret. exists p, (i_with_ref (i_ref p + 1) p). split; [done|].
    unfold on_inode. rewrite !(alter_insert_list _ _ _ p) by done. split; [done|]. cbn [icache].
    split; [by apply (icache_ok_keep _ _ p); simpl; try done; lia|].
    split; [unfold caches_inode; simpl; split_and!; [lia|done..]|by left].
  - destruct Hscan as [Hnone He]. destruct e as [ip|]; [|by destruct Hor as [?|?]; [destruct (Hnone i0 p0)|destruct (He i0 p0)]].
    destruct He as (p & Hp & _ & Hr). rewrite Nat.sub_0_r in Hp.
    apply wp_bind, wp_modify, wp_ret.
    set (p' := Inode dev inum 1 0 (i_type p) (i_major p) (i_minor p) (i_nlink p) (i_size p) (i_addrs p)).
    exists p, p'. split; [done|]. unfold on_inode. rewrite !(alter_insert_list _ _ _ p) by done.
    split; [done|]. cbn [icache]. split; [|split; [done|by right]].
    apply (icache_ok_alter _ _ p); simpl; try done.
    intros j q dev' inum' Hne Hj (_ & Hd & Hn). simpl in Hd, Hn. subst. by apply Hnone with j.
Qed.

(** It gives up only when every entry is in use for another inode. *)
Lemma iget_full s dev inum :
  icache_ok (icache s) ->
  (forall i p, icache s !! i = Some p -> 0 < i_ref p /\ ~ caches_inode p dev inum) ->
  iget dev inum s = Panic "iget: no inodes".
Proof.
  intros Hok Hall. unfold iget, bind, gets.
  pose proof (iget_scan_spec (icache s) 0 dev inum None) as Hscan.
  destruct (iget_scan _ _ _ _ _) as [ip|[ip|]]; [| |done].
  - destruct Hscan as (p & Hp & _ & Hc). rewrite Nat.sub_0_r in Hp. by destruct (Hall _ _ Hp).
  - destruct Hscan as [_ (p & Hp & _ & Hr)]. rewrite Nat.sub_0_r in Hp. destruct (Hall _ _ Hp). lia.
Qed.

Lemma idup_spec s ip p :
  icache_ok (icache s) -> icache s !! ip = Some p -> 0 < i_ref p ->
  wp (idup ip) (fun ip' s' => ip' = ip /\ s' = on_inode ip (fun _ => i_with_ref (i_ref p + 1) p) s /\
    icache_ok (icache s')) s.
Proof.
  intros Hok Hp Hr. apply wp_bind, wp_modify, wp_ret. split; [done|].
  unfold on_inode. rewrite !(alter_insert_list _ _ _ p) by done. split; [done|].
  apply (icache_ok_keep _ _ p); simpl; try done; lia.
Qed.

(** ** Locking *)

Lemma single_I_BUSY : single I_BUSY.
Proof. by exists 0. Qed.
Lemma single_I_VALID : single I_VALID.
Proof. by exists 1. Qed.

#[export] Hint Resolve single_I_BUSY single_I_VALID : kernel.

Lemma alter_alter_eq (l : list inode) i f g : alter f i (alter g i l) = alter (fun p => f (g p)) i l.
Proof.
  apply list_eq. intros j. destruct (decide (i = j)) as [<-|].
  - rewrite !list_lookup_alter_eq. by destruct (l !! i).
  - by rewrite !list_lookup_alter_ne.
Qed.

Lemma on_inode_twice ip f g s : on_inode ip f (on_inode ip g s) = on_inode ip (fun p => f (g p)) s.
Proof. unfold on_inode. simpl. by rewrite alter_alter_eq. Qed.

Lemma on_inode_const ip f s p : icache s !! ip = Some p -> on_inode ip f s = on_inode ip (fun _ => f p) s.
Proof. intros Hp. unfold on_inode. by rewrite !(alter_insert_list _ _ _ p). Qed.

(** A locked inode makes [ilock] wait without changing anything. *)
Lemma ilock_busy s ip p :
  icache s !! ip = Some p -> 0 < i_ref p -> has (i_flags p) I_BUSY = true ->
  ilock ip s = Sleep (ch_inode ip) s.
Proof.
  intros Hp Hr Hb. unfold ilock, bind, gets. rewrite (inode_at_some _ _ _ Hp), Hb.
  destruct (Z.ltb_spec (i_ref p) 1); [lia|done].
Qed.

(** An inode already read is just locked. *)
Lemma ilock_valid s ip p :
  icache s !! ip = Some p -> 0 < i_ref p -> has (i_flags p) I_BUSY = false -> has (i_flags p) I_VALID = true ->
  ilock ip s = Ok tt (on_inode ip (fun _ => i_with_flags (set_flag (i_flags p) I_BUSY) p) s).
Proof.
  intros Hp Hr Hb Hv. unfold ilock, bind, gets, modify. rewrite (inode_at_some _ _ _ Hp), Hb.
  destruct (Z.ltb_spec (i_ref p) 1); [lia|].
  rewrite (on_inode_const ip _ s p Hp).
  rewrite inode_at_on_inode by (by eapply lookup_lt_Some). rewrite decide_True by done. simpl.
  rewrite has_set_diff by (auto with kernel; done). by rewrite Hv.
Qed.

Lemma iunlock_spec s ip p :
  icache s !! ip = Some p -> 0 < i_ref p -> has (i_flags p) I_BUSY = true ->
  iunlock ip s = Ok tt (wake (ch_inode ip) (on_inode ip (fun _ => i_with_flags (clr_flag (i_flags p) I_BUSY) p) s)).
Proof.
  intros Hp Hr Hb. unfold iunlock, bind, gets, modify. rewrite (inode_at_some _ _ _ Hp), Hb.
  destruct (Z.ltb_spec (i_ref p) 1); [lia|]. simpl. by rewrite (on_inode_const ip _ s p Hp).
Qed.

(** Dropping a reference that is not the last one to an unlinked inode. *)
Lemma iput_keep s ip p :
  icache s !! ip = Some p -> i_ref p <> 1 \/ has (i_flags p) I_VALID = false \/ i_nlink p <> 0 ->
  iput ip s = Ok tt (on_inode ip (fun _ => i_with_ref (i_ref p - 1) p) s).
Proof.
  intros Hp Hor. unfold iput, bind, gets. rewrite (inode_at_some _ _ _ Hp).
  destruct (_ && _ && _) eqn:E.
  - rewrite !andb_true_iff, !Z.eqb_eq in E. destruct E as [[E1 E2] E3].
    destruct Hor as [|[|]]; congruence.
  - unfold ret, modify. by rewrite (on_inode_const ip _ s p Hp).
Qed.

(** ** Inodes on disk *)

Section Disk.
Context `{BS : BlockStore}.
Implicit Types (V : gmap Z block) (Hd : gmap nat held).

(** The inode stored under number [inum], with the identity of [q]. *)
Definition inode_on V (inum : Z) (q : inode) : option inode :=
  (fun d => get_dinode d (dinode_off inum) q) <$> V !! IBLOCK inum.

Lemma iupdate_store V Hd r s ip p d Q :
  bs_at V Hd (S r) s -> icache s !! ip = Some p -> inode_ok p -> i_dev p = ROOTDEV ->
  V !! IBLOCK (i_inum p) = Some d -> unheld Hd (IBLOCK (i_inum p)) -> (size Hd <= 3)%nat ->
  bs_writable (IBLOCK (i_inum p)) ->
  (forall s', bs_at (<[IBLOCK (i_inum p) := put_dinode p (dinode_off (i_inum p)) d]> V) Hd r s' ->
     icache s' = icache s -> Q tt s') ->
  wp (iupdate ip) Q s.
Proof.
  intros Hst Hp Hok Hdev HV Hun Hsz Hw HQ. unfold iupdate. apply wp_bind, wp_gets.
  rewrite (inode_at_some _ _ _ Hp), Hdev. eapply (update_block (put_dinode p _)); try done.
  pose proof (bs_block _ _ _ _ _ _ Hst HV) as Hb. apply put_dinode_block; [done| |apply Hok].
  destruct Hb as [-> _]. apply dinode_off_bound.
Qed.

(** After [iupdate] the disk holds the inode, and every other inode is what it
    was. *)
Lemma inode_on_update V p d inum q :
  V !! IBLOCK (i_inum p) = Some d -> is_block d -> inode_ok p ->
  inode_on (<[IBLOCK (i_inum p) := put_dinode p (dinode_off (i_inum p)) d]> V) inum q =
  if decide (inum = i_inum p) then Some (loaded q p) else inode_on V inum q.
Proof.
  intros HV [Hl Hb] Hok. pose proof (dinode_off_bound (i_inum p)) as Ho. unfold inode_on. case_decide as E.
  - subst. rewrite lookup_insert_eq. simpl. rewrite get_put_dinode; [done|done|by rewrite Hl].
  - destruct (decide (IBLOCK (i_inum p) = IBLOCK inum)) as [Eb|].
    + rewrite <- Eb, lookup_insert_eq, HV. simpl. rewrite get_put_dinode_ne; [done|apply Hok|by rewrite Hl|].
      destruct (dinode_apart inum (i_inum p)); [done|done|lia..].
    + by rewrite lookup_insert_ne.
Qed.

(** Locking an inode that has not been read loads it from the disk. *)
Lemma ilock_load V Hd r s ip p q Q :
  bs_at V Hd r s -> icache s !! ip = Some p -> 0 < i_ref p -> i_dev p = ROOTDEV -> i_flags p = 0 ->
  inode_on V (i_inum p) p = Some q -> i_type q <> 0 ->
  unheld Hd (IBLOCK (i_inum p)) -> (size Hd <= 3)%nat ->
  (forall s', bs_at V Hd r s' -> icache s' = <[ip := i_with_flags (Z.lor I_BUSY I_VALID) q]> (icache s) -> Q tt s') ->
  wp (ilock ip) Q s.
Proof.
  intros Hst Hp Hr Hdev Hf Hq Hty Hun Hsz HQ. pose proof (lookup_lt_Some _ _ _ Hp) as Hlt.
  unfold inode_on in Hq. destruct (V !! IBLOCK (i_inum p)) as [d|] eqn:HV; [|done]. injection Hq as Hq.
  unfold ilock. apply wp_bind, wp_gets. rewrite (inode_at_some _ _ _ Hp), Hf.
  destruct (Z.ltb_spec (i_ref p) 1); [lia|]. change (has 0 I_BUSY) with false. cbv iota.
  apply wp_bind, wp_modify. rewrite (on_inode_const ip _ s p Hp), Hf. set (s1 := on_inode ip _ s).
  assert (icache s1 !! ip = Some (i_with_flags I_BUSY p)) as Hp1.
  { unfold s1, on_inode. simpl. rewrite (alter_insert_list _ _ _ p) by done. by apply list_lookup_insert_eq. }
  apply wp_bind, wp_gets. rewrite (inode_at_some _ _ _ Hp1). cbn [i_flags i_with_flags i_dev i_inum].
  change (has I_BUSY I_VALID) with false. cbv iota. rewrite Hdev.
  apply wp_bind. eapply wp_mono; [apply (bs_bread V Hd r s1 _ d); try done; by apply bs_icache|].
  intros bp s2 (Hbp & I2 & dirty & H2). apply wp_bind, wp_gets.
  unfold data_of. rewrite (bs_data _ _ _ _ bp _ H2 (lookup_insert_eq _ _ _)). cbn [h_data].
  rewrite <- I2 in Hp1. apply wp_bind, wp_modify. rewrite (on_inode_const ip _ s2 _ Hp1).
  set (q1 := get_dinode d (dinode_off (i_inum p)) (i_with_flags I_BUSY p)).
  apply wp_bind. eapply wp_mono.
  { eapply (bs_brelse V _ r _ bp _ (bs_icache _ _ _ _ _ H2)), lookup_insert_eq. }
  intros [] s3 [H3 I3]. rewrite delete_insert_id in H3 by done.
  assert (icache s3 !! ip = Some q1) as Hp3.
  { rewrite I3. simpl. rewrite (alter_insert_list _ _ _ _ Hp1). apply list_lookup_insert_eq. by eapply lookup_lt_Some. }
  apply wp_bind, wp_modify. rewrite (on_inode_const ip _ s3 _ Hp3).
  apply wp_bind, wp_gets. rewrite inode_at_on_inode by (by eapply lookup_lt_Some). rewrite decide_True by done.
  assert (i_type q1 = i_type q) as Et by (by rewrite <- Hq). cbn [i_type i_with_flags]. rewrite Et.
  destruct (Z.eqb_spec (i_type q) 0); [done|]. apply wp_ret, HQ; [by apply bs_icache|].
  simpl. rewrite (alter_insert_list _ _ _ _ Hp3), I3. simpl. rewrite (alter_insert_list _ _ _ _ Hp1), I2. simpl.
  rewrite (alter_insert_list _ _ _ _ Hp), !list_insert_insert_eq. f_equal. by rewrite <- Hq.
Qed.

(** ** [ialloc] *)

(** A fresh dinode of the given type. *)
Definition fresh_dinode (inum type : Z) (d : block) : block :=
  st16 (splice d (dinode_off inum) (replicate (Z.to_nat DINODE_SIZE) 0)) (dinode_off inum) type.

Definition type_on V (inum : Z) : option Z := i_type <$> inode_on V inum zero_inode.

Lemma fresh_dinode_block inum type d : is_block d -> is_block (fresh_dinode inum type d).
Proof.
  intros [Hl Hb]. pose proof (dinode_off_bound inum) as Ho. unfold fresh_dinode, st16.
  assert (dinode_off inum + length (replicate (Z.to_nat DINODE_SIZE) 0) <= length d)%nat as Hle
    by (rewrite length_replicate, Hl; exact Ho).
  split.
  - rewrite length_st, length_splice; try done. rewrite length_splice, Hl by done. lia.
  - apply st_bytes, splice_bytes; [done|]. apply Forall_replicate. lia.
Qed.

Lemma fresh_dinode_same inum type d q :
  is_block d -> - 2 ^ 15 <= type < 2 ^ 15 ->
  get_dinode (fresh_dinode inum type d) (dinode_off inum) q =
  loaded q (Inode 0 0 0 0 type 0 0 0 0 (replicate 13 0)).
Proof.
  intros [Hl _] Ht. pose proof (dinode_off_bound inum) as Ho.
  set (o := dinode_off inum) in *. change BSIZE with 512 in *. unfold fresh_dinode. fold o.
  change (Z.to_nat DINODE_SIZE) with 64%nat.
  set (z := splice d o (replicate 64 0)).
  assert (length z = length d) as Hz by (apply length_splice; rewrite length_replicate; lia).
  assert (forall a n, (a + n <= 64)%nat -> slice z (o + a) n = replicate n 0) as Hzero.
  { intros a n Ha. unfold z. rewrite slice_splice_in by (rewrite length_replicate; lia).
    unfold slice. rewrite drop_replicate, take_replicate. f_equal. lia. }
  assert (forall a n, (2 <= a)%nat -> (a + n <= 64)%nat -> ld n (st16 z o type) (o + a) = unle (replicate n 0)) as Hf.
  { intros a n H2 Ha. unfold st16. rewrite ld_st_ne by lia. unfold ld. by rewrite Hzero by lia. }
  unfold get_dinode, loaded. f_equal.
  - unfold ld16, st16. rewrite ld_st_eq by lia. rewrite s16_wrap. by apply s16_small.
  - unfold ld16. by rewrite (Hf 2%nat 2%nat) by lia.
  - unfold ld16. by rewrite (Hf 4%nat 2%nat) by lia.
  - unfold ld16. by rewrite (Hf 6%nat 2%nat) by lia.
  - unfold ld32. by rewrite (Hf 8%nat 4%nat) by lia.
  - unfold decode_addrs. cbn [i_addrs]. change (Z.to_nat NDIRECT + 1)%nat with 13%nat. apply list_eq. intros k.
    rewrite list_lookup_fmap. destruct (decide (k < 13)%nat).
    + rewrite lookup_seq_lt, lookup_replicate_2 by done.
      change (Some (ld32 (st16 z o type) (o + 12 + 4 * k)) = Some 0). f_equal. unfold ld32.
      replace (o + 12 + 4 * k)%nat with (o + (12 + 4 * k))%nat by lia.
      by rewrite (Hf (12 + 4 * k)%nat 4%nat) by lia.
    + rewrite lookup_seq_ge by lia. symmetry. apply lookup_replicate_None. lia.
Qed.

Lemma fresh_dinode_ne inum type d o q :
  is_block d -> (o + 64 <= dinode_off inum \/ dinode_off inum + 64 <= o)%nat ->
  get_dinode (fresh_dinode inum type d) o q = get_dinode d o q.
Proof.
  intros [Hl _] Hd. pose proof (dinode_off_bound inum) as Ho. rewrite <- Hl in Ho. apply get_dinode_ext.
  intros a n Ha Hn. unfold fresh_dinode, st16, st. change (Z.to_nat DINODE_SIZE) with 64%nat.
  rewrite !slice_splice_ne; try done; rewrite ?length_replicate, ?length_le; try lia.
  rewrite length_splice; rewrite ?length_replicate; lia.
Qed.

(** The inode table is there and not in use. *)
Definition itable V sb Hd : Prop :=
  forall i, 1 <= i < sb_ninodes sb -> is_Some (V !! IBLOCK i) /\ bs_writable (IBLOCK i) /\ unheld Hd (IBLOCK i).

Definition lowest_inode V sb (inum : Z) : Prop :=
  1 <= inum < sb_ninodes sb /\ type_on V inum = Some 0 /\
  forall i, 1 <= i < inum -> type_on V i <> Some 0.

Lemma type_on_at V i d : V !! IBLOCK i = Some d -> type_on V i = Some (s16 (ld16 d (dinode_off i))).
Proof. intros HV. unfold type_on, inode_on. by rewrite HV. Qed.

(** [ialloc] claims the first free inode: it is on disk with its type and
    nothing else, every other inode is unchanged, and the caller gets a
    reference to it. *)
Lemma ialloc_spec V sb Hd r s type inum0 :
  image V sb -> itable V sb Hd -> unheld Hd 1 -> (size Hd <= 3)%nat -> bs_at V Hd (S r) s ->
  - 2 ^ 15 <= type < 2 ^ 15 -> icache_ok (icache s) -> (exists i p, icache s !! i = Some p /\ i_ref p = 0) ->
  1 <= inum0 < sb_ninodes sb -> type_on V inum0 = Some 0 ->
  wp (ialloc ROOTDEV type) (fun ip s' => exists inum d p, lowest_inode V sb inum /\
    V !! IBLOCK inum = Some d /\ bs_at (<[IBLOCK inum := fresh_dinode inum type d]> V) Hd r s' /\
    icache s' !! ip = Some p /\ caches_inode p ROOTDEV inum /\ icache_ok (icache s')) s.
Proof.
  intros Him Hit Hu1 Hsz Hst Hty Hok Hfree Hi0 Ht0. unfold ialloc. apply wp_bind.
  eapply readsb_store; try done. intros s1 H1 I1. apply wp_bind.
  eapply (wp_first (fun n s' => bs_at V Hd (S r) s' /\ icache s' = icache s /\
    forall i, 1 <= i < 1 + Z.of_nat n -> type_on V i <> Some 0)).
  - split; [done|]. split; [congruence|lia].
  - intros n k s2 [-> Hn]%lookup_seq (H2 & I2 & Hall). set (inum := Z.of_nat (1 + n)).
    destruct (Hit inum ltac:(lia)) as ([d HV] & Hw & Hun).
    apply wp_bind. eapply wp_mono; [by apply (bs_bread V Hd (S r) s2 _ d)|].
    intros bp s3 (Hbp & I3 & dirty & H3). cbv zeta. apply wp_bind, wp_gets.
    unfold data_of. rewrite (bs_data _ _ _ _ bp _ H3 (lookup_insert_eq _ _ _)). cbn [h_data].
    pose proof (type_on_at V inum d HV) as Htd.
    destruct (Z.eqb_spec (s16 (ld16 d (dinode_off inum))) 0) as [E|E].
    + unfold set_data. apply wp_assoc, wp_bind.
      eapply wp_mono; [eapply (bs_log_write _ _ _ _ bp _ (fresh_dinode inum type) H3 (lookup_insert_eq _ _ _))|].
      { apply fresh_dinode_block. by eapply bs_block. }
      { done. }
      cbn [h_sector h_data]. intros [] s4 [H4 I4]. rewrite insert_insert_eq in H4.
      apply wp_bind. eapply wp_mono; [eapply (bs_brelse _ _ _ _ bp _ H4 (lookup_insert_eq _ _ _))|].
      intros [] s5 [H5 I5]. rewrite delete_insert_id in H5 by done.
      assert (icache s5 = icache s) as I by congruence. apply wp_bind.
      eapply wp_mono; [apply (iget_spec s5 ROOTDEV inum); rewrite I; [done|]|].
      { destruct Hfree as (i & p & Hp & Hr). exists i, p. auto. }
      intros ip s6 (p & p' & Hp & -> & Hok' & Hc & _). apply wp_ret, wp_ret. exists inum, d, p'.
      split; [split; [lia|]; split; [congruence|intros i Hi; apply Hall; lia]|].
      split; [done|]. split; [by apply (bs_icache _ _ _ s5 (alter (fun _ => p') ip (icache s5)))|].
      split; [|done]. simpl. by rewrite list_lookup_alter_eq, Hp.
    + apply wp_bind. eapply wp_mono; [eapply (bs_brelse _ _ _ _ bp _ H3 (lookup_insert_eq _ _ _))|].
      intros [] s4 [H4 I4]. rewrite delete_insert_id in H4 by done. apply wp_ret.
      split; [done|]. split; [congruence|]. intros i Hi.
      destruct (decide (i = inum)) as [->|]; [congruence|]. apply Hall. lia.
  - intros s2 (_ & _ & Hall). rewrite length_seq in Hall. by destruct (Hall inum0); [lia|].
Qed.
End Disk.
