(* ===== verification/FsFile.v ===== *)
(** * File contents ([bmap], [readi] and [writei] of [fs.c])

    A file is the sequence of bytes its inode's block map leads to.  [readi]
    returns a stretch of it, [writei] overwrites one, and [bmap] allocates what
    is missing without disturbing any other block. *)

From S2P Require Import Prelude Bytes Params FsState Bio Log Store Fs FsAlloc FsInode.

(** ** The block map *)

Definition ind (p : inode) : Z := addr_of p (Z.to_nat NDIRECT).

(** The block that holds block [bn] of the file; 0 if there is none. *)
Definition block_of (V : gmap Z block) (p : inode) (bn : Z) : Z :=
  if bn <? NDIRECT then addr_of p (Z.to_nat bn)
  else if ind p =? 0 then 0
  else match V !! ind p with
       | Some a => ld32 a (4 * Z.to_nat (bn - NDIRECT))
       | None => 0
       end.

(** The byte of the file at offset [i]. *)
Definition file_byte (V : gmap Z block) (p : inode) (i : Z) : Z :=
  match V !! block_of V p (i / BSIZE) with
  | Some d => nth (Z.to_nat (i mod BSIZE)) d 0
  | None => 0
  end.

(** The bytes [off, off + n) of the file. *)
Definition file_bytes (V : gmap Z block) (p : inode) (off n : Z) : list Z :=
  (fun k => file_byte V p (off + Z.of_nat k)) <$> upto n.

Lemma BSIZE_bound i : 0 <= i mod BSIZE < BSIZE.
Proof. apply Z.mod_pos_bound. unfold BSIZE. lia. Qed.

Lemma block_end_mod off : (off + (BSIZE - off mod BSIZE)) mod BSIZE = 0.
Proof.
  replace (off + (BSIZE - off mod BSIZE)) with ((off / BSIZE + 1) * BSIZE); [apply Z.mod_mul; unfold BSIZE; lia|].
  pose proof (Z.div_mod off BSIZE ltac:(unfold BSIZE; lia)). lia.
Qed.

(** The bytes of one block. *)
Lemma file_bytes_block V p off m d :
  0 <= off -> V !! block_of V p (off / BSIZE) = Some d -> length d = Z.to_nat BSIZE ->
  0 <= m -> off mod BSIZE + m <= BSIZE ->
  file_bytes V p off m = slice d (Z.to_nat (off mod BSIZE)) (Z.to_nat m).
Proof.
  intros Ho HV Hl Hm Hb. pose proof (BSIZE_bound off) as Hbo. apply list_eq. intros k.
  unfold file_bytes, slice. rewrite list_lookup_fmap.
  destruct (decide (k < Z.to_nat m)%nat) as [Hk|Hk].
  - unfold upto. rewrite lookup_seq_lt, lookup_take_lt, lookup_drop by lia.
    change (Some (file_byte V p (off + Z.of_nat k)) = d !! (Z.to_nat (off mod BSIZE) + k)%nat).
    assert ((off + Z.of_nat k) / BSIZE = off / BSIZE /\ (off + Z.of_nat k) mod BSIZE = off mod BSIZE + Z.of_nat k)
      as [Eq Em].
    { pose proof (Z.div_mod off BSIZE ltac:(unfold BSIZE; lia)).
      pose proof (Z.div_mod (off + Z.of_nat k) BSIZE ltac:(unfold BSIZE; lia)).
      pose proof (BSIZE_bound (off + Z.of_nat k)).
      assert ((off + Z.of_nat k) / BSIZE = off / BSIZE); [|unfold BSIZE in *; lia].
      unfold BSIZE in *. lia. }
    unfold file_byte. rewrite Eq, Em, HV. rewrite nth_lookup.
    replace (Z.to_nat (off mod BSIZE + Z.of_nat k)) with (Z.to_nat (off mod BSIZE) + k)%nat by lia.
    destruct (lookup_lt_is_Some_2 d (Z.to_nat (off mod BSIZE) + k)) as [x ->]; [lia|done].
  - unfold upto. rewrite lookup_seq_ge, lookup_take_ge by lia. done.
Qed.

Lemma file_bytes_app V p off m n :
  0 <= m -> 0 <= n -> file_bytes V p off (m + n) = file_bytes V p off m ++ file_bytes V p (off + m) n.
Proof.
  intros Hm Hn. unfold file_bytes, upto. rewrite Z2Nat.inj_add, seq_app, fmap_app by done. f_equal.
  apply list_eq. intros k. rewrite !list_lookup_fmap. destruct (decide (k < Z.to_nat n)%nat).
  - rewrite !lookup_seq_lt by done. simpl. do 2 f_equal. lia.
  - by rewrite !lookup_seq_ge by lia.
Qed.

Lemma length_file_bytes V p off n : length (file_bytes V p off n) = Z.to_nat n.
Proof. unfold file_bytes. by rewrite length_fmap, length_upto. Qed.

Lemma MAXFILE_bytes : MAXFILE * BSIZE = 71680.
Proof. done. Qed.

Section File.
Context `{BS : BlockStore}.
Implicit Types (V : gmap Z block) (Hd : gmap nat held) (p : inode).

(** Looking up a block that is there reads at most the indirect block. *)
Lemma bmap_hit V Hd r s ip p bn Q :
  bs_at V Hd r s -> icache s !! ip = Some p -> i_dev p = ROOTDEV -> 0 <= bn < MAXFILE ->
  block_of V p bn <> 0 -> unheld Hd (ind p) -> (size Hd <= 3)%nat ->
  (forall s', bs_at V Hd r s' -> icache s' = icache s -> Q (block_of V p bn) s') ->
  wp (bmap ip bn) Q s.
Proof.
  intros Hst Hp Hdev Hbn Hne Hun Hsz HQ. unfold bmap. apply wp_bind, wp_gets.
  rewrite (inode_at_some _ _ _ Hp). unfold block_of in *.
  destruct (Z.ltb_spec bn NDIRECT) as [Hlt|Hge].
  - destruct (Z.eqb_spec (addr_of p (Z.to_nat bn)) 0); [done|]. by apply wp_ret, HQ.
  - destruct (Z.ltb_spec (bn - NDIRECT) NINDIRECT); [|unfold MAXFILE in *; lia].
    fold (ind p). destruct (Z.eqb_spec (ind p) 0); [done|]. destruct (V !! ind p) as [a|] eqn:HV; [|done].
    apply wp_bind, wp_ret, wp_bind. rewrite Hdev. eapply wp_mono; [by apply (bs_bread V Hd r s _ a)|].
    intros bp s1 (Hbp & I1 & dirty & H1). apply wp_bind, wp_gets.
    unfold data_of. rewrite (bs_data _ _ _ _ bp _ H1 (lookup_insert_eq _ _ _)). cbn [h_data].
    destruct (Z.eqb_spec (ld32 a (4 * Z.to_nat (bn - NDIRECT))) 0); [done|].
    apply wp_bind, wp_ret, wp_bind.
    eapply wp_mono; [eapply (bs_brelse _ _ _ _ bp _ H1 (lookup_insert_eq _ _ _))|].
    intros [] s2 [H2 I2]. rewrite delete_insert_id in H2 by done. apply wp_ret, HQ; [done|congruence].
Qed.

(** Every block of the stretch is there. *)
Definition present V p (off n : Z) : Prop :=
  forall i, off <= i < off + n -> block_of V p (i / BSIZE) <> 0 /\
    exists d, V !! block_of V p (i / BSIZE) = Some d.

Lemma readi_loop_spec V Hd r ip p fuel off left acc s :
  bs_at V Hd r s -> icache s !! ip = Some p -> i_dev p = ROOTDEV ->
  0 <= off -> 0 <= left -> off + left <= MAXFILE * BSIZE -> present V p off left ->
  unheld Hd (ind p) -> (forall i, off <= i < off + left -> unheld Hd (block_of V p (i / BSIZE))) ->
  (size Hd <= 3)%nat -> left <= (Z.of_nat fuel - 1) * BSIZE + (BSIZE - off mod BSIZE) \/ left = 0 ->
  wp (readi_loop fuel ip off left acc) (fun data s' =>
    data = acc ++ file_bytes V p off left /\ bs_at V Hd r s' /\ icache s' = icache s) s.
Proof.
  revert off left acc s. induction fuel as [|f IH]; intros off left acc s Hst Hp Hdev Ho Hl Hmax Hpre Hun Hunb Hsz Hf.
  { pose proof (BSIZE_bound off). assert (left = 0) as -> by (unfold BSIZE in *; lia).
    apply wp_ret. split; [by rewrite app_nil_r|done]. }
  cbn [readi_loop]. destruct (Z.leb_spec left 0) as [Hle|Hgt].
  { assert (left = 0) as -> by lia. apply wp_ret. split; [by rewrite app_nil_r|done]. }
  pose proof (BSIZE_bound off) as Hbo. destruct (Hpre off ltac:(lia)) as [Hne [d HV]].
  assert (0 <= off / BSIZE < MAXFILE) as Hbn.
  { split; [apply Z.div_pos; unfold BSIZE; lia|]. apply Z.div_lt_upper_bound; unfold BSIZE in *; lia. }
  apply wp_bind. eapply bmap_hit; try done. intros s1 H1 I1. apply wp_bind, wp_gets.
  rewrite (inode_at_some ip s1 p) by congruence. rewrite Hdev. apply wp_bind.
  eapply wp_mono; [apply (bs_bread V Hd r s1 _ d); try done; apply Hunb; lia|].
  intros bp s2 (Hbp & I2 & dirty & H2). cbv zeta. apply wp_bind, wp_gets.
  unfold data_of. rewrite (bs_data _ _ _ _ bp _ H2 (lookup_insert_eq _ _ _)). cbn [h_data].
  apply wp_bind. eapply wp_mono; [eapply (bs_brelse _ _ _ _ bp _ H2 (lookup_insert_eq _ _ _))|].
  intros [] s3 [H3 I3]. rewrite delete_insert_id in H3 by done.
  set (m := Z.min left (BSIZE - off mod BSIZE)). assert (0 < m <= left) as Hm by (unfold m; lia).
  assert (u32 (off + m) = off + m) as -> by (apply u32_small; rewrite MAXFILE_bytes in Hmax; lia).
  eapply wp_mono; [apply (IH (off + m) (left - m)); try done; try lia|].
  - congruence.
  - intros i Hi. apply Hpre. lia.
  - intros i Hi. apply Hunb. lia.
  - unfold m. destruct (Z.min_spec left (BSIZE - off mod BSIZE)) as [[? ->]|[? ->]]; [right; lia|left].
    rewrite block_end_mod. destruct Hf; lia.
  - intros data s4 (-> & H4 & I4). split; [|split; [done|congruence]].
    rewrite <- app_assoc. f_equal. replace left with (m + (left - m)) at 2 by lia.
    rewrite file_bytes_app by lia. f_equal.
    pose proof (bs_block _ _ _ _ _ _ Hst HV) as [Hlen _]. symmetry. apply file_bytes_block; try done; unfold m; lia.
Qed.

(** A regular file or directory whose blocks are all there. *)
Record dense V Hd p : Prop := {
  de_dev : i_dev p = ROOTDEV;
  de_type : i_type p <> T_DEV;
  de_size : 0 <= i_size p <= MAXFILE * BSIZE;
  de_pres : present V p 0 (i_size p);
  de_ind : unheld Hd (ind p);
  de_free : forall i, 0 <= i < i_size p -> unheld Hd (block_of V p (i / BSIZE))
}.

Lemma io_fuel_enough n off : 0 <= n -> n <= (Z.of_nat (io_fuel n) - 1) * BSIZE + (BSIZE - off mod BSIZE).
Proof.
  intros Hn. unfold io_fuel. pose proof (Z.div_pos n BSIZE Hn ltac:(unfold BSIZE; lia)).
  rewrite Z2Nat.id by lia. pose proof (Z.div_mod n BSIZE ltac:(unfold BSIZE; lia)).
  pose proof (BSIZE_bound n). pose proof (BSIZE_bound off). unfold BSIZE in *. lia.
Qed.

(** [readi] returns the bytes of the file from [off] on, up to [n] of them and
    up to the end of the file. *)
Lemma readi_spec dv V Hd r s ip p off n :
  bs_at V Hd r s -> icache s !! ip = Some p -> dense V Hd p -> (size Hd <= 3)%nat ->
  0 <= off <= i_size p -> 0 <= n -> off + n < 2 ^ 32 ->
  wp (readi dv ip off n) (fun x s' => let m := Z.min n (i_size p - off) in
    x = (m, file_bytes V p off m) /\ bs_at V Hd r s' /\ icache s' = icache s) s.
Proof.
  intros Hst Hp [Hdev Hty Hsize Hpre Hind Hun] Hsz Ho Hn Hov. unfold readi. apply wp_bind, wp_gets.
  rewrite (inode_at_some _ _ _ Hp). destruct (Z.eqb_spec (i_type p) T_DEV); [done|].
  rewrite (u32_small (off + n)) by lia.
  destruct (Z.ltb_spec (i_size p) off); [lia|]. destruct (Z.ltb_spec (off + n) off); [lia|]. simpl orb. cbv iota zeta.
  replace (if i_size p <? off + n then i_size p - off else n) with (Z.min n (i_size p - off))
    by (destruct (Z.ltb_spec (i_size p) (off + n)); lia).
  set (m := Z.min n (i_size p - off)). assert (0 <= m /\ off + m <= i_size p) as [Hm Hm'] by (unfold m; lia).
  apply wp_bind. eapply wp_mono; [eapply (readi_loop_spec V Hd r ip p); try done; try lia|].
  - intros i Hi. apply Hpre. lia.
  - intros i Hi. apply Hun. lia.
  - left. by apply io_fuel_enough.
  - intros data s1 (-> & H1 & I1). apply wp_ret. split; [|done].
    rewrite s32_small by (rewrite MAXFILE_bytes in Hsize; lia). done.
Qed.

(** Reading past the end, or a range that wraps around, is refused. *)
Lemma readi_range dv s ip p off n :
  icache s !! ip = Some p -> i_type p <> T_DEV -> i_size p < off \/ u32 (off + n) < off ->
  readi dv ip off n s = Ok (-1, []) s.
Proof.
  intros Hp Hty Hor. unfold readi, bind, gets. rewrite (inode_at_some _ _ _ Hp).
  destruct (Z.eqb_spec (i_type p) T_DEV); [done|].
  destruct (Z.ltb_spec (i_size p) off); [done|]. destruct (Z.ltb_spec (u32 (off + n)) off); [done|lia].
Qed.
End File.
