(* ===== verification/FsWrite.v ===== *)
(** * Growing and writing files ([bmap] and [writei] of [fs.c])

    [bmap] gives a file the block it lacks, and [writei] overwrites or extends
    a file; both leave every other block of the disk as it was. *)

From S2P Require Import Prelude Bytes Params FsState Bio Log Store Fs FsAlloc FsInode FsFile.

Section Write.
Context `{BS : BlockStore}.
Implicit Types (V : gmap Z block) (Hd : gmap nat held) (p : inode) (sb : superblock).

(** ** Blocks that belong to someone *)

(** In use, and not part of the bitmap. *)
Definition kept V sb (x : Z) : Prop :=
  (0 <= x < sb_size sb -> used V sb x = true) /\
  forall b, 0 <= b < sb_size sb -> x <> BBLOCK b (sb_ninodes sb).

(** An allocated block of the data area. *)
Record data_block V sb (x : Z) : Prop := {
  db_range : 0 < x < sb_size sb;
  db_kept : kept V sb x;
  db_some : is_Some (V !! x);
  db_ok : bs_writable x /\ x <> 1
}.

(** At least [k] blocks are free. *)
Definition has_free V sb (k : nat) : Prop :=
  exists l, NoDup l /\ length l = k /\ forall b, b ∈ l -> 0 <= b < sb_size sb /\ used V sb b = false.

(** The image with [k] free blocks, block 0 not among them, and [Hd] in use. *)
Record env_ok V sb (k : nat) Hd : Prop := {
  ev_image : image V sb;
  ev_zero : 0 < sb_size sb /\ used V sb 0 = true;
  ev_free : has_free V sb k;
  ev_apart : apart V sb Hd
}.

(** [b] has been allocated between [V] and [V'], and nothing else touched. *)
Record grown V V' sb (b : Z) : Prop := {
  gr_new : used V sb b = false;
  gr_data : data_block V' sb b;
  gr_zero : V' !! b = Some zero_block;
  gr_kept : forall x, kept V sb x -> V' !! x = V !! x /\ kept V' sb x /\ x <> b;
  gr_size : forall x, is_Some (V !! x) -> is_Some (V' !! x)
}.

Lemma data_grown V V' sb b x : grown V V' sb b -> data_block V sb x -> data_block V' sb x /\ x <> b /\ V' !! x = V !! x.
Proof.
  intros [_ _ _ Hk Hs] [Hr Hx HS Ho]. destruct (Hk x Hx) as (E & K & Hne).
  split; [|done]. split; try done. by apply Hs.
Qed.

Lemma image_blocks V Hd r s : bs_at V Hd r s -> forall sec d, V !! sec = Some d -> is_block d.
Proof. intros Hst sec d. by apply (bs_block V Hd r s). Qed.

Lemma has_free_some V sb k : has_free V sb (S k) -> exists b, 0 <= b < sb_size sb /\ used V sb b = false.
Proof.
  intros (l & _ & Hl & Hall). destruct l as [|b l]; [done|]. exists b. apply Hall. by left.
Qed.

(** Allocating takes one block out of the free ones. *)
Lemma allocated_env V sb k Hd b :
  (forall sec d, V !! sec = Some d -> is_block d) -> env_ok V sb (S k) Hd ->
  0 <= b < sb_size sb -> used V sb b = false ->
  env_ok (allocated V sb b) sb k Hd /\ grown V (allocated V sb b) sb b.
Proof.
  intros Hblk [Him [Hpos H0] (l & Hnd & Hl & Hall) Hap] Hb Hu.
  assert (forall x, 0 <= x < sb_size sb -> used (allocated V sb b) sb x = (b =? x) || used V sb x) as HU
    by (intros; by apply used_allocated).
  destruct (im_free _ _ Him b Hb Hu) as (HVb & Hw & H1 & Hnm).
  assert (b <> 0) as Hb0 by congruence.
  split; split.
  - by apply image_allocated.
  - split; [done|]. rewrite HU by lia. rewrite H0. apply orb_true_r.
  - destruct (decide (b ∈ l)) as [Hin|Hin].
    + apply list_elem_of_split in Hin as (l1 & l2 & ->). exists (l1 ++ l2).
      apply NoDup_app in Hnd as (N1 & N2 & N3). apply NoDup_cons in N3 as [N3 N4].
      rewrite length_app in *. simpl in Hl. split_and!; [|lia|].
      * apply NoDup_app. split_and!; try done. intros x Hx Hx'. apply (N2 x Hx). by right.
      * intros x Hx. assert (x ∈ l1 ++ b :: l2) as Hx' by (set_solver).
        destruct (Hall x Hx') as [Hr Hf]. split; [done|]. rewrite HU, Hf by done.
        destruct (Z.eqb_spec b x) as [<-|]; [|done]. exfalso.
        apply elem_of_app in Hx as [Hx|Hx]; [|done]. apply (N2 b Hx). by left.
    + destruct l as [|y l]; [done|]. exists l. apply NoDup_cons in Hnd as [_ Hnd]. simpl in Hl.
      split_and!; [done|lia|]. intros x Hx. destruct (Hall x ltac:(by right)) as [Hr Hf]. split; [done|].
      rewrite HU, Hf by done. destruct (Z.eqb_spec b x) as [<-|]; [|done]. exfalso. apply Hin. by right.
  - intros i h Hi. destruct (Hap i h Hi) as (A1 & A2 & A3). split_and!; try done. intros Hr.
    rewrite HU, A3 by done. apply orb_true_r.
  - done.
  - split; [lia| | |done].
    + split; [|done]. intros _. by rewrite HU, Z.eqb_refl.
    + unfold allocated. rewrite lookup_insert_eq. eauto.
  - unfold allocated. apply lookup_insert_eq.
  - intros x [Hx Hm]. assert (x <> b) as Hne by (intros ->; rewrite Hx in Hu; done). split_and!; [|split|done].
    + unfold allocated. rewrite lookup_insert_ne, lookup_alter_ne by (done || (intros E; by apply (Hm b))). done.
    + intros Hr. rewrite HU, Hx by done. apply orb_true_r.
    + done.
  - intros x Hx. unfold allocated. destruct (decide (b = x)) as [<-|]; [rewrite lookup_insert_eq; eauto|].
    rewrite lookup_insert_ne by done. by apply lookup_alter_is_Some.
Qed.

Lemma balloc_env V sb k Hd r s :
  bs_at V Hd (S (S r)) s -> env_ok V sb (S k) Hd -> (size Hd <= 3)%nat ->
  wp (balloc ROOTDEV) (fun b s' => exists V', bs_at V' Hd r s' /\ icache s' = icache s /\
    env_ok V' sb k Hd /\ grown V V' sb b) s.
Proof.
  intros Hst Henv Hsz. destruct (has_free_some _ _ _ (ev_free _ _ _ _ Henv)) as (b0 & Hb0 & Hu0).
  eapply wp_mono; [eapply (balloc_spec V sb Hd r s b0); try done; apply Henv|].
  intros b s' ((Hb & Hu & _) & H1 & I1). exists (allocated V sb b). split; [done|]. split; [done|].
  apply allocated_env; try done. by eapply image_blocks.
Qed.

Lemma image_width V sb : image V sb -> (forall sec d, V !! sec = Some d -> is_block d) -> sb_size sb < 2 ^ 32.
Proof.
  intros [(d & HV & <-) _ _ _] Hblk. destruct (Hblk _ _ HV) as [Hl Hb]. simpl.
  apply (ld_range 4); [done|]. rewrite Hl. unfold BSIZE. lia.
Qed.

(** ** Files *)

(** The blocks of a file are allocated data blocks, all different. *)
Record file_ok V sb p : Prop := {
  fk_inode : inode_ok p;
  fk_ind : ind p <> 0 -> data_block V sb (ind p);
  fk_blk : forall bn, 0 <= bn < MAXFILE -> block_of V p bn <> 0 ->
    data_block V sb (block_of V p bn) /\ block_of V p bn <> ind p;
  fk_inj : forall bn bn', 0 <= bn < MAXFILE -> 0 <= bn' < MAXFILE ->
    block_of V p bn <> 0 -> block_of V p bn = block_of V p bn' -> bn = bn'
}.

(** [b] is none of the file's blocks. *)
Definition fresh_for V p (b : Z) : Prop :=
  b <> ind p /\ forall bn, 0 <= bn < MAXFILE -> block_of V p bn <> b.

Lemma block_of_ext V V' p bn : V' !! ind p = V !! ind p -> block_of V' p bn = block_of V p bn.
Proof. intros E. unfold block_of. by rewrite E. Qed.

Lemma block_of_ext' V V' p bn : (ind p <> 0 -> V' !! ind p = V !! ind p) -> block_of V' p bn = block_of V p bn.
Proof. intros E. unfold block_of. destruct (Z.eqb_spec (ind p) 0); [done|]. by rewrite E. Qed.

Lemma file_grown V V' sb b p :
  file_ok V sb p -> grown V V' sb b ->
  file_ok V' sb p /\ (forall bn, block_of V' p bn = block_of V p bn) /\ fresh_for V' p b.
Proof.
  intros [Hi Hind Hblk Hinj] Hg.
  assert (forall bn, block_of V' p bn = block_of V p bn) as E.
  { intros bn. apply block_of_ext'. intros Hne. by apply (data_grown _ _ _ _ _ Hg), Hind. }
  pose proof (db_range _ _ _ (gr_data _ _ _ _ Hg)) as Hb.
  split; [split|split]; try done.
  - intros Hne. by apply (data_grown _ _ _ _ _ Hg), Hind.
  - intros bn Hbn. rewrite E. intros Hne. destruct (Hblk bn Hbn Hne) as [Hd Hni].
    split; [by apply (data_grown _ _ _ _ _ Hg)|done].
  - intros bn bn' Hbn Hbn'. rewrite !E. by apply Hinj.
  - split.
    + destruct (decide (ind p = 0)) as [->|Hne]; [lia|].
      intros ->. by destruct (data_grown _ _ _ _ _ Hg (Hind Hne)) as (_ & ? & _).
    + intros bn Hbn. rewrite E. destruct (decide (block_of V p bn = 0)) as [->|Hne]; [lia|].
      by apply (data_grown _ _ _ _ _ Hg), Hblk.
Qed.

Lemma inode_ok_addr p k b : inode_ok p -> 0 <= b < 2 ^ 32 -> inode_ok (i_with_addr k b p).
Proof.
  intros [? ? ? ? ? [Hl Ha]] Hb. split; simpl; try done. rewrite length_insert. split; [done|].
  by apply Forall_insert.
Qed.

Lemma addr_of_with p k k' b :
  inode_ok p -> (k < 13)%nat -> addr_of (i_with_addr k b p) k' = if decide (k' = k) then b else addr_of p k'.
Proof.
  intros [_ _ _ _ _ [Hl _]] Hk. change (Z.to_nat NDIRECT + 1)%nat with 13%nat in Hl.
  unfold addr_of. simpl. rewrite !nth_lookup. case_decide as E.
  - subst. by rewrite list_lookup_insert_eq by lia.
  - by rewrite list_lookup_insert_ne.
Qed.

(** A file after one of its missing blocks has become [b]. *)
Lemma file_extended V V' sb p p' b bn :
  file_ok V sb p -> inode_ok p' -> data_block V' sb b -> 0 <= bn < MAXFILE ->
  fresh_for V p b -> (ind p' = ind p) -> (forall x, data_block V sb x -> data_block V' sb x) ->
  (forall bn', 0 <= bn' < MAXFILE -> block_of V' p' bn' = if decide (bn' = bn) then b else block_of V p bn') ->
  file_ok V' sb p'.
Proof.
  intros [Hi Hind Hblk Hinj] Hi' Hb Hbn [Hfi Hfb] Ei Hmono E. split; [done| | |].
  - rewrite Ei. intros Hne. by apply Hmono, Hind.
  - intros bn' Hbn'. rewrite E, Ei by done. case_decide; [done|]. intros Hne.
    destruct (Hblk bn' Hbn' Hne). split; [by apply Hmono|done].
  - intros a a' Ha Ha'. rewrite !E by done. pose proof (Hfb a Ha). pose proof (Hfb a' Ha').
    repeat case_decide; subst; try done; try congruence. by apply Hinj.
Qed.

Lemma direct_extended V p b bn :
  inode_ok p -> 0 <= bn < NDIRECT -> 0 <= b < 2 ^ 32 ->
  forall bn', 0 <= bn' < MAXFILE ->
    block_of V (i_with_addr (Z.to_nat bn) b p) bn' = if decide (bn' = bn) then b else block_of V p bn'.
Proof.
  intros Hi Hbn Hb bn' Hbn'. unfold NDIRECT in Hbn.
  unfold block_of, ind. rewrite !addr_of_with by (done || lia).
  destruct (Z.ltb_spec bn' NDIRECT) as [Hlt|Hge]; unfold NDIRECT in *.
  - repeat case_decide; try done; lia.
  - rewrite (decide_False (P := Z.to_nat 12 = Z.to_nat bn)) by lia. rewrite decide_False by lia. done.
Qed.

(** Giving the file an empty indirect block changes none of its blocks. *)
Lemma indirect_added V sb p b :
  inode_ok p -> ind p = 0 -> b <> 0 -> V !! b = Some zero_block ->
  forall bn, 0 <= bn < MAXFILE -> block_of V (i_with_addr (Z.to_nat NDIRECT) b p) bn = block_of V p bn.
Proof.
  intros Hi Hind Hb HV bn Hbn. unfold block_of. rewrite Hind. unfold ind.
  rewrite !addr_of_with by (done || (unfold NDIRECT; lia)). rewrite (decide_True (P := Z.to_nat NDIRECT = _)) by done.
  destruct (Z.ltb_spec bn NDIRECT) as [Hlt|Hge].
  - rewrite decide_False by (unfold NDIRECT in *; lia). done.
  - destruct (Z.eqb_spec b 0); [done|]. rewrite HV. simpl.
    unfold ld32, ld, slice, zero_block. by rewrite drop_replicate, take_replicate, unle_zero.
Qed.

(** ** Changing a data block *)

Lemma used_update V sb x d b :
  (forall b, 0 <= b < sb_size sb -> x <> BBLOCK b (sb_ninodes sb)) -> 0 <= b < sb_size sb ->
  used (<[x := d]> V) sb b = used V sb b.
Proof. intros Hm Hb. unfold used. by rewrite lookup_insert_ne by (by apply Hm). Qed.

Lemma update_some V x d y : is_Some (V !! y) -> is_Some ((<[x := d]> V) !! y).
Proof. intros. destruct (decide (x = y)) as [<-|]; [rewrite lookup_insert_eq; eauto|by rewrite lookup_insert_ne]. Qed.

Lemma kept_update V sb x d y : kept V sb x -> kept V sb y -> kept (<[x := d]> V) sb y.
Proof. intros [_ Hm] [Hu Hy]. split; [|done]. intros Hr. rewrite used_update by done. by apply Hu. Qed.

Lemma data_update V sb x d y : kept V sb x -> data_block V sb y -> data_block (<[x := d]> V) sb y.
Proof. intros Hx [Hr Hk Hs Ho]. split; try done; [by apply kept_update|by apply update_some]. Qed.

Lemma env_update V sb k Hd x d :
  env_ok V sb k Hd -> kept V sb x -> x <> 1 -> env_ok (<[x := d]> V) sb k Hd.
Proof.
  intros [[(d1 & HV1 & Hsb) Hsz Hmap Hfree] [Hpos H0] (l & Hnd & Hl & Hall) Hap] [Hux Hm] H1.
  split; [split| | |].
  - exists d1. by rewrite lookup_insert_ne.
  - done.
  - intros b Hb. destruct (Hmap b Hb) as (Hs & ?). split; [by apply update_some|done].
  - intros b Hb. rewrite used_update by done. intros Hu. destruct (Hfree b Hb Hu) as (Hs & ?).
    split; [by apply update_some|done].
  - split; [done|]. by rewrite used_update by (done || lia).
  - exists l. split_and!; try done. intros b Hb. destruct (Hall b Hb). split; [done|].
    by rewrite used_update by done.
  - intros i h Hi. destruct (Hap i h Hi) as (A1 & A2 & A3). split_and!; try done. intros Hr.
    rewrite used_update by done. by apply A3.
Qed.

Lemma has_free_weaken V sb k k' : (k' <= k)%nat -> has_free V sb k -> has_free V sb k'.
Proof.
  intros Hk (l & Hnd & Hl & Hall). exists (take k' l). split_and!.
  - eapply sublist_NoDup; [done|apply sublist_take].
  - rewrite length_take. lia.
  - intros b (i & Hi & _)%elem_of_take. apply Hall. by eapply list_elem_of_lookup_2.
Qed.

Lemma env_weaken V sb k k' Hd : (k' <= k)%nat -> env_ok V sb k Hd -> env_ok V sb k' Hd.
Proof. intros Hk [? ? ? ?]. split; try done. by eapply has_free_weaken. Qed.

(** Filling in an entry of the indirect block. *)
Lemma entry_set V sb p a b bn :
  ind p <> 0 -> V !! ind p = Some a -> length a = Z.to_nat BSIZE ->
  NDIRECT <= bn < MAXFILE -> 0 <= b < 2 ^ 32 ->
  forall bn', 0 <= bn' < MAXFILE ->
    block_of (<[ind p := st32 a (4 * Z.to_nat (bn - NDIRECT)) b]> V) p bn' =
    if decide (bn' = bn) then b else block_of V p bn'.
Proof.
  intros Hi HV Hl Hbn Hb bn' Hbn'. unfold block_of. destruct (Z.ltb_spec bn' NDIRECT) as [Hlt|Hge].
  - rewrite decide_False by lia. done.
  - destruct (Z.eqb_spec (ind p) 0); [done|]. rewrite lookup_insert_eq, HV.
    assert (bn < 140 /\ bn' < 140) as [Hlt Hlt'] by (change 140 with MAXFILE; lia).
    assert (length a = 512%nat) as Hl5 by (by rewrite Hl). unfold NDIRECT in *.
    unfold ld32, st32. case_decide as E.
    + subst. rewrite ld_st_eq by lia. apply Z.mod_small. done.
    + apply ld_st_ne; lia.
Qed.

(** ** [bmap] *)

(** What [bmap] has done when it returns [a] for block [bn] of a file. *)
Record mapped V V' sb p p' (bn a : Z) : Prop := {
  mp_addr : a = block_of V' p' bn /\ a <> 0;
  mp_file : file_ok V' sb p';
  mp_meta : p' = Inode (i_dev p) (i_inum p) (i_ref p) (i_flags p) (i_type p) (i_major p) (i_minor p)
              (i_nlink p) (i_size p) (i_addrs p');
  mp_old : forall bn', 0 <= bn' < MAXFILE -> bn' <> bn -> block_of V' p' bn' = block_of V p bn';
  mp_same : block_of V p bn <> 0 -> a = block_of V p bn;
  mp_zero : block_of V p bn = 0 -> V' !! a = Some zero_block;
  mp_fresh : block_of V p bn = 0 -> ~ kept V sb a;
  mp_ind : forall x, kept V sb x -> x <> ind p -> x <> ind p';
  mp_frame : forall x, kept V sb x -> x <> ind p -> V' !! x = V !! x;
  mp_kept : forall x, kept V sb x -> kept V' sb x;
  mp_some : forall x, is_Some (V !! x) -> is_Some (V' !! x)
}.

Lemma mapped_refl V sb p bn :
  file_ok V sb p -> block_of V p bn <> 0 -> mapped V V sb p p bn (block_of V p bn).
Proof. intros Hf Hne. split; try done. by destruct p. Qed.

(** A direct block is missing. *)
Lemma mapped_direct V V' sb p b bn :
  file_ok V sb p -> grown V V' sb b -> 0 <= b < 2 ^ 32 -> 0 <= bn < NDIRECT -> block_of V p bn = 0 ->
  mapped V V' sb p (i_with_addr (Z.to_nat bn) b p) bn b.
Proof.
  intros Hf Hg Hb Hbn H0. destruct (file_grown _ _ _ _ _ Hf Hg) as (Hf' & E & Hfr).
  pose proof (direct_extended V' p b bn (fk_inode _ _ _ Hf') Hbn Hb) as Eb. pose proof (gr_data _ _ _ _ Hg) as Hbd.
  assert (bn < MAXFILE) by (change MAXFILE with 140; change NDIRECT with 12 in Hbn; lia).
  split; try done.
  - rewrite Eb by lia. rewrite decide_True by done. destruct Hbd as [? _ _ _]. lia.
  - eapply (file_extended V' V' sb p _ b bn); try done; [apply inode_ok_addr; [apply Hf|done]|lia|].
    unfold ind. rewrite addr_of_with; [|apply Hf|unfold NDIRECT in *; lia].
    rewrite decide_False; [done|unfold NDIRECT in *; lia].
  - intros bn' Hbn' Hne. rewrite Eb by done. rewrite decide_False by done. apply E.
  - intros _. apply Hg.
  - intros _ Hk. by apply (gr_kept _ _ _ _ Hg) in Hk as (_ & _ & ?).
  - intros x Hx. unfold ind at 2. rewrite addr_of_with; [|apply Hf|unfold NDIRECT in *; lia].
    rewrite decide_False; [done|unfold NDIRECT in *; lia].
  - intros x Hx _. by apply Hg.
  - intros x Hx. by apply Hg.
  - apply Hg.
Qed.

(** The indirect block is there. *)
Record readied V V' sb p p' : Prop := {
  rd_ind : ind p' <> 0;
  rd_file : file_ok V' sb p';
  rd_meta : p' = Inode (i_dev p) (i_inum p) (i_ref p) (i_flags p) (i_type p) (i_major p) (i_minor p)
              (i_nlink p) (i_size p) (i_addrs p');
  rd_old : forall bn, 0 <= bn < MAXFILE -> block_of V' p' bn = block_of V p bn;
  rd_frame : forall x, kept V sb x -> V' !! x = V !! x /\ kept V' sb x /\ (x <> ind p -> x <> ind p');
  rd_some : forall x, is_Some (V !! x) -> is_Some (V' !! x)
}.

Lemma readied_refl V sb p : file_ok V sb p -> ind p <> 0 -> readied V V sb p p.
Proof. intros Hf Hi. split; try done. by destruct p. Qed.

Lemma readied_grown V V' sb p b :
  file_ok V sb p -> grown V V' sb b -> 0 <= b < 2 ^ 32 -> ind p = 0 ->
  readied V V' sb p (i_with_addr (Z.to_nat NDIRECT) b p).
Proof.
  intros Hf Hg Hb H0. destruct (file_grown _ _ _ _ _ Hf Hg) as (Hf' & E & Hfi & Hfb).
  pose proof (gr_data _ _ _ _ Hg) as Hbd. pose proof (db_range _ _ _ Hbd) as Hbr.
  pose proof (indirect_added V' sb p b (fk_inode _ _ _ Hf) H0 ltac:(lia) (gr_zero _ _ _ _ Hg)) as Eb.
  assert (ind (i_with_addr (Z.to_nat NDIRECT) b p) = b) as Ei.
  { unfold ind. rewrite addr_of_with; [|apply Hf|unfold NDIRECT; lia]. by rewrite decide_True. }
  split; try done.
  - rewrite Ei. lia.
  - split.
    + apply inode_ok_addr; [apply Hf|done].
    + by rewrite Ei.
    + intros bn Hbn. rewrite Eb, Ei by done. intros Hne. split; [by apply Hf'|by apply Hfb].
    + intros bn bn' Hbn Hbn'. rewrite !Eb by done. by apply Hf'.
  - intros bn Hbn. rewrite Eb by done. apply E.
  - intros x Hx. rewrite Ei. destruct (gr_kept _ _ _ _ Hg x Hx) as (? & ? & ?). done.
  - apply Hg.
Qed.

(** The file's indirect block has the entry. *)
Lemma mapped_found V V' sb p p' bn :
  readied V V' sb p p' -> 0 <= bn < MAXFILE -> block_of V' p' bn <> 0 ->
  mapped V V' sb p p' bn (block_of V' p' bn).
Proof.
  intros [Hi Hf Hm Ho Hfr Hs] Hbn Hne. split; try done.
  - intros bn' Hbn' _. by apply Ho.
  - intros _. by apply Ho.
  - intros H0. rewrite <- Ho in H0 by done. done.
  - intros H0. rewrite <- Ho in H0 by done. done.
  - intros x Hx. by apply Hfr.
  - intros x Hx _. by apply Hfr.
  - intros x Hx. by apply Hfr.
Qed.

(** It has not, and the missing block has been allocated and entered. *)
Lemma mapped_entered V V1 V2 sb p p' bn a b :
  readied V V1 sb p p' -> grown V1 V2 sb b -> NDIRECT <= bn < MAXFILE -> 0 <= b < 2 ^ 32 ->
  block_of V1 p' bn = 0 -> V1 !! ind p' = Some a -> length a = Z.to_nat BSIZE ->
  mapped V (<[ind p' := st32 a (4 * Z.to_nat (bn - NDIRECT)) b]> V2) sb p p' bn b.
Proof.
  intros [Hi Hf Hm Ho Hfr Hs] Hg Hbn Hb H0 HV Hl.
  destruct (file_grown _ _ _ _ _ Hf Hg) as (Hf2 & E & Hfresh).
  destruct (data_grown _ _ _ _ _ Hg (fk_ind _ _ _ Hf Hi)) as (Hd2 & Hne & E2). rewrite <- E2 in HV.
  pose proof (entry_set V2 sb p' a b bn Hi HV Hl Hbn Hb) as Eb.
  set (V3 := <[ind p' := _]> V2) in *. pose proof (gr_data _ _ _ _ Hg) as Hbd.
  pose proof (db_range _ _ _ Hbd) as Hbr.
  assert (0 <= bn < MAXFILE) as Hbn' by (change NDIRECT with 12 in Hbn; lia).
  assert (kept V2 sb (ind p')) as Hk2 by apply Hd2.
  split; try done.
  - rewrite Eb by done. rewrite decide_True by done. lia.
  - eapply (file_extended V2 V3 sb p' _ b bn); try done; [apply Hf|by apply data_update|].
    intros x. by apply data_update.
  - intros bn' Hb' Hn'. rewrite Eb by done. rewrite decide_False by done. rewrite E. by apply Ho.
  - intros Hn. rewrite <- Ho in Hn by done. done.
  - intros _. unfold V3. rewrite lookup_insert_ne by done. apply Hg.
  - intros _ Hk. destruct (Hfr b Hk) as (_ & Hk1 & _). by apply (gr_kept _ _ _ _ Hg) in Hk1 as (_ & _ & ?).
  - intros x Hx. by apply Hfr.
  - intros x Hx Hxi. destruct (Hfr x Hx) as (Ex & Hx1 & Hxn). unfold V3.
    rewrite lookup_insert_ne by (symmetry; by apply Hxn). rewrite <- Ex. by apply Hg.
  - intros x Hx. apply kept_update; [done|]. by apply Hg, Hfr.
  - intros x Hx. apply update_some. by apply Hg, Hs.
Qed.

Lemma empty_small : (size (∅ : gmap nat held) <= 3)%nat.
Proof. rewrite map_size_empty. lia. Qed.

Lemma unheld_empty x : unheld ∅ x.
Proof. intros i h Hi. by rewrite lookup_empty in Hi. Qed.

Lemma apart_data V sb bp x d dirty : data_block V sb x -> apart V sb (<[bp := Held x d dirty]> ∅).
Proof.
  intros [Hr [Hu Hm] _ [_ H1]] i h. rewrite lookup_insert. case_decide; [|by rewrite lookup_empty].
  intros [= <-]. done.
Qed.

Lemma set_addr_spec V Hd r s ip p k b Q :
  bs_at V Hd r s -> icache s !! ip = Some p ->
  (forall s', bs_at V Hd r s' -> icache s' = <[ip := i_with_addr k b p]> (icache s) -> Q tt s') ->
  wp (modify (on_inode ip (i_with_addr k b))) Q s.
Proof.
  intros Hst Hp HQ. apply wp_modify, HQ.
  - by apply (bs_icache _ _ _ s (alter (i_with_addr k b) ip (icache s))).
  - simpl. by apply alter_insert_list.
Qed.

Lemma grown_width V V' Hd r s sb k b :
  bs_at V' Hd r s -> env_ok V' sb k Hd -> grown V V' sb b -> 0 <= b < 2 ^ 32.
Proof.
  intros Hst Henv Hg. destruct (db_range _ _ _ (gr_data _ _ _ _ Hg)).
  pose proof (image_width V' sb (ev_image _ _ _ _ Henv) (image_blocks _ _ _ _ Hst)). lia.
Qed.

(** Loading the address of the indirect block, allocating it if necessary. *)
Lemma bmap_ind V r s ip p sb k :
  bs_at V ∅ (2 + r) s -> icache s !! ip = Some p -> i_dev p = ROOTDEV ->
  env_ok V sb (1 + k) ∅ -> file_ok V sb p ->
  wp (let addr := addr_of p (Z.to_nat NDIRECT) in
      if addr =? 0 then
        let! addr := balloc (i_dev p) in
        modify (on_inode ip (i_with_addr (Z.to_nat NDIRECT) addr)) ;;; ret addr
      else ret addr)
    (fun a s' => exists V' p', a = ind p' /\ readied V V' sb p p' /\ bs_at V' ∅ r s' /\ env_ok V' sb k ∅ /\
      icache s' = <[ip := p']> (icache s)) s.
Proof.
  intros Hst Hp Hdev Henv Hf. cbv zeta. fold (ind p). destruct (Z.eqb_spec (ind p) 0) as [E|E].
  - rewrite Hdev. apply wp_bind. eapply wp_mono; [apply (balloc_env V sb k ∅ r s Hst Henv), empty_small|].
    intros b s1 (V1 & H1 & I1 & Henv1 & Hg). apply wp_bind.
    eapply set_addr_spec; [done|by rewrite I1|]. intros s2 H2 I2. apply wp_ret.
    pose proof (grown_width _ _ _ _ _ _ _ _ H1 Henv1 Hg) as Hb.
    exists V1, (i_with_addr (Z.to_nat NDIRECT) b p). split; [|split; [by apply readied_grown|]].
    + unfold ind. rewrite addr_of_with; [|apply Hf|unfold NDIRECT; lia]. by rewrite decide_True.
    + split; [done|]. split; [done|]. by rewrite I2, I1.
  - apply wp_ret. exists V, p. split; [done|]. split; [by apply readied_refl|].
    split; [by eapply bs_weaken; [|done]; lia|]. split; [by eapply env_weaken; [|done]; lia|].
    by rewrite list_insert_id.
Qed.

(** Allocating the block an entry of the indirect block lacks. *)
Lemma bmap_entry V V1 r s sb p p1 k bn bp a dirty :
  bs_at V1 (<[bp := Held (ind p1) a dirty]> ∅) (3 + r) s -> readied V V1 sb p p1 -> env_ok V1 sb (1 + k) ∅ ->
  NDIRECT <= bn < MAXFILE -> block_of V1 p1 bn = 0 -> V1 !! ind p1 = Some a -> length a = Z.to_nat BSIZE ->
  wp (let! addr := balloc ROOTDEV in
      set_data bp (fun a => st32 a (4 * Z.to_nat (bn - NDIRECT)) addr) ;;;
      log_write bp ;;; ret addr)
    (fun b s' => exists V3, mapped V V3 sb p p1 bn b /\
      bs_at V3 (<[bp := Held (ind p1) (st32 a (4 * Z.to_nat (bn - NDIRECT)) b) true]> ∅) r s' /\
      env_ok V3 sb k ∅ /\ icache s' = icache s) s.
Proof.
  intros Hst Hrd Henv Hbn H0 HV Hl.
  pose proof (fk_ind _ _ _ (rd_file _ _ _ _ _ Hrd) (rd_ind _ _ _ _ _ Hrd)) as Hdi.
  assert (env_ok V1 sb (1 + k) (<[bp := Held (ind p1) a dirty]> ∅)) as Henv'.
  { destruct Henv. split; try done. by apply apart_data. }
  apply wp_bind. eapply wp_mono; [apply (balloc_env V1 sb k _ (1 + r) s Hst Henv')|].
  { rewrite map_size_insert_None, map_size_empty by done. lia. }
  intros b s1 (V2 & H1 & I1 & Henv2 & Hg). pose proof (grown_width _ _ _ _ _ _ _ _ H1 Henv2 Hg) as Hb.
  destruct (data_grown _ _ _ _ _ Hg Hdi) as (Hd2 & _ & E2). rewrite HV in E2.
  pose proof (bs_block _ _ _ _ _ _ H1 E2) as Hblk. pose proof (db_ok _ _ _ Hd2) as [Hw Hn1].
  unfold set_data. apply wp_assoc, wp_bind.
  eapply wp_mono; [eapply (bs_log_write _ _ _ _ bp _ (fun a => st32 a (4 * Z.to_nat (bn - NDIRECT)) b) H1
    (lookup_insert_eq _ _ _)); [|done]|].
  { cbn [h_data]. split; [|apply st_bytes, Hblk]. unfold st32. rewrite length_st; [done|].
    rewrite Hl. change (Z.to_nat BSIZE) with 512%nat. change MAXFILE with 140 in Hbn. unfold NDIRECT in *. lia. }
  cbn [h_sector h_data]. intros [] s2 [H2 I2]. rewrite insert_insert_eq in H2. apply wp_ret.
  eexists. split; [by eapply mapped_entered|]. split; [done|]. split; [|by rewrite I2].
  apply env_update; [|apply Hd2|done]. by destruct Henv2.
Qed.

(** [bmap] finds or makes the block; at most two blocks are allocated and five
    sectors logged. *)
Lemma bmap_spec V r s ip p sb k bn :
  bs_at V ∅ (5 + r) s -> icache s !! ip = Some p -> i_dev p = ROOTDEV ->
  env_ok V sb (2 + k) ∅ -> file_ok V sb p -> 0 <= bn < MAXFILE ->
  wp (bmap ip bn) (fun a s' => exists V' p', mapped V V' sb p p' bn a /\ bs_at V' ∅ r s' /\
    env_ok V' sb k ∅ /\ icache s' = <[ip := p']> (icache s)) s.
Proof.
  intros Hst Hp Hdev Henv Hf Hbn. unfold bmap. apply wp_bind, wp_gets. rewrite (inode_at_some _ _ _ Hp).
  destruct (Z.ltb_spec bn NDIRECT) as [Hlt|Hge].
  - assert (block_of V p bn = addr_of p (Z.to_nat bn)) as Eb.
    { unfold block_of. by destruct (Z.ltb_spec bn NDIRECT); [|lia]. }
    rewrite <- Eb. destruct (Z.eqb_spec (block_of V p bn) 0) as [E|E].
    + rewrite Hdev. apply wp_bind.
      eapply wp_mono; [apply (balloc_env V sb (1 + k) ∅ (3 + r) s Hst Henv), empty_small|].
      intros b s1 (V1 & H1 & I1 & Henv1 & Hg). apply wp_bind.
      eapply set_addr_spec; [done|by rewrite I1|]. intros s2 H2 I2. apply wp_ret.
      pose proof (grown_width _ _ _ _ _ _ _ _ H1 Henv1 Hg) as Hb.
      exists V1, (i_with_addr (Z.to_nat bn) b p). split; [apply mapped_direct; try done; lia|].
      split; [by eapply bs_weaken; [|done]; lia|]. split; [by eapply env_weaken; [|done]; lia|]. by rewrite I2, I1.
    + apply wp_ret. exists V, p. split; [by apply mapped_refl|].
      split; [by eapply bs_weaken; [|done]; lia|]. split; [by eapply env_weaken; [|done]; lia|].
      by rewrite list_insert_id.
  - destruct (Z.ltb_spec (bn - NDIRECT) NINDIRECT) as [Hin|]; [|unfold MAXFILE in *; lia].
    apply wp_bind. eapply wp_mono; [by apply (bmap_ind V (3 + r) s ip p sb (1 + k))|].
    intros i s1 (V1 & p1 & -> & Hrd & H1 & Henv1 & I1). apply wp_bind. rewrite Hdev.
    pose proof (fk_ind _ _ _ (rd_file _ _ _ _ _ Hrd) (rd_ind _ _ _ _ _ Hrd)) as Hdi.
    destruct (db_some _ _ _ Hdi) as [a HV]. pose proof (bs_block _ _ _ _ _ _ H1 HV) as [Hla _].
    eapply wp_mono; [by apply (bs_bread V1 ∅ (3 + r) s1 _ a); [| |apply unheld_empty|apply empty_small]|].
    intros bp s2 (Hbp & I2 & dirty & H2). apply wp_bind, wp_gets.
    unfold data_of. rewrite (bs_data _ _ _ _ bp _ H2 (lookup_insert_eq _ _ _)). cbn [h_data].
    assert (block_of V1 p1 bn = ld32 a (4 * Z.to_nat (bn - NDIRECT))) as Eb.
    { unfold block_of. destruct (Z.ltb_spec bn NDIRECT); [lia|]. destruct (Z.eqb_spec (ind p1) 0); [by destruct Hrd|].
      by rewrite HV. }
    rewrite <- Eb. destruct (Z.eqb_spec (block_of V1 p1 bn) 0) as [E|E].
    + apply wp_bind. eapply wp_mono; [eapply (bmap_entry V V1 r s2 sb p p1 k bn bp a dirty); try done; lia|].
      intros b s3 (V3 & Hmp & H3 & Henv3 & I3). apply wp_bind.
      eapply wp_mono; [eapply (bs_brelse _ _ _ _ bp _ H3 (lookup_insert_eq _ _ _))|].
      intros [] s4 [H4 I4]. rewrite delete_insert_id in H4 by done. apply wp_ret. exists V3, p1.
      split; [done|]. split; [done|]. split; [done|]. congruence.
    + apply wp_bind, wp_ret, wp_bind.
      eapply wp_mono; [eapply (bs_brelse _ _ _ _ bp _ H2 (lookup_insert_eq _ _ _))|].
      intros [] s3 [H3 I3]. rewrite delete_insert_id in H3 by done. apply wp_ret. exists V1, p1.
      split; [by apply mapped_found|]. split; [by eapply bs_weaken; [|done]; lia|].
      split; [by eapply env_weaken; [|done]; lia|]. by rewrite I3, I2, I1.
Qed.

(** ** [writei] *)

Definition owned V p (x : Z) : Prop := x = ind p \/ exists bn, 0 <= bn < MAXFILE /\ x = block_of V p bn.

(** The bytes [src] have been written at [off, off + n) of the file; all the
    rest of it, and every block that is not the file's, is as it was. *)
Record written V V' sb p p' (off n : Z) (src : list Z) : Prop := {
  wr_file : file_ok V' sb p';
  wr_meta : p' = Inode (i_dev p) (i_inum p) (i_ref p) (i_flags p) (i_type p) (i_major p) (i_minor p)
              (i_nlink p) (i_size p) (i_addrs p');
  wr_new : forall i, off <= i < off + n -> block_of V' p' (i / BSIZE) <> 0 /\
             file_byte V' p' i = nth (Z.to_nat (i - off)) src 0;
  wr_old : forall i, 0 <= i < MAXFILE * BSIZE -> ~ off <= i < off + n -> block_of V p (i / BSIZE) <> 0 ->
             block_of V' p' (i / BSIZE) <> 0 /\ file_byte V' p' i = file_byte V p i;
  wr_owned : forall x, kept V sb x -> ~ owned V p x -> V' !! x = V !! x /\ ~ owned V' p' x;
  wr_kept : forall x, kept V sb x -> kept V' sb x;
  wr_some : forall x, is_Some (V !! x) -> is_Some (V' !! x)
}.

Lemma div_range i : 0 <= i < MAXFILE * BSIZE -> 0 <= i / BSIZE < MAXFILE.
Proof.
  intros Hi. split; [apply Z.div_pos; unfold BSIZE; lia|]. apply Z.div_lt_upper_bound; [unfold BSIZE; lia|]. lia.
Qed.

(** Overwriting part of a data block of the file. *)
Lemma block_of_update V sb p a d bn :
  file_ok V sb p -> 0 <= bn < MAXFILE -> block_of V p bn <> 0 -> a = block_of V p bn ->
  forall bn', block_of (<[a := d]> V) p bn' = block_of V p bn'.
Proof.
  intros Hf Hbn Hne -> bn'. apply block_of_ext. rewrite lookup_insert_ne; [done|]. by apply Hf.
Qed.

Lemma file_ok_update V sb p a d bn :
  file_ok V sb p -> 0 <= bn < MAXFILE -> block_of V p bn <> 0 -> a = block_of V p bn ->
  file_ok (<[a := d]> V) sb p.
Proof.
  intros Hf Hbn Hne Ha. pose proof (block_of_update V sb p a d bn Hf Hbn Hne Ha) as E.
  destruct (fk_blk _ _ _ Hf bn Hbn Hne) as [Hd _]. rewrite <- Ha in Hd. pose proof (db_kept _ _ _ Hd) as Hk.
  destruct Hf as [Hi Hind Hblk Hinj]. split; [done| | |].
  - intros Hz. by apply data_update, Hind.
  - intros b Hb. rewrite E. intros Hz. destruct (Hblk b Hb Hz). split; [by apply data_update|done].
  - intros b b' Hb Hb'. rewrite !E. by apply Hinj.
Qed.

Lemma owned_mapped V V' sb p p' bn a x :
  mapped V V' sb p p' bn a -> 0 <= bn < MAXFILE -> kept V sb x -> ~ owned V p x -> ~ owned V' p' x.
Proof.
  intros Hm Hbn Hk Hno [->|(b & Hb & ->)].
  - apply (mp_ind _ _ _ _ _ _ _ Hm (ind p')); [done| |done]. intros E. apply Hno. by left.
  - destruct (decide (b = bn)) as [->|Hne].
    + destruct (mp_addr _ _ _ _ _ _ _ Hm) as [Ea _]. rewrite <- Ea in Hk, Hno.
      destruct (decide (block_of V p bn = 0)) as [E|E]; [by apply (mp_fresh _ _ _ _ _ _ _ Hm)|].
      apply Hno. right. exists bn. split; [done|]. by apply (mp_same _ _ _ _ _ _ _ Hm).
    + apply Hno. right. exists b. split; [done|]. by apply (mp_old _ _ _ _ _ _ _ Hm).
Qed.

Lemma nth_splice d o w k :
  (o + length w <= length d)%nat ->
  nth k (splice d o w) 0 = if decide (o <= k < o + length w)%nat then nth (k - o) w 0 else nth k d 0.
Proof.
  intros Hl. rewrite !nth_lookup. unfold splice. case_decide as E.
  - rewrite lookup_app_r by (rewrite length_take; lia). rewrite length_take, lookup_app_l by lia.
    do 2 f_equal. lia.
  - destruct (decide (k < o)%nat).
    + rewrite lookup_app_l by (rewrite length_take; lia). by rewrite lookup_take_lt.
    + rewrite lookup_app_r by (rewrite length_take; lia). rewrite length_take, lookup_app_r by lia.
      rewrite lookup_drop. do 2 f_equal. lia.
Qed.

(** Within one block, the offset splits. *)
Lemma same_block off m i :
  0 <= off -> off mod BSIZE + m <= BSIZE -> 0 <= i -> i / BSIZE = off / BSIZE ->
  (off <= i < off + m <-> off mod BSIZE <= i mod BSIZE < off mod BSIZE + m) /\
  i - off = i mod BSIZE - off mod BSIZE.
Proof.
  intros Ho Hm Hi E. pose proof (Z.div_mod off BSIZE ltac:(unfold BSIZE; lia)).
  pose proof (Z.div_mod i BSIZE ltac:(unfold BSIZE; lia)). rewrite E in *. lia.
Qed.

Lemma in_block off m i : 0 <= off -> off mod BSIZE + m <= BSIZE -> off <= i < off + m -> i / BSIZE = off / BSIZE.
Proof.
  intros Ho Hm Hi. pose proof (Z.div_mod off BSIZE ltac:(unfold BSIZE; lia)).
  pose proof (Z.div_mod i BSIZE ltac:(unfold BSIZE; lia)). pose proof (BSIZE_bound off). pose proof (BSIZE_bound i).
  unfold BSIZE in *. lia.
Qed.

(** One iteration of [writei]. *)
Lemma written_step V V1 sb p p1 a d off m src :
  file_ok V sb p -> mapped V V1 sb p p1 (off / BSIZE) a -> V1 !! a = Some d -> is_block d ->
  0 <= off -> off + m <= MAXFILE * BSIZE -> 0 < m -> off mod BSIZE + m <= BSIZE -> (Z.to_nat m <= length src)%nat ->
  written V (<[a := splice d (Z.to_nat (off mod BSIZE)) (take (Z.to_nat m) src)]> V1) sb p p1 off m src.
Proof.
  intros Hf0 Hm HV [Hl Hb] Ho Hmax Hm0 Hfit Hsrc. set (bn := off / BSIZE) in *.
  assert (0 <= bn < MAXFILE) as Hbn by (apply div_range; lia).
  destruct (mp_addr _ _ _ _ _ _ _ Hm) as [Ea Ha0]. pose proof (mp_file _ _ _ _ _ _ _ Hm) as Hf.
  set (w := take (Z.to_nat m) src). assert (length w = Z.to_nat m) as Hw by (unfold w; rewrite length_take; lia).
  pose proof (BSIZE_bound off) as Hbo. set (d' := splice d _ w). set (V2 := <[a := d']> V1).
  assert (forall bn', block_of V2 p1 bn' = block_of V1 p1 bn') as Eb
    by (apply (block_of_update V1 sb p1 a d' bn); try done; congruence).
  assert (forall i, 0 <= i -> i / BSIZE = bn -> file_byte V2 p1 i =
    if decide (off <= i < off + m) then nth (Z.to_nat (i - off)) src 0 else nth (Z.to_nat (i mod BSIZE)) d 0) as Hin.
  { intros i Hi Ei. pose proof (BSIZE_bound i) as Hbi. destruct (same_block off m i Ho Hfit Hi Ei) as [Hiff Ediff].
    unfold file_byte. rewrite Ei, Eb, <- Ea. unfold V2. rewrite lookup_insert_eq. unfold d'.
    rewrite nth_splice by (rewrite Hl, Hw; lia). rewrite Hw. repeat case_decide; try lia; try done.
    unfold w. rewrite !nth_lookup, lookup_take_lt by lia. do 2 f_equal. lia. }
  assert (forall i, 0 <= i < MAXFILE * BSIZE -> i / BSIZE <> bn -> block_of V1 p1 (i / BSIZE) <> 0 ->
    file_byte V2 p1 i = file_byte V1 p1 i) as Hout.
  { intros i Hi Hne Hz. unfold file_byte. rewrite Eb. unfold V2. rewrite lookup_insert_ne; [done|].
    rewrite Ea. intros E. apply Hne. symmetry. apply (fk_inj _ _ _ Hf); try done; [by apply div_range|congruence]. }
  assert (forall b, 0 <= b < MAXFILE -> block_of V p b <> 0 -> V1 !! block_of V p b = V !! block_of V p b) as Hold.
  { intros b Hb' Hz. destruct (fk_blk _ _ _ Hf0 b Hb' Hz) as [Hd Hni]. apply Hm; [apply Hd|done]. }
  split.
  - apply (file_ok_update V1 sb p1 a d' bn); try done. congruence.
  - apply Hm.
  - intros i Hi. pose proof (in_block off m i Ho Hfit Hi) as Ei. rewrite Eb, Ei. fold bn.
    split; [congruence|]. rewrite Hin by (done || lia). by rewrite decide_True.
  - intros i Hi Hni Hz. rewrite Eb. destruct (decide (i / BSIZE = bn)) as [Ei|Ei].
    + rewrite Ei in *. pose proof (mp_same _ _ _ _ _ _ _ Hm Hz) as Es. split; [congruence|].
      rewrite Hin by (done || lia). rewrite decide_False by done. unfold file_byte.
      by rewrite Ei, <- (Hold bn Hbn Hz), <- Es, HV.
    + pose proof (mp_old _ _ _ _ _ _ _ Hm (i / BSIZE) (div_range i Hi) Ei) as Eo.
      split; [congruence|]. rewrite Hout by (done || congruence). unfold file_byte. rewrite Eo.
      by rewrite (Hold (i / BSIZE) (div_range i Hi) Hz).
  - intros x Hk Hno. pose proof (owned_mapped _ _ _ _ _ _ _ _ Hm Hbn Hk Hno) as Hno'. split.
    + unfold V2. rewrite lookup_insert_ne.
      * apply Hm; [done|]. intros ->. apply Hno. by left.
      * intros <-. apply Hno'. right. by exists bn.
    + intros [->|(b & Hb' & ->)]; [by apply Hno'; left|]. apply Hno'. right. exists b. by rewrite Eb.
  - intros x Hk. apply kept_update; [|by apply Hm].
    destruct (fk_blk _ _ _ Hf bn Hbn ltac:(congruence)) as [Hd _]. rewrite <- Ea in Hd. apply Hd.
  - intros x Hx. apply update_some. by apply Hm.
Qed.

Lemma written_nil V sb p off src : file_ok V sb p -> written V V sb p p off 0 src.
Proof. intros Hf. split; try done; [by destruct p|lia]. Qed.

Lemma written_trans V V1 V2 sb p p1 p2 off m n src :
  written V V1 sb p p1 off m src -> written V1 V2 sb p1 p2 (off + m) n (drop (Z.to_nat m) src) ->
  0 <= off -> 0 <= m -> 0 <= n -> off + m + n <= MAXFILE * BSIZE ->
  written V V2 sb p p2 off (m + n) src.
Proof.
  intros [F1 M1 N1 O1 W1 K1 S1] [F2 M2 N2 O2 W2 K2 S2] Ho Hm Hn Hmax. split; try done.
  - rewrite M2 at 1. by rewrite M1.
  - intros i Hi. destruct (decide (i < off + m)) as [Hlt|Hge].
    + destruct (N1 i ltac:(lia)) as [Hz Hb]. destruct (O2 i ltac:(lia) ltac:(lia) Hz) as [Hz2 ->]. done.
    + destruct (N2 i ltac:(lia)) as [Hz ->]. split; [done|].
      rewrite !nth_lookup, lookup_drop. do 2 f_equal. lia.
  - intros i Hi Hni Hz. destruct (O1 i Hi ltac:(lia) Hz) as [Hz1 <-]. by apply O2; [|lia|].
  - intros x Hk Hno. destruct (W1 x Hk Hno) as [<- Hno1]. by apply W2; [apply K1|].
  - intros x Hk. by apply K2, K1.
  - intros x Hs. by apply S2, S1.
Qed.

(** The copying loop: [n] bounds the number of blocks touched. *)
Lemma writei_loop_spec n fuel V r s ip p sb k src off left :
  (n <= fuel)%nat -> bs_at V ∅ (6 * n + r) s -> icache s !! ip = Some p -> i_dev p = ROOTDEV ->
  env_ok V sb (2 * n + k) ∅ -> file_ok V sb p -> is_bytes src ->
  0 <= off -> 0 <= left -> off + left <= MAXFILE * BSIZE -> (Z.to_nat left <= length src)%nat ->
  left <= (Z.of_nat n - 1) * BSIZE + (BSIZE - off mod BSIZE) \/ left = 0 ->
  wp (writei_loop fuel ip src off left) (fun off' s' => exists V' p', off' = off + left /\
    written V V' sb p p' off left src /\ bs_at V' ∅ r s' /\ env_ok V' sb k ∅ /\
    icache s' = <[ip := p']> (icache s)) s.
Proof.
  revert fuel V s p src off left. induction n as [|n IH];
    intros fuel V s p src off left Hfu Hst Hp Hdev Henv Hf Hby Ho Hl Hmax Hsrc Hn;
    pose proof (BSIZE_bound off) as Hbo;
    (destruct (decide (left = 0)) as [->|Hpos];
      [destruct fuel; apply wp_ret; exists V, p; (split; [lia|]); (split; [by apply written_nil|]);
       (split; [by eapply bs_weaken; [|done]; lia|]); (split; [by eapply env_weaken; [|done]; lia|]);
       by rewrite list_insert_id|]).
  { unfold BSIZE in *. lia. }
  destruct fuel as [|f]; [lia|]. cbn [writei_loop]. destruct (Z.leb_spec left 0); [lia|].
  apply wp_bind. eapply wp_mono; [apply (bmap_spec V (1 + 6 * n + r) s ip p sb (2 * n + k)); try done|].
  { eapply bs_weaken; [|done]. lia. }
  { eapply env_weaken; [|done]. lia. }
  { apply div_range. lia. }
  intros a s1 (V1 & p1 & Hm & H1 & Henv1 & I1). pose proof (lookup_lt_Some _ _ _ Hp) as Hip.
  assert (icache s1 !! ip = Some p1) as Hp1 by (rewrite I1; by apply list_lookup_insert_eq).
  apply wp_bind, wp_gets. rewrite (inode_at_some _ _ _ Hp1), (mp_meta _ _ _ _ _ _ _ Hm). cbn [i_dev]. rewrite Hdev.
  destruct (mp_addr _ _ _ _ _ _ _ Hm) as [Ea Ha0].
  destruct (fk_blk _ _ _ (mp_file _ _ _ _ _ _ _ Hm) (off / BSIZE) (div_range off ltac:(lia)) ltac:(congruence)) as [Hda _].
  rewrite <- Ea in Hda. destruct (db_some _ _ _ Hda) as [d HV]. destruct (db_ok _ _ _ Hda) as [Hw H1n].
  pose proof (bs_block _ _ _ _ _ _ H1 HV) as Hblk. cbv zeta. set (m := Z.min left (BSIZE - off mod BSIZE)).
  assert (0 < m <= left /\ off mod BSIZE + m <= BSIZE) as [Hm0 Hfit] by (unfold m; lia).
  set (g := fun d => splice d (Z.to_nat (off mod BSIZE)) (take (Z.to_nat m) src)).
  apply (update_then _ g V1 ∅ (6 * n + r) s1 a d); try done; [apply empty_small| |].
  { destruct Hblk as [Hlen Hbb]. split; [|apply splice_bytes; [done|by apply Forall_take]].
    unfold g. rewrite length_splice; [done|]. rewrite length_take, Hlen. lia. }
  intros s2 H2 I2. pose proof (written_step V V1 sb p p1 a d off m src Hf Hm HV Hblk Ho ltac:(lia) ltac:(lia) Hfit ltac:(lia)) as Hstep.
  assert (u32 (off + m) = off + m) as -> by (apply u32_small; rewrite MAXFILE_bytes in Hmax; lia).
  eapply wp_mono; [eapply (IH f _ s2 p1 (drop (Z.to_nat m) src) (off + m) (left - m)); try done; try lia|].
  - rewrite I2. exact Hp1.
  - rewrite (mp_meta _ _ _ _ _ _ _ Hm). done.
  - apply env_update; [done|apply Hda|done].
  - apply Hstep.
  - by apply Forall_drop.
  - rewrite length_drop. lia.
  - unfold m. destruct (Z.min_spec left (BSIZE - off mod BSIZE)) as [[? ->]|[? ->]]; [right; lia|left].
    rewrite block_end_mod. destruct Hn; lia.
  - intros off' s3 (V3 & p3 & -> & Hw3 & H3 & Henv3 & I3). exists V3, p3. split; [lia|].
    split; [|split; [done|split; [done|]]].
    + replace left with (m + (left - m)) by lia. eapply written_trans; try done; lia.
    + by rewrite I3, I2, I1, list_insert_insert_eq.
Qed.

(** Changing a block that is not the file's. *)
Lemma unowned_update V p x d :
  ~ owned V p x ->
  (forall bn, block_of (<[x := d]> V) p bn = block_of V p bn) /\
  (forall i, 0 <= i < MAXFILE * BSIZE -> file_byte (<[x := d]> V) p i = file_byte V p i).
Proof.
  intros Hno. assert (forall bn, block_of (<[x := d]> V) p bn = block_of V p bn) as E.
  { intros bn. apply block_of_ext. rewrite lookup_insert_ne; [done|]. intros ->. apply Hno. by left. }
  split; [done|]. intros i Hi. unfold file_byte. rewrite E, lookup_insert_ne; [done|]. intros ->.
  apply Hno. right. exists (i / BSIZE). split; [by apply div_range|done].
Qed.

Lemma file_ok_unowned V sb p x d : file_ok V sb p -> kept V sb x -> ~ owned V p x -> file_ok (<[x := d]> V) sb p.
Proof.
  intros [Hi Hind Hblk Hinj] Hk Hno. destruct (unowned_update V p x d Hno) as [E _]. split; [done| | |].
  - intros Hz. by apply data_update, Hind.
  - intros b Hb. rewrite E. intros Hz. destruct (Hblk b Hb Hz). split; [by apply data_update|done].
  - intros b b' Hb Hb'. rewrite !E. by apply Hinj.
Qed.

Lemma file_ok_size V sb p v : file_ok V sb p -> 0 <= v < 2 ^ 32 -> file_ok V sb (i_with_size v p).
Proof. intros [[? ? ? ? ? ?] Hind Hblk Hinj] Hv. split; try done. Qed.

(** The outcome of a write of [n] bytes at [off]. *)
Record write_done V V' sb p p' (off n : Z) (src : list Z) : Prop := {
  wd_file : file_ok V' sb p';
  wd_meta : p' = Inode (i_dev p) (i_inum p) (i_ref p) (i_flags p) (i_type p) (i_major p) (i_minor p)
              (i_nlink p) (i_size p') (i_addrs p');
  wd_size : i_size p' = Z.max (i_size p) (off + n);
  wd_pres : present V' p' 0 (i_size p');
  wd_new : forall i, off <= i < off + n -> file_byte V' p' i = nth (Z.to_nat (i - off)) src 0;
  wd_old : forall i, 0 <= i < i_size p -> ~ off <= i < off + n -> file_byte V' p' i = file_byte V p i;
  wd_frame : forall x, kept V sb x -> ~ owned V p x -> x <> IBLOCK (i_inum p) -> V' !! x = V !! x;
  wd_disk : i_size p < off + n -> forall q, inode_on V' (i_inum p) q = Some (loaded q p');
  wd_inodes : forall j q, j <> i_inum p -> kept V sb (IBLOCK j) -> ~ owned V p (IBLOCK j) ->
    inode_on V' j q = inode_on V j q
}.

(** The file's block map leads to blocks that are there. *)
Lemma file_present V sb p i :
  file_ok V sb p -> 0 <= i < MAXFILE * BSIZE -> block_of V p (i / BSIZE) <> 0 ->
  exists d, V !! block_of V p (i / BSIZE) = Some d.
Proof. intros Hf Hi Hz. destruct (fk_blk _ _ _ Hf _ (div_range i Hi) Hz) as [[_ _ [d Hd] _] _]. eauto. Qed.

(** A write that stays inside the file needs no new inode. *)
Lemma write_inside V V' sb p p' off n src :
  written V V' sb p p' off n src -> 0 <= off -> 0 <= n -> off + n <= i_size p -> i_size p <= MAXFILE * BSIZE ->
  present V p 0 (i_size p) -> write_done V V' sb p p' off n src.
Proof.
  intros [F M N O W K S] Ho Hn Hin Hmax Hp. assert (i_size p' = i_size p) as Es by (by rewrite M).
  split; try done.
  - by rewrite Es.
  - lia.
  - rewrite Es. intros i Hi. assert (block_of V' p' (i / BSIZE) <> 0) as Hz.
    { destruct (decide (off <= i < off + n)); [by apply N|]. by apply O; [lia| |apply Hp]. }
    split; [done|]. by apply (file_present V' sb); [|lia|].
  - intros i Hi. by apply N.
  - intros i Hi Hni. by apply O; [lia| |apply Hp; lia].
  - intros x Hk Hno _. by apply W.
  - lia.
  - intros j q Hj Hk Hno. unfold inode_on. by destruct (W _ Hk Hno) as [-> _].
Qed.

(** One that extends it stores the inode. *)
Lemma write_beyond V V' sb p p' off n src d :
  written V V' sb p p' off n src -> 0 <= off <= i_size p -> 0 < n -> i_size p < off + n ->
  off + n <= MAXFILE * BSIZE -> present V p 0 (i_size p) ->
  kept V sb (IBLOCK (i_inum p)) -> ~ owned V p (IBLOCK (i_inum p)) ->
  V' !! IBLOCK (i_inum p) = Some d -> is_block d ->
  let q := i_with_size (off + n) p' in
  write_done V (<[IBLOCK (i_inum q) := put_dinode q (dinode_off (i_inum q)) d]> V') sb p q off n src.
Proof.
  intros [F M N O W K S] Ho Hn Hgt Hmax Hp Hk Hno HV Hblk q.
  assert (i_inum q = i_inum p) as Eq by (unfold q; simpl; by rewrite M).
  assert (file_ok V' sb q) as Fq by (apply file_ok_size; [done|rewrite MAXFILE_bytes in Hmax; lia]).
  destruct (W _ Hk Hno) as [_ Hno']. assert (~ owned V' q (IBLOCK (i_inum p))) as Hnoq by done.
  rewrite Eq. destruct (unowned_update V' q _ (put_dinode q (dinode_off (i_inum p)) d) Hnoq) as [Eb Ef].
  assert (forall i, 0 <= i < off + n -> block_of V' q (i / BSIZE) <> 0) as Hz.
  { intros i Hi. destruct (decide (off <= i < off + n)); [by apply N|]. by apply O; [lia| |apply Hp; lia]. }
  split.
  - apply file_ok_unowned; [done|by apply K|done].
  - unfold q, i_with_size. simpl. rewrite M. done.
  - simpl. lia.
  - intros i Hi. rewrite Eb. change (i_size q) with (off + n) in Hi. split; [apply Hz; lia|].
    destruct (file_present V' sb q i Fq ltac:(lia) (Hz i ltac:(lia))) as [e He]. exists e.
    rewrite lookup_insert_ne; [done|]. intros E. apply Hnoq. right. exists (i / BSIZE). split; [|done].
    apply div_range. lia.
  - intros i Hi. rewrite Ef by lia. by apply N.
  - intros i Hi Hni. rewrite Ef by lia. by apply O; [lia| |apply Hp].
  - intros x Hkx Hnx Hne. rewrite lookup_insert_ne by done. by apply W.
  - intros _ r. pose proof (inode_on_update V' q d (i_inum p) r) as Hu. rewrite Eq in Hu.
    rewrite Hu; [by rewrite decide_True|done|done|apply Fq].
  - intros j r Hj Hkj Hnj. pose proof (inode_on_update V' q d j r) as Hu. rewrite Eq in Hu.
    rewrite Hu; [rewrite decide_False by done|done|done|apply Fq]. unfold inode_on. by destruct (W _ Hkj Hnj) as [-> _].
Qed.

(** [writei] of [n] bytes over at most [nb] blocks. *)
Lemma writei_spec dv nb V r s ip p sb k src off n :
  bs_at V ∅ (6 * nb + 1 + r) s -> icache s !! ip = Some p -> i_dev p = ROOTDEV -> i_type p <> T_DEV ->
  env_ok V sb (2 * nb + k) ∅ -> file_ok V sb p -> present V p 0 (i_size p) ->
  is_bytes src -> 0 <= n -> (Z.to_nat n <= length src)%nat ->
  0 <= off <= i_size p -> i_size p <= MAXFILE * BSIZE -> off + n <= MAXFILE * BSIZE ->
  n <= (Z.of_nat nb - 1) * BSIZE + (BSIZE - off mod BSIZE) \/ n = 0 -> (nb <= io_fuel n)%nat ->
  kept V sb (IBLOCK (i_inum p)) -> ~ owned V p (IBLOCK (i_inum p)) ->
  is_Some (V !! IBLOCK (i_inum p)) -> bs_writable (IBLOCK (i_inum p)) -> IBLOCK (i_inum p) <> 1 ->
  wp (writei dv ip src off n) (fun x s' => exists V' p', x = n /\ write_done V V' sb p p' off n src /\
    bs_at V' ∅ r s' /\ env_ok V' sb k ∅ /\ icache s' = <[ip := p']> (icache s)) s.
Proof.
  intros Hst Hp Hdev Hty Henv Hf Hpre Hby Hn Hsrc Ho Hsz Hmax Hnb Hfu Hki Hno Hsome Hw H1.
  pose proof (lookup_lt_Some _ _ _ Hp) as Hip. pose proof MAXFILE_bytes as Hmb.
  unfold writei. apply wp_bind, wp_gets. rewrite (inode_at_some _ _ _ Hp).
  destruct (Z.eqb_spec (i_type p) T_DEV); [done|]. rewrite (u32_small (off + n)) by lia.
  destruct (Z.ltb_spec (i_size p) off); [lia|]. destruct (Z.ltb_spec (off + n) off); [lia|]. simpl orb. cbv iota.
  destruct (Z.ltb_spec (MAXFILE * BSIZE) (off + n)); [lia|].
  apply wp_bind. eapply wp_mono; [eapply (writei_loop_spec nb _ V (1 + r) s ip p sb k src off n); try done; try lia|].
  { eapply bs_weaken; [|done]. lia. }
  intros off' s1 (V1 & p1 & -> & Hwr & H1s & Henv1 & I1).
  assert (icache s1 !! ip = Some p1) as Hp1 by (rewrite I1; by apply list_lookup_insert_eq).
  apply wp_bind, wp_gets. rewrite (inode_at_some _ _ _ Hp1), s32_small by lia.
  pose proof (wr_meta _ _ _ _ _ _ _ _ Hwr) as Hmeta. assert (i_size p1 = i_size p) as Es by (by rewrite Hmeta).
  assert (i_inum p1 = i_inum p /\ i_dev p1 = ROOTDEV) as [En Ed] by (by rewrite Hmeta). rewrite Es.
  destruct (Z.ltb_spec 0 n) as [Hpos|Hzero], (Z.ltb_spec (i_size p) (off + n)) as [Hgt|Hle]; try lia; cbn [andb];
    [|apply wp_bind, wp_ret, wp_ret; exists V1, p1; (split; [done|]); (split; [apply write_inside; try done; lia|]);
      (split; [by eapply bs_weaken; [|done]; lia|done])..].
  set (q := i_with_size (off + n) p1). apply wp_bind, wp_bind, wp_modify.
  destruct (wr_some _ _ _ _ _ _ _ _ Hwr _ Hsome) as [d HV1].
  pose proof (wr_kept _ _ _ _ _ _ _ _ Hwr _ Hki) as Hki1.
  set (s2 := on_inode ip _ s1).
  assert (icache s2 = <[ip := q]> (icache s1)) as I2 by (unfold s2; simpl; by apply alter_insert_list).
  assert (file_ok V1 sb q) as Fq by (apply file_ok_size; [apply Hwr|lia]).
  assert (i_inum q = i_inum p) as Enq by done.
  eapply (iupdate_store V1 ∅ r s2 ip q d); rewrite ?Enq; try done.
  - by apply (bs_icache _ _ _ s1 (alter (i_with_size (off + n)) ip (icache s1))).
  - rewrite I2, list_lookup_insert_eq; [done|]. by eapply lookup_lt_Some.
  - apply Fq.
  - apply empty_small.
  - intros s3 H3 I3. apply wp_ret.
    exists (<[IBLOCK (i_inum q) := put_dinode q (dinode_off (i_inum q)) d]> V1), q. split; [done|]. split.
    { apply (write_beyond V V1 sb p p1 off n src d); try done; try lia. exact (bs_block _ _ _ _ _ _ H1s HV1). }
    rewrite Enq. split; [done|]. split; [by apply env_update|].
    by rewrite I3, I2, I1, list_insert_insert_eq.
Qed.

(** A write that starts past the end, wraps around or exceeds the largest file
    is refused without any change. *)
Lemma writei_range dv s ip p src off n :
  icache s !! ip = Some p -> i_type p <> T_DEV ->
  i_size p < off \/ u32 (off + n) < off \/ MAXFILE * BSIZE < u32 (off + n) ->
  writei dv ip src off n s = Ok (-1) s.
Proof.
  intros Hp Hty Hor. unfold writei, bind, gets. rewrite (inode_at_some _ _ _ Hp).
  destruct (Z.eqb_spec (i_type p) T_DEV); [done|].
  destruct (Z.ltb_spec (i_size p) off); [done|]. destruct (Z.ltb_spec (u32 (off + n)) off); [done|].
  destruct (Z.ltb_spec (MAXFILE * BSIZE) (u32 (off + n))); [done|lia].
Qed.

(** The file is as dense as it was. *)
Lemma write_done_dense V V' sb p p' off n src :
  write_done V V' sb p p' off n src -> i_dev p = ROOTDEV -> i_type p <> T_DEV ->
  0 <= off -> 0 <= n -> i_size p <= MAXFILE * BSIZE -> off + n <= MAXFILE * BSIZE -> dense V' ∅ p'.
Proof.
  intros [F M S P _ _ _ _ _] Hd Ht Ho Hn Hs Hm. split; [by rewrite M|by rewrite M|lia|done|apply unheld_empty|].
  intros i _. apply unheld_empty.
Qed.

(** What was written is what the file then holds. *)
Lemma write_done_bytes V V' sb p p' off n src :
  write_done V V' sb p p' off n src -> 0 <= n -> (Z.to_nat n <= length src)%nat ->
  file_bytes V' p' off n = take (Z.to_nat n) src.
Proof.
  intros Hw Hn Hl. apply list_eq. intros k. unfold file_bytes, upto. rewrite list_lookup_fmap.
  destruct (decide (k < Z.to_nat n)%nat).
  - rewrite lookup_seq_lt, lookup_take_lt by lia. simpl. rewrite (wd_new _ _ _ _ _ _ _ _ Hw) by lia.
    rewrite nth_lookup. replace (Z.to_nat (off + Z.of_nat k - off)) with k by lia.
    destruct (lookup_lt_is_Some_2 src k) as [x ->]; [lia|done].
  - by rewrite lookup_seq_ge, lookup_take_ge by lia.
Qed.
End Write.
