(* ===== verification/FsPath.v ===== *)
(** * Path names ([skipelem] of [fs.c])

    [skipelem] cuts a path into its elements one at a time; here it is related
    to splitting the whole path at its slashes. *)

From S2P Require Import Prelude Bytes Params CString FsState Fs.

(** The parts of a path between slashes. *)
Fixpoint split_path (path : list Z) : list (list Z) :=
  match path with
  | [] => [[]]
  | c :: path' =>
      if c =? slash then [] :: split_path path'
      else match split_path path' with
           | w :: ws => (c :: w) :: ws
           | [] => [[c]]
           end
  end.

(** The elements of a path: its non-empty parts. *)
Definition elems (path : list Z) : list (list Z) := filter (fun w => w <> []) (split_path path).

(** A path in memory up to its terminator. *)
Definition is_path (path : list Z) : Prop := Forall (fun c => c <> 0) path.

Lemma split_path_cons path : exists w ws, split_path path = w :: ws.
Proof.
  induction path as [|c path (w & ws & E)]; simpl; [eauto|]. rewrite E. destruct (c =? slash); eauto.
Qed.

Lemma elems_skip path : elems (skip_slashes path) = elems path.
Proof.
  induction path as [|c path IH]; simpl; [done|]. destruct (Z.eqb_spec c slash) as [->|]; [|done].
  rewrite IH. done.
Qed.

Lemma take_elem_split path e rest :
  is_path path -> take_elem path = (e, rest) ->
  path = e ++ rest /\ is_path rest /\ exists ws, split_path path = e :: ws /\ elems rest = filter (fun w => w <> []) ws.
Proof.
  revert e rest. induction path as [|c path IH]; intros e rest Hp Ht; simpl in Ht.
  - injection Ht as <- <-. split_and!; [done..|]. by exists [].
  - apply Forall_cons in Hp as [Hc Hp]. destruct (Z.eqb_spec c slash) as [->|Hs]; simpl in Ht.
    + injection Ht as <- <-. split_and!; [done|by constructor|].
      exists (split_path path). done.
    + destruct (Z.eqb_spec c 0); [done|]. simpl in Ht. destruct (take_elem path) as [e' r'] eqn:E.
      injection Ht as <- <-. destruct (IH e' r' Hp eq_refl) as (-> & Hr & ws & Es & He).
      split_and!; [done|done|]. exists ws. split; [|done]. simpl.
      destruct (Z.eqb_spec c slash); [done|]. by rewrite Es.
Qed.

Lemma skip_slashes_path path : is_path path -> is_path (skip_slashes path).
Proof.
  induction 1 as [|c path Hc Hp IH]; simpl; [constructor|]. destruct (c =? slash); [done|by constructor].
Qed.

Lemma skip_slashes_hd path : hd 0 (skip_slashes path) <> slash.
Proof. induction path as [|c path IH]; simpl; [done|]. by destruct (Z.eqb_spec c slash). Qed.

Lemma skip_slashes_len path : (length (skip_slashes path) <= length path)%nat.
Proof. induction path as [|c path IH]; simpl; [lia|]. destruct (c =? slash); simpl; lia. Qed.

(** An element as [skipelem] stores it: at most [DIRSIZ] bytes of it. *)
Lemma cstr_ptr_app e rest n : Forall (fun c => c <> 0) e -> (length e <= n)%nat ->
  cstr (ptr (e ++ rest)) n = e ++ cstr (ptr rest) (n - length e).
Proof.
  revert n. induction e as [|c e IH]; intros n He Hl; simpl; [by rewrite Nat.sub_0_r|].
  apply Forall_cons in He as [Hc He]. destruct n as [|n]; simpl in *; [lia|].
  change (ptr (c :: e ++ rest) O) with c. destruct (Z.eqb_spec c 0); [done|]. f_equal. apply IH; [done|lia].
Qed.

Definition stored_name (e name : list Z) : list Z :=
  if (DIRSIZ <=? length e)%nat then splice name 0 (take DIRSIZ e)
  else splice (splice name 0 e) (length e) [0].

Lemma stored_name_cstr e name :
  Forall (fun c => c <> 0) e -> length name = DIRSIZ ->
  cstr (ptr (stored_name e name)) DIRSIZ = take DIRSIZ e /\ length (stored_name e name) = DIRSIZ.
Proof.
  intros He Hn. unfold stored_name. destruct (Nat.leb_spec DIRSIZ (length e)) as [Hl|Hl].
  - rewrite length_splice by (rewrite length_take; lia). split; [|done]. unfold splice. rewrite take_0, app_nil_l.
    rewrite cstr_ptr_app by (by apply Forall_take || (rewrite length_take; lia)).
    rewrite length_take. replace (DIRSIZ - _)%nat with 0%nat by lia. apply app_nil_r.
  - assert (splice (splice name 0 e) (length e) [0] = e ++ 0 :: drop (S (length e)) name) as E.
    { unfold splice. rewrite take_0, app_nil_l. rewrite take_app_length. f_equal. simpl. f_equal.
      rewrite drop_app_ge by lia. rewrite drop_drop. f_equal. lia. }
    rewrite E. split.
    + rewrite cstr_ptr_app by (done || lia). destruct (DIRSIZ - length e)%nat eqn:El; [lia|]. simpl.
      rewrite app_nil_r. symmetry. apply take_ge. lia.
    + rewrite length_app. simpl. rewrite length_drop. lia.
Qed.

(** [skipelem] peels the first element off the path and stores its name. *)
Lemma skipelem_spec path name :
  is_path path -> length name = DIRSIZ ->
  match skipelem path name with
  | None => elems path = []
  | Some (rest, name') =>
      is_path rest /\ length name' = DIRSIZ /\ (length rest < length path)%nat /\ hd 0 rest <> slash /\
      exists e, elems path = e :: elems rest /\ cstr (ptr name') DIRSIZ = take DIRSIZ e
  end.
Proof.
  intros Hp Hn. unfold skipelem. rewrite <- (elems_skip path). pose proof (skip_slashes_len path) as Hlen.
  pose proof (skip_slashes_path _ Hp) as Hp'. pose proof (skip_slashes_hd path) as Hh.
  destruct (skip_slashes path) as [|c p'] eqn:Ep; [done|]. simpl in Hh.
  cbn [hd]. destruct (Z.eqb_spec c 0) as [->|Hc]; [by apply Forall_cons in Hp' as [? _]|].
  rewrite <- Ep in *. destruct (take_elem (skip_slashes path)) as [e rest] eqn:Et.
  destruct (take_elem_split _ _ _ Hp' Et) as (Epath & Hrest & ws & Es & He).
  assert (e <> []) as Hne.
  { rewrite Ep in Et. simpl in Et. destruct (Z.eqb_spec c slash); [done|]. destruct (Z.eqb_spec c 0); [done|].
    simpl in Et. destruct (take_elem p'). by injection Et as <- <-. }
  assert (Forall (fun c => c <> 0) e) as He0 by (rewrite Epath in Hp'; by apply Forall_app in Hp' as [? _]).
  fold (stored_name e name). destruct (stored_name_cstr e name He0 Hn) as [Hcs Hl].
  split; [by apply skip_slashes_path|]. split; [done|]. split.
  - pose proof (skip_slashes_len rest). rewrite Epath, length_app in Hlen. destruct e; [done|]. simpl in Hlen. lia.
  - split; [apply skip_slashes_hd|]. exists e. split; [|done]. rewrite (elems_skip rest), He.
    unfold elems. by rewrite Es, filter_cons_True.
Qed.

(** The elements [namex] walks through, one [skipelem] at a time. *)
Fixpoint walk_elems (fuel : nat) (path name : list Z) : list (list Z) :=
  match fuel with
  | O => []
  | S f =>
      match skipelem path name with
      | None => []
      | Some (rest, name') => cstr (ptr name') DIRSIZ :: walk_elems f rest name'
      end
  end.

Lemma walk_elems_spec fuel path name :
  is_path path -> length name = DIRSIZ -> (length path <= fuel)%nat ->
  walk_elems fuel path name = take DIRSIZ <$> elems path.
Proof.
  revert path name. induction fuel as [|f IH]; intros path name Hp Hn Hf.
  - destruct path; [done|]. simpl in Hf. lia.
  - cbn [walk_elems]. pose proof (skipelem_spec path name Hp Hn) as Hs. destruct (skipelem path name) as [[rest name']|].
    + destruct Hs as (Hr & Hn' & Hlt & _ & w & -> & ->). rewrite IH by (done || lia). done.
    + by rewrite Hs.
Qed.
