(* ===== verification/FsDir.v ===== *)
(** * Directories ([dirlookup] and [dirlink] of [fs.c])

    A directory is the list of its entries; looking a name up finds the first
    live entry with it, and linking a name puts it into the first free slot. *)

From S2P Require Import Prelude Bytes Params CString FsState Bio Log Store Fs FsAlloc FsInode FsFile FsWrite.

(** ** The entries of a directory *)

Definition entries (V : gmap Z block) (p : inode) : list (list Z) :=
  (fun k => file_bytes V p (Z.of_nat k * DIRENT_SIZE) DIRENT_SIZE) <$> upto (i_size p / DIRENT_SIZE).

(** A live entry with the name. *)
Definition names (name de : list Z) : Prop := de_inum de <> 0 /\ namecmp name (de_name de) = 0.

#[export] Instance names_dec name de : Decision (names name de).
Proof. unfold names. apply _. Defined.

Definition live (de : list Z) : Prop := de_inum de <> 0.
#[export] Instance live_dec de : Decision (live de).
Proof. unfold live. apply _. Defined.

Lemma lookup_entries V p k de :
  entries V p !! k = Some de <->
  Z.of_nat k < i_size p / DIRENT_SIZE /\ de = file_bytes V p (Z.of_nat k * DIRENT_SIZE) DIRENT_SIZE.
Proof.
  unfold entries. rewrite list_lookup_fmap. unfold upto. destruct (decide (k < Z.to_nat (i_size p / DIRENT_SIZE))%nat).
  - rewrite lookup_seq_lt by done. simpl. split; [intros [= <-]; split; [lia|done]|intros [_ ->]; done].
  - rewrite lookup_seq_ge by lia. simpl. split; [done|lia].
Qed.

Lemma length_entries V p : length (entries V p) = Z.to_nat (i_size p / DIRENT_SIZE).
Proof. unfold entries. by rewrite length_fmap, length_upto. Qed.

(** The offsets the loops run over are those of the entries. *)
Lemma lookup_dirent_offs size k off :
  (DIRENT_SIZE | size) -> 0 <= size -> dirent_offs size !! k = Some off ->
  off = Z.of_nat k * DIRENT_SIZE /\ Z.of_nat k < size / DIRENT_SIZE /\ off + DIRENT_SIZE <= size.
Proof.
  intros [n ->] Hs. unfold dirent_offs. rewrite list_lookup_fmap.
  replace ((n * DIRENT_SIZE + DIRENT_SIZE - 1) / DIRENT_SIZE) with n.
  - destruct (upto n !! k) as [i|] eqn:E; [|done]. apply lookup_upto in E as [-> Hk]. intros [= <-].
    rewrite Z.div_mul by done. split; [done|]. split; [done|]. unfold DIRENT_SIZE. lia.
  - unfold DIRENT_SIZE. rewrite <- Z.add_sub_assoc, Z.div_add_l by lia. change ((16 - 1) / 16) with 0. lia.
Qed.

Lemma length_dirent_offs size :
  (DIRENT_SIZE | size) -> 0 <= size -> length (dirent_offs size) = Z.to_nat (size / DIRENT_SIZE).
Proof.
  intros [n ->] Hs. unfold dirent_offs. rewrite length_fmap, length_upto. f_equal.
  unfold DIRENT_SIZE. rewrite <- Z.add_sub_assoc, Z.div_add_l, Z.div_mul by lia. change ((16 - 1) / 16) with 0. lia.
Qed.

(** An entry never straddles two blocks. *)
Lemma dirent_fits j : (Z.of_nat j * DIRENT_SIZE) mod BSIZE + DIRENT_SIZE <= BSIZE.
Proof.
  unfold DIRENT_SIZE, BSIZE. pose proof (Z.mod_pos_bound (Z.of_nat j * 16) 512).
  pose proof (Z.div_mod (Z.of_nat j * 16) 512). lia.
Qed.

Section Dir.
Context `{BS : BlockStore} (dv : devsw).
Implicit Types (V : gmap Z block) (Hd : gmap nat held) (p : inode).

(** A directory inode. *)
Record dir_ok V Hd p : Prop := {
  dk_type : i_type p = T_DIR;
  dk_dense : dense V Hd p;
  dk_mult : (DIRENT_SIZE | i_size p)
}.

(** Reading one entry. *)
Lemma read_entry V Hd r s dp p k :
  bs_at V Hd r s -> icache s !! dp = Some p -> dir_ok V Hd p -> (size Hd <= 3)%nat ->
  Z.of_nat k < i_size p / DIRENT_SIZE ->
  wp (readi dv dp (Z.of_nat k * DIRENT_SIZE) DIRENT_SIZE) (fun x s' => exists de, x = (DIRENT_SIZE, de) /\
    entries V p !! k = Some de /\ bs_at V Hd r s' /\ icache s' = icache s) s.
Proof.
  intros Hst Hp [Hty Hde [n Hn]] Hsz Hk. pose proof (de_size _ _ _ Hde) as Hs. rewrite MAXFILE_bytes in Hs.
  rewrite Hn, Z.div_mul in Hk by done. unfold DIRENT_SIZE in *.
  eapply wp_mono; [eapply (readi_spec dv V Hd r s dp p); try done; lia|].
  cbv zeta. intros x s' (-> & H1 & I1). rewrite Z.min_l by lia.
  exists (file_bytes V p (Z.of_nat k * 16) 16). split; [done|]. split; [|done].
  apply lookup_entries. unfold DIRENT_SIZE. rewrite Hn, Z.div_mul by done. done.
Qed.

(** [dirlookup] returns a reference to the inode of the first live entry with
    the name and the entry's offset; nothing if there is none. *)
Lemma dirlookup_spec V Hd r s dp p name :
  bs_at V Hd r s -> icache s !! dp = Some p -> dir_ok V Hd p -> (size Hd <= 3)%nat ->
  icache_ok (icache s) -> (exists i q, icache s !! i = Some q /\ i_ref q = 0) ->
  wp (dirlookup dv dp name) (fun x s' => bs_at V Hd r s' /\ icache_ok (icache s') /\
    match list_find (names name) (entries V p) with
    | Some (k, de) => exists ip q, x = Some (ip, Z.of_nat k * DIRENT_SIZE) /\
        icache s' !! ip = Some q /\ caches_inode q ROOTDEV (de_inum de) /\ (1 < i_ref q \/ i_flags q = 0)
    | None => x = None /\ icache s' = icache s
    end) s.
Proof.
  intros Hst Hp Hdir Hsz Hic Hfree. pose proof Hdir as [Hty Hde Hmul]. pose proof (de_size _ _ _ Hde) as Hs.
  unfold dirlookup. apply wp_bind, wp_gets. rewrite (inode_at_some _ _ _ Hp), Hty. simpl negb. cbv iota.
  eapply (wp_first (fun n s' => bs_at V Hd r s' /\ icache s' = icache s /\
    forall j de, (j < n)%nat -> entries V p !! j = Some de -> ~ names name de)).
  - split; [done|]. split; [done|]. lia.
  - intros k off s1 Hoff (H1 & I1 & Hall). apply lookup_dirent_offs in Hoff as (-> & Hk & _); [|done|lia].
    apply wp_bind. eapply wp_mono; [by apply (read_entry V Hd r s1 dp p k); [|congruence|..]|].
    intros x s2 (de & -> & Hent & H2 & I2). cbn [fst snd]. rewrite Z.eqb_refl. simpl negb. cbv iota.
    destruct (Z.eqb_spec (de_inum de) 0) as [E0|E0];
      [|destruct (Z.eqb_spec (namecmp name (de_name de)) 0) as [En|En]].
    1,3: apply wp_ret; (split; [done|]); (split; [congruence|]); intros j de' Hj Hj';
      (destruct (decide (j = k)) as [->|]; [by intros []; congruence|]); apply (Hall j); [lia|done].
    apply wp_bind, wp_gets. rewrite (inode_at_some dp s2 p) by congruence.
    rewrite (de_dev _ _ _ Hde). apply wp_bind.
    assert (icache s2 = icache s) as I by congruence.
    eapply wp_mono; [apply (iget_spec s2 ROOTDEV (de_inum de)); rewrite I; [done|]|].
    { destruct Hfree as (i & q & Hq & Hr). exists i, q. auto. }
    intros ip s3 (q & q' & Hq & -> & Hok & Hc & Hor). apply wp_ret.
    split; [by apply (bs_icache _ _ _ s2 (alter (fun _ => q') ip (icache s2)))|]. split; [done|].
    assert (list_find (names name) (entries V p) = Some (k, de)) as ->.
    { apply list_find_Some. split_and!; [done|done|]. intros j de' Hj' Hj. by apply (Hall j). }
    exists ip, q'. split; [done|]. split; [simpl; by rewrite list_lookup_alter_eq, Hq|]. split; [done|].
    destruct Hor as [[[Hr _] ->]|(_ & _ & ? & _)]; [left; simpl; lia|by right].
  - intros s1 (H1 & I1 & Hall). split; [done|]. split; [by rewrite I1|].
    assert (list_find (names name) (entries V p) = None) as ->; [|done].
    apply list_find_None, Forall_lookup. intros j de Hj. apply (Hall j); [|done].
    rewrite length_dirent_offs by (done || lia). apply lookup_lt_Some in Hj. by rewrite length_entries in Hj.
Qed.

(** ** [dirlink] *)

(** The slot a new entry goes to: the first free one, or the end. *)
Definition free_slot (es : list (list Z)) : nat :=
  match list_find (fun de => ~ live de) es with
  | Some (k, _) => k
  | None => length es
  end.

Definition put_entry (es : list (list Z)) (k : nat) (de : list Z) : list (list Z) :=
  take k es ++ [de] ++ drop (S k) es.

Lemma free_slot_bound es : (free_slot es <= length es)%nat.
Proof.
  unfold free_slot. destruct (list_find _ es) as [[k de]|] eqn:E; [|lia].
  apply list_find_Some in E as (E & _). apply lookup_lt_Some in E. lia.
Qed.

(** The entry [dirlink] writes. *)
Definition new_entry (name : list Z) (inum : Z) : list Z := le 2 inum ++ strncpy (ptr name) DIRSIZ.

Lemma length_new_entry name inum : length (new_entry name inum) = Z.to_nat DIRENT_SIZE.
Proof. unfold new_entry. by rewrite length_app, length_le, length_strncpy. Qed.

(** Writing one entry replaces it or adds it. *)
Lemma entries_written V V' sb p p' k de :
  write_done V V' sb p p' (Z.of_nat k * DIRENT_SIZE) DIRENT_SIZE de -> (DIRENT_SIZE | i_size p) ->
  0 <= i_size p -> length de = Z.to_nat DIRENT_SIZE -> (k <= length (entries V p))%nat ->
  entries V' p' = put_entry (entries V p) k de /\ (DIRENT_SIZE | i_size p').
Proof.
  intros Hw [n Hn] Hs Hl Hk. rewrite length_entries, Hn, Z.div_mul in Hk by done.
  pose proof (wd_size _ _ _ _ _ _ _ _ Hw) as Es.
  assert (i_size p' = Z.max n (Z.of_nat k + 1) * DIRENT_SIZE) as Es' by (unfold DIRENT_SIZE in *; lia).
  split; [|by eexists]. apply list_eq. intros j. unfold put_entry.
  assert (forall i de', entries V p !! i = Some de' <-> Z.of_nat i < n /\
    de' = file_bytes V p (Z.of_nat i * DIRENT_SIZE) DIRENT_SIZE) as Hent.
  { intros i de'. by rewrite lookup_entries, Hn, Z.div_mul by done. }
  assert (forall i, Z.of_nat i < n -> i <> k -> file_bytes V' p' (Z.of_nat i * DIRENT_SIZE) DIRENT_SIZE =
    file_bytes V p (Z.of_nat i * DIRENT_SIZE) DIRENT_SIZE) as Hother.
  { intros i Hi Hne. unfold file_bytes. apply list_fmap_ext. intros a b Hb. apply lookup_upto in Hb as [-> Hb].
    unfold DIRENT_SIZE in *. apply (wd_old _ _ _ _ _ _ _ _ Hw); unfold DIRENT_SIZE; lia. }
  assert (length (entries V p) = Z.to_nat n) as Hlen by (by rewrite length_entries, Hn, Z.div_mul).
  apply option_eq. intros de'. rewrite lookup_entries, Es', Z.div_mul by done.
  assert (length (take k (entries V p)) = k) as Hlt by (rewrite length_take; lia).
  destruct (decide (j < k)%nat) as [Hj|Hj].
  - rewrite lookup_app_l by lia. rewrite lookup_take_lt, Hent by done.
    rewrite Hother by lia. split; intros [? ?]; (split; [lia|done]).
  - rewrite lookup_app_r, Hlt by lia. destruct (decide (j = k)) as [->|Hne].
    + rewrite Nat.sub_diag. simpl. rewrite (write_done_bytes _ _ _ _ _ _ _ _ Hw) by (unfold DIRENT_SIZE in *; lia).
      rewrite take_ge by lia. split; [by intros [_ ->]|intros [= ->]; split; [lia|done]].
    + destruct (j - k)%nat as [|i] eqn:Ei; [lia|]. simpl. rewrite lookup_drop.
      replace (S k + i)%nat with j by lia. rewrite Hent. split.
      * intros [Hb ->]. rewrite Hother by lia. split; [lia|done].
      * intros [Hb ->]. rewrite Hother by lia. split; [lia|done].
Qed.

(** The search for a free slot. *)
Lemma find_slot V Hd r s dp p :
  bs_at V Hd r s -> icache s !! dp = Some p -> dir_ok V Hd p -> (size Hd <= 3)%nat ->
  wp (first_ (dirent_offs (i_size p)) (fun off =>
        let! r := readi dv dp off DIRENT_SIZE in
        if negb (r.1 =? DIRENT_SIZE) then panic "dirlink read"
        else if de_inum r.2 =? 0 then ret (Some off) else ret None))
    (fun x s' => default (Z.of_nat (length (dirent_offs (i_size p))) * DIRENT_SIZE) x =
        Z.of_nat (free_slot (entries V p)) * DIRENT_SIZE /\
      bs_at V Hd r s' /\ icache s' = icache s) s.
Proof.
  intros Hst Hp Hdir Hsz. pose proof Hdir as [Hty Hde Hmul]. pose proof (de_size _ _ _ Hde) as Hs.
  eapply (wp_first (fun n s' => bs_at V Hd r s' /\ icache s' = icache s /\
    forall j de, (j < n)%nat -> entries V p !! j = Some de -> ~ ~ live de)).
  - split; [done|]. split; [done|]. lia.
  - intros k off s1 Hoff (H1 & I1 & Hall). apply lookup_dirent_offs in Hoff as (-> & Hk & _); [|done|lia].
    apply wp_bind. eapply wp_mono; [by apply (read_entry V Hd r s1 dp p k); [|congruence|..]|].
    intros x s2 (de & -> & Hent & H2 & I2). cbn [fst snd]. rewrite Z.eqb_refl. simpl negb. cbv iota.
    destruct (Z.eqb_spec (de_inum de) 0) as [E0|E0]; apply wp_ret.
    + split; [|split; [done|congruence]]. simpl. f_equal. unfold free_slot.
      assert (list_find (fun de => ~ live de) (entries V p) = Some (k, de)) as ->; [|done].
      apply list_find_Some. split_and!; [done|unfold live; lia|]. intros j de' Hj' Hj. by apply (Hall j).
    + split; [done|]. split; [congruence|]. intros j de' Hj Hj'.
      destruct (decide (j = k)) as [->|]; [|apply (Hall j); [lia|done]]. unfold live.
      assert (de' = de) as -> by congruence. tauto.
  - intros s1 (H1 & I1 & Hall). split; [|done]. simpl. f_equal. rewrite length_dirent_offs in * by (done || lia).
    unfold free_slot. assert (list_find (fun de => ~ live de) (entries V p) = None) as ->.
    { apply list_find_None, Forall_lookup. intros j de Hj. apply (Hall j); [|done].
      apply lookup_lt_Some in Hj. by rewrite length_entries in Hj. }
    by rewrite length_entries.
Qed.

(** The inode's own block is apart from the file it describes. *)
Record inode_block_ok V sb p : Prop := {
  ib_kept : kept V sb (IBLOCK (i_inum p));
  ib_free : ~ owned V p (IBLOCK (i_inum p));
  ib_some : is_Some (V !! IBLOCK (i_inum p));
  ib_ok : bs_writable (IBLOCK (i_inum p)) /\ IBLOCK (i_inum p) <> 1
}.

(** A name that is taken is refused, and no entry changes. *)
Lemma dirlink_taken V Hd r s dp p name inum k de :
  bs_at V Hd r s -> icache s !! dp = Some p -> dir_ok V Hd p -> (size Hd <= 3)%nat ->
  icache_ok (icache s) -> (exists i q, icache s !! i = Some q /\ i_ref q = 0) ->
  list_find (names name) (entries V p) = Some (k, de) ->
  wp (dirlink dv dp name inum) (fun x s' => x = -1 /\ bs_at V Hd r s') s.
Proof.
  intros Hst Hp Hdir Hsz Hic Hfree Hfind. unfold dirlink. apply wp_bind.
  eapply wp_mono; [by apply (dirlookup_spec V Hd r s dp p name)|]. rewrite Hfind.
  intros x s1 (H1 & Hok & ip & q & -> & Hq & Hc & Hor). apply wp_bind. unfold wp.
  rewrite (iput_keep s1 ip q Hq); [|destruct Hor as [?|E]; [left; lia|right; left; by rewrite E]].
  split; [done|]. by apply (bs_icache _ _ _ s1 (alter (fun _ => i_with_ref (i_ref q - 1) q) ip (icache s1))).
Qed.

(** A new name is entered into the first free slot, or at the end. *)
Lemma dirlink_spec V r s dp p sb k name inum :
  bs_at V ∅ (7 + r) s -> icache s !! dp = Some p -> dir_ok V ∅ p -> icache_ok (icache s) ->
  (exists i q, icache s !! i = Some q /\ i_ref q = 0) ->
  env_ok V sb (2 + k) ∅ -> file_ok V sb p -> inode_block_ok V sb p ->
  i_size p + DIRENT_SIZE <= MAXFILE * BSIZE -> Forall (fun c => 0 <= c < 256) name ->
  list_find (names name) (entries V p) = None ->
  wp (dirlink dv dp name inum) (fun x s' => exists V' p', x = 0 /\
    entries V' p' = put_entry (entries V p) (free_slot (entries V p)) (new_entry name inum) /\
    file_ok V' sb p' /\ env_ok V' sb k ∅ /\ bs_at V' ∅ r s' /\ icache s' = <[dp := p']> (icache s) /\
    (forall x, kept V sb x -> ~ owned V p x -> x <> IBLOCK (i_inum p) -> V' !! x = V !! x) /\
    dir_ok V' ∅ p' /\ (i_dev p' = i_dev p /\ i_inum p' = i_inum p /\ i_ref p' = i_ref p)) s.
Proof.
  intros Hst Hp Hdir Hic Hfree Henv Hf [Hki Hno Hso [Hw H1]] Hroom Hname Hfind.
  pose proof Hdir as [Hty Hde Hmul]. pose proof (de_size _ _ _ Hde) as Hs. pose proof (de_pres _ _ _ Hde) as Hpre.
  pose proof (de_dev _ _ _ Hde) as Hdev. pose proof (de_type _ _ _ Hde) as Hnd.
  unfold dirlink. apply wp_bind. eapply wp_mono; [apply (dirlookup_spec V ∅ (7 + r) s dp p name); try done; apply empty_small|].
  rewrite Hfind. intros x s1 (Hs1 & Hok1 & -> & I1). apply wp_bind, wp_gets.
  rewrite (inode_at_some dp s1 p) by congruence. cbv zeta. apply wp_bind.
  eapply wp_mono; [apply (find_slot V ∅ (7 + r) s1 dp p); try done; [congruence|apply empty_small]|].
  intros x s2 (Hoff & Hs2 & I2). rewrite Hoff. fold (new_entry name inum).
  set (j := free_slot (entries V p)). pose proof (free_slot_bound (entries V p)) as Hj. fold j in Hj.
  rewrite length_entries in Hj. destruct Hmul as [n Hn]. rewrite Hn, Z.div_mul in Hj by done.
  assert (Z.of_nat j * DIRENT_SIZE <= i_size p) as Hoff' by (rewrite Hn; unfold DIRENT_SIZE in *; lia).
  apply wp_bind. eapply wp_mono.
  { eapply (writei_spec dv 1 V r s2 dp p sb k (new_entry name inum)); try done.
    - congruence.
    - unfold new_entry. apply Forall_app. split; [apply le_bytes|]. apply strncpy_bytes. by apply ptr_bytes.
    - by rewrite length_new_entry.
    - unfold DIRENT_SIZE in *. lia.
    - lia.
    - unfold DIRENT_SIZE in *. lia.
    - left. pose proof (dirent_fits j). unfold DIRENT_SIZE in *. lia.
    - by apply Nat.leb_le. }
  intros w s3 (V3 & p3 & -> & Hwd & Hs3 & Henv3 & I3). rewrite Z.eqb_refl. simpl negb. cbv iota. apply wp_ret.
  exists V3, p3. split; [done|]. destruct (entries_written _ _ _ _ _ _ _ Hwd) as [He Hm];
    [by eexists|lia|apply length_new_entry|rewrite length_entries, Hn, Z.div_mul by done; lia|].
  split; [done|]. split; [apply Hwd|]. split; [done|]. split; [done|]. split; [congruence|]. split; [apply Hwd|].
  pose proof (wd_meta _ _ _ _ _ _ _ _ Hwd) as M. split; [|by rewrite M].
  split; [by rewrite M| |done]. eapply (write_done_dense V V3); try done; unfold DIRENT_SIZE in *; lia.
Qed.
End Dir.

(** ** Looking names up after linking one *)

Lemma new_entry_inum name inum : de_inum (new_entry name inum) = u16 inum.
Proof.
  unfold de_inum, ld16, ld, slice, new_entry. rewrite drop_0, take_app_length' by (by rewrite length_le).
  apply (unle_le 2).
Qed.

Lemma new_entry_name name inum : de_name (new_entry name inum) = strncpy (ptr name) DIRSIZ.
Proof. unfold de_name, new_entry. apply drop_app_length'. by rewrite length_le. Qed.

(** The new entry has the name, and only names that agree with it on their
    first [DIRSIZ] bytes. *)
Lemma new_entry_names name name' inum :
  is_bytes name -> is_bytes name' -> u16 inum <> 0 ->
  names name' (new_entry name inum) <-> cstr (ptr name') DIRSIZ = cstr (ptr name) DIRSIZ.
Proof.
  intros Hn Hn' Hi. unfold names. rewrite new_entry_inum, new_entry_name. unfold namecmp.
  rewrite strncmp_zero; [|by apply ptr_bytes|apply ptr_bytes, strncpy_bytes; by apply ptr_bytes].
  rewrite strncpy_cstr. tauto.
Qed.

Lemma live_names name de : names name de -> live de.
Proof. by intros [? _]. Qed.

Lemma free_slot_dead es de : es !! free_slot es = Some de -> ~ live de.
Proof.
  unfold free_slot. destruct (list_find _ es) as [[k de']|] eqn:E.
  - apply list_find_Some in E as (E & Hl & _). intros Hk. by assert (de = de') as -> by congruence.
  - intros Hk%lookup_lt_Some. lia.
Qed.

Lemma lookup_put_entry es k de j :
  (k <= length es)%nat -> put_entry es k de !! j = if decide (j = k) then Some de else es !! j.
Proof.
  intros Hk. unfold put_entry. assert (length (take k es) = k) as Hl by (rewrite length_take; lia).
  case_decide as E.
  - subst. rewrite lookup_app_r by lia. by rewrite Hl, Nat.sub_diag.
  - destruct (decide (j < k)%nat); [rewrite lookup_app_l, lookup_take_lt by lia; done|].
    rewrite lookup_app_r, Hl by lia. destruct (j - k)%nat as [|i] eqn:Ei; [lia|]. simpl.
    rewrite lookup_drop. f_equal. lia.
Qed.

(** Other names are found exactly as before. *)
Lemma find_other name es de :
  ~ names name de ->
  list_find (names name) (put_entry es (free_slot es) de) = list_find (names name) es.
Proof.
  intros Hnd. pose proof (fun j => lookup_put_entry es (free_slot es) de j (free_slot_bound es)) as Hput.
  set (k := free_slot es) in *.
  assert (forall j e, put_entry es k de !! j = Some e -> names name e -> es !! j = Some e) as H1.
  { intros j e. rewrite Hput. case_decide; [intros [= <-]; done|]. done. }
  assert (forall j e, es !! j = Some e -> names name e -> put_entry es k de !! j = Some e) as H2.
  { intros j e Hj Hn. rewrite Hput, decide_False; [done|].
    intros ->. by apply (free_slot_dead es e Hj), (live_names name). }
  destruct (list_find (names name) es) as [[j e]|] eqn:E.
  - apply list_find_Some in E as (Hj & Hn & Hfirst). apply list_find_Some.
    split_and!; [by apply H2|done|]. intros i x Hi Hlt Hx. by apply (Hfirst i x); [apply H1| |].
  - apply list_find_None. apply list_find_None in E. apply Forall_lookup. intros j e Hj Hn.
    by apply (Forall_lookup_1 _ _ _ _ E (H1 j e Hj Hn)).
Qed.

(** The new name is found where it was put. *)
Lemma find_new name es de :
  names name de -> list_find (names name) es = None ->
  list_find (names name) (put_entry es (free_slot es) de) = Some (free_slot es, de).
Proof.
  intros Hn Hnone. pose proof (fun j => lookup_put_entry es (free_slot es) de j (free_slot_bound es)) as Hput.
  apply list_find_None in Hnone. apply list_find_Some. split_and!; [by rewrite Hput, decide_True|done|].
  intros j e Hj Hlt Hne. rewrite Hput, decide_False in Hj by lia.
  by apply (Forall_lookup_1 _ _ _ _ Hnone Hj).
Qed.
