(* ===== verification/Kalloc.v ===== *)
(** * The physical page allocator ([kalloc.c])

    The free list is threaded through the free pages themselves: the first
    word of a free page holds the address of the next one.  The allocator's
    state is the byte memory together with [kmem]. *)

From S2P Require Import Prelude Params CString.

(** [kmem], with the memory the list lives in. *)
Record kmem := Kmem {
  km_mem : mem;
  use_lock : Z;
  freelist : Z
}.

Definition load32 (m : mem) (a : Z) : Z :=
  m a + 2 ^ 8 * (m (a + 1) + 2 ^ 8 * (m (a + 2) + 2 ^ 8 * m (a + 3))).

Section Kalloc.
(** [end]: the first address after the kernel, known to the linker. *)
Context (kend : Z).

(** Free the page of physical memory pointed at by [v]. *)
Definition kfree (v : Z) : M kmem unit :=
  if negb (v mod PGSIZE =? 0) || (v <? kend) || (PHYSTOP <=? v2p v) then panic "kfree"
  else
    modify (fun k => Kmem (memset (km_mem k) v 1 PGSIZE) (use_lock k) (freelist k)) ;;;
    modify (fun k => Kmem (store32 v (freelist k) (km_mem k)) (use_lock k) (freelist k)) ;;;
    modify (fun k => Kmem (km_mem k) (use_lock k) v).

(** Allocate one page; 0 if there is none. *)
Definition kalloc : M kmem Z :=
  let! r := gets freelist in
  (if r =? 0 then ret tt
   else modify (fun k => Kmem (km_mem k) (use_lock k) (load32 (km_mem k) r))) ;;;
  ret r.

(** The addresses [p] of the loop of [freerange]. *)
Fixpoint pages (p vend : Z) (n : nat) : list Z :=
  match n with
  | O => []
  | S n' => if p + PGSIZE <=? vend then p :: pages (p + PGSIZE) vend n' else []
  end.

Definition freerange (vstart vend : Z) : M kmem unit :=
  let p := PGROUNDUP vstart in
  for_ (pages p vend (Z.to_nat (vend / PGSIZE))) kfree.

Definition kinit1 (vstart vend : Z) : M kmem unit :=
  modify (fun k => Kmem (km_mem k) 0 (freelist k)) ;;;
  freerange vstart vend.

Definition kinit2 (vstart vend : Z) : M kmem unit :=
  freerange vstart vend ;;;
  modify (fun k => Kmem (km_mem k) 1 (freelist k)).

(** ** The free list *)

(** [l] is what following the [next] pointers from [p] visits. *)
Fixpoint chained (m : mem) (p : Z) (l : list Z) : Prop :=
  match l with
  | [] => p = 0
  | x :: l' => p = x /\ x <> 0 /\ chained m (load32 m x) l'
  end.

(** An address [kfree] accepts. *)
Definition page_ok (v : Z) : Prop :=
  v mod PGSIZE = 0 /\ kend <= v /\ v2p v < PHYSTOP /\ 0 < v < 2 ^ 32.

(** The allocator's invariant: the pages on the free list are valid and
    different. *)
Record kmem_ok (k : kmem) (l : list Z) : Prop := {
  ko_chain : chained (km_mem k) (freelist k) l;
  ko_pages : Forall page_ok l;
  ko_nodup : NoDup l
}.

Lemma load32_store32 m a v : 0 <= v < 2 ^ 32 -> load32 (store32 a v m) a = v.
Proof.
  intros Hv. unfold load32, store32, poke, u8, wrap.
  repeat match goal with |- context [?x =? ?y] => destruct (Z.eqb_spec x y); try lia end.
  rewrite !Z.shiftr_div_pow2 by lia.
  change (2 ^ 8) with 256. change (2 ^ 16) with (256 * 256). change (2 ^ 24) with (256 * (256 * 256)).
  rewrite <- !Z.div_div by lia. set (a1 := v / 256). set (a2 := a1 / 256). set (a3 := a2 / 256).
  pose proof (Z.div_mod v 256). pose proof (Z.div_mod a1 256). pose proof (Z.div_mod a2 256).
  assert (0 <= a1 < 2 ^ 24 /\ 0 <= a2 < 2 ^ 16 /\ 0 <= a3 < 2 ^ 8) as (B1 & B2 & B3).
  { pose proof (Z.mod_pos_bound v 256). pose proof (Z.mod_pos_bound a1 256). pose proof (Z.mod_pos_bound a2 256). lia. }
  rewrite (Z.mod_small a3) by lia. lia.
Qed.

Lemma load32_ext m m' a : (forall x, a <= x < a + 4 -> m' x = m x) -> load32 m' a = load32 m a.
Proof. intros H. unfold load32. rewrite !H by lia. done. Qed.

Lemma chained_ext m m' p l :
  (forall x y, x ∈ l -> x <= y < x + 4 -> m' y = m y) -> chained m p l -> chained m' p l.
Proof.
  revert p. induction l as [|x l IH]; intros p H; simpl; [done|]. intros (-> & Hx & Hc).
  split; [done|]. split; [done|]. rewrite (load32_ext m m').
  - apply IH; [|done]. intros y z Hy. apply H. by right.
  - intros y Hy. apply (H x); [by left|done].
Qed.

Lemma store32_other a v m x : ~ a <= x < a + 4 -> store32 a v m x = m x.
Proof.
  intros H. unfold store32, poke.
  by repeat match goal with |- context [?x =? ?y] => destruct (Z.eqb_spec x y); try lia end.
Qed.

(** Two pages are the same or do not overlap. *)
Lemma pages_apart v w : v mod PGSIZE = 0 -> w mod PGSIZE = 0 -> v <> w -> v + PGSIZE <= w \/ w + PGSIZE <= v.
Proof.
  intros Hv Hw Hne. apply Z.mod_divide in Hv as [a ->]; [|done]. apply Z.mod_divide in Hw as [b ->]; [|done].
  unfold PGSIZE in *. lia.
Qed.

(** ** [kfree] and [kalloc] *)

(** What [kfree] does to a valid page: it becomes the first of the free list,
    its other bytes are set to 1, and no byte outside it changes. *)
Lemma kfree_run k l v :
  kmem_ok k l -> page_ok v -> v ∉ l ->
  exists k', kfree v k = Ok tt k' /\ kmem_ok k' (v :: l) /\ use_lock k' = use_lock k /\
    (forall x, ~ v <= x < v + PGSIZE -> km_mem k' x = km_mem k x) /\
    (forall x, v + 4 <= x < v + PGSIZE -> km_mem k' x = 1).
Proof.
  intros [Hc Hp Hn] (Ha & He & Hph & Hr) Hin. unfold kfree, bind, modify.
  destruct (Z.eqb_spec (v mod PGSIZE) 0); [|done]. destruct (Z.ltb_spec v kend); [lia|].
  destruct (Z.leb_spec PHYSTOP (v2p v)); [lia|]. simpl.
  set (m := store32 v (freelist k) (memset (km_mem k) v 1 PGSIZE)).
  assert (forall x, ~ v <= x < v + PGSIZE -> m x = km_mem k x) as Hout.
  { intros x Hx. unfold m. rewrite store32_other by (unfold PGSIZE in *; lia).
    rewrite memset_spec by done. unfold filled.
    destruct (Z.leb_spec v x), (Z.ltb_spec x (v + PGSIZE)); try lia; done. }
  eexists. split; [done|]. split; [|split; [done|split; [done|]]].
  - split; simpl.
    + split; [done|]. split; [lia|]. unfold m. rewrite load32_store32.
      * eapply chained_ext; [|exact Hc]. intros x y Hx Hy. apply Hout.
        rewrite Forall_forall in Hp. destruct (Hp x Hx) as (Hxa & _).
        assert (v <> x) as Hne by congruence. destruct (pages_apart v x Ha Hxa Hne); unfold PGSIZE in *; lia.
      * destruct l as [|x l]; simpl in Hc; [by rewrite Hc|]. destruct Hc as (-> & _).
        apply Forall_cons in Hp as [(_ & _ & _ & ?) _]. lia.
    + by constructor.
    + by constructor.
  - intros x Hx. simpl. unfold m. rewrite store32_other by lia. rewrite memset_spec by done. unfold filled.
    destruct (Z.leb_spec v x), (Z.ltb_spec x (v + PGSIZE)); try lia; done.
Qed.

(** Addresses that are not pages of physical memory are refused. *)
Lemma kfree_bad k v : v mod PGSIZE <> 0 \/ v < kend \/ PHYSTOP <= v2p v -> kfree v k = Panic "kfree".
Proof.
  intros H. unfold kfree. destruct (Z.eqb_spec (v mod PGSIZE) 0), (Z.ltb_spec v kend), (Z.leb_spec PHYSTOP (v2p v));
    simpl; try done. lia.
Qed.

(** [kalloc] takes the first page of the free list, or fails when it is
    empty. *)
Lemma kalloc_run k l :
  kmem_ok k l ->
  exists k', kalloc k = Ok (hd 0 l) k' /\ kmem_ok k' (tl l) /\ km_mem k' = km_mem k /\ use_lock k' = use_lock k.
Proof.
  intros [Hc Hp Hn]. unfold kalloc, bind, gets, modify, ret. destruct l as [|x l]; simpl in Hc.
  - rewrite Hc. simpl. exists k. split; [done|]. split; [|done]. split; [simpl; congruence|constructor|constructor].
  - destruct Hc as (-> & Hx & Hc). destruct (Z.eqb_spec x 0); [done|]. eexists. split; [done|].
    split; [|done]. apply Forall_cons in Hp as [_ Hp]. apply NoDup_cons in Hn as [_ Hn]. by split.
Qed.

(** ** [freerange] *)

Lemma pages_spec p vend n x :
  x ∈ pages p vend n -> exists i, (i < n)%nat /\ x = p + Z.of_nat i * PGSIZE /\ x + PGSIZE <= vend.
Proof.
  revert p. induction n as [|n IH]; intros p; simpl; [set_solver|].
  destruct (Z.leb_spec (p + PGSIZE) vend); [|set_solver].
  intros [->|Hx]%elem_of_cons.
  - exists O. split; [lia|]. split; [lia|done].
  - destruct (IH _ Hx) as (i & Hi & -> & Hv). exists (S i). unfold PGSIZE in *. lia.
Qed.

Lemma pages_nodup p vend n : NoDup (pages p vend n).
Proof.
  revert p. induction n as [|n IH]; intros p; simpl; [constructor|]. destruct (p + PGSIZE <=? vend); [|constructor].
  constructor; [|apply IH]. intros Hx. apply pages_spec in Hx as (i & _ & E & _). unfold PGSIZE in E. lia.
Qed.

(** The loop stops because the range ends, not because of the bound. *)
Lemma pages_all p vend n i :
  0 <= p -> vend <= Z.of_nat n * PGSIZE + p -> p + Z.of_nat i * PGSIZE + PGSIZE <= vend ->
  p + Z.of_nat i * PGSIZE ∈ pages p vend n.
Proof.
  assert (PGSIZE = 4096) as EP by done.
  revert p i. induction n as [|n IH]; intros p i Hp Hn Hi; [lia|]. cbn [pages].
  destruct (Z.leb_spec (p + PGSIZE) vend); [|lia]. destruct i as [|i].
  - replace (p + Z.of_nat 0 * PGSIZE) with p by lia. by left.
  - right. replace (p + Z.of_nat (S i) * PGSIZE) with (p + PGSIZE + Z.of_nat i * PGSIZE) by lia. apply IH; lia.
Qed.

Lemma freerange_loop ps k l :
  kmem_ok k l -> Forall page_ok ps -> NoDup ps -> (forall x, x ∈ ps -> x ∉ l) ->
  exists k', for_ ps kfree k = Ok tt k' /\ kmem_ok k' (reverse ps ++ l) /\ use_lock k' = use_lock k.
Proof.
  revert k l. induction ps as [|p ps IH]; intros k l Hk Hp Hn Hd.
  - exists k. done.
  - apply Forall_cons in Hp as [Hp1 Hp]. apply NoDup_cons in Hn as [Hn1 Hn].
    destruct (kfree_run k l p Hk Hp1) as (k1 & E1 & Hk1 & U1 & _); [apply Hd; by left|].
    destruct (IH k1 (p :: l) Hk1 Hp Hn) as (k2 & E2 & Hk2 & U2).
    { intros x Hx [->|Hx']%elem_of_cons; [done|]. by apply (Hd x); [right|]. }
    exists k2. simpl. unfold bind. rewrite E1, E2. split; [done|]. split; [|congruence].
    by rewrite reverse_cons, <- app_assoc.
Qed.

(** [freerange] puts exactly the pages that lie inside the range on the free
    list. *)
Lemma freerange_spec k l vstart vend :
  kmem_ok k l -> KERNBASE <= vstart -> kend <= vstart -> vend <= KERNBASE + PHYSTOP ->
  vstart <= 2 ^ 32 - PGSIZE -> (forall x, x ∈ l -> x < vstart \/ vend <= x) ->
  exists k' l', freerange vstart vend k = Ok tt k' /\ kmem_ok k' (l' ++ l) /\ use_lock k' = use_lock k /\
    forall x, x ∈ l' <-> x mod PGSIZE = 0 /\ vstart <= x /\ x + PGSIZE <= vend.
Proof.
  intros Hk Hb He Hv Hs Hd. assert (PGSIZE = 4096 /\ KERNBASE = 2147483648 /\ PHYSTOP = 234881024) as (EP & EK & ES) by done.
  destruct (PGROUNDUP_spec vstart) as [[Hge Hlt] Hmod]; [lia|].
  assert (forall x, x ∈ pages (PGROUNDUP vstart) vend (Z.to_nat (vend / PGSIZE)) <->
    x mod PGSIZE = 0 /\ vstart <= x /\ x + PGSIZE <= vend) as Hiff.
  { intros x. split.
    - intros (i & _ & -> & Hx)%pages_spec. rewrite Z.mod_add by done. split; [done|]. lia.
    - intros (Hx & Hx1 & Hx2). apply Z.mod_divide in Hx as [a ->]; [|done].
      apply Z.mod_divide in Hmod as [b Eb]; [|done]. rewrite Eb in *.
      assert (b <= a) by lia. replace (a * PGSIZE) with (b * PGSIZE + Z.of_nat (Z.to_nat (a - b)) * PGSIZE) in * by lia.
      apply pages_all; [lia| |lia]. pose proof (Z.div_mod vend PGSIZE ltac:(done)).
      pose proof (Z.mod_pos_bound vend PGSIZE ltac:(done)). lia. }
  set (ps := pages _ _ _) in *.
  destruct (freerange_loop ps k l Hk) as (k' & E & Hk' & U).
  - apply Forall_forall. intros x (Hx & Hx1 & Hx2)%Hiff. unfold page_ok, v2p.
    rewrite u32_small by lia. split_and!; lia.
  - apply pages_nodup.
  - intros x (Hx & Hx1 & Hx2)%Hiff Hl. destruct (Hd x Hl); lia.
  - exists k', (reverse ps). split; [done|]. split; [done|]. split; [done|].
    intros x. rewrite elem_of_reverse. apply Hiff.
Qed.
End Kalloc.
