(* ===== verification/Vm.v ===== *)
(** * Page tables ([vm.c])

    Two-level x86 page tables in the byte memory the page allocator manages.
    Pointers to page directory and page table entries are addresses; a null
    pointer is 0.  The routines that load segment and control registers are in
    [Segment]. *)

From S2P Require Import Prelude Params CString Kalloc.

(** Memory access inside the allocator's state. *)
Definition peek (a : Z) : M kmem Z := gets (fun k => load32 (km_mem k) a).
Definition on_mem (f : mem -> mem) : M kmem unit :=
  modify (fun k => Kmem (f (km_mem k)) (use_lock k) (freelist k)).

(** Store a run of bytes. *)
Fixpoint put_bytes (a : Z) (l : list Z) (m : mem) : mem :=
  match l with
  | [] => m
  | c :: l' => put_bytes (a + 1) l' (poke a c m)
  end.

Section Vm.
(** [end] and [data], the linker's symbols. *)
Context (kend data : Z).

(** The address of the PTE in page table [pgdir] for [va], creating the page
    table page if [alloc]. *)
Definition walkpgdir (pgdir va : Z) (alloc : bool) : M kmem Z :=
  let pde := pgdir + 4 * PDX va in
  let! e := peek pde in
  if has e PTE_P then ret (p2v (PTE_ADDR e) + 4 * PTX va)
  else if negb alloc then ret 0
  else
    let! pgtab := kalloc in
    if pgtab =? 0 then ret 0
    else
      on_mem (fun m => memset m pgtab 0 PGSIZE) ;;;
      on_mem (store32 pde (Z.lor (Z.lor (Z.lor (v2p pgtab) PTE_P) PTE_W) PTE_U)) ;;;
      ret (pgtab + 4 * PTX va).

(** The loop of [mappages]. *)
Fixpoint mappages_loop (fuel : nat) (pgdir a last pa perm : Z) : M kmem Z :=
  match fuel with
  | O => fun _ => Fuel
  | S f =>
      let! pte := walkpgdir pgdir a true in
      if pte =? 0 then ret (-1)
      else
        let! e := peek pte in
        if has e PTE_P then panic "remap"
        else
          on_mem (store32 pte (Z.lor (Z.lor pa perm) PTE_P)) ;;;
          if a =? last then ret 0
          else mappages_loop f pgdir (u32 (a + PGSIZE)) last (u32 (pa + PGSIZE)) perm
  end.

(** Create PTEs for virtual addresses starting at [va] that refer to physical
    addresses starting at [pa]. *)
Definition mappages (pgdir va size pa perm : Z) : M kmem Z :=
  let a := PGROUNDDOWN va in
  let last := PGROUNDDOWN (u32 (va + size - 1)) in
  mappages_loop (S (Z.to_nat (u32 (last - a) / PGSIZE))) pgdir a last pa perm.

(** The kernel's mappings. *)
Record kmap_entry := Kmap { virt : Z; phys_start : Z; phys_end : Z; k_perm : Z }.

Definition kmap : list kmap_entry :=
  [ Kmap KERNBASE 0 EXTMEM PTE_W;
    Kmap KERNLINK (v2p KERNLINK) (v2p data) 0;
    Kmap data (v2p data) PHYSTOP PTE_W;
    Kmap DEVSPACE DEVSPACE 0 PTE_W ].

(** Set up kernel part of a page table. *)
Definition setupkvm : M kmem Z :=
  let! pgdir := kalloc in
  if pgdir =? 0 then ret 0
  else
    on_mem (fun m => memset m pgdir 0 PGSIZE) ;;;
    if DEVSPACE <? p2v PHYSTOP then panic "PHYSTOP too high"
    else
      let! r := first_ kmap (fun k =>
        let! r := mappages pgdir (virt k) (u32 (phys_end k - phys_start k)) (phys_start k) (k_perm k) in
        if r <? 0 then ret (Some 0) else ret None) in
      ret (default pgdir r).

(** Load the initcode into address 0 of [pgdir]. *)
Definition inituvm (pgdir : Z) (init : list Z) (sz : Z) : M kmem unit :=
  if PGSIZE <=? sz then panic "inituvm: more than a page"
  else
    let! mem := kalloc in
    on_mem (fun m => memset m mem 0 PGSIZE) ;;;
    let! _ := mappages pgdir 0 PGSIZE (v2p mem) (Z.lor PTE_W PTE_U) in
    on_mem (put_bytes mem (take (Z.to_nat sz) init)).

(** The loop of [deallocuvm]. *)
Fixpoint dealloc_loop (fuel : nat) (pgdir a oldsz : Z) : M kmem unit :=
  if a <? oldsz then
    match fuel with
    | O => fun _ => Fuel
    | S f =>
        let! pte := walkpgdir pgdir a false in
        if pte =? 0 then dealloc_loop f pgdir (u32 (a + (NPTENTRIES - 1) * PGSIZE + PGSIZE)) oldsz
        else
          let! e := peek pte in
          (if has e PTE_P then
             let pa := PTE_ADDR e in
             if pa =? 0 then panic "kfree"
             else
               kfree kend (p2v pa) ;;;
               on_mem (store32 pte 0)
           else ret tt) ;;;
          dealloc_loop f pgdir (u32 (a + PGSIZE)) oldsz
    end
  else ret tt.

(** Deallocate user pages to bring the process size from [oldsz] to [newsz]. *)
Definition deallocuvm (pgdir oldsz newsz : Z) : M kmem Z :=
  if oldsz <=? newsz then ret oldsz
  else
    dealloc_loop (Z.to_nat (oldsz / PGSIZE + 1)) pgdir (PGROUNDUP newsz) oldsz ;;;
    ret newsz.

(** The pages [a = PGROUNDUP(lo); a < hi; a += PGSIZE]. *)
Definition page_range (lo hi : Z) : list Z :=
  (fun k => PGROUNDUP lo + Z.of_nat k * PGSIZE) <$> upto ((hi - PGROUNDUP lo + PGSIZE - 1) / PGSIZE).

(** Allocate page tables and physical memory to grow process from [oldsz] to
    [newsz]. *)
Definition allocuvm (pgdir oldsz newsz : Z) : M kmem Z :=
  if KERNBASE <=? newsz then ret 0
  else if newsz <? oldsz then ret oldsz
  else
    let! r := first_ (page_range oldsz newsz) (fun a =>
      let! mem := kalloc in
      if mem =? 0 then
        deallocuvm pgdir newsz oldsz ;;;
        ret (Some 0)
      else
        on_mem (fun m => memset m mem 0 PGSIZE) ;;;
        mappages pgdir a PGSIZE (v2p mem) (Z.lor PTE_W PTE_U) ;;;
        ret None) in
    ret (default newsz r).

(** Free a page table and all the physical memory pages in the user part. *)
Definition freevm (pgdir : Z) : M kmem unit :=
  if pgdir =? 0 then panic "freevm: no pgdir"
  else
    deallocuvm pgdir KERNBASE 0 ;;;
    for_ (upto NPDENTRIES) (fun i =>
      let! e := peek (pgdir + 4 * Z.of_nat i) in
      if has e PTE_P then kfree kend (p2v (PTE_ADDR e)) else ret tt) ;;;
    kfree kend pgdir.

(** Clear PTE_U on a page. *)
Definition clearpteu (pgdir uva : Z) : M kmem unit :=
  let! pte := walkpgdir pgdir uva false in
  if pte =? 0 then panic "clearpteu"
  else
    let! e := peek pte in
    on_mem (store32 pte (clr_flag e PTE_U)).

(** Given a parent process's page table, create a copy of it for a child. *)
Definition copyuvm (pgdir sz : Z) : M kmem Z :=
  let! d := setupkvm in
  if d =? 0 then ret 0
  else
    let! r := first_ (page_range 0 sz) (fun i =>
      let! pte := walkpgdir pgdir i false in
      if pte =? 0 then panic "copyuvm: pte should exist"
      else
        let! e := peek pte in
        if negb (has e PTE_P) then panic "copyuvm: page not present"
        else
          let pa := PTE_ADDR e in
          let flags := PTE_FLAGS e in
          let! mem := kalloc in
          if mem =? 0 then freevm d ;;; ret (Some 0)
          else
            on_mem (fun m => memmove m mem (p2v pa) PGSIZE) ;;;
            let! r := mappages d i PGSIZE (v2p mem) flags in
            if r <? 0 then freevm d ;;; ret (Some 0)
            else ret None) in
    ret (default d r).

(** Map user virtual address to kernel address. *)
Definition uva2ka (pgdir uva : Z) : M kmem Z :=
  let! pte := walkpgdir pgdir uva false in
  let! e := peek pte in
  if negb (has e PTE_P) then ret 0
  else if negb (has e PTE_U) then ret 0
  else ret (p2v (PTE_ADDR e)).

(** The loop of [copyout]: [buf] is what is left to copy. *)
Fixpoint copyout_loop (fuel : nat) (pgdir va : Z) (buf : list Z) : M kmem Z :=
  match buf with
  | [] => ret 0
  | _ =>
      match fuel with
      | O => fun _ => Fuel
      | S f =>
          let va0 := PGROUNDDOWN va in
          let! pa0 := uva2ka pgdir va0 in
          if pa0 =? 0 then ret (-1)
          else
            let n := Z.to_nat (Z.min (PGSIZE - (va - va0)) (Z.of_nat (length buf))) in
            on_mem (put_bytes (pa0 + (va - va0)) (take n buf)) ;;;
            copyout_loop f pgdir (u32 (va0 + PGSIZE)) (drop n buf)
      end
  end.

(** Copy the bytes [p] to user address [va] in page table [pgdir]. *)
Definition copyout (pgdir va : Z) (p : list Z) : M kmem Z :=
  copyout_loop (length p) pgdir va p.
End Vm.
