(* ===== verification/VmMap.v ===== *)
(** * Address spaces as maps from page numbers to entries

    What the page-table routines mean: an address space is a page directory,
    the page tables it refers to, and for every virtual page number the entry
    the hardware finds.  The routines are proved against that map. *)

From S2P Require Import Prelude Params CString Kalloc Vm.

(** ** Entries: a page-aligned address together with low-order flags *)

Lemma lor_flags x f : x mod PGSIZE = 0 -> 0 <= f < PGSIZE -> Z.lor x f = x + f.
Proof.
  intros Hx Hf. symmetry.
  assert (Z.land x f = 0) as HL.
  { apply Z.bits_inj'. intros n Hn. rewrite Z.land_spec, Z.bits_0. destruct (Z.ltb_spec n 12).
    - apply Z.mod_divide in Hx as [q ->]; [|done]. change PGSIZE with (2 ^ 12).
      rewrite Z.mul_pow2_bits_low by lia. done.
    - rewrite <- (Z.mod_small f (2 ^ 12)) by (unfold PGSIZE in Hf; lia).
      rewrite Z.mod_pow2_bits_high by lia. apply andb_false_r. }
  rewrite Z.add_nocarry_lxor by done. by apply Z.lxor_lor.
Qed.

Lemma PTE_ADDR_entry x f :
  0 <= x < 2 ^ 32 -> x mod PGSIZE = 0 -> 0 <= f < PGSIZE -> PTE_ADDR (Z.lor x f) = x.
Proof.
  intros Hr Hx Hf. rewrite lor_flags by done. unfold PTE_ADDR.
  apply Z.mod_divide in Hx as [q ->]; [|done]. unfold PGSIZE in *.
  change (u32 (Z.lnot 0xFFF)) with (u32 (Z.lnot (PGSIZE - 1))). rewrite pground_mask by lia.
  unfold PGSIZE. rewrite Z.div_add_l by done. rewrite (Z.div_small f) by done. lia.
Qed.

Lemma PTE_FLAGS_entry x f : x mod PGSIZE = 0 -> 0 <= f < PGSIZE -> PTE_FLAGS (Z.lor x f) = f.
Proof.
  intros Hx Hf. rewrite lor_flags by done. unfold PTE_FLAGS. change 0xFFF with (Z.ones 12).
  rewrite Z.land_ones by lia. apply Z.mod_divide in Hx as [q ->]; [|done]. unfold PGSIZE in *.
  rewrite Z.add_comm, Z.mod_add by done. by apply Z.mod_small.
Qed.

Lemma has_entry x f m :
  x mod PGSIZE = 0 -> 0 <= f < PGSIZE -> 0 <= m < PGSIZE -> has (Z.lor x f) m = has f m.
Proof.
  intros Hx Hf Hm. unfold has. rewrite Z.land_lor_distr_l.
  replace (Z.land x m) with 0; [by rewrite Z.lor_0_l|]. symmetry.
  apply Z.bits_inj'. intros n Hn. rewrite Z.land_spec, Z.bits_0. destruct (Z.ltb_spec n 12).
  - apply Z.mod_divide in Hx as [q ->]; [|done]. change PGSIZE with (2 ^ 12).
    rewrite Z.mul_pow2_bits_low by lia. done.
  - rewrite <- (Z.mod_small m (2 ^ 12)) by (unfold PGSIZE in Hm; lia).
    rewrite Z.mod_pow2_bits_high by lia. apply andb_false_r.
Qed.

Lemma lor_range x y : 0 <= x < PGSIZE -> 0 <= y < PGSIZE -> 0 <= Z.lor x y < PGSIZE.
Proof.
  intros Hx Hy. split; [apply Z.lor_nonneg; lia|]. change PGSIZE with (2 ^ 12) in *.
  destruct (Z.eq_dec (Z.lor x y) 0) as [->|Hz]; [done|]. apply Z.log2_lt_pow2.
  - assert (0 <= Z.lor x y) by (apply Z.lor_nonneg; lia). lia.
  - rewrite Z.log2_lor by lia. apply Z.max_lub_lt.
    + destruct (Z.eq_dec x 0) as [->|]; [done|]. apply Z.log2_lt_pow2; lia.
    + destruct (Z.eq_dec y 0) as [->|]; [done|]. apply Z.log2_lt_pow2; lia.
Qed.

Section VmMap.
Context (kend data : Z).
Hypothesis (Hkend : KERNBASE < kend).

#[local] Abbreviation page_ok := (page_ok kend).
#[local] Abbreviation kmem_ok := (kmem_ok kend).

(** Pages of the allocator, seen from both sides of the direct mapping. *)
Lemma page_range_ok t :
  page_ok t -> KERNBASE < t < KERNBASE + PHYSTOP /\ t mod PGSIZE = 0 /\ v2p t = t - KERNBASE.
Proof.
  intros (Ha & He & Hp & Hr). unfold v2p in *. rewrite u32_small in * by (unfold KERNBASE in *; lia).
  split; [lia|done].
Qed.

Lemma v2p_aligned t : page_ok t -> v2p t mod PGSIZE = 0 /\ 0 < v2p t < 2 ^ 32 - PGSIZE.
Proof.
  intros (Hr & Ha & ->)%page_range_ok. split.
  - apply Z.mod_divide in Ha as [q ->]; [|done].
    replace (q * PGSIZE - KERNBASE) with ((q - 2 ^ 19) * PGSIZE) by (unfold PGSIZE, KERNBASE; lia).
    by apply Z.mod_mul.
  - unfold KERNBASE, PHYSTOP, PGSIZE in *. lia.
Qed.

Lemma p2v_v2p t : page_ok t -> p2v (v2p t) = t.
Proof.
  intros (Hr & Ha & ->)%page_range_ok. unfold p2v. rewrite u32_small; unfold KERNBASE, PHYSTOP in *; lia.
Qed.

(** The entry for page [t] with flags [f], and what the macros read off it. *)
Lemma entry_frame t f : page_ok t -> 0 <= f < PGSIZE -> p2v (PTE_ADDR (Z.lor (v2p t) f)) = t.
Proof.
  intros Ht Hf. destruct (v2p_aligned t Ht) as [Ha Hr].
  rewrite PTE_ADDR_entry by (done || unfold PGSIZE in *; lia). by apply p2v_v2p.
Qed.

Lemma entry_range t f : page_ok t -> 0 <= f < PGSIZE -> 0 <= Z.lor (v2p t) f < 2 ^ 32.
Proof.
  intros Ht Hf. destruct (v2p_aligned t Ht) as [Ha Hr]. rewrite lor_flags by done. lia.
Qed.

(** ** Address spaces *)

(** [space m pgdir T]: in memory [m], directory entry [i] of [pgdir] refers to
    the page table [T !! i], and is not present when there is none. *)
Record space (m : mem) (pgdir : Z) (T : gmap Z Z) : Prop := {
  sp_dir : page_ok pgdir;
  sp_tab : forall i t, T !! i = Some t ->
    0 <= i < NPDENTRIES /\ page_ok t /\ t <> pgdir /\ load32 m (pgdir + 4 * i) = Z.lor (v2p t) 7;
  sp_inj : forall i j t, T !! i = Some t -> T !! j = Some t -> i = j;
  sp_none : forall i, 0 <= i < NPDENTRIES -> T !! i = None -> has (load32 m (pgdir + 4 * i)) PTE_P = false
}.

(** The pages an address space's directory and tables occupy. *)
Definition owns_page (pgdir : Z) (T : gmap Z Z) (p : Z) : Prop := p = pgdir \/ exists i, T !! i = Some p.

(** The entry of virtual page [n]; 0 where there is no page table. *)
Definition entry (m : mem) (T : gmap Z Z) (n : Z) : Z :=
  match T !! (n / NPTENTRIES) with
  | Some t => load32 m (t + 4 * (n mod NPTENTRIES))
  | None => 0
  end.

(** The virtual page numbers. *)
Definition vpage (n : Z) : Prop := 0 <= n < 2 ^ 20.

Lemma vpage_index n : vpage n -> 0 <= n / NPTENTRIES < NPDENTRIES /\ 0 <= n mod NPTENTRIES < NPTENTRIES.
Proof.
  intros Hn. unfold vpage, NPTENTRIES, NPDENTRIES in *. pose proof (Z.mod_pos_bound n 1024).
  pose proof (Z.div_mod n 1024). lia.
Qed.

Lemma index_inj n n' : n / NPTENTRIES = n' / NPTENTRIES -> n mod NPTENTRIES = n' mod NPTENTRIES -> n = n'.
Proof. intros H1 H2. rewrite (Z.div_mod n NPTENTRIES), (Z.div_mod n' NPTENTRIES) by done. congruence. Qed.

Lemma PDX_page n : vpage n -> PDX (n * PGSIZE) = n / NPTENTRIES.
Proof.
  intros Hn. unfold vpage, PGSIZE, NPTENTRIES in *. rewrite PDX_spec by lia.
  change (2 ^ 22) with (1024 * 4096). by rewrite Z.div_mul_cancel_r.
Qed.

Lemma PTX_page n : vpage n -> PTX (n * PGSIZE) = n mod NPTENTRIES.
Proof.
  intros Hn. unfold vpage, PGSIZE, NPTENTRIES in *. rewrite PTX_spec by lia.
  change (2 ^ 12) with 4096. by rewrite Z.div_mul.
Qed.

(** A byte of page [p]. *)
Definition in_page (p x : Z) : Prop := p <= x < p + PGSIZE.

Lemma in_page_eq p q x : page_ok p -> page_ok q -> in_page p x -> in_page q x -> p = q.
Proof.
  intros (Hp & _) (Hq & _) H1 H2. destruct (decide (p = q)) as [|Hne]; [done|].
  destruct (pages_apart p q Hp Hq Hne); unfold in_page in *; lia.
Qed.

Lemma page_other p q x : page_ok p -> page_ok q -> p <> q -> in_page p x -> ~ in_page q x.
Proof. intros Hp Hq Hne Hx Hx'. by apply Hne, (in_page_eq p q x). Qed.

(** The words of a table lie in its page. *)
Lemma word_in_page p i x : 0 <= i < 1024 -> p + 4 * i <= x < p + 4 * i + 4 -> in_page p x.
Proof. unfold in_page, PGSIZE. lia. Qed.

Lemma owned_ok m pgdir T p : space m pgdir T -> owns_page pgdir T p -> page_ok p.
Proof. intros Hs [->|[i Hi]]; [apply Hs|]. by apply (sp_tab _ _ _ Hs) in Hi as (_ & ? & _). Qed.

(** An address space only depends on the pages of its directory and tables. *)
Lemma space_ext m m' pgdir T :
  (forall p x, owns_page pgdir T p -> in_page p x -> m' x = m x) -> space m pgdir T ->
  space m' pgdir T /\ forall n, vpage n -> entry m' T n = entry m T n.
Proof.
  intros He Hs. assert (forall i, 0 <= i < NPDENTRIES -> load32 m' (pgdir + 4 * i) = load32 m (pgdir + 4 * i)) as Hd.
  { intros i Hi. apply load32_ext. intros x Hx. apply (He pgdir); [by left|]. by apply (word_in_page _ i). }
  split.
  - split; [apply Hs| |apply Hs|].
    + intros i t Hi. destruct (sp_tab _ _ _ Hs i t Hi) as (? & ? & ? & <-). do 3 (split; [done|]). by apply Hd.
    + intros i Hi Hn. rewrite Hd by done. by apply (sp_none _ _ _ Hs).
  - intros n Hn. unfold entry. destruct (T !! (n / NPTENTRIES)) as [t|] eqn:E; [|done].
    apply load32_ext. intros x Hx. apply (He t); [right; by eexists|].
    apply (word_in_page _ (n mod NPTENTRIES)); [|done]. by apply vpage_index.
Qed.

(** Writing an entry of a page table. *)
Lemma space_store m pgdir T n t v :
  space m pgdir T -> vpage n -> T !! (n / NPTENTRIES) = Some t -> 0 <= v < 2 ^ 32 ->
  let m' := store32 (t + 4 * (n mod NPTENTRIES)) v m in
  space m' pgdir T /\ entry m' T n = v /\
  (forall n', vpage n' -> n' <> n -> entry m' T n' = entry m T n') /\
  (forall x, ~ in_page t x -> m' x = m x).
Proof.
  intros Hs Hn Ht Hv m'. destruct (vpage_index n Hn) as [Hi Hj].
  destruct (sp_tab _ _ _ Hs _ _ Ht) as (_ & Hpt & Hne & _).
  assert (forall x, ~ in_page t x -> m' x = m x) as Hout.
  { intros x Hx. apply store32_other. intros Hx'. apply Hx. by apply (word_in_page _ (n mod NPTENTRIES)). }
  assert (forall p, page_ok p -> p <> t -> forall i, 0 <= i < 1024 -> load32 m' (p + 4 * i) = load32 m (p + 4 * i)) as Hp.
  { intros p Hp Hpt' i Hi'. apply load32_ext. intros x Hx. apply Hout. intros Hx'. apply Hpt'.
    apply (in_page_eq p t x); [done|done| |done]. by apply (word_in_page _ i). }
  split; [|split; [|split; [|done]]].
  - split; [apply Hs| |apply Hs|].
    + intros i u Hu. destruct (sp_tab _ _ _ Hs i u Hu) as (? & ? & ? & <-). do 3 (split; [done|]).
      apply Hp; [apply Hs|done|done].
    + intros i Hi' Hnone. rewrite Hp; [|apply Hs|done|done]. by apply (sp_none _ _ _ Hs).
  - unfold entry. rewrite Ht. by apply load32_store32.
  - intros n' Hn' Hnn. unfold entry. destruct (T !! (n' / NPTENTRIES)) as [u|] eqn:Eu; [|done].
    destruct (vpage_index n' Hn') as [_ Hj']. destruct (decide (u = t)) as [->|Hut].
    + apply load32_ext. intros x Hx. apply store32_other. intros Hx'.
      assert (n mod NPTENTRIES = n' mod NPTENTRIES) as Em by lia.
      assert (n / NPTENTRIES = n' / NPTENTRIES) as Ed by (by eapply (sp_inj _ _ _ Hs)).
      by apply Hnn, index_inj.
    + apply Hp; [|done|done]. by apply (sp_tab _ _ _ Hs) in Eu as (_ & ? & _).
Qed.

(** ** [walkpgdir] *)

Lemma walk_hit k pgdir T n t alloc :
  space (km_mem k) pgdir T -> vpage n -> T !! (n / NPTENTRIES) = Some t ->
  walkpgdir pgdir (n * PGSIZE) alloc k = Ok (t + 4 * (n mod NPTENTRIES)) k.
Proof.
  intros Hs Hn Ht. destruct (sp_tab _ _ _ Hs _ _ Ht) as (_ & Hpt & _ & He).
  unfold walkpgdir, peek, bind, gets. rewrite PDX_page, PTX_page, He by done.
  rewrite entry_frame by done. rewrite has_entry by (done || by apply v2p_aligned). done.
Qed.

Lemma walk_none k pgdir T n :
  space (km_mem k) pgdir T -> vpage n -> T !! (n / NPTENTRIES) = None ->
  walkpgdir pgdir (n * PGSIZE) false k = Ok 0 k.
Proof.
  intros Hs Hn Ht. unfold walkpgdir, peek, bind, gets. rewrite PDX_page by done.
  rewrite (sp_none _ _ _ Hs) by (done || by apply vpage_index). done.
Qed.

(** ** Growing an address space *)

(** The free list [l] and the address space are apart. *)
Record vm_ok (k : kmem) (l : list Z) (pgdir : Z) (T : gmap Z Z) : Prop := {
  vo_free : kmem_ok k l;
  vo_space : space (km_mem k) pgdir T;
  vo_apart : forall p, owns_page pgdir T p -> p ∉ l
}.

(** From [k] to [k'] only page tables were added, with pages from the front of
    the free list, and only the directory and the tables were written. *)
Record grew (k : kmem) (l : list Z) (pgdir : Z) (T : gmap Z Z) (k' : kmem) (l' : list Z) (T' : gmap Z Z) : Prop := {
  gr_ok : vm_ok k' l' pgdir T';
  gr_list : exists xs, l = xs ++ l' /\ size T' = (size T + length xs)%nat /\
    forall p, owns_page pgdir T' p -> owns_page pgdir T p \/ p ∈ xs;
  gr_sub : T ⊆ T';
  gr_mem : forall x, (forall p, owns_page pgdir T' p -> ~ in_page p x) -> km_mem k' x = km_mem k x
}.

Lemma kmem_ok_frame k l m' :
  kmem_ok k l -> (forall p x, p ∈ l -> in_page p x -> m' x = km_mem k x) ->
  kmem_ok (Kmem m' (use_lock k) (freelist k)) l.
Proof.
  intros [Hc Hp Hn] He. split; [|done|done]. eapply chained_ext; [|exact Hc].
  intros p x Hx Hr. apply (He p); [done|]. unfold in_page, PGSIZE. lia.
Qed.

Lemma grew_refl k l pgdir T : vm_ok k l pgdir T -> grew k l pgdir T k l T.
Proof. intros H. split; [done| |done|done]. exists []. split; [done|]. split; [simpl; lia|]. by left. Qed.

Lemma owns_sub pgdir T T' p : T ⊆ T' -> owns_page pgdir T p -> owns_page pgdir T' p.
Proof. intros Hs [->|[i Hi]]; [by left|]. right. exists i. by eapply lookup_weaken. Qed.

Lemma grew_trans k l pgdir T k1 l1 T1 k2 l2 T2 :
  grew k l pgdir T k1 l1 T1 -> grew k1 l1 pgdir T1 k2 l2 T2 -> grew k l pgdir T k2 l2 T2.
Proof.
  intros [H1 (xs & -> & S1 & O1) B1 M1] [H2 (ys & -> & S2 & O2) B2 M2]. split; [done| | |].
  - exists (xs ++ ys). rewrite <- app_assoc. split; [done|]. split; [rewrite length_app; lia|].
    intros p Hp. rewrite elem_of_app. destruct (O2 p Hp) as [Hp'|]; [|by auto]. destruct (O1 p Hp'); auto.
  - by transitivity T1.
  - intros x Hx. rewrite M2, M1; [done| |done]. intros p Hp. apply Hx. by eapply owns_sub.
Qed.

(** A zeroed page entered in the directory. *)
Lemma space_new m pgdir T i x :
  space m pgdir T -> 0 <= i < NPDENTRIES -> T !! i = None -> page_ok x -> ~ owns_page pgdir T x ->
  let m' := store32 (pgdir + 4 * i) (Z.lor (Z.lor (Z.lor (v2p x) PTE_P) PTE_W) PTE_U) (memset m x 0 PGSIZE) in
  space m' pgdir (<[i := x]> T) /\
  (forall j, vpage j -> entry m' (<[i := x]> T) j = entry m T j) /\
  (forall y, ~ in_page pgdir y -> ~ in_page x y -> m' y = m y).
Proof.
  intros Hs Hi Hn Hx Hfresh m'.
  assert (m' = store32 (pgdir + 4 * i) (Z.lor (v2p x) 7) (memset m x 0 PGSIZE)) as Em' by (unfold m'; by rewrite <- !Z.lor_assoc).
  clearbody m'. subst m'.
  assert (x <> pgdir) as Hxd by (intros ->; apply Hfresh; by left).
  assert (forall y, ~ in_page x y -> memset m x 0 PGSIZE y = m y) as Hset.
  { intros y Hy. rewrite memset_spec by done. unfold filled, in_page in *. zcmp. }
  assert (forall y, ~ in_page pgdir y -> store32 (pgdir + 4 * i) (Z.lor (v2p x) 7) (memset m x 0 PGSIZE) y = memset m x 0 PGSIZE y) as Hst.
  { intros y Hy. apply store32_other. intros Hy'. apply Hy. by apply (word_in_page _ i). }
  set (m' := store32 _ _ _) in *.
  assert (forall j, 0 <= j < NPDENTRIES -> j <> i -> load32 m' (pgdir + 4 * j) = load32 m (pgdir + 4 * j)) as Hdir.
  { intros j Hj Hne. apply load32_ext. intros y Hy. unfold m'. rewrite store32_other by lia. apply Hset.
    intros Hy'. apply Hxd. apply (in_page_eq x pgdir y); [done|apply Hs|done|]. by apply (word_in_page _ j). }
  split; [|split].
  - split.
    + apply Hs.
    + intros j t. destruct (decide (j = i)) as [->|Hne].
      * rewrite lookup_insert_eq. intros [= ->]. do 3 (split; [done|]). unfold m'. apply load32_store32. by apply entry_range.
      * rewrite lookup_insert_ne by done. intros Ht. destruct (sp_tab _ _ _ Hs _ _ Ht) as (? & ? & ? & <-).
        do 3 (split; [done|]). by apply Hdir.
    + intros j j' t. destruct (decide (j = i)) as [->|], (decide (j' = i)) as [->|];
        rewrite ?lookup_insert_eq, ?lookup_insert_ne by done; intros H1 H2; simplify_eq; try done.
      * exfalso. apply Hfresh. right. by eexists.
      * exfalso. apply Hfresh. right. by eexists.
      * by eapply (sp_inj _ _ _ Hs).
    + intros j Hj. destruct (decide (j = i)) as [->|]; [by rewrite lookup_insert_eq|].
      rewrite lookup_insert_ne by done. intros Hnone. rewrite Hdir by done. by apply (sp_none _ _ _ Hs).
  - intros j Hj. destruct (vpage_index j Hj) as [_ Hjm]. unfold entry. destruct (decide (j / NPTENTRIES = i)) as [Ej|Hne].
    + rewrite Ej, Hn, lookup_insert_eq. unfold load32.
      assert (forall c, 0 <= c < 4 -> m' (x + 4 * (j mod NPTENTRIES) + c) = 0) as Hz.
      { intros c Hc. rewrite Hst.
        - rewrite memset_spec by done. unfold filled, NPTENTRIES, PGSIZE in *. by zcmp.
        - intros Hy. apply Hxd. apply (in_page_eq x pgdir (x + 4 * (j mod NPTENTRIES) + c)); [done|apply Hs| |done].
          apply (word_in_page _ (j mod NPTENTRIES)); [done|]. lia. }
      rewrite !Hz by lia. rewrite <- (Z.add_0_r (x + _)), Hz by lia. done.
    + rewrite lookup_insert_ne by done. destruct (T !! (j / NPTENTRIES)) as [t|] eqn:Et; [|done].
      destruct (sp_tab _ _ _ Hs _ _ Et) as (_ & Ht & Htd & _). apply load32_ext. intros y Hy.
      assert (in_page t y) as Hty by (by apply (word_in_page _ (j mod NPTENTRIES))).
      rewrite Hst, Hset; [done| |].
      * intros Hy'. apply Hfresh. right. exists (j / NPTENTRIES). rewrite Et. f_equal. by apply (in_page_eq t x y).
      * intros Hy'. apply Htd. apply (in_page_eq t pgdir y); [done|apply Hs|done|done].
  - intros y Hd Hx'. rewrite Hst by done. by apply Hset.
Qed.

(** The tables of [T'] beyond those of [T] are for the pages from [n] to [e]. *)
Definition new_tables (T T' : gmap Z Z) (n e : Z) : Prop :=
  forall i, is_Some (T' !! i) -> is_Some (T !! i) \/ n / NPTENTRIES <= i <= e / NPTENTRIES.

Lemma new_tables_refl T n e : new_tables T T n e.
Proof. by left. Qed.

Lemma new_tables_trans T T1 T2 n n1 e : n <= n1 <= e -> new_tables T T1 n n -> new_tables T1 T2 n1 e -> new_tables T T2 n e.
Proof.
  intros Hn H1 H2 i Hi. assert (n / NPTENTRIES <= n1 / NPTENTRIES <= e / NPTENTRIES) by (split; apply Z.div_le_mono; done || lia).
  destruct (H2 i Hi) as [Hi'|]; [|right; lia]. destruct (H1 i Hi') as [|]; [by left|right; lia].
Qed.

(** Creating a page table changes no entry. *)
Lemma walk_alloc k l pgdir T n :
  vm_ok k l pgdir T -> vpage n ->
  wp (walkpgdir pgdir (n * PGSIZE) true) (fun pte k' => exists l' T',
    grew k l pgdir T k' l' T' /\ (forall j, vpage j -> entry (km_mem k') T' j = entry (km_mem k) T j) /\ new_tables T T' n n /\
    ((pte = 0 /\ l' = []) \/ exists t, T' !! (n / NPTENTRIES) = Some t /\ pte = t + 4 * (n mod NPTENTRIES) /\ pte <> 0)) k.
Proof.
  intros [Hk Hs Ha] Hn. destruct (vpage_index n Hn) as [Hi Hj].
  destruct (T !! (n / NPTENTRIES)) as [t|] eqn:Et.
  { apply wp_ok. exists (t + 4 * (n mod NPTENTRIES)), k. split; [by eapply walk_hit|]. exists l, T. split; [by apply grew_refl|].
    split; [done|]. split; [apply new_tables_refl|]. right. exists t. split; [done|]. split; [done|].
    destruct (sp_tab _ _ _ Hs _ _ Et) as (_ & (Hr & _)%page_range_ok & _). unfold KERNBASE in *. lia. }
  unfold walkpgdir. apply wp_bind. unfold peek. apply wp_gets. rewrite PDX_page, PTX_page by done.
  rewrite (sp_none _ _ _ Hs) by done. cbn [negb]. apply wp_bind.
  destruct (kalloc_run kend k l Hk) as (k1 & E1 & Hk1 & M1 & U1). apply wp_ok. exists (hd 0 l), k1. split; [done|].
  destruct l as [|x l]; cbn [hd tl] in *.
  { apply wp_ret. exists [], T. split; [|split; [by rewrite M1|split; [apply new_tables_refl|by left]]]. split; [|by exists []; split; [done|split; [simpl; lia|by left]]|done|by rewrite M1].
    split; [done|by rewrite M1|set_solver]. }
  assert (page_ok x) as Hx by (destruct Hk as [_ Hp _]; by apply Forall_cons in Hp as [? _]).
  destruct (page_range_ok x Hx) as (Hxr & _). destruct (Z.eqb_spec x 0); [unfold KERNBASE in *; lia|].
  unfold on_mem. wp_steps. cbn [km_mem use_lock freelist]. rewrite M1.
  assert (~ owns_page pgdir T x) as Hfresh by (intros Ho; apply (Ha x Ho); by left).
  destruct (space_new (km_mem k) pgdir T (n / NPTENTRIES) x Hs Hi Et Hx Hfresh) as (Hs2 & He2 & Ho2).
  set (m2 := store32 _ _ _) in *. set (T2 := <[n / NPTENTRIES := x]> T) in *.
  assert (x ∉ l) as Hxl by (destruct Hk as [_ _ Hnd]; by apply NoDup_cons in Hnd as [? _]).
  assert (forall p, owns_page pgdir T2 p -> owns_page pgdir T p \/ p = x) as Hown.
  { intros p [->|[i Hp]]; [by left; left|]. unfold T2 in Hp. destruct (decide (i = n / NPTENTRIES)) as [->|].
    - rewrite lookup_insert_eq in Hp. right. congruence.
    - rewrite lookup_insert_ne in Hp by done. left. right. by eexists. }
  assert (new_tables T T2 n n) as Hnew.
  { intros i Hi'. unfold T2 in Hi'. destruct (decide (i = n / NPTENTRIES)) as [->|]; [by right|]. left. by rewrite lookup_insert_ne in Hi'. }
  exists l, T2. split; [|split; [done|split; [done|right; exists x; split; [apply lookup_insert_eq|split; [done|unfold KERNBASE in *; lia]]]]].
  split.
  - split; [|done|].
    + rewrite <- M1 in Ho2. apply (kmem_ok_frame k1 l m2 Hk1). intros p y Hp Hy.
      assert (page_ok p) as Hpp by (destruct Hk1 as [_ Hf _]; rewrite Forall_forall in Hf; by apply Hf).
      apply Ho2; intros Hy'.
      * assert (p = pgdir) as -> by (apply (in_page_eq p pgdir y); [done|apply Hs|done|done]). apply (Ha pgdir); [by left|by right].
      * assert (p = x) as -> by (by apply (in_page_eq p x y)). done.
    + intros p [Hp| ->]%Hown; [|done]. intros Hin. apply (Ha p Hp). by right.
  - exists [x]. split; [done|]. split; [unfold T2; rewrite map_size_insert_None by done; simpl; lia|].
    intros p [Hp| ->]%Hown; [by left|right; by left].
  - by apply insert_subseteq.
  - intros y Hy. apply Ho2; apply Hy; [by left|]. right. exists (n / NPTENTRIES). apply lookup_insert_eq.
Qed.

(** Writing a page-table entry of an address space. *)
Lemma set_entry k l pgdir T n t v :
  vm_ok k l pgdir T -> vpage n -> T !! (n / NPTENTRIES) = Some t -> 0 <= v < 2 ^ 32 ->
  wp (on_mem (store32 (t + 4 * (n mod NPTENTRIES)) v)) (fun _ k' =>
    grew k l pgdir T k' l T /\
    forall j, vpage j -> entry (km_mem k') T j = if j =? n then v else entry (km_mem k) T j) k.
Proof.
  intros [Hk Hs Ha] Hn Ht Hv. unfold on_mem. apply wp_modify.
  destruct (space_store (km_mem k) pgdir T n t v Hs Hn Ht Hv) as (Hs' & He & Hj & Ho).
  destruct (sp_tab _ _ _ Hs _ _ Ht) as (_ & Hpt & _).
  assert (owns_page pgdir T t) as Hot by (right; by eexists).
  split; [|intros j Hj'; cbn [km_mem]; destruct (Z.eqb_spec j n) as [->|]; [done|by apply Hj]]. split; [split| |done|].
  - apply kmem_ok_frame; [done|]. intros p x Hp Hx. apply Ho. intros Hx'.
    assert (page_ok p) as Hpp by (destruct Hk as [_ Hf _]; rewrite Forall_forall in Hf; by apply Hf).
    apply (Ha t Hot). by rewrite <- (in_page_eq p t x).
  - done.
  - done.
  - exists []. split; [done|]. split; [simpl; lia|by left].
  - intros x Hx. apply Ho. by apply Hx.
Qed.

(** What mapping the pages from [n] below [e] does to the entries. *)
Definition mapped_range (f g : Z -> Z) (n e pa perm : Z) : Prop :=
  forall j, vpage j ->
    g j = if (n <=? j) && (j <? e) then Z.lor (Z.lor (pa + (j - n) * PGSIZE) perm) PTE_P else f j.

Lemma mapped_range_step f g h n e pa perm :
  n < e -> mapped_range f g n (n + 1) pa perm -> mapped_range g h (n + 1) e (pa + PGSIZE) perm ->
  mapped_range f h n e pa perm.
Proof.
  intros Hne H1 H2 j Hj. rewrite (H2 j Hj), (H1 j Hj).
  destruct (Z.leb_spec (n + 1) j), (Z.leb_spec n j), (Z.ltb_spec j e), (Z.ltb_spec j (n + 1)); simpl;
    try lia; try done; f_equal; f_equal; lia.
Qed.

(** The loop of [mappages] maps the range, or runs out of memory after a part
    of it; an entry that was present is a panic. *)
Lemma mappages_loop_spec c k l pgdir T n pa perm :
  vm_ok k l pgdir T -> 0 <= n -> n + Z.of_nat c < 2 ^ 20 ->
  pa mod PGSIZE = 0 -> 0 <= pa -> pa + Z.of_nat c * PGSIZE < 2 ^ 32 -> 0 <= perm < PGSIZE ->
  (forall j, n <= j <= n + Z.of_nat c -> has (entry (km_mem k) T j) PTE_P = false) ->
  wp (mappages_loop (S c) pgdir (n * PGSIZE) ((n + Z.of_nat c) * PGSIZE) pa perm) (fun r k' =>
    exists l' T' e, grew k l pgdir T k' l' T' /\
      mapped_range (entry (km_mem k) T) (entry (km_mem k') T') n e pa perm /\
      n <= e <= n + Z.of_nat c + 1 /\ new_tables T T' n (n + Z.of_nat c) /\
      ((r = 0 /\ e = n + Z.of_nat c + 1) \/ (r = -1 /\ l' = []))) k.
Proof.
  assert (PGSIZE = 4096) as EP by done.
  revert k l T n pa. induction c as [|c IH]; intros k l T n pa Hv Hn Hc Hal Hpa Hpc Hperm Hfree;
    (assert (vpage n) as Hvn by (unfold vpage; lia));
    cbn [mappages_loop]; apply wp_bind; (wp_use walk_alloc; [done|done|]);
    intros pte k1 (l1 & T1 & G1 & E1 & N1 & HH); destruct HH as [[-> ->]|(t & Ht & -> & Hnz)].
  1, 3: apply wp_ret; exists [], T1, n; (split; [done|]);
    (split; [|split; [lia|split; [apply (new_tables_trans T T1 T1 n n); [lia|exact N1|apply new_tables_refl]|by right]]]);
    intros j Hj; rewrite E1 by done; zcmp.
  all: destruct (Z.eqb_spec (t + 4 * (n mod NPTENTRIES)) 0) as [|_]; [done|];
    apply wp_bind; apply wp_gets;
    (assert (load32 (km_mem k1) (t + 4 * (n mod NPTENTRIES)) = entry (km_mem k) T n) as ->
       by (rewrite <- E1 by done; unfold entry; by rewrite Ht));
    rewrite Hfree by lia; apply wp_bind;
    (wp_use set_entry; [apply G1|exact Hvn|done| |]).
  1, 3: rewrite <- Z.lor_assoc, lor_flags by (done || by apply lor_range);
    pose proof (lor_range perm PTE_P Hperm ltac:(done));
    apply Z.mod_divide in Hal as [q ->]; [|done]; nia.
  all: intros _ k2 [G2 E2]; pose proof (grew_trans _ _ _ _ _ _ _ _ _ _ G1 G2) as G;
    (assert (mapped_range (entry (km_mem k) T) (entry (km_mem k2) T1) n (n + 1) pa perm) as HR
      by (intros j Hj; rewrite E2, E1 by done; zcmp; f_equal; f_equal; lia)).
  - replace (n + Z.of_nat 0) with n by lia. rewrite Z.eqb_refl. apply wp_ret. exists l1, T1, (n + 1).
    split; [done|]. split; [done|]. split; [lia|]. split; [done|left; lia].
  - destruct (Z.eqb_spec (n * PGSIZE) ((n + Z.of_nat (S c)) * PGSIZE)); [lia|].
    rewrite !u32_small by lia. replace (n * PGSIZE + PGSIZE) with ((n + 1) * PGSIZE) by lia.
    replace (n + Z.of_nat (S c)) with (n + 1 + Z.of_nat c) in * by lia.
    eapply wp_mono.
    + eapply IH; [apply G|lia|lia| |lia|lia|done|].
      * rewrite Z.add_mod, Hal by done. done.
      * intros j Hj. rewrite HR by (unfold vpage; lia). zcmp. apply Hfree. lia.
    + intros r k3 (l3 & T3 & e & G3 & R3 & He & N3 & HH). exists l3, T3, e. split; [by eapply grew_trans|].
      split; [by eapply mapped_range_step; [|done|done]; lia|]. split; [lia|].
      split; [by eapply (new_tables_trans T T1 T3 n (n + 1)); [lia|..]|].
      destruct HH as [[-> ->]|[-> ->]]; [left|right]; split; try done; lia.
Qed.

(** [mappages] on a page-aligned range of [c + 1] pages. *)
Lemma mappages_spec c k l pgdir T n pa perm :
  vm_ok k l pgdir T -> 0 <= n -> n + Z.of_nat c < 2 ^ 20 ->
  pa mod PGSIZE = 0 -> 0 <= pa -> pa + Z.of_nat c * PGSIZE < 2 ^ 32 -> 0 <= perm < PGSIZE ->
  (forall j, n <= j <= n + Z.of_nat c -> has (entry (km_mem k) T j) PTE_P = false) ->
  wp (mappages pgdir (n * PGSIZE) ((Z.of_nat c + 1) * PGSIZE) pa perm) (fun r k' =>
    exists l' T' e, grew k l pgdir T k' l' T' /\
      mapped_range (entry (km_mem k) T) (entry (km_mem k') T') n e pa perm /\
      n <= e <= n + Z.of_nat c + 1 /\ new_tables T T' n (n + Z.of_nat c) /\
      ((r = 0 /\ e = n + Z.of_nat c + 1) \/ (r = -1 /\ l' = []))) k.
Proof.
  intros Hv Hn Hc Hal Hpa Hpc Hperm Hfree. assert (PGSIZE = 4096) as EP by done. unfold mappages.
  rewrite (PGROUNDDOWN_spec (n * PGSIZE)) by lia. rewrite Z.mod_mul, Z.sub_0_r by done.
  rewrite (u32_small (_ - 1)) by lia. rewrite PGROUNDDOWN_spec by lia.
  replace (n * PGSIZE + (Z.of_nat c + 1) * PGSIZE - 1) with (4095 + (n + Z.of_nat c) * PGSIZE) by lia.
  rewrite Z.mod_add by done. change (4095 mod PGSIZE) with 4095.
  replace (4095 + (n + Z.of_nat c) * PGSIZE - 4095) with ((n + Z.of_nat c) * PGSIZE) by lia.
  replace ((n + Z.of_nat c) * PGSIZE - n * PGSIZE) with (Z.of_nat c * PGSIZE) by lia.
  rewrite u32_small by lia. rewrite Z.div_mul, Nat2Z.id by done. by apply mappages_loop_spec.
Qed.
End VmMap.
