(* ===== verification/VmSpace.v ===== *)
(** * Building, copying and destroying address spaces

    [setupkvm], [allocuvm], [copyuvm], [deallocuvm] and [freevm], on the view
    of address spaces of the page-table layer. *)

From S2P Require Import Prelude Params CString Kalloc Vm VmMap.

Section VmSpace.
Context (kend data : Z).
Hypothesis (Hkend : KERNBASE < kend).

#[local] Abbreviation page_ok := (page_ok kend).
#[local] Abbreviation kmem_ok := (kmem_ok kend).
#[local] Abbreviation space := (space kend).
#[local] Abbreviation vm_ok := (vm_ok kend).
#[local] Abbreviation grew := (grew kend).

(** ** Memory for page tables is bounded

    A directory has 1024 entries, so an address space with [size T] tables
    never needs more than [1024 - size T] more. *)

Lemma tables_bounded m pgdir T : space m pgdir T -> (size T <= 1024)%nat.
Proof.
  intros Hs. rewrite <- size_dom. transitivity (size (list_to_set (seqZ 0 1024) : gset Z)).
  - apply subseteq_size. intros i Hi. apply elem_of_dom in Hi as [t Ht].
    apply (sp_tab _ _ _ _ Hs) in Ht as (Hr & _). apply elem_of_list_to_set, elem_of_seqZ.
    unfold NPDENTRIES in Hr. lia.
  - by vm_compute.
Qed.

(** Enough free pages for every page table that may still be needed, and
    [n] more. *)
Definition room (l : list Z) (T : gmap Z Z) (n : nat) : Prop := (1024 + n < length l + size T)%nat.

Lemma grew_room k l pgdir T k' l' T' n : grew k l pgdir T k' l' T' -> room l T n -> room l' T' n.
Proof. intros [_ (xs & -> & E & _) _ _]. unfold room. rewrite length_app. lia. Qed.

Lemma grew_nonempty k l pgdir T k' T' n : grew k l pgdir T k' [] T' -> room l T n -> False.
Proof.
  intros G HR. pose proof (grew_room _ _ _ _ _ _ _ _ G HR) as HR'. destruct G as [[_ Hs _] _ _ _].
  apply tables_bounded in Hs. unfold room in HR'. simpl in HR'. lia.
Qed.

(** The same for an address space whose tables are among those with the numbers
    [B]. *)
Definition room_in (B : gset Z) (l : list Z) (T : gmap Z Z) (n : nat) : Prop := dom T ⊆ B /\ (size B + n < length l + size T)%nat.

Definition all_tables : gset Z := list_to_set (seqZ 0 1024).

Lemma room_all l T m pgdir n : space m pgdir T -> room l T n -> room_in all_tables l T n.
Proof.
  intros Hs HR. split; [|exact HR]. intros i Hi. apply elem_of_dom in Hi as [t Ht].
  apply (sp_tab _ _ _ _ Hs) in Ht as (Hr & _). apply elem_of_list_to_set, elem_of_seqZ. unfold NPDENTRIES in Hr. lia.
Qed.

Lemma room_all_inv l T n : room_in all_tables l T n -> room l T n.
Proof. by intros [_ ?]. Qed.

(** With room, [mappages] succeeds. *)
Lemma mappages_in B c k l pgdir T n pa perm x :
  vm_ok k l pgdir T -> room_in B l T x -> (forall i, n / NPTENTRIES <= i <= (n + Z.of_nat c) / NPTENTRIES -> i ∈ B) ->
  0 <= n -> n + Z.of_nat c < 2 ^ 20 ->
  pa mod PGSIZE = 0 -> 0 <= pa -> pa + Z.of_nat c * PGSIZE < 2 ^ 32 -> 0 <= perm < PGSIZE ->
  (forall j, n <= j <= n + Z.of_nat c -> has (entry (km_mem k) T j) PTE_P = false) ->
  wp (mappages pgdir (n * PGSIZE) ((Z.of_nat c + 1) * PGSIZE) pa perm) (fun r k' =>
    r = 0 /\ exists l' T', grew k l pgdir T k' l' T' /\ room_in B l' T' x /\
      mapped_range (entry (km_mem k) T) (entry (km_mem k') T') n (n + Z.of_nat c + 1) pa perm) k.
Proof.
  intros Hv [HB HR] Hin Hn Hc Hal Hpa Hpc Hperm Hfree.
  wp_use (mappages_spec kend Hkend c k l pgdir T n pa perm); try done.
  intros r k' (l' & T' & e & G & R & He & N & HH).
  assert (room_in B l' T' x) as HR'.
  { split; [|destruct G as [_ (xs & -> & E & _) _ _]; rewrite length_app in HR; lia].
    intros i Hi. apply elem_of_dom in Hi. destruct (N i Hi) as [Ht|Hr]; [by apply HB, elem_of_dom|by apply Hin]. }
  destruct HH as [[-> ->]|[-> ->]]; [split; [done|by exists l', T']|exfalso].
  destruct HR' as [HB' HR']. apply subseteq_size in HB'. rewrite size_dom in HB'. simpl in HR'. lia.
Qed.

Lemma mappages_ok c k l pgdir T n pa perm x :
  vm_ok k l pgdir T -> room l T x -> 0 <= n -> n + Z.of_nat c < 2 ^ 20 ->
  pa mod PGSIZE = 0 -> 0 <= pa -> pa + Z.of_nat c * PGSIZE < 2 ^ 32 -> 0 <= perm < PGSIZE ->
  (forall j, n <= j <= n + Z.of_nat c -> has (entry (km_mem k) T j) PTE_P = false) ->
  wp (mappages pgdir (n * PGSIZE) ((Z.of_nat c + 1) * PGSIZE) pa perm) (fun r k' =>
    r = 0 /\ exists l' T', grew k l pgdir T k' l' T' /\ room l' T' x /\
      mapped_range (entry (km_mem k) T) (entry (km_mem k') T') n (n + Z.of_nat c + 1) pa perm) k.
Proof.
  intros Hv Hroom Hn Hc Hal Hpa Hpc Hperm Hfree.
  wp_use (mappages_in all_tables c k l pgdir T n pa perm x); try done; [by eapply room_all; [apply Hv|]| |].
  - intros i Hi. apply elem_of_list_to_set, elem_of_seqZ. assert (0 <= n / NPTENTRIES) by (by apply Z.div_pos).
    assert ((n + Z.of_nat c) / NPTENTRIES < 1024) by (apply Z.div_lt_upper_bound; unfold NPTENTRIES; lia). lia.
  - intros r k' (-> & l' & T' & G & HR & R). split; [done|]. exists l', T'. split; [done|]. split; [by apply room_all_inv|done].
Qed.

(** ** [setupkvm] *)

(** The page range of an entry of the kernel's map. *)
Definition kfirst (e : kmap_entry) : Z := virt e / PGSIZE.
Definition kcount (e : kmap_entry) : Z := u32 (phys_end e - phys_start e) / PGSIZE.
Definition kin (e : kmap_entry) (j : Z) : bool := (kfirst e <=? j) && (j <? kfirst e + kcount e).

(** The entries an address space has after mapping the list [ks]. *)
Fixpoint kmap_entries (ks : list kmap_entry) (f : Z -> Z) (j : Z) : Z :=
  match ks with
  | [] => f j
  | e :: ks' =>
      kmap_entries ks' (fun j => if kin e j
        then Z.lor (Z.lor (phys_start e + (j - kfirst e) * PGSIZE) (k_perm e)) PTE_P else f j) j
  end.

Record kmap_fits (e : kmap_entry) : Prop := {
  kf_virt : virt e mod PGSIZE = 0 /\ 0 <= virt e;
  kf_size : u32 (phys_end e - phys_start e) mod PGSIZE = 0 /\ 0 < kcount e;
  kf_space : kfirst e + kcount e <= 2 ^ 20;
  kf_phys : phys_start e mod PGSIZE = 0 /\ 0 <= phys_start e /\ phys_start e + kcount e * PGSIZE <= 2 ^ 32;
  kf_perm : 0 <= k_perm e < PGSIZE
}.

Definition kapart (e e' : kmap_entry) : Prop := forall j, kin e j = true -> kin e' j = false.

(** The loop of [setupkvm]. *)
Definition kmap_loop (pgdir : Z) (ks : list kmap_entry) : M kmem (option Z) :=
  first_ ks (fun k =>
    let! r := mappages pgdir (virt k) (u32 (phys_end k - phys_start k)) (phys_start k) (k_perm k) in
    if r <? 0 then ret (Some 0) else ret None).

Lemma kmap_entries_ext ks f g j : (forall i, vpage i -> f i = g i) -> vpage j -> kmap_entries ks f j = kmap_entries ks g j.
Proof.
  revert f g. induction ks as [|e ks IH]; intros f g H Hj; simpl; [by apply H|].
  apply IH; [|done]. intros i Hi. by rewrite H.
Qed.

Lemma div_reached a b i : 0 <= a -> a <= b -> a / NPTENTRIES <= i <= b / NPTENTRIES -> exists j, a <= j <= b /\ j / NPTENTRIES = i.
Proof.
  intros Ha Hb Hi. unfold NPTENTRIES in *. destruct (decide (a <= i * 1024)) as [Hle|Hgt].
  - exists (i * 1024). split; [|by apply Z.div_mul]. pose proof (Z.mul_div_le b 1024 ltac:(lia)). lia.
  - exists a. split; [lia|]. assert (i <= a / 1024) by (apply Z.div_le_lower_bound; lia). lia.
Qed.

Lemma kmap_loop_spec B ks k l pgdir T x :
  vm_ok k l pgdir T -> room_in B l T x -> (forall e j, e ∈ ks -> kin e j = true -> j / NPTENTRIES ∈ B) -> Forall kmap_fits ks -> ForallOrdPairs kapart ks ->
  (forall e j, e ∈ ks -> kin e j = true -> has (entry (km_mem k) T j) PTE_P = false) ->
  wp (kmap_loop pgdir ks) (fun r k' =>
    r = None /\ exists l' T', grew k l pgdir T k' l' T' /\ room_in B l' T' x /\
      forall j, vpage j -> entry (km_mem k') T' j = kmap_entries ks (entry (km_mem k) T) j) k.
Proof.
  revert k l T. induction ks as [|e ks IH]; intros k l T Hv Hroom HB Hf Hap Hfree.
  { apply wp_ret. split; [done|]. exists l, T. split; [by apply grew_refl|]. by split. }
  apply Forall_cons in Hf as [[[Hva Hv0] [Hsa Hs0] Hsp (Hpa & Hp0 & Hpe) Hperm] Hf].
  inversion Hap as [|? ? Hap1 Hap2]; subst. unfold kmap_loop. cbn [first_]. apply wp_bind, wp_bind.
  assert (PGSIZE = 4096) as EP by done.
  assert (virt e = kfirst e * PGSIZE) as -> by (unfold kfirst; pose proof (Z.div_mod (virt e) PGSIZE ltac:(done)); lia).
  set (c := Z.to_nat (kcount e - 1)).
  assert (u32 (phys_end e - phys_start e) = (Z.of_nat c + 1) * PGSIZE) as ->.
  { unfold c. rewrite Z2Nat.id by lia. unfold kcount in *.
    pose proof (Z.div_mod (u32 (phys_end e - phys_start e)) PGSIZE ltac:(done)). lia. }
  assert (0 <= kfirst e) by (unfold kfirst; apply Z.div_pos; lia).
  wp_use (mappages_in B c k l pgdir T (kfirst e) (phys_start e) (k_perm e) x); try done; try lia.
  { intros i Hi. apply (div_reached (kfirst e) (kfirst e + Z.of_nat c)) in Hi as (j & Hj & <-); [|done|lia].
    apply (HB e); [by left|]. unfold kin. zcmp. }
  { intros j Hj. apply (Hfree e); [by left|]. unfold kin. zcmp. }
  intros r k1 (-> & l1 & T1 & G1 & R1 & E1). simpl. apply wp_ret.
  assert (forall j, vpage j -> entry (km_mem k1) T1 j = if kin e j
        then Z.lor (Z.lor (phys_start e + (j - kfirst e) * PGSIZE) (k_perm e)) PTE_P else entry (km_mem k) T j) as E1'.
  { intros j Hj. rewrite E1 by done. unfold kin. replace (kfirst e + Z.of_nat c + 1) with (kfirst e + kcount e) by lia. done. }
  eapply wp_mono.
  - apply (IH k1 l1 T1); [apply G1|done|intros e' j He'; apply HB; by right|done|done|]. intros e' j He' Hj.
    assert (kin e j = false) as Hn.
    { rewrite Forall_forall in Hap1. destruct (kin e j) eqn:E; [|done]. by rewrite (Hap1 e' He' j E) in Hj. }
    destruct (decide (vpage j)) as [Hvj|Hvj].
    + rewrite E1', Hn by done. apply (Hfree e'); [by right|done].
    + exfalso. apply Hvj. unfold vpage, kin in *. rewrite Forall_forall in Hf. destruct (Hf e' He') as [[? ?] ? ? ? ?].
      assert (0 <= kfirst e') by (unfold kfirst; apply Z.div_pos; lia).
      apply andb_true_iff in Hj as [?%Z.leb_le ?%Z.ltb_lt]. lia.
  - intros r k2 (-> & l2 & T2 & G2 & R2 & E2). split; [done|]. exists l2, T2. split; [by eapply grew_trans|].
    split; [done|]. intros j Hj. rewrite E2 by done. cbn [kmap_entries]. by apply kmap_entries_ext.
Qed.

(** What the linker script guarantees of [data]: page aligned, above the text
    and below the end of physical memory. *)
Record data_ok : Prop := {
  do_align : data mod PGSIZE = 0;
  do_range : KERNLINK < data < KERNBASE + PHYSTOP
}.

Lemma kmap_ok : data_ok -> Forall kmap_fits (kmap data) /\ ForallOrdPairs kapart (kmap data).
Proof.
  intros [Ha Hr]. apply Z.mod_divide in Ha as [d Ed]; [|done].
  assert (v2p data = (d - 2 ^ 19) * PGSIZE) as Ev.
  { unfold v2p. rewrite u32_small; unfold KERNLINK, KERNBASE, PHYSTOP, EXTMEM, PGSIZE in *; lia. }
  assert (v2p KERNLINK = 256 * PGSIZE) as El by done.
  assert (2 ^ 19 + 256 < d < 2 ^ 19 + 57344) as Hd by (unfold KERNLINK, KERNBASE, PHYSTOP, EXTMEM, PGSIZE in *; lia).
  assert (forall a b, 0 <= a -> 0 < b < 2 ^ 20 ->
    u32 ((a + b) * PGSIZE - a * PGSIZE) mod PGSIZE = 0 /\ u32 ((a + b) * PGSIZE - a * PGSIZE) / PGSIZE = b) as Hu.
  { intros a b Ha Hb. replace ((a + b) * PGSIZE - a * PGSIZE) with (b * PGSIZE) by lia.
    rewrite u32_small by (unfold PGSIZE; lia). by rewrite Z.mod_mul, Z.div_mul by done. }
  assert (kfirst (Kmap KERNLINK (v2p KERNLINK) (v2p data) 0) = 2 ^ 19 + 256 /\
          kcount (Kmap KERNLINK (v2p KERNLINK) (v2p data) 0) = d - 2 ^ 19 - 256 /\
          u32 (v2p data - v2p KERNLINK) mod PGSIZE = 0) as (F2 & C2 & M2).
  { unfold kcount; simpl. rewrite Ev, El. destruct (Hu 256 (d - 2 ^ 19 - 256)) as [H1 H2]; [lia|lia|].
    replace (256 + (d - 2 ^ 19 - 256)) with (d - 2 ^ 19) in * by lia. by split. }
  assert (kfirst (Kmap data (v2p data) PHYSTOP PTE_W) = d /\
          kcount (Kmap data (v2p data) PHYSTOP PTE_W) = 2 ^ 19 + 57344 - d /\
          u32 (PHYSTOP - v2p data) mod PGSIZE = 0) as (F3 & C3 & M3).
  { unfold kcount, kfirst; simpl. rewrite Ev. destruct (Hu (d - 2 ^ 19) (2 ^ 19 + 57344 - d)) as [H1 H2]; [lia|lia|].
    replace ((d - 2 ^ 19 + (2 ^ 19 + 57344 - d)) * PGSIZE) with PHYSTOP in * by (unfold PHYSTOP, PGSIZE; lia).
    split; [by rewrite Ed, Z.div_mul|]. by split. }
  set (e2 := Kmap KERNLINK _ _ _) in *. set (e3 := Kmap data _ _ _) in *.
  set (e1 := Kmap KERNBASE 0 EXTMEM PTE_W). set (e4 := Kmap DEVSPACE DEVSPACE 0 PTE_W).
  assert (kfirst e1 = 2 ^ 19 /\ kcount e1 = 256 /\ kfirst e4 = 1040384 /\ kcount e4 = 8192) as (F1 & C1 & F4 & C4) by done.
  assert (0 <= data) by (unfold KERNLINK, KERNBASE, EXTMEM in *; lia).
  split; [repeat constructor; try done; unfold e1, e2, e3, e4; cbn [virt phys_start phys_end k_perm];
    fold e1 e2 e3 e4; rewrite ?F2, ?C2, ?F3, ?C3, ?Ev, ?El; try done; try (unfold PGSIZE; lia);
    try (rewrite ?Ed; by apply Z.mod_mul)|].
  - change (kmap data) with [e1; e2; e3; e4].
    repeat constructor; unfold kapart, kin; rewrite ?F1, ?C1, ?F2, ?C2, ?F3, ?C3, ?F4, ?C4;
      intros j [?%Z.leb_le ?%Z.ltb_lt]%andb_true_iff; apply andb_false_iff; rewrite Z.leb_gt, Z.ltb_ge; lia.
Qed.

(** The entries every address space has for the kernel. *)
Definition kernel_map (j : Z) : Z := kmap_entries (kmap data) (fun _ => 0) j.

Lemma kernel_map_user j : data_ok -> 0 <= j < 2 ^ 19 -> kernel_map j = 0.
Proof.
  intros [Ha Hr] Hj. unfold kernel_map, kmap, kmap_entries, kin, kfirst; simpl virt.
  assert (2 ^ 19 <= data / PGSIZE) by (apply Z.div_le_lower_bound; [done|]; unfold KERNLINK, KERNBASE, EXTMEM, PGSIZE in *; lia).
  change (KERNBASE / PGSIZE) with (2 ^ 19). change (KERNLINK / PGSIZE) with (2 ^ 19 + 256).
  change (DEVSPACE / PGSIZE) with 1040384.
  destruct (Z.leb_spec 1040384 j), (Z.leb_spec (data / PGSIZE) j), (Z.leb_spec (2 ^ 19 + 256) j), (Z.leb_spec (2 ^ 19) j);
    simpl; try lia; done.
Qed.

(** A page of zeros is an empty directory. *)
Lemma space_zero m d : page_ok d -> space (memset m d 0 PGSIZE) d ∅.
Proof.
  intros Hd. split; [done|by intros i t; rewrite lookup_empty|by intros i j t; rewrite lookup_empty|].
  intros i Hi _. assert (forall c, 0 <= c < 4 -> memset m d 0 PGSIZE (d + 4 * i + c) = 0) as Hz.
  { intros c Hc. rewrite memset_spec by done. unfold filled, NPDENTRIES, PGSIZE in *. by zcmp. }
  unfold load32. rewrite !Hz by lia. rewrite <- (Z.add_0_r (d + _)), Hz by lia. done.
Qed.

(** The address space [d] was built with the pages [xs] from the front of the
    free list, on top of pages [P] it had; nothing else was written. *)
Record built (P : Z -> Prop) (k : kmem) (l : list Z) (d : Z) (k' : kmem) (xs l' : list Z) (T' : gmap Z Z) : Prop := {
  bt_ok : vm_ok k' l' d T';
  bt_list : l = xs ++ l';
  bt_own : forall p, owns_page d T' p -> P p \/ p ∈ xs;
  bt_mem : forall x, (forall p, P p \/ p ∈ xs -> ~ in_page p x) -> km_mem k' x = km_mem k x
}.

Definition no_page (p : Z) : Prop := False.

Lemma built_grew P k l d k1 xs l1 T1 k2 l2 T2 :
  built P k l d k1 xs l1 T1 -> grew k1 l1 d T1 k2 l2 T2 ->
  exists ys, l1 = ys ++ l2 /\ built P k l d k2 (xs ++ ys) l2 T2.
Proof.
  intros [H1 -> O1 M1] [H2 (ys & -> & S2 & O2) B2 M2]. exists ys. split; [done|].
  assert (forall p, owns_page d T2 p -> P p \/ p ∈ xs ++ ys) as HO.
  { intros p Hp. rewrite elem_of_app. destruct (O2 p Hp) as [Hp'|]; [|by auto]. destruct (O1 p Hp'); auto. }
  split; [done|by rewrite app_assoc|done|].
  intros x Hx. rewrite M2, M1; [done| |].
  - intros p Hp. apply Hx. rewrite elem_of_app. tauto.
  - intros p Hp. by apply Hx, HO.
Qed.

(** Taking one page for an address space that is being built, and filling it. *)
Lemma built_page P k l d k1 xs p l1 T1 m2 :
  built P k l d k1 xs (p :: l1) T1 ->
  (forall x, ~ in_page p x -> m2 x = km_mem k1 x) -> forall u,
  built P k l d (Kmem m2 u (load32 (km_mem k1) p)) (xs ++ [p]) l1 T1 /\
  (forall j, vpage j -> entry m2 T1 j = entry (km_mem k1) T1 j) /\ page_ok p /\ ~ owns_page d T1 p.
Proof.
  intros [[Hk Hs Ha] El O M] Hm u.
  assert (page_ok p) as Hp by (destruct Hk as [_ Hf _]; by apply Forall_cons in Hf as [? _]).
  assert (p ∉ l1) as Hpl by (destruct Hk as [_ _ Hn]; by apply NoDup_cons in Hn as [? _]).
  assert (~ owns_page d T1 p) as Hfresh by (intros Ho; apply (Ha p Ho); by left).
  destruct (space_ext kend (km_mem k1) m2 d T1) as [Hs2 He2]; [|done|].
  { intros q x Hq Hx. apply Hm. intros Hx'. apply Hfresh.
    assert (page_ok q) as Hqq by (by eapply owned_ok). by rewrite <- (in_page_eq kend q p x). }
  split; [|done]. split; [split| | |].
  - destruct Hk as [Hc Hf Hn]. apply Forall_cons in Hf as [_ Hf]. apply NoDup_cons in Hn as [_ Hn]. split; [|done|done].
    destruct Hc as (_ & _ & Hc). eapply chained_ext; [|exact Hc]. intros q x Hq Hx. apply Hm. intros Hx'.
    assert (page_ok q) as Hqq by (rewrite Forall_forall in Hf; by apply Hf).
    assert (q = p) as -> by (apply (in_page_eq kend q p x); [done|done|unfold in_page, PGSIZE; lia|done]). done.
  - done.
  - intros q Hq Hin. apply (Ha q Hq). by right.
  - by rewrite El, <- app_assoc.
  - intros q Hq. rewrite elem_of_app. destruct (O q Hq); auto.
  - intros x Hx. cbn [km_mem]. rewrite Hm, M; [done| |].
    + intros q Hq. apply Hx. rewrite elem_of_app. tauto.
    + apply Hx. right. apply elem_of_app. right. by left.
Qed.

(** The page tables of the kernel's map: for the memory and for the devices. *)
Definition kernel_tables : gset Z := list_to_set (seqZ 512 56 ++ seqZ 1016 8).

Lemma kmap_tables e j : data_ok -> e ∈ kmap data -> kin e j = true -> j / NPTENTRIES ∈ kernel_tables.
Proof.
  intros [Hal Hr] He Hj. unfold kin in Hj. apply andb_true_iff in Hj as [J1%Z.leb_le J2%Z.ltb_lt].
  unfold kernel_tables. rewrite elem_of_list_to_set, elem_of_app, !elem_of_seqZ.
  assert (KERNLINK = KERNBASE + 2 ^ 20 /\ PHYSTOP = 56 * 2 ^ 22 /\ KERNBASE = 512 * 2 ^ 22) as (E1 & E2 & E3) by done.
  assert (D : forall a b, a * 1024 <= j -> j < b * 1024 -> a <= j / NPTENTRIES < b)
    by (intros a b A1 A2; unfold NPTENTRIES; split; [apply Z.div_le_lower_bound; lia|apply Z.div_lt_upper_bound; lia]).
  assert (U : v2p data = data - KERNBASE) by (unfold v2p; apply u32_small; lia).
  apply Z.mod_divide in Hal as [q Hq]; [|done]. change PGSIZE with 4096 in *.
  unfold kmap in He. rewrite !elem_of_cons, elem_of_nil in He. unfold kcount, kfirst in *.
  destruct He as [->|[->|[->|[->|[]]]]]; cbn [virt phys_start phys_end] in J1, J2; rewrite ?U in *.
  - left. assert (512 <= j / NPTENTRIES < 513); [|lia]. apply D.
    + change (KERNBASE / PGSIZE) with (512 * 1024) in J1. lia.
    + change (KERNBASE / PGSIZE + u32 (EXTMEM - 0) / PGSIZE) with (512 * 1024 + 256) in J2. lia.
  - left. rewrite u32_small in J2 by (change (v2p KERNLINK) with (2 ^ 20); lia). change (v2p KERNLINK) with (2 ^ 20) in J2.
    change (KERNLINK / PGSIZE) with (512 * 1024 + 256) in *. change PGSIZE with 4096 in *.
    replace (data - KERNBASE - 2 ^ 20) with ((q - 512 * 1024 - 256) * 4096) in J2 by lia. rewrite Z.div_mul in J2 by done.
    assert (512 <= j / NPTENTRIES < 568); [|lia]. apply D; lia.
  - left. rewrite u32_small in J2 by lia. change PGSIZE with 4096 in *.
    replace (PHYSTOP - (data - KERNBASE)) with ((512 * 1024 + 56 * 1024 - q) * 4096) in J2 by lia. rewrite Z.div_mul in J2 by done.
    rewrite Hq, Z.div_mul in J1, J2 by done. assert (512 <= j / NPTENTRIES < 568); [|lia]. apply D; lia.
  - right. change (DEVSPACE / PGSIZE) with (1016 * 1024) in *. change (u32 (0 - DEVSPACE) / PGSIZE) with (8 * 1024) in J2.
    assert (1016 <= j / NPTENTRIES < 1024); [|lia]. apply D; lia.
Qed.

(** It takes a page for the directory and one for each of these tables. *)
Lemma setupkvm_tight k l :
  kmem_ok k l -> data_ok -> (65 < length l)%nat ->
  wp (setupkvm data) (fun d k' => d <> 0 /\ exists xs l' T', built no_page k l d k' xs l' T' /\ length l = S (size T' + length l') /\ (size T' <= 64)%nat /\
    forall j, vpage j -> entry (km_mem k') T' j = kernel_map j) k.
Proof.
  intros Hk Hd Hlen. destruct (kmap_ok Hd) as [Hfit Hap]. unfold setupkvm. apply wp_bind.
  destruct (kalloc_run kend k l Hk) as (k1 & E1 & Hk1 & M1 & U1). apply wp_ok. exists (hd 0 l), k1. split; [done|].
  destruct l as [|d l]; [simpl in Hlen; lia|]. cbn [hd tl length] in *.
  assert (page_ok d) as Hpd by (destruct Hk as [_ Hp _]; by apply Forall_cons in Hp as [? _]).
  assert (d ∉ l) as Hdl by (destruct Hk as [_ _ Hnd]; by apply NoDup_cons in Hnd as [? _]).
  destruct (page_range_ok kend Hkend d Hpd) as (Hdr & _).
  assert (d <> 0) as Hd0 by (unfold KERNBASE in *; lia). destruct (Z.eqb_spec d 0); [done|].
  unfold on_mem. apply wp_bind, wp_modify. change (DEVSPACE <? p2v PHYSTOP) with false. cbn match.
  set (k2 := Kmem _ _ _).
  assert (built no_page k (d :: l) d k2 [d] l ∅) as B2.
  { assert (forall y, ~ in_page d y -> km_mem k2 y = km_mem k1 y) as Ho.
    { intros y Hy. unfold k2; cbn [km_mem]. rewrite memset_spec by done. unfold filled, in_page in *. zcmp. }
    split; [split| | |].
    - apply (kmem_ok_frame kend k1 l); [done|]. intros p x Hp Hx. apply Ho. intros Hx'.
      assert (page_ok p) as Hpp by (destruct Hk1 as [_ Hf _]; rewrite Forall_forall in Hf; by apply Hf).
      assert (p = d) as -> by (by apply (in_page_eq kend p d x)). done.
    - by apply space_zero.
    - intros p [->|[i Hi]]; [done|]. by rewrite lookup_empty in Hi.
    - done.
    - intros p [->|[i Hi]]; [right; by left|]. by rewrite lookup_empty in Hi.
    - intros x Hx. rewrite Ho, M1; [done|]. apply Hx. right. by left. }
  assert (room_in kernel_tables l ∅ 0) as Hroom.
  { split; [set_solver|]. rewrite map_size_empty. change (size kernel_tables) with 64%nat. lia. }
  apply wp_bind. wp_use (kmap_loop_spec kernel_tables (kmap data) k2 l d ∅ 0); [apply B2|done|by intros e j; apply kmap_tables|done|done| |].
  { intros e j _ _. unfold entry. by rewrite lookup_empty. }
  intros r k3 (-> & l3 & T3 & G3 & R3 & E3). apply wp_ret. split; [done|].
  destruct (built_grew _ _ _ _ _ _ _ _ _ _ _ B2 G3) as (ys & _ & B3).
  exists ([d] ++ ys), l3, T3. split; [done|].
  split; [destruct G3 as [_ (zs & -> & Ez & _) _ _]; rewrite map_size_empty in Ez; rewrite length_app; lia|].
  split; [destruct R3 as [R3 _]; apply subseteq_size in R3; by rewrite size_dom in R3|]. intros j Hj. rewrite E3 by done.
  apply kmap_entries_ext; [|done]. intros i _. unfold entry. by rewrite lookup_empty.
Qed.

Lemma setupkvm_spec k l n :
  kmem_ok k l -> data_ok -> (1025 + n < length l)%nat ->
  wp (setupkvm data) (fun d k' => d <> 0 /\ exists xs l' T', built no_page k l d k' xs l' T' /\ room l' T' n /\
    forall j, vpage j -> entry (km_mem k') T' j = kernel_map j) k.
Proof.
  intros Hk Hd Hlen. wp_use setupkvm_tight; [done|done|lia|]. intros d k' (Hd0 & xs & l' & T' & B & E & _ & HE). split; [done|].
  exists xs, l', T'. split; [done|]. split; [unfold room; lia|done].
Qed.

(** ** Filling an address space with fresh pages *)

(** The entries with the pages [F] mapped from page number [n0] on. *)
Definition placed (n0 : Z) (F : list Z) (perms : nat -> Z) (f : Z -> Z) (j : Z) : Z :=
  if n0 <=? j then
    match F !! Z.to_nat (j - n0) with
    | Some p => Z.lor (Z.lor (v2p p) (perms (Z.to_nat (j - n0)))) PTE_P
    | None => f j
    end
  else f j.

(** The pages [F], different and used for nothing else, are mapped from [n0]
    on, and page [i] of them holds [C i]. *)
Record populated (P : Z -> Prop) (k : kmem) (l : list Z) (d : Z) (n0 : Z) (perms : nat -> Z) (C : nat -> Z -> Z)
    (f : Z -> Z) (k' : kmem) (xs l' : list Z) (T' : gmap Z Z) (F : list Z) : Prop := {
  pp_built : built P k l d k' xs l' T';
  pp_nodup : NoDup F;
  pp_own : forall p, p ∈ F -> p ∈ xs /\ page_ok p /\ ~ owns_page d T' p /\ p ∉ l';
  pp_entry : forall j, vpage j -> entry (km_mem k') T' j = placed n0 F perms f j;
  pp_mem : forall i p o, F !! i = Some p -> 0 <= o < PGSIZE -> km_mem k' (p + o) = C i o
}.

Lemma placed_next n0 F p perms f j :
  0 <= n0 -> placed n0 (F ++ [p]) perms f j =
    if j =? n0 + Z.of_nat (length F) then Z.lor (Z.lor (v2p p) (perms (length F))) PTE_P else placed n0 F perms f j.
Proof.
  intros Hn. unfold placed. destruct (Z.leb_spec n0 j), (Z.eqb_spec j (n0 + Z.of_nat (length F))) as [->|Hne]; try lia.
  - replace (Z.to_nat (n0 + Z.of_nat (length F) - n0)) with (length F) by lia. by rewrite list_lookup_middle.
  - destruct (decide (Z.to_nat (j - n0) < length F)%nat).
    + by rewrite lookup_app_l.
    + rewrite (lookup_ge_None_2 F), (lookup_ge_None_2 (F ++ [p])); [done| |]; rewrite ?length_app; simpl; lia.
Qed.

Lemma populate_step P k l d n0 perms C f k1 xs p l1 T1 F m2 u x :
  populated P k l d n0 perms C f k1 xs (p :: l1) T1 F -> kmem_ok k l -> room (p :: l1) T1 (S x) ->
  0 <= n0 -> n0 + Z.of_nat (length F) < 2 ^ 20 -> 0 <= perms (length F) < PGSIZE ->
  has (f (n0 + Z.of_nat (length F))) PTE_P = false ->
  (forall y, ~ in_page p y -> m2 y = km_mem k1 y) ->
  (forall o, 0 <= o < PGSIZE -> m2 (p + o) = C (length F) o) ->
  wp (mappages d ((n0 + Z.of_nat (length F)) * PGSIZE) PGSIZE (v2p p) (perms (length F))) (fun r k' =>
    r = 0 /\ exists xs' l' T', populated P k l d n0 perms C f k' xs' l' T' (F ++ [p]) /\ room l' T' x)
    (Kmem m2 u (load32 (km_mem k1) p)).
Proof.
  intros [B HN HO HE HM] Hk HR Hn0 Hn Hperm Hnew Hout Hin.
  destruct (built_page _ _ _ _ _ _ _ _ _ m2 B Hout u) as (B2 & E2 & Hp & Hnp). set (k2 := Kmem m2 u _) in *.
  set (n := n0 + Z.of_nat (length F)) in *. assert (vpage n) as Hvn by (unfold vpage; lia).
  destruct (v2p_aligned kend Hkend p Hp) as [Hal Hpr].
  replace PGSIZE with ((Z.of_nat 0 + 1) * PGSIZE) at 2 by done.
  wp_use (mappages_ok 0 k2 l1 d T1 n (v2p p) (perms (length F)) x); try done; try lia.
  { apply B2. } { unfold room in *. cbn [length] in HR. lia. }
  { intros j Hj. replace j with n by lia. unfold k2; cbn [km_mem]. rewrite E2, HE by done. unfold placed.
    destruct (Z.leb_spec n0 n); [|done]. by rewrite lookup_ge_None_2 by lia. }
  intros r k3 (-> & l3 & T3 & G3 & R3 & E3). split; [done|].
  destruct (built_grew _ _ _ _ _ _ _ _ _ _ _ B2 G3) as (ys & -> & B3). exists ((xs ++ [p]) ++ ys), l3, T3.
  assert (NoDup ((xs ++ [p]) ++ ys ++ l3)) as HND.
  { rewrite <- (bt_list _ _ _ _ _ _ _ _ B2). apply Hk. }
  assert (forall q, q ∈ F ++ [p] -> q ∈ xs ++ [p] /\ page_ok q /\ ~ owns_page d T1 q) as HF.
  { intros q [Hq| ->%list_elem_of_singleton]%elem_of_app.
    - destruct (HO q Hq) as (? & ? & ? & _). rewrite elem_of_app. auto.
    - split; [apply elem_of_app; right; by left|done]. }
  assert (forall q, q ∈ F ++ [p] -> ~ owns_page d T3 q /\ q ∉ l3) as HF3.
  { intros q Hq. destruct (HF q Hq) as (Hx & _ & Hno). apply NoDup_app in HND as (_ & HD & _). specialize (HD q Hx).
    rewrite elem_of_app in HD. split; [|tauto]. intros Ho. destruct G3 as [_ (ys' & Eys & _ & G) _ _].
    apply app_inv_tail in Eys as <-. destruct (G q Ho); tauto. }
  assert (p ∉ F) as HpF by (intros Hx; by destruct (HO p Hx) as (_ & _ & _ & []%not_elem_of_cons)).
  split; [|done]. split; [done| | | |].
  - apply NoDup_app. split; [done|]. split; [|apply NoDup_singleton]. intros q Hq ->%list_elem_of_singleton. done.
  - intros q Hq. destruct (HF q Hq) as (? & ? & _). rewrite elem_of_app. split; [by left|]. split; [done|]. by apply HF3.
  - intros j Hj. rewrite E3, placed_next by done. fold n. unfold k2; cbn [km_mem]. rewrite E2, HE by done.
    zcmp. f_equal. f_equal. lia.
  - intros i q o Hq Ho. assert (q ∈ F ++ [p]) as Hqin by (by eapply list_elem_of_lookup_2).
    destruct (HF q Hqin) as (_ & Hqok & _).
    assert (in_page q (q + o)) as Hio by (unfold in_page; lia).
    rewrite (gr_mem _ _ _ _ _ _ _ _ G3).
    + unfold k2; cbn [km_mem]. apply lookup_app_Some in Hq as [Hq|[Hi Hq]].
      * assert (q ∈ F) as HqF by (by eapply list_elem_of_lookup_2).
        rewrite Hout; [by apply HM|]. intros Hx. apply HpF. by rewrite <- (in_page_eq kend q p (q + o)).
      * apply list_lookup_singleton_Some in Hq as [Hz <-]. replace i with (length F) by lia. by apply Hin.
    + intros w Hw Hx. apply (proj1 (HF3 q Hqin)).
      assert (page_ok w) as Hwok by (destruct G3 as [[_ Hs3 _] _ _ _]; by eapply owned_ok).
      by rewrite (in_page_eq kend q w (q + o)).
Qed.

(** The loops [for(a = PGROUNDUP(lo); a < hi; a += PGSIZE)]. *)
Definition npages (lo hi : Z) : nat := Z.to_nat ((hi - PGROUNDUP lo + PGSIZE - 1) / PGSIZE).
Definition first_page (lo : Z) : Z := PGROUNDUP lo / PGSIZE.

Lemma first_page_spec lo : 0 <= lo < KERNBASE -> PGROUNDUP lo = first_page lo * PGSIZE /\ 0 <= first_page lo <= 2 ^ 19.
Proof.
  intros Hlo. destruct (PGROUNDUP_spec lo) as [Hr Hm]; [unfold KERNBASE, PGSIZE in *; lia|].
  unfold first_page. pose proof (Z.div_mod (PGROUNDUP lo) PGSIZE ltac:(done)). unfold KERNBASE, PGSIZE in *. lia.
Qed.

Lemma npages_bound lo hi : 0 <= lo <= hi -> hi < KERNBASE -> first_page lo + Z.of_nat (npages lo hi) <= 2 ^ 19.
Proof.
  intros Hlo Hhi. destruct (first_page_spec lo) as [E Hf]; [lia|]. unfold npages. rewrite E.
  assert (PGSIZE = 4096 /\ KERNBASE = 2147483648) as [EP EK] by done.
  destruct (Z.leb_spec 0 ((hi - first_page lo * PGSIZE + PGSIZE - 1) / PGSIZE)); [|lia].
  rewrite Z2Nat.id by done.
  assert ((hi - first_page lo * PGSIZE + PGSIZE - 1) / PGSIZE < 2 ^ 19 - first_page lo + 1); [|lia].
  apply Z.div_lt_upper_bound; lia.
Qed.

Lemma page_range_lookup lo hi i a :
  0 <= lo < KERNBASE -> page_range lo hi !! i = Some a ->
  a = (first_page lo + Z.of_nat i) * PGSIZE /\ (i < npages lo hi)%nat.
Proof.
  intros Hlo. unfold page_range. rewrite list_lookup_fmap_Some. intros (j & -> & [-> Hj]%lookup_upto).
  destruct (first_page_spec lo Hlo) as [E _]. rewrite E. unfold npages. rewrite <- E. split; [rewrite E|]; lia.
Qed.

Lemma page_range_length lo hi : length (page_range lo hi) = npages lo hi.
Proof. unfold page_range. by rewrite length_fmap, length_upto. Qed.

Lemma kalloc_cons k p l :
  kmem_ok k (p :: l) -> p <> 0 /\ kalloc k = Ok p (Kmem (km_mem k) (use_lock k) (load32 (km_mem k) p)).
Proof.
  intros [(Ef & Hp & _) _ _]. split; [done|]. unfold kalloc, bind, gets, modify, ret. rewrite Ef.
  by destruct (Z.eqb_spec p 0).
Qed.

Lemma room_cons l T m pgdir n : space m pgdir T -> room l T (S n) -> exists p l', l = p :: l'.
Proof.
  intros Hs%tables_bounded HR. unfold room in HR. destruct l as [|p l]; [simpl in HR; lia|by eauto].
Qed.

(** Growing a process: the new part of the address space is mapped, user
    accessible and writable, to fresh zeroed pages. *)
Lemma allocuvm_spec k l pgdir T oldsz newsz x :
  vm_ok k l pgdir T -> 0 <= oldsz <= newsz -> newsz < KERNBASE -> room l T (npages oldsz newsz + x) ->
  (forall i, (i < npages oldsz newsz)%nat -> has (entry (km_mem k) T (first_page oldsz + Z.of_nat i)) PTE_P = false) ->
  wp (allocuvm kend pgdir oldsz newsz) (fun r k' => r = newsz /\ exists xs l' T' F,
    length F = npages oldsz newsz /\ room l' T' x /\
    populated (owns_page pgdir T) k l pgdir (first_page oldsz) (fun _ => Z.lor PTE_W PTE_U) (fun _ _ => 0)
      (entry (km_mem k) T) k' xs l' T' F) k.
Proof.
  intros Hv Hsz Hnew HR Hfree. unfold allocuvm.
  destruct (Z.leb_spec KERNBASE newsz); [lia|]. destruct (Z.ltb_spec newsz oldsz); [lia|].
  pose proof (npages_bound oldsz newsz Hsz Hnew) as HB. destruct (first_page_spec oldsz) as [EF HF]; [lia|].
  apply wp_bind. eapply (wp_first (fun i k' => exists xs l' T' F, length F = i /\ room l' T' (npages oldsz newsz - i + x) /\
    populated (owns_page pgdir T) k l pgdir (first_page oldsz) (fun _ => Z.lor PTE_W PTE_U) (fun _ _ => 0)
      (entry (km_mem k) T) k' xs l' T' F)).
  - exists [], l, T, []. split; [done|]. rewrite Nat.sub_0_r. split; [done|]. split.
    + split; [done|done|by left|done].
    + constructor.
    + intros p Hp. set_solver.
    + intros j Hj. unfold placed. rewrite lookup_nil. by destruct (_ <=? _).
    + intros i p o. by rewrite lookup_nil.
  - intros i a k1 Ha (xs & l1 & T1 & F & HL & HR1 & HP). apply page_range_lookup in Ha as [-> Hi]; [|lia].
    pose proof (pp_built _ _ _ _ _ _ _ _ _ _ _ _ _ HP) as B. pose proof (bt_ok _ _ _ _ _ _ _ _ B) as Hv1.
    replace (npages oldsz newsz - i + x)%nat with (S (npages oldsz newsz - S i + x)) in HR1 by lia.
    destruct (room_cons _ _ _ _ _ (vo_space _ _ _ _ _ Hv1) HR1) as (p & l2 & ->).
    destruct (kalloc_cons k1 p l2 (vo_free _ _ _ _ _ Hv1)) as [Hp0 Ek]. apply wp_bind, wp_ok. eexists _, _. split; [exact Ek|].
    destruct (Z.eqb_spec p 0); [done|]. unfold on_mem. apply wp_bind, wp_modify. cbn [km_mem use_lock freelist].
    apply wp_bind. rewrite <- HL. wp_use (populate_step _ _ _ _ _ (fun _ => Z.lor PTE_W PTE_U) (fun _ _ => 0) _ _ _ _ _ _ _
      (memset (km_mem k1) p 0 PGSIZE) (use_lock k1) (npages oldsz newsz - S i + x)%nat HP); [apply Hv|done|lia|lia|done| | | |].
    + apply Hfree. lia.
    + intros y Hy. rewrite memset_spec by done. unfold filled, in_page in *. zcmp.
    + intros o Ho. rewrite memset_spec by done. unfold filled. by zcmp.
    + intros r k2 (-> & xs2 & l3 & T2 & HP2 & HR2). apply wp_ret. exists xs2, l3, T2, (F ++ [p]).
      rewrite length_app. simpl. split; [lia|]. rewrite HL in *. split; [done|done].
  - intros k' (xs & l' & T' & F & HL & HR' & HP). apply wp_ret. rewrite page_range_length in *. simpl. split; [done|].
    rewrite Nat.sub_diag in HR'. by exists xs, l', T', F.
Qed.

(** ** [copyuvm] *)

(** The page a present entry refers to, as the kernel addresses it. *)
Definition frame (e : Z) : Z := p2v (PTE_ADDR e).

(** The first [n] pages of the address space are present; they are pages of
    their own, neither free nor tables. *)
Record user_ok (k : kmem) (l : list Z) (pgdir : Z) (T : gmap Z Z) (n : nat) : Prop := {
  uo_vm : vm_ok k l pgdir T;
  uo_entry : forall i, (i < n)%nat ->
    has (entry (km_mem k) T (Z.of_nat i)) PTE_P = true /\
    page_ok (frame (entry (km_mem k) T (Z.of_nat i))) /\ (frame (entry (km_mem k) T (Z.of_nat i)) ∉ l) /\
    ~ owns_page pgdir T (frame (entry (km_mem k) T (Z.of_nat i)))
}.

(** The pages that were not free keep their contents. *)
Lemma built_keeps k l d k' xs l' T' p x :
  built no_page k l d k' xs l' T' -> kmem_ok k l -> page_ok p -> p ∉ l -> in_page p x -> km_mem k' x = km_mem k x.
Proof.
  intros [_ El _ Hm] [_ Hf _] Hp Hl Hx. apply Hm. intros q [[]|Hq] Hx'. apply Hl.
  assert (q ∈ l) as Hql by (rewrite El; apply elem_of_app; by left).
  rewrite Forall_forall in Hf. by rewrite (in_page_eq kend p q x (Hp) (Hf q Hql)).
Qed.

Lemma built_keeps_space k l d k' xs l' T' pgdir T :
  built no_page k l d k' xs l' T' -> vm_ok k l pgdir T ->
  space (km_mem k') pgdir T /\ forall n, vpage n -> entry (km_mem k') T n = entry (km_mem k) T n.
Proof.
  intros B [Hk Hs Ha]. apply (space_ext kend); [|done]. intros p x Hp Hx.
  eapply built_keeps; [exact B|done| | |done]; [by eapply owned_ok|by apply Ha].
Qed.

Lemma lor_present f : has f PTE_P = true -> Z.lor f PTE_P = f.
Proof.
  change PTE_P with (2 ^ 0). rewrite has_bit by done. intros Hf. apply Z.bits_inj'. intros n Hn.
  rewrite Z.lor_spec, Z.pow2_bits_eqb by done. destruct (Z.eqb_spec 0 n) as [<-|]; [by rewrite Hf|by rewrite orb_false_r].
Qed.

Lemma PTE_FLAGS_range e : 0 <= PTE_FLAGS e < PGSIZE.
Proof. unfold PTE_FLAGS. change 0xFFF with (Z.ones 12). rewrite Z.land_ones by done. by apply Z.mod_pos_bound. Qed.

Lemma first_page_0 : first_page 0 = 0.
Proof. done. Qed.

(** A copy of an address space: every user page of the parent is mapped in the
    child, with the same flags, to a fresh page with the same contents. *)
Lemma copyuvm_spec k l pgdir T sz x :
  data_ok -> 0 <= sz < KERNBASE -> user_ok k l pgdir T (npages 0 sz) -> (1025 + (npages 0 sz + x) < length l)%nat ->
  wp (copyuvm kend data pgdir sz) (fun d k' => d <> 0 /\ exists xs l' T' F, length F = npages 0 sz /\ room l' T' x /\
    populated no_page k l d 0 (fun i => PTE_FLAGS (entry (km_mem k) T (Z.of_nat i)))
      (fun i o => km_mem k (frame (entry (km_mem k) T (Z.of_nat i)) + o)) kernel_map k' xs l' T' F) k.
Proof.
  intros Hd Hsz [Hv HU] Hlen. pose proof (vo_free _ _ _ _ _ Hv) as Hk.
  pose proof (npages_bound 0 sz ltac:(lia) ltac:(lia)) as HB. rewrite first_page_0 in HB.
  set (np := npages 0 sz) in *. unfold copyuvm. apply wp_bind.
  wp_use (setupkvm_spec k l (np + x)); try done. intros d k1 (Hd0 & xs0 & l1 & T1 & B1 & R1 & E1).
  destruct (Z.eqb_spec d 0); [done|]. set (perms := fun i : nat => PTE_FLAGS _). set (C := fun (i : nat) (o : Z) => km_mem k _). apply wp_bind.
  eapply (wp_first (fun i k' => exists xs l' T' F, length F = i /\ room l' T' (np - i + x) /\
    populated no_page k l d 0 perms C kernel_map k' xs l' T' F)).
  - exists xs0, l1, T1, []. split; [done|]. rewrite Nat.sub_0_r. split; [done|]. split.
    + done.
    + constructor.
    + intros p Hp. set_solver.
    + intros j Hj. unfold placed. rewrite lookup_nil, E1 by done. by destruct (_ <=? _).
    + intros i p o. by rewrite lookup_nil.
  - intros i a k2 Ha (xs & l2 & T2 & F & <- & HR2 & HP). apply page_range_lookup in Ha as [-> Hi]; [|unfold KERNBASE; lia].
    rewrite first_page_0, Z.add_0_l. fold np in Hi. assert (vpage (Z.of_nat (length F))) as Hvi by (unfold vpage; lia).
    pose proof (pp_built _ _ _ _ _ _ _ _ _ _ _ _ _ HP) as B. pose proof (bt_ok _ _ _ _ _ _ _ _ B) as Hv2.
    destruct (HU _ Hi) as (Hpres & Hfok & Hfl & _). set (e := entry (km_mem k) T (Z.of_nat (length F))) in *.
    destruct (built_keeps_space _ _ _ _ _ _ _ pgdir T B Hv) as [Hs2 He2]. specialize (He2 _ Hvi). fold e in He2.
    destruct (T !! (Z.of_nat (length F) / NPTENTRIES)) as [t|] eqn:Et; [|unfold e, entry in Hpres; by rewrite Et in Hpres].
    apply wp_bind, wp_ok. eexists _, _. split; [by eapply walk_hit|].
    destruct (sp_tab _ _ _ _ Hs2 _ _ Et) as (_ & (Htr & _)%page_range_ok & _); [|done].
    destruct (vpage_index _ Hvi) as [_ Hm]. destruct (Z.eqb_spec (t + 4 * (Z.of_nat (length F) mod NPTENTRIES)) 0); [unfold KERNBASE in *; lia|].
    apply wp_bind, wp_gets. assert (load32 (km_mem k2) (t + 4 * (Z.of_nat (length F) mod NPTENTRIES)) = e) as ->.
    { rewrite <- He2. unfold entry. by rewrite Et. }
    rewrite Hpres. cbn [negb]. cbv zeta.
    replace (np - length F + x)%nat with (S (np - S (length F) + x)) in HR2 by lia.
    destruct (room_cons _ _ _ _ _ (vo_space _ _ _ _ _ Hv2) HR2) as (p & l3 & ->).
    destruct (kalloc_cons k2 p l3 (vo_free _ _ _ _ _ Hv2)) as [Hp0 Ek]. apply wp_bind, wp_ok. eexists _, _. split; [exact Ek|].
    destruct (Z.eqb_spec p 0); [done|]. unfold on_mem. apply wp_bind, wp_modify. cbn [km_mem use_lock freelist].
    apply wp_bind. change (PTE_FLAGS e) with (perms (length F)). rewrite <- (Z.add_0_l (Z.of_nat (length F))).
    wp_use (populate_step _ _ _ _ _ perms C _ _ _ _ _ _ _
      (memmove (km_mem k2) p (frame e) PGSIZE) (use_lock k2) (np - S (length F) + x)%nat HP); [done|done|done|lia|apply PTE_FLAGS_range| | | |].
    + by rewrite kernel_map_user by (done || lia).
    + intros y Hy. rewrite memmove_spec by done. unfold moved, in_page in *. zcmp.
    + intros o Ho. rewrite memmove_spec by done. unfold moved.
      destruct (Z.leb_spec p (p + o)), (Z.ltb_spec (p + o) (p + PGSIZE)); try lia. simpl.
      replace (p + o - p) with o by lia. unfold C. fold e. eapply built_keeps; [exact B|done|exact Hfok|done|unfold in_page; lia].
    + intros r k3 (-> & xs3 & l4 & T3 & HP3 & HR3). simpl. apply wp_ret. exists xs3, l4, T3, (F ++ [p]).
      rewrite length_app. simpl. split; [lia|]. split; [done|done].
  - intros k' (xs & l' & T' & F & HL & HR' & HP). apply wp_ret. rewrite page_range_length in *. simpl. split; [done|].
    unfold np in HR'. rewrite Nat.sub_diag in HR'. by exists xs, l', T', F.
Qed.

(** The pages an address space was filled with can be copied in turn. *)
Lemma populated_entry P k l d perms C f k' xs l' T' F i p :
  populated P k l d 0 perms C f k' xs l' T' F -> F !! i = Some p -> 0 <= perms i < PGSIZE -> Z.of_nat i < 2 ^ 20 ->
  entry (km_mem k') T' (Z.of_nat i) = Z.lor (v2p p) (Z.lor (perms i) PTE_P) /\
  0 <= Z.lor (perms i) PTE_P < PGSIZE /\ page_ok p /\ frame (entry (km_mem k') T' (Z.of_nat i)) = p.
Proof.
  intros HP Hp Hperm Hi. pose proof (lor_range (perms i) PTE_P Hperm ltac:(done)) as Hr.
  assert (page_ok p) as Hok by (apply (pp_own _ _ _ _ _ _ _ _ _ _ _ _ _ HP); by eapply list_elem_of_lookup_2).
  assert (entry (km_mem k') T' (Z.of_nat i) = Z.lor (v2p p) (Z.lor (perms i) PTE_P)) as E.
  { rewrite (pp_entry _ _ _ _ _ _ _ _ _ _ _ _ _ HP) by (unfold vpage; lia). unfold placed.
    destruct (Z.leb_spec 0 (Z.of_nat i)); [|lia]. rewrite Z.sub_0_r, Nat2Z.id, Hp. by rewrite Z.lor_assoc. }
  split; [done|]. split; [done|]. split; [done|]. unfold frame. rewrite E. by apply (entry_frame kend).
Qed.

Lemma populated_user P k l d perms C f k' xs l' T' F :
  populated P k l d 0 perms C f k' xs l' T' F -> (forall i, (i < length F)%nat -> 0 <= perms i < PGSIZE) ->
  Z.of_nat (length F) <= 2 ^ 20 -> user_ok k' l' d T' (length F).
Proof.
  intros HP Hperm HL. split; [apply HP|]. intros i Hi. destruct (lookup_lt_is_Some_2 F i Hi) as [p Hp].
  destruct (populated_entry _ _ _ _ _ _ _ _ _ _ _ _ _ _ HP Hp (Hperm i Hi) ltac:(lia)) as (E & Hr & Hok & Ef).
  rewrite Ef. split; [|split; [done|]].
  - rewrite E, has_entry by (done || by apply (v2p_aligned kend)). unfold has. rewrite Z.land_lor_distr_l.
    change (Z.land PTE_P PTE_P) with 1. destruct (Z.eqb_spec (Z.lor (Z.land (perms i) PTE_P) 1) 0) as [Hz|]; [|done].
    by apply Z.lor_eq_0_iff in Hz as [_ ?].
  - destruct (pp_own _ _ _ _ _ _ _ _ _ _ _ _ _ HP p) as (_ & _ & ? & ?); [by eapply list_elem_of_lookup_2|done].
Qed.
End VmSpace.
