(* ===== verification/VmFree.v ===== *)
(** * Giving memory back: [deallocuvm] and [freevm]

    Shrinking an address space frees exactly the pages mapped in the part cut
    off; destroying it frees those, its page tables and its directory. *)

From S2P Require Import Prelude Params CString Kalloc Vm VmMap VmSpace.

(** The pages the entries [f] refer to, from page [n] on, [c] of them. *)
Definition frames_of (f : Z -> Z) (n c : Z) : list Z :=
  omap (fun j => if has (f j) PTE_P then Some (frame (f j)) else None) (seqZ n c).

Lemma frames_of_ext f g n c : (forall j, n <= j < n + c -> f j = g j) -> frames_of f n c = frames_of g n c.
Proof.
  intros H. unfold frames_of. assert (forall j, j ∈ seqZ n c -> f j = g j) as H'.
  { intros j Hj%elem_of_seqZ. by apply H. }
  revert H'. generalize (seqZ n c). intros l. induction l as [|j l IH]; intros H'; [done|].
  csimpl. rewrite (H' j) by (by left). destruct (has (g j) PTE_P); rewrite IH; try done; intros i Hi; apply H'; by right.
Qed.

Lemma frames_of_app f n a b : 0 <= a -> 0 <= b -> frames_of f n (a + b) = frames_of f n a ++ frames_of f (n + a) b.
Proof. intros. unfold frames_of. by rewrite seqZ_app, omap_app by done. Qed.

Lemma frames_of_none f n c : (forall j, n <= j < n + c -> has (f j) PTE_P = false) -> frames_of f n c = [].
Proof.
  intros H. unfold frames_of. assert (forall j, j ∈ seqZ n c -> has (f j) PTE_P = false) as H'.
  { intros j Hj%elem_of_seqZ. by apply H. }
  revert H'. generalize (seqZ n c). intros l. induction l as [|j l IH]; intros H'; [done|].
  csimpl. rewrite (H' j) by (by left). apply IH. intros i Hi. apply H'. by right.
Qed.

Lemma frames_of_cons f n c :
  0 < c -> frames_of f n c = (if has (f n) PTE_P then [frame (f n)] else []) ++ frames_of f (n + 1) (c - 1).
Proof.
  intros Hc. replace c with (1 + (c - 1)) at 1 by lia. rewrite frames_of_app by lia. f_equal.
  unfold frames_of. rewrite seqZ_cons by lia. csimpl. by destruct (has (f n) PTE_P).
Qed.

Section VmFree.
Context (kend data : Z).
Hypothesis (Hkend : KERNBASE < kend).

#[local] Abbreviation page_ok := (page_ok kend).
#[local] Abbreviation kmem_ok := (kmem_ok kend).
#[local] Abbreviation space := (space kend).
#[local] Abbreviation vm_ok := (vm_ok kend).

(** Freeing a page the address space does not use for its tables. *)
Lemma vm_free k l pgdir T p :
  vm_ok k l pgdir T -> page_ok p -> p ∉ l -> ~ owns_page pgdir T p ->
  exists k', kfree kend p k = Ok tt k' /\ vm_ok k' (p :: l) pgdir T /\
    (forall j, vpage j -> entry (km_mem k') T j = entry (km_mem k) T j) /\
    (forall x, ~ in_page p x -> km_mem k' x = km_mem k x).
Proof.
  intros [Hk Hs Ha] Hp Hl Hno. destruct (kfree_run kend k l p Hk Hp Hl) as (k' & E & Hk' & _ & Hout & _).
  exists k'. split; [done|]. destruct (space_ext kend (km_mem k) (km_mem k') pgdir T) as [Hs' He']; [|done|].
  - intros q x Hq Hx. apply Hout. intros Hx'. apply Hno.
    assert (page_ok q) by (by eapply owned_ok). by rewrite <- (in_page_eq kend q p x).
  - split; [|by split]. split; [done|done|]. intros q Hq [->|Hq']%elem_of_cons; [done|by apply (Ha q)].
Qed.

(** The pages [fs] are in use and belong to no table of the address space. *)
Definition frames_ok (l : list Z) (pgdir : Z) (T : gmap Z Z) (fs : list Z) : Prop :=
  NoDup fs /\ forall p, p ∈ fs -> page_ok p /\ (p ∉ l) /\ ~ owns_page pgdir T p.

Lemma frames_ok_cons l pgdir T p fs :
  frames_ok l pgdir T (p :: fs) ->
  page_ok p /\ (p ∉ l) /\ ~ owns_page pgdir T p /\ frames_ok (p :: l) pgdir T fs.
Proof.
  intros [Hn Hf]. apply NoDup_cons in Hn as [Hp Hn]. destruct (Hf p) as (? & ? & ?); [by left|].
  do 3 (split; [done|]). split; [done|]. intros q Hq. destruct (Hf q) as (? & ? & ?); [by right|].
  split; [done|]. split; [|done]. rewrite not_elem_of_cons. split; [by intros ->|done].
Qed.

(** The entries with those of the range cleared. *)
Definition cleared (f : Z -> Z) (n e j : Z) : Z := if (n <=? j) && (j <? e) && has (f j) PTE_P then 0 else f j.

(** Where the walk skips whole tables it is at the start of one. *)
Definition aligned_at (T : gmap Z Z) (n : Z) : Prop := n mod NPTENTRIES = 0 \/ is_Some (T !! (n / NPTENTRIES)).

Lemma aligned_next T n : is_Some (T !! (n / NPTENTRIES)) -> aligned_at T (n + 1).
Proof.
  intros Ht. unfold aligned_at. destruct (decide ((n + 1) mod NPTENTRIES = 0)) as [|Hne]; [by left|right].
  replace ((n + 1) / NPTENTRIES) with (n / NPTENTRIES); [done|]. unfold NPTENTRIES in *.
  pose proof (Z.div_mod n 1024). pose proof (Z.div_mod (n + 1) 1024). pose proof (Z.mod_pos_bound n 1024).
  pose proof (Z.mod_pos_bound (n + 1) 1024). lia.
Qed.

(** An absent table has no present entry. *)
Lemma absent_entries m T n j :
  T !! (n / NPTENTRIES) = None -> n mod NPTENTRIES = 0 -> n <= j < n + NPTENTRIES -> entry m T j = 0.
Proof.
  intros Hn Hm Hj. unfold entry. replace (j / NPTENTRIES) with (n / NPTENTRIES); [by rewrite Hn|].
  unfold NPTENTRIES in *. pose proof (Z.div_mod n 1024). pose proof (Z.div_mod j 1024).
  pose proof (Z.mod_pos_bound j 1024). lia.
Qed.

(** One present entry: free the page, clear the entry. *)
Lemma dealloc_one k l pgdir T n t fs :
  vm_ok k l pgdir T -> vpage n -> T !! (n / NPTENTRIES) = Some t -> has (entry (km_mem k) T n) PTE_P = true ->
  frames_ok l pgdir T (frame (entry (km_mem k) T n) :: fs) ->
  exists k1, kfree kend (frame (entry (km_mem k) T n)) k = Ok tt k1 /\
  wp (on_mem (store32 (t + 4 * (n mod NPTENTRIES)) 0)) (fun _ k2 =>
    vm_ok k2 (frame (entry (km_mem k) T n) :: l) pgdir T /\
    frames_ok (frame (entry (km_mem k) T n) :: l) pgdir T fs /\
    (forall j, vpage j -> entry (km_mem k2) T j = if j =? n then 0 else entry (km_mem k) T j) /\
    (forall x, (forall p, owns_page pgdir T p \/ p = frame (entry (km_mem k) T n) -> ~ in_page p x) ->
       km_mem k2 x = km_mem k x)) k1.
Proof.
  intros Hv Hn Ht Hp Hf. set (p := frame _) in *. apply frames_ok_cons in Hf as (Hpok & Hpl & Hpo & Hf).
  destruct (vm_free k l pgdir T p Hv Hpok Hpl Hpo) as (k1 & E1 & Hv1 & He1 & Ho1). exists k1. split; [done|].
  wp_use (set_entry kend k1 (p :: l) pgdir T n t 0); try done. intros _ k2 [G2 E2]. split; [apply G2|]. split; [done|].
  split; [intros j Hj; rewrite E2, He1 by done; done|]. intros x Hx.
  rewrite (gr_mem _ _ _ _ _ _ _ _ G2), Ho1; [done| |].
  - apply Hx. by right.
  - intros q Hq. apply Hx. by left.
Qed.

Lemma cleared_skip f n n' e j :
  n <= n' -> (forall i, n <= i < n' -> i < e -> has (f i) PTE_P = false) -> cleared f n' e j = cleared f n e j.
Proof.
  intros Hn H. unfold cleared. destruct (Z.leb_spec n' j), (Z.leb_spec n j); try lia; try done.
  destruct (Z.ltb_spec j e); simpl; [|done]. by rewrite H.
Qed.

Lemma cleared_step f g n e j :
  n < e -> has (f n) PTE_P = true -> (forall i, vpage i -> g i = if i =? n then 0 else f i) -> vpage j ->
  cleared g (n + 1) e j = cleared f n e j.
Proof.
  intros Hn Hp Hg Hj. unfold cleared. rewrite !Hg by done.
  destruct (Z.eqb_spec j n) as [->|Hne]; [rewrite Hp; by zcmp|].
  destruct (Z.leb_spec (n + 1) j), (Z.leb_spec n j); try lia; done.
Qed.

(** The walk of [deallocuvm] over the pages [n .. e - 1]. *)
Lemma dealloc_loop_spec fuel k l pgdir T n hi e :
  vm_ok k l pgdir T -> 0 <= n -> n <= e -> e <= 2 ^ 19 -> (forall i, i * PGSIZE < hi <-> i < e) ->
  e - n <= Z.of_nat fuel -> aligned_at T n ->
  frames_ok l pgdir T (frames_of (entry (km_mem k) T) n (e - n)) ->
  wp (dealloc_loop kend fuel pgdir (n * PGSIZE) hi) (fun _ k' =>
    vm_ok k' (reverse (frames_of (entry (km_mem k) T) n (e - n)) ++ l) pgdir T /\
    (forall j, vpage j -> entry (km_mem k') T j = cleared (entry (km_mem k) T) n e j) /\
    (forall x, (forall p, owns_page pgdir T p \/ p ∈ frames_of (entry (km_mem k) T) n (e - n) -> ~ in_page p x) ->
       km_mem k' x = km_mem k x)) k.
Proof.
  assert (PGSIZE = 4096 /\ NPTENTRIES = 1024) as [EP EN] by done.
  revert k l n. induction fuel as [|fuel IH]; intros k l n Hv Hn Hne He Hhi Hfuel Hal Hfs; cbn [dealloc_loop].
  all: destruct (Z.ltb_spec (n * PGSIZE) hi) as [Hlt|Hge].
  1: apply Hhi in Hlt; lia.
  1, 3: assert (e = n) as -> by (destruct (decide (n < e)) as [Hc|]; [apply Hhi in Hc; lia|lia]);
    apply wp_ret; rewrite Z.sub_diag; (split; [done|]); split; [intros j Hj; unfold cleared; zcmp|done].
  apply Hhi in Hlt. assert (vpage n) as Hvn by (unfold vpage; lia).
  destruct (T !! (n / NPTENTRIES)) as [t|] eqn:Et.
  - apply wp_bind, wp_ok. eexists _, k. split; [eapply walk_hit; [done|apply Hv|done|done]|].
    destruct (sp_tab _ _ _ _ (vo_space _ _ _ _ _ Hv) _ _ Et) as (_ & (Htr & _)%page_range_ok & _); [|done].
    destruct (vpage_index n Hvn) as [_ Hm]. destruct (Z.eqb_spec (t + 4 * (n mod NPTENTRIES)) 0); [unfold KERNBASE in *; lia|].
    apply wp_bind, wp_gets. assert (load32 (km_mem k) (t + 4 * (n mod NPTENTRIES)) = entry (km_mem k) T n) as ->
      by (unfold entry; by rewrite Et).
    assert (aligned_at T (n + 1)) as Hal1 by (apply aligned_next; rewrite Et; by eexists).
    rewrite frames_of_cons in Hfs by lia. rewrite (frames_of_cons _ n) by lia. replace (e - n - 1) with (e - (n + 1)) in * by lia.
    rewrite u32_small by lia. replace (n * PGSIZE + PGSIZE) with ((n + 1) * PGSIZE) by lia.
    destruct (has (entry (km_mem k) T n) PTE_P) eqn:Hp; simpl app in *.
    + destruct (dealloc_one k l pgdir T n t _ Hv Hvn Et Hp Hfs) as (k1 & E1 & HW).
      apply frames_ok_cons in Hfs as ((Hfr & _ & Hfv)%page_range_ok & _); [|done].
      destruct (Z.eqb_spec (PTE_ADDR (entry (km_mem k) T n)) 0) as [E0|].
      { unfold frame in Hfr. rewrite E0 in Hfr. change (p2v 0) with KERNBASE in Hfr. lia. }
      apply wp_bind, wp_bind, wp_ok. eexists tt, k1. split; [done|]. wp_use HW. intros _ k2 (Hv2 & Hf2 & He2 & Ho2).
      assert (frames_of (entry (km_mem k2) T) (n + 1) (e - (n + 1)) = frames_of (entry (km_mem k) T) (n + 1) (e - (n + 1))) as Ef.
      { apply frames_of_ext. intros j Hj. rewrite He2 by (unfold vpage; lia). zcmp. }
      rewrite <- Ef in Hf2. wp_use (IH k2 _ (n + 1) Hv2); try done; try lia.
      intros _ k3 (Hv3 & He3 & Ho3). rewrite Ef in *. rewrite reverse_cons, <- app_assoc. split; [done|]. split.
      * intros j Hj. rewrite He3 by done. by apply cleared_step.
      * intros x Hx. rewrite Ho3, Ho2; [done| |]; intros q Hq; apply Hx; rewrite elem_of_cons; tauto.
    + apply wp_bind, wp_ret. wp_use (IH k l (n + 1) Hv); try done; try lia.
      intros _ k3 (Hv3 & He3 & Ho3). split; [done|]. split; [|done].
      intros j Hj. rewrite He3 by done. apply cleared_skip; [lia|]. intros i Hi _. by replace i with n by lia.
  - apply wp_bind, wp_ok. eexists 0, k. split; [eapply walk_none; [apply Hv|done|done]|]. rewrite Z.eqb_refl.
    destruct Hal as [Hm|[t Ht]]; [|by rewrite Et in Ht].
    assert (forall j, n <= j < n + NPTENTRIES -> has (entry (km_mem k) T j) PTE_P = false) as Hz.
    { intros j Hj. by rewrite (absent_entries _ _ n). }
    rewrite u32_small by (rewrite EP, EN; lia).
    replace (n * PGSIZE + (NPTENTRIES - 1) * PGSIZE + PGSIZE) with ((n + NPTENTRIES) * PGSIZE) by lia.
    destruct (decide (n + NPTENTRIES <= e)) as [Hle|Hgt].
    + assert (frames_of (entry (km_mem k) T) n (e - n) = frames_of (entry (km_mem k) T) (n + NPTENTRIES) (e - (n + NPTENTRIES))) as Ef.
      { replace (e - n) with (NPTENTRIES + (e - (n + NPTENTRIES))) by lia. rewrite frames_of_app by lia. by rewrite frames_of_none. }
      rewrite Ef in *. wp_use (IH k l (n + NPTENTRIES) Hv); try done; try lia.
      { left. rewrite Z.add_mod, Hm by done. done. }
      intros _ k3 (Hv3 & He3 & Ho3). split; [done|]. split; [|done].
      intros j Hj. rewrite He3 by done. apply cleared_skip; [lia|]. intros i Hi _. by apply Hz.
    + rewrite frames_of_none by (intros j Hj; apply Hz; lia).
      assert (dealloc_loop kend fuel pgdir ((n + NPTENTRIES) * PGSIZE) hi k = Ok tt k) as Est.
      { destruct fuel; cbn [dealloc_loop]; (destruct (Z.ltb_spec ((n + NPTENTRIES) * PGSIZE) hi) as [Hc|]; [apply Hhi in Hc; lia|done]). }
      apply wp_ok. exists tt, k. split; [done|]. split; [done|]. split; [|done]. intros j Hj. unfold cleared.
      destruct (Z.leb_spec n j), (Z.ltb_spec j e); simpl; try done. by rewrite Hz by lia.
Qed.

(** The number of pages a process of size [sz] has. *)
Definition pages_below (sz : Z) : Z := (sz + PGSIZE - 1) / PGSIZE.

Lemma pages_below_lt sz i : i * PGSIZE < sz <-> i < pages_below sz.
Proof.
  unfold pages_below. assert (PGSIZE = 4096) as EP by done.
  pose proof (Z.div_mod (sz + PGSIZE - 1) PGSIZE ltac:(done)). pose proof (Z.mod_pos_bound (sz + PGSIZE - 1) PGSIZE ltac:(done)).
  nia.
Qed.

Lemma first_page_below sz : 0 <= sz <= KERNBASE -> PGROUNDUP sz = pages_below sz * PGSIZE.
Proof.
  intros Hs. assert (PGSIZE = 4096 /\ KERNBASE = 2147483648) as [EP EK] by done.
  unfold PGROUNDUP. rewrite u32_small by lia. rewrite pground_mask by lia. done.
Qed.

Lemma pages_below_range sz : 0 <= sz <= KERNBASE -> 0 <= pages_below sz <= 2 ^ 19 /\ pages_below sz <= sz / PGSIZE + 1.
Proof.
  intros Hs. unfold pages_below. assert (PGSIZE = 4096 /\ KERNBASE = 2147483648) as [EP EK] by done.
  pose proof (Z.div_mod (sz + PGSIZE - 1) PGSIZE ltac:(done)). pose proof (Z.mod_pos_bound (sz + PGSIZE - 1) PGSIZE ltac:(done)).
  pose proof (Z.div_mod sz PGSIZE ltac:(done)). pose proof (Z.mod_pos_bound sz PGSIZE ltac:(done)). lia.
Qed.

(** Shrinking frees the pages beyond the new size and clears their entries. *)
Lemma deallocuvm_spec k l pgdir T oldsz newsz :
  vm_ok k l pgdir T -> 0 <= newsz < oldsz -> oldsz <= KERNBASE -> aligned_at T (pages_below newsz) ->
  let fs := frames_of (entry (km_mem k) T) (pages_below newsz) (pages_below oldsz - pages_below newsz) in
  frames_ok l pgdir T fs ->
  wp (deallocuvm kend pgdir oldsz newsz) (fun r k' => r = newsz /\
    vm_ok k' (reverse fs ++ l) pgdir T /\
    (forall j, vpage j -> entry (km_mem k') T j = cleared (entry (km_mem k) T) (pages_below newsz) (pages_below oldsz) j) /\
    (forall x, (forall p, owns_page pgdir T p \/ p ∈ fs -> ~ in_page p x) -> km_mem k' x = km_mem k x)) k.
Proof.
  intros Hv Hsz Hk Hal fs Hfs. unfold deallocuvm. destruct (Z.leb_spec oldsz newsz); [lia|].
  destruct (pages_below_range newsz) as [Hn _]; [lia|]. destruct (pages_below_range oldsz) as [Ho Hof]; [lia|].
  assert (pages_below newsz <= pages_below oldsz) by (apply Z.div_le_mono; [done|lia]).
  rewrite first_page_below by lia. apply wp_bind.
  wp_use (dealloc_loop_spec (Z.to_nat (oldsz / PGSIZE + 1)) k l pgdir T (pages_below newsz) oldsz (pages_below oldsz)); try done; try lia.
  intros i. apply pages_below_lt.
Qed.

(** ** [freevm] *)

(** The page tables, in directory order. *)
Definition tables (T : gmap Z Z) (c : Z) : list Z := omap (fun i => T !! i) (seqZ 0 c).

Lemma tables_snoc T c : 0 <= c -> tables T (c + 1) = tables T c ++ match T !! c with Some t => [t] | None => [] end.
Proof.
  intros Hc. unfold tables. rewrite seqZ_app, omap_app by lia. f_equal.
Qed.

Lemma elem_of_tables T c t : t ∈ tables T c -> exists i, 0 <= i < c /\ T !! i = Some t.
Proof. intros (i & Hi%elem_of_seqZ & Ht)%list_elem_of_omap. exists i. split; [lia|done]. Qed.

(** Freeing the page tables: directory entries are still readable, because the
    directory is freed last. *)
Lemma free_tables k l pgdir T :
  vm_ok k l pgdir T ->
  wp (for_ (upto NPDENTRIES) (fun i =>
        let! e := peek (pgdir + 4 * Z.of_nat i) in
        if has e PTE_P then kfree kend (p2v (PTE_ADDR e)) else ret tt)) (fun _ k' =>
    kmem_ok k' (reverse (tables T NPDENTRIES) ++ l) /\
    (forall x, (forall i t, T !! i = Some t -> ~ in_page t x) -> km_mem k' x = km_mem k x)) k.
Proof.
  intros [Hk Hs Ha]. pose (I (c : nat) (k' : kmem) :=
    kmem_ok k' (reverse (tables T (Z.of_nat c)) ++ l) /\
    (forall x, (forall i t, T !! i = Some t -> ~ in_page t x) -> km_mem k' x = km_mem k x)).
  eapply wp_mono; [apply (wp_for I)|].
  - split; [done|done].
  - intros c i k1 [-> Hc]%lookup_upto [Hk1 Ho1]. apply wp_bind, wp_gets.
    assert (load32 (km_mem k1) (pgdir + 4 * Z.of_nat c) = load32 (km_mem k) (pgdir + 4 * Z.of_nat c)) as ->.
    { apply load32_ext. intros x Hx. apply Ho1. intros i t Ht Hx'. destruct (sp_tab _ _ _ _ Hs _ _ Ht) as (_ & Htp & Hne & _).
      apply Hne. apply (in_page_eq kend t pgdir x); [done|apply Hs|done|]. apply (word_in_page _ (Z.of_nat c)); [|done].
      unfold NPDENTRIES in Hc. lia. }
    unfold I. rewrite Nat2Z.inj_succ, <- Z.add_1_r, tables_snoc by lia. destruct (T !! Z.of_nat c) as [t|] eqn:Et.
    + destruct (sp_tab _ _ _ _ Hs _ _ Et) as (_ & Htp & Hne & ->).
      rewrite has_entry by (done || by apply (v2p_aligned kend)). rewrite (entry_frame kend) by done.
      destruct (kfree_run kend k1 _ t Hk1 Htp) as (k2 & E2 & Hk2 & _ & Ho2 & _).
      { rewrite elem_of_app, elem_of_reverse. intros [(j & Hj & Ht)%elem_of_tables|Ht].
        - pose proof (sp_inj _ _ _ _ Hs _ _ _ Ht Et). lia.
        - apply (Ha t); [right; by eexists|done]. }
      apply wp_ok. exists tt, k2. split; [done|]. rewrite reverse_app. simpl. split; [done|].
      intros x Hx. rewrite Ho2, Ho1; [done|done|by apply (Hx (Z.of_nat c))].
    + rewrite (sp_none _ _ _ _ Hs) by (done || lia). apply wp_ret. by rewrite app_nil_r.
  - intros ? k'. unfold I. by rewrite length_upto, Z2Nat.id.
Qed.

(** Destroying an address space frees every page it used: the user pages, the
    page tables and the directory, and nothing else. *)
Lemma freevm_spec k l pgdir T :
  vm_ok k l pgdir T ->
  let fs := frames_of (entry (km_mem k) T) 0 (pages_below KERNBASE) in
  frames_ok l pgdir T fs ->
  wp (freevm kend pgdir) (fun _ k' =>
    kmem_ok k' (pgdir :: reverse (tables T NPDENTRIES) ++ reverse fs ++ l) /\
    (forall x, (forall p, owns_page pgdir T p \/ p ∈ fs -> ~ in_page p x) -> km_mem k' x = km_mem k x)) k.
Proof.
  intros Hv fs Hfs. pose proof (vo_space _ _ _ _ _ Hv) as Hs. pose proof (sp_dir _ _ _ _ Hs) as Hd.
  destruct (page_range_ok kend Hkend pgdir Hd) as (Hdr & _). unfold freevm.
  destruct (Z.eqb_spec pgdir 0); [unfold KERNBASE in *; lia|]. apply wp_bind.
  assert (fs = frames_of (entry (km_mem k) T) (pages_below 0) (pages_below KERNBASE - pages_below 0)) as Efs by done.
  wp_use (deallocuvm_spec k l pgdir T KERNBASE 0); [done|done|done|by left|by rewrite <- Efs|].
  rewrite <- Efs. intros _ k1 (_ & Hv1 & _ & Ho1). apply wp_bind. wp_use free_tables; [done|]. intros _ k2 [Hk2 Ho2].
  destruct (kfree_run kend k2 _ pgdir Hk2 Hd) as (k3 & E3 & Hk3 & _ & Ho3 & _).
  { rewrite !elem_of_app, !elem_of_reverse. intros [(i & _ & Hi)%elem_of_tables|[Hf|Hl]].
    - by destruct (sp_tab _ _ _ _ Hs _ _ Hi) as (_ & _ & ? & _).
    - destruct Hfs as [_ Hf']. destruct (Hf' _ Hf) as (_ & _ & Hno). apply Hno. by left.
    - apply (vo_apart _ _ _ _ _ Hv pgdir); [by left|done]. }
  apply wp_ok. exists tt, k3. split; [done|]. split; [done|]. intros x Hx. rewrite Ho3, Ho2, Ho1; [done|done| |].
  - intros i t Ht. apply Hx. left. right. by eexists.
  - apply Hx. left. by left.
Qed.
End VmFree.
