(* ===== verification/Spinlock.v ===== *)
(** * Spin locks ([spinlock.c])

    [pushcli]/[popcli] as functions of a CPU's interrupt state; [acquire] and
    [release] as a transition system in which the CPUs of the machine
    interleave, one memory access of the lock at a time.  The other files treat
    a routine's critical section as one step; mutual exclusion, proved here, is
    what licenses that. *)

From S2P Require Import Prelude Params CString Kalloc.

(** ** Interrupts *)

(** The fields of [struct cpu] that matter here, and the CPU's interrupt flag. *)
Record cpu := Cpu {
  ncli : Z;
  intena : bool;
  eflags_IF : bool
}.

Definition cli (c : cpu) : cpu := Cpu (ncli c) (intena c) false.
Definition sti (c : cpu) : cpu := Cpu (ncli c) (intena c) true.

Definition pushcli : M cpu unit :=
  let! eflags := gets eflags_IF in
  modify cli ;;;
  let! n := gets ncli in
  modify (fun c => Cpu (n + 1) (intena c) (eflags_IF c)) ;;;
  if n =? 0 then modify (fun c => Cpu (ncli c) eflags (eflags_IF c)) else ret tt.

Definition popcli : M cpu unit :=
  let! eflags := gets eflags_IF in
  if eflags then panic "popcli - interruptible"
  else
    modify (fun c => Cpu (ncli c - 1) (intena c) (eflags_IF c)) ;;;
    let! c := gets (fun c => c) in
    if ncli c <? 0 then panic "popcli"
    else if (ncli c =? 0) && intena c then modify sti else ret tt.

(** A sequence of calls: [true] is [pushcli]. *)
Fixpoint cli_calls (l : list bool) : M cpu unit :=
  match l with
  | [] => ret tt
  | b :: l' => (if b then pushcli else popcli) ;;; cli_calls l'
  end.

(** The nesting depth after a sequence of calls, if it never drops below 0. *)
Fixpoint depth (d : nat) (l : list bool) : option nat :=
  match l with
  | [] => Some d
  | true :: l' => depth (S d) l'
  | false :: l' => match d with O => None | S d' => depth d' l' end
  end.

(** The CPU at nesting depth [d], where [en] says whether interrupts were on
    outside. *)
Definition nested (en : bool) (d : nat) (c : cpu) : Prop :=
  ncli c = Z.of_nat d /\ eflags_IF c = (if d is O then en else false) /\ ((0 < d)%nat -> intena c = en).

Lemma pushcli_nested en d c : nested en d c -> wp pushcli (fun _ => nested en (S d)) c.
Proof.
  intros (Hn & HI & Hi). unfold pushcli, wp, bind, gets, modify. simpl. rewrite Hn.
  destruct (Z.eqb_spec (Z.of_nat d) 0) as [E|E].
  - assert (d = O) as -> by lia. unfold nested. simpl. split_and!; [done|done|]. by rewrite HI.
  - unfold ret, nested. simpl. split_and!; [lia|done|]. intros _. apply Hi. lia.
Qed.

Lemma popcli_nested en d c : nested en (S d) c -> wp popcli (fun _ => nested en d) c.
Proof.
  intros (Hn & HI & Hi). unfold popcli, wp, bind, gets, modify. rewrite HI. simpl. rewrite Hn.
  destruct (Z.ltb_spec (Z.of_nat (S d) - 1) 0); [lia|].
  destruct (Z.eqb_spec (Z.of_nat (S d) - 1) 0) as [E|E]; simpl.
  - assert (d = O) as -> by lia. rewrite Hi by lia. unfold nested.
    destruct en; simpl; split_and!; (done || lia).
  - unfold ret, nested. simpl. destruct d; [lia|]. split_and!; [lia|done|]. intros _. apply Hi. lia.
Qed.

(** Matched calls nest: interrupts are off exactly inside the outermost pair,
    and the outermost [popcli] restores what was there before. *)
Lemma cli_calls_nested en l d d' c :
  nested en d c -> depth d l = Some d' -> wp (cli_calls l) (fun _ => nested en d') c.
Proof.
  revert d c. induction l as [|b l IH]; intros d c Hn Hd; simpl in *; [by injection Hd as <-|].
  apply wp_bind. destruct b.
  - eapply wp_mono; [by apply pushcli_nested|]. intros [] c' Hc. by apply (IH (S d)).
  - destruct d as [|d]; [done|]. eapply wp_mono; [by apply popcli_nested|]. intros [] c' Hc. by apply (IH d).
Qed.

(** A [popcli] too many stops the machine. *)
Lemma popcli_unmatched c : ncli c = 0 -> exists msg, popcli c = Panic msg.
Proof.
  intros Hn. unfold popcli, bind, gets, modify. destruct (eflags_IF c); [eauto|]. simpl. rewrite Hn. eauto.
Qed.

(** ** The lock *)

Record spinlock := Lock { locked : Z; lk_cpu : option nat }.

Definition initlock : spinlock := Lock 0 None.

(** Check whether CPU [c] is holding the lock. *)
Definition holding (lk : spinlock) (c : nat) : bool :=
  negb (locked lk =? 0) && match lk_cpu lk with Some c' => (c' =? c)%nat | None => false end.

(** Where a CPU is in [acquire], its critical section and [release]. *)
Inductive pc :=
  | Out           (* not using the lock *)
  | Pushed        (* [acquire] has called [pushcli] *)
  | Spinning      (* the check is done, at the [xchg] loop *)
  | Locked        (* [xchg] has returned 0 *)
  | Critical      (* [acquire] has returned *)
  | Cleared       (* [release] has cleared [lk->cpu] *)
  | Unlocked      (* [release] has stored 0, [popcli] is left *)
  | Stopped.      (* panicked *)

#[export] Instance pc_eq_dec : EqDecision pc.
Proof. solve_decision. Defined.

(** The machine: the lock, and for each CPU its program counter and interrupt
    state. *)
Record machine := Machine { m_lock : spinlock; m_pc : nat -> pc; m_cpu : nat -> cpu }.

Definition upd {A} (f : nat -> A) (c : nat) (v : A) : nat -> A :=
  fun i => if decide (i = c) then v else f i.

(** The outcome of a call on CPU [c]. *)
Definition call (m : M cpu unit) (c : nat) (next : pc) (s : machine) : machine :=
  match m (m_cpu s c) with
  | Ok _ c' => Machine (m_lock s) (upd (m_pc s) c next) (upd (m_cpu s) c c')
  | _ => Machine (m_lock s) (upd (m_pc s) c Stopped) (m_cpu s)
  end.

Definition goto (c : nat) (next : pc) (lk : spinlock) (s : machine) : machine :=
  Machine lk (upd (m_pc s) c next) (m_cpu s).

(** One step of CPU [c]: the statements of [acquire] and [release] in order,
    one access to the lock each; [xchg] is atomic. *)
Definition cpu_step (c : nat) (s : machine) : machine :=
  let lk := m_lock s in
  match m_pc s c with
  | Out => call pushcli c Pushed s
  | Pushed => if holding lk c then goto c Stopped lk s else goto c Spinning lk s
  | Spinning =>
      if locked lk =? 0 then goto c Locked (Lock 1 (lk_cpu lk)) s
      else goto c Spinning (Lock 1 (lk_cpu lk)) s
  | Locked => goto c Critical (Lock (locked lk) (Some c)) s
  | Critical => if holding lk c then goto c Cleared (Lock (locked lk) None) s else goto c Stopped lk s
  | Cleared => goto c Unlocked (Lock 0 (lk_cpu lk)) s
  | Unlocked => call popcli c Out s
  | Stopped => s
  end.

Inductive step : machine -> machine -> Prop :=
  | step_cpu c s : step s (cpu_step c s).

(** Machines reachable from one in which nobody uses the lock and every CPU is
    outside [pushcli]. *)
Inductive reachable : machine -> Prop :=
  | reach_init cpus :
      (forall c, exists en, nested en 0 (cpus c)) -> reachable (Machine initlock (fun _ => Out) cpus)
  | reach_step s s' : reachable s -> step s s' -> reachable s'.

(** Between the [xchg] that takes the lock and the one that gives it back. *)
Definition owns (p : pc) : Prop := p = Locked \/ p = Critical \/ p = Cleared.

(** ** The invariant *)

Record lock_inv (s : machine) : Prop := {
  li_one : forall c c', owns (m_pc s c) -> owns (m_pc s c') -> c = c';
  li_free : locked (m_lock s) = 0 -> forall c, ~ owns (m_pc s c);
  li_owner : forall c, m_pc s c = Critical <-> lk_cpu (m_lock s) = Some c;
  li_bit : locked (m_lock s) = 0 \/ locked (m_lock s) = 1;
  li_cli : forall c, m_pc s c <> Stopped /\
    exists en, nested en (if decide (m_pc s c = Out) then O else 1%nat) (m_cpu s c)
}.

Lemma cpu_upd_eq {A} (f : nat -> A) c v : upd f c v c = v.
Proof. unfold upd. by rewrite decide_True. Qed.

Lemma cpu_upd_ne {A} (f : nat -> A) c v i : i <> c -> upd f c v i = f i.
Proof. intros. unfold upd. by rewrite decide_False. Qed.

Lemma lock_inv_init cpus :
  (forall c, exists en, nested en 0 (cpus c)) -> lock_inv (Machine initlock (fun _ => Out) cpus).
Proof.
  intros Hn. split; simpl; try done.
  - by intros c c' [|[|]].
  - by intros _ c [|[|]].
  - by left.
Qed.

(** A step that changes the lock and one program counter. *)
Lemma lock_inv_goto s c next lk :
  lock_inv s -> m_pc s c <> Out -> next <> Stopped -> next <> Out ->
  (owns next -> forall c', c' <> c -> ~ owns (m_pc s c')) ->
  (locked lk = 0 -> ~ owns next /\ forall c', c' <> c -> ~ owns (m_pc s c')) ->
  (forall c', (if decide (c' = c) then next else m_pc s c') = Critical <-> lk_cpu lk = Some c') ->
  (locked lk = 0 \/ locked lk = 1) ->
  lock_inv (goto c next lk s).
Proof.
  intros [I1 I2 I3 I4 I5] Hout Hst Hno H1 H2 H3 H4. split; simpl; try done.
  - intros a b. unfold upd. repeat case_decide; subst; try done; intros Ha Hb.
    + by destruct (H1 Ha b).
    + by destruct (H1 Hb a).
    + by apply I1.
  - intros H0 a. destruct (H2 H0) as [Hn Hr]. unfold upd. case_decide; [done|by apply Hr].
  - intros a. destruct (I5 a) as [Ha He]. unfold upd. destruct (decide (a = c)) as [->|Hne].
    + split; [done|]. rewrite decide_False in He by done. by rewrite decide_False.
    + done.
Qed.

(** A step that only runs [pushcli] or [popcli]. *)
Lemma lock_inv_call s c m next d en :
  lock_inv s -> ~ owns (m_pc s c) -> ~ owns next -> next <> Stopped ->
  wp m (fun _ => nested en d) (m_cpu s c) -> d = (if decide (next = Out) then O else 1%nat) ->
  lock_inv (call m c next s).
Proof.
  intros [I1 I2 I3 I4 I5] Ho Hn Hs Hm ->. unfold call. apply wp_run in Hm as ([] & c' & -> & Hc).
  split; simpl; try done.
  - intros a b. unfold upd. destruct (decide (a = c)), (decide (b = c)); subst; try done. apply I1.
  - intros H0 a. unfold upd. destruct (decide (a = c)); [done|by apply I2].
  - intros a. unfold upd. destruct (decide (a = c)) as [E|]; [|apply I3]. subst a. rewrite <- I3. split.
    + intros ->. exfalso. apply Hn. right. by left.
    + intros E. exfalso. apply Ho. rewrite E. right. by left.
  - intros a. unfold upd. destruct (decide (a = c)) as [->|]; [|apply I5]. split; [done|]. by exists en.
Qed.

Lemma not_owns p : p = Out \/ p = Pushed \/ p = Spinning \/ p = Unlocked \/ p = Stopped -> ~ owns p.
Proof. unfold owns. naive_solver. Qed.

Lemma lock_inv_step c s : lock_inv s -> lock_inv (cpu_step c s).
Proof.
  intros Hi. pose proof Hi as [I1 I2 I3 I4 I5]. destruct (I5 c) as [Hc [en Hen]].
  assert (forall p, m_pc s c = p -> owns p -> forall c', c' <> c -> ~ owns (m_pc s c')) as Hother.
  { intros p Ep Hp c' Hne Hc'. apply Hne, I1; [done|by rewrite Ep]. }
  assert (forall next p, m_pc s c = p -> p <> Critical -> next <> Critical ->
    forall c', (if decide (c' = c) then next else m_pc s c') = Critical <-> lk_cpu (m_lock s) = Some c') as Hown.
  { intros next p Ep Hp Hx c'. destruct (decide (c' = c)); [|apply I3]. subst. rewrite <- I3. naive_solver. }
  unfold cpu_step. destruct (m_pc s c) eqn:E.
  - apply (lock_inv_call _ _ _ _ 1 en); try done; [apply not_owns; naive_solver..|by apply (pushcli_nested en 0)].
  - assert (holding (m_lock s) c = false) as ->.
    { unfold holding. destruct (lk_cpu (m_lock s)) as [c'|] eqn:El; [|apply andb_false_r].
      assert (m_pc s c' = Critical) by (by apply I3).
      destruct (Nat.eqb_spec c' c); [congruence|apply andb_false_r]. }
    apply lock_inv_goto; try done; [congruence|by intros ?%not_owns; [|naive_solver]| |by apply (Hown Spinning Pushed)].
    intros H0. split; [apply not_owns; naive_solver|]. intros c' _. by apply I2.
  - destruct (Z.eqb_spec (locked (m_lock s)) 0) as [H0|H0].
    + apply lock_inv_goto; try done; [congruence| |by apply (Hown Locked Spinning)|by right]. intros _ c' _. by apply I2.
    + apply lock_inv_goto; try done; [congruence|by intros ?%not_owns; [|naive_solver]|by apply (Hown Spinning Spinning)|by right].
  - apply lock_inv_goto; try done; [congruence| | |]; simpl.
    + intros _. apply (Hother Locked); [done|by left].
    + intros H0. exfalso. apply (I2 H0 c). rewrite E. by left.
    + intros c'. destruct (decide (c' = c)) as [Ec|Ec]; [subst; naive_solver|]. split; [|congruence].
      intros Ecr. exfalso. apply (Hother Locked eq_refl ltac:(by left) c' Ec). rewrite Ecr. right. by left.
  - assert (holding (m_lock s) c = true) as ->.
    { unfold holding. apply I3 in E as El. rewrite El, Nat.eqb_refl, andb_true_r. apply negb_true_iff, Z.eqb_neq.
      intros H0. apply (I2 H0 c). rewrite E. right. by left. }
    apply lock_inv_goto; try done; [congruence| | |]; simpl.
    + intros _. apply (Hother Critical); [done|right; by left].
    + intros H0. exfalso. apply (I2 H0 c). rewrite E. right. by left.
    + intros c'. split; [|done]. destruct (decide (c' = c)) as [Ec|Ec]; [done|]. intros Ecr. exfalso.
      apply (Hother Critical eq_refl ltac:(right; by left) c' Ec). rewrite Ecr. right. by left.
  - apply lock_inv_goto; try done; [congruence|by intros ?%not_owns; [|naive_solver]| |by apply (Hown Unlocked Cleared)|by left].
    intros _. split; [apply not_owns; naive_solver|]. apply (Hother Cleared); [done|right; by right].
  - apply (lock_inv_call _ _ _ _ 0 en); try done; [apply not_owns; naive_solver..|by apply (popcli_nested en 0)].
  - done.
Qed.

Lemma reachable_inv s : reachable s -> lock_inv s.
Proof.
  induction 1 as [cpus Hn|s s' _ IH Hs]; [by apply lock_inv_init|].
  destruct Hs. by apply lock_inv_step.
Qed.

(** ** [getcallerpcs] *)

(** Follow the %ebp chain for [n] frames; the entries after its end are 0. *)
Fixpoint ebp_walk (m : mem) (ebp : Z) (n : nat) : list Z :=
  match n with
  | O => []
  | S n' =>
      if (ebp =? 0) || (ebp <? KERNBASE) || (ebp =? 0xffffffff) then replicate n 0
      else load32 m (ebp + 4) :: ebp_walk m (load32 m ebp) n'
  end.

(** [v] is the address of the caller's first argument. *)
Definition getcallerpcs (m : mem) (v : Z) : list Z := ebp_walk m (v - 8) 10.
