(* ===== verification/Pipe.v ===== *)
(** * Pipes ([pipe.c])

    A pipe is a ring of [PIPESIZE] bytes between two 32-bit counters that are
    allowed to wrap around.  A call that has to wait gives up the lock with
    [sleep] and runs its loop again when it is woken; such a call is modelled
    by what it has done so far and the channel it waits on. *)

From S2P Require Import Prelude.

Definition PIPESIZE : Z := 512.

(** [struct pipe]; [woken] records the calls of [wakeup], latest last. *)
Record pipe := Pipe {
  p_data : list Z;
  nread : Z;
  nwrite : Z;
  readopen : Z;
  writeopen : Z;
  woken : list chan
}.

(** How a stretch of a call ends. *)
Inductive progress :=
  | Return (v : Z)
  | Wait (c : chan).

Section Pipe.
(** The pipe's address and [proc->killed]. *)
Context (addr : Z) (killed : bool).

Definition p_wake (c : chan) (p : pipe) : pipe :=
  Pipe (p_data p) (nread p) (nwrite p) (readopen p) (writeopen p) (woken p ++ [c]).

(** [p->data[p->nwrite++ % PIPESIZE] = c] *)
Definition put_byte (c : Z) (p : pipe) : pipe :=
  Pipe (<[Z.to_nat (nwrite p mod PIPESIZE) := c]> (p_data p)) (nread p) (u32 (nwrite p + 1))
    (readopen p) (writeopen p) (woken p).

(** The loop of [pipewrite] with the bytes [src] still to be written out of
    [n]; also returns the bytes that are left. *)
Fixpoint pipewrite_loop (src : list Z) (n : Z) (p : pipe) : progress * list Z * pipe :=
  match src with
  | [] => (Return n, [], p_wake (ch_nread addr) p)
  | c :: src' =>
      if nwrite p =? u32 (nread p + PIPESIZE) then
        if (readopen p =? 0) || killed then (Return (-1), src, p)
        else (Wait (ch_nwrite addr), src, p_wake (ch_nread addr) p)
      else pipewrite_loop src' n (put_byte c p)
  end.

Definition pipewrite (src : list Z) (p : pipe) : progress * list Z * pipe :=
  pipewrite_loop src (Z.of_nat (length src)) p.

(** [p->data[p->nread++ % PIPESIZE]] *)
Definition get_byte (p : pipe) : Z := nth (Z.to_nat (nread p mod PIPESIZE)) (p_data p) 0.
Definition skip_byte (p : pipe) : pipe :=
  Pipe (p_data p) (u32 (nread p + 1)) (nwrite p) (readopen p) (writeopen p) (woken p).

(** The copying loop of [piperead]: the bytes stored at [addr]. *)
Fixpoint piperead_copy (n : nat) (p : pipe) : list Z * pipe :=
  match n with
  | O => ([], p)
  | S n' =>
      if nread p =? nwrite p then ([], p)
      else let (l, p') := piperead_copy n' (skip_byte p) in (get_byte p :: l, p')
  end.

Definition piperead (n : nat) (p : pipe) : progress * list Z * pipe :=
  if (nread p =? nwrite p) && negb (writeopen p =? 0) then
    if killed then (Return (-1), [], p) else (Wait (ch_nread addr), [], p)
  else
    let (l, p') := piperead_copy n p in
    (Return (Z.of_nat (length l)), l, p_wake (ch_nwrite addr) p').

(** Close one end; whether the page is freed. *)
Definition pipeclose (writable : bool) (p : pipe) : bool * pipe :=
  let p :=
    if writable
    then p_wake (ch_nread addr) (Pipe (p_data p) (nread p) (nwrite p) (readopen p) 0 (woken p))
    else p_wake (ch_nwrite addr) (Pipe (p_data p) (nread p) (nwrite p) 0 (writeopen p) (woken p)) in
  ((readopen p =? 0) && (writeopen p =? 0), p).

(** The fields [pipealloc] sets on the page it gets, whatever it holds. *)
Definition new_pipe (p : pipe) : pipe := Pipe (p_data p) 0 0 1 1 (woken p).

(** ** The queue a pipe implements *)

(** [q] is what has been written and not yet read. *)
Record holds (p : pipe) (q : list Z) : Prop := {
  ph_len : length (p_data p) = Z.to_nat PIPESIZE;
  ph_read : 0 <= nread p < 2 ^ 32;
  ph_write : nwrite p = u32 (nread p + Z.of_nat (length q));
  ph_cap : Z.of_nat (length q) <= PIPESIZE;
  ph_data : forall k c, q !! k = Some c ->
    p_data p !! Z.to_nat ((nread p + Z.of_nat k) mod PIPESIZE) = Some c
}.

(** The counters wrap at a multiple of the ring's size. *)
Lemma u32_pipe x : u32 x mod PIPESIZE = x mod PIPESIZE.
Proof.
  unfold u32, wrap, PIPESIZE. change (2 ^ 32) with (512 * 8388608).
  rewrite Z.rem_mul_r by lia. rewrite Z.mul_comm, Z.mod_add by lia. apply Z.mod_mod. lia.
Qed.

Lemma full_test p q :
  holds p q -> (nwrite p =? u32 (nread p + PIPESIZE)) = (Z.of_nat (length q) =? PIPESIZE).
Proof.
  intros [_ Hr Hw Hc _]. rewrite Hw. destruct (Z.eqb_spec (Z.of_nat (length q)) PIPESIZE) as [->|Hne].
  - apply Z.eqb_refl.
  - apply Z.eqb_neq. intros E. unfold u32, wrap, PIPESIZE in *.
    pose proof (Z.div_mod (nread p + Z.of_nat (length q)) (2 ^ 32) ltac:(lia)).
    pose proof (Z.div_mod (nread p + 512) (2 ^ 32) ltac:(lia)). lia.
Qed.

Lemma empty_test p q : holds p q -> (nread p =? nwrite p) = match q with [] => true | _ => false end.
Proof.
  intros [_ Hr Hw Hc _]. rewrite Hw. destruct q as [|c q].
  - rewrite u32_small by (simpl; lia). simpl. rewrite Z.add_0_r. apply Z.eqb_refl.
  - apply Z.eqb_neq. intros E. unfold u32, wrap, PIPESIZE in *. simpl length in *.
    pose proof (Z.div_mod (nread p + Z.of_nat (S (length q))) (2 ^ 32) ltac:(lia)).
    pose proof (Z.mod_pos_bound (nread p + Z.of_nat (S (length q))) (2 ^ 32) ltac:(lia)). lia.
Qed.

Lemma holds_wake p q c : holds p q -> holds (p_wake c p) q.
Proof. by intros [? ? ? ? ?]. Qed.

Lemma ring_index p k : 0 <= (p + k) mod PIPESIZE < PIPESIZE.
Proof. apply Z.mod_pos_bound. done. Qed.

Lemma holds_put p q c :
  holds p q -> Z.of_nat (length q) < PIPESIZE -> holds (put_byte c p) (q ++ [c]).
Proof.
  intros [Hl Hr Hw Hc Hd] Hlt. split; simpl.
  - by rewrite length_insert.
  - done.
  - rewrite Hw, u32_add_l, length_app. f_equal. simpl. lia.
  - rewrite length_app. simpl. lia.
  - intros k x Hk. rewrite Hw, u32_pipe. pose proof (ring_index (nread p) (Z.of_nat (length q))) as Hi.
    apply lookup_app_Some in Hk as [Hk|[Hk Hx]].
    + pose proof (lookup_lt_Some _ _ _ Hk) as Hlk. rewrite list_lookup_insert_ne; [by apply Hd|].
      pose proof (ring_index (nread p) (Z.of_nat k)). intros E.
      assert ((nread p + Z.of_nat (length q)) mod PIPESIZE = (nread p + Z.of_nat k) mod PIPESIZE) as E' by lia.
      pose proof (Z.div_mod (nread p + Z.of_nat (length q)) PIPESIZE ltac:(done)).
      pose proof (Z.div_mod (nread p + Z.of_nat k) PIPESIZE ltac:(done)). unfold PIPESIZE in *. lia.
    + destruct (k - length q)%nat as [|j] eqn:Ej; [|by destruct j]. assert (k = length q) as -> by lia.
      injection Hx as ->. apply list_lookup_insert_eq. rewrite Hl. lia.
Qed.

Lemma holds_skip p c q : holds p (c :: q) -> get_byte p = c /\ holds (skip_byte p) q.
Proof.
  intros [Hl Hr Hw Hc Hd]. split.
  - unfold get_byte. rewrite nth_lookup. specialize (Hd O c eq_refl). rewrite Z.add_0_r in Hd. by rewrite Hd.
  - split; simpl.
    + done.
    + apply u32_range.
    + rewrite Hw, u32_add_l. f_equal. simpl. lia.
    + simpl in Hc. lia.
    + intros k x Hk. specialize (Hd (S k) x Hk).
      replace ((u32 (nread p + 1) + Z.of_nat k) mod PIPESIZE) with ((nread p + Z.of_nat (S k)) mod PIPESIZE); [done|].
      rewrite <- (Zplus_mod_idemp_l (u32 (nread p + 1))), u32_pipe, Zplus_mod_idemp_l. f_equal. lia.
Qed.

(** [pipewrite] moves as many bytes as fit into the queue, in order; it
    returns [n] when all of them fitted, waits when some are left, and gives
    up when nobody can read them or the process was killed. *)
Lemma pipewrite_loop_spec src n p q :
  holds p q ->
  let room := (Z.to_nat PIPESIZE - length q)%nat in
  exists p', holds p' (q ++ take room src) /\ readopen p' = readopen p /\ writeopen p' = writeopen p /\
    pipewrite_loop src n p =
      (if (length src <=? room)%nat then Return n
       else if (readopen p =? 0) || killed then Return (-1) else Wait (ch_nwrite addr),
       drop room src, p').
Proof.
  revert p q. induction src as [|c src IH]; intros p q Hp; cbv zeta.
  - exists (p_wake (ch_nread addr) p). rewrite take_nil, drop_nil, app_nil_r. simpl. split; [by apply holds_wake|done].
  - pose proof (ph_cap _ _ Hp) as Hcap. cbn [pipewrite_loop]. rewrite (full_test p q Hp).
    destruct (Z.eqb_spec (Z.of_nat (length q)) PIPESIZE) as [E|E].
    + assert (Z.to_nat PIPESIZE - length q = O)%nat as -> by lia. rewrite take_0, drop_0, app_nil_r. simpl.
      destruct ((readopen p =? 0) || killed); [by exists p|]. exists (p_wake (ch_nread addr) p).
      split; [by apply holds_wake|done].
    + destruct (Z.to_nat PIPESIZE - length q)%nat as [|r] eqn:Er; [lia|].
      assert (holds (put_byte c p) (q ++ [c])) as Hp1 by (apply holds_put; [done|lia]).
      destruct (IH _ _ Hp1) as (p' & Hh & Ro & Wo & E').
      rewrite length_app in *. simpl length in *.
      replace (Z.to_nat PIPESIZE - (length q + 1))%nat with r in * by lia.
      exists p'. rewrite <- app_assoc in Hh. simpl in *. rewrite E'. done.
Qed.

Lemma piperead_copy_spec n p q :
  holds p q -> exists p', piperead_copy n p = (take n q, p') /\ holds p' (drop n q) /\
    readopen p' = readopen p /\ writeopen p' = writeopen p.
Proof.
  revert p q. induction n as [|n IH]; intros p q Hp; simpl.
  - exists p. by rewrite take_0, drop_0.
  - rewrite (empty_test p q Hp). destruct q as [|c q]; [by exists p|].
    destruct (holds_skip p c q Hp) as [<- Hs]. destruct (IH _ _ Hs) as (p' & E & Hp' & ?).
    exists p'. rewrite E. done.
Qed.

(** [piperead] takes the oldest bytes out of the queue, up to [n]; it waits
    only when the queue is empty and somebody can still write. *)
Lemma piperead_spec n p q :
  holds p q ->
  exists p', holds p' (drop n q) /\ readopen p' = readopen p /\ writeopen p' = writeopen p /\
    piperead n p =
      (if bool_decide (q = []) && negb (writeopen p =? 0)
       then if killed then Return (-1) else Wait (ch_nread addr)
       else Return (Z.of_nat (length (take n q))), take n q, p').
Proof.
  intros Hp. unfold piperead. rewrite (empty_test p q Hp). destruct q as [|c q].
  - rewrite bool_decide_eq_true_2 by done. cbn [andb]. rewrite take_nil, drop_nil.
    destruct (writeopen p =? 0) eqn:Ew; cbn [negb].
    + destruct (piperead_copy_spec n p [] Hp) as (p' & -> & Hp' & ? & ?). rewrite take_nil, drop_nil in *.
      exists (p_wake (ch_nwrite addr) p'). by split; [apply holds_wake|].
    + destruct killed; by exists p.
  - rewrite bool_decide_eq_false_2 by done. cbn [andb].
    destruct (piperead_copy_spec n p (c :: q) Hp) as (p' & -> & Hp' & ? & ?).
    exists (p_wake (ch_nwrite addr) p'). split; [by apply holds_wake|done].
Qed.

Lemma holds_new p : length (p_data p) = Z.to_nat PIPESIZE -> holds (new_pipe p) [].
Proof. intros Hl. split; simpl; try done. Qed.
End Pipe.

(** ** A whole conversation

    Calls on a pipe hold its lock from entry, or from being woken, to return,
    or to [sleep]; a conversation is therefore a sequence of such stretches. *)

Inductive pipe_op :=
  | Write (killed : bool) (src : list Z)   (* [pipewrite], from entry or after a wait *)
  | Read (killed : bool) (n : nat)         (* [piperead] *)
  | Close (writable : bool).

(** The bytes accepted from writers and delivered to readers so far. *)
Record conversation := Conv { c_pipe : pipe; accepted : list Z; delivered : list Z }.

Definition pipe_step (addr : Z) (c : conversation) (op : pipe_op) : conversation :=
  match op with
  | Write killed src =>
      let '(_, rest, p) := pipewrite addr killed src (c_pipe c) in
      Conv p (accepted c ++ take (length src - length rest) src) (delivered c)
  | Read killed n =>
      let '(_, l, p) := piperead addr killed n (c_pipe c) in
      Conv p (accepted c) (delivered c ++ l)
  | Close writable => Conv (pipeclose addr writable (c_pipe c)).2 (accepted c) (delivered c)
  end.

Definition converse (addr : Z) (c : conversation) (ops : list pipe_op) : conversation :=
  foldl (pipe_step addr) c ops.

(** The pipe holds exactly what was accepted and not yet delivered. *)
Definition in_transit (c : conversation) : Prop :=
  exists q, holds (c_pipe c) q /\ accepted c = delivered c ++ q.

Lemma in_transit_step addr c op : in_transit c -> in_transit (pipe_step addr c op).
Proof.
  intros (q & Hq & Ha). destruct op as [killed src|killed n|w]; simpl.
  - unfold pipewrite. destruct (pipewrite_loop_spec addr killed src (Z.of_nat (length src)) _ _ Hq) as (p' & Hh & _ & _ & ->).
    eexists. split; [exact Hh|]. simpl. rewrite Ha, <- app_assoc. do 2 f_equal.
    rewrite length_drop. set (r := (Z.to_nat PIPESIZE - length q)%nat).
    destruct (decide (r <= length src)%nat); [f_equal; lia|]. by rewrite !take_ge by lia.
  - destruct (piperead_spec addr killed n _ _ Hq) as (p' & Hh & _ & _ & ->).
    eexists. split; [exact Hh|]. simpl. by rewrite Ha, <- app_assoc, take_drop.
  - exists q. split; [|done]. destruct w; by apply holds_wake; destruct Hq.
Qed.

Lemma in_transit_run addr c ops : in_transit c -> in_transit (converse addr c ops).
Proof.
  revert c. induction ops as [|op ops IH]; intros c Hc; [done|]. by apply IH, in_transit_step.
Qed.
