(* ===== verification/Kernel.v ===== *)
(** * The state of the whole kernel

    Process table, open-file table, pipes, page allocator and storage stack in
    one record, with the current process's view of memory.  Pointers into the
    tables are indices; a null pointer is [None]. *)

From S2P Require Import Prelude Bytes Params CString FsState Fs Kalloc Vm Pipe.

(** ** Data *)

(** [struct file] *)
Inductive ftype := FD_NONE | FD_PIPE | FD_INODE.
#[export] Instance ftype_eq_dec : EqDecision ftype.
Proof. solve_decision. Defined.

Record file := File {
  f_type : ftype;
  f_ref : Z;
  f_readable : Z;
  f_writable : Z;
  f_pipe : Z;
  f_ip : nat;
  f_off : Z
}.

(** [enum procstate] *)
Inductive procstate := UNUSED | EMBRYO | SLEEPING | RUNNABLE | RUNNING | ZOMBIE.
#[export] Instance procstate_eq_dec : EqDecision procstate.
Proof. solve_decision. Defined.

(** [struct proc]; [p_tf], [p_context], [p_pgdir] and [p_kstack] are addresses
    in kernel memory, [p_job] and the handlers addresses in user memory. *)
Record proc := Proc {
  p_sz : Z;
  p_pgdir : Z;
  p_kstack : Z;
  p_state : procstate;
  p_pid : Z;
  p_parent : option nat;
  p_tf : Z;
  p_context : Z;
  p_chan : option chan;
  p_killed : Z;
  p_ofile : list (option nat);
  p_cwd : option nat;
  p_name : list Z;
  p_exit_status : Z;
  p_job : Z;
  p_pending : Z;
  p_signal_handlers : list Z
}.

Definition SIGNUM : nat := 32.

(** What the kernel's calls of [cprintf] write to the console: one constructor
    per format string, with its arguments. *)
Inductive cons_line :=
  | JobLine (jid : Z) (cmd : Z)
  | ProcLine (pid : Z) (name : list Z) (sz nofile : Z) (state : procstate)
  | HereLine
  | UnknownCall (pid : Z) (name : list Z) (num : Z)
  | SpuriousInterrupt (cpu cs eip : Z)
  | KillProc (pid : Z) (name : list Z) (trapno err cpu eip addr : Z).

Record kernel := Kernel {
  k_fs : kst;
  k_mem : kmem;
  k_pipes : gmap Z pipe;
  k_ftable : list file;
  k_ptable : list proc;
  k_nextpid : Z;
  k_initproc : option nat;
  k_cur : nat;
  k_ticks : Z;
  k_out : list cons_line
}.

(** ** Field updates *)

Definition set_fs v s := Kernel v (k_mem s) (k_pipes s) (k_ftable s) (k_ptable s) (k_nextpid s) (k_initproc s) (k_cur s) (k_ticks s) (k_out s).
Definition set_mem v s := Kernel (k_fs s) v (k_pipes s) (k_ftable s) (k_ptable s) (k_nextpid s) (k_initproc s) (k_cur s) (k_ticks s) (k_out s).
Definition set_pipes v s := Kernel (k_fs s) (k_mem s) v (k_ftable s) (k_ptable s) (k_nextpid s) (k_initproc s) (k_cur s) (k_ticks s) (k_out s).
Definition set_ftable v s := Kernel (k_fs s) (k_mem s) (k_pipes s) v (k_ptable s) (k_nextpid s) (k_initproc s) (k_cur s) (k_ticks s) (k_out s).
Definition set_ptable v s := Kernel (k_fs s) (k_mem s) (k_pipes s) (k_ftable s) v (k_nextpid s) (k_initproc s) (k_cur s) (k_ticks s) (k_out s).
Definition set_nextpid v s := Kernel (k_fs s) (k_mem s) (k_pipes s) (k_ftable s) (k_ptable s) v (k_initproc s) (k_cur s) (k_ticks s) (k_out s).
Definition set_initproc v s := Kernel (k_fs s) (k_mem s) (k_pipes s) (k_ftable s) (k_ptable s) (k_nextpid s) v (k_cur s) (k_ticks s) (k_out s).
Definition set_cur v s := Kernel (k_fs s) (k_mem s) (k_pipes s) (k_ftable s) (k_ptable s) (k_nextpid s) (k_initproc s) v (k_ticks s) (k_out s).
Definition set_ticks v s := Kernel (k_fs s) (k_mem s) (k_pipes s) (k_ftable s) (k_ptable s) (k_nextpid s) (k_initproc s) (k_cur s) v (k_out s).
Definition set_out v s := Kernel (k_fs s) (k_mem s) (k_pipes s) (k_ftable s) (k_ptable s) (k_nextpid s) (k_initproc s) (k_cur s) (k_ticks s) v.

Definition set_sz v p := Proc v (p_pgdir p) (p_kstack p) (p_state p) (p_pid p) (p_parent p) (p_tf p) (p_context p) (p_chan p) (p_killed p) (p_ofile p) (p_cwd p) (p_name p) (p_exit_status p) (p_job p) (p_pending p) (p_signal_handlers p).
Definition set_pgdir v p := Proc (p_sz p) v (p_kstack p) (p_state p) (p_pid p) (p_parent p) (p_tf p) (p_context p) (p_chan p) (p_killed p) (p_ofile p) (p_cwd p) (p_name p) (p_exit_status p) (p_job p) (p_pending p) (p_signal_handlers p).
Definition set_kstack v p := Proc (p_sz p) (p_pgdir p) v (p_state p) (p_pid p) (p_parent p) (p_tf p) (p_context p) (p_chan p) (p_killed p) (p_ofile p) (p_cwd p) (p_name p) (p_exit_status p) (p_job p) (p_pending p) (p_signal_handlers p).
Definition set_state v p := Proc (p_sz p) (p_pgdir p) (p_kstack p) v (p_pid p) (p_parent p) (p_tf p) (p_context p) (p_chan p) (p_killed p) (p_ofile p) (p_cwd p) (p_name p) (p_exit_status p) (p_job p) (p_pending p) (p_signal_handlers p).
Definition set_pid v p := Proc (p_sz p) (p_pgdir p) (p_kstack p) (p_state p) v (p_parent p) (p_tf p) (p_context p) (p_chan p) (p_killed p) (p_ofile p) (p_cwd p) (p_name p) (p_exit_status p) (p_job p) (p_pending p) (p_signal_handlers p).
Definition set_parent v p := Proc (p_sz p) (p_pgdir p) (p_kstack p) (p_state p) (p_pid p) v (p_tf p) (p_context p) (p_chan p) (p_killed p) (p_ofile p) (p_cwd p) (p_name p) (p_exit_status p) (p_job p) (p_pending p) (p_signal_handlers p).
Definition set_tf v p := Proc (p_sz p) (p_pgdir p) (p_kstack p) (p_state p) (p_pid p) (p_parent p) v (p_context p) (p_chan p) (p_killed p) (p_ofile p) (p_cwd p) (p_name p) (p_exit_status p) (p_job p) (p_pending p) (p_signal_handlers p).
Definition set_context v p := Proc (p_sz p) (p_pgdir p) (p_kstack p) (p_state p) (p_pid p) (p_parent p) (p_tf p) v (p_chan p) (p_killed p) (p_ofile p) (p_cwd p) (p_name p) (p_exit_status p) (p_job p) (p_pending p) (p_signal_handlers p).
Definition set_chan v p := Proc (p_sz p) (p_pgdir p) (p_kstack p) (p_state p) (p_pid p) (p_parent p) (p_tf p) (p_context p) v (p_killed p) (p_ofile p) (p_cwd p) (p_name p) (p_exit_status p) (p_job p) (p_pending p) (p_signal_handlers p).
Definition set_killed v p := Proc (p_sz p) (p_pgdir p) (p_kstack p) (p_state p) (p_pid p) (p_parent p) (p_tf p) (p_context p) (p_chan p) v (p_ofile p) (p_cwd p) (p_name p) (p_exit_status p) (p_job p) (p_pending p) (p_signal_handlers p).
Definition set_ofile v p := Proc (p_sz p) (p_pgdir p) (p_kstack p) (p_state p) (p_pid p) (p_parent p) (p_tf p) (p_context p) (p_chan p) (p_killed p) v (p_cwd p) (p_name p) (p_exit_status p) (p_job p) (p_pending p) (p_signal_handlers p).
Definition set_cwd v p := Proc (p_sz p) (p_pgdir p) (p_kstack p) (p_state p) (p_pid p) (p_parent p) (p_tf p) (p_context p) (p_chan p) (p_killed p) (p_ofile p) v (p_name p) (p_exit_status p) (p_job p) (p_pending p) (p_signal_handlers p).
Definition set_name v p := Proc (p_sz p) (p_pgdir p) (p_kstack p) (p_state p) (p_pid p) (p_parent p) (p_tf p) (p_context p) (p_chan p) (p_killed p) (p_ofile p) (p_cwd p) v (p_exit_status p) (p_job p) (p_pending p) (p_signal_handlers p).
Definition set_exit_status v p := Proc (p_sz p) (p_pgdir p) (p_kstack p) (p_state p) (p_pid p) (p_parent p) (p_tf p) (p_context p) (p_chan p) (p_killed p) (p_ofile p) (p_cwd p) (p_name p) v (p_job p) (p_pending p) (p_signal_handlers p).
Definition set_job v p := Proc (p_sz p) (p_pgdir p) (p_kstack p) (p_state p) (p_pid p) (p_parent p) (p_tf p) (p_context p) (p_chan p) (p_killed p) (p_ofile p) (p_cwd p) (p_name p) (p_exit_status p) v (p_pending p) (p_signal_handlers p).
Definition set_signal_handlers v p := Proc (p_sz p) (p_pgdir p) (p_kstack p) (p_state p) (p_pid p) (p_parent p) (p_tf p) (p_context p) (p_chan p) (p_killed p) (p_ofile p) (p_cwd p) (p_name p) (p_exit_status p) (p_job p) (p_pending p) v.

Definition zero_proc : proc :=
  Proc 0 0 0 UNUSED 0 None 0 0 None 0 (replicate NOFILE None) None (replicate 16 0) 0 0 0 (replicate SIGNUM 0).
Definition zero_file : file := File FD_NONE 0 0 0 0 0 0.

Definition proc_at (i : nat) (s : kernel) : proc := default zero_proc (k_ptable s !! i).
Definition cur_proc (s : kernel) : proc := proc_at (k_cur s) s.
Definition file_at (i : nat) (s : kernel) : file := default zero_file (k_ftable s !! i).

Definition on_proc (i : nat) (f : proc -> proc) : M kernel unit :=
  modify (fun s => set_ptable (alter f i (k_ptable s)) s).
Definition on_cur (f : proc -> proc) : M kernel unit :=
  modify (fun s => set_ptable (alter f (k_cur s) (k_ptable s)) s).
Definition on_file (i : nat) (f : file -> file) : M kernel unit :=
  modify (fun s => set_ftable (alter f i (k_ftable s)) s).

(** ** [sleep] and [wakeup] *)

(** Wake up all processes sleeping on [c]. *)
Definition wakeup1_proc (c : option chan) (p : proc) : proc :=
  if decide (p_state p = SLEEPING /\ p_chan p = c) then set_state RUNNABLE p else p.
Definition wakeup1_in (c : option chan) (s : kernel) : kernel := set_ptable (wakeup1_proc c <$> k_ptable s) s.
Definition wakeup1 (c : option chan) : M kernel unit := modify (wakeup1_in c).
Definition wakeup (c : chan) : M kernel unit := wakeup1 (Some c).

(** The wakeups a part of the kernel has called for. *)
Definition wake_all (cs : list chan) (s : kernel) : kernel := foldl (fun s c => wakeup1_in (Some c) s) s cs.

(** Go to sleep on [c]: the process is marked and leaves the processor. *)
Definition fall_asleep (c : chan) (s : kernel) : kernel :=
  set_ptable (alter (fun p => set_state SLEEPING (set_chan (Some c) p)) (k_cur s) (k_ptable s)) s.
Definition sleep_on {A} (c : chan) : M kernel A := fun s => Sleep c (fall_asleep c s).

(** ** Running the parts *)

(** A routine of the page allocator or of [vm.c]. *)
Definition with_mem {A} (m : M kmem A) : M kernel A :=
  fun s => match m (k_mem s) with
           | Ok a k => Ok a (set_mem k s)
           | Panic msg => Panic msg
           | Sleep c k => Sleep c (set_mem k s)
           | Fuel => Fuel
           end.

Definition clear_wakeups (f : kst) : kst :=
  K (memdisk f) (disksize f) (journal f) [] (bcache f) (log f) (icache f).

(** A routine of the storage stack.  Its calls of [wakeup] reach the process
    table when it ends: it does not look at the process table. *)
Definition with_fs {A} (m : M kst A) : M kernel A :=
  fun s => match m (clear_wakeups (k_fs s)) with
           | Ok a f => Ok a (wake_all (wakeups f) (set_fs f s))
           | Panic msg => Panic msg
           | Sleep c f => Sleep c (fall_asleep c (wake_all (wakeups f) (set_fs f s)))
           | Fuel => Fuel
           end.

(** ** Memory as the current process sees it *)

(** The hardware's page walk for an access in kernel mode, with write
    protection on: the kernel address of the byte at [va]. *)
Definition vtrans (m : mem) (pgdir va : Z) (w : bool) : option Z :=
  let pde := load32 m (pgdir + 4 * PDX va) in
  if negb (has pde PTE_P) || (w && negb (has pde PTE_W)) then None
  else
    let pte := load32 m (p2v (PTE_ADDR pde) + 4 * PTX va) in
    if negb (has pte PTE_P) || (w && negb (has pte PTE_W)) then None
    else Some (p2v (PTE_ADDR pte) + va mod PGSIZE).

(** A fault in kernel mode is a panic of [trap]. *)
Definition vget (va : Z) : M kernel Z :=
  let! s := gets id in
  let m := km_mem (k_mem s) in
  match vtrans m (p_pgdir (cur_proc s)) (u32 va) false with
  | Some a => ret (m a)
  | None => panic "trap"
  end.
Definition vput (va c : Z) : M kernel unit :=
  let! s := gets id in
  match vtrans (km_mem (k_mem s)) (p_pgdir (cur_proc s)) (u32 va) true with
  | Some a => with_mem (on_mem (poke a c))
  | None => panic "trap"
  end.

Fixpoint vread (va : Z) (n : nat) : M kernel (list Z) :=
  match n with
  | O => ret []
  | S n' =>
      let! c := vget va in
      let! l := vread (va + 1) n' in
      ret (c :: l)
  end.
Fixpoint vwrite (va : Z) (l : list Z) : M kernel unit :=
  match l with
  | [] => ret tt
  | c :: l' => vput va c ;;; vwrite (va + 1) l'
  end.

(** [*(int* )va] and its assignment. *)
Definition vread32 (va : Z) : M kernel Z :=
  let! l := vread va 4 in
  ret (unle l).
Definition vwrite32 (va v : Z) : M kernel unit := vwrite va (le 4 (u32 v)).
