(* ===== verification/VmUser.v ===== *)
(** * Address spaces as the hardware sees them

    The page walk of the processor on the page tables [vm.c] builds, and what
    [copyuvm] and [allocuvm] mean for the bytes a process can read. *)

From S2P Require Import Prelude Params CString Kalloc Vm VmMap VmSpace VmFree Kernel.

Section VmUser.
Context (kend data : Z).
Hypothesis (Hkend : KERNBASE < kend).

#[local] Abbreviation page_ok := (page_ok kend).
#[local] Abbreviation space := (space kend).
#[local] Abbreviation vm_ok := (vm_ok kend).

Lemma PDX_va va : 0 <= va < 2 ^ 32 -> PDX va = va / PGSIZE / NPTENTRIES.
Proof. intros. rewrite PDX_spec by done. unfold PGSIZE, NPTENTRIES. by rewrite Z.div_div. Qed.

Lemma PTX_va va : 0 <= va -> PTX va = (va / PGSIZE) mod NPTENTRIES.
Proof. intros. by rewrite PTX_spec. Qed.

Lemma vpage_va va : 0 <= va < 2 ^ 32 -> vpage (va / PGSIZE).
Proof.
  intros Hv. unfold vpage, PGSIZE. split; [apply Z.div_pos; lia|]. apply Z.div_lt_upper_bound; lia.
Qed.

(** The hardware finds exactly the entry of the page. *)
Lemma vtrans_spec m pgdir T va w :
  space m pgdir T -> 0 <= va < 2 ^ 32 ->
  vtrans m pgdir va w =
    let e := entry m T (va / PGSIZE) in
    if has e PTE_P && (negb w || has e PTE_W) then Some (frame e + va mod PGSIZE) else None.
Proof.
  intros Hs Hv. unfold vtrans. rewrite PDX_va, PTX_va by lia. destruct (vpage_index _ (vpage_va va Hv)) as [Hi Hj].
  unfold entry. destruct (T !! (va / PGSIZE / NPTENTRIES)) as [t|] eqn:Et.
  - destruct (sp_tab _ _ _ _ Hs _ _ Et) as (_ & Ht & _ & ->). destruct (v2p_aligned kend Hkend t Ht) as [Ha _].
    rewrite !has_entry by done. rewrite (entry_frame kend) by done. change (has 7 PTE_P) with true. change (has 7 PTE_W) with true.
    rewrite andb_false_r. cbn [negb orb]. set (e := load32 m _). unfold frame. by destruct (has e PTE_P), w, (has e PTE_W).
  - rewrite (sp_none _ _ _ _ Hs) by done. done.
Qed.

Lemma npages_va sz va : 0 <= va < sz -> sz < KERNBASE -> (Z.to_nat (va / PGSIZE) < npages 0 sz)%nat /\ Z.of_nat (Z.to_nat (va / PGSIZE)) = va / PGSIZE.
Proof.
  intros Hv Hs. assert (0 <= va / PGSIZE) as H0 by (apply Z.div_pos; [lia|done]). split; [|lia].
  unfold npages. change (PGROUNDUP 0) with 0. apply Nat2Z.inj_lt. rewrite !Z2Nat.id; [|apply Z.div_pos; unfold PGSIZE; lia|done].
  assert (va / PGSIZE + 1 <= (sz - 0 + PGSIZE - 1) / PGSIZE); [|lia]. apply Z.div_le_lower_bound; [done|].
  pose proof (Z.mul_div_le va PGSIZE ltac:(done)). unfold PGSIZE in *. lia.
Qed.

(** The flags of an entry decide, whatever its page. *)
Lemma user_flags e : has (PTE_FLAGS e) PTE_P = has e PTE_P /\ has (PTE_FLAGS e) PTE_W = has e PTE_W.
Proof. unfold has, PTE_FLAGS. by rewrite <- !Z.land_assoc. Qed.

(** After [copyuvm], an access the parent may make at [va] reaches in the child
    a private byte with the same value, and the parent's own byte is as
    before. *)
Lemma copied_bytes k l pgdir T sz k' d xs l' T' F va w a :
  user_ok kend k l pgdir T (npages 0 sz) -> length F = npages 0 sz ->
  populated kend no_page k l d 0 (fun i => PTE_FLAGS (entry (km_mem k) T (Z.of_nat i)))
    (fun i o => km_mem k (frame (entry (km_mem k) T (Z.of_nat i)) + o)) (kernel_map data) k' xs l' T' F ->
  0 <= va < sz -> sz < KERNBASE -> vtrans (km_mem k) pgdir va w = Some a ->
  exists a', vtrans (km_mem k') d va w = Some a' /\ a' <> a /\ km_mem k' a' = km_mem k a /\
    vtrans (km_mem k') pgdir va w = Some a /\ km_mem k' a = km_mem k a.
Proof.
  intros [Hv HU] HL HP Hva Hsz Ha. pose proof (pp_built _ _ _ _ _ _ _ _ _ _ _ _ _ _ HP) as B.
  destruct (npages_va sz va Hva Hsz) as [Hi Ei]. set (i := Z.to_nat (va / PGSIZE)) in *.
  assert (0 <= va < 2 ^ 32) as Hva2 by (unfold KERNBASE in *; lia).
  destruct (HU i Hi) as (Hp & Hfok & Hfl & _). rewrite Ei in *.
  assert (0 <= va mod PGSIZE < PGSIZE) as Ho by (by apply Z.mod_pos_bound).
  destruct (lookup_lt_is_Some_2 F i) as [p Hpi]; [by rewrite HL|].
  assert (Z.of_nat i < 2 ^ 20) as Hi20.
  { rewrite Ei. pose proof (vpage_va va Hva2) as [_ ?]. done. }
  destruct (populated_entry kend Hkend _ _ _ _ _ _ _ _ _ _ _ _ _ _ HP Hpi (PTE_FLAGS_range _) Hi20) as (E & Hr & Hpok & Ef).
  rewrite Ei in *. destruct (user_flags (entry (km_mem k) T (va / PGSIZE))) as [UP UW].
  rewrite lor_present in * by (by rewrite UP).
  rewrite (vtrans_spec _ _ T) in Ha by (done || apply Hv). rewrite (vtrans_spec _ _ T') by (done || apply (bt_ok _ _ _ _ _ _ _ _ _ B)).
  destruct (built_keeps_space kend k l d k' xs l' T' pgdir T B Hv) as [Hs' He']. rewrite (vtrans_spec _ _ T) by done.
  cbv zeta in *. rewrite He' by (by apply vpage_va). rewrite Ef. rewrite Hp in *. cbn [andb] in *.
  rewrite E, has_entry by (done || by apply (v2p_aligned kend)). rewrite has_entry by (done || by apply (v2p_aligned kend)).
  rewrite UP, UW. cbn [andb]. destruct (negb w || _); [|done]. injection Ha as <-.
  eexists. split; [done|]. split; [|split; [|split; [done|]]].
  - intros Eq. destruct (pp_own _ _ _ _ _ _ _ _ _ _ _ _ _ _ HP p) as (Hx & _); [by eapply list_elem_of_lookup_2|].
    apply Hfl. rewrite (bt_list _ _ _ _ _ _ _ _ _ B). apply elem_of_app. left.
    rewrite <- (in_page_eq kend p (frame (entry (km_mem k) T (va / PGSIZE))) (p + va mod PGSIZE) Hpok Hfok); [done| |rewrite Eq]; unfold in_page; lia.
  - rewrite (pp_mem _ _ _ _ _ _ _ _ _ _ _ _ _ _ HP i p _ Hpi Ho). by rewrite Ei.
  - eapply built_keeps; [exact B|apply Hv|exact Hfok|done|unfold in_page; lia].
Qed.

(** After [allocuvm], the new part is writable and zero; the old part has the
    same bytes at the same places. *)
Lemma grown_new k l pgdir T oldsz newsz k' xs l' T' F va :
  0 <= oldsz <= newsz -> newsz < KERNBASE -> length F = npages oldsz newsz ->
  populated kend (owns_page pgdir T) k l pgdir (first_page oldsz) (fun _ => Z.lor PTE_W PTE_U) (fun _ _ => 0)
    (entry (km_mem k) T) k' xs l' T' F ->
  PGROUNDUP oldsz <= va < newsz -> exists a, vtrans (km_mem k') pgdir va true = Some a /\ km_mem k' a = 0.
Proof.
  intros Hsz Hnew HL HP Hva. destruct (first_page_spec oldsz ltac:(lia)) as [EF HF].
  assert (PGSIZE = 4096 /\ KERNBASE = 2147483648) as [EP EK] by done.
  assert (first_page oldsz <= va / PGSIZE) as Hge by (apply Z.div_le_lower_bound; lia).
  set (i := Z.to_nat (va / PGSIZE - first_page oldsz)).
  assert (i < npages oldsz newsz)%nat as Hi.
  { unfold i, npages. rewrite EF. apply Nat2Z.inj_lt. rewrite !Z2Nat.id; [|apply Z.div_pos; lia|lia].
    assert (va / PGSIZE - first_page oldsz + 1 <= (newsz - first_page oldsz * PGSIZE + PGSIZE - 1) / PGSIZE); [|lia].
    apply Z.div_le_lower_bound; [done|]. pose proof (Z.mul_div_le va PGSIZE ltac:(done)). lia. }
  destruct (lookup_lt_is_Some_2 F i) as [p Hp]; [by rewrite HL|].
  assert (page_ok p) as Hok by (apply (pp_own _ _ _ _ _ _ _ _ _ _ _ _ _ _ HP); by eapply list_elem_of_lookup_2).
  assert (entry (km_mem k') T' (va / PGSIZE) = Z.lor (v2p p) (Z.lor (Z.lor PTE_W PTE_U) PTE_P)) as E.
  { rewrite (pp_entry _ _ _ _ _ _ _ _ _ _ _ _ _ _ HP) by (apply vpage_va; lia). unfold placed.
    destruct (Z.leb_spec (first_page oldsz) (va / PGSIZE)); [|lia]. fold i. rewrite Hp. symmetry. apply Z.lor_assoc. }
  exists (p + va mod PGSIZE). rewrite (vtrans_spec _ _ T') by (lia || apply (pp_built _ _ _ _ _ _ _ _ _ _ _ _ _ _ HP)).
  cbv zeta. rewrite E. rewrite (has_entry (v2p p) _ PTE_P), (has_entry (v2p p) _ PTE_W) by (done || by apply (v2p_aligned kend)). unfold frame. rewrite (entry_frame kend) by done.
  split; [done|]. apply (pp_mem _ _ _ _ _ _ _ _ _ _ _ _ _ _ HP i p); [done|by apply Z.mod_pos_bound].
Qed.

Lemma grown_old k l pgdir T oldsz newsz k' xs l' T' F va w a :
  user_ok kend k l pgdir T (npages 0 oldsz) -> 0 <= oldsz <= newsz -> newsz < KERNBASE ->
  populated kend (owns_page pgdir T) k l pgdir (first_page oldsz) (fun _ => Z.lor PTE_W PTE_U) (fun _ _ => 0)
    (entry (km_mem k) T) k' xs l' T' F ->
  0 <= va < oldsz -> vtrans (km_mem k) pgdir va w = Some a ->
  vtrans (km_mem k') pgdir va w = Some a /\ km_mem k' a = km_mem k a.
Proof.
  intros [Hv HU] Hsz Hnew HP Hva Ha. pose proof (pp_built _ _ _ _ _ _ _ _ _ _ _ _ _ _ HP) as B.
  assert (PGSIZE = 4096 /\ KERNBASE = 2147483648) as [EP EK] by done.
  destruct (npages_va oldsz va Hva ltac:(lia)) as [Hi Ei]. destruct (HU _ Hi) as (Hp & Hfok & Hfl & Hno). rewrite Ei in *.
  assert (entry (km_mem k') T' (va / PGSIZE) = entry (km_mem k) T (va / PGSIZE)) as E.
  { rewrite (pp_entry _ _ _ _ _ _ _ _ _ _ _ _ _ _ HP) by (apply vpage_va; lia). unfold placed.
    destruct (Z.leb_spec (first_page oldsz) (va / PGSIZE)) as [Hle|]; [|done]. exfalso.
    destruct (first_page_spec oldsz ltac:(lia)) as [EF _]. destruct (PGROUNDUP_spec oldsz ltac:(lia)) as [Hr _].
    pose proof (Z.mul_div_le va PGSIZE ltac:(done)). lia. }
  rewrite (vtrans_spec _ _ T') by (lia || apply (bt_ok _ _ _ _ _ _ _ _ _ B)). rewrite (vtrans_spec _ _ T) in Ha by (lia || apply Hv).
  cbv zeta in *. rewrite E. split; [done|]. destruct (has _ _ && _); [|done]. injection Ha as <-.
  assert (0 <= va mod PGSIZE < PGSIZE) as Ho by (by apply Z.mod_pos_bound).
  apply (bt_mem _ _ _ _ _ _ _ _ _ B). intros q Hq Hx. set (f := frame _) in *.
  assert (in_page f (f + va mod PGSIZE)) as Hin by (unfold in_page; lia).
  assert (page_ok q) as Hqok.
  { destruct Hq as [Hq|Hq]; [by eapply owned_ok; [apply Hv|]|]. destruct Hv as [[_ Hf _] _ _]. rewrite Forall_forall in Hf. apply Hf.
    rewrite (bt_list _ _ _ _ _ _ _ _ _ B). apply elem_of_app. by left. }
  rewrite <- (in_page_eq kend f q _ Hfok Hqok Hin Hx) in Hq. destruct Hq as [Hq|Hq]; [done|].
  apply Hfl. rewrite (bt_list _ _ _ _ _ _ _ _ _ B). apply elem_of_app. by left.
Qed.
End VmUser.
