(* ===== verification/File.v ===== *)
(** * Open files ([file.c]) and the creation of pipes ([pipe.c])

    The operations of the open-file table over the whole kernel state: they
    reach the storage stack, the pipes and the page allocator. *)

From S2P Require Import Prelude Bytes Params CString FsState Log Fs Kalloc Vm Pipe Kernel.

Definition f_with_type v f := File v (f_ref f) (f_readable f) (f_writable f) (f_pipe f) (f_ip f) (f_off f).
Definition f_with_ref v f := File (f_type f) v (f_readable f) (f_writable f) (f_pipe f) (f_ip f) (f_off f).
Definition f_with_off v f := File (f_type f) (f_ref f) (f_readable f) (f_writable f) (f_pipe f) (f_ip f) v.
Definition f_with_pipe r w p f := File FD_PIPE (f_ref f) r w p (f_ip f) (f_off f).

Section File.
(** [end] and the device switch. *)
Context (kend : Z) (dv : devsw).

(** Allocate a file structure. *)
Definition filealloc : M kernel (option nat) :=
  let! r := first_ (seq 0 NFILE) (fun f =>
    let! x := gets (file_at f) in
    if f_ref x =? 0 then
      on_file f (f_with_ref 1) ;;;
      ret (Some (Some f))
    else ret None) in
  ret (default None r).

(** Increment ref count for file [f]. *)
Definition filedup (f : nat) : M kernel nat :=
  let! x := gets (file_at f) in
  if f_ref x <? 1 then panic "filedup"
  else
    on_file f (fun x => f_with_ref (f_ref x + 1) x) ;;;
    ret f.

(** A pipe of the table, run by a routine of [pipe.c]; its wakeups reach the
    process table. *)
Definition pipe_at (a : Z) (s : kernel) : pipe := default (Pipe (replicate 512 0) 0 0 0 0 []) (k_pipes s !! a).
Definition put_pipe (a : Z) (p : pipe) : M kernel unit :=
  modify (fun s => wake_all (woken p)
    (set_pipes (<[a := Pipe (p_data p) (nread p) (nwrite p) (readopen p) (writeopen p) []]> (k_pipes s)) s)).

(** Close one end of the pipe at [a], freeing its page with the second. *)
Definition close_pipe (a writable : Z) : M kernel unit :=
  let! p := gets (pipe_at a) in
  let (last, p') := pipeclose a (negb (writable =? 0)) p in
  put_pipe a p' ;;;
  if last then
    modify (fun s => set_pipes (delete a (k_pipes s)) s) ;;;
    with_mem (kfree kend a)
  else ret tt.

(** Close file [f]. *)
Definition fileclose (f : nat) : M kernel unit :=
  let! x := gets (file_at f) in
  if f_ref x <? 1 then panic "fileclose"
  else
    on_file f (fun x => f_with_ref (f_ref x - 1) x) ;;;
    let! ff := gets (file_at f) in
    if 0 <? f_ref ff then ret tt
    else
      on_file f (f_with_ref 0) ;;;
      on_file f (f_with_type FD_NONE) ;;;
      match f_type ff with
      | FD_PIPE => close_pipe (f_pipe ff) (f_writable ff)
      | FD_INODE => with_fs (begin_op ;;; iput (f_ip ff) ;;; end_op)
      | FD_NONE => ret tt
      end.

(** Get metadata about file [f]. *)
Definition filestat (f : nat) : M kernel (Z * option stat) :=
  let! x := gets (file_at f) in
  match f_type x with
  | FD_INODE =>
      with_fs (ilock (f_ip x)) ;;;
      let! st := with_fs (gets (fun s => stati (inode_at (f_ip x) s))) in
      with_fs (iunlock (f_ip x)) ;;;
      ret (0, Some st)
  | _ => ret (-1, None)
  end.

(** How a routine of [pipe.c] goes on after a stretch of its loop. *)
Definition finish_pipe (a : Z) (r : progress * list Z * pipe) : M kernel (Z * list Z) :=
  let '(g, l, p) := r in
  put_pipe a p ;;;
  match g with
  | Return v => ret (v, l)
  | Wait c => sleep_on c
  end.

(** Read from file [f]; the bytes read are stored at [addr]. *)
Definition fileread (f : nat) (addr n : Z) : M kernel Z :=
  let! x := gets (file_at f) in
  if f_readable x =? 0 then ret (-1)
  else match f_type x with
  | FD_PIPE =>
      let! p := gets (pipe_at (f_pipe x)) in
      let! k := gets (fun s => negb (p_killed (cur_proc s) =? 0)) in
      let! r := finish_pipe (f_pipe x) (piperead (f_pipe x) k (Z.to_nat n) p) in
      vwrite addr r.2 ;;;
      ret r.1
  | FD_INODE =>
      with_fs (ilock (f_ip x)) ;;;
      let! r := with_fs (readi dv (f_ip x) (f_off x) (u32 n)) in
      vwrite addr r.2 ;;;
      (if 0 <? r.1 then on_file f (fun y => f_with_off (u32 (f_off y + r.1)) y) else ret tt) ;;;
      with_fs (iunlock (f_ip x)) ;;;
      ret r.1
  | FD_NONE => panic "fileread"
  end.

(** [int max = ((LOGSIZE-1-1-2) / 2) * 512] *)
Definition max_write : Z := ((LOGSIZE - 1 - 1 - 2) / 2) * 512.

(** The loop of [filewrite]: [i] bytes of [n] are written. *)
Fixpoint filewrite_loop (fuel : nat) (f ip : nat) (addr i n : Z) : M kernel Z :=
  if i <? n then
    match fuel with
    | O => fun _ => Fuel
    | S fu =>
        let n1 := Z.min (n - i) max_write in
        let! src := vread (addr + i) (Z.to_nat n1) in
        with_fs begin_op ;;;
        with_fs (ilock ip) ;;;
        let! x := gets (file_at f) in
        let! r := with_fs (writei dv ip src (f_off x) n1) in
        (if 0 <? r then on_file f (fun y => f_with_off (u32 (f_off y + r)) y) else ret tt) ;;;
        with_fs (iunlock ip) ;;;
        with_fs end_op ;;;
        if r <? 0 then ret i
        else if negb (r =? n1) then panic "short filewrite"
        else filewrite_loop fu f ip addr (i + r) n
    end
  else ret i.

(** Write to file [f] the [n] bytes at [addr]. *)
Definition filewrite (f : nat) (addr n : Z) : M kernel Z :=
  let! x := gets (file_at f) in
  if f_writable x =? 0 then ret (-1)
  else match f_type x with
  | FD_PIPE =>
      let! src := vread addr (Z.to_nat n) in
      let! p := gets (pipe_at (f_pipe x)) in
      let! k := gets (fun s => negb (p_killed (cur_proc s) =? 0)) in
      let! r := finish_pipe (f_pipe x) (pipewrite (f_pipe x) k src p) in
      ret (if 0 <=? r.1 then n else r.1)
  | FD_INODE =>
      let! i := filewrite_loop (Z.to_nat (n / max_write + 1)) f (f_ip x) addr 0 n in
      ret (if i =? n then n else -1)
  | FD_NONE => panic "filewrite"
  end.

(** [struct pipe]'s [data], after its lock. *)
Definition PIPE_DATA : Z := 52.
Definition page_pipe (m : mem) (a : Z) : pipe :=
  new_pipe (Pipe ((fun i => m (a + PIPE_DATA + Z.of_nat i)) <$> seq 0 512) 0 0 0 0 []).

(** Create a pipe and the two files of its ends. *)
Definition pipealloc : M kernel (Z * option nat * option nat) :=
  let bad (f0 f1 : option nat) :=
    (match f0 with Some f => fileclose f | None => ret tt end) ;;;
    (match f1 with Some f => fileclose f | None => ret tt end) ;;;
    ret (-1, f0, f1) in
  let! f0 := filealloc in
  match f0 with
  | None => bad None None
  | Some i0 =>
      let! f1 := filealloc in
      match f1 with
      | None => bad f0 None
      | Some i1 =>
          let! p := with_mem kalloc in
          if p =? 0 then bad f0 f1
          else
            modify (fun s => set_pipes (<[p := page_pipe (km_mem (k_mem s)) p]> (k_pipes s)) s) ;;;
            on_file i0 (f_with_pipe 1 0 p) ;;;
            on_file i1 (f_with_pipe 0 1 p) ;;;
            ret (0, f0, f1)
      end
  end.
End File.
