(* ===== verification/Proc.v ===== *)
(** * Processes ([proc.c])

    Creation, exit, reaping, sleeping and scheduling of processes over the
    whole kernel state.  A routine that leaves the processor for good or for a
    while ([exit], [yield]) is modelled up to its call of [sched]. *)

From S2P Require Import Prelude Bytes Params CString FsState Log Fs Kalloc Vm Spinlock Pipe Kernel File.

(** Layout of [struct trapframe] and [struct context]. *)
Definition TF_SIZE : Z := 76.
Definition tf_eax : Z := 28.
Definition tf_es : Z := 40.
Definition tf_ds : Z := 44.
Definition tf_eip : Z := 56.
Definition tf_cs : Z := 60.
Definition tf_eflags : Z := 64.
Definition tf_esp : Z := 68.
Definition tf_ss : Z := 72.
Definition CONTEXT_SIZE : Z := 20.
Definition context_eip : Z := 16.
Definition SEG_UCODE : Z := 4.
Definition SEG_UDATA : Z := 5.
Definition DPL_USER : Z := 3.
Definition FL_IF : Z := 0x200.

Definition store16 (a v : Z) (m : mem) : mem := poke (a + 1) (u8 (Z.shiftr v 8)) (poke a (u8 v) m).

Definition kstore (a v : Z) : M kernel unit := with_mem (on_mem (store32 a (u32 v))).
Definition kstore16 (a v : Z) : M kernel unit := with_mem (on_mem (store16 a v)).

(** The numbering of [enum procstate]. *)
Definition state_num (st : procstate) : Z :=
  match st with
  | UNUSED => 0 | EMBRYO => 1 | SLEEPING => 2 | RUNNABLE => 3 | RUNNING => 4 | ZOMBIE => 5
  end.

Section Proc.
(** Addresses the linker knows, the device switch, and the program
    [initcode] that the build embeds. *)
Context (kend data trapret forkret : Z) (dv : devsw) (initcode : list Z).

(** Look in the process table for an UNUSED proc. *)
Definition allocproc : M kernel (option nat) :=
  let! r := first_ (seq 0 NPROC) (fun i =>
    let! p := gets (proc_at i) in
    ret (if decide (p_state p = UNUSED) then Some i else None)) in
  match r with
  | None => ret None
  | Some i =>
      on_proc i (set_state EMBRYO) ;;;
      let! n := gets k_nextpid in
      on_proc i (set_pid n) ;;;
      modify (set_nextpid (s32 (n + 1))) ;;;
      let! k := with_mem kalloc in
      on_proc i (set_kstack k) ;;;
      if k =? 0 then
        on_proc i (set_state UNUSED) ;;;
        ret None
      else
        let sp := k + KSTACKSIZE - TF_SIZE in
        on_proc i (set_tf sp) ;;;
        let sp := sp - 4 in
        kstore sp trapret ;;;
        let sp := sp - CONTEXT_SIZE in
        on_proc i (set_context sp) ;;;
        with_mem (on_mem (fun m => memset m sp 0 CONTEXT_SIZE)) ;;;
        kstore (sp + context_eip) forkret ;;;
        ret (Some i)
  end.

(** [safestrcpy(dst, src, sizeof(p->name))] *)
Definition copy_name (dst src : list Z) : list Z :=
  let w := safestrcpy (ptr src) 16 in w ++ drop (length w) dst.

Definition initcode_name : list Z := [105; 110; 105; 116; 99; 111; 100; 101; 0].

(** Set up first user process. *)
Definition userinit : M kernel unit :=
  let! r := allocproc in
  modify (set_initproc r) ;;;
  match r with
  | None => panic "trap"
  | Some i =>
      let! d := with_mem (setupkvm data) in
      on_proc i (set_pgdir d) ;;;
      if d =? 0 then panic "userinit: out of memory?"
      else
        with_mem (inituvm d initcode (Z.of_nat (length initcode))) ;;;
        on_proc i (set_sz PGSIZE) ;;;
        let! tf := gets (fun s => p_tf (proc_at i s)) in
        with_mem (on_mem (fun m => memset m tf 0 TF_SIZE)) ;;;
        kstore16 (tf + tf_cs) (Z.lor (Z.shiftl SEG_UCODE 3) DPL_USER) ;;;
        kstore16 (tf + tf_ds) (Z.lor (Z.shiftl SEG_UDATA 3) DPL_USER) ;;;
        kstore16 (tf + tf_es) (Z.lor (Z.shiftl SEG_UDATA 3) DPL_USER) ;;;
        kstore16 (tf + tf_ss) (Z.lor (Z.shiftl SEG_UDATA 3) DPL_USER) ;;;
        kstore (tf + tf_eflags) FL_IF ;;;
        kstore (tf + tf_esp) PGSIZE ;;;
        kstore (tf + tf_eip) 0 ;;;
        on_proc i (fun p => set_name (copy_name (p_name p) initcode_name) p) ;;;
        let! cwd := with_fs (namei dv 0 [47; 0] (replicate DIRSIZ 0)) in
        on_proc i (set_cwd cwd) ;;;
        on_proc i (set_exit_status 0) ;;;
        on_proc i (set_state RUNNABLE)
  end.

(** Grow current process's memory by [n] bytes. *)
Definition growproc (n : Z) : M kernel Z :=
  let! p := gets cur_proc in
  let sz := p_sz p in
  let! sz' :=
    (if 0 <? n then with_mem (allocuvm kend (p_pgdir p) sz (u32 (sz + n)))
     else if n <? 0 then with_mem (deallocuvm kend (p_pgdir p) sz (u32 (sz + n)))
     else ret sz) in
  if negb (n =? 0) && (sz' =? 0) then ret (-1)
  else
    on_cur (set_sz sz') ;;;
    ret 0.

(** Create a new process copying the current one. *)
Definition fork : M kernel Z :=
  let! r := allocproc in
  match r with
  | None => ret (-1)
  | Some np =>
      let! p := gets cur_proc in
      let! d := with_mem (copyuvm kend data (p_pgdir p) (p_sz p)) in
      on_proc np (set_pgdir d) ;;;
      if d =? 0 then
        let! k := gets (fun s => p_kstack (proc_at np s)) in
        with_mem (kfree kend k) ;;;
        on_proc np (set_kstack 0) ;;;
        on_proc np (set_state UNUSED) ;;;
        ret (-1)
      else
        on_proc np (set_sz (p_sz p)) ;;;
        let! me := gets k_cur in
        on_proc np (set_parent (Some me)) ;;;
        on_proc np (set_job (p_job p)) ;;;
        let! tf := gets (fun s => p_tf (proc_at np s)) in
        with_mem (on_mem (fun m => memmove m tf (p_tf p) TF_SIZE)) ;;;
        kstore (tf + tf_eax) 0 ;;;
        for_ (seq 0 NOFILE) (fun i =>
          match default None (p_ofile p !! i) with
          | None => ret tt
          | Some f =>
              let! f' := filedup f in
              on_proc np (fun q => set_ofile (<[i := Some f']> (p_ofile q)) q)
          end) ;;;
        let! cwd := (match p_cwd p with
                     | Some c => let! c' := with_fs (idup c) in ret (Some c')
                     | None => panic "trap"
                     end) in
        on_proc np (set_cwd cwd) ;;;
        on_proc np (fun q => set_name (copy_name (p_name q) (p_name p)) q) ;;;
        let! pid := gets (fun s => p_pid (proc_at np s)) in
        on_proc np (set_state RUNNABLE) ;;;
        ret pid
  end.

(** Exit the current process, up to its last call of [sched]. *)
Definition exit (status : Z) : M kernel unit :=
  on_cur (set_exit_status status) ;;;
  let! me := gets k_cur in
  let! ini := gets k_initproc in
  if decide (ini = Some me) then panic "init exiting"
  else
    for_ (seq 0 NOFILE) (fun fd =>
      let! p := gets cur_proc in
      match default None (p_ofile p !! fd) with
      | None => ret tt
      | Some f =>
          fileclose kend f ;;;
          on_cur (fun p => set_ofile (<[fd := None]> (p_ofile p)) p)
      end) ;;;
    with_fs begin_op ;;;
    let! p := gets cur_proc in
    (match p_cwd p with Some c => with_fs (iput c) | None => panic "trap" end) ;;;
    with_fs end_op ;;;
    on_cur (set_cwd None) ;;;
    on_cur (set_job 0) ;;;
    wakeup1 (ch_proc <$> p_parent p) ;;;
    for_ (seq 0 NPROC) (fun i =>
      let! q := gets (proc_at i) in
      if decide (p_parent q = Some me) then
        on_proc i (set_parent ini) ;;;
        if decide (p_state q = ZOMBIE) then wakeup1 (ch_proc <$> ini) else ret tt
      else ret tt) ;;;
    on_cur (set_state ZOMBIE).

(** Take a zombie out of the table. *)
Definition reap (i : nat) : M kernel unit :=
  let! p := gets (proc_at i) in
  with_mem (kfree kend (p_kstack p)) ;;;
  on_proc i (set_kstack 0) ;;;
  with_mem (freevm kend (p_pgdir p)) ;;;
  on_proc i (set_state UNUSED) ;;;
  on_proc i (set_pid 0) ;;;
  on_proc i (set_parent None) ;;;
  on_proc i (fun q => set_name (<[0%nat := 0]> (p_name q)) q) ;;;
  on_proc i (set_killed 0) ;;;
  on_proc i (set_job 0).

(** The scan of [waitpid]: the value it returns, or whether there was a child
    to wait for.  [status] stores through the caller's pointer; it is [None]
    for a null pointer. *)
Fixpoint waitpid_scan (ps : list nat) (childPid : Z) (status : option (Z -> M kernel unit)) (havekids : bool) :
    M kernel (Z + bool) :=
  match ps with
  | [] => ret (inr havekids)
  | i :: ps' =>
      let! me := gets k_cur in
      let! p := gets (proc_at i) in
      if negb (bool_decide (p_parent p = Some me)) then waitpid_scan ps' childPid status havekids
      else if negb (childPid =? -1) && negb (childPid =? p_pid p) then waitpid_scan ps' childPid status havekids
      else if decide (p_state p = ZOMBIE) then
        match status with
        | None => ret (inl (-1))
        | Some store =>
            store (p_exit_status p) ;;;
            reap i ;;;
            ret (inl (p_pid p))
        end
      else waitpid_scan ps' childPid status true
  end.

Definition waitpid (childPid : Z) (status : option (Z -> M kernel unit)) : M kernel Z :=
  let! r := waitpid_scan (seq 0 NPROC) childPid status false in
  match r with
  | inl v => ret v
  | inr havekids =>
      let! p := gets cur_proc in
      if negb havekids || negb (p_killed p =? 0) then ret (-1)
      else
        let! me := gets k_cur in
        sleep_on (ch_proc me)
  end.

(** Wait for a child process to exit and return its pid. *)
Definition wait (status : option (Z -> M kernel unit)) : M kernel Z := waitpid (-1) status.

(** ** Scheduling *)

(** The loop of [scheduler] from table slot [i] to its next [swtch]: the
    process chosen, which is then running. *)
Definition scheduler_from (i : nat) : M kernel (option nat) :=
  first_ (seq i (NPROC - i)) (fun j =>
    let! p := gets (proc_at j) in
    if decide (p_state p = RUNNABLE) then
      modify (set_cur j) ;;;
      if p_pgdir p =? 0 then panic "switchuvm: no pgdir"
      else
        on_proc j (set_state RUNNING) ;;;
        ret (Some j)
    else ret None).

(** The checks of [sched] before it switches to the scheduler. *)
Definition sched (c : cpu) (holding_ptable : bool) : M kernel unit :=
  let! p := gets cur_proc in
  if negb holding_ptable then panic "sched ptable.lock"
  else if negb (ncli c =? 1) then panic "sched locks"
  else if decide (p_state p = RUNNING) then panic "sched running"
  else if eflags_IF c then panic "sched interruptible"
  else ret tt.

(** Give up the CPU for one scheduling round. *)
Definition yield : M kernel unit := on_cur (set_state RUNNABLE).

(** ** Looking processes up *)

(** The first slot whose [pid] field is [pid]. *)
Definition find_pid (pid : Z) : M kernel (option nat) :=
  first_ (seq 0 NPROC) (fun i =>
    let! p := gets (proc_at i) in
    ret (if p_pid p =? pid then Some i else None)).

(** Kill the process with the given pid. *)
Definition kill (pid : Z) : M kernel Z :=
  let! r := find_pid pid in
  match r with
  | None => ret (-1)
  | Some i =>
      on_proc i (set_killed 1) ;;;
      let! p := gets (proc_at i) in
      (if decide (p_state p = SLEEPING) then on_proc i (set_state RUNNABLE) else ret tt) ;;;
      ret 0
  end.

(** The number of open files. *)
Definition count_open (p : proc) : Z := Z.of_nat (length (filter (fun f => is_Some f) (p_ofile p))).

(** The bytes of [struct procstat]. *)
Definition procstat_bytes (p : proc) : list Z :=
  p_name p ++ le 4 (p_sz p) ++ le 4 (count_open p) ++ le 4 (state_num (p_state p)).

(** Information regarding the process with a given pid, stored at [stat]. *)
Definition pstat (pid stat : Z) : M kernel Z :=
  let! r := find_pid pid in
  match r with
  | None => ret (-1)
  | Some i =>
      let! p := gets (proc_at i) in
      vwrite stat (procstat_bytes p) ;;;
      ret 0
  end.

(** ** Jobs *)

Definition attachjob (pid job : Z) : M kernel Z :=
  let! r := find_pid pid in
  match r with
  | None => ret (-1)
  | Some i =>
      on_proc i (set_job job) ;;;
      ret pid
  end.

(** [p->job->jid]: the pointer is the shell's, read in the address space of
    the current process. *)
Definition job_jid (p : proc) : M kernel Z :=
  let! v := vread32 (p_job p) in
  ret (s32 v).

Definition isJobEmpty (jid : Z) : M kernel Z :=
  let! r := first_ (seq 0 NPROC) (fun i =>
    let! p := gets (proc_at i) in
    let! j := job_jid p in
    ret (if j =? jid then Some 0 else None)) in
  ret (default 1 r).

Definition print (l : cons_line) : M kernel unit := modify (fun s => set_out (k_out s ++ [l]) s).

Definition getjob (index : Z) : M kernel Z :=
  print HereLine ;;;
  ret index.

(** The loop of [printjob]; [count] processes are printed. *)
Fixpoint printjob_loop (ps : list nat) (jid count : Z) : M kernel Z :=
  match ps with
  | [] => ret count
  | i :: ps' =>
      let! p := gets (proc_at i) in
      let! j := job_jid p in
      if j =? jid then
        (if count =? 0 then print (JobLine jid (p_job p + 8)) else ret tt) ;;;
        print (ProcLine (p_pid p) (p_name p) (p_sz p) (count_open p) (p_state p)) ;;;
        printjob_loop ps' jid (count + 1)
      else printjob_loop ps' jid count
  end.
Definition printjob (jid : Z) : M kernel Z := printjob_loop (seq 0 NPROC) jid 0.

(** Wait for the processes of a job; the status goes to a local variable. *)
Definition fg (jid : Z) : M kernel Z :=
  for_ (seq 0 NPROC) (fun i =>
    let! p := gets (proc_at i) in
    if p_pid p <? 3 then ret tt
    else
      let! j := job_jid p in
      if j =? jid then
        let! _ := waitpid (p_pid p) (Some (fun _ => ret tt)) in
        ret tt
      else ret tt) ;;;
  ret 0.

(** Install a signal handler; the previous one is returned. *)
Definition signal (signum handler : Z) : M kernel Z :=
  if (32 <=? signum) || (signum <? 0) then ret (-1)
  else
    let! p := gets cur_proc in
    let old := default 0 (p_signal_handlers p !! Z.to_nat signum) in
    on_cur (fun p => set_signal_handlers (<[Z.to_nat signum := handler]> (p_signal_handlers p)) p) ;;;
    ret (s32 old).
End Proc.
