(* ===== verification/Syscall.v ===== *)
(** * System call arguments ([syscall.c])

    Fetching integers, pointers and strings from the user stack, with the
    checks that keep them inside the process.  [None] is the result -1. *)

From S2P Require Import Prelude Bytes Params CString FsState Fs Kalloc Vm Pipe Kernel File Proc.

(** Fetch the int at [addr] from the current process. *)
Definition fetchint (addr : Z) : M kernel (option Z) :=
  let! p := gets cur_proc in
  if (p_sz p <=? addr) || (p_sz p <? u32 (addr + 4)) then ret None
  else
    let! v := vread32 addr in
    ret (Some v).

(** The loop of [fetchstr]: the offset of the terminator from [s] on, if there
    is one in the next [n] bytes. *)
Fixpoint find_nul (s : Z) (n : nat) (len : Z) : M kernel (option Z) :=
  match n with
  | O => ret None
  | S n' =>
      let! c := vget s in
      if c =? 0 then ret (Some len) else find_nul (s + 1) n' (len + 1)
  end.

(** The length of the nul-terminated string at [addr]. *)
Definition fetchstr (addr : Z) : M kernel (option Z) :=
  let! p := gets cur_proc in
  if p_sz p <=? addr then ret None
  else find_nul addr (Z.to_nat (p_sz p - addr)) 0.

(** [proc->tf->esp] *)
Definition user_esp : M kernel Z :=
  let! p := gets cur_proc in
  with_mem (peek (p_tf p + tf_esp)).

(** Fetch the nth 32-bit system call argument. *)
Definition argint (n : Z) : M kernel (option Z) :=
  let! esp := user_esp in
  fetchint (u32 (esp + 4 + 4 * n)).

(** Fetch the nth argument as a pointer to a block of [size] bytes. *)
Definition argptr (n size : Z) : M kernel (option Z) :=
  let! i := argint n in
  match i with
  | None => ret None
  | Some i =>
      let! p := gets cur_proc in
      if (p_sz p <=? i) || (p_sz p <? u32 (i + size)) then ret None else ret (Some i)
  end.

(** Fetch the nth argument as a string: its address and its length. *)
Definition argstr (n : Z) : M kernel (option (Z * Z)) :=
  let! a := argint n in
  match a with
  | None => ret None
  | Some addr =>
      let! len := fetchstr addr in
      ret (pair addr <$> len)
  end.

(** The bytes of a string argument, with its terminator. *)
Definition str_bytes (a : Z * Z) : M kernel (list Z) := vread a.1 (Z.to_nat (a.2 + 1)).

(** [if(argint(n, &v) < 0) return -1;] and its like. *)
Definition need {A} (m : M kernel (option A)) (k : A -> M kernel Z) : M kernel Z :=
  let! r := m in
  match r with None => ret (-1) | Some a => k a end.
