(* ===== verification/Sysproc.v ===== *)
(** * The process system calls ([sysproc.c]) *)

From S2P Require Import Prelude Bytes Params CString FsState Fs Kalloc Vm Pipe Kernel File Proc Syscall.

Section Sysproc.
Context (kend data trapret forkret : Z).

Definition sys_fork : M kernel Z := fork kend data trapret forkret.

(** [None]: the call does not return. *)
Definition sys_exit : M kernel (option Z) :=
  let! a := argint 0 in
  match a with
  | None => ret (Some (-1))
  | Some status => exit kend (s32 status) ;;; ret None
  end.

(** An [int*] the user passed as an integer. *)
Definition user_ptr (p : Z) : option (Z -> M kernel unit) :=
  if p =? 0 then None else Some (vwrite32 p).

Definition sys_wait : M kernel Z := need (argint 0) (fun status => wait kend (user_ptr status)).

Definition sys_kill : M kernel Z := need (argint 0) (fun pid => kill (s32 pid)).

Definition sys_getpid : M kernel Z := gets (fun s => p_pid (cur_proc s)).

Definition sys_sbrk : M kernel Z :=
  need (argint 0) (fun n =>
    let! addr := gets (fun s => p_sz (cur_proc s)) in
    let! r := growproc kend (s32 n) in
    if r <? 0 then ret (-1) else ret (s32 addr)).

(** The loop of [sys_sleep], as it is entered and after every wakeup. *)
Definition sleep_loop (ticks0 n : Z) : M kernel Z :=
  let! t := gets k_ticks in
  if u32 (t - ticks0) <? u32 n then
    let! p := gets cur_proc in
    if negb (p_killed p =? 0) then ret (-1) else sleep_on ch_ticks
  else ret 0.

Definition sys_sleep : M kernel Z :=
  need (argint 0) (fun n =>
    let! ticks0 := gets k_ticks in
    sleep_loop ticks0 n).

Definition sys_uptime : M kernel Z := gets (fun s => s32 (k_ticks s)).

Definition sys_pstat : M kernel Z :=
  need (argint 0) (fun pid =>
  need (argptr 1 4) (fun stat => pstat (s32 pid) stat)).

Definition sys_attachjob : M kernel Z :=
  need (argint 0) (fun pid =>
  need (argint 1) (fun job => attachjob (s32 pid) job)).

Definition sys_isJobEmpty : M kernel Z := need (argint 0) (fun jid => isJobEmpty (s32 jid)).
Definition sys_printjob : M kernel Z := need (argint 0) (fun jid => printjob (s32 jid)).
Definition sys_fg : M kernel Z := need (argint 0) (fun jid => fg kend (s32 jid)).

(** Both arguments are fetched before either result is looked at. *)
Definition sys_waitpid : M kernel Z :=
  let! pid := argint 0 in
  let! status := argint 1 in
  match pid, status with
  | Some pid, Some status => waitpid kend (s32 pid) (user_ptr status)
  | _, _ => ret (-1)
  end.

Definition sys_signal : M kernel Z :=
  let! signum := argint 0 in
  let! handler := argint 1 in
  match signum, handler with
  | Some signum, Some handler => signal (s32 signum) handler
  | _, _ => ret (-1)
  end.
End Sysproc.
