(* ===== verification/Sysfile.v ===== *)
(** * The file system calls ([sysfile.c])

    The parts between [begin_op] and [end_op] that only touch the file system
    are routines of the storage stack; the calls wrap them with the argument
    checks and the open-file table. *)

From S2P Require Import Prelude Bytes Params CString FsState Log Fs Kalloc Vm Pipe Kernel File Proc Syscall.

(** [char name[DIRSIZ]], a local buffer [nameiparent] fills. *)
Definition name_buf : list Z := replicate DIRSIZ 0.
Definition dot : list Z := [46; 0].
Definition dotdot : list Z := [46; 46; 0].

Definition i_with_major v p := Inode (i_dev p) (i_inum p) (i_ref p) (i_flags p) (i_type p) v
  (i_minor p) (i_nlink p) (i_size p) (i_addrs p).
Definition i_with_minor v p := Inode (i_dev p) (i_inum p) (i_ref p) (i_flags p) (i_type p) (i_major p)
  v (i_nlink p) (i_size p) (i_addrs p).

Section SysfileFs.
Context (dv : devsw).

Definition inc_nlink (p : inode) : inode := i_with_nlink (s16 (i_nlink p + 1)) p.
Definition dec_nlink (p : inode) : inode := i_with_nlink (s16 (i_nlink p - 1)) p.

(** The body of [sys_link]. *)
Definition link_op (cwd : nat) (old new : list Z) : M kst Z :=
  begin_op ;;;
  let! r := namei dv cwd old name_buf in
  match r with
  | None => end_op ;;; ret (-1)
  | Some ip =>
      ilock ip ;;;
      let! p := gets (inode_at ip) in
      if i_type p =? T_DIR then
        iunlockput ip ;;;
        end_op ;;;
        ret (-1)
      else
        let bad :=
          ilock ip ;;;
          modify (on_inode ip dec_nlink) ;;;
          iupdate ip ;;;
          iunlockput ip ;;;
          end_op ;;;
          ret (-1) in
        modify (on_inode ip inc_nlink) ;;;
        iupdate ip ;;;
        iunlock ip ;;;
        let! r := nameiparent dv cwd new name_buf in
        match r with
        | (None, _) => bad
        | (Some dp, name) =>
            ilock dp ;;;
            let! d := gets (inode_at dp) in
            let! p := gets (inode_at ip) in
            let! fail := (if negb (i_dev d =? i_dev p) then ret true
                          else let! r := dirlink dv dp name (i_inum p) in ret (r <? 0)) in
            if (fail : bool) then
              iunlockput dp ;;;
              bad
            else
              iunlockput dp ;;;
              iput ip ;;;
              end_op ;;;
              ret 0
        end
  end.

(** Is the directory [dp] empty except for "." and ".." ? *)
Definition isdirempty (dp : nat) : M kst bool :=
  let! p := gets (inode_at dp) in
  let! r := first_ (drop 2 (dirent_offs (i_size p))) (fun off =>
    let! r := readi dv dp off DIRENT_SIZE in
    if negb (r.1 =? DIRENT_SIZE) then panic "isdirempty: readi"
    else if negb (de_inum r.2 =? 0) then ret (Some false) else ret None) in
  ret (default true r).

(** The body of [sys_unlink]. *)
Definition unlink_op (cwd : nat) (path : list Z) : M kst Z :=
  begin_op ;;;
  let! r := nameiparent dv cwd path name_buf in
  match r with
  | (None, _) => end_op ;;; ret (-1)
  | (Some dp, name) =>
      let bad := iunlockput dp ;;; end_op ;;; ret (-1) in
      ilock dp ;;;
      if (namecmp name dot =? 0) || (namecmp name dotdot =? 0) then bad
      else
        let! r := dirlookup dv dp name in
        match r with
        | None => bad
        | Some (ip, off) =>
            ilock ip ;;;
            let! p := gets (inode_at ip) in
            if i_nlink p <? 1 then panic "unlink: nlink < 1"
            else
              let! full := (if i_type p =? T_DIR then let! e := isdirempty ip in ret (negb e) else ret false) in
              if (full : bool) then
                iunlockput ip ;;;
                bad
              else
                let! w := writei dv dp (replicate (Z.to_nat DIRENT_SIZE) 0) off DIRENT_SIZE in
                if negb (w =? DIRENT_SIZE) then panic "unlink: writei"
                else
                  (if i_type p =? T_DIR then modify (on_inode dp dec_nlink) ;;; iupdate dp else ret tt) ;;;
                  iunlockput dp ;;;
                  modify (on_inode ip dec_nlink) ;;;
                  iupdate ip ;;;
                  iunlockput ip ;;;
                  end_op ;;;
                  ret 0
        end
  end.

(** Create the file [path]; its inode is returned locked. *)
Definition create (cwd : nat) (path : list Z) (type major minor : Z) : M kst (option nat) :=
  let! r := nameiparent dv cwd path name_buf in
  match r with
  | (None, _) => ret None
  | (Some dp, name) =>
      ilock dp ;;;
      let! r := dirlookup dv dp name in
      match r with
      | Some (ip, _) =>
          iunlockput dp ;;;
          ilock ip ;;;
          let! p := gets (inode_at ip) in
          if (type =? T_FILE) && (i_type p =? T_FILE) then ret (Some ip)
          else
            iunlockput ip ;;;
            ret None
      | None =>
          let! d := gets (inode_at dp) in
          let! ip := ialloc (i_dev d) type in
          ilock ip ;;;
          modify (on_inode ip (i_with_major (s16 major))) ;;;
          modify (on_inode ip (i_with_minor (s16 minor))) ;;;
          modify (on_inode ip (i_with_nlink 1)) ;;;
          iupdate ip ;;;
          let! p := gets (inode_at ip) in
          (if type =? T_DIR then
             modify (on_inode dp inc_nlink) ;;;
             iupdate dp ;;;
             let! r := dirlink dv ip dot (i_inum p) in
             if r <? 0 then panic "create dots"
             else
               let! r := dirlink dv ip dotdot (i_inum d) in
               if r <? 0 then panic "create dots" else ret tt
           else ret tt) ;;;
          let! r := dirlink dv dp name (i_inum p) in
          if r <? 0 then panic "create: dirlink"
          else
            iunlockput dp ;;;
            ret (Some ip)
      end
  end.
End SysfileFs.

Section Sysfile.
Context (kend data : Z) (dv : devsw).

(** Fetch the nth argument as a file descriptor: the descriptor and the file. *)
Definition argfd (n : Z) : M kernel (option (Z * nat)) :=
  let! a := argint n in
  match a with
  | None => ret None
  | Some v =>
      let fd := s32 v in
      let! p := gets cur_proc in
      if (fd <? 0) || (Z.of_nat NOFILE <=? fd) then ret None
      else ret (pair fd <$> default None (p_ofile p !! Z.to_nat fd))
  end.

(** Allocate a file descriptor for the given file. *)
Definition fdalloc (f : nat) : M kernel (option Z) :=
  first_ (seq 0 NOFILE) (fun fd =>
    let! p := gets cur_proc in
    match default None (p_ofile p !! fd) with
    | None =>
        on_cur (fun p => set_ofile (<[fd := Some f]> (p_ofile p)) p) ;;;
        ret (Some (Z.of_nat fd))
    | Some _ => ret None
    end).

Definition sys_dup : M kernel Z :=
  need (argfd 0) (fun a =>
  need (fdalloc a.2) (fun fd =>
    filedup a.2 ;;;
    ret fd)).

Definition sys_read : M kernel Z :=
  need (argfd 0) (fun a =>
  need (argint 2) (fun n =>
  need (argptr 1 (s32 n)) (fun p => fileread dv a.2 p (s32 n)))).

Definition sys_write : M kernel Z :=
  need (argfd 0) (fun a =>
  need (argint 2) (fun n =>
  need (argptr 1 (s32 n)) (fun p => filewrite dv a.2 p (s32 n)))).

Definition sys_close : M kernel Z :=
  need (argfd 0) (fun a =>
    on_cur (fun p => set_ofile (<[Z.to_nat a.1 := None]> (p_ofile p)) p) ;;;
    fileclose kend a.2 ;;;
    ret 0).

(** The bytes of [struct stat], with its padding left as it was. *)
Definition STAT_SIZE : Z := 20.
Definition put_stat (a : Z) (st : stat) : M kernel unit :=
  vwrite a (le 2 (u16 (st_type st))) ;;;
  vwrite (a + 4) (le 4 (u32 (st_dev st))) ;;;
  vwrite (a + 8) (le 4 (u32 (st_ino st))) ;;;
  vwrite (a + 12) (le 2 (u16 (st_nlink st))) ;;;
  vwrite (a + 16) (le 4 (u32 (st_size st))).

Definition sys_fstat : M kernel Z :=
  need (argfd 0) (fun a =>
  need (argptr 1 STAT_SIZE) (fun st =>
    let! r := filestat a.2 in
    (match r.2 with Some s => put_stat st s | None => ret tt end) ;;;
    ret r.1)).

(** The current directory. *)
Definition cur_dir : M kernel nat := gets (fun s => default 0%nat (p_cwd (cur_proc s))).

Definition sys_link : M kernel Z :=
  need (argstr 0) (fun a =>
  need (argstr 1) (fun b =>
    let! old := str_bytes a in
    let! new := str_bytes b in
    let! cwd := cur_dir in
    with_fs (link_op dv cwd old new))).

Definition sys_unlink : M kernel Z :=
  need (argstr 0) (fun a =>
    let! path := str_bytes a in
    let! cwd := cur_dir in
    with_fs (unlink_op dv cwd path)).

(** The part of [sys_open] that finds or creates the inode; it is locked. *)
Definition open_inode (cwd : nat) (path : list Z) (omode : Z) : M kst (option nat) :=
  if has omode O_CREATE then
    let! r := create dv cwd path T_FILE 0 0 in
    match r with
    | None => end_op ;;; ret None
    | Some ip => ret (Some ip)
    end
  else
    let! r := namei dv cwd path name_buf in
    match r with
    | None => end_op ;;; ret None
    | Some ip =>
        ilock ip ;;;
        let! p := gets (inode_at ip) in
        if (i_type p =? T_DIR) && negb (omode =? O_RDONLY) then
          iunlockput ip ;;;
          end_op ;;;
          ret None
        else ret (Some ip)
    end.

Definition sys_open : M kernel Z :=
  need (argstr 0) (fun a =>
  need (argint 1) (fun omode =>
    let! path := str_bytes a in
    let! cwd := cur_dir in
    with_fs begin_op ;;;
    need (with_fs (open_inode cwd path omode)) (fun ip =>
      let! f := filealloc in
      let! fd := (match f with None => ret None | Some f => fdalloc f end) in
      match f, fd with
      | Some f, Some fd =>
          with_fs (iunlock ip) ;;;
          with_fs end_op ;;;
          on_file f (fun x => File FD_INODE (f_ref x) (if has omode O_WRONLY then 0 else 1)
            (if has omode O_WRONLY || has omode O_RDWR then 1 else 0) (f_pipe x) ip 0) ;;;
          ret fd
      | _, _ =>
          (match f with Some f => fileclose kend f | None => ret tt end) ;;;
          with_fs (iunlockput ip) ;;;
          with_fs end_op ;;;
          ret (-1)
      end))).

(** [sys_mkdir] and [sys_mknod] fetch their arguments inside the operation. *)
Definition create_call (args : M kernel (option (list Z * Z * Z))) (type : Z) : M kernel Z :=
  with_fs begin_op ;;;
  let! r := args in
  let! ip := (match r with
              | None => ret None
              | Some (path, major, minor) =>
                  let! cwd := cur_dir in
                  with_fs (create dv cwd path type major minor)
              end) in
  match ip with
  | None => with_fs end_op ;;; ret (-1)
  | Some ip =>
      with_fs (iunlockput ip) ;;;
      with_fs end_op ;;;
      ret 0
  end.

Definition sys_mkdir : M kernel Z :=
  create_call (
    let! a := argstr 0 in
    match a with
    | None => ret None
    | Some a => let! path := str_bytes a in ret (Some (path, 0, 0))
    end) T_DIR.

Definition sys_mknod : M kernel Z :=
  create_call (
    let! a := argstr 0 in
    match a with
    | None => ret None
    | Some a =>
        let! major := argint 1 in
        match major with
        | None => ret None
        | Some major =>
            let! minor := argint 2 in
            match minor with
            | None => ret None
            | Some minor => let! path := str_bytes a in ret (Some (path, s32 major, s32 minor))
            end
        end
    end) T_DEV.

Definition sys_chdir : M kernel Z :=
  with_fs begin_op ;;;
  let! a := argstr 0 in
  let! cwd := cur_dir in
  let! r := (match a with
             | None => ret None
             | Some a => let! path := str_bytes a in with_fs (namei dv cwd path name_buf)
             end) in
  match r with
  | None => with_fs end_op ;;; ret (-1)
  | Some ip =>
      with_fs (ilock ip) ;;;
      let! p := with_fs (gets (inode_at ip)) in
      if negb (i_type p =? T_DIR) then
        with_fs (iunlockput ip) ;;;
        with_fs end_op ;;;
        ret (-1)
      else
        with_fs (iunlock ip) ;;;
        with_fs (iput cwd) ;;;
        with_fs end_op ;;;
        on_cur (set_cwd (Some ip)) ;;;
        ret 0
  end.

Definition sys_pipe : M kernel Z :=
  need (argptr 0 8) (fun fd =>
    let! r := pipealloc kend in
    match r with
    | (c, Some rf, Some wf) =>
        if c <? 0 then ret (-1)
        else
          let! fd0 := fdalloc rf in
          let! fd1 := (match fd0 with None => ret None | Some _ => fdalloc wf end) in
          match fd0, fd1 with
          | Some fd0, Some fd1 =>
              vwrite32 fd fd0 ;;;
              vwrite32 (fd + 4) fd1 ;;;
              ret 0
          | _, _ =>
              (match fd0 with
               | Some fd0 => on_cur (fun p => set_ofile (<[Z.to_nat fd0 := None]> (p_ofile p)) p)
               | None => ret tt
               end) ;;;
              fileclose kend rf ;;;
              fileclose kend wf ;;;
              ret (-1)
          end
    | _ => ret (-1)
    end).
End Sysfile.
