(* ===== verification/Exec.v ===== *)
(** * Program loading ([exec.c], and [loaduvm] of [vm.c]) and the system call
    dispatcher ([syscall] of [syscall.c]) *)

From S2P Require Import Prelude Bytes Params CString FsState Log Fs Kalloc Vm Pipe Kernel File Proc Syscall Sysproc Sysfile.

(** ** [elf.h] *)

Definition ELF_MAGIC : Z := 0x464C457F.
Definition ELF_PROG_LOAD : Z := 1.
Definition ELFHDR_SIZE : Z := 52.
Definition PROGHDR_SIZE : Z := 32.

Definition elf_magic (h : list Z) : Z := ld32 h 0.
Definition elf_entry (h : list Z) : Z := ld32 h 24.
Definition elf_phoff (h : list Z) : Z := ld32 h 28.
Definition elf_phnum (h : list Z) : Z := ld16 h 44.
Definition ph_type (h : list Z) : Z := ld32 h 0.
Definition ph_off (h : list Z) : Z := ld32 h 4.
Definition ph_vaddr (h : list Z) : Z := ld32 h 8.
Definition ph_filesz (h : list Z) : Z := ld32 h 16.
Definition ph_memsz (h : list Z) : Z := ld32 h 20.

Section Exec.
(** Linker symbols, the device switch, the assembled code between
    [implicit_exit] and [end_of_exit], and the indeterminate contents of the
    local variable [elf]. *)
Context (kend data trapret forkret : Z) (dv : devsw) (implicit_exit junk : list Z).

(** Load a program segment into [pgdir]. *)
Definition loaduvm (pgdir addr : Z) (ip : nat) (offset sz : Z) : M kernel Z :=
  if negb (addr mod PGSIZE =? 0) then panic "loaduvm: addr must be page aligned"
  else
    let! r := first_ (page_range 0 sz) (fun i =>
      let! pte := with_mem (walkpgdir pgdir (u32 (addr + i)) false) in
      if pte =? 0 then panic "loaduvm: address should exist"
      else
        let! e := with_mem (peek pte) in
        let pa := PTE_ADDR e in
        let n := if sz - i <? PGSIZE then sz - i else PGSIZE in
        let! r := with_fs (readi dv ip (u32 (offset + i)) n) in
        with_mem (on_mem (put_bytes (p2v pa) r.2)) ;;;
        if negb (r.1 =? n) then ret (Some (-1)) else ret None) in
    ret (default 0 r).

(** The loop over the program headers: the size of the image so far. *)
Fixpoint exec_segments (n : nat) (ip : nat) (pgdir off sz : Z) : M kernel (option Z) :=
  match n with
  | O => ret (Some sz)
  | S n' =>
      let! r := with_fs (readi dv ip (u32 off) PROGHDR_SIZE) in
      if negb (r.1 =? PROGHDR_SIZE) then ret None
      else
        let ph := r.2 in
        if negb (ph_type ph =? ELF_PROG_LOAD) then exec_segments n' ip pgdir (s32 (off + PROGHDR_SIZE)) sz
        else if ph_memsz ph <? ph_filesz ph then ret None
        else
          let! sz := with_mem (allocuvm kend pgdir sz (u32 (ph_vaddr ph + ph_memsz ph))) in
          if sz =? 0 then ret None
          else
            let! l := loaduvm pgdir (ph_vaddr ph) ip (ph_off ph) (ph_filesz ph) in
            if l <? 0 then ret None
            else exec_segments n' ip pgdir (s32 (off + PROGHDR_SIZE)) sz
  end.

(** [strlen] of a string in user memory; the size of the process bounds the
    search, as [fetchstr] has found the terminator there. *)
Definition user_strlen (a : Z) : M kernel Z :=
  let! p := gets cur_proc in
  let! r := find_nul a (Z.to_nat (p_sz p - a)) 0 in
  match r with Some n => ret n | None => fun _ => Fuel end.

(** Push the argument strings: the new stack pointer and their addresses. *)
Fixpoint exec_args (argv : list Z) (pgdir argc sp : Z) (ustack : list Z) : M kernel (option (Z * list Z)) :=
  match argv with
  | [] => ret (Some (sp, ustack))
  | a :: argv' =>
      if MAXARG <=? argc then ret None
      else
        let! n := user_strlen a in
        let! str := vread a (Z.to_nat (n + 1)) in
        let sp := Z.land (u32 (sp - (n + 1))) (u32 (Z.lnot 3)) in
        let! r := with_mem (copyout pgdir sp str) in
        if r <? 0 then ret None else exec_args argv' pgdir (argc + 1) sp (ustack ++ [sp])
  end.

(** The stack, the exit stub and the arguments of a new image: its size and
    stack pointer. *)
Definition exec_stack (pgdir sz : Z) (argv : list Z) : M kernel (option (Z * Z)) :=
  let sz := PGROUNDUP sz in
  let! sz := with_mem (allocuvm kend pgdir sz (u32 (sz + 2 * PGSIZE))) in
  if sz =? 0 then ret None
  else
    with_mem (clearpteu pgdir (u32 (sz - 2 * PGSIZE))) ;;;
    let adrr := u32 (sz - Z.of_nat (length implicit_exit)) in
    let! r := with_mem (copyout pgdir adrr implicit_exit) in
    if r <? 0 then ret None
    else
      let! r := exec_args argv pgdir 0 adrr [] in
      match r with
      | None => ret None
      | Some (sp, args) =>
          let argc := Z.of_nat (length args) in
          let ustack := [adrr; argc; u32 (sp - (argc + 1) * 4)] ++ args ++ [0] in
          let sp := u32 (sp - (3 + argc + 1) * 4) in
          let! r := with_mem (copyout pgdir sp (mjoin (le 4 <$> ustack))) in
          if r <? 0 then ret None else ret (Some (sz, sp))
      end.

(** The part of the path after its last slash. *)
Fixpoint last_elem (path last : list Z) : list Z :=
  match path with
  | [] => last
  | c :: path' =>
      if c =? 0 then last
      else last_elem path' (if c =? slash then path' else last)
  end.

(** [argv] holds the addresses before the null pointer. *)
Definition exec (path : list Z) (argv : list Z) : M kernel Z :=
  let bad (pgdir : Z) (ip : option nat) : M kernel Z :=
    (if pgdir =? 0 then ret tt else with_mem (freevm kend pgdir)) ;;;
    (match ip with
     | Some ip => with_fs (iunlockput ip) ;;; with_fs end_op
     | None => ret tt
     end) ;;;
    ret (-1) in
  with_fs begin_op ;;;
  let! cwd := cur_dir in
  let! ip := with_fs (namei dv cwd path name_buf) in
  match ip with
  | None => with_fs end_op ;;; ret (-1)
  | Some ip =>
      with_fs (ilock ip) ;;;
      let! r := with_fs (readi dv ip 0 ELFHDR_SIZE) in
      let elf := r.2 ++ drop (length r.2) junk in
      if u32 r.1 <? ELFHDR_SIZE then bad 0 (Some ip)
      else if negb (elf_magic elf =? ELF_MAGIC) then bad 0 (Some ip)
      else
        let! pgdir := with_mem (setupkvm data) in
        if pgdir =? 0 then bad 0 (Some ip)
        else
          let! sz := exec_segments (Z.to_nat (elf_phnum elf)) ip pgdir (s32 (elf_phoff elf)) 0 in
          match sz with
          | None => bad pgdir (Some ip)
          | Some sz =>
              with_fs (iunlockput ip) ;;;
              with_fs end_op ;;;
              let! r := exec_stack pgdir sz argv in
              match r with
              | None => bad pgdir None
              | Some (sz, sp) =>
                  on_cur (fun p => set_name (copy_name (p_name p) (last_elem path path)) p) ;;;
                  let! p := gets cur_proc in
                  on_cur (set_pgdir pgdir) ;;;
                  on_cur (set_sz sz) ;;;
                  kstore (p_tf p + tf_eip) (elf_entry elf) ;;;
                  kstore (p_tf p + tf_esp) sp ;;;
                  with_mem (freevm kend (p_pgdir p)) ;;;
                  ret 0
              end
          end
  end.

(** The loop of [sys_exec]: the argument addresses, or [None]. *)
Fixpoint exec_argv (n : nat) (uargv : Z) (argv : list Z) : M kernel (option (list Z)) :=
  match n with
  | O => ret None
  | S n' =>
      let! r := fetchint uargv in
      match r with
      | None => ret None
      | Some uarg =>
          if uarg =? 0 then ret (Some argv)
          else
            let! l := fetchstr uarg in
            match l with
            | None => ret None
            | Some _ => exec_argv n' (u32 (uargv + 4)) (argv ++ [uarg])
            end
      end
  end.

Definition sys_exec : M kernel Z :=
  need (argstr 0) (fun a =>
  need (argint 1) (fun uargv =>
  need (exec_argv (Z.to_nat MAXARG) uargv []) (fun argv =>
    let! path := str_bytes a in
    exec path argv))).

(** ** The dispatcher *)

Definition returns (m : M kernel Z) : M kernel (option Z) := let! v := m in ret (Some v).

(** [syscalls[]]; [None] where the table has a null pointer. *)
Definition syscalls (num : Z) : option (M kernel (option Z)) :=
  match num with
  | 1 => Some (returns (sys_fork kend data trapret forkret))
  | 2 => Some (sys_exit kend)
  | 3 => Some (returns (sys_wait kend))
  | 4 => Some (returns (sys_pipe kend))
  | 5 => Some (returns (sys_read dv))
  | 6 => Some (returns sys_kill)
  | 7 => Some (returns sys_exec)
  | 8 => Some (returns sys_fstat)
  | 9 => Some (returns (sys_chdir dv))
  | 10 => Some (returns sys_dup)
  | 11 => Some (returns sys_getpid)
  | 12 => Some (returns (sys_sbrk kend))
  | 13 => Some (returns sys_sleep)
  | 14 => Some (returns sys_uptime)
  | 15 => Some (returns (sys_open kend dv))
  | 16 => Some (returns (sys_write dv))
  | 17 => Some (returns (sys_mknod dv))
  | 18 => Some (returns (sys_unlink dv))
  | 19 => Some (returns (sys_link dv))
  | 20 => Some (returns (sys_mkdir dv))
  | 21 => Some (returns (sys_close kend))
  | 22 => Some (returns sys_pstat)
  | 23 => Some (returns sys_printjob)
  | 24 => Some (returns sys_attachjob)
  | 25 => Some (returns sys_isJobEmpty)
  | 26 => Some (returns (sys_fg kend))
  | 27 => Some (returns (sys_waitpid kend))
  | 28 => Some (returns sys_signal)
  | _ => None
  end.

(** Run the system call in [%eax] and leave its result there. *)
Definition syscall : M kernel unit :=
  let! p := gets cur_proc in
  let! num := with_mem (peek (p_tf p + tf_eax)) in
  match syscalls (s32 num) with
  | Some f =>
      let! r := f in
      match r with
      | Some v => kstore (p_tf p + tf_eax) v
      | None => ret tt
      end
  | None =>
      print (UnknownCall (p_pid p) (p_name p) (s32 num)) ;;;
      kstore (p_tf p + tf_eax) (-1)
  end.
End Exec.
