(* ===== verification/Ulib.v ===== *)
(** * The user library: [ulib.c] and [printf.c]

    A C string is the list of its characters, without the NUL that ends it: the
    character at the end of the list reads as 0 and [s + 1] is the tail.  What
    [printf] writes with [putc] is the list of bytes written, in order. *)

From S2P Require Import Prelude Bytes CString.

(** The character a string pointer points to. *)
Definition deref (s : list Z) : Z := hd 0 s.

(** The characters of a literal. *)
Definition chars (s : string) : list Z := (fun a => Z.of_nat (Ascii.nat_of_ascii a)) <$> String.list_ascii_of_string s.

(** ** [ulib.c] *)

Fixpoint strcmp (p q : list Z) : Z :=
  match p, q with
  | c :: p', d :: q' => if c =? d then strcmp p' q' else u8 c - u8 d
  | _, _ => u8 (deref p) - u8 (deref q)
  end.

Fixpoint strlen_loop (n : Z) (s : list Z) : Z :=
  match s with
  | [] => n
  | _ :: s' => strlen_loop (n + 1) s'
  end.
Definition strlen (s : list Z) : Z := u32 (strlen_loop 0 s).

(** The result is a pointer into the string, [None] for the null pointer. *)
Fixpoint strchr (s : list Z) (c : Z) : option (list Z) :=
  match s with
  | [] => None
  | d :: s' => if d =? c then Some s else strchr s' c
  end.

Fixpoint atoi_loop (n : Z) (s : list Z) : Z :=
  match s with
  | [] => n
  | c :: s' => if (48 <=? c) && (c <=? 57) then atoi_loop (s32 (n * 10 + c - 48)) s' else n
  end.
Definition atoi (s : list Z) : Z := atoi_loop 0 s.

(** [memmove] of the library always copies upwards. *)
Definition memmove (m : mem) (dst src n : Z) : mem := copy_up m dst src (Z.to_nat n).

(** [strcpy] into the memory at [s]; the NUL is copied too. *)
Fixpoint strcpy (m : mem) (s : Z) (t : list Z) : mem :=
  match t with
  | [] => poke s 0 m
  | c :: t' => strcpy (poke s c m) (s + 1) t'
  end.

(** [gets]: [input] are the results of the one-byte reads from descriptor 0,
    [None] standing for one that returns no byte; the result is what is put
    into the buffer before the final NUL, and the reads that are left. *)
Fixpoint gets_loop (input : list (option Z)) (room : nat) : list Z * list (option Z) :=
  match room, input with
  | S room', Some c :: input' =>
      if (c =? 10) || (c =? 13) then ([c], input')
      else let '(l, rest) := gets_loop input' room' in (c :: l, rest)
  | S _, None :: input' => ([], input')
  | _, _ => ([], input)
  end.
Definition gets_buf (max : Z) (input : list (option Z)) : list Z * list (option Z) :=
  gets_loop input (Z.to_nat (max - 1)).

(** ** [printf.c] *)

(** ["0123456789ABCDEF"] *)
Definition digits : list Z := chars "0123456789ABCDEF".

(** The [do] loop of [printint]: the characters put into [buf], the last one
    first; [None] when they do not fit into the [room] left. *)
Fixpoint digits_loop (room : nat) (x base : Z) (buf : list Z) : option (list Z) :=
  match room with
  | O => None
  | S room' =>
      let buf' := nth (Z.to_nat (x mod base)) digits 0 :: buf in
      if x / base =? 0 then Some buf' else digits_loop room' (x / base) base buf'
  end.

Definition printint_buf : nat := 16.

(** What is printed: [buf] backwards. *)
Definition printint (xx base : Z) (sgn : bool) : option (list Z) :=
  let neg := sgn && (s32 xx <? 0) in
  let x := if neg then u32 (- s32 xx) else u32 xx in
  match digits_loop printint_buf x base [] with
  | None => None
  | Some buf =>
      if neg then (if (length buf <? printint_buf)%nat then Some (45 :: buf) else None) else Some buf
  end.

(** The characters of the format that matter. *)
Definition ch_percent : Z := 37.
Definition null_text : list Z := chars "(null)".

Section Printf.
  (** The string at an address of the caller. *)
  Variable str : Z -> list Z.

(** [ap n] is the [n]-th argument word; [state] tells whether the last character
    was a percent sign. *)
Fixpoint printf_loop (fmt : list Z) (ap : nat -> Z) (state : bool) : option (list Z) :=
  match fmt with
  | [] => Some []
  | c :: fmt' =>
      let out w rest := match rest with Some l => Some (w ++ l) | None => None end in
      let next := fun n => ap (S n) in
      if negb state then
        if c =? ch_percent then printf_loop fmt' ap true else out [c] (printf_loop fmt' ap false)
      else if c =? 100 then
        match printint (ap 0%nat) 10 true with Some w => out w (printf_loop fmt' next false) | None => None end
      else if (c =? 120) || (c =? 112) then
        match printint (ap 0%nat) 16 false with Some w => out w (printf_loop fmt' next false) | None => None end
      else if c =? 115 then
        out (if ap 0%nat =? 0 then null_text else str (ap 0%nat)) (printf_loop fmt' next false)
      else if c =? 99 then out [u8 (ap 0%nat)] (printf_loop fmt' next false)
      else if c =? ch_percent then out [c] (printf_loop fmt' ap false)
      else out [ch_percent; c] (printf_loop fmt' ap false)
  end.
Definition printf (fmt : list Z) (ap : nat -> Z) : option (list Z) := printf_loop fmt ap false.
End Printf.

(** ** Strings *)

(** Strings hold the characters before the NUL. *)
Definition is_cstr (s : list Z) : Prop := Forall (fun c => 0 < c < 256) s.

Lemma strcmp_zero p q : is_cstr p -> is_cstr q -> strcmp p q = 0 <-> p = q.
Proof.
  intros Hp. revert q. induction Hp as [|c p Hc Hp IH]; intros q Hq; destruct Hq as [|d q Hd Hq]; cbn [strcmp deref hd];
    rewrite ?(u8_small 0), ?(u8_small c), ?(u8_small d) by lia; try done.
  - split; [lia|done].
  - split; [lia|done].
  - destruct (Z.eqb_spec c d) as [->|Hne].
    + rewrite IH by done. split; [by intros ->|by intros [= ->]].
    + split; [lia|by intros [= ->]].
Qed.

Lemma strlen_loop_spec n s : strlen_loop n s = n + Z.of_nat (length s).
Proof. revert n. induction s as [|c s IH]; intros n; cbn [strlen_loop length]; rewrite ?IH; lia. Qed.

Lemma strlen_length s : Z.of_nat (length s) < 2 ^ 32 -> strlen s = Z.of_nat (length s).
Proof. intros H. unfold strlen. rewrite strlen_loop_spec, u32_small; lia. Qed.

(** [strchr] finds the first occurrence. *)
Lemma strchr_Some s c t : strchr s c = Some t <-> exists pre t', t = c :: t' /\ s = pre ++ t /\ c ∉ pre.
Proof.
  revert t. induction s as [|d s IH]; intros t; cbn [strchr].
  - split; [done|]. intros (pre & t' & -> & H & _). by destruct pre.
  - destruct (Z.eqb_spec d c) as [->|Hne].
    + split.
      * intros [= <-]. exists [], s. split; [done|]. split; [done|]. set_solver.
      * intros (pre & t' & -> & H & Hpre). destruct pre as [|x pre]; [by rewrite H|]. injection H as -> ->. set_solver.
    + rewrite IH. split; intros (pre & t' & -> & H & Hpre).
      * exists (d :: pre), t'. split; [done|]. split; [by rewrite H|]. set_solver.
      * destruct pre as [|x pre]; [by injection H as ->|]. injection H as -> ->. exists pre, t'. split; [done|]. split; [done|]. set_solver.
Qed.

Lemma strchr_None s c : strchr s c = None <-> c ∉ s.
Proof.
  induction s as [|d s IH]; cbn [strchr]; [set_solver|]. destruct (Z.eqb_spec d c) as [->|Hne]; [|set_solver].
  split; [done|]. set_solver.
Qed.

(** After [strcpy] the string is at the destination, followed by a NUL, and
    nothing else has changed. *)
Lemma strcpy_spec m s t x :
  strcpy m s t x = if (s <=? x) && (x <=? s + Z.of_nat (length t)) then nth (Z.to_nat (x - s)) t 0 else m x.
Proof.
  revert m s. induction t as [|c t IH]; intros m s; cbn [strcpy length].
  - unfold poke. change (Z.of_nat 0) with 0. zcmp; [subst; by rewrite Z.sub_diag|done..].
  - rewrite IH. unfold poke. zcmp; try done.
    + replace (Z.to_nat (x - s)) with (S (Z.to_nat (x - (s + 1)))) by lia. done.
    + subst. by rewrite Z.sub_diag.
Qed.

(** ** Numbers *)

Definition digit_value (c : Z) : Z := if c <=? 57 then c - 48 else c - 55.
Definition value (base : Z) (w : list Z) : Z := fold_left (fun n c => n * base + digit_value c) w 0.

Lemma value_snoc base w c : value base (w ++ [c]) = value base w * base + digit_value c.
Proof. unfold value. by rewrite fold_left_app. Qed.

Definition is_digit (base c : Z) : Prop := exists d, 0 <= d < base /\ c = nth (Z.to_nat d) digits 0.

Lemma digit_value_nth d : 0 <= d < 16 -> digit_value (nth (Z.to_nat d) digits 0) = d.
Proof.
  intros Hd. assert (d ∈ seqZ 0 16) as Hin by (apply elem_of_seqZ; lia). revert d Hd Hin.
  assert (Forall (fun d => digit_value (nth (Z.to_nat d) digits 0) = d) (seqZ 0 16)) as H by (repeat constructor).
  intros d _ Hin. by apply (proj1 (Forall_forall _ _) H).
Qed.

Lemma digits_loop_value room x base buf r :
  1 < base <= 16 -> 0 <= x -> digits_loop room x base buf = Some r ->
  exists w, r = w ++ buf /\ Forall (is_digit base) w /\ value base w = x /\ (length w <= room)%nat.
Proof.
  intros Hb. revert x buf. induction room as [|room IH]; intros x buf Hx H; [done|]. cbn [digits_loop] in H.
  assert (0 <= x mod base < base) as Hm by (apply Z.mod_pos_bound; lia).
  assert (is_digit base (nth (Z.to_nat (x mod base)) digits 0)) as Hd by (by exists (x mod base)).
  pose proof (Z.div_mod x base) as Hdm. destruct (Z.eqb_spec (x / base) 0) as [E|E].
  - injection H as <-. exists [nth (Z.to_nat (x mod base)) digits 0]. split; [done|]. split; [by constructor|]. unfold value. cbn [fold_left length].
    rewrite digit_value_nth by lia. lia.
  - destruct (IH _ _ (Z.div_pos x base Hx ltac:(lia)) H) as (w & -> & Hw & Hv & Hl).
    exists (w ++ [nth (Z.to_nat (x mod base)) digits 0]). split; [by rewrite <- app_assoc|].
    split; [apply Forall_app; split; [done|by constructor]|]. split; [|rewrite length_app; cbn; lia].
    rewrite value_snoc, Hv, digit_value_nth by lia. lia.
Qed.

(** [n] characters are enough for a number below [base ^ n]. *)
Lemma digits_loop_room n k x base buf :
  1 < base -> 0 <= x < base ^ Z.of_nat n -> (0 < n <= k)%nat ->
  exists w, digits_loop k x base buf = Some (w ++ buf) /\ (length w <= n)%nat.
Proof.
  intros Hb. revert k x buf. induction n as [|n IH]; intros k x buf Hx Hn; [lia|]. destruct k as [|k]; [lia|].
  cbn [digits_loop]. destruct (Z.eqb_spec (x / base) 0) as [E|E]; [eexists [_]; split; [done|cbn; lia]|].
  assert (0 <= x / base < base ^ Z.of_nat n) as Hq.
  { split; [apply Z.div_pos; lia|]. apply Z.div_lt_upper_bound; [lia|]. rewrite <- Z.pow_succ_r, <- Nat2Z.inj_succ by lia. lia. }
  assert (0 < n)%nat by (destruct n; [rewrite Z.pow_0_r in Hq; lia|lia]).
  destruct (IH k (x / base) (nth (Z.to_nat (x mod base)) digits 0 :: buf) Hq ltac:(lia)) as (w & -> & Hw).
  eexists (w ++ [_]). split; [by rewrite <- app_assoc|]. rewrite length_app. cbn. lia.
Qed.

(** The digits of a number, in a buffer of 16 characters. *)
Lemma digits_of n x base :
  1 < base <= 16 -> 0 <= x < base ^ Z.of_nat n -> (0 < n <= 16)%nat ->
  exists w, digits_loop printint_buf x base [] = Some w /\ (length w <= n)%nat /\ Forall (is_digit base) w /\ value base w = x.
Proof.
  intros Hb Hx Hn. destruct (digits_loop_room n printint_buf x base [] ltac:(lia) Hx Hn) as (w & E & Hl).
  rewrite app_nil_r in E. destruct (digits_loop_value _ _ _ _ _ Hb (proj1 Hx) E) as (w' & Ew & Hd & Hv & _).
  rewrite app_nil_r in Ew. subst w'. by exists w.
Qed.

(** [atoi] reads decimal digits. *)
Lemma atoi_loop_digits w n :
  Forall (is_digit 10) w -> 0 <= n -> fold_left (fun n c => n * 10 + digit_value c) w n < 2 ^ 31 ->
  atoi_loop n w = fold_left (fun n c => n * 10 + digit_value c) w n.
Proof.
  intros Hw. revert n. induction Hw as [|c w (d & Hd & ->) Hw IH]; intros n Hn Hlt; [done|]. cbn [atoi_loop fold_left] in *.
  assert (nth (Z.to_nat d) digits 0 = 48 + d) as Ec.
  { assert (d ∈ seqZ 0 10) as Hin by (apply elem_of_seqZ; lia).
    assert (Forall (fun d => nth (Z.to_nat d) digits 0 = 48 + d) (seqZ 0 10)) as H by (repeat constructor).
    by apply (proj1 (Forall_forall _ _) H). }
  rewrite digit_value_nth in * by lia. rewrite Ec.
  assert (forall w m, Forall (is_digit 10) w -> 0 <= m -> m <= fold_left (fun n c => n * 10 + digit_value c) w m) as Hmono.
  { clear. intros w m Hw. revert m. induction Hw as [|c w (d & Hd & ->) Hw IH]; intros m Hm; cbn [fold_left]; [lia|].
    rewrite digit_value_nth by lia. specialize (IH (m * 10 + d)). lia. }
  specialize (Hmono w (n * 10 + d) Hw ltac:(lia)).
  replace ((48 <=? 48 + d) && (48 + d <=? 57)) with true; [|symmetry; apply andb_true_intro; split; lia].
  rewrite s32_small by lia. replace (n * 10 + (48 + d) - 48) with (n * 10 + d) by lia. apply IH; lia.
Qed.

Lemma atoi_digits w : Forall (is_digit 10) w -> value 10 w < 2 ^ 31 -> atoi w = value 10 w.
Proof. intros. by apply atoi_loop_digits. Qed.

(** What [printint] prints for the two conversions [printf] uses. *)
Lemma printint_hex v : exists w, printint v 16 false = Some w /\ (length w <= 8)%nat /\ Forall (is_digit 16) w /\ value 16 w = u32 v.
Proof.
  unfold printint. cbn [andb].
  destruct (digits_of 8 (u32 v) 16) as (w & -> & H); [lia|by change (16 ^ Z.of_nat 8) with (2 ^ 32); apply u32_range|lia|by exists w].
Qed.

Lemma printint_dec v : exists w, printint v 10 true = Some (if s32 v <? 0 then 45 :: w else w) /\
  (length w <= 10)%nat /\ Forall (is_digit 10) w /\ value 10 w = Z.abs (s32 v).
Proof.
  unfold printint. cbn [andb]. pose proof (s32_range v) as Hr.
  assert ((if s32 v <? 0 then u32 (- s32 v) else u32 v) = Z.abs (s32 v)) as ->.
  { destruct (Z.ltb_spec (s32 v) 0); [rewrite u32_small; lia|]. rewrite <- u32_s32, u32_small; lia. }
  destruct (digits_of 10 (Z.abs (s32 v)) 10) as (w & -> & Hl & Hd & Hv); [lia| |lia|].
  { change (10 ^ Z.of_nat 10) with 10000000000. lia. }
  exists w. split; [|done]. destruct (s32 v <? 0); [|done]. by rewrite (proj2 (Nat.ltb_lt _ _)) by (unfold printint_buf; lia).
Qed.
