(* ===== verification/Console.v ===== *)
(** * The console: [console.c] and the keyboard ([kbd.c], [kbd.h])

    The keyboard driver turns scan codes into characters; the interrupt handler
    edits a line in a ring of [INPUT_BUF] characters between three 32-bit
    counters; [consoleread] takes finished lines out of it; [cgaputc] puts
    characters on the screen.  The handler and [consoleread] hold [input.lock],
    so they do not interleave; [consoleread] is modelled up to its return or its
    next [sleep]. *)

From S2P Require Import Prelude Bytes CString Ulib.

(** ** The keyboard *)

Definition SHIFT : Z := 1.
Definition CTL : Z := 2.
Definition ALT : Z := 4.
Definition CAPSLOCK : Z := 8.
Definition NUMLOCK : Z := 16.
Definition SCROLLLOCK : Z := 32.
Definition E0ESC : Z := 64.

Definition KEY_HOME : Z := 0xE0.
Definition KEY_END : Z := 0xE1.
Definition KEY_UP : Z := 0xE2.
Definition KEY_DN : Z := 0xE3.
Definition KEY_LF : Z := 0xE4.
Definition KEY_RT : Z := 0xE5.
Definition KEY_PGUP : Z := 0xE6.
Definition KEY_PGDN : Z := 0xE7.
Definition KEY_INS : Z := 0xE8.
Definition KEY_DEL : Z := 0xE9.

(** A C array of 256 bytes with the first elements and some others given. *)
Fixpoint assigned (l : list (Z * Z)) (i : Z) : Z :=
  match l with
  | [] => 0
  | (k, v) :: l' => if i =? k then v else assigned l' i
  end.
Definition table (first : list Z) (others : list (Z * Z)) (i : Z) : Z :=
  if i <? Z.of_nat (length first) then nth (Z.to_nat i) first 0 else assigned others i.

Definition shiftcode : Z -> Z :=
  table [] [(0x1D, CTL); (0x2A, SHIFT); (0x36, SHIFT); (0x38, ALT); (0x9D, CTL); (0xB8, ALT)].
Definition togglecode : Z -> Z :=
  table [] [(0x3A, CAPSLOCK); (0x45, NUMLOCK); (0x46, SCROLLLOCK)].

(** The keys with an escape code, the same in all maps but the first two. *)
Definition cursor_keys : list (Z * Z) :=
  [(0xC8, KEY_UP); (0xD0, KEY_DN); (0xC9, KEY_PGUP); (0xD1, KEY_PGDN); (0xCB, KEY_LF); (0xCD, KEY_RT);
   (0x97, KEY_HOME); (0xCF, KEY_END); (0xD2, KEY_INS); (0xD3, KEY_DEL)].

Definition normalmap : Z -> Z :=
  table
    ([0; 0x1B] ++ chars "1234567890-=" ++ [8; 9] ++ chars "qwertyuiop[]" ++ [10; 0] ++ chars "asdfghjkl;'`" ++ [0; 92] ++
     chars "zxcvbnm,./" ++ [0; 42; 0; 32; 0; 0; 0; 0; 0; 0; 0; 0; 0; 0; 0; 0; 0] ++ chars "789-456+1230." ++ [0; 0; 0; 0])
    ((0x9C, 10) :: (0xB5, 47) :: cursor_keys).

Definition shiftmap : Z -> Z :=
  table
    ([0; 27] ++ chars "!@#$%^&*()_+" ++ [8; 9] ++ chars "QWERTYUIOP{}" ++ [10; 0] ++ chars "ASDFGHJKL:" ++ [34; 126; 0; 124] ++
     chars "ZXCVBNM<>?" ++ [0; 42; 0; 32; 0; 0; 0; 0; 0; 0; 0; 0; 0; 0; 0; 0; 0] ++ chars "789-456+1230." ++ [0; 0; 0; 0])
    ((0x9C, 10) :: (0xB5, 47) :: cursor_keys).

(** [C(x)], the control character of a letter. *)
Definition ctrl (x : Z) : Z := u8 (x - 64).

Definition ctlmap : Z -> Z :=
  table
    (replicate 16 0 ++ (ctrl <$> chars "QWERTYUIOP") ++ [0; 0; 13; 0] ++ (ctrl <$> chars "ASDFGHJKL") ++ [0; 0; 0; 0] ++
     (ctrl <$> [92]) ++ (ctrl <$> chars "ZXCVBNM") ++ [0; 0] ++ (ctrl <$> [47]) ++ [0; 0])
    ((0x9C, 13) :: (0xB5, ctrl 47) :: cursor_keys).

Definition charcode (i : Z) : Z -> Z :=
  if i =? 0 then normalmap else if i =? 1 then shiftmap else ctlmap.

(** [kbdgetc]: [key] is what the controller delivers, [None] when its buffer is
    empty; the character, 0 for none and -1 for no key, and the new [shift]. *)
Definition kbdgetc (key : option Z) (shift : Z) : Z * Z :=
  match key with
  | None => (-1, shift)
  | Some data =>
      if data =? 0xE0 then (0, set_flag shift E0ESC)
      else if has data 0x80 then
        let data := if has shift E0ESC then data else Z.land data 0x7F in
        (0, clr_flag shift (Z.lor (shiftcode data) E0ESC))
      else
        let '(data, shift) := if has shift E0ESC then (Z.lor data 0x80, clr_flag shift E0ESC) else (data, shift) in
        let shift := Z.lxor (Z.lor shift (shiftcode data)) (togglecode data) in
        let c := charcode (Z.land shift (Z.lor CTL SHIFT)) data in
        let c :=
          if has shift CAPSLOCK then
            if (97 <=? c) && (c <=? 122) then u32 (c + 65 - 97)
            else if (65 <=? c) && (c <=? 90) then c + 97 - 65
            else c
          else c in
        (c, shift)
  end.

(** ** The screen *)

Definition BACKSPACE : Z := 0x100.

(** The CGA memory, one 16-bit cell per character, and the cursor. *)
Record cga : Type := Cga { crt : mem; cursor : Z }.

(** [memset(crt + pos, 0, ...)] *)
Definition blank (m : mem) (a n : Z) : mem := fun x => if (a <=? x) && (x <? a + n) then 0 else m x.

Definition cgaputc (c : Z) (g : cga) : cga :=
  let pos := cursor g in
  let '(m, pos) :=
    if c =? 10 then (crt g, pos + (80 - Z.rem pos 80))
    else if c =? BACKSPACE then (crt g, if 0 <? pos then pos - 1 else pos)
    else (poke pos (Z.lor (Z.land c 0xff) 0x0700) (crt g), pos + 1) in
  let '(m, pos) :=
    if 24 <=? Z.quot pos 80 then
      let m := CString.memmove m 0 80 (23 * 80) in
      let pos := pos - 80 in
      (blank m pos (24 * 80 - pos), pos)
    else (m, pos) in
  Cga (poke pos (Z.lor 32 0x0700) m) (u16 pos).

(** The serial line, as the bytes sent, and the screen. *)
Record outputs : Type := Outputs { serial : list Z; display : cga }.

Definition uartputc (c : Z) (o : outputs) : outputs := Outputs (serial o ++ [u8 c]) (display o).

Definition consputc (c : Z) (o : outputs) : outputs :=
  let o :=
    if c =? BACKSPACE then uartputc 8 (uartputc 32 (uartputc 8 o))
    else uartputc c o in
  Outputs (serial o) (cgaputc c (display o)).

(** ** The input line *)

Definition INPUT_BUF : Z := 128.

(** [input], and what the handler did to the rest of the kernel: the arguments of
    [consputc], and the number of calls of [wakeup] and [procdump]. *)
Record console : Type := Console {
  i_buf : list Z;
  i_r : Z;
  i_w : Z;
  i_e : Z;
  echoed : list Z;
  wakeups : nat;
  dumps : nat
}.

Definition with_e (e : Z) (s : console) : console := Console (i_buf s) (i_r s) (i_w s) e (echoed s) (wakeups s) (dumps s).
Definition with_r (r : Z) (s : console) : console := Console (i_buf s) r (i_w s) (i_e s) (echoed s) (wakeups s) (dumps s).
Definition echo_char (c : Z) (s : console) : console :=
  Console (i_buf s) (i_r s) (i_w s) (i_e s) (echoed s ++ [c]) (wakeups s) (dumps s).
Definition procdump_ (s : console) : console :=
  Console (i_buf s) (i_r s) (i_w s) (i_e s) (echoed s) (wakeups s) (S (dumps s)).

(** [input.buf[i % INPUT_BUF]] *)
Definition at_index (i : Z) (s : console) : Z := nth (Z.to_nat (i mod INPUT_BUF)) (i_buf s) 0.

(** The loop of [C('U')]. *)
Fixpoint kill_line (fuel : nat) : M console unit :=
  match fuel with
  | O => fun _ => Fuel
  | S fuel' =>
      let! s := gets id in
      if negb (i_e s =? i_w s) && negb (at_index (u32 (i_e s - 1)) s =? 10) then
        modify (with_e (u32 (i_e s - 1))) ;;;
        modify (echo_char BACKSPACE) ;;;
        kill_line fuel'
      else ret tt
  end.

(** [input.buf[input.e++ % INPUT_BUF] = c] *)
Definition put_char (c : Z) (s : console) : console :=
  Console (<[Z.to_nat (i_e s mod INPUT_BUF) := c]> (i_buf s)) (i_r s) (i_w s) (u32 (i_e s + 1)) (echoed s) (wakeups s) (dumps s).

(** [input.w = input.e; wakeup(&input.r)] *)
Definition finish_line (s : console) : console :=
  Console (i_buf s) (i_r s) (i_e s) (i_e s) (echoed s) (S (wakeups s)) (dumps s).

(** The body of the handler's loop, for one character. *)
Definition consoleintr_char (c : Z) : M console unit :=
  if c =? 16 then modify procdump_
  else if c =? 21 then kill_line (S (Z.to_nat INPUT_BUF))
  else if (c =? 8) || (c =? 127) then
    let! s := gets id in
    if negb (i_e s =? i_w s) then
      modify (with_e (u32 (i_e s - 1))) ;;;
      modify (echo_char BACKSPACE)
    else ret tt
  else
    let! s := gets id in
    if negb (c =? 0) && (u32 (i_e s - i_r s) <? INPUT_BUF) then
      let c := if c =? 13 then 10 else c in
      modify (put_char c) ;;;
      modify (echo_char c) ;;;
      let! s := gets id in
      if (c =? 10) || (c =? 4) || (i_e s =? u32 (i_r s + INPUT_BUF)) then modify finish_line else ret tt
    else ret tt.

(** [consoleintr]: [cs] are the characters [getc] returns before -1. *)
Definition consoleintr (cs : list Z) : M console unit := for_ cs consoleintr_char.

(** How a stretch of [consoleread] ends. *)
Inductive read_end : Type :=
  | Returned (n : Z)
  | Sleeping.

(** The loop of [consoleread] with [n] bytes to go; the bytes stored at [dst]. *)
Fixpoint consoleread_loop (n : nat) (target : Z) (killed : bool) (s : console) : read_end * list Z * console :=
  match n with
  | O => (Returned target, [], s)
  | S n' =>
      if i_r s =? i_w s then ((if killed then Returned (-1) else Sleeping), [], s)
      else
        let c := at_index (i_r s) s in
        let s1 := with_r (u32 (i_r s + 1)) s in
        if c =? 4 then
          (Returned (target - Z.of_nat n), [],
           if Z.of_nat n <? target then with_r (u32 (i_r s1 - 1)) s1 else s1)
        else if c =? 10 then (Returned (target - Z.of_nat n'), [c], s1)
        else let '(r, l, s') := consoleread_loop n' target killed s1 in (r, c :: l, s')
  end.
Definition consoleread (n : nat) (killed : bool) (s : console) : read_end * list Z * console :=
  consoleread_loop n (Z.of_nat n) killed s.

Definition consolewrite (l : list Z) (o : outputs) : outputs := foldl (fun o c => consputc (Z.land c 0xff) o) o l.

(** ** The keyboard's tables *)

(** [P] for all scan codes and all states of the modifier keys. *)
Definition keys : list Z := seqZ 0 256.
Definition shifts : list Z := seqZ 0 128.

Lemma for_keys (f : Z -> Z -> bool) d s :
  forallb (fun d => forallb (f d) shifts) keys = true -> 0 <= d < 256 -> 0 <= s < 128 -> f d s = true.
Proof.
  intros H Hd Hs. rewrite forallb_forall in H. specialize (H d). rewrite forallb_forall in H.
  apply H; apply list_elem_of_In, elem_of_seqZ; lia.
Qed.

(** Every index the driver uses is inside its table, and the characters it
    delivers are bytes. *)
Lemma kbdgetc_range d s :
  0 <= d < 256 -> 0 <= s < 128 -> 0 <= (kbdgetc (Some d) s).1 < 256 /\ 0 <= (kbdgetc (Some d) s).2 < 128.
Proof.
  intros Hd Hs.
  set (f d s := let '(c, s') := kbdgetc (Some d) s in (0 <=? c) && (c <? 256) && (0 <=? s') && (s' <? 128)).
  assert (f d s = true) as H by (apply for_keys; [vm_compute; reflexivity|done|done]).
  unfold f in H. destruct (kbdgetc (Some d) s) as [c s']. cbn [fst snd].
  repeat apply andb_prop in H as [H ?]. lia.
Qed.

(** Pressing and releasing a key that is no modifier leaves the modifiers. *)
Definition plain (d : Z) : bool := (d <? 0x80) && (shiftcode d =? 0) && (togglecode d =? 0).

Lemma kbdgetc_plain d s :
  0 <= d < 256 -> 0 <= s < 64 -> plain d = true ->
  (kbdgetc (Some (d + 0x80)) (kbdgetc (Some d) s).2).2 = s \/ d + 0x80 = 0xE0.
Proof.
  intros Hd Hs Hp.
  set (f d s := negb (plain d) || (64 <=? s) || (d + 0x80 =? 0xE0) || ((kbdgetc (Some (d + 0x80)) (kbdgetc (Some d) s).2).2 =? s)).
  assert (f d s = true) as H by (apply for_keys; [vm_compute; reflexivity|done|lia]).
  unfold f in H. rewrite Hp in H. cbn [negb orb] in H. destruct (Z.leb_spec 64 s); [lia|]. cbn [orb] in H.
  apply orb_prop in H as [H|H]; lia.
Qed.

(** The letter keys. *)
Definition letter_keys : list (Z * Z) :=
  zip (seqZ 0x10 10) (chars "qwertyuiop") ++ zip (seqZ 0x1E 9) (chars "asdfghjkl") ++ zip (seqZ 0x2C 7) (chars "zxcvbnm").

Definition letter_typed (l s : Z) : Z :=
  if has s CTL then l - 96
  else if xorb (has s SHIFT) (has s CAPSLOCK) then l - 32 else l.

Lemma kbdgetc_letter d l s :
  (d, l) ∈ letter_keys -> 0 <= s < 64 -> kbdgetc (Some d) s = (letter_typed l s, s).
Proof.
  intros Hd Hs.
  assert (forallb (fun '(d, l) => forallb (fun s => bool_decide (kbdgetc (Some d) s = (letter_typed l s, s))) (seqZ 0 64)) letter_keys = true) as H
    by (vm_compute; reflexivity).
  rewrite forallb_forall in H. specialize (H (d, l) ltac:(by apply list_elem_of_In)). cbn beta iota in H. rewrite forallb_forall in H.
  specialize (H s). apply bool_decide_eq_true in H; [done|]. apply list_elem_of_In, elem_of_seqZ. lia.
Qed.

(** The states of the driver while keys are pressed and released. *)
Fixpoint kbd_run (codes : list Z) (shift : Z) : list Z * Z :=
  match codes with
  | [] => ([], shift)
  | d :: codes' =>
      let '(c, shift1) := kbdgetc (Some d) shift in
      let '(cs, shift2) := kbd_run codes' shift1 in
      (c :: cs, shift2)
  end.

Lemma kbd_run_range codes shift :
  is_bytes codes -> 0 <= shift < 128 -> is_bytes (kbd_run codes shift).1 /\ 0 <= (kbd_run codes shift).2 < 128.
Proof.
  intros Hc. revert shift. induction Hc as [|d codes Hd Hc IH]; intros shift Hs; [by split; [constructor|]|]. cbn [kbd_run].
  pose proof (kbdgetc_range d shift Hd Hs) as [H1 H2]. destruct (kbdgetc (Some d) shift) as [c shift1]. specialize (IH shift1 H2).
  destruct (kbd_run codes shift1) as [cs shift2]. cbn [fst snd] in *. split; [constructor; [done|apply IH]|apply IH].
Qed.

(** ** The screen *)

Definition screen : Z := 24 * 80.

(** The cursor stays on the screen and nothing outside it is written. *)
Lemma cgaputc_inside c g :
  0 <= cursor g < screen -> 0 <= cursor (cgaputc c g) < screen /\ (forall x, ~ 0 <= x < screen -> crt (cgaputc c g) x = crt g x).
Proof.
  intros Hp. unfold cgaputc, screen in *. set (pos := cursor g) in *.
  assert (exists m1 p1, (if c =? 10 then (crt g, pos + (80 - Z.rem pos 80))
    else if c =? BACKSPACE then (crt g, if 0 <? pos then pos - 1 else pos)
    else (poke pos (Z.lor (Z.land c 0xff) 0x0700) (crt g), pos + 1)) = (m1, p1) /\ 0 <= p1 <= 24 * 80 /\
    forall x, ~ 0 <= x < 24 * 80 -> m1 x = crt g x) as (m1 & p1 & -> & Hp1 & Hm1).
  { destruct (c =? 10).
    - eexists _, _. split; [done|]. split; [|done]. rewrite Z.rem_mod_nonneg by lia.
      pose proof (Z.div_mod pos 80). pose proof (Z.mod_pos_bound pos 80). lia.
    - destruct (c =? BACKSPACE).
      + eexists _, _. split; [done|]. split; [destruct (Z.ltb_spec 0 pos); lia|done].
      + eexists _, _. split; [done|]. split; [lia|]. intros x Hx. unfold poke. zcmp. }
  rewrite Z.quot_div_nonneg by lia. destruct (Z.leb_spec 24 (p1 / 80)) as [Hs|Hs].
  - assert (p1 = 24 * 80) as -> by (pose proof (Z.div_mod p1 80); pose proof (Z.mod_pos_bound p1 80); lia).
    cbn [cursor crt]. split; [vm_compute; split; [discriminate|reflexivity]|]. intros x Hx.
    unfold poke, blank. rewrite memmove_spec by lia. unfold moved. zcmp; by apply Hm1.
  - assert (p1 < 24 * 80) as Hlt by (apply Z.nle_gt; intros H; assert (24 <= p1 / 80) by (apply Z.div_le_lower_bound; lia); lia).
    cbn [cursor crt]. unfold u16, wrap. rewrite (Z.mod_small p1 (2 ^ 16)) by lia.
    split; [lia|]. intros x Hx. unfold poke. zcmp. by apply Hm1.
Qed.

(** ** The queue of characters the ring implements *)

(** [cooked] are the characters of finished lines not yet read, [edit] is the
    line being edited. *)
Record holds_input (s : console) (cooked edit : list Z) : Prop := {
  hi_len : length (i_buf s) = Z.to_nat INPUT_BUF;
  hi_r : 0 <= i_r s < 2 ^ 32;
  hi_w : i_w s = u32 (i_r s + Z.of_nat (length cooked));
  hi_e : i_e s = u32 (i_r s + Z.of_nat (length (cooked ++ edit)));
  hi_cap : Z.of_nat (length (cooked ++ edit)) <= INPUT_BUF;
  hi_data : forall k c, (cooked ++ edit) !! k = Some c -> i_buf s !! Z.to_nat ((i_r s + Z.of_nat k) mod INPUT_BUF) = Some c;
  hi_edit : 10 ∉ edit
}.

Lemma u32_ring x : u32 x mod INPUT_BUF = x mod INPUT_BUF.
Proof.
  unfold u32, wrap, INPUT_BUF. change (2 ^ 32) with (128 * 33554432).
  rewrite Z.rem_mul_r by lia. rewrite Z.mul_comm, Z.mod_add by lia. apply Z.mod_mod. lia.
Qed.

(** Counters less than the ring's size apart are equal when they agree modulo
    [2 ^ 32]. *)
Lemma u32_near r a b : 0 <= a <= INPUT_BUF -> 0 <= b <= INPUT_BUF -> u32 (r + a) = u32 (r + b) -> a = b.
Proof.
  intros Ha Hb E. unfold u32, wrap, INPUT_BUF in *.
  pose proof (Z.div_mod (r + a) (2 ^ 32) ltac:(lia)). pose proof (Z.div_mod (r + b) (2 ^ 32) ltac:(lia)). lia.
Qed.

Lemma holds_at s cooked edit k c :
  holds_input s cooked edit -> (cooked ++ edit) !! k = Some c -> at_index (u32 (i_r s + Z.of_nat k)) s = c.
Proof.
  intros Hs Hk. unfold at_index. rewrite u32_ring. by apply nth_lookup_Some, (hi_data _ _ _ Hs).
Qed.

Lemma holds_edit_empty s cooked edit : holds_input s cooked edit -> (i_e s =? i_w s) = bool_decide (edit = []).
Proof.
  intros [_ _ Hw He Hc _ _]. rewrite Hw, He. case_bool_decide as E.
  - subst. rewrite app_nil_r. apply Z.eqb_refl.
  - apply Z.eqb_neq. intros H%u32_near; [|lia|rewrite length_app in Hc; lia].
    rewrite length_app in H. destruct edit; [done|cbn in H; lia].
Qed.

Lemma holds_back s cooked edit x :
  holds_input s cooked (edit ++ [x]) ->
  at_index (u32 (i_e s - 1)) s = x /\ holds_input (with_e (u32 (i_e s - 1)) s) cooked edit.
Proof.
  intros Hs. assert (u32 (i_e s - 1) = u32 (i_r s + Z.of_nat (length (cooked ++ edit)))) as E.
  { rewrite (hi_e _ _ _ Hs), !length_app. cbn [length]. unfold u32, wrap. rewrite Zminus_mod_idemp_l. f_equal. lia. }
  rewrite E. split.
  - eapply holds_at; [exact Hs|]. rewrite app_assoc. by apply list_lookup_middle.
  - destruct Hs as [H1 H2 H3 H4 H5 H6 H7]. split; cbn; try done.
    + rewrite !length_app in *. cbn in H5. lia.
    + intros k c Hk. apply H6. rewrite app_assoc. by apply lookup_app_l_Some.
    + set_solver.
Qed.

Lemma kill_line_spec cooked edit fuel s :
  holds_input s cooked edit -> (length edit < fuel)%nat ->
  wp (kill_line fuel) (fun _ s' => holds_input s' cooked [] /\
    echoed s' = echoed s ++ replicate (length edit) BACKSPACE /\ wakeups s' = wakeups s) s.
Proof.
  revert fuel s. induction edit as [|x edit IH] using rev_ind; intros fuel s Hs Hf; (destruct fuel as [|fuel]; [lia|]); cbn [kill_line];
    apply wp_bind, wp_gets; unfold id; rewrite (holds_edit_empty _ _ _ Hs).
  - apply wp_ret. cbn. by rewrite app_nil_r.
  - rewrite bool_decide_false by (by destruct edit). destruct (holds_back _ _ _ _ Hs) as [-> Hs1].
    destruct (Z.eqb_spec x 10) as [->|_]; [destruct (hi_edit _ _ _ Hs); apply elem_of_app; right; by left|]. cbn [negb andb].
    apply wp_bind, wp_modify, wp_bind, wp_modify. eapply wp_mono; [apply IH|].
    + by destruct Hs1.
    + rewrite length_app in Hf. cbn in Hf. lia.
    + intros [] s' (H1 & H2 & H3). split; [done|]. cbn in H2, H3. split; [|done]. rewrite H2, length_app, <- app_assoc. cbn.
      rewrite Nat.add_1_r. done.
Qed.

(** What a character does to the line. *)
Definition typed (c : Z) (q : list Z * list Z) : list Z * list Z :=
  let '(cooked, edit) := q in
  if c =? 16 then q
  else if c =? 21 then (cooked, [])
  else if (c =? 8) || (c =? 127) then (cooked, removelast edit)
  else if negb (c =? 0) && (Z.of_nat (length cooked + length edit) <? INPUT_BUF) then
    let c := if c =? 13 then 10 else c in
    let edit := edit ++ [c] in
    if (c =? 10) || (c =? 4) || (Z.of_nat (length cooked + length edit) =? INPUT_BUF) then (cooked ++ edit, [])
    else (cooked, edit)
  else q.

(** Writing behind the characters [q] of a ring. *)
Lemma ring_put buf r q (c : Z) :
  length buf = Z.to_nat INPUT_BUF -> Z.of_nat (length q) < INPUT_BUF ->
  (forall k x, q !! k = Some x -> buf !! Z.to_nat ((r + Z.of_nat k) mod INPUT_BUF) = Some x) ->
  forall k x, (q ++ [c]) !! k = Some x ->
    (<[Z.to_nat ((r + Z.of_nat (length q)) mod INPUT_BUF) := c]> buf : list Z) !! Z.to_nat ((r + Z.of_nat k) mod INPUT_BUF) = Some x.
Proof.
  intros Hl Hlt Hd k x Hk. pose proof (Z.mod_pos_bound (r + Z.of_nat (length q)) INPUT_BUF ltac:(done)) as Hb.
  apply lookup_app_Some in Hk as [Hk|[Hk Hx]].
  - pose proof (lookup_lt_Some _ _ _ Hk) as Hlk. rewrite list_lookup_insert_ne; [by apply Hd|]. intros E.
    pose proof (Z.mod_pos_bound (r + Z.of_nat k) INPUT_BUF ltac:(done)).
    pose proof (Z.div_mod (r + Z.of_nat (length q)) INPUT_BUF ltac:(done)).
    pose proof (Z.div_mod (r + Z.of_nat k) INPUT_BUF ltac:(done)). unfold INPUT_BUF in *. lia.
  - destruct (k - length q)%nat as [|j] eqn:Ej; [|by destruct j].
    assert (k = length q) as -> by lia. injection Hx as ->. apply list_lookup_insert_eq. rewrite Hl. lia.
Qed.

Lemma holds_put_char s cooked edit c :
  holds_input s cooked edit -> Z.of_nat (length (cooked ++ edit)) < INPUT_BUF -> c <> 10 -> holds_input (put_char c s) cooked (edit ++ [c]).
Proof.
  intros [H1 H2 H3 H4 H5 H6 H7] Hlt Hc. unfold put_char. split; cbn [i_buf i_r i_w i_e]; try done.
  - by rewrite length_insert.
  - rewrite H4, u32_add_l, !length_app. cbn [length]. f_equal. lia.
  - rewrite !length_app in *. cbn [length]. lia.
  - rewrite H4, u32_ring, app_assoc. by apply ring_put.
  - set_solver.
Qed.

(** A newline, which ends the line, is put like any other character. *)
Lemma holds_finish s cooked edit c :
  holds_input s cooked edit -> Z.of_nat (length (cooked ++ edit)) < INPUT_BUF ->
  holds_input (finish_line (echo_char c (put_char c s))) (cooked ++ edit ++ [c]) [].
Proof.
  intros [H1 H2 H3 H4 H5 H6 H7] Hlt. unfold finish_line, echo_char, put_char.
  assert (u32 (i_e s + 1) = u32 (i_r s + Z.of_nat (length (cooked ++ edit ++ [c])))) as E.
  { rewrite H4, u32_add_l, !length_app. cbn [length]. f_equal. lia. }
  split; cbn [i_buf i_r i_w i_e]; rewrite ?app_nil_r; try done.
  - by rewrite length_insert.
  - rewrite !length_app in *. cbn [length]. lia.
  - rewrite H4, u32_ring, app_assoc. by apply ring_put.
  - set_solver.
Qed.

Lemma consoleintr_char_spec c s cooked edit :
  holds_input s cooked edit ->
  wp (consoleintr_char c) (fun _ s' => holds_input s' (typed c (cooked, edit)).1 (typed c (cooked, edit)).2) s.
Proof.
  intros Hs. pose proof Hs as [H1 H2 H3 H4 H5 H6 H7]. unfold consoleintr_char, typed.
  destruct (c =? 16); [apply wp_modify; by destruct Hs|]. destruct (c =? 21).
  { eapply wp_mono; [apply (kill_line_spec cooked edit); [done|]|by intros [] s' (? & _)]. rewrite length_app in H5. lia. }
  destruct ((c =? 8) || (c =? 127)).
  { apply wp_bind, wp_gets. unfold id. rewrite (holds_edit_empty _ _ _ Hs). case_bool_decide as E; cbn [negb].
    - subst. by apply wp_ret.
    - destruct edit as [|x edit _] using rev_ind; [done|]. rewrite removelast_last.
      apply wp_bind, wp_modify, wp_modify. destruct (holds_back _ _ _ _ Hs) as [_ Hs1]. by destruct Hs1. }
  apply wp_bind, wp_gets. unfold id.
  assert (u32 (i_e s - i_r s) = Z.of_nat (length cooked + length edit)) as ->.
  { rewrite H4, length_app. unfold u32, wrap. rewrite Zminus_mod_idemp_l. rewrite Z.mod_small; [lia|]. rewrite length_app in H5.
    unfold INPUT_BUF in H5. lia. }
  destruct (negb (c =? 0) && (Z.of_nat (length cooked + length edit) <? INPUT_BUF)) eqn:Etest; [|by apply wp_ret].
  apply andb_prop in Etest as [_ Hlt%Z.ltb_lt]. set (c' := if c =? 13 then 10 else c).
  assert (Z.of_nat (length (cooked ++ edit)) < INPUT_BUF) as Hlt' by (by rewrite length_app).
  apply wp_bind, wp_modify, wp_bind, wp_modify, wp_bind, wp_gets. unfold id. cbn [i_e i_r echo_char put_char].
  assert ((u32 (i_e s + 1) =? u32 (i_r s + INPUT_BUF)) = (Z.of_nat (length cooked + length (edit ++ [c'])) =? INPUT_BUF)) as ->.
  { rewrite H4, u32_add_l, !length_app. cbn [length]. replace (i_r s + Z.of_nat (length cooked + length edit) + 1) with (i_r s + Z.of_nat (length cooked + (length edit + 1))) by lia.
    destruct (Z.eqb_spec (Z.of_nat (length cooked + (length edit + 1))) INPUT_BUF) as [->|Hne]; [apply Z.eqb_refl|].
    apply Z.eqb_neq. intros E%u32_near; [done|lia|unfold INPUT_BUF; lia]. }
  destruct ((c' =? 10) || (c' =? 4) || _) eqn:Eend.
  - apply wp_modify. cbn [fst snd]. by apply holds_finish.
  - apply wp_ret. cbn [fst snd]. assert (c' <> 10) as Hc by (intros E; by rewrite E in Eend).
    destruct (holds_put_char s cooked edit c' Hs Hlt' Hc). by split.
Qed.

Lemma consoleintr_spec cs s cooked edit :
  holds_input s cooked edit ->
  wp (consoleintr cs) (fun _ s' => let q := foldl (fun q c => typed c q) (cooked, edit) cs in holds_input s' q.1 q.2) s.
Proof.
  revert s cooked edit. induction cs as [|c cs IH]; intros s cooked edit Hs; [by apply wp_ret|]. unfold consoleintr. cbn [for_ foldl].
  apply wp_bind. eapply wp_mono; [by apply consoleintr_char_spec|]. intros [] s1 Hs1. destruct (typed c (cooked, edit)) as [ck ed]. by apply IH.
Qed.

(** ** Reading *)

(** A read of [n] characters from the queue [q]; [fresh] as long as it has got
    none: whether it is finished, what it got and what is left.  A control-D ends
    it, and stays in the queue for the next read unless this one got nothing. *)
Fixpoint line_read (n : nat) (fresh : bool) (q : list Z) : bool * list Z * list Z :=
  match n, q with
  | O, _ => (true, [], q)
  | _, [] => (false, [], [])
  | S n', c :: q' =>
      if c =? 4 then (true, [], if fresh then q' else q)
      else if c =? 10 then (true, [c], q')
      else let '(d, l, rest) := line_read n' false q' in (d, c :: l, rest)
  end.

Lemma holds_take s c cooked edit :
  holds_input s (c :: cooked) edit ->
  (i_r s =? i_w s) = false /\ at_index (i_r s) s = c /\ holds_input (with_r (u32 (i_r s + 1)) s) cooked edit.
Proof.
  intros Hs. pose proof Hs as [H1 H2 H3 H4 H5 H6 H7]. split; [|split].
  - apply Z.eqb_neq. rewrite H3. intros E. rewrite length_app in H5. cbn [length] in *.
    rewrite <- (u32_small (i_r s)) in E at 1 by lia. rewrite <- (Z.add_0_r (i_r s)) in E at 1.
    apply u32_near in E; unfold INPUT_BUF in *; lia.
  - pose proof (holds_at s _ _ 0 c Hs eq_refl) as H. rewrite Z.add_0_r, u32_small in H by done. done.
  - split; cbn [with_r i_r i_w i_e i_buf]; try done.
    + apply u32_range.
    + rewrite H3, u32_add_l. cbn [length]. f_equal. lia.
    + rewrite H4, u32_add_l. cbn [length app]. f_equal. lia.
    + cbn [length app] in H5. lia.
    + intros k x Hk. specialize (H6 (S k) x Hk).
      replace ((u32 (i_r s + 1) + Z.of_nat k) mod INPUT_BUF) with ((i_r s + Z.of_nat (S k)) mod INPUT_BUF); [done|].
      rewrite <- (Zplus_mod_idemp_l (u32 (i_r s + 1))), u32_ring, Zplus_mod_idemp_l. f_equal. lia.
Qed.

Lemma holds_none s edit : holds_input s [] edit -> (i_r s =? i_w s) = true.
Proof. intros [_ Hr Hw _ _ _ _]. rewrite Hw. cbn. rewrite Z.add_0_r, u32_small by done. apply Z.eqb_refl. Qed.

Lemma holds_untake s c cooked edit :
  holds_input s (c :: cooked) edit -> with_r (u32 (u32 (i_r s + 1) - 1)) (with_r (u32 (i_r s + 1)) s) = s.
Proof.
  intros [_ Hr _ _ _ _ _]. unfold u32, wrap. rewrite Zminus_mod_idemp_l, Z.add_simpl_r, Z.mod_small by done. by destruct s.
Qed.

Lemma consoleread_loop_spec n target killed s cooked edit :
  holds_input s cooked edit -> Z.of_nat n <= target ->
  let '(d, l, rest) := line_read n (Z.of_nat n =? target) cooked in
  exists s', consoleread_loop n target killed s =
      (if d then Returned (target - Z.of_nat n + Z.of_nat (length l)) else if killed then Returned (-1) else Sleeping, l, s') /\
    holds_input s' rest edit.
Proof.
  revert target s cooked. induction n as [|n IH]; intros target s cooked Hs Hn.
  - exists s. split; [|done]. cbn. do 3 f_equal. lia.
  - destruct cooked as [|c cooked].
    + exists s. cbn [consoleread_loop]. by rewrite (holds_none s edit Hs).
    + destruct (holds_take _ _ _ _ Hs) as (Er & Ea & Hs1). cbn [line_read consoleread_loop]. rewrite Er, Ea. destruct (c =? 4).
      * destruct (Z.eqb_spec (Z.of_nat (S n)) target) as [E|E].
        -- destruct (Z.ltb_spec (Z.of_nat (S n)) target); [lia|]. eexists. split; [|exact Hs1]. do 3 f_equal. cbn. lia.
        -- destruct (Z.ltb_spec (Z.of_nat (S n)) target); [|lia]. cbn [i_r with_r] in *. eexists. split; [do 3 f_equal; cbn; lia|].
           change (Console _ _ _ _ _ _ _) with (with_r (u32 (u32 (i_r s + 1) - 1)) (with_r (u32 (i_r s + 1)) s)). by rewrite (holds_untake _ c cooked edit Hs).
      * destruct (c =? 10); [eexists; split; [|exact Hs1]; do 3 f_equal; cbn; lia|].
        specialize (IH target _ _ Hs1 ltac:(lia)). destruct (Z.eqb_spec (Z.of_nat n) target); [lia|].
        destruct (line_read n false cooked) as [[d l] rest]. destruct IH as (s' & -> & Hs'). exists s'. split; [|done].
        destruct d; [|done]. do 3 f_equal. cbn [length]. lia.
Qed.

Lemma consoleread_spec n killed s cooked edit :
  holds_input s cooked edit ->
  let '(d, l, rest) := line_read n true cooked in
  exists s', consoleread n killed s =
      (if d then Returned (Z.of_nat (length l)) else if killed then Returned (-1) else Sleeping, l, s') /\ holds_input s' rest edit.
Proof.
  intros Hs. pose proof (consoleread_loop_spec n (Z.of_nat n) killed s cooked edit Hs ltac:(lia)) as H. rewrite Z.eqb_refl, Z.sub_diag in H.
  exact H.
Qed.

(** ** A session at the keyboard *)

Inductive session_op : Type :=
  | Keys (cs : list Z)               (* an interrupt that delivers these characters *)
  | ReadLine (n : nat) (killed : bool).  (* [consoleread], from entry or after a wait *)

(** The results of the reads; [None] when the handler does not come back. *)
Fixpoint session (ops : list session_op) (s : console) : option (list (read_end * list Z)) :=
  match ops with
  | [] => Some []
  | Keys cs :: ops' => match consoleintr cs s with Ok _ s' => session ops' s' | _ => None end
  | ReadLine n killed :: ops' =>
      let '(r, l, s') := consoleread n killed s in
      match session ops' s' with Some out => Some ((r, l) :: out) | None => None end
  end.

(** What the reads should see, from the lines alone. *)
Fixpoint expected (ops : list session_op) (q : list Z * list Z) : list (read_end * list Z) :=
  match ops with
  | [] => []
  | Keys cs :: ops' => expected ops' (foldl (fun q c => typed c q) q cs)
  | ReadLine n killed :: ops' =>
      let '(d, l, rest) := line_read n true q.1 in
      (if d then Returned (Z.of_nat (length l)) else if killed then Returned (-1) else Sleeping, l) :: expected ops' (rest, q.2)
  end.

Lemma session_spec ops s cooked edit : holds_input s cooked edit -> session ops s = Some (expected ops (cooked, edit)).
Proof.
  revert s cooked edit. induction ops as [|[cs|n killed] ops IH]; intros s cooked edit Hs; cbn [session expected]; [done|..].
  - destruct (wp_run _ _ _ (consoleintr_spec cs s cooked edit Hs)) as ([] & s' & -> & Hs').
    rewrite (IH _ _ _ Hs'). by destruct (foldl _ _ _).
  - pose proof (consoleread_spec n killed s cooked edit Hs) as H. cbn [fst snd]. destruct (line_read n true cooked) as [[d l] rest].
    destruct H as (s' & -> & Hs'). by rewrite (IH _ _ _ Hs').
Qed.

(** The console after boot. *)
Definition console_init : console := Console (replicate (Z.to_nat INPUT_BUF) 0) 0 0 0 [] 0 0.

Lemma console_init_holds : holds_input console_init [] [].
Proof. split; try done. set_solver. Qed.
