(* ===== verification/Trap.v ===== *)
(** * Traps and interrupts ([trap.c], [traps.h])

    Every entry into the kernel.  A trap that ends the process or gives up the
    CPU is modelled up to the call of [sched].  Interrupts of the keyboard and
    the serial line run the console's handler, whose state is passed along. *)

From S2P Require Import Prelude Bytes Params CString FsState Log Fs Kalloc Vm Pipe Kernel File Proc Syscall Exec Console.

Definition T_SYSCALL : Z := 64.
Definition T_IRQ0 : Z := 32.
Definition IRQ_TIMER : Z := 0.
Definition IRQ_KBD : Z := 1.
Definition IRQ_COM1 : Z := 4.
Definition IRQ_IDE : Z := 14.
Definition IRQ_SPURIOUS : Z := 31.

(** Offsets in [struct trapframe]. *)
Definition tf_trapno : Z := 48.
Definition tf_err : Z := 52.

Section Trap.
(** Those of [syscall]; the number of the CPU, whether it runs no process, and
    its register cr2; the characters the keyboard and the serial line deliver. *)
Context (kend data trapret forkret : Z) (dv : devsw) (implicit_exit junk : list Z).
Context (cpuid : Z) (no_proc : bool) (cr2 : Z) (kbd_chars uart_chars : list Z).

(** [consoleintr] on the console, and its [wakeup]s on the process table. *)
Definition console_interrupt (cs : list Z) (c : console) : M kernel console := fun k =>
  match consoleintr cs c with
  | Ok _ c' => ((if (wakeups c <? wakeups c')%nat then wakeup ch_input else ret tt) ;;; ret c') k
  | Panic msg => Panic msg
  | Sleep _ _ | Fuel => Fuel
  end.
Definition kbdintr : console -> M kernel console := console_interrupt kbd_chars.
Definition uartintr : console -> M kernel console := console_interrupt uart_chars.

(** [ideintr] of [memide.c] *)
Definition ideintr : M kernel unit := ret tt.

(** The last part of [trap]: a killed process does not return to user space, and
    a tick of the clock makes the process give up the CPU. *)
Definition trap_leave (trapno cs : Z) (c : console) : M kernel console :=
  if no_proc then ret c
  else
    let! p := gets cur_proc in
    if negb (p_killed p =? 0) && (Z.land cs 3 =? DPL_USER) then
      exit kend 0 ;;;
      ret c
    else if decide (p_state p = RUNNING) then
      if trapno =? T_IRQ0 + IRQ_TIMER then
        yield ;;;
        ret c
      else ret c
    else ret c.

(** After the switch back from [yield]. *)
Definition trap_resume (cs : Z) : M kernel unit :=
  let! p := gets cur_proc in
  if negb (p_killed p =? 0) && (Z.land cs 3 =? DPL_USER) then exit kend 0 else ret tt.

(** The process comes back from a system call running, unless it has exited in
    it. *)
Definition trap_syscall (tf : Z) : M kernel unit :=
  let! p := gets cur_proc in
  if negb (p_killed p =? 0) then exit kend 0
  else
    on_cur (set_tf tf) ;;;
    syscall kend data trapret forkret dv implicit_exit junk ;;;
    let! p := gets cur_proc in
    if decide (p_state p = RUNNING) then
      if negb (p_killed p =? 0) then exit kend 0 else ret tt
    else ret tt.

Definition trap (tf : Z) (c : console) : M kernel console :=
  let! trapno := with_mem (peek (tf + tf_trapno)) in
  let! cs := with_mem (peek (tf + tf_cs)) in
  let cs := u16 cs in
  let! eip := with_mem (peek (tf + tf_eip)) in
  if trapno =? T_SYSCALL then
    trap_syscall tf ;;;
    ret c
  else if trapno =? T_IRQ0 + IRQ_TIMER then
    (if cpuid =? 0 then
       modify (fun s => set_ticks (u32 (k_ticks s + 1)) s) ;;;
       wakeup ch_ticks
     else ret tt) ;;;
    trap_leave trapno cs c
  else if trapno =? T_IRQ0 + IRQ_IDE then
    ideintr ;;;
    trap_leave trapno cs c
  else if trapno =? T_IRQ0 + IRQ_IDE + 1 then trap_leave trapno cs c
  else if trapno =? T_IRQ0 + IRQ_KBD then
    let! c := kbdintr c in
    trap_leave trapno cs c
  else if trapno =? T_IRQ0 + IRQ_COM1 then
    let! c := uartintr c in
    trap_leave trapno cs c
  else if (trapno =? T_IRQ0 + 7) || (trapno =? T_IRQ0 + IRQ_SPURIOUS) then
    print (SpuriousInterrupt cpuid cs eip) ;;;
    trap_leave trapno cs c
  else if no_proc || (Z.land cs 3 =? 0) then panic "trap"
  else
    let! err := with_mem (peek (tf + tf_err)) in
    let! p := gets cur_proc in
    print (KillProc (p_pid p) (p_name p) trapno err cpuid eip cr2) ;;;
    on_cur (set_killed 1) ;;;
    trap_leave trapno cs c.
End Trap.
