(* ===== verification/ProcSpec.v ===== *)
(** * What the process routines do

    [allocproc], [fork], [exit] and [waitpid] specified on whole kernel
    states, against the specifications of the page-table layer. *)

From S2P Require Import Prelude Bytes Params CString FsState Log Fs Kalloc Vm VmMap VmSpace VmFree Pipe Kernel File Proc.

(** ** Running parts of the kernel *)

Lemma wp_with_mem {A} (m : M kmem A) Q s :
  wp m (fun a k => Q a (set_mem k s)) (k_mem s) -> wp (with_mem m) Q s.
Proof. unfold wp, with_mem. by destruct (m (k_mem s)). Qed.

Lemma wp_with_fs {A} (m : M kst A) Q s :
  wp m (fun a f => Q a (wake_all (wakeups f) (set_fs f s))) (clear_wakeups (k_fs s)) -> wp (with_fs m) Q s.
Proof. unfold wp, with_fs. by destruct (m _). Qed.

(** ** The process table

    States in which slot [i] of a table holds the process [q]. *)

Definition at_slot (s : kernel) (i : nat) (q : proc) : kernel := set_ptable (<[i := q]> (k_ptable s)) s.

Lemma at_slot_id s i : (i < length (k_ptable s))%nat -> at_slot s i (proc_at i s) = s.
Proof.
  intros Hi. unfold at_slot, proc_at. destruct (lookup_lt_is_Some_2 _ _ Hi) as [p Hp]. rewrite Hp. simpl.
  rewrite list_insert_id by done. by destruct s.
Qed.

Lemma proc_at_slot s i q : (i < length (k_ptable s))%nat -> proc_at i (at_slot s i q) = q.
Proof. intros Hi. unfold proc_at, at_slot; simpl. by rewrite list_lookup_insert_eq. Qed.

Lemma proc_at_slot_ne s i j q : i <> j -> proc_at j (at_slot s i q) = proc_at j s.
Proof. intros Hne. unfold proc_at, at_slot; simpl. by rewrite list_lookup_insert_ne. Qed.

Lemma wp_on_proc i f Q s q :
  (i < length (k_ptable s))%nat -> Q tt (at_slot s i (f q)) -> wp (on_proc i f) Q (at_slot s i q).
Proof.
  intros Hi HQ. unfold on_proc. apply wp_modify.
  replace (set_ptable _ (at_slot s i q)) with (at_slot s i (f q)); [done|].
  unfold at_slot; simpl. unfold set_ptable; simpl. f_equal.
  apply list_eq. intros j. destruct (decide (i = j)) as [->|Hne].
  - rewrite list_lookup_alter_eq, !list_lookup_insert_eq by done. done.
  - by rewrite list_lookup_alter_ne, !list_lookup_insert_ne by done.
Qed.

Lemma set_mem_at_slot s i q k : set_mem k (at_slot s i q) = at_slot (set_mem k s) i q.
Proof. done. Qed.

Lemma set_nextpid_at_slot s i q n : set_nextpid n (at_slot s i q) = at_slot (set_nextpid n s) i q.
Proof. done. Qed.

(** ** [allocproc] *)

(** The lowest slot that is not in use. *)
Definition lowest_unused (s : kernel) (i : nat) : Prop :=
  (i < NPROC)%nat /\ p_state (proc_at i s) = UNUSED /\
  forall j, (j < i)%nat -> p_state (proc_at j s) <> UNUSED.

Lemma scan_unused s a n i :
  (a <= i < a + n)%nat -> p_state (proc_at i s) = UNUSED -> (forall j, (a <= j < i)%nat -> p_state (proc_at j s) <> UNUSED) ->
  first_ (seq a n) (fun i => let! p := gets (proc_at i) in
    ret (if decide (p_state p = UNUSED) then Some i else None)) s = Ok (Some i) s.
Proof.
  revert a. induction n as [|n IH]; intros a Ha Hi Hj; [lia|]. simpl. unfold bind, gets, ret.
  destruct (decide (p_state (proc_at a s) = UNUSED)) as [E|E].
  - destruct (decide (a = i)) as [->|]; [done|]. by destruct (Hj a ltac:(lia)).
  - apply IH; [|done|intros j Hj'; apply Hj; lia]. destruct (decide (a = i)) as [->|]; [done|lia].
Qed.

Lemma scan_unused_none s a n :
  (forall j, (a <= j < a + n)%nat -> p_state (proc_at j s) <> UNUSED) ->
  first_ (seq a n) (fun i => let! p := gets (proc_at i) in
    ret (if decide (p_state p = UNUSED) then Some i else None)) s = Ok None s.
Proof.
  revert a. induction n as [|n IH]; intros a Hj; [done|]. simpl. unfold bind, gets, ret.
  destruct (decide (p_state (proc_at a s) = UNUSED)) as [E|E]; [by destruct (Hj a ltac:(lia))|].
  apply IH. intros j Hj'. apply Hj. lia.
Qed.

Section ProcSpec.
Context (kend data trapret forkret : Z) (dv : devsw).
Hypothesis (Hkend : KERNBASE < kend) (Htrap : 0 <= trapret < 2 ^ 32) (Hfork : 0 <= forkret < 2 ^ 32).

#[local] Abbreviation page_ok := (page_ok kend).
#[local] Abbreviation kmem_ok := (kmem_ok kend).

(** No free slot: nothing happens. *)
Lemma allocproc_full s :
  (forall j, (j < NPROC)%nat -> p_state (proc_at j s) <> UNUSED) -> allocproc trapret forkret s = Ok None s.
Proof.
  intros H. unfold allocproc, bind at 1. rewrite scan_unused_none; [done|]. intros j Hj. apply H. lia.
Qed.

(** The addresses [allocproc] lays out in the kernel stack [k]. *)
Definition stack_tf (k : Z) : Z := k + KSTACKSIZE - TF_SIZE.
Definition stack_context (k : Z) : Z := stack_tf k - 4 - CONTEXT_SIZE.

(** A new process's kernel stack: [swtch] starts [forkret] with cleared
    registers, and [forkret] returns to [trapret]. *)
Record stack_ready (m : mem) (k : Z) : Prop := {
  sr_ret : load32 m (stack_tf k - 4) = trapret;
  sr_eip : load32 m (stack_context k + context_eip) = forkret;
  sr_regs : forall o, 0 <= o < context_eip -> m (stack_context k + o) = 0
}.

(** Taking a page off the free list and writing to it. *)
Lemma kmem_take km k l m u :
  kmem_ok km (k :: l) -> (forall x, ~ in_page k x -> m x = km_mem km x) ->
  kmem_ok (Kmem m u (load32 (km_mem km) k)) l.
Proof.
  intros [(_ & _ & Hc) Hp Hn] Hm. apply Forall_cons in Hp as [Hk Hp]. apply NoDup_cons in Hn as [Hkl Hn].
  split; [|done|done]. eapply chained_ext; [|exact Hc]. intros q x Hq Hx. apply Hm. intros Hx'.
  rewrite Forall_forall in Hp. assert (q = k) as ->; [|done].
  apply (in_page_eq kend q k x); [by apply Hp|done|unfold in_page, PGSIZE; lia|done].
Qed.

Lemma stack_ready_ext m m' k :
  (forall x, in_page k x -> x < stack_tf k -> m' x = m x) -> stack_ready m k -> stack_ready m' k.
Proof.
  intros Hlow [Hr1 Hr2 Hr3].
  assert (PGSIZE = 4096 /\ KSTACKSIZE = 4096 /\ TF_SIZE = 76 /\ CONTEXT_SIZE = 20 /\ context_eip = 16) as (E1 & E2 & E3 & E4 & E5) by done.
  unfold stack_context, stack_tf, in_page in *.
  split; [rewrite <- Hr1; apply load32_ext|rewrite <- Hr2; apply load32_ext|intros o Ho; rewrite <- (Hr3 o Ho)];
    intros; apply Hlow; unfold stack_context, stack_tf; lia.
Qed.

Lemma stack_built m k :
  let m' := store32 (stack_context k + context_eip) (u32 forkret)
    (memset (store32 (stack_tf k - 4) (u32 trapret) m) (stack_context k) 0 CONTEXT_SIZE) in
  stack_ready m' k /\ forall x, ~ in_page k x -> m' x = m x.
Proof.
  rewrite (u32_small forkret), (u32_small trapret) by done. intros m'.
  assert (forall x, m' x = store32 (stack_context k + context_eip) forkret
    (filled (store32 (stack_tf k - 4) trapret m) (stack_context k) 0 CONTEXT_SIZE) x) as Hm'.
  { intros x. unfold m', store32, poke. rewrite !memset_spec by done. done. }
  clearbody m'. split; [split|].
  - transitivity (load32 (store32 (stack_tf k - 4) trapret m) (stack_tf k - 4)); [|by apply load32_store32].
    apply load32_ext. intros x Hx. rewrite Hm', store32_other by (unfold stack_context, context_eip, CONTEXT_SIZE; lia).
    unfold filled, stack_context, CONTEXT_SIZE. zcmp.
  - transitivity (load32 (store32 (stack_context k + context_eip) forkret
      (filled (store32 (stack_tf k - 4) trapret m) (stack_context k) 0 CONTEXT_SIZE)) (stack_context k + context_eip));
      [apply load32_ext; intros x _; apply Hm'|by apply load32_store32].
  - intros o Ho. rewrite Hm', store32_other by lia. unfold filled, CONTEXT_SIZE, context_eip in *. zcmp.
  - intros x Hx. unfold in_page, stack_context, stack_tf, context_eip, CONTEXT_SIZE, KSTACKSIZE, TF_SIZE, PGSIZE in *.
    rewrite Hm', store32_other by lia. unfold filled. zcmp; apply store32_other; lia.
Qed.

Definition new_proc (n k : Z) (p : proc) : proc :=
  set_context (stack_context k) (set_tf (stack_tf k) (set_kstack k (set_pid n (set_state EMBRYO p)))).

Lemma allocproc_spec s i k l :
  length (k_ptable s) = NPROC -> lowest_unused s i -> kmem_ok (k_mem s) (k :: l) ->
  wp (allocproc trapret forkret) (fun r s' => r = Some i /\ exists km,
    s' = at_slot (set_nextpid (s32 (k_nextpid s + 1)) (set_mem km s)) i (new_proc (k_nextpid s) k (proc_at i s)) /\
    kmem_ok km l /\ stack_ready (km_mem km) k /\
    forall x, ~ in_page k x -> km_mem km x = km_mem (k_mem s) x) s.
Proof.
  intros Hlen (Hi & Hun & Hlow) Hk. destruct (kalloc_cons kend _ _ _ Hk) as [Hk0 Ek].
  assert (page_ok k) as Hpk by (destruct Hk as [_ Hp _]; by apply Forall_cons in Hp as [? _]).
  destruct (page_range_ok kend Hkend k Hpk) as (Hkr & Hka & _).
  unfold allocproc. apply wp_bind, wp_ok. eexists _, s. split; [apply (scan_unused s 0 NPROC i); [lia|done|intros j Hj; apply Hlow; lia]|].
  cbn match. rewrite <- (at_slot_id s i) at 1 by lia. apply wp_bind, wp_on_proc; [lia|].
  apply wp_bind, wp_gets. apply wp_bind, wp_on_proc; [lia|]. apply wp_bind, wp_modify. rewrite set_nextpid_at_slot.
  apply wp_bind, wp_with_mem. apply wp_ok. eexists _, _. split; [exact Ek|]. rewrite set_mem_at_slot.
  apply wp_bind, wp_on_proc; [simpl; lia|]. destruct (Z.eqb_spec k 0); [done|].
  apply wp_bind, wp_on_proc; [simpl; lia|]. apply wp_bind. unfold kstore. apply wp_with_mem, wp_modify.
  rewrite set_mem_at_slot. apply wp_bind, wp_on_proc; [simpl; lia|]. apply wp_bind, wp_with_mem, wp_modify.
  rewrite set_mem_at_slot. apply wp_bind, wp_with_mem, wp_modify. rewrite set_mem_at_slot. apply wp_ret.
  split; [done|]. eexists. split; [reflexivity|]. cbn [km_mem k_mem set_mem set_nextpid at_slot set_ptable use_lock freelist].
  destruct (stack_built (km_mem (k_mem s)) k) as [Hst Hout]. split; [by apply kmem_take|]. by split.
Qed.

(** ** [fork] *)

(** The reference counts after duplicating the descriptors [os]. *)
Definition dup_one (ft : list file) (o : option nat) : list file :=
  match o with Some f => alter (fun x => f_with_ref (f_ref x + 1) x) f ft | None => ft end.
Definition dup_refs (os : list (option nat)) (ft : list file) : list file := foldl dup_one ft os.

Lemma dup_refs_length os ft : length (dup_refs os ft) = length ft.
Proof.
  revert ft. induction os as [|o os IH]; intros ft; simpl; [done|]. rewrite IH. destruct o; simpl; [apply length_alter|done].
Qed.

(** Every file gains as many references as the child has descriptors for it. *)
Lemma dup_refs_lookup os ft f x :
  ft !! f = Some x ->
  dup_refs os ft !! f = Some (f_with_ref (f_ref x + Z.of_nat (length (filter (fun o => o = Some f) os))) x).
Proof.
  revert ft x. induction os as [|o os IH]; intros ft x Hx; simpl.
  - rewrite Hx. f_equal. destruct x; unfold f_with_ref; simpl. f_equal. lia.
  - destruct (decide (o = Some f)) as [->|Hne].
    + rewrite filter_cons_True by done. rewrite (IH _ (f_with_ref (f_ref x + 1) x)).
      * f_equal. unfold f_with_ref; simpl. f_equal. lia.
      * simpl. by rewrite list_lookup_alter_eq, Hx.
    + rewrite filter_cons_False by done. apply IH. destruct o as [g|]; simpl; [|done].
      rewrite list_lookup_alter_ne; [done|]. by intros ->.
Qed.

(** The descriptors [os] refer to open files. *)
Definition files_open (os : list (option nat)) (ft : list file) : Prop :=
  forall f, Some f ∈ os -> exists x, ft !! f = Some x /\ 1 <= f_ref x.

(** The loop of [fork] over the parent's descriptors [os]. *)
Definition dup_loop (np : nat) (os : list (option nat)) : M kernel unit :=
  for_ (seq 0 NOFILE) (fun i =>
    match default None (os !! i) with
    | None => ret tt
    | Some f =>
        let! f' := filedup f in
        on_proc np (fun q => set_ofile (<[i := Some f']> (p_ofile q)) q)
    end).

Lemma dup_loop_spec s i q os :
  (i < length (k_ptable s))%nat -> length os = NOFILE -> p_ofile q = replicate NOFILE None -> files_open os (k_ftable s) ->
  wp (dup_loop i os) (fun _ s' => s' = at_slot (set_ftable (dup_refs os (k_ftable s)) s) i (set_ofile os q)) (at_slot s i q).
Proof.
  intros Hi Hos Hq Hopen. set (I (n : nat) (s' : kernel) :=
    s' = at_slot (set_ftable (dup_refs (take n os) (k_ftable s)) s) i (set_ofile (take n os ++ replicate (NOFILE - n) None) q)).
  unfold dup_loop. eapply wp_mono; [apply (wp_for I)|].
  - unfold I. rewrite Nat.sub_0_r, <- Hq. by destruct s, q.
  - intros n j s1 [-> Hn]%lookup_seq ->. rewrite Nat.add_0_l. rewrite <- Hos in Hn.
    destruct (lookup_lt_is_Some_2 _ _ Hn) as [o Ho]. rewrite Ho. simpl default.
    assert (I (S n) (at_slot (set_ftable (dup_one (dup_refs (take n os) (k_ftable s)) o) s) i
      (set_ofile (take n os ++ o :: replicate (NOFILE - S n) None) q))) as HI.
    { unfold I. rewrite (take_S_r _ _ _ Ho). unfold dup_refs. rewrite foldl_app. simpl. by rewrite <- app_assoc. }
    assert (length (take n os) = n) as Hln by (apply length_take_le; lia).
    replace (NOFILE - n)%nat with (S (NOFILE - S n)) by lia.
    destruct o as [f|]; simpl id; [|exact HI].
    destruct (Hopen f) as (x & Hx & Hr); [by eapply list_elem_of_lookup_2|].
    apply wp_bind. unfold filedup. apply wp_bind, wp_gets. unfold file_at. cbn [k_ftable at_slot set_ftable set_ptable].
    rewrite (dup_refs_lookup _ _ _ _ Hx). simpl default. cbn [f_ref f_with_ref].
    destruct (Z.ltb_spec (f_ref x + Z.of_nat (length (filter (λ o, o = Some f) (take n os)))) 1); [lia|].
    apply wp_bind, wp_modify, wp_ret. eapply wp_eq; [|apply (wp_on_proc i (fun q => set_ofile (<[n := Some f]> (p_ofile q)) q) _
      (set_ftable (dup_one (dup_refs (take n os) (k_ftable s)) (Some f)) s)); [done|]]; [reflexivity|].
    replace (set_ofile _ (set_ofile _ q)) with (set_ofile (take n os ++ Some f :: replicate (NOFILE - S n) None) q); [exact HI|].
    unfold set_ofile; simpl. f_equal. rewrite insert_app_r_alt by lia. rewrite Hln, Nat.sub_diag. done.
  - intros ? s' E. unfold I in E. rewrite length_seq in E. replace (take NOFILE os) with os in E by (by rewrite take_ge by lia).
    by rewrite Nat.sub_diag, app_nil_r in E.
Qed.

(** What [fork] needs: a free slot [i], a kernel stack and enough memory for
    the copy, and a parent whose image is intact. *)
Record fork_ready (s : kernel) (i : nat) (k : Z) (l : list Z) (T : gmap Z Z) (stk : Z) (c : nat) : Prop := {
  fr_table : length (k_ptable s) = NPROC;
  fr_slot : lowest_unused s i;
  fr_files : p_ofile (proc_at i s) = replicate NOFILE None;
  fr_cur : k_cur s <> i;
  fr_size : 0 <= p_sz (cur_proc s) < KERNBASE;
  fr_user : user_ok kend (k_mem s) (k :: l) (p_pgdir (cur_proc s)) T (npages 0 (p_sz (cur_proc s)));
  fr_room : (1025 + npages 0 (p_sz (cur_proc s)) < length l)%nat;
  fr_stack : page_ok stk /\ (stk ∉ k :: l) /\ stk <= p_tf (cur_proc s) /\ p_tf (cur_proc s) + TF_SIZE <= stk + PGSIZE;
  fr_open : length (p_ofile (cur_proc s)) = NOFILE /\ files_open (p_ofile (cur_proc s)) (k_ftable s);
  fr_cwd : p_cwd (cur_proc s) = Some c
}.

(** The child's process structure. *)
Definition child_of (s : kernel) (i : nat) (k d : Z) : proc :=
  let p := cur_proc s in
  let q := new_proc (k_nextpid s) k (proc_at i s) in
  Proc (p_sz p) d k RUNNABLE (k_nextpid s) (Some (k_cur s)) (stack_tf k) (stack_context k) (p_chan q) (p_killed q)
    (p_ofile p) (p_cwd p) (copy_name (p_name q) (p_name p)) (p_exit_status q) (p_job p) (p_pending q) (p_signal_handlers q).

(** The trap frame of the child: the parent's, except that the system call
    returns 0. *)
Record tf_copied (m m' : mem) (tf tf' : Z) : Prop := {
  tc_eax : load32 m' (tf' + tf_eax) = 0;
  tc_rest : forall o, 0 <= o < TF_SIZE -> ~ tf_eax <= o < tf_eax + 4 -> m' (tf' + o) = m (tf + o)
}.

Lemma user_ok_take k l pgdir T n km ka :
  user_ok kend ka (k :: l) pgdir T n -> kmem_ok km l -> (forall x, ~ in_page k x -> km_mem km x = km_mem ka x) ->
  user_ok kend km l pgdir T n /\ (forall j, vpage j -> entry (km_mem km) T j = entry (km_mem ka) T j).
Proof.
  intros [[Hk Hs Ha] HU] Hkm Hm.
  assert (page_ok k) as Hpk by (destruct Hk as [_ Hp _]; by apply Forall_cons in Hp as [? _]).
  destruct (space_ext kend (km_mem ka) (km_mem km) pgdir T) as [Hs' He']; [|done|].
  { intros p x Hp Hx. apply Hm. intros Hx'. assert (page_ok p) as Hpp by (by eapply owned_ok).
    apply (Ha p Hp). rewrite (in_page_eq kend p k x) by done. by left. }
  split; [|done]. split; [split; [done|done|intros p Hp Hl; apply (Ha p Hp); by right]|].
  intros j Hj. destruct (decide (vpage (Z.of_nat j))) as [Hv|Hv].
  - rewrite He' by done. destruct (HU j Hj) as (? & ? & Hn & Hno). do 2 (split; [done|]). split; [|done]. intros Hl. apply Hn. by right.
  - exfalso. destruct (HU j Hj) as (Hp & _). unfold entry in Hp.
    destruct (T !! (Z.of_nat j / NPTENTRIES)) as [t|] eqn:Et; [|done].
    destruct (sp_tab _ _ _ _ Hs _ _ Et) as (Hr & _). apply Hv. unfold vpage, NPDENTRIES, NPTENTRIES in *.
    pose proof (Z.div_mod (Z.of_nat j) 1024). pose proof (Z.mod_pos_bound (Z.of_nat j) 1024). lia.
Qed.

(** Copying a trap frame between two kernel stacks. *)
Lemma tf_copy m tf tf' :
  tf' + TF_SIZE <= tf \/ tf + TF_SIZE <= tf' ->
  let m' := store32 (tf' + tf_eax) (u32 0) (memmove m tf' tf TF_SIZE) in
  tf_copied m m' tf tf' /\ forall x, ~ tf' <= x < tf' + TF_SIZE -> m' x = m x.
Proof.
  intros Hd m'. split; [split|].
  - apply load32_store32. by vm_compute.
  - intros o Ho He. unfold m'. rewrite store32_other by lia. rewrite memmove_spec by done. unfold moved.
    destruct (Z.leb_spec tf' (tf' + o)), (Z.ltb_spec (tf' + o) (tf' + TF_SIZE)); try lia. simpl. f_equal. lia.
  - intros x Hx. unfold m'. rewrite store32_other by (unfold tf_eax, TF_SIZE in *; lia). rewrite memmove_spec by done.
    unfold moved. zcmp.
Qed.

(** The memory after a successful fork: the child [d] has its own copy of every
    user page of the parent, at the same addresses with the same flags, and its
    kernel stack [k]; every other page is as it was. *)
Record forked_mem (s : kernel) (km : kmem) (k : Z) (l : list Z) (T : gmap Z Z) (d : Z) : Prop := {
  fm_image : exists xs l' T' F, l = xs ++ l' /\ vm_ok kend km l' d T' /\
    length F = npages 0 (p_sz (cur_proc s)) /\ NoDup F /\
    (forall p, p ∈ F -> p ∈ xs /\ ~ owns_page d T' p) /\
    (forall j, vpage j -> entry (km_mem km) T' j =
       placed 0 F (fun n => PTE_FLAGS (entry (km_mem (k_mem s)) T (Z.of_nat n))) (kernel_map data) j) /\
    (forall n p o, F !! n = Some p -> 0 <= o < PGSIZE ->
       km_mem km (p + o) = km_mem (k_mem s) (frame (entry (km_mem (k_mem s)) T (Z.of_nat n)) + o)) /\
    (forall x, ~ in_page k x -> (forall p, p ∈ xs -> ~ in_page p x) -> km_mem km x = km_mem (k_mem s) x);
  fm_tf : tf_copied (km_mem (k_mem s)) (km_mem km) (p_tf (cur_proc s)) (stack_tf k);
  fm_stack : stack_ready (km_mem km) k
}.

(** Writing the trap frame of the child after its image has been built. *)
Lemma fork_memory s i k l T stk c km1 d km2 xs l' T' F :
  fork_ready s i k l T stk c -> kmem_ok km1 l -> stack_ready (km_mem km1) k ->
  (forall x, ~ in_page k x -> km_mem km1 x = km_mem (k_mem s) x) ->
  length F = npages 0 (p_sz (cur_proc s)) ->
  populated kend no_page km1 l d 0 (fun n => PTE_FLAGS (entry (km_mem km1) T (Z.of_nat n)))
    (fun n o => km_mem km1 (frame (entry (km_mem km1) T (Z.of_nat n)) + o)) (kernel_map data) km2 xs l' T' F ->
  forked_mem s (Kmem (store32 (stack_tf k + tf_eax) (u32 0) (memmove (km_mem km2) (stack_tf k) (p_tf (cur_proc s)) TF_SIZE))
    (use_lock km2) (freelist km2)) k l T d.
Proof.
  intros [_ _ _ _ Hsz HU _ (Hstk & Hstl & Hst1 & Hst2) _ _] Hkm1 Hready Hm1 HL [B HN HO HE HM].
  destruct (user_ok_take _ _ _ _ _ _ _ HU Hkm1 Hm1) as [_ He1].
  pose proof (vo_free _ _ _ _ _ (uo_vm _ _ _ _ _ _ HU)) as Hk0.
  assert (page_ok k /\ (k ∉ l)) as [Hpk Hkl].
  { destruct Hk0 as [_ Hp Hn]. apply Forall_cons in Hp as [? _]. by apply NoDup_cons in Hn as [? _]. }
  destruct (tf_copy (km_mem km2) (p_tf (cur_proc s)) (stack_tf k)) as [[Htc1 Htc2] Hout].
  { destruct (pages_apart k stk) as [|]; [apply Hpk|apply Hstk|by intros ->; apply Hstl; left| |];
      unfold stack_tf, KSTACKSIZE, TF_SIZE, PGSIZE in *; lia. }
  set (m3 := store32 _ _ _) in *.
  assert (forall x, ~ in_page k x -> m3 x = km_mem km2 x) as Hok.
  { intros x Hx. apply Hout. unfold stack_tf, in_page, KSTACKSIZE, TF_SIZE, PGSIZE in *. lia. }
  assert (forall p x, page_ok p -> p <> k -> in_page p x -> m3 x = km_mem km2 x) as Hpg.
  { intros p x Hp Hne Hx. by eapply Hok, page_other. }
  assert (forall p, p ∈ xs ++ l' -> p ∈ l) as Hsub by (intros p; by rewrite <- (bt_list _ _ _ _ _ _ _ _ _ B)).
  assert (forall p, p ∈ l -> page_ok p /\ p <> k) as Hlk.
  { intros p Hp. destruct Hkm1 as [_ Hf _]. rewrite Forall_forall in Hf. split; [by apply Hf|by intros ->]. }
  pose proof (bt_ok _ _ _ _ _ _ _ _ _ B) as [Hk2 Hs2 Ha2].
  destruct (space_ext kend (km_mem km2) m3 d T') as [Hs3 He3]; [|done|].
  { intros p x Hp Hx. destruct (Hlk p) as [Hp1 Hp2]; [|by apply (Hpg p)].
    destruct (bt_own _ _ _ _ _ _ _ _ _ B p Hp) as [[]|Hx']. apply Hsub, elem_of_app. by left. }
  assert (forall x, in_page k x -> km_mem km2 x = km_mem km1 x) as Hk21.
  { intros x Hx. eapply built_keeps; [exact B|done|exact Hpk|done|done]. }
  split.
  - exists xs, l', T', F. split; [apply B|]. split; [split|].
    + apply kmem_ok_frame; [done|]. intros p x Hp Hx. destruct (Hlk p) as [Hp1 Hp2]; [|by apply (Hpg p)].
      apply Hsub, elem_of_app. by right.
    + done.
    + done.
    + split; [done|]. split; [done|]. split; [intros p Hp; by destruct (HO p Hp) as (? & _ & ? & _)|]. split; [|split].
      * intros j Hj. cbn [km_mem]. rewrite He3, HE by done. unfold placed. destruct (_ <=? _); [|done].
        destruct (F !! _) as [p|] eqn:Ep; [|done]. f_equal. f_equal. f_equal. apply He1.
        apply lookup_lt_Some in Ep. pose proof (npages_bound 0 (p_sz (cur_proc s)) ltac:(lia) ltac:(lia)). rewrite first_page_0 in *.
        unfold vpage. lia.
      * intros n p o Hp Ho. cbn [km_mem]. assert (p ∈ F) as HpF by (by eapply list_elem_of_lookup_2).
        destruct (HO p HpF) as (Hpx & Hpp & _). destruct (Hlk p) as [_ Hpk']; [apply Hsub, elem_of_app; by left|].
        rewrite (Hpg p) by (done || unfold in_page; lia). rewrite (HM n p o Hp Ho).
        apply lookup_lt_Some in Hp. pose proof (npages_bound 0 (p_sz (cur_proc s)) ltac:(lia) ltac:(lia)). rewrite first_page_0 in *.
        rewrite He1 by (unfold vpage; lia). destruct (uo_entry _ _ _ _ _ _ HU n ltac:(lia)) as (_ & Hfp & Hfl & _).
        eapply Hm1, page_other; [exact Hfp|exact Hpk|by intros E; apply Hfl; rewrite E; left|unfold in_page; lia].
      * intros x Hx Hxs. cbn [km_mem]. rewrite Hok, (bt_mem _ _ _ _ _ _ _ _ _ B), Hm1; [done|done| |done]. intros p [[]|Hp]. by apply Hxs.
  - split; [done|]. intros o Ho He. cbn [km_mem]. rewrite Htc2 by done.
    rewrite (built_keeps kend km1 l d km2 xs l' T' stk (p_tf (cur_proc s) + o) B Hkm1 Hstk).
    + eapply Hm1, page_other; [exact Hstk|exact Hpk|by intros E; apply Hstl; rewrite E; left|unfold in_page; lia].
    + intros Hx. apply Hstl. by right.
    + unfold in_page. lia.
  - apply (stack_ready_ext (km_mem km1)); [|done]. intros x Hx Hlt. cbn [km_mem]. rewrite Hout by lia. by apply Hk21.
Qed.

(** The kernel after a successful fork. *)
Definition forked (s : kernel) (i : nat) (k d : Z) (c : nat) (km : kmem) : kernel :=
  at_slot (set_fs (on_inode c (fun p => i_with_ref (i_ref p + 1) p) (clear_wakeups (k_fs s)))
    (set_ftable (dup_refs (p_ofile (cur_proc s)) (k_ftable s))
      (set_nextpid (s32 (k_nextpid s + 1)) (set_mem km s)))) i (child_of s i k d).

Lemma cur_at_slot s i q : k_cur s <> i -> cur_proc (at_slot s i q) = cur_proc s.
Proof. intros Hne. unfold cur_proc. by apply proc_at_slot_ne. Qed.

Lemma set_fs_at_slot s i q f : set_fs f (at_slot s i q) = at_slot (set_fs f s) i q.
Proof. done. Qed.

Lemma fork_spec s i k l T stk c :
  data_ok data -> fork_ready s i k l T stk c ->
  wp (fork kend data trapret forkret) (fun r s' => r = k_nextpid s /\ exists d km,
    s' = forked s i k d c km /\ forked_mem s km k l T d) s.
Proof.
  intros Hd Hr. pose proof Hr as [Hlen Hslot Hfil Hcur Hsz HU Hroom Hstk [Hol Hop] Hcwd].
  pose proof Hslot as (Hi & _ & _).
  pose proof (vo_free _ _ _ _ _ (uo_vm _ _ _ _ _ _ HU)) as Hk0.
  unfold fork. apply wp_bind. wp_use (allocproc_spec s i k l); try done.
  intros r s1 (-> & km1 & -> & Hk1 & Hst1 & Hm1).
  set (s1 := set_nextpid _ _). assert (length (k_ptable s1) = NPROC) as Hlen1 by done.
  apply wp_bind, wp_gets. rewrite cur_at_slot by done. change (cur_proc s1) with (cur_proc s).
  destruct (user_ok_take _ _ _ _ _ _ _ HU Hk1 Hm1) as [HU1 _].
  apply wp_bind, wp_with_mem. change (k_mem (at_slot s1 i _)) with km1.
  wp_use (copyuvm_spec kend data Hkend km1 l (p_pgdir (cur_proc s)) T (p_sz (cur_proc s)) 0); try done; try lia.
  intros d km2 (Hd0 & xs & l' & T' & F & HL & _ & HP). rewrite set_mem_at_slot. set (s2 := set_mem km2 s1).
  assert (forall km, length (k_ptable (set_mem km s2)) = NPROC) as Hlen2 by done.
  apply wp_bind, wp_on_proc; [simpl; lia|]. destruct (Z.eqb_spec d 0); [done|].
  apply wp_bind, wp_on_proc; [simpl; lia|]. apply wp_bind, wp_gets.
  apply wp_bind, wp_on_proc; [simpl; lia|]. apply wp_bind, wp_on_proc; [simpl; lia|].
  apply wp_bind, wp_gets. rewrite proc_at_slot by (simpl; lia).
  apply wp_bind, wp_with_mem, wp_modify. rewrite set_mem_at_slot.
  apply wp_bind. unfold kstore. apply wp_with_mem, wp_modify. rewrite set_mem_at_slot.
  set (s3 := set_mem _ _). set (q3 := set_job _ _).
  apply wp_bind. wp_use (dup_loop_spec s3 i q3 (p_ofile (cur_proc s))); [simpl; lia|done|done|done|].
  intros _ s4 ->. set (s4 := set_ftable _ _). rewrite Hcwd.
  apply wp_bind, wp_bind, wp_with_fs. unfold idup. apply wp_bind, wp_modify, wp_ret. cbn [wakeups on_inode clear_wakeups].
  unfold wake_all; cbn [foldl]. rewrite set_fs_at_slot. apply wp_ret.
  apply wp_bind, wp_on_proc; [simpl; lia|]. apply wp_bind, wp_on_proc; [simpl; lia|].
  apply wp_bind, wp_gets. rewrite proc_at_slot by (simpl; lia). apply wp_bind, wp_on_proc; [simpl; lia|]. apply wp_ret.
  split; [done|]. exists d, (k_mem s3). split.
  - unfold forked, child_of. rewrite <- Hcwd. reflexivity.
  - exact (fork_memory s i k l T stk c km1 d km2 xs l' T' F Hr Hk1 Hst1 Hm1 HL HP).
Qed.
End ProcSpec.
