(* ===== verification/UserInit.v ===== *)
(** * The first user process

    [inituvm] and [userinit]: the image of [initcode] at address 0, and a process
    that will start there.  [forkret], where it and every other process begins. *)

From S2P Require Import Prelude Bytes Params CString FsState Log Fs FsInode Kalloc Vm VmMap VmSpace VmUser Kernel Proc ProcSpec.

Lemma put_bytes_code l : forall a m x,
  put_bytes a l m x = if (a <=? x) && (x <? a + Z.of_nat (length l)) then nth (Z.to_nat (x - a)) l 0 else m x.
Proof.
  induction l as [|c l IH]; intros a m x; cbn [put_bytes length].
  - destruct (Z.leb_spec a x), (Z.ltb_spec x (a + Z.of_nat 0)); try done; lia.
  - rewrite IH. unfold poke. cbv beta. destruct (Z.eqb_spec x a) as [->|Hne].
    + destruct (Z.leb_spec (a + 1) a); [lia|]. rewrite Z.leb_refl, (proj2 (Z.ltb_lt a (a + Z.of_nat (S (length l))))), Z.sub_diag by lia. done.
    + destruct (Z.leb_spec (a + 1) x), (Z.leb_spec a x), (Z.ltb_spec x (a + 1 + Z.of_nat (length l))), (Z.ltb_spec x (a + Z.of_nat (S (length l))));
        try lia; cbn [andb]; try done. by replace (Z.to_nat (x - a)) with (S (Z.to_nat (x - (a + 1)))) by lia.
Qed.

(** A fork child's very first scheduling will [swtch] here; [first] is the static
    variable, and the result its new value. *)
Definition forkret_ (first : bool) : M kernel bool :=
  (if first then with_fs initlog else ret tt) ;;;
  ret false.

(** The inode cache of a kernel that has just started. *)
Lemma boot_icache_ok D n : icache_ok (icache (boot D n)).
Proof.
  split; cbn [icache boot].
  - apply length_replicate.
  - intros i p [-> _]%lookup_replicate. done.
  - intros i j p p' dev inum [-> _]%lookup_replicate _ (Hr & _) _. by cbn in Hr.
Qed.

Section UserInit.
Context (kend data trapret forkret : Z) (dv : devsw).
Hypothesis (Hkend : KERNBASE < kend) (Htrap : 0 <= trapret < 2 ^ 32) (Hfork : 0 <= forkret < 2 ^ 32).

#[local] Abbreviation page_ok := (page_ok kend).
#[local] Abbreviation kmem_ok := (kmem_ok kend).
#[local] Abbreviation populated := (populated kend).

(** ** [inituvm] *)

(** Rewriting the pages of an image, and writing elsewhere. *)
Lemma populated_refill P k l d n0 perms C C' f k' xs l' T' F m :
  populated P k l d n0 perms C f k' xs l' T' F ->
  (forall x, (forall p, p ∈ F -> ~ in_page p x) -> m x = km_mem k' x) ->
  (forall i p o, F !! i = Some p -> 0 <= o < PGSIZE -> m (p + o) = C' i o) ->
  populated P k l d n0 perms C' f (Kmem m (use_lock k') (freelist k')) xs l' T' F.
Proof.
  intros [[[Hk Hs Ha] El O M] HN HO HE HM] Hm HC.
  assert (Hapart : forall q x, page_ok q -> q ∉ F -> in_page q x -> m x = km_mem k' x).
  { intros q x Hq HqF Hx. apply Hm. intros p Hp Hx'. destruct (HO p Hp) as (_ & Hpok & _). apply HqF. by rewrite (in_page_eq kend q p x). }
  destruct (space_ext kend (km_mem k') m d T') as [Hs2 He2]; [|done|].
  { intros q x Hq Hx. apply (Hapart q); [by eapply owned_ok| |done]. intros Hf. by destruct (HO q Hf) as (_ & _ & ? & _). }
  split; [split; [split| | |]|done|done| |done].
  - apply kmem_ok_frame; [done|]. intros p x Hp Hx. apply (Hapart p); [|intros Hf; by destruct (HO p Hf) as (_ & _ & _ & ?)|done].
    destruct Hk as [_ Hf _]. rewrite Forall_forall in Hf. by apply Hf.
  - done.
  - done.
  - done.
  - done.
  - intros x Hx. cbn [km_mem]. rewrite Hm; [by apply M|]. intros p Hp. apply Hx. right. by destruct (HO p Hp).
  - intros j Hj. cbn [km_mem]. rewrite He2 by done. by apply HE.
Qed.

Lemma inituvm_spec k l pgdir T init x :
  vm_ok kend k l pgdir T -> room l T (S x) -> Z.of_nat (length init) < PGSIZE -> has (entry (km_mem k) T 0) PTE_P = false ->
  wp (inituvm pgdir init (Z.of_nat (length init))) (fun _ k' => exists xs l' T' p, room l' T' x /\
    populated (owns_page pgdir T) k l pgdir 0 (fun _ => Z.lor PTE_W PTE_U) (fun _ o => nth (Z.to_nat o) init 0)
      (entry (km_mem k) T) k' xs l' T' [p]) k.
Proof.
  intros Hv HR Hlen Hfree. unfold inituvm. destruct (Z.leb_spec PGSIZE (Z.of_nat (length init))); [lia|].
  destruct (room_cons kend _ _ _ _ _ (vo_space _ _ _ _ _ Hv) HR) as (p & l2 & ->).
  destruct (kalloc_cons kend k p l2 (vo_free _ _ _ _ _ Hv)) as [Hp0 Ek]. apply wp_bind, wp_ok. eexists _, _. split; [exact Ek|].
  unfold on_mem. apply wp_bind, wp_modify. cbn [km_mem use_lock freelist]. apply wp_bind.
  assert (HP : populated (owns_page pgdir T) k (p :: l2) pgdir 0 (fun _ => Z.lor PTE_W PTE_U) (fun _ _ => 0) (entry (km_mem k) T) k [] (p :: l2) T []).
  { split; [split; [done|done|by left|done]|constructor|set_solver|intros j Hj|by intros i q o].
    unfold placed. rewrite lookup_nil. by destruct (_ <=? _). }
  wp_use (populate_step kend Hkend _ _ _ _ _ (fun _ => Z.lor PTE_W PTE_U) (fun _ _ => 0) _ _ _ _ _ _ _
    (memset (km_mem k) p 0 PGSIZE) (use_lock k) x HP); [apply Hv|done|lia|done|done|done| | |].
  - intros y Hy. rewrite memset_spec by done. unfold filled, in_page in *. zcmp.
  - intros o Ho. rewrite memset_spec by done. unfold filled. by zcmp.
  - intros r k2 (-> & xs2 & l3 & T2 & HP2 & HR2). apply wp_modify. exists xs2, l3, T2, p. split; [done|].
    rewrite take_ge by lia. eapply populated_refill; [exact HP2| |].
    + intros y Hy. rewrite put_bytes_code. specialize (Hy p ltac:(by left)). unfold in_page in Hy. zcmp.
    + intros i q o Hq Ho. apply list_lookup_singleton_Some in Hq as [-> <-]. rewrite put_bytes_code.
      replace (p + o - p) with o by lia. destruct (Z.leb_spec p (p + o)); [|lia]. destruct (Z.ltb_spec (p + o) (p + Z.of_nat (length init))); [done|].
      cbn [andb]. rewrite (pp_mem _ _ _ _ _ _ _ _ _ _ _ _ _ _ HP2 0%nat p) by done. symmetry. apply nth_overflow. lia.
Qed.

(** The hardware finds a page of the image. *)
Lemma populated_vtrans P k l d n0 C f k' xs l' T' F i p va :
  populated P k l d n0 (fun _ => Z.lor PTE_W PTE_U) C f k' xs l' T' F -> F !! i = Some p -> 0 <= n0 -> va / PGSIZE = n0 + Z.of_nat i -> 0 <= va < 2 ^ 32 ->
  vtrans (km_mem k') d va true = Some (p + va mod PGSIZE) /\ km_mem k' (p + va mod PGSIZE) = C i (va mod PGSIZE).
Proof.
  intros HP Hp Hn Eva Hva.
  assert (page_ok p) as Hok by (apply (pp_own _ _ _ _ _ _ _ _ _ _ _ _ _ _ HP); by eapply list_elem_of_lookup_2).
  assert (entry (km_mem k') T' (va / PGSIZE) = Z.lor (v2p p) (Z.lor (Z.lor PTE_W PTE_U) PTE_P)) as E.
  { rewrite (pp_entry _ _ _ _ _ _ _ _ _ _ _ _ _ _ HP) by (by apply vpage_va). unfold placed. rewrite Eva.
    destruct (Z.leb_spec n0 (n0 + Z.of_nat i)); [|lia]. replace (Z.to_nat _) with i by lia. rewrite Hp. symmetry. apply Z.lor_assoc. }
  rewrite (vtrans_spec kend Hkend _ _ T') by (done || apply (pp_built _ _ _ _ _ _ _ _ _ _ _ _ _ _ HP)).
  cbv zeta. rewrite E. rewrite (has_entry (v2p p) _ PTE_P), (has_entry (v2p p) _ PTE_W) by (done || by apply (v2p_aligned kend)).
  unfold frame. rewrite (entry_frame kend) by done.
  split; [done|]. apply (pp_mem _ _ _ _ _ _ _ _ _ _ _ _ _ _ HP i p); [done|by apply Z.mod_pos_bound].
Qed.

(** ** [userinit] *)

(** The trap frame [userinit] writes, from its first byte on: all zero but the
    segments, the flags, and the stack at the end of the page. *)
Definition first_frame : mem :=
  let us := Z.lor (Z.shiftl SEG_UDATA 3) DPL_USER in
  store32 tf_eip 0 (store32 tf_esp PGSIZE (store32 tf_eflags FL_IF (store16 tf_ss us (store16 tf_es us (store16 tf_ds us
    (store16 tf_cs (Z.lor (Z.shiftl SEG_UCODE 3) DPL_USER) (fun _ => 0))))))).

Definition frame_is (tf : Z) (m m' : mem) : Prop := forall o, 0 <= o < TF_SIZE -> m (tf + o) = m' o.

Lemma frame_is_store32 tf b v m m' : frame_is tf m m' -> frame_is tf (store32 (tf + b) v m) (store32 b v m').
Proof. intros H o Ho. unfold store32, poke. zcmp; try done. by apply H. Qed.

Lemma frame_is_store16 tf b v m m' : frame_is tf m m' -> frame_is tf (store16 (tf + b) v m) (store16 b v m').
Proof. intros H o Ho. unfold store16, poke. zcmp; try done. by apply H. Qed.

Lemma frame_is_cleared tf m : frame_is tf (memset m tf 0 TF_SIZE) (fun _ => 0).
Proof. intros o Ho. rewrite memset_spec by done. unfold filled. by zcmp. Qed.

(** Writing to a page that is neither free nor part of the address space. *)
Lemma user_ok_write k l d T n q m : user_ok kend k l d T n -> Z.of_nat n <= 2 ^ 20 -> page_ok q -> q ∉ l -> ~ owns_page d T q ->
  (forall x, ~ in_page q x -> m x = km_mem k x) ->
  user_ok kend (Kmem m (use_lock k) (freelist k)) l d T n /\ forall j, vpage j -> entry m T j = entry (km_mem k) T j.
Proof.
  intros [[Hk Hs Ha] HU] Hn Hq Hl Ho Hm.
  assert (Hapart : forall p x, page_ok p -> p <> q -> in_page p x -> m x = km_mem k x).
  { intros p x Hp Hne Hx. apply Hm. intros Hx'. apply Hne. by apply (in_page_eq kend p q x). }
  destruct (space_ext kend (km_mem k) m d T) as [Hs2 He2]; [|done|].
  { intros p x Hp Hx. apply (Hapart p); [by eapply owned_ok|by intros ->|done]. }
  split; [|done]. split; [split; [|done|done]|].
  - apply kmem_ok_frame; [done|]. intros p x Hp Hx. apply (Hapart p); [|by intros ->|done].
    destruct Hk as [_ Hf _]. rewrite Forall_forall in Hf. by apply Hf.
  - intros i Hi. cbn [km_mem]. rewrite He2 by (unfold vpage; lia). by apply HU.
Qed.

(** The page table and the page of [initcode], from [setupkvm] and [inituvm]; the
    other pages in use are as they were. *)
Lemma image_built km l init x :
  kmem_ok km l -> data_ok data -> (1026 + x < length l)%nat -> Z.of_nat (length init) < PGSIZE ->
  wp (let! d := setupkvm data in inituvm d init (Z.of_nat (length init)) ;;; ret d) (fun d k' => d <> 0 /\ exists l' T' p,
    user_ok kend k' l' d T' 1 /\ room l' T' x /\ (forall q, q ∈ l' -> q ∈ l) /\ (forall q, owns_page d T' q -> q ∈ l) /\ p ∈ l /\ page_ok p /\
    (forall va, 0 <= va < PGSIZE -> vtrans (km_mem k') d va true = Some (p + va) /\ km_mem k' (p + va) = nth (Z.to_nat va) init 0) /\
    forall q y, page_ok q -> q ∉ l -> in_page q y -> km_mem k' y = km_mem km y) km.
Proof.
  intros Hk Hd Hlen Hinit. apply wp_bind. wp_use (setupkvm_spec kend data Hkend km l (S x) Hk Hd); [lia|].
  intros d k2 (Hd0 & xs & l2 & T2 & B & R & E). pose proof (bt_ok _ _ _ _ _ _ _ _ _ B) as V. pose proof (bt_list _ _ _ _ _ _ _ _ _ B) as El.
  assert (O2 : forall q, owns_page d T2 q -> q ∈ xs) by (intros q Hq; by destruct (bt_own _ _ _ _ _ _ _ _ _ B q Hq)).
  apply wp_bind. wp_use (inituvm_spec k2 l2 d T2 init x V R Hinit).
  { rewrite E by done. by rewrite kernel_map_user. }
  intros [] k3 (ys & l3 & T3 & p & R3 & HP). pose proof (pp_built _ _ _ _ _ _ _ _ _ _ _ _ _ _ HP) as B3.
  pose proof (bt_list _ _ _ _ _ _ _ _ _ B3) as El3.
  destruct (pp_own _ _ _ _ _ _ _ _ _ _ _ _ _ _ HP p) as (Hpy & Hp & _); [by left|].
  assert (I : forall q, q ∈ xs \/ q ∈ ys \/ q ∈ l3 -> q ∈ l) by (intros q Hq; rewrite El, El3, !elem_of_app; tauto).
  apply wp_ret. split; [done|]. exists l3, T3, p. split; [|split; [done|split; [by auto|split; [|split; [by auto|split; [done|split]]]]]].
  - eapply (populated_user kend Hkend _ _ _ _ _ _ _ _ _ _ _ [p]); [exact HP|done|done].
  - intros q Hq. destruct (bt_own _ _ _ _ _ _ _ _ _ B3 q Hq) as [?%O2|?]; auto.
  - intros va Hva. destruct (populated_vtrans _ _ _ _ _ _ _ _ _ _ _ _ 0 p va HP) as [W1 W2]; [done|done|by rewrite Z.div_small|unfold PGSIZE in *; lia|].
    by rewrite Z.mod_small in W1, W2.
  - intros q y Hq Hql Hy. assert (page_other : forall r, r ∈ l -> ~ in_page r y).
    { intros r Hr Hy'. destruct Hk as [_ Hf _]. rewrite Forall_forall in Hf. apply Hql. by rewrite (in_page_eq kend q r y Hq (Hf r Hr)). }
    rewrite (bt_mem _ _ _ _ _ _ _ _ _ B3), (bt_mem _ _ _ _ _ _ _ _ _ B); [done| |].
    + intros r [[]|Hr]. apply page_other. auto.
    + intros r [Hr%O2|Hr]; apply page_other; auto.
Qed.

(** The stores of [userinit] into the frame. *)
Definition write_frame (tf : Z) (m : mem) : mem :=
  let us := Z.lor (Z.shiftl SEG_UDATA 3) DPL_USER in
  store32 (tf + tf_eip) (u32 0) (store32 (tf + tf_esp) (u32 PGSIZE) (store32 (tf + tf_eflags) (u32 FL_IF) (store16 (tf + tf_ss) us
    (store16 (tf + tf_es) us (store16 (tf + tf_ds) us (store16 (tf + tf_cs) (Z.lor (Z.shiftl SEG_UCODE 3) DPL_USER) (memset m tf 0 TF_SIZE))))))).

Lemma write_frame_spec tf m : frame_is tf (write_frame tf m) first_frame /\ forall x, ~ tf <= x < tf + TF_SIZE -> write_frame tf m x = m x.
Proof.
  split.
  - unfold write_frame, first_frame. change (u32 0) with 0. change (u32 PGSIZE) with PGSIZE. change (u32 FL_IF) with FL_IF.
    do 3 apply frame_is_store32. do 4 apply frame_is_store16. apply frame_is_cleared.
  - intros x Hx. unfold TF_SIZE in Hx. unfold write_frame, store16. rewrite !store32_other by (unfold tf_eip, tf_esp, tf_eflags; lia).
    unfold tf_ss, tf_es, tf_ds, tf_cs, poke. rewrite memset_spec by done. unfold filled, TF_SIZE. zcmp.
Qed.

(** Both calls, one after the other. *)
Lemma image_runs km l init x :
  kmem_ok km l -> data_ok data -> (1026 + x < length l)%nat -> Z.of_nat (length init) < PGSIZE ->
  exists d k2 k3 l' T' p, setupkvm data km = Ok d k2 /\ inituvm d init (Z.of_nat (length init)) k2 = Ok tt k3 /\ d <> 0 /\
    user_ok kend k3 l' d T' 1 /\ room l' T' x /\ (forall q, q ∈ l' -> q ∈ l) /\ (forall q, owns_page d T' q -> q ∈ l) /\ p ∈ l /\ page_ok p /\
    (forall va, 0 <= va < PGSIZE -> vtrans (km_mem k3) d va true = Some (p + va) /\ km_mem k3 (p + va) = nth (Z.to_nat va) init 0) /\
    forall q y, page_ok q -> q ∉ l -> in_page q y -> km_mem k3 y = km_mem km y.
Proof.
  intros Hk Hd Hlen Hinit. destruct (wp_run _ _ _ (image_built km l init x Hk Hd Hlen Hinit)) as (d & k3 & E & Hd0 & l' & T' & p & H).
  unfold bind, ret in E. destruct (setupkvm data km) as [d' k2| | |] eqn:E1; try discriminate.
  destruct (inituvm d' init _ k2) as [[] k3'| | |] eqn:E2; try discriminate. injection E as -> ->. by exists d, k2, k3, l', T', p.
Qed.

(** The frame is written to the kernel stack, which is no part of the image. *)
Lemma image_framed km k3 k (l : list Z) d l' T' p init : page_ok k -> k ∉ l -> user_ok kend k3 l' d T' 1 ->
  (forall q, q ∈ l' -> q ∈ l) -> (forall q, owns_page d T' q -> q ∈ l) -> p ∈ l -> page_ok p ->
  (forall va, 0 <= va < PGSIZE -> vtrans (km_mem k3) d va true = Some (p + va) /\ km_mem k3 (p + va) = nth (Z.to_nat va) init 0) ->
  (forall q y, page_ok q -> q ∉ l -> in_page q y -> km_mem k3 y = km_mem km y) -> stack_ready trapret forkret (km_mem km) k ->
  let m := write_frame (stack_tf k) (km_mem k3) in
  user_ok kend (Kmem m (use_lock k3) (freelist k3)) l' d T' 1 /\ stack_ready trapret forkret m k /\ frame_is (stack_tf k) m first_frame /\
  forall va, 0 <= va < PGSIZE -> exists a, vtrans m d va true = Some a /\ m a = nth (Z.to_nat va) init 0.
Proof.
  intros Hpk Hkl HU HL HO Hpl Hp HV Hkeep Hst m. destruct (write_frame_spec (stack_tf k) (km_mem k3)) as [Hfr Hfo]. fold m in Hfr, Hfo.
  assert (PGSIZE = 4096 /\ KSTACKSIZE = 4096 /\ TF_SIZE = 76) as (C1 & C2 & C3) by done.
  assert (Hout : forall x, ~ in_page k x -> m x = km_mem k3 x) by (intros x Hx; apply Hfo; unfold in_page, stack_tf in *; lia).
  destruct (user_ok_write k3 l' d T' 1 k m HU ltac:(lia) Hpk) as [HU4 HE4]; [by intros ?%HL|by intros ?%HO|done|].
  split; [done|]. split; [|split; [done|]].
  - eapply stack_ready_ext; [|exact Hst]. intros x Hx Hlow. rewrite Hfo by lia. by apply (Hkeep k).
  - intros va Hva. destruct (HV va Hva) as [V1 V2]. exists (p + va). split.
    + assert (Hv : 0 <= va < 2 ^ 32) by lia. rewrite <-V1.
      rewrite (vtrans_spec kend Hkend m d T') by (done || apply HU4). rewrite (vtrans_spec kend Hkend _ d T') by (done || apply HU).
      by rewrite HE4 by (by apply vpage_va).
    + rewrite Hout; [done|]. apply (page_other kend p k); [done|done|by intros ->|unfold in_page; lia].
Qed.

(** The first process as [userinit] leaves it. *)
Record first_process (s : kernel) (q : proc) (k : Z) (init : list Z) : Prop := {
  fp_state : p_state q = RUNNABLE;
  fp_kstack : p_kstack q = k;
  fp_tf : p_tf q = stack_tf k;
  fp_context : p_context q = stack_context k;
  fp_size : p_sz q = PGSIZE;
  fp_stack : stack_ready trapret forkret (km_mem (k_mem s)) k;
  fp_frame : frame_is (stack_tf k) (km_mem (k_mem s)) first_frame;
  fp_image : forall va, 0 <= va < PGSIZE -> exists a, vtrans (km_mem (k_mem s)) (p_pgdir q) va true = Some a /\ km_mem (k_mem s) a = nth (Z.to_nat va) init 0;
  fp_cwd : exists ip, p_cwd q = Some ip /\ caches_inode (inode_at ip (k_fs s)) ROOTDEV ROOTINO
}.

Lemma userinit_spec s i k l init x :
  length (k_ptable s) = NPROC -> lowest_unused s i -> kmem_ok (k_mem s) (k :: l) -> data_ok data -> (1026 + x < length l)%nat ->
  Z.of_nat (length init) < PGSIZE -> icache_ok (icache (k_fs s)) ->
  (exists j p, icache (k_fs s) !! j = Some p /\ (caches_inode p ROOTDEV ROOTINO \/ i_ref p = 0)) ->
  wp (userinit data trapret forkret dv init) (fun _ s' => k_initproc s' = Some i /\ p_pid (proc_at i s') = k_nextpid s /\
    first_process s' (proc_at i s') k init /\ (forall j, j <> i -> proc_at j s' = proc_at j s) /\
    (exists l' T', user_ok kend (k_mem s') l' (p_pgdir (proc_at i s')) T' 1 /\ room l' T' x /\ forall q, q ∈ l' -> q ∈ l) /\
    forall q y, page_ok q -> q ∉ k :: l -> in_page q y -> km_mem (k_mem s') y = km_mem (k_mem s) y) s.
Proof.
  intros Hlen Hun Hk Hd Hl Hinit Hic Hroot. assert (Hi : (i < NPROC)%nat) by apply Hun. unfold userinit. apply wp_bind.
  wp_use (allocproc_spec kend trapret forkret Hkend Htrap Hfork s i k l Hlen Hun Hk).
  intros r s1 (-> & km & -> & Hk1 & Hst & Hout). apply wp_bind, wp_modify.
  destruct (image_runs km l init x Hk1 Hd Hl Hinit) as (d & k2 & k3 & l' & T' & p & E1 & E2 & Hd0 & HU & HR & HL & HO & Hpl & Hp & HV & Hkeep).
  assert (Hpk : page_ok k) by (destruct Hk as [_ Hf _]; by apply Forall_cons in Hf as [? _]).
  assert (Hkl : k ∉ l) by (destruct Hk as [_ _ Hn]; by apply NoDup_cons in Hn as [? _]).
  set (q0 := new_proc _ _ _). set (s0 := set_initproc (Some i) (set_nextpid (s32 (k_nextpid s + 1)) s)).
  change (set_initproc (Some i) (at_slot _ i q0)) with (at_slot (set_mem km s0) i q0).
  assert (Hi0 : forall k, (i < length (k_ptable (set_mem k s0)))%nat) by (intros; cbn; lia).
  apply wp_bind, wp_with_mem, wp_ok. exists d, k2. split; [exact E1|]. apply wp_bind. apply (wp_on_proc i _ _ (set_mem k2 s0)); [apply Hi0|].
  destruct (Z.eqb_spec d 0); [done|]. apply wp_bind, wp_with_mem, wp_ok. exists tt, k3. split; [exact E2|].
  apply wp_bind. apply (wp_on_proc i _ _ (set_mem k3 s0)); [apply Hi0|]. apply wp_bind, wp_gets. rewrite proc_at_slot by apply Hi0.
  set (q2 := set_sz PGSIZE _). change (p_tf q2) with (stack_tf k).
  apply wp_bind, wp_with_mem, wp_modify. do 7 (apply wp_bind; unfold kstore, kstore16; apply wp_with_mem, wp_modify).
  set (k4 := Kmem (write_frame (stack_tf k) (km_mem k3)) (use_lock k3) (freelist k3)).
  match goal with |- wp ?t ?Q _ => change (wp t Q (at_slot (set_mem k4 s0) i q2)) end.
  apply wp_bind. apply (wp_on_proc i _ _ (set_mem k4 s0)); [apply Hi0|]. set (q3 := set_name _ q2).
  apply wp_bind, wp_with_fs. apply wp_bind, wp_bind. cbn [hd]. change (47 =? slash) with true. cbn match.
  wp_use (iget_spec (clear_wakeups (k_fs s)) ROOTDEV ROOTINO Hic Hroot).
  intros ip f (p0 & p1 & Hip & -> & Hic' & Hc & _). apply wp_ret, wp_ret. cbn [fst].
  set (f1 := on_inode _ _ _). change (wake_all (wakeups f1) _) with (at_slot (set_fs f1 (set_mem k4 s0)) i q3).
  assert (Hi1 : (i < length (k_ptable (set_fs f1 (set_mem k4 s0))))%nat) by (cbn; lia).
  apply wp_bind. apply wp_on_proc; [done|]. apply wp_bind. apply wp_on_proc; [done|]. apply wp_on_proc; [done|].
  split; [done|]. rewrite proc_at_slot by done. split; [done|].
  destruct (image_framed km k3 k l d l' T' p init Hpk Hkl HU HL HO Hpl Hp HV Hkeep Hst) as (HU4 & Hst4 & Hfr & Him).
  split; [|split; [|split; [by exists l', T'|]]].
  - split; try done. exists ip. split; [done|]. cbn [k_fs at_slot set_ptable set_fs]. rewrite (inode_at_some ip f1 p1); [done|].
    unfold f1, on_inode. cbn [icache]. by rewrite list_lookup_alter_eq, Hip.
  - intros j Hj. by rewrite !proc_at_slot_ne by done.
  - intros q y Hq Hql Hy. apply not_elem_of_cons in Hql as [Hne Hql].
    assert (Hnk : ~ in_page k y) by (by apply (page_other kend q k y)).
    destruct (write_frame_spec (stack_tf k) (km_mem k3)) as [_ Hfo].
    transitivity (km_mem k3 y); [apply Hfo; unfold in_page, stack_tf, KSTACKSIZE, TF_SIZE, PGSIZE in *; lia|].
    rewrite (Hkeep q y) by done. by apply Hout.
Qed.

End UserInit.
