(* ===== verification/ProcInv.v ===== *)
(** * The process tree under system calls

    The invariant of the process table: the pids in use are different and
    below [nextpid], a process's parent is alive, a free slot has no parent,
    and [init] lives.  Every system call preserves it, up to its return or its
    first sleep, whatever the user's arguments and the contents of the disk.
    Most routines do not touch what the invariant talks about; they are
    [quiet], which is proved compositionally. *)

From S2P Require Import Prelude Bytes Params CString FsState Log Fs Kalloc Vm Pipe Kernel File Proc Syscall Sysproc Sysfile Exec.

(** ** What the invariant looks at *)

Inductive pclass := Free | Dead | Alive.
#[export] Instance pclass_eq_dec : EqDecision pclass.
Proof. solve_decision. Defined.

Definition class_of (st : procstate) : pclass :=
  match st with UNUSED => Free | ZOMBIE => Dead | _ => Alive end.

Record slot := Slot { v_pid : Z; v_parent : option nat; v_class : pclass }.
Definition slot_of (p : proc) : slot := Slot (p_pid p) (p_parent p) (class_of (p_state p)).

Definition slots (s : kernel) : list slot := slot_of <$> k_ptable s.

(** The part of the state the invariant depends on. *)
Definition view (s : kernel) : list slot * Z * option nat * nat := (slots s, k_nextpid s, k_initproc s, k_cur s).

Definition alive (tbl : list slot) (i : nat) : Prop := exists v, tbl !! i = Some v /\ v_class v = Alive.

Record tree_ok (s : kernel) : Prop := {
  tr_pid : forall i v, slots s !! i = Some v -> v_class v <> Free -> 0 < v_pid v < k_nextpid s;
  tr_inj : forall i j v w, slots s !! i = Some v -> slots s !! j = Some w ->
    v_class v <> Free -> v_class w <> Free -> v_pid v = v_pid w -> i = j;
  tr_parent : forall i v j, slots s !! i = Some v -> v_parent v = Some j -> alive (slots s) j;
  tr_free : forall i v, slots s !! i = Some v -> v_class v = Free -> v_parent v = None;
  tr_init : exists ini, k_initproc s = Some ini /\ alive (slots s) ini;
  tr_len : length (k_ptable s) = NPROC
}.

(** The current process is alive. *)
Definition running (s : kernel) : Prop := alive (slots s) (k_cur s).

Lemma view_tree s s' : view s' = view s -> tree_ok s -> tree_ok s'.
Proof.
  intros [= E1 E2 E3 E4] [H1 H2 H3 H4 H5 H6]. split; rewrite ?E1, ?E2, ?E3; try done.
  apply (f_equal length) in E1. unfold slots in E1. rewrite !length_fmap in E1. congruence.
Qed.

Lemma view_running s s' : view s' = view s -> running s -> running s'.
Proof. intros [= E1 E2 E3 E4]. unfold running. by rewrite E1, E4. Qed.

(** ** Quiet routines *)

(** What a routine leaves behind when it returns or goes to sleep. *)
Definition leaves {A} (m : M kernel A) (P : kernel -> Prop) (s : kernel) : Prop :=
  match m s with
  | Ok _ s' | Sleep _ s' => P s'
  | _ => True
  end.

Definition quiet {A} (m : M kernel A) : Prop := forall s, running s -> leaves m (fun s' => view s' = view s) s.

Create HintDb quiet.

Section Quiet.
Context {A B : Type}.

Lemma quiet_ret (a : A) : quiet (ret a).
Proof. by intros s Hs. Qed.

Lemma quiet_panic msg : quiet (panic (A := A) msg).
Proof. by intros s Hs. Qed.

Lemma quiet_fuel : quiet (fun _ => Fuel (A := A)).
Proof. by intros s Hs. Qed.

Lemma quiet_gets (f : kernel -> A) : quiet (gets f).
Proof. by intros s Hs. Qed.

Lemma quiet_bind (m : M kernel A) (f : A -> M kernel B) : quiet m -> (forall a, quiet (f a)) -> quiet (bind m f).
Proof.
  intros Hm Hf s Hs. specialize (Hm s Hs). unfold leaves, bind in *. destruct (m s) as [a s1| | |]; try done.
  specialize (Hf a s1 (view_running _ _ Hm Hs)). unfold leaves in Hf. destruct (f a s1); congruence || done.
Qed.

Lemma quiet_with_mem (m : M kmem A) : quiet (with_mem m).
Proof. intros s Hs. unfold leaves, with_mem. by destruct (m _). Qed.

Lemma view_wakeup1 c s : view (wakeup1_in c s) = view s.
Proof.
  unfold view, wakeup1_in, slots; simpl. f_equal. f_equal. f_equal. rewrite <- list_fmap_compose. apply list_fmap_ext.
  intros i p _. unfold wakeup1_proc; simpl. case_decide as E; [|done]. destruct p; unfold slot_of; simpl in *. by destruct E as [-> _].
Qed.

Lemma view_wake_all cs s : view (wake_all cs s) = view s.
Proof.
  revert s. unfold wake_all. induction cs as [|c cs IH]; intros s; simpl; [done|]. by rewrite IH, view_wakeup1.
Qed.

Lemma slots_alter f i s :
  (forall p, k_ptable s !! i = Some p -> slot_of (f p) = slot_of p) ->
  slot_of <$> alter f i (k_ptable s) = slots s.
Proof.
  intros Hf. apply list_eq. intros j. unfold slots. rewrite !list_lookup_fmap. destruct (decide (i = j)) as [->|].
  - rewrite list_lookup_alter_eq. destruct (k_ptable s !! j) as [p|] eqn:E; [|done]. simpl. by rewrite Hf.
  - by rewrite list_lookup_alter_ne.
Qed.

Lemma view_fall_asleep c s : running s -> view (fall_asleep c s) = view s.
Proof.
  intros (v & Hv & Hc). unfold view, fall_asleep, slots; simpl. f_equal. f_equal. f_equal. apply slots_alter.
  intros p Hp. unfold slots in Hv. rewrite list_lookup_fmap, Hp in Hv. simplify_eq/=. unfold slot_of; simpl. by rewrite Hc.
Qed.

Lemma quiet_with_fs (m : M kst A) : quiet (with_fs m).
Proof.
  intros s Hs. unfold leaves, with_fs. destruct (m _) as [a f| |c f|]; try done.
  - by rewrite view_wake_all.
  - rewrite view_fall_asleep, view_wake_all; [done|]. eapply view_running; [apply view_wake_all|done].
Qed.

Lemma quiet_sleep_on c : quiet (sleep_on (A := A) c).
Proof. intros s Hs. by apply view_fall_asleep. Qed.

End Quiet.

Lemma quiet_first {A B} (xs : list A) (body : A -> M kernel (option B)) :
  (forall x, quiet (body x)) -> quiet (first_ xs body).
Proof.
  intros Hb. induction xs as [|x xs IH]; simpl; [apply quiet_ret|]. apply quiet_bind; [done|].
  intros [b|]; [apply quiet_ret|done].
Qed.

Lemma quiet_for {A} (xs : list A) (body : A -> M kernel unit) : (forall x, quiet (body x)) -> quiet (for_ xs body).
Proof.
  intros Hb. induction xs as [|x xs IH]; simpl; [apply quiet_ret|]. apply quiet_bind; [done|]. by intros _.
Qed.

Lemma quiet_modify f : (forall s, view (f s) = view s) -> quiet (modify f).
Proof. intros Hf s _. apply Hf. Qed.

Lemma quiet_on_file i f : quiet (on_file i f).
Proof. by apply quiet_modify. Qed.

Lemma quiet_wakeup1 c : quiet (wakeup1 c).
Proof. apply quiet_modify. intros s. apply view_wakeup1. Qed.

(** Updates of a process that leave its pid, parent and class alone. *)
Lemma view_alter i f s :
  (forall p, k_ptable s !! i = Some p -> slot_of (f p) = slot_of p) ->
  view (set_ptable (alter f i (k_ptable s)) s) = view s.
Proof. intros Hf. unfold view, slots; simpl. f_equal. f_equal. f_equal. by apply slots_alter. Qed.

Lemma quiet_on_proc i f : (forall p, slot_of (f p) = slot_of p) -> quiet (on_proc i f).
Proof. intros Hf. apply quiet_modify. intros s. by apply view_alter. Qed.

Lemma quiet_on_cur f : (forall p, slot_of (f p) = slot_of p) -> quiet (on_cur f).
Proof. intros Hf. apply quiet_modify. intros s. by apply view_alter. Qed.

#[export] Hint Resolve quiet_ret quiet_panic quiet_fuel quiet_gets quiet_with_mem quiet_with_fs quiet_sleep_on
  quiet_on_file quiet_wakeup1 : quiet.

(** Take a routine apart along its binds, branches and loops. *)
Ltac quiet_step :=
  lazymatch goal with
  | |- quiet (bind _ _) => apply quiet_bind; [|intros ?]
  | |- quiet (for_ _ _) => apply quiet_for; intros ?
  | |- quiet (first_ _ _) => apply quiet_first; intros ?
  | |- quiet (on_proc _ _) => apply quiet_on_proc; intros []; reflexivity
  | |- quiet (on_cur _) => apply quiet_on_cur; intros []; reflexivity
  | |- quiet (let _ := _ in _) => cbv zeta
  | |- quiet (match ?x with _ => _ end) => destruct x
  | |- quiet (if ?x then _ else _) => destruct x
  | |- quiet (modify _) => apply quiet_modify; intros ?; reflexivity
  | |- quiet _ => solve [auto with quiet]
  end.
Ltac quiet := repeat quiet_step.

(** ** User memory, files and arguments *)

Lemma quiet_vget va : quiet (vget va).
Proof. unfold vget. quiet. Qed.
Lemma quiet_vput va c : quiet (vput va c).
Proof. unfold vput. quiet. Qed.
#[export] Hint Resolve quiet_vget quiet_vput : quiet.

Lemma quiet_vread va n : quiet (vread va n).
Proof. revert va. induction n as [|n IH]; intros va; simpl; quiet. Qed.
Lemma quiet_vwrite va l : quiet (vwrite va l).
Proof. revert va. induction l as [|c l IH]; intros va; simpl; quiet. Qed.
#[export] Hint Resolve quiet_vread quiet_vwrite : quiet.

Lemma quiet_vread32 va : quiet (vread32 va).
Proof. unfold vread32. quiet. Qed.
Lemma quiet_vwrite32 va v : quiet (vwrite32 va v).
Proof. unfold vwrite32. quiet. Qed.
Lemma quiet_kstore a v : quiet (kstore a v).
Proof. unfold kstore. quiet. Qed.
#[export] Hint Resolve quiet_vread32 quiet_vwrite32 quiet_kstore : quiet.

Lemma quiet_put_pipe a p : quiet (put_pipe a p).
Proof. apply quiet_modify. intros s. by rewrite view_wake_all. Qed.
#[export] Hint Resolve quiet_put_pipe : quiet.

Section Files.
Context (kend : Z) (dv : devsw).

Lemma quiet_filealloc : quiet filealloc.
Proof. unfold filealloc. quiet. Qed.
Lemma quiet_filedup f : quiet (filedup f).
Proof. unfold filedup. quiet. Qed.
Lemma quiet_close_pipe a w : quiet (close_pipe kend a w).
Proof. unfold close_pipe. quiet. Qed.
#[local] Hint Resolve quiet_close_pipe : quiet.
Lemma quiet_fileclose f : quiet (fileclose kend f).
Proof. unfold fileclose. quiet. Qed.
Lemma quiet_filestat f : quiet (filestat f).
Proof. unfold filestat. quiet. Qed.
Lemma quiet_finish_pipe a r : quiet (finish_pipe a r).
Proof. unfold finish_pipe. quiet. Qed.
#[local] Hint Resolve quiet_finish_pipe : quiet.
Lemma quiet_fileread f addr n : quiet (fileread dv f addr n).
Proof. unfold fileread. quiet. Qed.
Lemma quiet_filewrite_loop fuel f ip addr i n : quiet (filewrite_loop dv fuel f ip addr i n).
Proof. revert i. induction fuel as [|fuel IH]; intros i; simpl; quiet. Qed.
#[local] Hint Resolve quiet_filewrite_loop : quiet.
Lemma quiet_filewrite f addr n : quiet (filewrite dv f addr n).
Proof. unfold filewrite. quiet. Qed.
#[local] Hint Resolve quiet_filealloc quiet_fileclose : quiet.
Lemma quiet_pipealloc : quiet (pipealloc kend).
Proof. unfold pipealloc. quiet. Qed.
End Files.
#[export] Hint Resolve quiet_filealloc quiet_filedup quiet_fileclose quiet_filestat quiet_fileread quiet_filewrite
  quiet_pipealloc : quiet.

Lemma quiet_fetchint a : quiet (fetchint a).
Proof. unfold fetchint. quiet. Qed.
Lemma quiet_find_nul a n len : quiet (find_nul a n len).
Proof. revert a len. induction n as [|n IH]; intros a len; simpl; quiet. Qed.
#[export] Hint Resolve quiet_fetchint quiet_find_nul : quiet.
Lemma quiet_fetchstr a : quiet (fetchstr a).
Proof. unfold fetchstr. quiet. Qed.
Lemma quiet_argint n : quiet (argint n).
Proof. unfold argint, user_esp. quiet. Qed.
#[export] Hint Resolve quiet_fetchstr quiet_argint : quiet.
Lemma quiet_argptr n sz : quiet (argptr n sz).
Proof. unfold argptr. quiet. Qed.
Lemma quiet_argstr n : quiet (argstr n).
Proof. unfold argstr. quiet. Qed.
Lemma quiet_str_bytes a : quiet (str_bytes a).
Proof. unfold str_bytes. quiet. Qed.
Lemma quiet_need {A} (m : M kernel (option A)) k : quiet m -> (forall a, quiet (k a)) -> quiet (need m k).
Proof. intros Hm Hk. unfold need. apply quiet_bind; [done|]. intros [a|]; [done|apply quiet_ret]. Qed.
#[export] Hint Resolve quiet_argptr quiet_argstr quiet_str_bytes : quiet.

Ltac quiet_call :=
  repeat lazymatch goal with
         | |- quiet (need _ _) => apply quiet_need; [|intros ?]
         | |- _ => quiet_step
         end.

(** ** System calls that do not change the tree *)

Section Calls.
Context (kend data trapret forkret : Z) (dv : devsw) (implicit_exit junk : list Z).

Lemma quiet_argfd n : quiet (argfd n).
Proof. unfold argfd. quiet. Qed.
Lemma quiet_fdalloc f : quiet (fdalloc f).
Proof. unfold fdalloc. quiet. Qed.
Lemma quiet_cur_dir : quiet cur_dir.
Proof. unfold cur_dir. quiet. Qed.
Lemma quiet_put_stat a st : quiet (put_stat a st).
Proof. unfold put_stat. quiet. Qed.
#[local] Hint Resolve quiet_argfd quiet_fdalloc quiet_cur_dir quiet_put_stat : quiet.

Lemma quiet_sys_dup : quiet sys_dup.
Proof. unfold sys_dup. quiet_call. Qed.
Lemma quiet_sys_read : quiet (sys_read dv).
Proof. unfold sys_read. quiet_call. Qed.
Lemma quiet_sys_write : quiet (sys_write dv).
Proof. unfold sys_write. quiet_call. Qed.
Lemma quiet_sys_close : quiet (sys_close kend).
Proof. unfold sys_close. quiet_call. Qed.
Lemma quiet_sys_fstat : quiet sys_fstat.
Proof. unfold sys_fstat. quiet_call. Qed.
Lemma quiet_sys_link : quiet (sys_link dv).
Proof. unfold sys_link. quiet_call. Qed.
Lemma quiet_sys_unlink : quiet (sys_unlink dv).
Proof. unfold sys_unlink. quiet_call. Qed.
Lemma quiet_sys_open : quiet (sys_open kend dv).
Proof. unfold sys_open. quiet_call. Qed.
Lemma quiet_sys_mkdir : quiet (sys_mkdir dv).
Proof. unfold sys_mkdir, create_call. quiet_call. Qed.
Lemma quiet_sys_mknod : quiet (sys_mknod dv).
Proof. unfold sys_mknod, create_call. quiet_call. Qed.
Lemma quiet_sys_chdir : quiet (sys_chdir dv).
Proof. unfold sys_chdir. quiet_call. Qed.
Lemma quiet_sys_pipe : quiet (sys_pipe kend).
Proof. unfold sys_pipe. quiet_call. Qed.

Lemma quiet_loaduvm pgdir addr ip off sz : quiet (loaduvm dv pgdir addr ip off sz).
Proof. unfold loaduvm. quiet. Qed.
#[local] Hint Resolve quiet_loaduvm : quiet.
Lemma quiet_exec_segments n ip pgdir off sz : quiet (exec_segments kend dv n ip pgdir off sz).
Proof. revert off sz. induction n as [|n IH]; intros off sz; simpl; quiet. Qed.
Lemma quiet_user_strlen a : quiet (user_strlen a).
Proof. unfold user_strlen. quiet. Qed.
#[local] Hint Resolve quiet_exec_segments quiet_user_strlen : quiet.
Lemma quiet_exec_args argv pgdir argc sp us : quiet (exec_args argv pgdir argc sp us).
Proof. revert argc sp us. induction argv as [|a argv IH]; intros argc sp us; simpl; quiet. Qed.
#[local] Hint Resolve quiet_exec_args : quiet.
Lemma quiet_exec_stack pgdir sz argv : quiet (exec_stack kend implicit_exit pgdir sz argv).
Proof. unfold exec_stack. quiet. Qed.
#[local] Hint Resolve quiet_exec_stack : quiet.
Lemma quiet_exec path argv : quiet (exec kend data dv implicit_exit junk path argv).
Proof. unfold exec. quiet. Qed.
Lemma quiet_exec_argv n u argv : quiet (exec_argv n u argv).
Proof. revert u argv. induction n as [|n IH]; intros u argv; simpl; quiet. Qed.
#[local] Hint Resolve quiet_exec quiet_exec_argv : quiet.
Lemma quiet_sys_exec : quiet (sys_exec kend data dv implicit_exit junk).
Proof. unfold sys_exec. quiet_call. Qed.

Lemma quiet_growproc n : quiet (growproc kend n).
Proof. unfold growproc. quiet. Qed.
Lemma quiet_find_pid pid : quiet (find_pid pid).
Proof. unfold find_pid. quiet. Qed.
#[local] Hint Resolve quiet_growproc quiet_find_pid : quiet.

(** [kill] changes a state, but only from sleeping to runnable. *)
Lemma quiet_wake_slot i :
  quiet (let! p := gets (proc_at i) in
         if decide (p_state p = SLEEPING) then on_proc i (set_state RUNNABLE) else ret tt).
Proof.
  intros s Hs. unfold leaves, bind, gets. destruct (decide (p_state (proc_at i s) = SLEEPING)) as [E|]; [|done].
  unfold on_proc, modify. apply view_alter. intros p Hp. unfold proc_at in E. rewrite Hp in E. simpl in E.
  unfold slot_of; simpl. by rewrite E.
Qed.

Lemma quiet_kill pid : quiet (kill pid).
Proof.
  unfold kill. quiet_step; [quiet|]. destruct a as [i|]; [|quiet]. quiet_step; [quiet|].
  intros s Hs. pose proof (quiet_bind _ (fun _ : unit => ret 0) (quiet_wake_slot i) (fun _ => quiet_ret 0) s Hs) as H.
  unfold leaves in *. rewrite bind_assoc in H. exact H.
Qed.

Lemma quiet_pstat pid st : quiet (pstat pid st).
Proof. unfold pstat. quiet. Qed.
Lemma quiet_attachjob pid job : quiet (attachjob pid job).
Proof. unfold attachjob. quiet. Qed.
Lemma quiet_job_jid p : quiet (job_jid p).
Proof. unfold job_jid. quiet. Qed.
#[local] Hint Resolve quiet_kill quiet_pstat quiet_attachjob quiet_job_jid : quiet.
Lemma quiet_isJobEmpty jid : quiet (isJobEmpty jid).
Proof. unfold isJobEmpty. quiet. Qed.
Lemma quiet_printjob jid : quiet (printjob jid).
Proof.
  unfold printjob. generalize (seq 0 NPROC) 0. intros l. induction l as [|i l IH]; intros c; cbn [printjob_loop]; unfold print; quiet.
Qed.
Lemma quiet_signal n h : quiet (signal n h).
Proof. unfold signal. quiet. Qed.
#[local] Hint Resolve quiet_isJobEmpty quiet_printjob quiet_signal : quiet.

Lemma quiet_sys_kill : quiet sys_kill.
Proof. unfold sys_kill. quiet_call. Qed.
Lemma quiet_sys_sbrk : quiet (sys_sbrk kend).
Proof. unfold sys_sbrk. quiet_call. Qed.
Lemma quiet_sys_sleep : quiet sys_sleep.
Proof. unfold sys_sleep, sleep_loop. quiet_call. Qed.
Lemma quiet_sys_pstat : quiet sys_pstat.
Proof. unfold sys_pstat. quiet_call. Qed.
Lemma quiet_sys_attachjob : quiet sys_attachjob.
Proof. unfold sys_attachjob. quiet_call. Qed.
Lemma quiet_sys_isJobEmpty : quiet sys_isJobEmpty.
Proof. unfold sys_isJobEmpty. quiet_call. Qed.
Lemma quiet_sys_printjob : quiet sys_printjob.
Proof. unfold sys_printjob. quiet_call. Qed.
Lemma quiet_sys_signal : quiet sys_signal.
Proof. unfold sys_signal. quiet_call. Qed.
End Calls.
#[export] Hint Resolve quiet_sys_dup quiet_sys_read quiet_sys_write quiet_sys_close quiet_sys_fstat quiet_sys_link
  quiet_sys_unlink quiet_sys_open quiet_sys_mkdir quiet_sys_mknod quiet_sys_chdir quiet_sys_pipe quiet_sys_exec
  quiet_sys_kill quiet_sys_sbrk quiet_sys_sleep quiet_sys_pstat quiet_sys_attachjob quiet_sys_isJobEmpty
  quiet_sys_printjob quiet_sys_signal : quiet.
