(* ===== verification/ProcTree.v ===== *)
(** * [fork], [exit] and [waitpid] on the process tree

    The routines that change the tree, and the invariant for the system call
    dispatcher as a whole. *)

From S2P Require Import Prelude Bytes Params CString FsState Log Fs Kalloc Vm Pipe Kernel File Proc Syscall Sysproc Sysfile Exec ProcInv.

(** ** Partial correctness: [Q] where the routine returns, [S] where it sleeps *)

Definition wlp {A} (m : M kernel A) (Q : A -> kernel -> Prop) (S : kernel -> Prop) (s : kernel) : Prop :=
  match m s with
  | Ok a s' => Q a s'
  | Sleep _ s' => S s'
  | _ => True
  end.

Lemma wlp_bind {A B} (m : M kernel A) (f : A -> M kernel B) Q S s :
  wlp m (fun a => wlp (f a) Q S) S s -> wlp (bind m f) Q S s.
Proof. unfold wlp, bind. by destruct (m s). Qed.

Lemma wlp_mono {A} (m : M kernel A) (Q Q' : A -> kernel -> Prop) (S S' : kernel -> Prop) s :
  wlp m Q S s -> (forall a s', Q a s' -> Q' a s') -> (forall s', S s' -> S' s') -> wlp m Q' S' s.
Proof. unfold wlp. destruct (m s); eauto. Qed.

Lemma wlp_quiet {A} (m : M kernel A) Q S s :
  quiet m -> running s -> (forall a s', view s' = view s -> Q a s') -> (forall s', view s' = view s -> S s') ->
  wlp m Q S s.
Proof.
  intros Hq Hr HQ HS. specialize (Hq s Hr). unfold leaves, wlp in *. destruct (m s); eauto.
Qed.

Lemma wlp_gets {A} (f : kernel -> A) Q S s : Q (f s) s -> wlp (gets f) Q S s.
Proof. done. Qed.

Lemma wlp_ret {A} (a : A) (Q : A -> kernel -> Prop) S s : Q a s -> wlp (ret a) Q S s.
Proof. done. Qed.

Lemma wlp_leaves {A} (m : M kernel A) P s : wlp m (fun _ => P) P s -> leaves m P s.
Proof. unfold wlp, leaves. by destruct (m s). Qed.

(** Changing one slot of the table. *)
Definition with_slot (i : nat) (v : slot) (s s' : kernel) : Prop :=
  view s' = (<[i := v]> (slots s), k_nextpid s, k_initproc s, k_cur s).

Lemma wlp_on_proc i f v (Q : unit -> kernel -> Prop) S s :
  (forall p, k_ptable s !! i = Some p -> slot_of (f p) = v) ->
  (forall s', with_slot i v s s' -> Q tt s') -> wlp (on_proc i f) Q S s.
Proof.
  intros Hf HQ. unfold on_proc, modify, wlp. apply HQ. unfold with_slot, view, slots; simpl. f_equal. f_equal. f_equal.
  apply list_eq. intros j. destruct (decide (i = j)) as [->|Hne].
  - rewrite list_lookup_fmap, list_lookup_alter_eq. destruct (k_ptable s !! j) as [p|] eqn:E; simpl.
    + rewrite list_lookup_insert_eq by (rewrite length_fmap; by eapply lookup_lt_Some). by rewrite Hf.
    + symmetry. apply lookup_ge_None. rewrite length_insert, length_fmap. by apply lookup_ge_None.
  - by rewrite list_lookup_fmap, list_lookup_alter_ne, list_lookup_insert_ne, list_lookup_fmap by done.
Qed.

Lemma slots_lookup s i p : k_ptable s !! i = Some p -> slots s !! i = Some (slot_of p).
Proof. intros H. unfold slots. by rewrite list_lookup_fmap, H. Qed.

Lemma slots_lookup_inv s i v : slots s !! i = Some v -> exists p, k_ptable s !! i = Some p /\ slot_of p = v.
Proof. unfold slots. rewrite list_lookup_fmap. intros (p & -> & ->)%fmap_Some. by exists p. Qed.

(** ** Replacing a slot in a good tree *)

Lemma alive_insert tbl i v j : alive tbl j -> (i = j -> v_class v = Alive) -> alive (<[i := v]> tbl) j.
Proof.
  intros (w & Hw & Hc) Hv. destruct (decide (i = j)) as [->|].
  - exists v. split; [|by apply Hv]. apply list_lookup_insert_eq. by eapply lookup_lt_Some.
  - exists w. by rewrite list_lookup_insert_ne.
Qed.

(** No process has [i] for a parent. *)
Definition childless (s : kernel) (i : nat) : Prop := forall j v, slots s !! j = Some v -> v_parent v <> Some i.

Lemma not_alive_childless s i v : tree_ok s -> slots s !! i = Some v -> v_class v <> Alive -> childless s i.
Proof.
  intros Ht Hv Hc j w Hw Hp. destruct (tr_parent _ Ht j w i Hw Hp) as (v' & Hv' & Hc'). congruence.
Qed.

Lemma tree_replace s s' i v n :
  tree_ok s -> (i < NPROC)%nat -> view s' = (<[i := v]> (slots s), n, k_initproc s, k_cur s) -> k_nextpid s <= n ->
  (v_class v <> Free -> 0 < v_pid v < n /\ forall j w, j <> i -> slots s !! j = Some w -> v_class w <> Free -> v_pid w <> v_pid v) ->
  (forall j, v_parent v = Some j -> j <> i /\ alive (slots s) j) ->
  (v_class v = Free -> v_parent v = None) ->
  (v_class v <> Alive -> childless s i /\ k_initproc s <> Some i) ->
  tree_ok s'.
Proof.
  intros Ht Hi Hview Hn Hpid Hpar Hfree Hdead. injection Hview as Es En Ei Ec.
  assert (length (k_ptable s') = NPROC) as Hlen.
  { pose proof (f_equal length Es) as E. unfold slots in E. rewrite length_insert, !length_fmap in E. rewrite E. apply Ht. }
  assert (forall j w, slots s' !! j = Some w -> (j = i /\ w = v) \/ (j <> i /\ slots s !! j = Some w)) as Hlk.
  { intros j w. rewrite Es. destruct (decide (i = j)) as [->|].
    - rewrite list_lookup_insert_eq by (unfold slots; rewrite length_fmap, (tr_len _ Ht); lia). intros [= ->]. by left.
    - rewrite list_lookup_insert_ne by done. right. done. }
  assert (forall j, alive (slots s) j -> (j = i -> v_class v = Alive) -> alive (slots s') j) as Hal.
  { intros j Hj Hji. rewrite Es. apply alive_insert; [done|]. intros <-. by apply Hji. }
  split.
  - intros j w [[-> ->]|[Hj Hw]]%Hlk Hc; rewrite En; [by apply Hpid|]. pose proof (tr_pid _ Ht j w Hw Hc). lia.
  - intros j1 j2 w1 w2 [[-> ->]|[Hj1 Hw1]]%Hlk [[-> ->]|[Hj2 Hw2]]%Hlk Hc1 Hc2 E; try done.
    + exfalso. by apply (proj2 (Hpid Hc1) j2 w2).
    + exfalso. by apply (proj2 (Hpid Hc2) j1 w1).
    + by eapply (tr_inj _ Ht).
  - intros j w k [[-> ->]|[Hj Hw]]%Hlk Hk.
    + destruct (Hpar k Hk) as [Hki Hka]. by apply Hal.
    + apply Hal; [by eapply (tr_parent _ Ht)|]. intros ->. destruct (decide (v_class v = Alive)) as [|Hc]; [done|].
      exfalso. by apply (proj1 (Hdead Hc) j w).
  - intros j w [[-> ->]|[Hj Hw]]%Hlk Hc; [by apply Hfree|by eapply (tr_free _ Ht)].
  - destruct (tr_init _ Ht) as (ini & Hini & Ha). exists ini. rewrite Ei. split; [done|]. apply Hal; [done|].
    intros ->. destruct (decide (v_class v = Alive)) as [|Hc]; [done|]. by destruct (Hdead Hc).
  - done.
Qed.

(** ** Following one slot through a routine *)

(** Only slot [i] differs from [s0]: it is [v]; [n] is the next pid. *)
Definition tracks (s0 : kernel) (i : nat) (v : slot) (n : Z) (s : kernel) : Prop :=
  view s = (<[i := v]> (slots s0), n, k_initproc s0, k_cur s0) /\ (i < length (slots s0))%nat /\ i <> k_cur s0.

Lemma tracks_start s0 i v : slots s0 !! i = Some v -> i <> k_cur s0 -> tracks s0 i v (k_nextpid s0) s0.
Proof.
  intros Hv Hne. split; [|split; [by eapply lookup_lt_Some|done]]. unfold view. by rewrite list_insert_id.
Qed.

Lemma tracks_running s0 i v n s : running s0 -> tracks s0 i v n s -> running s.
Proof.
  intros Hr ([= Es En Ei Ec] & Hl & Hne). unfold running. rewrite Es, Ec. apply alive_insert; [done|]. by intros ->.
Qed.

Lemma tracks_view s0 i v n s s' : view s' = view s -> tracks s0 i v n s -> tracks s0 i v n s'.
Proof. intros E [Hv Hl]. split; [congruence|done]. Qed.

Lemma wlp_track_quiet {A} (m : M kernel A) Q S s0 i v n s :
  quiet m -> running s0 -> tracks s0 i v n s ->
  (forall a s', tracks s0 i v n s' -> Q a s') -> (forall s', tracks s0 i v n s' -> S s') -> wlp m Q S s.
Proof.
  intros Hq Hr Ht HQ HS. apply wlp_quiet; [done|by eapply tracks_running| |];
    intros; [apply HQ|apply HS]; by eapply tracks_view.
Qed.

Lemma wlp_track_on_proc f (Q : unit -> kernel -> Prop) S s0 i v v' n s :
  tracks s0 i v n s -> (forall p, slot_of p = v -> slot_of (f p) = v') ->
  (forall s', tracks s0 i v' n s' -> Q tt s') -> wlp (on_proc i f) Q S s.
Proof.
  intros ([= Es En Ei Ec] & Hl & Hne) Hf HQ. apply (wlp_on_proc i f v').
  - intros p Hp%slots_lookup. apply Hf. rewrite Es, list_lookup_insert_eq in Hp by done. congruence.
  - intros s' Hs'. apply HQ. split; [|done]. unfold with_slot in Hs'. rewrite Hs', Es, En, Ei, Ec.
    by rewrite list_insert_insert_eq.
Qed.

(** ** [allocproc] *)

Lemma scan_slot (ps : list nat) s :
  exists r, first_ ps (fun i => let! p := gets (proc_at i) in
      ret (if decide (p_state p = UNUSED) then Some i else None)) s = Ok r s /\
    forall i, r = Some i -> i ∈ ps /\ p_state (proc_at i s) = UNUSED.
Proof.
  induction ps as [|i ps IH]; simpl; [by exists None|]. unfold bind, gets, ret in *.
  destruct (decide (p_state (proc_at i s) = UNUSED)) as [E|].
  - exists (Some i). split; [done|]. intros j [= ->]. split; [by left|done].
  - destruct IH as (r & Hr & Hi). exists r. split; [done|]. intros j Hj. destruct (Hi j Hj). split; [by right|done].
Qed.

Definition fresh_slot (s0 : kernel) (c : pclass) : slot := Slot (k_nextpid s0) None c.

(** A slot [allocproc] has taken: it was free, and it is not the caller's. *)
Definition was_free (s0 : kernel) (i : nat) : Prop := exists v, slots s0 !! i = Some v /\ v_class v = Free.

Section Tree.
Context (kend data trapret forkret : Z) (dv : devsw) (implicit_exit junk : list Z).

Lemma allocproc_wlp s0 :
  tree_ok s0 -> running s0 ->
  wlp (allocproc trapret forkret) (fun r s => match r with
    | Some i => was_free s0 i /\ tracks s0 i (fresh_slot s0 Alive) (s32 (k_nextpid s0 + 1)) s
    | None => view s = view s0 \/ exists i, was_free s0 i /\ tracks s0 i (fresh_slot s0 Free) (s32 (k_nextpid s0 + 1)) s
    end) (fun s => exists i, was_free s0 i /\ tracks s0 i (fresh_slot s0 Alive) (s32 (k_nextpid s0 + 1)) s) s0.
Proof.
  intros Ht Hr. unfold allocproc. apply wlp_bind. destruct (scan_slot (seq 0 NPROC) s0) as (r & Er & Hi).
  unfold wlp at 1. rewrite Er. destruct r as [i|]; [|by left]. destruct (Hi i eq_refl) as [Hin Hu]. apply elem_of_seq in Hin.
  destruct (lookup_lt_is_Some_2 (k_ptable s0) i) as [p Hp]; [rewrite (tr_len _ Ht); lia|].
  unfold proc_at in Hu. rewrite Hp in Hu. simpl in Hu. pose proof (slots_lookup _ _ _ Hp) as Hv.
  assert (v_class (slot_of p) = Free) as Hfr by (simpl; by rewrite Hu).
  assert (was_free s0 i) as Hwf by (by exists (slot_of p)).
  assert (i <> k_cur s0) as Hne by (intros ->; destruct Hr as (w & Hw & Hc); congruence).
  pose proof (tr_free _ Ht i _ Hv Hfr) as Hpar. simpl in Hpar.
  apply wlp_bind. eapply (wlp_track_on_proc _ _ _ _ _ _ (Slot (p_pid p) None Alive)); [by apply tracks_start| |].
  { intros q Hq. unfold slot_of in *; simpl. injection Hq as -> -> _. by rewrite Hpar. }
  intros s1 T1. apply wlp_bind, wlp_gets. apply wlp_bind.
  assert (k_nextpid s1 = k_nextpid s0) as En by (destruct T1 as [[= _ ? _ _] _]; done). rewrite En.
  eapply (wlp_track_on_proc _ _ _ _ _ _ (fresh_slot s0 Alive)); [exact T1| |].
  { intros q Hq. unfold slot_of in *; simpl. injection Hq as _ -> ->. done. }
  intros s2 T2. apply wlp_bind. unfold modify, wlp at 1.
  assert (tracks s0 i (fresh_slot s0 Alive) (s32 (k_nextpid s0 + 1)) (set_nextpid (s32 (k_nextpid s0 + 1)) s2)) as T3.
  { destruct T2 as [[= Es _ Ei Ec] HT]. split; [|done]. unfold view, slots in *; simpl. congruence. }
  clear T1 T2. set (S := fun s => exists i, _ /\ _).
  assert (forall s', tracks s0 i (fresh_slot s0 Alive) (s32 (k_nextpid s0 + 1)) s' -> S s') as HS by (intros; by exists i).
  apply wlp_bind. eapply wlp_track_quiet; [auto with quiet|done|exact T3| |done]. intros k s3 T4.
  apply wlp_bind. eapply wlp_track_quiet; [quiet|done|exact T4| |done]. intros _ s4 T5.
  destruct (k =? 0).
  - apply wlp_bind. eapply (wlp_track_on_proc _ _ _ _ _ _ (fresh_slot s0 Free)); [exact T5| |].
    { intros q Hq. unfold slot_of in *; simpl. by injection Hq as -> -> _. }
    intros s5 T6. apply wlp_ret. right. by exists i.
  - cbv zeta. do 5 (apply wlp_bind; eapply wlp_track_quiet; [quiet|done|eassumption| |done]; intros ? ? ?).
    by apply wlp_ret.
Qed.

(** ** [fork] *)

Definition fork_parent (s0 : kernel) (par : option nat) : Prop := par = None \/ par = Some (k_cur s0).

Lemma fresh_tree s0 i par c s :
  tree_ok s0 -> running s0 -> k_nextpid s0 < 2 ^ 31 - 1 -> was_free s0 i ->
  tracks s0 i (Slot (k_nextpid s0) par c) (s32 (k_nextpid s0 + 1)) s ->
  fork_parent s0 par -> c <> Dead -> (c = Free -> par = None) -> tree_ok s.
Proof.
  intros Ht Hr Hn (v & Hv & Hf) (Hview & Hl & Hne) Hp Hd Hfp.
  destruct (tr_init _ Ht) as (ini & Hini & w & Hw & Hwc).
  assert (0 < k_nextpid s0) as Hpos by (pose proof (tr_pid _ Ht ini w Hw ltac:(congruence)); lia).
  rewrite s32_small in Hview by lia.
  eapply (tree_replace s0 s i _ (k_nextpid s0 + 1)); [done| |exact Hview|lia| | | |].
  - apply lookup_lt_Some in Hv. unfold slots in Hv. by rewrite length_fmap, (tr_len _ Ht) in Hv.
  - simpl. intros _. split; [lia|]. intros j x Hj Hx Hc. pose proof (tr_pid _ Ht j x Hx Hc). lia.
  - simpl. intros j ->. destruct Hp as [|[= ->]]; [done|]. split; [done|exact Hr].
  - done.
  - intros _. split; [by eapply not_alive_childless; [done|exact Hv|congruence]|]. rewrite Hini. intros [= ->]. congruence.
Qed.

Lemma fork_wlp s0 :
  tree_ok s0 -> running s0 -> k_nextpid s0 < 2 ^ 31 - 1 ->
  wlp (fork kend data trapret forkret) (fun _ => tree_ok) tree_ok s0.
Proof.
  intros Ht Hr Hn. unfold fork. apply wlp_bind. eapply wlp_mono; [by apply allocproc_wlp| |].
  2: { intros s (i & Hw & T). eapply fresh_tree; [done..|exact T|by left|done|done]. }
  intros [i|] s1; [|intros [E|(i & Hw & T)]; apply wlp_ret; [by eapply view_tree|eapply fresh_tree; [done..|exact T|by left|done|done]]].
  intros [Hw T1].
  assert (forall par s', fork_parent s0 par -> tracks s0 i (Slot (k_nextpid s0) par Alive) (s32 (k_nextpid s0 + 1)) s' -> tree_ok s') as Hok.
  { intros par s' Hp T. by eapply fresh_tree. }
  assert (forall s', tracks s0 i (fresh_slot s0 Alive) (s32 (k_nextpid s0 + 1)) s' -> tree_ok s') as HN by (intros s'; apply Hok; by left).
  assert (forall s', tracks s0 i (Slot (k_nextpid s0) (Some (k_cur s0)) Alive) (s32 (k_nextpid s0 + 1)) s' -> tree_ok s') as HP
    by (intros s'; apply Hok; by right).
  apply wlp_bind, wlp_gets. set (p := cur_proc s1).
  apply wlp_bind. eapply wlp_track_quiet; [auto with quiet|done|exact T1| |done]. intros d s2 T2.
  apply wlp_bind. eapply wlp_track_quiet; [quiet|done|exact T2| |done]. intros _ s3 T3.
  destruct (d =? 0).
  - apply wlp_bind, wlp_gets. apply wlp_bind. eapply wlp_track_quiet; [auto with quiet|done|exact T3| |done]. intros _ s4 T4.
    apply wlp_bind. eapply wlp_track_quiet; [quiet|done|exact T4| |done]. intros _ s5 T5.
    apply wlp_bind. eapply (wlp_track_on_proc _ _ _ _ _ _ (fresh_slot s0 Free)); [exact T5| |].
    { intros q Hq. unfold slot_of in *; simpl. by injection Hq as -> -> _. }
    intros s6 T6. apply wlp_ret. eapply fresh_tree; [done..|exact T6|by left|done|done].
  - apply wlp_bind. eapply wlp_track_quiet; [quiet|done|exact T3| |done]. intros _ s4 T4.
    apply wlp_bind, wlp_gets. apply wlp_bind.
    assert (k_cur s4 = k_cur s0) as -> by (destruct T4 as [[= _ _ _ ?] _]; done).
    eapply (wlp_track_on_proc _ _ _ _ _ _ (Slot (k_nextpid s0) (Some (k_cur s0)) Alive)); [exact T4| |].
    { intros q Hq. unfold slot_of in *; simpl. by injection Hq as -> _ ->. }
    intros s5 T5. apply wlp_bind. eapply wlp_track_quiet; [quiet|done|exact T5| |done]. intros _ s6 T6.
    apply wlp_bind, wlp_gets.
    do 6 (apply wlp_bind; eapply wlp_track_quiet; [quiet|done|eassumption| |done]; intros ? ? ?).
    apply wlp_bind, wlp_gets. apply wlp_bind.
    eapply (wlp_track_on_proc _ _ _ _ _ _ (Slot (k_nextpid s0) (Some (k_cur s0)) Alive)); [eassumption| |].
    { intros q Hq. unfold slot_of in *; simpl. by injection Hq as -> -> _. }
    intros s7 T7. apply wlp_ret. by apply HP.
Qed.

(** ** [waitpid] *)

(** Reaping a zombie frees its slot. *)
Lemma reap_wlp s0 i v :
  tree_ok s0 -> running s0 -> slots s0 !! i = Some v -> v_class v = Dead ->
  wlp (reap kend i) (fun _ s => tree_ok s /\ running s) tree_ok s0.
Proof.
  intros Ht Hr Hv Hd.
  assert (i <> k_cur s0) as Hne by (intros ->; destruct Hr as (w & Hw & Hc); congruence).
  assert (childless s0 i) as Hch by (eapply not_alive_childless; [done|exact Hv|congruence]).
  assert (k_initproc s0 <> Some i) as Hni.
  { destruct (tr_init _ Ht) as (ini & -> & w & Hw & Hc). intros [= ->]. congruence. }
  assert (i < NPROC)%nat as Hi.
  { apply lookup_lt_Some in Hv. unfold slots in Hv. by rewrite length_fmap, (tr_len _ Ht) in Hv. }
  assert (forall s', tracks s0 i v (k_nextpid s0) s' -> tree_ok s') as HN.
  { intros s' [Hview _]. eapply view_tree; [|exact Ht]. rewrite Hview, list_insert_id by done. done. }
  unfold reap. apply wlp_bind, wlp_gets. set (p := proc_at i s0).
  apply wlp_bind. eapply wlp_track_quiet; [auto with quiet|done|by apply tracks_start| |done]. intros _ s1 T1.
  do 2 (apply wlp_bind; eapply wlp_track_quiet; [quiet|done|eassumption| |done]; intros ? ? ?).
  apply wlp_bind. eapply (wlp_track_on_proc _ _ _ _ _ _ (Slot (v_pid v) (v_parent v) Free)); [eassumption| |].
  { intros q Hq. unfold slot_of in *; subst v; simpl. done. }
  intros s2 T2. apply wlp_bind. eapply (wlp_track_on_proc _ _ _ _ _ _ (Slot 0 (v_parent v) Free)); [exact T2| |].
  { intros q Hq. unfold slot_of in *; simpl. by injection Hq as _ -> ->. }
  intros s3 T3. apply wlp_bind. eapply (wlp_track_on_proc _ _ _ _ _ _ (Slot 0 None Free)); [exact T3| |].
  { intros q Hq. unfold slot_of in *; simpl. by injection Hq as -> _ ->. }
  intros s4 T4.
  assert (forall sf, tracks s0 i (Slot 0 None Free) (k_nextpid s0) sf -> tree_ok sf /\ running sf) as HF.
  { intros sf T. split; [|by eapply tracks_running]. destruct T as [Hview _].
    eapply (tree_replace s0 sf i (Slot 0 None Free)); [done|done|exact Hview|lia|done|done|done|done]. }
  do 2 (apply wlp_bind; eapply wlp_track_quiet; [quiet|done|eassumption| |intros sf T; by apply HF]; intros ? ? ?).
  eapply wlp_track_quiet; [quiet|done|eassumption|intros _ sf T; by apply HF|intros sf T; by apply HF].
Qed.

(** A way of storing the status that leaves the process table alone. *)
Definition quiet_store (status : option (Z -> M kernel unit)) : Prop :=
  match status with Some f => forall v, quiet (f v) | None => True end.

Lemma waitpid_scan_wlp ps childPid status hk s0 :
  tree_ok s0 -> running s0 -> quiet_store status ->
  wlp (waitpid_scan kend ps childPid status hk) (fun _ s => tree_ok s /\ running s) tree_ok s0.
Proof.
  intros Ht Hr Hq. revert hk. induction ps as [|i ps IH]; intros hk; cbn [waitpid_scan]; [by apply wlp_ret|].
  apply wlp_bind, wlp_gets. apply wlp_bind, wlp_gets.
  destruct (bool_decide_reflect (p_parent (proc_at i s0) = Some (k_cur s0))) as [Hp|]; [|apply IH]. cbn [negb].
  destruct (_ && _); [apply IH|]. destruct (decide (p_state (proc_at i s0) = ZOMBIE)) as [Hz|]; [|apply IH].
  destruct status as [store|]; [|by apply wlp_ret]. unfold proc_at in *.
  destruct (k_ptable s0 !! i) as [p|] eqn:E; simpl in *; [|done].
  apply wlp_bind. apply wlp_quiet; [apply Hq|done| |intros s'; by intros ?%view_tree].
  intros _ s1 E1. pose proof (slots_lookup _ _ _ E) as Hv.
  assert (slots s1 = slots s0) as Es by (by injection E1).
  apply wlp_bind. eapply wlp_mono; [eapply (reap_wlp s1 i (slot_of p))| |done].
  - by eapply view_tree.
  - by eapply view_running.
  - by rewrite Es.
  - simpl. by rewrite Hz.
  - intros ? s2 HH. by apply wlp_ret.
Qed.

Lemma waitpid_wlp childPid status s0 :
  tree_ok s0 -> running s0 -> quiet_store status ->
  wlp (waitpid kend childPid status) (fun _ s => tree_ok s /\ running s) tree_ok s0.
Proof.
  intros Ht Hr Hq. unfold waitpid. apply wlp_bind. eapply wlp_mono; [by apply waitpid_scan_wlp| |done].
  intros [v|hk] s [Hs Hrs]; [by apply wlp_ret|]. apply wlp_quiet; [quiet|done| |].
  - intros ? s' E. split; [by eapply view_tree|by eapply view_running].
  - intros s' E. by eapply view_tree.
Qed.

(** [fg] waits for one process after the other. *)
Lemma fg_wlp jid s0 : tree_ok s0 -> running s0 -> wlp (fg kend jid) (fun _ => tree_ok) tree_ok s0.
Proof.
  intros Ht Hr. unfold fg. apply wlp_bind. generalize (seq 0 NPROC). intros ps. revert s0 Ht Hr.
  induction ps as [|i ps IH]; intros s0 Ht Hr; cbn [for_]; [by apply wlp_ret, wlp_ret|].
  assert (forall s, tree_ok s /\ running s -> wlp (for_ ps (fun i => let! p := gets (proc_at i) in
    if p_pid p <? 3 then ret tt else let! j := job_jid p in
      if j =? jid then let! _ := waitpid kend (p_pid p) (Some (fun _ => ret tt)) in ret tt else ret tt))
    (fun _ => wlp (ret 0) (fun _ => tree_ok) tree_ok) tree_ok s) as HI by (intros s [? ?]; by apply IH).
  apply wlp_bind, wlp_bind, wlp_gets. destruct (_ <? 3); [by apply wlp_ret, HI|].
  apply wlp_bind. apply wlp_quiet; [apply quiet_job_jid|done| |intros s' E; by eapply view_tree].
  intros j s1 E1. pose proof (view_tree _ _ E1 Ht) as Ht1. pose proof (view_running _ _ E1 Hr) as Hr1.
  destruct (j =? jid); [|by apply wlp_ret, HI].
  apply wlp_bind. eapply wlp_mono; [apply (waitpid_wlp _ (Some (fun _ => ret tt)) s1); [done|done|intros v; apply quiet_ret]| |done].
  intros ? s2 HH. by apply wlp_ret, HI.
Qed.

(** ** [exit] *)

Lemma wlp_for {A} (I : nat -> kernel -> Prop) (xs : list A) (body : A -> M kernel unit) S s :
  I O s -> (forall k x s', xs !! k = Some x -> I k s' -> wlp (body x) (fun _ => I (Datatypes.S k)) S s') ->
  wlp (for_ xs body) (fun _ => I (length xs)) S s.
Proof.
  revert I s. induction xs as [|x xs IH]; intros I s H0 Hstep; [done|]. simpl. apply wlp_bind.
  eapply wlp_mono; [by apply (Hstep O)| |done]. intros [] s' H1. apply (IH (fun k => I (Datatypes.S k))); [done|].
  intros k y s'' Hk. by apply Hstep.
Qed.

(** The first [n] slots with the children of [me] given to [ini]. *)
Definition adopt (me ini : nat) (v : slot) : slot :=
  if decide (v_parent v = Some me) then Slot (v_pid v) (Some ini) (v_class v) else v.
Definition adopted (me ini n : nat) (tbl : list slot) : list slot :=
  imap (fun j v => if decide (j < n)%nat then adopt me ini v else v) tbl.

Lemma adopted_lookup me ini n tbl j :
  adopted me ini n tbl !! j = (fun v => if decide (j < n)%nat then adopt me ini v else v) <$> tbl !! j.
Proof. unfold adopted. by rewrite list_lookup_imap. Qed.

Lemma adopted_step me ini n tbl v :
  tbl !! n = Some v -> <[n := adopt me ini v]> (adopted me ini n tbl) = adopted me ini (S n) tbl.
Proof.
  intros Hv. apply list_eq. intros j. rewrite adopted_lookup. destruct (decide (n = j)) as [<-|Hne].
  - rewrite list_lookup_insert_eq by (unfold adopted; rewrite length_imap; by eapply lookup_lt_Some).
    rewrite Hv. simpl. by rewrite decide_True by lia.
  - rewrite list_lookup_insert_ne, adopted_lookup by done. destruct (tbl !! j) as [w|]; [|done]. simpl. f_equal.
    destruct (decide (j < n)%nat), (decide (j < S n)%nat); try done; lia.
Qed.

Definition tree_view (s0 : kernel) (tbl : list slot) (s : kernel) : Prop :=
  view s = (tbl, k_nextpid s0, k_initproc s0, k_cur s0).

(** The loop of [exit] over the table. *)
Lemma adopt_loop_wlp s0 ini s :
  tree_ok s0 -> running s0 -> k_initproc s0 = Some ini -> view s = view s0 ->
  wlp (for_ (seq 0 NPROC) (fun i =>
      let! q := gets (proc_at i) in
      if decide (p_parent q = Some (k_cur s0)) then
        on_proc i (set_parent (Some ini)) ;;;
        if decide (p_state q = ZOMBIE) then wakeup1 (ch_proc <$> Some ini) else ret tt
      else ret tt))
    (fun _ => tree_view s0 (adopted (k_cur s0) ini NPROC (slots s0))) (fun _ => False) s.
Proof.
  intros Ht Hr Hini Hs. set (me := k_cur s0).
  eapply wlp_mono; [apply (wlp_for (fun n => tree_view s0 (adopted me ini n (slots s0))) _ _ (fun _ => False))| |done].
  - unfold tree_view. rewrite Hs. unfold view. f_equal. f_equal. f_equal. apply list_eq. intros j. rewrite adopted_lookup.
    by destruct (slots s0 !! j).
  - intros n i s1 [-> Hn]%lookup_seq H1. rewrite Nat.add_0_l. apply wlp_bind, wlp_gets.
    destruct (lookup_lt_is_Some_2 (slots s0) n) as [v Hv]; [unfold slots; by rewrite length_fmap, (tr_len _ Ht)|].
    assert (slots s1 !! n = Some v) as Hv1.
    { injection H1 as Es _ _ _. rewrite Es, adopted_lookup, Hv. simpl. by rewrite decide_False by lia. }
    destruct (slots_lookup_inv _ _ _ Hv1) as (q & Hq & Eq). unfold proc_at. rewrite Hq. simpl default.
    pose proof (adopted_step me ini n (slots s0) v Hv) as Hstep. rewrite <- Eq in Hstep. unfold adopt at 1 in Hstep. simpl in Hstep.
    destruct (decide (p_parent q = Some me)) as [Hp|Hp].
    + apply wlp_bind. apply (wlp_on_proc n _ (Slot (p_pid q) (Some ini) (class_of (p_state q)))).
      { intros q' Hq'. rewrite Hq in Hq'. injection Hq' as <-. done. }
      intros s2 H2. unfold with_slot in H2. injection H1 as Es En Ei Ec. rewrite Es, En, Ei, Ec, Hstep in H2.
      destruct (decide (p_state q = ZOMBIE)); [|by apply wlp_ret].
      unfold wakeup1, modify, wlp. unfold tree_view. by rewrite view_wakeup1.
    + apply wlp_ret. unfold tree_view in *. rewrite H1. f_equal. f_equal. f_equal. rewrite <- Hstep.
      symmetry. apply list_insert_id. rewrite adopted_lookup, Hv. simpl. rewrite decide_False by lia. by rewrite Eq.
  - intros [] s'. by rewrite length_seq.
Qed.

(** The tree after an exit: the process is a zombie and its children are
    [init]'s. *)
Lemma exited_tree s0 ini s :
  tree_ok s0 -> running s0 -> k_initproc s0 = Some ini -> ini <> k_cur s0 ->
  tree_view s0 (alter (fun v => Slot (v_pid v) (v_parent v) Dead) (k_cur s0) (adopted (k_cur s0) ini NPROC (slots s0))) s ->
  tree_ok s.
Proof.
  intros Ht Hr Hini Hne [= Es En Ei Ec]. set (me := k_cur s0) in *.
  assert (forall j v, slots s !! j = Some v -> exists w, slots s0 !! j = Some w /\ v_pid v = v_pid w /\
    v_parent v = v_parent (adopt me ini w) /\ v_class v = (if decide (j = me) then Dead else v_class w)) as Hlk.
  { intros j v. rewrite Es. destruct (decide (j = me)) as [->|Hj].
    - rewrite list_lookup_alter_eq, adopted_lookup. destruct (slots s0 !! me) as [w|] eqn:E; [|done]. simpl.
      apply lookup_lt_Some in E as Hl. unfold slots in Hl. rewrite length_fmap, (tr_len _ Ht) in Hl.
      rewrite decide_True by done. intros [= <-]. exists w. simpl. unfold adopt. by case_decide.
    - rewrite list_lookup_alter_ne, adopted_lookup by done. destruct (slots s0 !! j) as [w|] eqn:E; [|done]. simpl.
      apply lookup_lt_Some in E as Hl. unfold slots in Hl. rewrite length_fmap, (tr_len _ Ht) in Hl.
      rewrite decide_True by done. intros [= <-]. exists w. unfold adopt. by case_decide. }
  assert (forall j, alive (slots s0) j -> j <> me -> alive (slots s) j) as Hal.
  { intros j (w & Hw & Hc) Hj. apply lookup_lt_Some in Hw as Hl. unfold slots in Hl. rewrite length_fmap, (tr_len _ Ht) in Hl.
    exists (adopt me ini w). rewrite Es, list_lookup_alter_ne, adopted_lookup, Hw by done. simpl. rewrite decide_True by done.
    split; [done|]. unfold adopt. by case_decide. }
  assert (v_class <$> slots s0 !! me = Some Alive) as Hme by (destruct Hr as (w & Hw & <-); fold me in Hw; by rewrite Hw).
  assert (forall j v w, slots s0 !! j = Some w -> v_class v = (if decide (j = me) then Dead else v_class w) ->
    (v_class v <> Free -> v_class w <> Free) /\ (v_class v = Free -> v_class w = Free)) as Hcl.
  { intros j v w Hw Hc. destruct (decide (j = me)) as [->|]; [|by rewrite Hc]. rewrite Hw in Hme. injection Hme as Hme.
    rewrite Hc, Hme. done. }
  destruct (tr_init _ Ht) as (ini' & Hi' & Ha). rewrite Hini in Hi'. injection Hi' as <-.
  split.
  - intros j v (w & Hw & -> & _ & Hc)%Hlk Hf. rewrite En. eapply (tr_pid _ Ht); [exact Hw|]. by eapply Hcl.
  - intros j1 j2 v1 v2 (w1 & Hw1 & E1 & _ & Hc1)%Hlk (w2 & Hw2 & E2 & _ & Hc2)%Hlk Hf1 Hf2 E.
    eapply (tr_inj _ Ht); [exact Hw1|exact Hw2|by eapply Hcl|by eapply Hcl|congruence].
  - intros j v k (w & Hw & _ & Hp & _)%Hlk Hk. rewrite Hp in Hk. unfold adopt in Hk. case_decide as Hd.
    + injection Hk as <-. by apply Hal.
    + apply Hal; [by eapply (tr_parent _ Ht)|]. congruence.
  - intros j v (w & Hw & _ & Hp & Hc)%Hlk Hf. rewrite Hp. unfold adopt.
    assert (v_parent w = None) as Hn by (eapply (tr_free _ Ht); [exact Hw|by eapply Hcl]). by rewrite decide_False by congruence.
  - exists ini. rewrite Ei. split; [done|by apply Hal].
  - apply (f_equal length) in Es. unfold slots in Es. rewrite length_alter in Es. unfold adopted in Es.
    rewrite length_imap, !length_fmap in Es. rewrite Es. apply Ht.
Qed.

Lemma exit_wlp status s0 : tree_ok s0 -> running s0 -> wlp (exit kend status) (fun _ => tree_ok) tree_ok s0.
Proof.
  intros Ht Hr. unfold exit. destruct (tr_init _ Ht) as (ini & Hini & _).
  assert (forall s, view s = view s0 -> tree_ok s /\ running s) as HV by (intros s E; split; [by eapply view_tree|by eapply view_running]).
  assert (forall s, view s = view s0 -> tree_ok s) as HT by (intros s E; by apply HV).
  assert (forall A (m : M kernel A) Q s, quiet m -> view s = view s0 -> (forall a s', view s' = view s0 -> Q a s') -> wlp m Q tree_ok s) as HQ.
  { intros A m Q s Hq E H. apply wlp_quiet; [done|by apply HV| |]; intros; [apply H|apply HT]; congruence. }
  apply wlp_bind, HQ; [quiet|done|]. intros _ s1 E1. apply wlp_bind, wlp_gets. apply wlp_bind, wlp_gets.
  assert (k_cur s1 = k_cur s0 /\ k_initproc s1 = Some ini) as [-> ->] by (injection E1 as _ _ -> ->; done).
  destruct (decide (Some ini = Some (k_cur s0))) as [|Hne]; [done|].
  apply wlp_bind, HQ; [quiet|done|]. intros _ s2 E2. apply wlp_bind, HQ; [quiet|done|]. intros _ s3 E3.
  apply wlp_bind, wlp_gets. do 5 (apply wlp_bind, HQ; [quiet|done|]; intros ? ? ?). apply wlp_bind.
  eapply wlp_mono; [by apply (adopt_loop_wlp s0 ini)| |done]. intros _ s4 [= Es En Ei Ec].
  unfold on_cur, modify, wlp. apply (exited_tree s0 ini); [done|done|done|congruence|].
  unfold tree_view, view; simpl. rewrite En, Ei, Ec. f_equal. f_equal. f_equal. rewrite <- Es. unfold slots; simpl.
  apply list_eq. intros j. rewrite list_lookup_fmap. destruct (decide (k_cur s0 = j)) as [<-|].
  - rewrite !list_lookup_alter_eq, list_lookup_fmap. by destruct (k_ptable s4 !! k_cur s0).
  - by rewrite !list_lookup_alter_ne, list_lookup_fmap.
Qed.

(** ** The dispatcher *)

Definition call_ok {A} (f : M kernel A) : Prop :=
  forall s, tree_ok s -> running s -> k_nextpid s < 2 ^ 31 - 1 -> wlp f (fun _ => tree_ok) tree_ok s.

Lemma quiet_call_ok {A} (f : M kernel A) : quiet f -> call_ok f.
Proof. intros Hq s Ht Hr _. apply wlp_quiet; [done|done| |]; intros; by eapply view_tree. Qed.

Lemma returns_ok f : call_ok f -> call_ok (returns f).
Proof.
  intros Hf s Ht Hr Hn. unfold returns. apply wlp_bind. eapply wlp_mono; [by apply Hf| |done].
  intros a s' H. by apply wlp_ret.
Qed.

Lemma user_ptr_quiet p : quiet_store (user_ptr p).
Proof. unfold user_ptr. destruct (p =? 0); [done|]. intros v. apply quiet_vwrite32. Qed.

(** A call that fetches an argument first. *)
Lemma need_ok {A} (m : M kernel (option A)) k : quiet m -> (forall a, call_ok (k a)) -> call_ok (need m k).
Proof.
  intros Hm Hk s Ht Hr Hn. unfold need. apply wlp_bind, wlp_quiet; [done|done| |intros; by eapply view_tree].
  intros [a|] s1 E; [|apply wlp_ret; by eapply view_tree].
  apply Hk; [by eapply view_tree|by eapply view_running|]. injection E as _ -> _ _. done.
Qed.

Lemma waitpid_ok pid p : call_ok (waitpid kend pid (user_ptr p)).
Proof.
  intros s Ht Hr _. eapply wlp_mono; [apply waitpid_wlp; [done|done|apply user_ptr_quiet]| |done]. by intros ? s' [? _].
Qed.

Lemma sys_waitpid_ok : call_ok (sys_waitpid kend).
Proof.
  intros s Ht Hr Hn. unfold sys_waitpid. apply wlp_bind, wlp_quiet; [auto with quiet|done| |intros; by eapply view_tree].
  intros a s1 E1. apply wlp_bind, wlp_quiet; [auto with quiet|by eapply view_running| |intros; eapply view_tree; [|exact Ht]; congruence].
  intros b s2 E2. assert (view s2 = view s) as E by congruence.
  assert (tree_ok s2) by (by eapply view_tree). assert (running s2) by (by eapply view_running).
  destruct a as [pid|], b as [st|]; try by apply wlp_ret. apply waitpid_ok; [done|done|]. injection E as _ -> _ _. done.
Qed.

Lemma sys_exit_ok : call_ok (sys_exit kend).
Proof.
  intros s Ht Hr Hn. unfold sys_exit. apply wlp_bind, wlp_quiet; [auto with quiet|done| |intros; by eapply view_tree].
  intros [st|] s1 E; [|apply wlp_ret; by eapply view_tree]. apply wlp_bind.
  eapply wlp_mono; [apply exit_wlp; [by eapply view_tree|by eapply view_running]| |done]. intros ? s2 H. by apply wlp_ret.
Qed.

Lemma syscalls_ok num f :
  syscalls kend data trapret forkret dv implicit_exit junk num = Some f -> call_ok f.
Proof.
  intros H. unfold syscalls in H. destruct num as [|p|p]; try discriminate H.
  do 5 (try (destruct p as [p|p|]; try discriminate H)); injection H as <-;
    first [apply sys_exit_ok | apply returns_ok];
    first [solve [apply quiet_call_ok; auto with quiet] | apply sys_waitpid_ok | idtac].
  - unfold sys_getpid. apply quiet_call_ok, quiet_gets.
  - unfold sys_wait, wait. apply (need_ok (argint 0)); [apply quiet_argint|]. intros a. cbn beta. apply (waitpid_ok (-1) a).
  - unfold sys_uptime. apply quiet_call_ok, quiet_gets.
  - unfold sys_fg. apply (need_ok (argint 0)); [apply quiet_argint|]. intros a s Ht Hr _. by apply fg_wlp.
  - intros s Ht Hr Hn. by apply fork_wlp.
Qed.

(** Every system call, whatever its number and arguments, leaves a good
    process tree when it returns and when it goes to sleep. *)
Lemma syscall_wlp s :
  tree_ok s -> running s -> k_nextpid s < 2 ^ 31 - 1 ->
  leaves (syscall kend data trapret forkret dv implicit_exit junk) tree_ok s.
Proof.
  intros Ht Hr Hn. apply wlp_leaves. unfold syscall. apply wlp_bind, wlp_gets.
  assert (forall a v s', tree_ok s' -> wlp (kstore a v) (fun _ => tree_ok) tree_ok s') as HK.
  { intros a v s' H. unfold kstore, with_mem, on_mem, modify, wlp. by apply (view_tree s'). }
  apply wlp_bind, wlp_quiet; [auto with quiet|done| |intros; by eapply view_tree]. intros num s1 E.
  assert (tree_ok s1) as Ht1 by (by eapply view_tree).
  destruct (syscalls _ _ _ _ _ _ _ _) as [f|] eqn:Ef; [|apply wlp_bind; unfold print at 1, modify at 1; cbn beta; apply HK; by apply (view_tree s1)].
  apply wlp_bind. eapply wlp_mono; [apply (syscalls_ok _ _ Ef)| |done].
  - done.
  - by eapply view_running.
  - injection E as _ -> _ _. done.
  - intros [v|] s2 H2; [by apply HK|by apply wlp_ret].
Qed.
End Tree.
