(* ===== verification/ExitSpec.v ===== *)
(** * [exit] and [waitpid]

    What [exit] leaves in the process table, and that the parent's [waitpid]
    finds the exit status there. *)

From S2P Require Import Prelude Bytes Params CString FsState Bio Log Crash Store Txn Fs FsInode Kalloc Vm VmMap VmSpace VmFree Pipe Kernel File Proc.
From S2P Require Import ProcSpec ProcInv ProcTree.

(** ** Other processes

    While a process runs in the kernel, the others only change by being woken
    up. *)
Definition stirred (p p' : proc) : Prop := p' = p \/ (p_state p = SLEEPING /\ p' = set_state RUNNABLE p).

#[export] Instance stirred_preorder : PreOrder stirred.
Proof.
  split; [by left|]. intros p q r [->|[Hp ->]] [->|[Hq ->]]; first [by left|by right|done].
Qed.

(** From [s] to [s'] the current process has become [q] and the others have at
    most been woken up. *)
Record ran (s s' : kernel) (q : proc) : Prop := {
  rn_cur : k_cur s' = k_cur s;
  rn_init : k_initproc s' = k_initproc s;
  rn_len : length (k_ptable s') = length (k_ptable s);
  rn_self : cur_proc s' = q;
  rn_other : forall j, j <> k_cur s -> stirred (proc_at j s) (proc_at j s')
}.

Lemma ran_refl s : ran s s (cur_proc s).
Proof. split; try done. Qed.

Lemma ran_trans s s1 s2 q1 q2 : ran s s1 q1 -> ran s1 s2 q2 -> ran s s2 q2.
Proof.
  intros [C1 I1 L1 S1 O1] [C2 I2 L2 S2 O2]. split; try congruence.
  intros j Hj. etransitivity; [by apply O1|]. apply O2. by rewrite C1.
Qed.

Lemma stirred_wakeup1 c p : stirred p (wakeup1_proc c p).
Proof. unfold wakeup1_proc. case_decide as E; [right; by destruct E|by left]. Qed.

Lemma proc_at_wakeup1 c j s : proc_at j (wakeup1_in c s) = wakeup1_proc c (proc_at j s).
Proof. unfold proc_at, wakeup1_in; cbn. rewrite list_lookup_fmap. by destruct (k_ptable s !! j). Qed.

Lemma wakeup1_running c p : p_state p <> SLEEPING -> wakeup1_proc c p = p.
Proof. intros Hp. unfold wakeup1_proc. by rewrite decide_False by (by intros []). Qed.

Lemma ran_wakeup1 c s : p_state (cur_proc s) <> SLEEPING -> ran s (wakeup1_in c s) (cur_proc s).
Proof.
  intros Hs. split; try done.
  - cbn. apply length_fmap.
  - unfold cur_proc at 1. rewrite proc_at_wakeup1. by apply wakeup1_running.
  - intros j _. rewrite proc_at_wakeup1. apply stirred_wakeup1.
Qed.

Lemma ran_wake_all cs s : p_state (cur_proc s) <> SLEEPING -> ran s (wake_all cs s) (cur_proc s).
Proof.
  unfold wake_all. revert s. induction cs as [|c cs IH]; intros s Hs; cbn; [apply ran_refl|].
  pose proof (ran_wakeup1 (Some c) s Hs) as H1. eapply ran_trans; [exact H1|]. rewrite <- (rn_self _ _ _ H1).
  apply IH. by rewrite (rn_self _ _ _ H1).
Qed.

(** The process table does not depend on the other parts of the state. *)
Lemma ran_set_fs f s s' q : ran s s' q -> ran s (set_fs f s') q.
Proof. by intros []. Qed.
Lemma ran_from_fs f s s' q : ran (set_fs f s) s' q -> ran s s' q.
Proof. by intros []. Qed.

(** Changing the current process. *)
Lemma ran_on_cur f s : (k_cur s < length (k_ptable s))%nat ->
  exists s', on_cur f s = Ok tt s' /\ ran s s' (f (cur_proc s)) /\ k_fs s' = k_fs s /\ k_ftable s' = k_ftable s.
Proof.
  intros Hc. unfold on_cur, modify. eexists. split; [done|]. split; [|done]. split; try done.
  - cbn. apply length_alter.
  - unfold cur_proc, proc_at; cbn. rewrite list_lookup_alter_eq. by destruct (lookup_lt_is_Some_2 _ _ Hc) as [p ->].
  - intros j Hj. left. unfold proc_at; cbn. by rewrite list_lookup_alter_ne.
Qed.

Lemma wp_on_cur f (Q : unit -> kernel -> Prop) s :
  (k_cur s < length (k_ptable s))%nat ->
  (forall s', ran s s' (f (cur_proc s)) -> k_fs s' = k_fs s -> k_ftable s' = k_ftable s -> Q tt s') -> wp (on_cur f) Q s.
Proof. intros Hc HQ. destruct (ran_on_cur f s Hc) as (s' & E & H & Hf & Ht). apply wp_ok. eexists _, s'. split; [done|]. by apply HQ. Qed.

Lemma wake_all_rest cs s : k_fs (wake_all cs s) = k_fs s /\ k_ftable (wake_all cs s) = k_ftable s /\ k_mem (wake_all cs s) = k_mem s.
Proof. unfold wake_all. revert s. induction cs as [|c cs IH]; intros s; cbn; [done|]. by destruct (IH (wakeup1_in (Some c) s)) as (-> & -> & ->). Qed.

(** A routine of the storage stack. *)
Lemma wp_with_fs_ran {A} (m : M kst A) (P : A -> kst -> Prop) (Q : A -> kernel -> Prop) s :
  p_state (cur_proc s) <> SLEEPING -> wp m P (clear_wakeups (k_fs s)) ->
  (forall a f s', P a f -> ran s s' (cur_proc s) -> k_fs s' = f -> Q a s') -> wp (with_fs m) Q s.
Proof.
  intros Hs Hm HQ. apply wp_with_fs. eapply wp_mono; [exact Hm|]. intros a f Ha.
  pose proof (ran_wake_all (wakeups f) (set_fs f s) Hs) as Hr.
  apply (HQ a f); [done|by apply (ran_from_fs f)|]. by destruct (wake_all_rest (wakeups f) (set_fs f s)) as (-> & _).
Qed.

(** ** Closing the descriptors *)

(** The files stay open in other processes: each has more references than the
    descriptors [os] account for. *)
Definition files_shared (os : list (option nat)) (ft : list file) : Prop :=
  forall f, Some f ∈ os -> exists x, ft !! f = Some x /\ Z.of_nat (length (filter (fun o => o = Some f) os)) < f_ref x.

Lemma files_shared_cons o os ft :
  files_shared (o :: os) ft ->
  files_shared os (match o with Some f => alter (fun x => f_with_ref (f_ref x - 1) x) f ft | None => ft end).
Proof.
  intros H g Hg. destruct (H g) as (x & Hx & Hr); [by right|].
  destruct (decide (o = Some g)) as [->|Hne].
  - rewrite filter_cons_True in Hr by done. exists (f_with_ref (f_ref x - 1) x). rewrite list_lookup_alter_eq, Hx.
    split; [done|]. cbn [f_ref f_with_ref length] in *. lia.
  - rewrite filter_cons_False in Hr by done. exists x. split; [|done]. destruct o as [f|]; [|done].
    rewrite list_lookup_alter_ne; [done|]. by intros ->.
Qed.

(** Closing a file that others have open only drops a reference. *)
Lemma fileclose_shared kend f x Q s :
  k_ftable s !! f = Some x -> 1 < f_ref x ->
  Q tt (set_ftable (alter (fun x => f_with_ref (f_ref x - 1) x) f (k_ftable s)) s) -> wp (fileclose kend f) Q s.
Proof.
  intros Hx Hr HQ. unfold fileclose. apply wp_bind, wp_gets. unfold file_at at 1. rewrite Hx. cbn [default from_option id].
  destruct (Z.ltb_spec (f_ref x) 1); [lia|]. apply wp_bind, wp_modify, wp_bind, wp_gets.
  unfold file_at. cbn [k_ftable set_ftable]. rewrite list_lookup_alter_eq, Hx. cbn [fmap option_fmap option_map default from_option].
  cbn [id f_ref f_with_ref]. destruct (Z.ltb_spec 0 (f_ref x - 1)); [done|lia].
Qed.

(** The loop of [exit] over the descriptors. *)
Lemma close_loop_spec kend s :
  (k_cur s < length (k_ptable s))%nat -> length (p_ofile (cur_proc s)) = NOFILE ->
  files_shared (p_ofile (cur_proc s)) (k_ftable s) ->
  wp (for_ (seq 0 NOFILE) (fun fd =>
      let! p := gets cur_proc in
      match default None (p_ofile p !! fd) with
      | None => ret tt
      | Some f =>
          fileclose kend f ;;;
          on_cur (fun p => set_ofile (<[fd := None]> (p_ofile p)) p)
      end)) (fun _ s' => ran s s' (set_ofile (replicate NOFILE None) (cur_proc s)) /\ k_fs s' = k_fs s) s.
Proof.
  intros Hc Hlen Hsh. set (os := p_ofile (cur_proc s)) in *.
  set (I (n : nat) (s' : kernel) := ran s s' (set_ofile (replicate n None ++ drop n os) (cur_proc s)) /\ k_fs s' = k_fs s /\
    files_shared (drop n os) (k_ftable s')).
  eapply wp_mono; [apply (wp_for I)|].
  - split; [|by split; [|rewrite drop_0]]. cbn. unfold os. rewrite drop_0. pose proof (ran_refl s) as H.
    by destruct (cur_proc s) eqn:E.
  - intros n fd s1 [-> Hn]%lookup_seq (Hr & Hf & Hs1). rewrite Nat.add_0_l. rewrite <- Hlen in Hn.
    apply wp_bind, wp_gets. rewrite (rn_self _ _ _ Hr). cbn [p_ofile set_ofile].
    destruct (lookup_lt_is_Some_2 _ _ Hn) as [o Ho]. rewrite (drop_S _ _ _ Ho) in *.
    rewrite lookup_app_r, length_replicate, Nat.sub_diag by (by rewrite length_replicate). cbn [lookup list_lookup default from_option id].
    pose proof (files_shared_cons _ _ _ Hs1) as Hs2.
    assert (forall l, <[n := None]> (replicate n None ++ o :: l) = replicate (S n) None ++ l) as Hins.
    { intros l. rewrite replicate_S_end, <- app_assoc. cbn. rewrite insert_app_r_alt by (by rewrite length_replicate).
      by rewrite length_replicate, Nat.sub_diag. }
    destruct o as [f|].
    + destruct (Hs1 f) as (x & Hx & Hrx); [by left|]. rewrite filter_cons_True in Hrx by done. cbn [length] in Hrx.
      apply wp_bind, (fileclose_shared kend f x); [done|lia|]. set (s2 := set_ftable _ s1).
      apply wp_on_cur; [cbn; by rewrite (rn_cur _ _ _ Hr), (rn_len _ _ _ Hr)|]. intros s3 Hr3 Hf3 Ht3.
      assert (cur_proc s2 = cur_proc s1) as Ec by done. rewrite Ec, (rn_self _ _ _ Hr) in Hr3. cbn [p_ofile set_ofile] in Hr3.
      rewrite Hins in Hr3. split; [|split; [by rewrite Hf3|by rewrite Ht3]].
      eapply ran_trans; [exact Hr|]. destruct Hr3. by split.
    + apply wp_ret. split; [|done]. rewrite replicate_S_end, <- app_assoc. exact Hr.
  - intros [] s' (Hr & Hf & _). split; [|done]. rewrite length_seq in Hr. rewrite drop_ge, app_nil_r in Hr by lia. exact Hr.
Qed.

(** ** Leaving the working directory *)

(** The disk is between transactions, and the inode [c] has other references. *)
Record cwd_shared (s : kernel) (c : nat) : Prop := {
  cs_idle : exists start nlog D, idle start nlog D (k_fs s) /\ 0 < nlog;
  cs_inode : exists p, icache (k_fs s) !! c = Some p /\ 1 < i_ref p
}.

Lemma idle_clear start nlog D f : idle start nlog D f -> idle start nlog D (clear_wakeups f).
Proof. intros [[[Hg Hr Ha Hs Hp] Hd H1] Ho Hb]. split; try done. split; try done. split; try done. by eapply (rep_ext f). Qed.

Lemma leave_cwd c s (k : proc -> M kernel unit) (Q : unit -> kernel -> Prop) :
  p_state (cur_proc s) <> SLEEPING -> cwd_shared s c -> p_cwd (cur_proc s) = Some c ->
  (forall s', ran s s' (cur_proc s) -> wp (k (cur_proc s)) Q s') ->
  wp (with_fs begin_op ;;;
      let! p := gets cur_proc in
      (match p_cwd p with Some c => with_fs (iput c) | None => panic "trap" end) ;;;
      with_fs end_op ;;;
      k p) Q s.
Proof.
  intros Hs [(start & nlog & D & Hid & Hn) (p & Hp & Href)] Hcwd HQ. apply wp_bind.
  eapply (wp_with_fs_ran _ _ _ s Hs); [apply (begin_op_store start nlog D _ 0); [by apply idle_clear|lia|by apply Nat.leb_le]|].
  intros [] f1 s1 [Hst Hic] Hr1 Hf1. apply wp_bind, wp_gets. rewrite (rn_self _ _ _ Hr1), Hcwd.
  pose proof (rn_self _ _ _ Hr1) as C1. apply wp_bind. set (e := Env _ _ _ _ _ _) in *.
  assert (store e D ∅ 0 (clear_wakeups f1)) as Hst1 by (by eapply (store_ext e D ∅ 0 f1)).
  eapply (wp_with_fs_ran _ (fun _ f => store e D ∅ 0 f) _ s1); [by rewrite C1| |].
  { apply wp_ok. eexists _, _. split.
    - apply (iput_keep _ c p); [rewrite Hf1; cbn; by rewrite Hic|left; lia].
    - rewrite Hf1. by eapply (store_ext e D ∅ 0 (clear_wakeups f1)). }
  intros [] f2 s2 Hst2 Hr2 Hf2. pose proof (rn_self _ _ _ Hr2) as C2. rewrite C1 in C2.
  assert (store e D ∅ 0 (clear_wakeups f2)) as Hst2' by (by eapply (store_ext e D ∅ 0 f2)).
  apply wp_bind. eapply (wp_with_fs_ran _ (fun _ _ => True) _ s2); [by rewrite C2| |].
  { rewrite Hf2. eapply wp_mono; [by eapply end_op_store|]. done. }
  intros [] f3 s3 _ Hr3 _. apply HQ. eapply ran_trans; [exact Hr1|]. rewrite C1 in Hr2. eapply ran_trans; [exact Hr2|].
  by rewrite C2 in Hr3.
Qed.

(** ** Handing over the children *)

Definition reparent (me : nat) (ini : option nat) (p : proc) : proc :=
  if decide (p_parent p = Some me) then set_parent ini p else p.

Lemma stirred_parent p p' : stirred p p' -> p_parent p' = p_parent p /\ p_pid p' = p_pid p.
Proof. by intros [->|[_ ->]]. Qed.

Lemma stirred_reparent me ini p p' : stirred p p' -> stirred (reparent me ini p) (reparent me ini p').
Proof.
  intros [->|[Hs ->]]; [by left|]. unfold reparent. cbn [p_parent set_state]. case_decide; right; by split.
Qed.

(** The loop of [exit] over the table. *)
Lemma reparent_loop s me ini :
  k_cur s = me -> p_state (cur_proc s) <> SLEEPING -> p_parent (cur_proc s) <> Some me -> length (k_ptable s) = NPROC ->
  wp (for_ (seq 0 NPROC) (fun i =>
      let! q := gets (proc_at i) in
      if decide (p_parent q = Some me) then
        on_proc i (set_parent ini) ;;;
        if decide (p_state q = ZOMBIE) then wakeup1 (ch_proc <$> ini) else ret tt
      else ret tt)) (fun _ s' => k_cur s' = me /\ k_initproc s' = k_initproc s /\ length (k_ptable s') = NPROC /\
        cur_proc s' = cur_proc s /\ forall j, j <> me -> stirred (reparent me ini (proc_at j s)) (proc_at j s')) s.
Proof.
  intros Hc Hs Hp Hl.
  set (I (n : nat) (s' : kernel) := k_cur s' = me /\ k_initproc s' = k_initproc s /\ length (k_ptable s') = NPROC /\
    cur_proc s' = cur_proc s /\
    forall j, j <> me -> stirred (if decide (j < n)%nat then reparent me ini (proc_at j s) else proc_at j s) (proc_at j s')).
  eapply wp_mono; [apply (wp_for I)|].
  - split; [done|]. split; [done|]. split; [done|]. split; [done|]. intros j Hj. rewrite decide_False by lia. by left.
  - intros n i s1 [-> Hn]%lookup_seq (C1 & I1 & L1 & S1 & O1). rewrite Nat.add_0_l. apply wp_bind, wp_gets.
    assert (forall j, j <> n -> j <> me -> stirred (if decide (j < S n)%nat then reparent me ini (proc_at j s) else proc_at j s) (proc_at j s1)) as Hold.
    { intros j Hj Hm. specialize (O1 j Hm). destruct (decide (j < n)%nat), (decide (j < S n)%nat); try lia; done. }
    assert (n <> me -> stirred (reparent me ini (proc_at n s)) (reparent me ini (proc_at n s1))) as Hnew.
    { intros Hm. apply stirred_reparent. specialize (O1 n Hm). by rewrite decide_False in O1 by lia. }
    destruct (decide (p_parent (proc_at n s1) = Some me)) as [Hpar|Hpar].
    + assert (n <> me) as Hnm.
      { intros ->. unfold cur_proc in S1 at 1. rewrite C1 in S1. rewrite S1 in Hpar. done. }
      apply wp_bind, wp_modify. set (s2 := set_ptable _ s1).
      assert (I (S n) s2) as H2.
      { assert (forall j, j <> n -> proc_at j s2 = proc_at j s1) as Hat.
        { intros j Hj. unfold proc_at, s2; cbn. by rewrite list_lookup_alter_ne. }
        assert (proc_at n s2 = set_parent ini (proc_at n s1)) as Han.
        { unfold proc_at, s2; cbn. rewrite list_lookup_alter_eq.
          destruct (lookup_lt_is_Some_2 (k_ptable s1) n) as [p ->]; [lia|done]. }
        split; [done|]. split; [done|]. split; [cbn; by rewrite length_alter|]. split.
        - rewrite <- S1. unfold cur_proc. change (k_cur s2) with (k_cur s1). rewrite C1. apply Hat. done.
        - intros j Hj. destruct (decide (j = n)) as [->|Hne]; [|rewrite Hat by done; by apply Hold].
          rewrite decide_True by lia. rewrite Han. specialize (Hnew Hj). unfold reparent in Hnew at 2.
          by rewrite decide_True in Hnew. }
      case_decide; [|exact H2]. unfold wakeup1. apply wp_modify. destruct H2 as (C2 & I2 & L2 & S2 & O2).
      assert (p_state (cur_proc s2) <> SLEEPING) as Hs2 by (by rewrite S2).
      destruct (ran_wakeup1 (ch_proc <$> ini) s2 Hs2) as [C3 I3 L3 S3 O3].
      split; [congruence|]. split; [congruence|]. split; [congruence|]. split; [congruence|].
      intros j Hj. etransitivity; [by apply O2|]. apply O3. by rewrite C2.
    + apply wp_ret. split; [done|]. split; [done|]. split; [done|]. split; [done|].
      intros j Hj. destruct (decide (j = n)) as [->|Hne]; [|by apply Hold]. rewrite decide_True by lia.
      specialize (Hnew Hj). unfold reparent in Hnew at 2. by rewrite decide_False in Hnew.
  - intros [] s' (C & Ii & L & S & O). split; [done|]. split; [done|]. split; [done|]. split; [done|].
    intros j Hj. specialize (O j Hj). rewrite length_seq in O. destruct (decide (j < NPROC)%nat) as [|Hge]; [done|].
    unfold proc_at. rewrite !lookup_ge_None_2 by lia. by left.
Qed.

(** ** [exit] *)

Record exit_ready (s : kernel) (ini pp c : nat) : Prop := {
  er_len : length (k_ptable s) = NPROC;
  er_cur : (k_cur s < NPROC)%nat;
  er_init : k_initproc s = Some ini /\ ini <> k_cur s;
  er_state : p_state (cur_proc s) = RUNNING;
  er_parent : p_parent (cur_proc s) = Some pp /\ pp <> k_cur s;
  er_files : length (p_ofile (cur_proc s)) = NOFILE /\ files_shared (p_ofile (cur_proc s)) (k_ftable s);
  er_cwd : p_cwd (cur_proc s) = Some c;
  er_dir : cwd_shared s c
}.

(** What is left of the process. *)
Definition zombie (status : Z) (p : proc) : proc :=
  set_state ZOMBIE (set_job 0 (set_cwd None (set_ofile (replicate NOFILE None) (set_exit_status status p)))).

Lemma exit_spec kend status s ini pp c :
  exit_ready s ini pp c ->
  wp (exit kend status) (fun _ s' => k_cur s' = k_cur s /\ k_initproc s' = k_initproc s /\ length (k_ptable s') = NPROC /\
    cur_proc s' = zombie status (cur_proc s) /\
    (forall j, j <> k_cur s -> stirred (reparent (k_cur s) (Some ini) (proc_at j s)) (proc_at j s')) /\
    (p_state (proc_at pp s) = SLEEPING -> p_chan (proc_at pp s) = Some (ch_proc pp) -> p_state (proc_at pp s') = RUNNABLE)) s.
Proof.
  intros [Hl Hc [Hi Hin] Hst [Hpp Hpn] [Hol Hsh] Hcwd [Hid Hino]]. unfold exit.
  apply wp_bind, wp_on_cur; [lia|]. intros s1 R1 F1 T1. set (p1 := set_exit_status status (cur_proc s)) in *.
  apply wp_bind, wp_gets, wp_bind, wp_gets. rewrite (rn_init _ _ _ R1), (rn_cur _ _ _ R1), Hi.
  rewrite decide_False by congruence.
  apply wp_bind. eapply wp_mono; [apply close_loop_spec; rewrite ?(rn_self _ _ _ R1), ?T1; try done|].
  { by rewrite (rn_cur _ _ _ R1), (rn_len _ _ _ R1), Hl. }
  intros [] s2 [R2 F2]. rewrite (rn_self _ _ _ R1) in R2. pose proof (ran_trans _ _ _ _ _ R1 R2) as R02.
  apply leave_cwd with (c := c); rewrite ?(rn_self _ _ _ R2); cbn [p_state p_cwd set_ofile p1 set_exit_status]; rewrite ?Hst; try done.
  { split; rewrite F2, F1; done. }
  intros s3 R3. pose proof (ran_trans _ _ _ _ _ R02 R3) as R03.
  assert (forall s', k_cur s' = k_cur s -> length (k_ptable s') = length (k_ptable s) -> (k_cur s' < length (k_ptable s'))%nat) as Hlt by (intros s' -> ->; lia).
  apply wp_bind, wp_on_cur; [apply Hlt; apply R03|]. intros s4 R4 _ _. rewrite (rn_self _ _ _ R03) in R4. pose proof (ran_trans _ _ _ _ _ R03 R4) as R04.
  apply wp_bind, wp_on_cur; [apply Hlt; apply R04|]. intros s5 R5 _ _. rewrite (rn_self _ _ _ R04) in R5. pose proof (ran_trans _ _ _ _ _ R04 R5) as R05.
  set (q := set_job 0 _) in R05. assert (p_state q = RUNNING /\ p_parent q = Some pp) as [Hq Hqp] by done.
  change (p_parent (set_ofile (replicate NOFILE None) p1)) with (p_parent (cur_proc s)). rewrite Hpp.
  apply wp_bind. unfold wakeup1 at 1. apply wp_modify. set (s6 := wakeup1_in _ s5).
  assert (ran s s6 q) as R06.
  { eapply ran_trans; [exact R05|]. rewrite <- (rn_self _ _ _ R05). apply ran_wakeup1. by rewrite (rn_self _ _ _ R05), Hq. }
  assert (p_state (proc_at pp s) = SLEEPING -> p_chan (proc_at pp s) = Some (ch_proc pp) -> p_state (proc_at pp s6) = RUNNABLE) as Hwake.
  { intros Hs Hch. unfold s6. rewrite proc_at_wakeup1. unfold wakeup1_proc.
    destruct (rn_other _ _ _ R05 pp Hpn) as [->|[_ ->]]; [by rewrite decide_True by (by split)|]. by case_decide. }
  apply wp_bind. eapply wp_mono; [apply (reparent_loop s6 (k_cur s) (Some ini)); rewrite ?(rn_self _ _ _ R06), ?(rn_len _ _ _ R06); try done|].
  { apply R06. }
  { by rewrite Hq. }
  { rewrite Hqp. congruence. }
  intros [] s7 (C7 & I7 & L7 & S7 & O7). apply wp_on_cur; [by rewrite C7, L7|]. intros s8 [C8 I8 L8 S8 O8] _ _.
  split; [congruence|]. split; [by rewrite I8, I7, (rn_init _ _ _ R06)|]. split; [congruence|]. split; [rewrite S8, S7, (rn_self _ _ _ R06); done|].
  assert (forall j, j <> k_cur s -> stirred (proc_at j s7) (proc_at j s8)) as O8' by (intros j Hj; apply O8; by rewrite C7).
  split.
  - intros j Hj. etransitivity; [|by apply O8']. etransitivity; [|by apply O7]. apply stirred_reparent. by apply R06.
  - intros Hs Hch. specialize (Hwake Hs Hch).
    assert (p_state (reparent (k_cur s) (Some ini) (proc_at pp s6)) = RUNNABLE) as Hr by (unfold reparent; by case_decide).
    destruct (O7 pp Hpn) as [E7|[H7 _]]; [|by rewrite Hr in H7]. rewrite <- E7 in Hr.
    destruct (O8' pp Hpn) as [->|[H8 _]]; [done|]. by rewrite Hr in H8.
Qed.

(** ** [waitpid] *)

Lemma proc_at_lookup i s : (i < length (k_ptable s))%nat -> k_ptable s !! i = Some (proc_at i s).
Proof. intros Hi. unfold proc_at. by destruct (lookup_lt_is_Some_2 _ _ Hi) as [p ->]. Qed.

(** Two children with the same pid are the same one. *)
Lemma child_unique s i j me :
  tree_ok s -> p_parent (proc_at i s) = Some me -> p_parent (proc_at j s) = Some me ->
  (i < NPROC)%nat -> (j < NPROC)%nat -> p_pid (proc_at i s) = p_pid (proc_at j s) -> i = j.
Proof.
  intros Ht Hi Hj Li Lj Hp. pose proof (tr_len _ Ht) as Hl.
  assert (forall x, (x < NPROC)%nat -> slots s !! x = Some (slot_of (proc_at x s))) as Hs.
  { intros x Hx. unfold slots. rewrite list_lookup_fmap, proc_at_lookup by lia. done. }
  assert (forall x, (x < NPROC)%nat -> p_parent (proc_at x s) = Some me -> v_class (slot_of (proc_at x s)) <> Free) as Hc.
  { intros x Hx Hpar Hf. pose proof (tr_free _ Ht x _ (Hs x Hx) Hf) as Hn. cbn in Hn. congruence. }
  apply (tr_inj _ Ht i j _ _ (Hs i Li) (Hs j Lj)); auto.
Qed.

Section Waitpid.
  Context (kend : Z).

Lemma waitpid_scan_found ps i pid store hk s :
  tree_ok s -> (forall j, j ∈ ps -> (j < NPROC)%nat) -> i ∈ ps -> pid <> -1 ->
  p_parent (proc_at i s) = Some (k_cur s) -> p_state (proc_at i s) = ZOMBIE -> p_pid (proc_at i s) = pid ->
  waitpid_scan kend ps pid (Some store) hk s = (store (p_exit_status (proc_at i s)) ;;; reap kend i ;;; ret (inl pid)) s.
Proof.
  intros Ht Hps Hi Hpid Hpar Hz Ep. revert hk. induction ps as [|j ps IH]; intros hk; [by apply elem_of_nil in Hi|].
  cbn [waitpid_scan]. unfold bind at 1, gets at 1. unfold bind at 1, gets at 1.
  destruct (decide (j = i)) as [->|Hne].
  - rewrite bool_decide_true by done. rewrite Ep, Z.eqb_refl, andb_false_r. cbn [negb]. by rewrite decide_True by done.
  - assert (i ∈ ps) as Hi' by (apply elem_of_cons in Hi as [->|]; done).
    assert (forall h, waitpid_scan kend ps pid (Some store) h s =
      (store (p_exit_status (proc_at i s)) ;;; reap kend i ;;; ret (inl pid)) s) as Hrest.
    { intros h. apply IH; [|done]. intros x Hx. apply Hps. by right. }
    case_bool_decide as Hp; [|by apply Hrest]. cbn [negb]. replace (negb (pid =? -1) && negb (pid =? p_pid (proc_at j s))) with true; [apply Hrest|].
    symmetry. apply andb_true_intro. split; apply negb_true_iff, Z.eqb_neq; [done|]. intros E. apply Hne.
    apply (child_unique s j i (k_cur s)); try done; [apply Hps; by left|by apply Hps|congruence].
Qed.

Lemma waitpid_found i store s :
  tree_ok s -> (i < NPROC)%nat ->
  p_parent (proc_at i s) = Some (k_cur s) -> p_state (proc_at i s) = ZOMBIE ->
  waitpid kend (p_pid (proc_at i s)) (Some store) s =
  (store (p_exit_status (proc_at i s)) ;;; reap kend i ;;; ret (p_pid (proc_at i s))) s.
Proof.
  intros Ht Hi Hp Hz. unfold waitpid, bind at 1.
  rewrite (waitpid_scan_found _ i _ store false s Ht); try done.
  - unfold bind. destruct (store _ s) as [[] s1| | |]; try done. by destruct (reap kend i s1).
  - by intros j [_ Hj]%elem_of_seq.
  - apply elem_of_seq. lia.
  - intros E. destruct (tr_pid _ Ht i (slot_of (proc_at i s))); [| |cbn in *; lia].
    + unfold slots. rewrite list_lookup_fmap, proc_at_lookup by (by rewrite (tr_len _ Ht)). done.
    + unfold slot_of. cbn. by rewrite Hz.
Qed.

(** ** Reaping *)

Lemma wp_on_slot i f (Q : unit -> kernel -> Prop) s :
  (i < length (k_ptable s))%nat ->
  (forall s', proc_at i s' = f (proc_at i s) -> (forall j, j <> i -> proc_at j s' = proc_at j s) ->
     k_mem s' = k_mem s -> length (k_ptable s') = length (k_ptable s) -> Q tt s') ->
  wp (on_proc i f) Q s.
Proof.
  intros Hi HQ. unfold on_proc. apply wp_modify. apply HQ; try done.
  - unfold proc_at; cbn. rewrite list_lookup_alter_eq. by rewrite proc_at_lookup.
  - intros j Hj. unfold proc_at; cbn. by rewrite list_lookup_alter_ne.
  - cbn. apply length_alter.
Qed.

(** What is left in the slot. *)
Definition reaped (p : proc) : proc :=
  set_job 0 (set_killed 0 (set_name (<[0%nat := 0]> (p_name p)) (set_parent None (set_pid 0 (set_state UNUSED (set_kstack 0 p)))))).

(** Everything a zombie holds: its kernel stack and its address space. *)
Record holdings (s : kernel) (p : proc) (l : list Z) (T : gmap Z Z) : Prop := {
  ho_vm : vm_ok kend (k_mem s) l (p_pgdir p) T;
  ho_user : frames_ok kend l (p_pgdir p) T (frames_of (entry (km_mem (k_mem s)) T) 0 (pages_below KERNBASE));
  ho_stack : page_ok kend (p_kstack p);
  ho_apart : (p_kstack p ∉ l) /\ ~ owns_page (p_pgdir p) T (p_kstack p) /\
    p_kstack p ∉ frames_of (entry (km_mem (k_mem s)) T) 0 (pages_below KERNBASE)
}.

Lemma reap_spec i s l T :
  KERNBASE < kend -> (i < length (k_ptable s))%nat -> holdings s (proc_at i s) l T ->
  wp (reap kend i) (fun _ s' => proc_at i s' = reaped (proc_at i s) /\
    (forall j, j <> i -> proc_at j s' = proc_at j s) /\
    exists l', kmem_ok kend (k_mem s') l' /\
      l' ≡ₚ p_kstack (proc_at i s) :: p_pgdir (proc_at i s) :: tables T NPDENTRIES ++
        frames_of (entry (km_mem (k_mem s)) T) 0 (pages_below KERNBASE) ++ l) s.
Proof.
  intros He Hi [Hv Hf Hstk (Hl & Ho & Hfr)]. unfold reap. apply wp_bind, wp_gets. set (p := proc_at i s) in *.
  set (stk := p_kstack p) in *. set (d := p_pgdir p) in *. set (fs := frames_of _ _ _) in *.
  destruct (kfree_run kend _ _ stk (vo_free _ _ _ _ _ Hv) Hstk Hl) as (k1 & E1 & Hk1 & _ & Hout & _).
  apply wp_bind, wp_with_mem, wp_ok. exists tt, k1. split; [done|]. set (s1 := set_mem k1 s).
  destruct (space_ext kend (km_mem (k_mem s)) (km_mem k1) d T) as [Hs1 He1]; [|apply Hv|].
  { intros q x Hq Hx. apply Hout. intros Hx'. apply Ho.
    rewrite (in_page_eq kend stk q x); [done|done|by eapply owned_ok; [apply Hv|]|done|done]. }
  assert (frames_of (entry (km_mem k1) T) 0 (pages_below KERNBASE) = fs) as Efs.
  { apply frames_of_ext. intros j Hj. apply He1. unfold vpage. change (pages_below KERNBASE) with (2 ^ 19) in Hj. lia. }
  assert (vm_ok kend k1 (stk :: l) d T) as Hv1.
  { split; [exact Hk1|exact Hs1|]. intros q Hq Hin. apply elem_of_cons in Hin as [Eq|Hql]; [rewrite Eq in Hq; exact (Ho Hq)|].
    exact (vo_apart _ _ _ _ _ Hv q Hq Hql). }
  apply wp_bind, wp_on_slot; [done|]. intros s2 P2 O2 M2 L2. change (k_mem s1) with k1 in M2.
  apply wp_bind, wp_with_mem. rewrite M2. eapply wp_mono; [apply (freevm_spec kend He k1 (stk :: l) d T Hv1)|].
  { cbv zeta. rewrite Efs. destruct Hf as [Hn Hf]. split; [exact Hn|]. intros q Hq. destruct (Hf q Hq) as (A & B & C).
    split; [exact A|]. split; [|exact C]. intros Hin. apply elem_of_cons in Hin as [Eq|Hql]; [rewrite Eq in Hq; exact (Hfr Hq)|exact (B Hql)]. }
  rewrite Efs. intros [] k3 [Hk3 _]. cbv beta. set (s3 := set_mem k3 s2).
  assert (length (k_ptable s3) = length (k_ptable s)) as L3 by done.
  do 5 (apply wp_bind, wp_on_slot; [lia|]; intros ? ? ? ? ?). apply wp_on_slot; [lia|]. intros s9 P' O' M' L'.
  split; [|split].
  - rewrite P'. repeat match goal with H : proc_at i ?x = _ |- context [proc_at i ?x] => rewrite H end.
    change (proc_at i s3) with (proc_at i s2). rewrite P2. done.
  - intros j Hj. rewrite O' by done.
    repeat match goal with H : forall j, j <> i -> proc_at j ?x = _ |- context [proc_at j ?x] => rewrite H by done end.
    change (proc_at j s3) with (proc_at j s2). rewrite O2; done.
  - eexists. split; [repeat match goal with H : k_mem ?x = _ |- context [k_mem ?x] => rewrite H end; exact Hk3|].
    rewrite !reverse_Permutation. rewrite !(assoc _ (tables T NPDENTRIES)). rewrite <- Permutation_middle. apply perm_swap.
Qed.

(** Whoever runs next, the tree is the same. *)
Lemma tree_set_cur i s : tree_ok s -> tree_ok (set_cur i s).
Proof. by intros []. Qed.

End Waitpid.
