(* ===== verification/TrapSpec.v ===== *)
(** * What a trap does to the processes *)

From S2P Require Import Prelude Bytes Params CString FsState Log Fs Kalloc Vm Pipe Kernel File Proc Syscall Exec Console Trap.
From S2P Require Import ProcSpec ProcInv ProcTree ExitSpec.

Section Trap.
Context (kend data trapret forkret : Z) (dv : devsw) (implicit_exit junk : list Z).
Context (cpuid : Z) (cr2 : Z) (kbd_chars uart_chars : list Z).

Lemma call_ok_bind {A B} (m : M kernel A) (f : A -> M kernel B) : quiet m -> (forall a, call_ok (f a)) -> call_ok (bind m f).
Proof.
  intros Hm Hf s Ht Hr Hn. apply wlp_bind, wlp_quiet; [done|done| |intros; by eapply view_tree]. intros a s' E.
  apply Hf; [by eapply view_tree|by eapply view_running|]. injection E as _ -> _ _. done.
Qed.

Lemma call_ok_exit {A} status (a : A) : call_ok (exit kend status ;;; ret a).
Proof.
  intros s Ht Hr _. apply wlp_bind. eapply wlp_mono; [by apply exit_wlp| |done]. intros u s' H. by apply wlp_ret.
Qed.

(** A running process is alive. *)
Lemma running_state s : p_state (cur_proc s) = RUNNING -> running s.
Proof.
  intros H. unfold running, alive, slots. unfold cur_proc, proc_at in H.
  destruct (k_ptable s !! k_cur s) as [p|] eqn:E; [|done]. cbn in H. exists (slot_of p). rewrite list_lookup_fmap, E. split; [done|].
  unfold slot_of. cbn. by rewrite H.
Qed.

Lemma yield_quiet s : running s -> p_state (cur_proc s) = RUNNING -> leaves yield (fun s' => view s' = view s) s.
Proof.
  intros _ Hs. unfold yield, leaves, on_cur, modify. apply view_alter. intros p Hp. unfold cur_proc, proc_at in Hs. rewrite Hp in Hs. cbn in Hs.
  unfold slot_of. cbn. by rewrite Hs.
Qed.

Lemma trap_leave_ok trapno cs c : call_ok (trap_leave kend false trapno cs c).
Proof.
  intros s Ht Hr Hn. unfold trap_leave. apply wlp_bind, wlp_gets. destruct (_ && _); [by apply call_ok_exit|].
  destruct (decide (p_state (cur_proc s) = RUNNING)) as [Hs|]; [|by apply wlp_ret].
  destruct (_ =? _); [|by apply wlp_ret]. apply wlp_bind. pose proof (yield_quiet s Hr Hs) as H. unfold leaves in H. unfold wlp.
  destruct (yield s); try done; by eapply view_tree.
Qed.

Lemma trap_syscall_ok tf : call_ok (trap_syscall kend data trapret forkret dv implicit_exit junk tf).
Proof.
  intros s Ht Hr Hn. unfold trap_syscall. apply wlp_bind, wlp_gets.
  destruct (_ =? _); [cbn [negb]|cbn [negb]; by apply exit_wlp].
  apply call_ok_bind; [quiet|intros _|done|done|done]. clear s Ht Hr Hn. intros s Ht Hr Hn.
  apply wlp_bind. pose proof (syscall_wlp kend data trapret forkret dv implicit_exit junk s Ht Hr Hn) as H. unfold leaves in H. unfold wlp at 1.
  destruct (syscall _ _ _ _ _ _ _ s) as [[] s1| | |]; try done. apply wlp_bind, wlp_gets.
  destruct (decide (p_state (cur_proc s1) = RUNNING)) as [Hs|]; [|by apply wlp_ret].
  destruct (_ =? _); [by apply wlp_ret|]. cbn [negb]. apply exit_wlp; [done|by apply running_state].
Qed.

Lemma console_interrupt_quiet cs c : quiet (console_interrupt cs c).
Proof.
  intros s Hr. unfold console_interrupt, leaves. destruct (consoleintr cs c) as [[] c'| | |]; try done.
  assert (quiet ((if (Console.wakeups c <? Console.wakeups c')%nat then wakeup ch_input else ret tt) ;;; ret c')) as H.
  { unfold wakeup. quiet. }
  specialize (H s Hr). exact H.
Qed.

Lemma trap_ok tf c : call_ok (trap kend data trapret forkret dv implicit_exit junk cpuid false cr2 kbd_chars uart_chars tf c).
Proof.
  assert (forall A (m : M kernel A) trapno cs (g : A -> console), quiet m -> call_ok (let! a := m in trap_leave kend false trapno cs (g a))) as HL.
  { intros A m trapno cs g Hm. apply call_ok_bind; [done|]. intros a. apply trap_leave_ok. }
  unfold trap. do 3 (apply call_ok_bind; [auto with quiet|intros ?]). cbv zeta. destruct (_ =? T_SYSCALL).
  { intros s Ht Hr Hn. apply wlp_bind. eapply wlp_mono; [by apply trap_syscall_ok| |done]. intros u s' H. by apply wlp_ret. }
  destruct (_ =? _); [apply (HL unit _ _ _ (fun _ => c)); unfold wakeup; quiet|].
  destruct (_ =? _); [apply (HL unit _ _ _ (fun _ => c)); unfold ideintr; quiet|].
  destruct (_ =? _); [apply trap_leave_ok|].
  destruct (_ =? _); [apply (HL console _ _ _ id), console_interrupt_quiet|].
  destruct (_ =? _); [apply (HL console _ _ _ id), console_interrupt_quiet|].
  destruct (_ || _); [apply (HL unit _ _ _ (fun _ => c)); unfold print; quiet|].
  destruct (_ || _); [by intros s _ _ _|].
  do 3 (apply call_ok_bind; [unfold print; quiet|intros ?]). apply (HL unit _ _ _ (fun _ => c)). quiet.
Qed.

(** ** Faults *)

(** The trap numbers [trap] knows. *)
Definition known_traps : list Z :=
  [T_SYSCALL; T_IRQ0 + IRQ_TIMER; T_IRQ0 + IRQ_IDE; T_IRQ0 + IRQ_IDE + 1; T_IRQ0 + IRQ_KBD; T_IRQ0 + IRQ_COM1; T_IRQ0 + 7; T_IRQ0 + IRQ_SPURIOUS].

Lemma exit_ready_same s s' ini pp c q :
  exit_ready s ini pp c -> ran s s' q -> p_state q = p_state (cur_proc s) -> p_parent q = p_parent (cur_proc s) ->
  p_ofile q = p_ofile (cur_proc s) -> p_cwd q = p_cwd (cur_proc s) -> k_fs s' = k_fs s -> k_ftable s' = k_ftable s ->
  exit_ready s' ini pp c.
Proof.
  intros [H1 H2 H3 H4 H5 H6 H7 [H8 H9]] [R1 R2 R3 R4 _] Es Ep Eo Ec Ef Et.
  split; rewrite ?R1, ?R2, ?R3, ?R4, ?Es, ?Ep, ?Eo, ?Ec, ?Et; try done. split; by rewrite Ef.
Qed.

Lemma trap_fault_spec tf c s ini pp cw :
  let m := km_mem (k_mem s) in
  exit_ready s ini pp cw -> load32 m (tf + tf_trapno) ∉ known_traps -> Z.land (u16 (load32 m (tf + tf_cs))) 3 = DPL_USER ->
  wp (trap kend data trapret forkret dv implicit_exit junk cpuid false cr2 kbd_chars uart_chars tf c) (fun c' s' => c' = c /\
    k_cur s' = k_cur s /\ cur_proc s' = zombie 0 (set_killed 1 (cur_proc s)) /\
    forall j, j <> k_cur s -> stirred (reparent (k_cur s) (Some ini) (proc_at j s)) (proc_at j s')) s.
Proof.
  intros m Hr Ht Hcs. unfold trap. apply wp_bind, wp_with_mem, wp_gets. cbn [set_mem]. apply wp_bind, wp_with_mem, wp_gets.
  apply wp_bind, wp_with_mem, wp_gets. cbn [k_mem set_mem]. fold m. set (s0 := set_mem _ _).
  assert (s0 = s) as -> by (by destruct s). set (trapno := load32 m (tf + tf_trapno)) in *.
  assert (forall n, n ∈ known_traps -> (trapno =? n) = false) as Hn by (intros n Hin; apply Z.eqb_neq; intros ->; done).
  unfold known_traps in Hn. rewrite !Hn by set_solver. cbn [orb]. rewrite Hcs. change (DPL_USER =? 0) with false. cbv iota.
  apply wp_bind, wp_with_mem, wp_gets. fold m. assert (set_mem (k_mem s) s = s) as -> by (by destruct s).
  apply wp_bind, wp_gets, wp_bind. unfold print. apply wp_modify. set (s1 := set_out _ s).
  apply wp_bind, wp_on_cur; [change (k_cur s1) with (k_cur s); change (k_ptable s1) with (k_ptable s); destruct Hr; lia|].
  intros s2 R2 F2 T2. change (cur_proc s1) with (cur_proc s) in R2.
  assert (ran s s2 (set_killed 1 (cur_proc s))) as R by (by destruct R2).
  unfold trap_leave. apply wp_bind, wp_gets. rewrite (rn_self _ _ _ R2), Hcs. cbn [p_killed set_killed]. change (negb (1 =? 0) && (DPL_USER =? DPL_USER)) with true.
  cbv iota. apply wp_bind. eapply wp_mono.
  { apply (exit_spec kend 0 s2 ini pp cw). by eapply (exit_ready_same s s2). }
  intros [] s3 (C3 & _ & _ & Z3 & O3 & _). apply wp_ret. rewrite (rn_self _ _ _ R) in Z3. split; [done|].
  split; [rewrite C3; apply R|]. split; [done|]. intros j Hj. rewrite (rn_cur _ _ _ R) in O3. etransitivity; [|by apply O3].
  apply stirred_reparent. by apply R.
Qed.
End Trap.
