(* ===== verification/MemDemo.v ===== *)
(** * A concrete machine

    A machine that has just freed its memory: the kernel ends at 2 MB, its
    data starts at 1 MB + 64 KB.  The theorems on memory and processes are
    instantiated on it. *)

From S2P Require Import Prelude Bytes Params CString FsState Log Fs Kalloc Vm VmMap VmSpace VmFree Kernel VmUser File Proc ProcSpec.

Definition demo_end : Z := KERNBASE + 0x200000.
Definition demo_kdata : Z := KERNBASE + 0x110000.

Lemma demo_end_ok : KERNBASE < demo_end.
Proof. done. Qed.

Lemma demo_kdata_ok : data_ok demo_kdata.
Proof. by split. Qed.

(** The allocator before [kinit1]. *)
Definition bare_kmem : kmem := Kmem (fun _ => 0) 0 0.

Lemma bare_ok : kmem_ok demo_end bare_kmem [].
Proof. split; [done|constructor|constructor]. Qed.

(** At least 4000 pages are free after [freerange]. *)
Lemma demo_memory : exists k l, freerange demo_end demo_end (KERNBASE + PHYSTOP) bare_kmem = Ok tt k /\
  kmem_ok demo_end k l /\ (4000 <= length l)%nat /\ (forall x, x ∈ l -> demo_end <= x).
Proof.
  destruct (freerange_spec demo_end bare_kmem [] demo_end (KERNBASE + PHYSTOP) bare_ok ltac:(done) ltac:(done)
    ltac:(done) ltac:(done) ltac:(set_solver)) as (k & l & E & Hk & _ & Hl).
  rewrite app_nil_r in Hk. exists k, l. split; [exact E|]. split; [exact Hk|]. split; [|intros x Hx; by apply Hl in Hx as (_ & ? & _)].
  clear E Hk. set (ps := (fun i : nat => demo_end + Z.of_nat i * PGSIZE) <$> seq 0 4000).
  transitivity (length ps); [unfold ps; rewrite length_fmap, length_seq; reflexivity|].
  apply submseteq_length, NoDup_submseteq.
  - unfold ps. apply NoDup_fmap_2, NoDup_seq. intros i j E. unfold PGSIZE in E. clear ps. lia.
  - intros x (i & -> & Hi%elem_of_seq)%list_elem_of_fmap. apply Hl.
    assert (PGSIZE = 4096 /\ PHYSTOP = 234881024 /\ demo_end = KERNBASE + 2097152) as (E1 & E2 & E3) by (split_and!; reflexivity).
    split; [|lia]. rewrite Z.mod_add by discriminate. reflexivity.
Qed.

(** A process image of one page, built by [setupkvm] and [allocuvm]. *)
Lemma demo_image_built : exists k l d T,
  user_ok demo_end k l d T (npages 0 PGSIZE) /\ room l T 2000 /\
  (forall j, 1 <= j < 2 ^ 19 -> entry (km_mem k) T j = 0) /\
  exists a, vtrans (km_mem k) d 0 true = Some a /\ km_mem k a = 0.
Proof.
  destruct demo_memory as (k0 & l0 & _ & Hk0 & Hl0 & _).
  destruct (wp_run _ _ _ (setupkvm_spec demo_end demo_kdata demo_end_ok k0 l0 2001 Hk0 demo_kdata_ok ltac:(lia)))
    as (d & k1 & _ & _ & xs & l1 & T1 & B1 & R1 & E1).
  assert (forall j, 0 <= j < 2 ^ 19 -> entry (km_mem k1) T1 j = 0) as Hz.
  { intros j Hj. rewrite E1 by (unfold vpage; lia). by apply kernel_map_user; [apply demo_kdata_ok|]. }
  assert (forall i, (i < npages 0 PGSIZE)%nat -> has (entry (km_mem k1) T1 (first_page 0 + Z.of_nat i)) PTE_P = false) as Hfree.
  { intros i Hi. change (npages 0 PGSIZE) with 1%nat in Hi. rewrite first_page_0, Hz by lia. reflexivity. }
  destruct (wp_run _ _ _ (allocuvm_spec demo_end demo_end_ok k1 l1 d T1 0 PGSIZE 2000 (bt_ok _ _ _ _ _ _ _ _ _ B1)
    ltac:(done) ltac:(done) R1 Hfree)) as (r & k2 & _ & _ & ys & l2 & T2 & F & HL & HR & HP).
  exists k2, l2, d, T2. split; [|split; [exact HR|split]].
  - rewrite <- HL. eapply populated_user; [exact demo_end_ok|exact HP|done|]. rewrite HL. done.
  - intros j Hj. rewrite (pp_entry _ _ _ _ _ _ _ _ _ _ _ _ _ _ HP) by (unfold vpage; lia). unfold placed.
    rewrite first_page_0. destruct (Z.leb_spec 0 j); [|lia]. rewrite lookup_ge_None_2, Hz by (rewrite ?HL; lia || (change (npages 0 PGSIZE) with 1%nat; lia)). done.
  - eapply (grown_new demo_end demo_end_ok k1 l1 d T1 0 PGSIZE); [done|done|exact HL|exact HP|done].
Qed.

(** Its only user page. *)
Lemma demo_frames k l d T :
  user_ok demo_end k l d T (npages 0 PGSIZE) -> (forall j, 1 <= j < 2 ^ 19 -> entry (km_mem k) T j = 0) ->
  frames_of (entry (km_mem k) T) 0 (pages_below KERNBASE) = [frame (entry (km_mem k) T 0)] /\
  frames_ok demo_end l d T [frame (entry (km_mem k) T 0)].
Proof.
  intros HU Hz. destruct (uo_entry _ _ _ _ _ _ HU 0%nat ltac:(apply Nat.ltb_lt; reflexivity)) as (Hp & Hok & Hl & Hno).
  change (Z.of_nat 0) with 0 in *. split.
  - change (pages_below KERNBASE) with (1 + (2 ^ 19 - 1)). rewrite frames_of_app by lia.
    rewrite (frames_of_none _ (0 + 1)) by (intros j Hj; rewrite Hz by lia; reflexivity).
    rewrite frames_of_cons by lia. rewrite Hp. reflexivity.
  - split; [apply NoDup_singleton|]. by intros p ->%list_elem_of_singleton.
Qed.

(** ** A machine with one process

    The first process, with the image above and a system call pending. *)

Definition demo_tf (stk : Z) : Z := stk + KSTACKSIZE - TF_SIZE.

Definition demo_init (d stk : Z) : proc :=
  Proc PGSIZE d stk RUNNING 1 None (demo_tf stk) 0 None 0 (replicate NOFILE None) (Some 0%nat) (replicate 16 0) 0 0 0
    (replicate SIGNUM 0).

Definition demo_kernel (fs : kst) (km : kmem) (d stk : Z) : kernel :=
  Kernel fs km ∅ (replicate 100 zero_file) (demo_init d stk :: replicate 63 zero_proc) 2 (Some 0%nat) 0 0 [].

(** The process can fork, whatever [w] writes to its kernel stack. *)
Lemma demo_process_with (w : Z -> mem -> mem) : (forall stk m x, ~ in_page stk x -> w stk m x = m x) -> exists km d stk k l T m,
  (forall fs, fork_ready demo_end (demo_kernel fs km d stk) 1 k l T stk 0) /\ km_mem km = w stk m.
Proof.
  intros Hw. destruct demo_image_built as (k0 & l0 & d & T & HU & HR & _).
  pose proof (vo_free _ _ _ _ _ (uo_vm _ _ _ _ _ _ HU)) as Hk0.
  assert (2000 <= length l0)%nat as Hlen.
  { pose proof (tables_bounded _ _ _ _ (vo_space _ _ _ _ _ (uo_vm _ _ _ _ _ _ HU))). unfold room in HR. lia. }
  assert (2 <= length l0)%nat as Hlen2 by lia. destruct l0 as [|stk [|k l]]; [cbn in Hlen2; lia..|].
  destruct (kalloc_run demo_end k0 _ Hk0) as (k1 & _ & Hk1 & Em & _). cbn [tl] in Hk1.
  pose proof Hk0 as [_ Hp Hn]. apply Forall_cons in Hp as [Hstk Hp]. apply NoDup_cons in Hn as [Hns _].
  set (m' := w stk (km_mem k1)). pose proof (Hw stk (km_mem k1)) as Hm. fold m' in Hm.
  set (km := Kmem m' (use_lock k1) (freelist k1)).
  assert (kmem_ok demo_end km (k :: l)) as Hkm.
  { apply kmem_ok_frame; [done|]. intros p x Hpl Hx. apply Hm. intros Hx'. rewrite Forall_forall in Hp.
    apply Hns. rewrite (in_page_eq demo_end stk p x) by (done || by apply Hp). done. }
  destruct (user_ok_take demo_end stk (k :: l) d T _ km k0 HU Hkm) as [HU' _].
  { intros x Hx. rewrite <- Em. by apply Hm. }
  exists km, d, stk, k, l, T, (km_mem k1). split; [|done].
  intros fs. split; try done.
  - split; [by apply Nat.ltb_lt|]. split; [done|]. intros j Hj. assert (j = 0%nat) as -> by lia. done.
  - cbn [length] in Hlen. change (npages 0 _) with 1%nat. lia.
  - split; [done|]. split; [done|]. cbn. unfold demo_tf, KSTACKSIZE, TF_SIZE, PGSIZE. lia.
  - split; [done|]. intros f Hf. apply list_elem_of_lookup in Hf as [i Hi]. by apply lookup_replicate in Hi as [? _].
Qed.

(** The process can fork, and its trap frame asks for system call [num]. *)
Lemma demo_process num : 0 <= num < 2 ^ 32 -> exists km d stk k l T,
  (forall fs, fork_ready demo_end (demo_kernel fs km d stk) 1 k l T stk 0) /\
  load32 (km_mem km) (demo_tf stk + tf_eax) = num.
Proof.
  intros Hnum. destruct (demo_process_with (fun stk m => store32 (demo_tf stk + tf_eax) num m)) as (km & d & stk & k & l & T & m & Hr & Hm).
  { intros stk m x Hx. apply store32_other. unfold in_page, demo_tf, KSTACKSIZE, TF_SIZE, tf_eax, PGSIZE in *. lia. }
  exists km, d, stk, k, l, T. split; [done|]. rewrite Hm. by apply load32_store32.
Qed.
