(* ===== verification/MemoryProps.v ===== *)
(** * What the memory system guarantees

    The theorems about the page allocator and the address spaces of processes,
    each with an instance on the machine of [MemDemo]. *)

From S2P Require Import Prelude Params CString Kalloc Vm VmMap VmSpace VmFree Kernel VmUser MemDemo.

(** ** Address spaces *)



(** [allocuvm] grows a process: with enough free pages it returns the new
    size, every address between the old size (rounded up to a page) and the
    new size is mapped writable to a zero byte, and every byte below the old
    size is where it was, with the value it had. *)
Theorem allocuvm_grows kend k l pgdir T oldsz newsz :
  KERNBASE < kend -> user_ok kend k l pgdir T (npages 0 oldsz) -> 0 <= oldsz <= newsz -> newsz < KERNBASE ->
  room l T (npages oldsz newsz) ->
  (forall i, (i < npages oldsz newsz)%nat -> has (entry (km_mem k) T (first_page oldsz + Z.of_nat i)) PTE_P = false) ->
  wp (allocuvm kend pgdir oldsz newsz) (fun r k' => r = newsz /\
    (forall va, PGROUNDUP oldsz <= va < newsz ->
       exists a, vtrans (km_mem k') pgdir va true = Some a /\ km_mem k' a = 0) /\
    (forall va w a, 0 <= va < oldsz -> vtrans (km_mem k) pgdir va w = Some a ->
       vtrans (km_mem k') pgdir va w = Some a /\ km_mem k' a = km_mem k a)) k.
Proof.
  intros He HU Hsz Hnew HR Hfree.
  wp_use (allocuvm_spec kend He k l pgdir T oldsz newsz 0); [apply HU|done|done|by rewrite Nat.add_0_r|done|].
  intros r k' (-> & xs & l' & T' & F & HL & _ & HP). split; [done|]. split.
  - intros va Hva. by eapply grown_new.
  - intros va w a Hva Ha. by eapply grown_old.
Qed.

Lemma allocuvm_grows_witness : exists k pgdir k', allocuvm demo_end pgdir PGSIZE (2 * PGSIZE) k = Ok (2 * PGSIZE) k' /\
  vtrans (km_mem k') pgdir 5000 true <> None.
Proof.
  destruct demo_image_built as (k & l & pgdir & T & HU & HR & Hz & _).
  assert (npages PGSIZE (2 * PGSIZE) = 1%nat /\ first_page PGSIZE = 1) as [E1 E2] by (split; reflexivity).
  destruct (wp_run _ _ _ (allocuvm_grows demo_end k l pgdir T PGSIZE (2 * PGSIZE) demo_end_ok HU ltac:(done) ltac:(done)
    ltac:(rewrite E1; unfold room in *; lia)
    ltac:(intros i Hi; rewrite E1 in Hi; rewrite E2, Hz by lia; reflexivity))) as (r & k' & E & -> & H & _).
  exists k, pgdir, k'. split; [exact E|]. destruct (H 5000 ltac:(done)) as (a & -> & _). discriminate.
Defined.

(** [deallocuvm] shrinks a process: it returns the new size, the pages
    mapped beyond it are back on the free list, no address beyond it (rounded
    up to a page) can be accessed any more, and the translation of the
    addresses below it has not changed. *)
Theorem deallocuvm_shrinks kend k l pgdir T oldsz newsz :
  KERNBASE < kend -> vm_ok kend k l pgdir T -> 0 <= newsz < oldsz -> oldsz <= KERNBASE ->
  aligned_at T (pages_below newsz) ->
  let fs := frames_of (entry (km_mem k) T) (pages_below newsz) (pages_below oldsz - pages_below newsz) in
  frames_ok kend l pgdir T fs ->
  wp (deallocuvm kend pgdir oldsz newsz) (fun r k' => r = newsz /\ kmem_ok kend k' (reverse fs ++ l) /\
    (forall va w, PGROUNDUP newsz <= va < oldsz -> vtrans (km_mem k') pgdir va w = None) /\
    (forall va w, 0 <= va < newsz -> vtrans (km_mem k') pgdir va w = vtrans (km_mem k) pgdir va w)) k.
Proof.
  intros He Hv Hsz Ho Hal fs Hfs. assert (PGSIZE = 4096 /\ KERNBASE = 2147483648) as [EP EK] by done.
  wp_use (deallocuvm_spec kend He k l pgdir T oldsz newsz); [done..|].
  intros r k' (-> & Hv' & He' & _). split; [done|]. split; [apply Hv'|].
  assert (forall va w, 0 <= va < oldsz -> vtrans (km_mem k') pgdir va w =
    let e := cleared (entry (km_mem k) T) (pages_below newsz) (pages_below oldsz) (va / PGSIZE) in
    if has e PTE_P && (negb w || has e PTE_W) then Some (frame e + va mod PGSIZE) else None) as Ht.
  { intros va w Hva. rewrite (vtrans_spec kend He _ _ T) by (lia || apply Hv'). cbv zeta. rewrite He' by (apply vpage_va; lia). done. }
  assert (0 <= newsz <= KERNBASE) as Hn by lia. rewrite (first_page_below newsz Hn). split; intros va w Hva.
  - rewrite Ht by (pose proof (pages_below_range newsz Hn); lia). unfold cleared. cbv zeta.
    assert (pages_below newsz <= va / PGSIZE) by (apply Z.div_le_lower_bound; lia).
    assert (va / PGSIZE < pages_below oldsz) by (apply pages_below_lt; pose proof (Z.mul_div_le va PGSIZE ltac:(done)); lia).
    destruct (Z.leb_spec (pages_below newsz) (va / PGSIZE)), (Z.ltb_spec (va / PGSIZE) (pages_below oldsz)); try lia. cbn [andb].
    destruct (has (entry (km_mem k) T (va / PGSIZE)) PTE_P) eqn:E; cbn [andb]; [done|by rewrite E].
  - rewrite Ht, (vtrans_spec kend He _ _ T) by (lia || apply Hv). unfold cleared.
    assert (va / PGSIZE < pages_below newsz) by (apply pages_below_lt; pose proof (Z.mul_div_le va PGSIZE ltac:(done)); lia).
    destruct (Z.leb_spec (pages_below newsz) (va / PGSIZE)); [lia|done].
Qed.

Lemma deallocuvm_shrinks_witness : exists k pgdir k', deallocuvm demo_end pgdir PGSIZE 0 k = Ok 0 k' /\
  vtrans (km_mem k) pgdir 7 true <> None /\ vtrans (km_mem k') pgdir 7 false = None.
Proof.
  destruct demo_image_built as (k & l & pgdir & T & HU & HR & Hz & a & Ha & _).
  destruct (demo_frames k l pgdir T HU Hz) as [Ef Hf].
  assert (frames_of (entry (km_mem k) T) (pages_below 0) (pages_below PGSIZE - pages_below 0) = [frame (entry (km_mem k) T 0)]) as Ef1.
  { rewrite <- Ef. change (pages_below KERNBASE) with (1 + (2 ^ 19 - 1)). rewrite frames_of_app by lia.
    rewrite (frames_of_none _ (0 + 1)) by (intros j Hj; rewrite Hz by lia; reflexivity). by rewrite app_nil_r. }
  destruct (wp_run _ _ _ (deallocuvm_shrinks demo_end k l pgdir T PGSIZE 0 demo_end_ok (uo_vm _ _ _ _ _ _ HU)
    ltac:(done) ltac:(done) ltac:(by left) ltac:(cbv zeta; rewrite Ef1; exact Hf))) as (r & k' & E & -> & _ & H & _).
  exists k, pgdir, k'. split; [exact E|]. split; [|by apply H].
  rewrite (vtrans_spec demo_end demo_end_ok _ _ T) in * by (done || apply HU). cbv zeta in *. 
  change (7 / PGSIZE) with (0 / PGSIZE). by destruct (_ && _).
Defined.

(** [freevm] gives back every page of an address space and nothing else:
    afterwards the free list holds, besides what it held, exactly the
    directory, the page tables and the user pages. *)
Theorem freevm_returns_all kend k l pgdir T :
  KERNBASE < kend -> vm_ok kend k l pgdir T ->
  frames_ok kend l pgdir T (frames_of (entry (km_mem k) T) 0 (pages_below KERNBASE)) ->
  wp (freevm kend pgdir) (fun _ k' => exists l', kmem_ok kend k' l' /\
    l' ≡ₚ pgdir :: tables T NPDENTRIES ++ frames_of (entry (km_mem k) T) 0 (pages_below KERNBASE) ++ l) k.
Proof.
  intros He Hv Hf. wp_use (freevm_spec kend He k l pgdir T); [done..|]. intros [] k' [Hk _]. eexists. split; [exact Hk|].
  by rewrite !reverse_Permutation.
Qed.

Lemma freevm_returns_all_witness : exists k l pgdir k' l', freevm demo_end pgdir k = Ok tt k' /\
  kmem_ok demo_end k l /\ kmem_ok demo_end k' l' /\ (length l < length l')%nat.
Proof.
  destruct demo_image_built as (k & l & pgdir & T & HU & HR & Hz & _). destruct (demo_frames k l pgdir T HU Hz) as [Ef Hf].
  destruct (wp_run _ _ _ (freevm_returns_all demo_end k l pgdir T demo_end_ok (uo_vm _ _ _ _ _ _ HU) ltac:(rewrite Ef; exact Hf)))
    as ([] & k' & E & l' & Hk & HP).
  exists k, l, pgdir, k', l'. split; [exact E|]. split; [exact (vo_free _ _ _ _ _ (uo_vm _ _ _ _ _ _ HU))|]. split; [exact Hk|].
  rewrite Ef in HP. apply Permutation_length in HP. cbn [length] in HP. rewrite length_app in HP. cbn [length app] in HP.
  clear - HP. lia.
Defined.

(** ** The page allocator *)

(** A page given to [kfree] is the one the next [kalloc] returns, and the
    pair leaves the rest of the free list as it was. *)
Theorem kfree_kalloc_roundtrip kend k l v :
  kmem_ok kend k l -> page_ok kend v -> v ∉ l ->
  wp (kfree kend v ;;; kalloc) (fun r k' => r = v /\ kmem_ok kend k' l /\
    forall x, ~ v <= x < v + PGSIZE -> km_mem k' x = km_mem k x) k.
Proof.
  intros Hk Hv Hl. destruct (kfree_run kend k l v Hk Hv Hl) as (k1 & E1 & Hk1 & _ & Ho & _).
  destruct (kalloc_run kend k1 _ Hk1) as (k2 & E2 & Hk2 & Em & _).
  apply wp_ok. exists v, k2. unfold bind. rewrite E1, E2. split; [done|]. split; [done|]. split; [done|].
  intros x Hx. rewrite Em. by apply Ho.
Qed.

Lemma kfree_kalloc_roundtrip_witness : exists k, (kfree demo_end demo_end ;;; kalloc) bare_kmem = Ok demo_end k.
Proof.
  destruct (wp_run _ _ _ (kfree_kalloc_roundtrip demo_end bare_kmem [] demo_end bare_ok ltac:(by repeat split) ltac:(set_solver)))
    as (r & k & E & -> & _).
  by exists k.
Defined.

(** [freerange] builds the free list at boot: it puts exactly the pages
    that lie entirely inside the range on the list, each once. *)
Theorem freerange_exact kend k l vstart vend :
  kmem_ok kend k l -> KERNBASE <= vstart -> kend <= vstart -> vend <= KERNBASE + PHYSTOP ->
  vstart <= 2 ^ 32 - PGSIZE -> (forall x, x ∈ l -> x < vstart \/ vend <= x) ->
  exists k' l', freerange kend vstart vend k = Ok tt k' /\ kmem_ok kend k' (l' ++ l) /\
    forall x, x ∈ l' <-> x mod PGSIZE = 0 /\ vstart <= x /\ x + PGSIZE <= vend.
Proof.
  intros. destruct (freerange_spec kend k l vstart vend) as (k' & l' & E & Hk & _ & Hl); [done..|]. by exists k', l'.
Qed.

Lemma freerange_exact_witness : exists k l, freerange demo_end demo_end (demo_end + 10000) bare_kmem = Ok tt k /\
    kmem_ok demo_end k l /\ demo_end ∈ l /\ demo_end + PGSIZE ∈ l /\ demo_end + 2 * PGSIZE ∉ l.
Proof.
  destruct (freerange_exact demo_end bare_kmem [] demo_end (demo_end + 10000) bare_ok ltac:(done) ltac:(done)
    ltac:(done) ltac:(done) ltac:(set_solver)) as (k & l & E & Hk & Hl).
  exists k, l. rewrite app_nil_r in Hk. split; [exact E|]. split; [exact Hk|]. rewrite !Hl. split; [done|]. split; [done|].
  intros (_ & _ & H). revert H. vm_compute. auto.
Defined.

(** What [kfree] refuses: an address that is not a page boundary, lies in
    the kernel image or beyond physical memory stops the kernel instead of
    entering the free list. *)
Theorem kfree_refuses kend k v :
  v mod PGSIZE <> 0 \/ v < kend \/ PHYSTOP <= v2p v -> kfree kend v k = Panic "kfree".
Proof. apply kfree_bad. Qed.

Lemma kfree_refuses_witness : kfree demo_end (demo_end + 4) bare_kmem = Panic "kfree".
Proof. apply kfree_refuses. left. done. Defined.
