(* ===== verification/Demo.v ===== *)
(** * A concrete file system image

    A 50-block image with a root directory, in the order of [mkfs]: the
    superblock, two inode blocks, the bitmap, data blocks and a 20-block log at
    the end, whose blocks the bitmap shows as in use.  The theorems on the
    storage stack are instantiated on it. *)

From S2P Require Import Prelude Bytes Params CString FsState Bio Log Crash Store Txn Fs FsAlloc FsInode FsFile FsWrite FsDir.

(** ** Images from lists of blocks *)

Definition pad (l : list Z) : block := l ++ replicate (Z.to_nat BSIZE - length l) 0.

Definition block_okb (d : block) : bool :=
  (length d =? Z.to_nat BSIZE)%nat && forallb (fun b => (0 <=? b) && (b <? 256)) d.

Lemma block_okb_ok d : block_okb d = true -> is_block d.
Proof.
  unfold block_okb. intros [E1%Nat.eqb_eq E2]%andb_true_iff. split; [done|].
  apply Forall_forall. intros x Hx. rewrite forallb_forall in E2. specialize (E2 x).
  apply list_elem_of_In in Hx. apply E2 in Hx. lia.
Qed.

(** Sector [i] holds the [i]th block. *)
Definition disk_of (l : list block) : gmap Z block := map_seqZ 0 l.

Lemma disk_of_ok l : forallb block_okb l = true -> disk_ok (Z.of_nat (length l)) (disk_of l).
Proof.
  intros Hb. rewrite forallb_forall in Hb. split.
  - intros x. unfold disk_of. rewrite lookup_map_seqZ. case_guard; simpl.
    + rewrite lookup_lt_is_Some. lia.
    + split; [by intros [? ?]|lia].
  - intros x d. unfold disk_of. rewrite lookup_map_seqZ. case_guard; simpl; [|done].
    intros Hd%list_elem_of_lookup_2. by apply block_okb_ok, Hb, list_elem_of_In.
Qed.

(** Properties of all block numbers below a bound, by evaluation. *)
Definition below (n : nat) (f : Z -> bool) : bool := forallb (fun k => f (Z.of_nat k)) (seq 0 n).

Lemma below_all n f : below n f = true -> forall x, 0 <= x < Z.of_nat n -> f x = true.
Proof.
  unfold below. rewrite forallb_forall. intros H x Hx. rewrite <- (Z2Nat.id x) by lia.
  apply H, in_seq. lia.
Qed.

(** ** The image *)

Definition demo_sb : superblock := Superblock 50 25 8 20.
Definition demo_start : Z := 30.
Definition demo_nlog : Z := 20.
Definition demo_size : Z := 50.

(** The root directory: type [T_DIR], one link, 32 bytes in block 5. *)
Definition demo_root : inode := Inode ROOTDEV ROOTINO 1 0 T_DIR 0 0 1 32 (5 :: replicate 12 0).

Definition demo_dirent (inum : Z) (name : list Z) : list Z := le 2 inum ++ strncpy (ptr name) DIRSIZ.

Definition demo_bitmap : block :=
  foldr mark_used zero_block ([0; 1; 2; 3; 4; 5] ++ (Z.of_nat <$> seq 30 20)).

Definition demo_blocks : list block :=
  [ zero_block;
    pad (le 4 50 ++ le 4 25 ++ le 4 8 ++ le 4 20);
    put_dinode demo_root (dinode_off ROOTINO) zero_block;
    zero_block;
    demo_bitmap;
    pad (demo_dirent 1 [46] ++ demo_dirent 1 [46; 46]) ] ++ replicate 44 zero_block.

Definition demo_disk : gmap Z block := disk_of demo_blocks.

Lemma demo_disk_ok : disk_ok demo_size demo_disk.
Proof. apply (disk_of_ok demo_blocks). vm_compute. reflexivity. Qed.

Lemma demo_lookup x : demo_disk !! x = if 0 <=? x then demo_blocks !! Z.to_nat x else None.
Proof.
  unfold demo_disk, disk_of. rewrite lookup_map_seqZ. case_guard; destruct (Z.leb_spec 0 x); try lia; simpl; [|done].
  by rewrite Z.sub_0_r.
Qed.

Lemma demo_geom : log_geom demo_size demo_start demo_nlog [].
Proof. split; unfold demo_size, demo_start, demo_nlog, LOGSIZE, MAXOPBLOCKS; simpl; try lia; [set_solver|constructor]. Qed.

(** The image as [mkfs] leaves it: recoverable, with an empty log. *)
Lemma demo_log_disk : log_disk demo_size demo_start demo_nlog [] [] demo_disk.
Proof.
  split; [apply demo_disk_ok| | |apply demo_geom|by split; [|set_solver]|apply log_holds_nil].
  - eexists. rewrite demo_lookup. split; [reflexivity|]. by vm_compute.
  - exists zero_block. rewrite demo_lookup. split; [reflexivity|]. split; [apply zero_block_ok|]. by vm_compute.
Qed.

(** The kernel has booted from the image. *)
Lemma demo_booted : exists s D, boot_log (boot demo_disk demo_size) = Ok tt s /\
  idle demo_start demo_nlog D s /\ disksize s = demo_size /\
  icache s = icache (boot demo_disk demo_size) /\ forall x, outside demo_start demo_nlog x -> D !! x = demo_disk !! x.
Proof. exact (boot_runs _ _ _ _ _ _ demo_log_disk). Qed.

(** ** An open transaction on it *)

(** The environment of the first transaction after booting. *)
Definition demo_env (J : list (Z * block)) (D : gmap Z block) : txn_env :=
  Env demo_start demo_nlog 1 demo_size J D.

(** The part of the disk the file system sees is that of the image. *)
Definition demo_view (V : gmap Z block) : Prop :=
  forall x, outside demo_start demo_nlog x -> V !! x = demo_disk !! x.

Lemma demo_open : exists J D s, store (demo_env J D) D ∅ 19 s /\ demo_view D /\
  icache s = replicate NINODE zero_inode.
Proof.
  destruct demo_booted as (s & D & _ & Hi & Hz & Hic & HD).
  destruct (wp_run _ _ _ (begin_op_store demo_start demo_nlog D s 19 Hi ltac:(done) ltac:(by apply Nat.leb_le)))
    as ([] & s' & _ & Hs & Hic').
  exists (journal s), D, s'. unfold demo_env. rewrite <- Hz. split; [exact Hs|]. split; [exact HD|].
  rewrite Hic', Hic. reflexivity.
Qed.

Lemma demo_outside x : x < 30 -> outside demo_start demo_nlog x.
Proof. intros. left. unfold demo_start. lia. Qed.

Lemma demo_BBLOCK b : 0 <= b < 50 -> BBLOCK b (sb_ninodes demo_sb) = 4.
Proof. intros Hb. unfold BBLOCK. rewrite Z.div_small; [reflexivity|]. unfold BPB, BSIZE. lia. Qed.

Lemma demo_bits b : 0 <= b < 50 -> bit_of demo_bitmap (b mod BPB) = (b <? 6) || (30 <=? b).
Proof.
  intros Hb. apply eqb_prop.
  apply (below_all 50 (fun b => eqb (bit_of demo_bitmap (b mod BPB)) ((b <? 6) || (30 <=? b)))); [|done].
  vm_compute. reflexivity.
Qed.

Lemma demo_used V b : demo_view V -> 0 <= b < 50 -> used V demo_sb b = (b <? 6) || (30 <=? b).
Proof.
  intros HV Hb. rewrite <- demo_bits by done. unfold used.
  rewrite demo_BBLOCK, HV, demo_lookup by (done || (apply demo_outside; lia)). reflexivity.
Qed.

Lemma demo_some V x : demo_view V -> 0 <= x < 30 -> is_Some (V !! x).
Proof.
  intros HV Hx. rewrite HV, demo_lookup by (apply demo_outside; lia). destruct (Z.leb_spec 0 x); [|lia].
  apply lookup_lt_is_Some. replace (length demo_blocks) with 50%nat by (vm_compute; reflexivity). lia.
Qed.

(** The image satisfies what the file system relies on. *)
Lemma demo_image J D V : demo_view V -> @image (log_store (demo_env J D)) V demo_sb.
Proof.
  intros HV. assert (forall x, x < 30 -> x <> 1 -> @bs_writable (log_store (demo_env J D)) x) as Hw.
  { intros x Hx H1. split; [by apply demo_outside|done]. }
  split.
  - exists (pad (le 4 50 ++ le 4 25 ++ le 4 8 ++ le 4 20)). rewrite HV, demo_lookup by (apply demo_outside; lia).
    split; [reflexivity|]. by vm_compute.
  - done.
  - intros b Hb. cbv zeta. rewrite demo_BBLOCK by exact Hb. split; [by apply demo_some|]. split; [by apply Hw|done].
  - intros b Hb Hu. rewrite demo_used in Hu by done.
    assert (6 <= b < 30) as Hf by (destruct (Z.ltb_spec b 6), (Z.leb_spec 30 b); try done; lia).
    split; [apply demo_some; [done|lia]|]. split; [apply Hw; lia|]. split; [lia|].
    intros b' Hb'. rewrite demo_BBLOCK by exact Hb'. lia.
Qed.

Lemma demo_image_blocks J D V H r s :
  store (demo_env J D) V H r s -> forall sec d, V !! sec = Some d -> is_block d.
Proof. intros Hs sec d. by apply (store_block (demo_env J D) V H r s). Qed.

(** A transaction that has changed one data block. *)
Definition demo_data : block := pad [7].

Lemma demo_data_ok : is_block demo_data.
Proof. apply block_okb_ok. vm_compute. reflexivity. Qed.

Lemma demo_changed : exists J D s, store (demo_env J D) (<[6 := demo_data]> D) ∅ 18 s /\ demo_view D.
Proof.
  destruct demo_open as (J & D & s & Hs & HD & _). exists J, D.
  destruct (demo_some D 6 HD ltac:(lia)) as [d Hd].
  assert (outside demo_start demo_nlog 6 /\ 6 <> 1) as Hw by (split; [apply demo_outside|]; lia).
  destruct (wp_run _ _ _ (@update_block (log_store (demo_env J D)) (fun _ => demo_data) D ∅ 18 s 6 d
    (fun _ s' => store (demo_env J D) (<[6 := demo_data]> D) ∅ 18 s') Hs Hd (unheld_empty 6) empty_small
    demo_data_ok Hw (fun s' H _ => H))) as ([] & s' & _ & H).
  exists s'. split; [exact H|exact HD].
Qed.

(** ** The root directory of the image *)

(** The inode cache with the root directory in its first entry. *)
Definition demo_icache : list inode := demo_root :: replicate 49 zero_inode.

Lemma demo_icache_ok : icache_ok demo_icache.
Proof.
  split.
  - reflexivity.
  - intros [|i] p Hp; [by injection Hp as <-|]. change (replicate 49 zero_inode !! i = Some p) in Hp. by apply lookup_replicate in Hp as [-> _].
  - intros i j p q dev inum Hp Hq (Hr & _) (Hr' & _).
    assert (forall i p, demo_icache !! i = Some p -> 0 < i_ref p -> i = 0%nat) as H0.
    { intros [|i'] p' Hp'; [done|]. change (replicate 49 zero_inode !! i' = Some p') in Hp'. by apply lookup_replicate in Hp' as [-> _]. }
    by rewrite (H0 i p), (H0 j q).
Qed.

Lemma demo_icache_free : exists i q, demo_icache !! i = Some q /\ i_ref q = 0.
Proof. by exists 1%nat, zero_inode. Qed.

Lemma demo_dir_open : exists J D s, store (demo_env J D) D ∅ 19 s /\ demo_view D /\ icache s = demo_icache.
Proof.
  destruct demo_open as (J & D & s & Hs & HD & _). exists J, D, (with_icache demo_icache s).
  split; [|by split]. exact (@bs_icache (log_store (demo_env J D)) D ∅ 19 s demo_icache Hs).
Qed.

Lemma demo_idle : exists D s, idle demo_start demo_nlog D s /\ demo_view D /\ disksize s = demo_size /\ icache s = demo_icache.
Proof.
  destruct demo_booted as (s & D & _ & [[[Hg Hr Ha Hs Hp] Hd H1] Ho Hb] & Hz & _ & HD).
  exists D, (with_icache demo_icache s). split; [|by repeat split]. split; [split; [split|..]|..]; try done.
  by eapply (rep_ext s).
Qed.

(** A device switch without devices. *)
Definition no_devices : devsw := Devsw (fun _ => None) (fun _ => None).

(** Block numbers of the root directory: block 0 is sector 5, the rest is not
    there. *)
Lemma demo_block_of V bn : 0 <= bn -> block_of V demo_root bn = if bn =? 0 then 5 else 0.
Proof.
  intros Hb. unfold block_of. destruct (Z.ltb_spec bn NDIRECT) as [H|H].
  - destruct (Z.eqb_spec bn 0) as [->|]; [done|]. unfold addr_of, demo_root. cbn [i_addrs].
    replace (Z.to_nat bn) with (S (Z.to_nat (bn - 1))) by lia. cbn [nth]. rewrite nth_lookup. by destruct (replicate 12 0 !! Z.to_nat (bn - 1)) eqn:E; [apply lookup_replicate in E as [-> _]|].
  - destruct (Z.eqb_spec bn 0) as [->|]; [done|]. done.
Qed.

Section DemoFile.
Context (J : list (Z * block)) (D V : gmap Z block) (HV : demo_view V).
Local Existing Instance log_store.
Let BS := log_store (demo_env J D).
Local Existing Instance BS.

Lemma demo_kept x : (0 <= x < 6 /\ x <> 4) -> kept V demo_sb x.
Proof.
  intros Hx. split.
  - intros Hr. rewrite demo_used by done. destruct (Z.ltb_spec x 6); [done|lia].
  - intros b Hb. rewrite demo_BBLOCK by exact Hb. lia.
Qed.

Lemma demo_data_block : data_block V demo_sb 5.
Proof.
  split; [done|apply demo_kept; lia|apply demo_some; [done|lia]|]. split; [|done]. split; [apply demo_outside; lia|done].
Qed.

Lemma demo_has_free k : (k <= 24)%nat -> has_free V demo_sb k.
Proof.
  intros Hk. exists ((fun i : nat => 6 + Z.of_nat i) <$> seq 0 k). split; [|split].
  - apply NoDup_fmap_2, NoDup_seq. intros i j E. lia.
  - by rewrite length_fmap, length_seq.
  - intros b (i & -> & Hi%elem_of_seq)%list_elem_of_fmap. cbn [demo_sb sb_size]. split; [lia|].
    rewrite demo_used by (done || lia). destruct (Z.ltb_spec (6 + Z.of_nat i) 6), (Z.leb_spec 30 (6 + Z.of_nat i)); try lia; done.
Qed.

Lemma demo_env_ok k : (k <= 24)%nat -> env_ok V demo_sb k ∅.
Proof.
  intros Hk. split; [by apply demo_image| |by apply demo_has_free|].
  - split; [done|]. by rewrite demo_used.
  - intros i h Hi. by rewrite lookup_empty in Hi.
Qed.

Lemma demo_inode_ok : inode_ok demo_root.
Proof. split; [by vm_compute..|]. split; [reflexivity|]. constructor; [by vm_compute|]. apply Forall_replicate. by vm_compute. Qed.

Lemma demo_file_ok : file_ok V demo_sb demo_root.
Proof.
  split.
  - apply demo_inode_ok.
  - intros H. by destruct H.
  - intros bn Hbn. rewrite demo_block_of by lia. destruct (Z.eqb_spec bn 0); [|done]. intros _. split; [apply demo_data_block|done].
  - intros bn bn' Hb Hb'. rewrite !demo_block_of by lia. destruct (Z.eqb_spec bn 0), (Z.eqb_spec bn' 0); subst; done.
Qed.

Lemma demo_present : present V demo_root 0 (i_size demo_root).
Proof.
  intros i Hi. change (0 <= i < 32) in Hi. rewrite demo_block_of by (apply Z.div_pos; [lia|done]).
  rewrite Z.div_small by (unfold BSIZE; lia). split; [done|]. by apply demo_some.
Qed.

Lemma demo_dir_ok : dir_ok V ∅ demo_root.
Proof.
  split; [done| |by exists 2]. split; [done|done|done|apply demo_present| |]; intros; apply unheld_empty.
Qed.

Lemma demo_inode_block : inode_block_ok V demo_sb demo_root.
Proof.
  change (IBLOCK (i_inum demo_root)) with 2. split.
  - apply demo_kept. change (IBLOCK (i_inum demo_root)) with 2. lia.
  - intros [H|(bn & Hbn & H)]; [by vm_compute in H|]. rewrite demo_block_of in H by lia.
    change (IBLOCK (i_inum demo_root)) with 2 in H. by destruct (bn =? 0).
  - change (IBLOCK (i_inum demo_root)) with 2. apply demo_some; [done|lia].
  - change (IBLOCK (i_inum demo_root)) with 2. split; [|done]. split; [apply demo_outside; lia|done].
Qed.

(** Its entries are [.] and [..]. *)
Lemma demo_entries : entries V demo_root = [demo_dirent 1 [46]; demo_dirent 1 [46; 46]].
Proof.
  transitivity (entries demo_disk demo_root); [|vm_compute; reflexivity].
  unfold entries, file_bytes. apply list_fmap_ext. intros k x [-> Hx]%lookup_seq. apply list_fmap_ext.
  intros j y [-> Hy]%lookup_seq. unfold file_byte. rewrite !demo_block_of by (apply Z.div_pos; [unfold DIRENT_SIZE; lia|done]).
  change (Z.to_nat (i_size demo_root / DIRENT_SIZE)) with 2%nat in Hx. change (Z.to_nat DIRENT_SIZE) with 16%nat in Hy.
  rewrite Z.div_small; [by rewrite HV by (by apply demo_outside)|].
  assert (DIRENT_SIZE = 16 /\ BSIZE = 512) as [-> ->] by done. lia.
Qed.

Lemma demo_apart : apart V demo_sb ∅.
Proof. intros i h Hi. by rewrite lookup_empty in Hi. Qed.

Lemma demo_IBLOCK i : 1 <= i < 8 -> IBLOCK i = 2.
Proof. intros Hi. unfold IBLOCK. rewrite Z.div_small; [reflexivity|]. change IPB with 8. lia. Qed.

Lemma demo_itable : itable V demo_sb ∅.
Proof.
  intros i Hi. cbn in Hi. rewrite demo_IBLOCK by lia. split; [apply demo_some; [done|lia]|]. split; [|apply unheld_empty].
  split; [apply demo_outside; lia|done].
Qed.

Lemma demo_type i : 1 <= i < 8 -> type_on V i = Some (if i =? 1 then T_DIR else 0).
Proof.
  intros Hi. transitivity (type_on demo_disk i).
  { unfold type_on, inode_on. rewrite demo_IBLOCK, HV by (done || (apply demo_outside; lia)). done. }
  assert (i = 1 \/ i = 2 \/ i = 3 \/ i = 4 \/ i = 5 \/ i = 6 \/ i = 7) as Hc by lia.
  destruct Hc as [->|[->|[->|[->|[->|[->| ->]]]]]]; vm_compute; reflexivity.
Qed.
End DemoFile.
