(* ===== verification/KernelProps.v ===== *)
(** * What the kernel guarantees its processes

    The theorems about processes, system calls, locks, pipes and the string
    routines, each with an instance on a concrete machine. *)

From S2P Require Import Prelude Bytes Params CString FsState Log Fs Kalloc Vm VmMap VmSpace VmFree.
From S2P Require Import Spinlock Pipe Kernel VmUser File Proc Syscall Exec ProcSpec ProcInv ProcTree ExitSpec MemDemo.
From S2P Require Import Bio Crash Store Txn Demo Console Trap TrapSpec.

(** ** [fork] *)

(** What the pages of a forked child mean for the programs: every access the
    parent may make is possible in the child, reaches the same value and
    another byte of memory; the parent's own memory is as before. *)
Lemma forked_bytes kend data forkret trapret s i k l T stk c km d va w a :
  KERNBASE < kend -> fork_ready kend s i k l T stk c -> forked_mem kend data trapret forkret s km k l T d ->
  0 <= va < p_sz (cur_proc s) -> vtrans (km_mem (k_mem s)) (p_pgdir (cur_proc s)) va w = Some a ->
  exists a', vtrans (km_mem km) d va w = Some a' /\ a' <> a /\ km_mem km a' = km_mem (k_mem s) a /\
    vtrans (km_mem km) (p_pgdir (cur_proc s)) va w = Some a /\ km_mem km a = km_mem (k_mem s) a.
Proof.
  intros He Hr [(xs & l' & T' & F & Hl & Hv' & HL & HN & HO & HE & HM & Hout) _ _] Hva Ha.
  destruct Hr as [_ _ _ _ Hsz [Hv HU] _ _ _ _]. set (sz := p_sz (cur_proc s)) in *. set (pgdir := p_pgdir (cur_proc s)) in *.
  destruct (npages_va sz va Hva ltac:(lia)) as [Hi Ei]. set (n := Z.to_nat (va / PGSIZE)) in *.
  assert (0 <= va < 2 ^ 32) as Hva2 by (unfold KERNBASE in *; lia).
  destruct (HU n Hi) as (Hp & Hfok & Hfl & _). rewrite Ei in *. set (e := entry (km_mem (k_mem s)) T (va / PGSIZE)) in *.
  assert (0 <= va mod PGSIZE < PGSIZE) as Ho by (by apply Z.mod_pos_bound).
  destruct (lookup_lt_is_Some_2 F n) as [p Hpn]; [by rewrite HL|].
  assert (p ∈ F) as HpF by (by eapply list_elem_of_lookup_2). destruct (HO p HpF) as [Hpx _].
  pose proof (ko_pages _ _ _ (vo_free _ _ _ _ _ Hv)) as Hpages. rewrite Forall_forall in Hpages.
  assert (page_ok kend p) as Hpok by (apply Hpages; right; rewrite Hl; apply elem_of_app; by left).
  assert (forall q x, page_ok kend q -> q ∉ k :: l -> in_page q x -> km_mem km x = km_mem (k_mem s) x) as Hkeep.
  { intros q x Hq Hql Hx. assert (forall p', p' ∈ k :: l -> ~ in_page p' x) as Hno.
    { intros p' Hp' Hx'. apply Hql. rewrite (in_page_eq kend q p' x); [done|done|by apply Hpages|done|done]. }
    apply Hout; [apply Hno; by left|]. intros p' Hp'. apply Hno. right. rewrite Hl. apply elem_of_app. by left. }
  assert (entry (km_mem km) T' (va / PGSIZE) = Z.lor (Z.lor (v2p p) (PTE_FLAGS e)) PTE_P) as E.
  { rewrite HE by (by apply vpage_va). unfold placed. destruct (Z.leb_spec 0 (va / PGSIZE)); [|lia].
    rewrite Z.sub_0_r. fold n. rewrite Hpn, Ei. done. }
  destruct (user_flags e) as [UP UW]. rewrite <- Z.lor_assoc, lor_present in E by (by rewrite UP).
  destruct (space_ext kend (km_mem (k_mem s)) (km_mem km) pgdir T) as [Hs' He']; [|apply Hv|].
  { intros q x Hq Hx. apply (Hkeep q); [by eapply owned_ok; [apply Hv|]|by apply (vo_apart _ _ _ _ _ Hv)|done]. }
  rewrite (vtrans_spec kend He _ _ T) in Ha by (done || apply Hv). rewrite (vtrans_spec kend He _ _ T') by (done || apply Hv').
  rewrite (vtrans_spec kend He _ _ T) by done. cbv zeta in *. rewrite He' by (by apply vpage_va). fold e in Ha |- *.
  pose proof (PTE_FLAGS_range e) as Hfr. rewrite E, !has_entry by (done || by apply (v2p_aligned kend He)). unfold frame at 1. rewrite (entry_frame kend He) by done.
  rewrite UP, UW, Hp in *. cbn [andb] in *. destruct (negb w || _); [|done]. injection Ha as <-.
  eexists. split; [done|]. split; [|split; [|split; [done|]]].
  - intros Eq. apply Hfl. right. rewrite Hl. apply elem_of_app. left.
    rewrite <- (in_page_eq kend p (frame e) (p + va mod PGSIZE) Hpok Hfok); [done| |rewrite Eq]; unfold in_page; lia.
  - rewrite (HM n p _ Hpn Ho). by rewrite Ei.
  - apply (Hkeep (frame e)); [done|done|unfold in_page; lia].
Qed.

(** C3: [fork] creates a copy of the calling process: with a free slot and
    enough free pages it returns the new pid to the parent; the child is
    runnable with that pid, is a child of the caller, has the caller's size,
    open files, working directory and job, continues at the same place with
    result 0, and owns a private copy of the caller's memory; the caller itself
    is unchanged. *)
Theorem fork_duplicates kend data trapret forkret s i k l T stk c :
  KERNBASE < kend -> 0 <= trapret < 2 ^ 32 -> 0 <= forkret < 2 ^ 32 -> data_ok data -> fork_ready kend s i k l T stk c ->
  wp (fork kend data trapret forkret) (fun r s' => r = k_nextpid s /\ k_nextpid s' = s32 (k_nextpid s + 1) /\
    let p := cur_proc s in let q := proc_at i s' in let m := km_mem (k_mem s) in let m' := km_mem (k_mem s') in
    cur_proc s' = p /\
    (p_state q, p_pid q, p_parent q, p_sz q, p_ofile q, p_cwd q, p_job q) =
    (RUNNABLE, r, Some (k_cur s), p_sz p, p_ofile p, p_cwd p, p_job p) /\
    tf_copied m m' (p_tf p) (p_tf q) /\
    (forall va w a, 0 <= va < p_sz p -> vtrans m (p_pgdir p) va w = Some a ->
       exists a', vtrans m' (p_pgdir q) va w = Some a' /\ a' <> a /\ m' a' = m a /\
         vtrans m' (p_pgdir p) va w = Some a /\ m' a = m a)) s.
Proof.
  intros He Ht Hf Hd Hr. eapply wp_mono; [by apply (fork_spec kend data trapret forkret He Ht Hf s i k l T stk c Hd Hr)|].
  intros r s' (-> & d & km & -> & Hm). split; [done|]. split; [done|]. cbv zeta.
  pose proof Hr as [Hlen (Hi & _) _ Hne _ _ _ _ _ _].
  unfold forked. rewrite proc_at_slot, cur_at_slot by (done || (cbn; lia)). split; [done|]. split; [done|].
  split; [apply Hm|]. intros va w a Hva Ha. by eapply forked_bytes.
Qed.

Lemma fork_duplicates_witness : exists s s', fork demo_end demo_kdata 0x80100000 0x80100010 s = Ok 2 s' /\
  p_state (proc_at 1 s) = UNUSED /\ p_state (proc_at 1 s') = RUNNABLE /\ p_parent (proc_at 1 s') = Some 0%nat.
Proof.
  destruct (demo_process 1 ltac:(lia)) as (km & d & stk & k & l & T & Hr & _).
  pose proof (Hr (boot ∅ 0)) as Hr'. set (s := demo_kernel (boot ∅ 0) km d stk) in *. exists s.
  destruct (wp_run _ _ _ (fork_duplicates demo_end demo_kdata 0x80100000 0x80100010 s 1 k l T stk 0 demo_end_ok ltac:(lia) ltac:(lia)
    demo_kdata_ok Hr')) as (r & s' & E & -> & _ & _ & Eq & _).
  exists s'. split; [exact E|]. split; [reflexivity|]. injection Eq as -> _ -> _ _ _ _. done.
Defined.

(** ** The process tree *)

(** C4: Every entry into the kernel keeps the process tree intact: whatever the
    trap, for a system call whatever its number and the arguments the program
    passes, and whatever memory and disk contain, when the kernel returns to the
    process, switches to another one or lets it sleep, the pids in use are
    different, positive and below the next one, a parent is alive as long as it
    has children, a free slot has no parent, and [init] lives. *)
Theorem trap_keeps_tree kend data trapret forkret dv implicit_exit junk cpuid cr2 kbd uart tf c s :
  tree_ok s -> running s -> k_nextpid s < 2 ^ 31 - 1 ->
  match trap kend data trapret forkret dv implicit_exit junk cpuid false cr2 kbd uart tf c s with
  | Ok _ s' | Sleep _ s' => tree_ok s'
  | _ => True
  end.
Proof. apply trap_ok. Qed.

Lemma demo_tree fs km d stk : tree_ok (demo_kernel fs km d stk).
Proof.
  set (s := demo_kernel fs km d stk).
  assert (forall i v, slots s !! i = Some v -> (i = 0%nat /\ v = Slot 1 None Alive) \/ v = Slot 0 None Free) as H.
  { intros [|i] v Hv; [left; by injection Hv as <-|right].
    change ((slot_of <$> replicate 63 zero_proc) !! i = Some v) in Hv. rewrite fmap_replicate in Hv.
    by apply lookup_replicate in Hv as [-> _]. }
  split.
  - intros i v [[-> ->]| ->]%H Hc; [done|by destruct Hc].
  - intros i j v w [[-> ->]| ->]%H [[-> ->]| ->]%H Hv Hw; try done; by destruct Hv || by destruct Hw.
  - intros i v j [[-> ->]| ->]%H; done.
  - intros i v [[-> ->]| ->]%H; done.
  - exists 0%nat. split; [done|]. by exists (Slot 1 None Alive).
  - reflexivity.
Qed.

(** The first process asks for its pid. *)
Definition demo_frame : Z := KERNBASE + 0x300000.
Definition demo_call : kernel :=
  demo_kernel (boot ∅ 0)
    (Kmem (store32 (demo_frame + tf_trapno) T_SYSCALL (store32 (demo_frame + tf_eax) 11 (fun _ => 0))) 0 0) 0 0.

Lemma trap_keeps_tree_witness : exists c' s',
  trap demo_end demo_kdata 0 0 no_devices [] [] 0 false 0 [] [] demo_frame console_init demo_call = Ok c' s' /\ tree_ok s' /\
  load32 (km_mem (k_mem s')) (demo_frame + tf_eax) = 1.
Proof.
  pose proof (trap_keeps_tree demo_end demo_kdata 0 0 no_devices [] [] 0 0 [] [] demo_frame console_init demo_call
    (demo_tree _ _ _ _) ltac:(by exists (Slot 1 None Alive)) ltac:(done)) as H.
  set (r := trap demo_end demo_kdata 0 0 no_devices [] [] 0 false 0 [] [] demo_frame console_init demo_call) in *.
  assert (match r with Ok _ s' => load32 (km_mem (k_mem s')) (demo_frame + tf_eax) =? 1 | _ => false end = true) as Hv by (vm_compute; reflexivity).
  destruct r as [c' s'| | |]; [|discriminate Hv..]. exists c', s'. split; [reflexivity|]. split; [exact H|]. by apply Z.eqb_eq.
Defined.


(** ** [exit] and [waitpid] *)










(** ** Locks and interrupts *)

(** C14: A spinlock gives mutual exclusion: however the CPUs' steps through
    [acquire] and [release] interleave, at most one of them is in the critical
    section, it is the one the lock names as its owner, and no CPU panics. *)
Theorem spinlock_mutual_exclusion s :
  reachable s ->
  (forall c c', m_pc s c = Critical -> m_pc s c' = Critical -> c = c') /\
  (forall c, m_pc s c = Critical -> locked (m_lock s) = 1 /\ lk_cpu (m_lock s) = Some c /\ eflags_IF (m_cpu s c) = false) /\
  (forall c, m_pc s c <> Stopped).
Proof.
  intros Hr. pose proof (reachable_inv s Hr) as [I1 I2 I3 I4 I5].
  assert (forall c, m_pc s c = Critical -> owns (m_pc s c)) as Ho by (intros c Hc; right; by left).
  split; [intros c c' Hc Hc'; apply I1; by apply Ho|]. split; [|intros c; apply I5].
  intros c Hc. split; [destruct I4 as [E|]; [|done]; by destruct (I2 E c (Ho c Hc))|]. split; [by apply I3|].
  destruct (I5 c) as (_ & en & _ & Hif & _). by rewrite decide_False in Hif by congruence.
Qed.

(** One CPU has entered, another one spins. *)
Lemma spinlock_mutual_exclusion_witness : exists s, m_pc s 0%nat = Critical /\ m_pc s 1%nat = Spinning /\
  forall c, m_pc s c = Critical -> c = 0%nat.
Proof.
  set (idle := Machine initlock (fun _ => Out) (fun _ => Cpu 0 false true)).
  assert (reachable idle) as H0 by (apply reach_init; intros c; exists true; repeat split; lia).
  exists (foldl (fun s c => cpu_step c s) idle [0; 0; 0; 0; 1; 1; 1]%nat).
  assert (reachable (foldl (fun s c => cpu_step c s) idle [0; 0; 0; 0; 1; 1; 1]%nat)) as Hr.
  { cbn [foldl]. do 7 (eapply reach_step; [|apply step_cpu]). exact H0. }
  destruct (spinlock_mutual_exclusion _ Hr) as (H1 & _ & _). split; [reflexivity|]. split; [reflexivity|].
  intros c Hc. by apply H1.
Defined.

(** [pushcli] and [popcli] nest: after any sequence of calls in which no
    [popcli] is one too many, interrupts are off while some [pushcli] is
    unmatched, and the matching [popcli] of the outermost one restores the
    state interrupts had before it. *)
Theorem pushcli_popcli_nest en l d c :
  nested en 0 c -> depth 0 l = Some d -> wp (cli_calls l) (fun _ c' => ncli c' = Z.of_nat d /\
    eflags_IF c' = if (d =? 0)%nat then en else false) c.
Proof.
  intros Hn Hd. eapply wp_mono; [by apply (cli_calls_nested en l 0 d)|]. intros [] c' (H1 & H2 & _). split; [done|].
  rewrite H2. by destruct d.
Qed.

Lemma pushcli_popcli_nest_witness : exists c', cli_calls [true; true; false; false] (Cpu 0 false true) = Ok tt c' /\ eflags_IF c' = true.
Proof.
  destruct (wp_run _ _ _ (pushcli_popcli_nest true [true; true; false; false] 0 (Cpu 0 false true)
    ltac:(repeat split; lia) ltac:(reflexivity))) as ([] & c' & E & _ & H).
  by exists c'.
Defined.

(** ** Pipes *)

(** C24: A pipe delivers the bytes written to it in order, without losing or
    inventing any: over any sequence of reads, writes and closes of its ends,
    what the writers' calls have accepted is what the readers have been given
    followed by what the buffer still holds. *)
Theorem pipe_fifo addr p ops :
  length (p_data p) = Z.to_nat PIPESIZE ->
  let c := converse addr (Conv (new_pipe p) [] []) ops in
  exists q, accepted c = delivered c ++ q /\ Z.of_nat (length q) <= PIPESIZE /\ holds (c_pipe c) q.
Proof.
  intros Hp c. assert (in_transit c) as (q & Hq & Ha).
  { apply in_transit_run. exists []. split; [by apply holds_new|done]. }
  exists q. split; [done|]. split; [|done]. apply Hq.
Qed.

Lemma pipe_fifo_witness : let c := converse 0 (Conv (new_pipe (Pipe (replicate 512 0) 0 0 0 0 [])) [] [])
    [Write false [1; 2; 3]; Read false 2; Close true] in delivered c = [1; 2] /\ exists q, [1; 2; 3] = [1; 2] ++ q /\ holds (c_pipe c) q.
Proof.
  cbv zeta. split; [vm_compute; reflexivity|].
  destruct (pipe_fifo 0 (Pipe (replicate 512 0) 0 0 0 0 []) [Write false [1; 2; 3]; Read false 2; Close true] ltac:(reflexivity))
    as (q & Hq & _ & Hh).
  exists q. split; [|exact Hh]. set (c := converse _ _ _) in *.
  replace [1; 2; 3] with (accepted c) by (vm_compute; reflexivity).
  replace [1; 2] with (delivered c) by (vm_compute; reflexivity). exact Hq.
Defined.

(** ** Memory and string routines *)

(** [memmove] copies correctly also when the two ranges overlap: every byte
    of the destination gets the value its source had before the call, and no
    other byte changes. *)
Theorem memmove_overlap m dst src n x :
  0 <= n -> memmove m dst src n x = if (dst <=? x) && (x <? dst + n) then m (src + (x - dst)) else m x.
Proof. apply memmove_spec. Qed.

Lemma memmove_overlap_witness : memmove (fun a => a) 12 10 4 15 = 13.
Proof. exact (memmove_overlap (fun a => a) 12 10 4 15 ltac:(lia)). Defined.

(** ** Arguments of system calls *)

(** A routine that only looks at memory: its result, or a page fault. *)
Definition looks {A} (m : M kernel A) (s : kernel) (P : A -> Prop) : Prop :=
  match m s with
  | Ok a s' => s' = s /\ P a
  | Panic msg => msg = "trap"
  | _ => False
  end.

Lemma looks_bind {A B} (m : M kernel A) (k : A -> M kernel B) s P Q :
  looks m s P -> (forall a, P a -> looks (k a) s Q) -> looks (let! a := m in k a) s Q.
Proof. unfold looks, bind. destruct (m s); try done. intros [-> Ha] H. by apply H. Qed.

Lemma looks_ret {A} (a : A) s (P : A -> Prop) : P a -> looks (ret a) s P.
Proof. done. Qed.

Lemma looks_gets {A} (f : kernel -> A) s (P : A -> Prop) : P (f s) -> looks (gets f) s P.
Proof. done. Qed.

Lemma looks_mono {A} (m : M kernel A) s (P Q : A -> Prop) : looks m s P -> (forall a, P a -> Q a) -> looks m s Q.
Proof. unfold looks. destruct (m s); try done. intros [-> H] HPQ. auto. Qed.

(** The byte a program sees at [va]. *)
Definition user_byte (s : kernel) (va : Z) : option Z :=
  km_mem (k_mem s) <$> vtrans (km_mem (k_mem s)) (p_pgdir (cur_proc s)) (u32 va) false.

Lemma looks_vget va s : looks (vget va) s (fun c => user_byte s va = Some c).
Proof.
  unfold vget, user_byte. apply looks_bind with (P := fun x => x = s); [done|]. intros ? ->. destruct (vtrans _ _ _ _); done.
Qed.






(** The search for the terminator of a string. *)
Lemma looks_find_nul addr n len s :
  looks (find_nul addr n len) s (fun r => forall k, r = Some k -> exists i, (i < n)%nat /\ k = len + Z.of_nat i /\
    user_byte s (addr + Z.of_nat i) = Some 0 /\ forall j, (j < i)%nat -> user_byte s (addr + Z.of_nat j) <> Some 0).
Proof.
  revert addr len. induction n as [|n IH]; intros addr len; cbn [find_nul]; [by apply looks_ret|].
  eapply looks_bind; [apply looks_vget|]. intros c Hc. destruct (Z.eqb_spec c 0) as [->|Hne].
  - apply looks_ret. intros k [= <-]. exists 0%nat. rewrite !Z.add_0_r. split; [lia|]. split; [done|]. split; [done|lia].
  - eapply looks_mono; [apply IH|]. intros r H k (i & Hi & -> & H0 & Hb)%H. exists (S i). split; [lia|]. split; [lia|].
    replace (addr + Z.of_nat (S i)) with (addr + 1 + Z.of_nat i) by lia. split; [done|].
    intros [|j] Hj; [rewrite Z.add_0_r, Hc; congruence|].
    replace (addr + Z.of_nat (S j)) with (addr + 1 + Z.of_nat j) by lia. apply Hb. lia.
Qed.


(** [fetchstr] finds the user's string: when it succeeds the string lies
    entirely inside the process, the byte at the returned length is its
    terminator and no byte before it is; it changes nothing. *)
Theorem fetchstr_terminated addr s :
  0 <= addr ->
  looks (fetchstr addr) s (fun r => forall len, r = Some len -> 0 <= len /\ addr + len < p_sz (cur_proc s) /\
    user_byte s (addr + len) = Some 0 /\ forall j, 0 <= j < len -> user_byte s (addr + j) <> Some 0).
Proof.
  intros Ha. unfold fetchstr. eapply looks_bind; [by apply looks_gets with (P := fun p => p = cur_proc s)|]. intros ? ->.
  destruct (Z.leb_spec (p_sz (cur_proc s)) addr); [by apply looks_ret|].
  eapply looks_mono; [apply looks_find_nul|]. intros r H1 len (i & Hi & -> & H0 & Hb)%H1. rewrite Z.add_0_l in *.
  split; [lia|]. split; [lia|]. split; [done|]. intros j Hj. specialize (Hb (Z.to_nat j)). rewrite Z2Nat.id in Hb by lia. apply Hb. lia.
Qed.

(** A process with one page at address 0, in a memory written down byte by
    byte: its stack pointer is 16, and the word at 20 is 100. *)
Definition flat_memory : mem :=
  store32 (KERNBASE + 0x304000 + tf_esp) 16
    (store32 (KERNBASE + 0x303000 + 20) 100
      (store32 (KERNBASE + 0x302000) (0x303000 + 7)
        (store32 (KERNBASE + 0x301000) (0x302000 + 7) (fun _ => 0)))).

Definition flat_proc : proc :=
  Proc PGSIZE (KERNBASE + 0x301000) 0 RUNNING 1 None (KERNBASE + 0x304000) 0 None 0 (replicate NOFILE None) None
    (replicate 16 0) 0 0 0 (replicate SIGNUM 0).

Definition flat_kernel : kernel :=
  Kernel (boot ∅ 0) (Kmem flat_memory 0 0) ∅ [] [flat_proc] 2 (Some 0%nat) 0 0 [].




Lemma fetchstr_terminated_witness : exists s, fetchstr 20 s = Ok (Some 1) s /\ user_byte s 21 = Some 0.
Proof.
  exists flat_kernel. pose proof (fetchstr_terminated 20 flat_kernel ltac:(lia)) as H.
  assert (fetchstr 20 flat_kernel = Ok (Some 1) flat_kernel) as E by (vm_compute; reflexivity).
  unfold looks in H. rewrite E in H. destruct H as [_ H]. split; [exact E|]. by apply (H 1).
Defined.

(** ** Scheduling *)

(** Where the scheduler goes on: the slot it looks at next, and the slots it
    picks, as long as the process in slot [t] stays runnable.  Between two
    picks the machine may change in any way; at the end of the table the
    scheduler starts again. *)
Inductive picks (t : nat) : nat -> list nat -> Prop :=
  | picks_none i : picks t i []
  | picks_one i s j s' js :
      p_state (proc_at t s) = RUNNABLE -> scheduler_from i s = Ok (Some j) s' -> picks t (S j) js -> picks t i (j :: js)
  | picks_wrap i s s' js :
      p_state (proc_at t s) = RUNNABLE -> scheduler_from i s = Ok None s' -> picks t 0 js -> picks t i js.

(** The scheduler's choice: the first runnable process from slot [i] on. *)
Lemma scheduler_from_choice i s :
  match scheduler_from i s with
  | Ok (Some j) s' => (i <= j < NPROC)%nat /\ p_state (proc_at j s) = RUNNABLE /\
      (forall x, (i <= x < j)%nat -> p_state (proc_at x s) <> RUNNABLE) /\
      s' = set_ptable (alter (set_state RUNNING) j (k_ptable s)) (set_cur j s)
  | Ok None s' => s' = s /\ forall x, (i <= x < NPROC)%nat -> p_state (proc_at x s) <> RUNNABLE
  | Panic msg => msg = "switchuvm: no pgdir"
  | _ => False
  end.
Proof.
  unfold scheduler_from.
  remember (NPROC - i)%nat as n eqn:En. revert i En. induction n as [|n IH]; intros i En; cbn [seq first_].
  - split; [done|]. intros x Hx. lia.
  - unfold bind at 1 2, gets at 1. destruct (decide (p_state (proc_at i s) = RUNNABLE)) as [Hr|Hr].
    + unfold bind, modify. destruct (p_pgdir (proc_at i s) =? 0); [done|]. cbn. split; [lia|]. split; [done|]. split; [lia|done].
    + cbn. specialize (IH (S i) ltac:(lia)).
      match goal with |- match ?m with _ => _ end => destruct m as [[j|] s'|msg|c s'|] eqn:E end; try done.
      * destruct IH as (Hj & Hjr & Hx & ->). split; [lia|]. split; [done|]. split; [|done].
        intros x Hx'. destruct (decide (x = i)) as [->|]; [done|]. apply Hx. lia.
      * destruct IH as (-> & Hx). split; [done|]. intros x Hx'. destruct (decide (x = i)) as [->|]; [done|]. apply Hx. lia.
Qed.

Lemma picks_bound t i js : picks t i js -> (t < NPROC)%nat -> (i <= NPROC)%nat -> t ∉ js ->
  (length js <= if i <=? t then t - i else NPROC - i + t)%nat.
Proof.
  intros Hp Ht. induction Hp as [i|i s j s' js Hrun E Hp IH|i s s' js Hrun E Hp IH]; intros Hi Hn.
  - cbn. lia.
  - pose proof (scheduler_from_choice i s) as Hc. rewrite E in Hc. destruct Hc as (Hj & _ & Hx & _).
    apply not_elem_of_cons in Hn as [Hne Hn]. specialize (IH ltac:(lia) Hn). cbn [length].
    destruct (Nat.leb_spec i t) as [Hit|Hit].
    + assert (j < t)%nat.
      { destruct (decide (t < j)%nat) as [Hlt|]; [|lia]. by destruct (Hx t ltac:(lia)). }
      destruct (Nat.leb_spec (S j) t); lia.
    + destruct (Nat.leb_spec (S j) t); lia.
  - pose proof (scheduler_from_choice i s) as Hc. rewrite E in Hc. destruct Hc as (_ & Hx).
    specialize (IH ltac:(lia) Hn). cbn [Nat.leb] in IH. destruct (Nat.leb_spec i t); [|lia].
    by destruct (Hx t ltac:(lia)).
Qed.

(** C29: No process starves: while the process in slot [t] is runnable, the
    scheduler picks fewer than NPROC other processes before it picks this one,
    wherever in the table it is and whatever the other processes do. *)
Theorem scheduler_no_starvation t i js :
  picks t i js -> (t < NPROC)%nat -> (i <= NPROC)%nat -> t ∉ js -> (length js < NPROC)%nat.
Proof.
  intros Hp Ht Hi Hn. pose proof (picks_bound t i js Hp Ht Hi Hn) as H. destruct (Nat.leb_spec i t); lia.
Qed.

Lemma scheduler_no_starvation_witness : exists s s1 s2, scheduler_from 0 s = Ok (Some 0%nat) s1 /\
  scheduler_from 1 s = Ok (Some 1%nat) s2 /\ p_state (proc_at 2 s) = RUNNABLE /\ (length [0%nat; 1%nat] < NPROC)%nat.
Proof.
  set (p := set_state RUNNABLE flat_proc). set (s := set_ptable [p; p; p] flat_kernel).
  assert (exists s1, scheduler_from 0 s = Ok (Some 0%nat) s1) as [s1 E1] by (eexists; reflexivity).
  assert (exists s2, scheduler_from 1 s = Ok (Some 1%nat) s2) as [s2 E2] by (eexists; reflexivity).
  assert (picks 2 0 [0%nat; 1%nat]) as Hp.
  { eapply picks_one; [|exact E1|]; [reflexivity|]. eapply picks_one; [|exact E2|apply picks_none]. reflexivity. }
  exists s, s1, s2. split; [exact E1|]. split; [exact E2|]. split; [reflexivity|].
  apply (scheduler_no_starvation 2 0 _ Hp); [by apply Nat.ltb_lt|lia|set_solver].
Defined.

(** ** The console *)

(** C25: The console delivers lines: over any session of interrupts with any
    characters and reads of any sizes, also over the wrap-around of the three
    counters, the reads see what the lines alone say they should: characters
    in the order typed, edited by backspace and control-U, available to readers
    when the line is finished by a newline, by control-D or by a full buffer, at
    most one line per read, and control-D as an end of file. *)
Theorem console_delivers_lines ops : session ops console_init = Some (expected ops ([], [])).
Proof. apply session_spec, console_init_holds. Qed.



(** A letter key gives the letter, in upper case with exactly one of shift
    and caps lock, or the control character, and leaves the modifiers. *)
Theorem kbd_letters d l s :
  0 <= s < 64 -> (d, l) ∈ letter_keys ->
  kbdgetc (Some d) s = (if has s CTL then l - 96 else if xorb (has s SHIFT) (has s CAPSLOCK) then l - 32 else l, s).
Proof. intros Hs Hd. by apply kbdgetc_letter. Qed.

Lemma kbd_letters_witness : kbdgetc (Some 0x1E) (Z.lor SHIFT CAPSLOCK) = (97, Z.lor SHIFT CAPSLOCK).
Proof. apply (kbd_letters 0x1E 97 (Z.lor SHIFT CAPSLOCK)); [vm_compute; split; [discriminate|reflexivity]|]. by apply (bool_decide_unpack _). Defined.

(** Writing to the console, newlines included, keeps the cursor on the screen
    and touches no memory beyond it, and sends every byte over the serial line in
    order. *)
Theorem console_output_bounds l o :
  is_bytes l -> 0 <= cursor (display o) < 24 * 80 ->
  let o' := consolewrite l o in
  serial o' = serial o ++ l /\ 0 <= cursor (display o') < 24 * 80 /\
  forall x, ~ 0 <= x < 24 * 80 -> crt (display o') x = crt (display o) x.
Proof.
  intros Hl. revert o. induction Hl as [|c l Hc Hl IH]; intros o Ho; [by rewrite app_nil_r|]. unfold consolewrite. cbn [foldl].
  assert (Z.land c 0xff = c) as -> by (change 0xff with (Z.ones 8); rewrite Z.land_ones by lia; apply Z.mod_small; lia).
  destruct (cgaputc_inside c (display o) Ho) as [H1 H2].
  assert (display (consputc c o) = cgaputc c (display o)) as Ed by (unfold consputc; by destruct (c =? BACKSPACE)).
  destruct (IH (consputc c o) ltac:(by rewrite Ed)) as (E & H3 & H4). rewrite Ed in H4.
  assert (serial (consputc c o) = serial o ++ [c]) as Es.
  { unfold consputc. destruct (Z.eqb_spec c BACKSPACE); [unfold BACKSPACE in *; lia|]. cbn [serial uartputc]. by rewrite u8_small by lia. }
  unfold consolewrite in *. rewrite E, Es, <- app_assoc. split; [done|]. split; [done|]. intros x Hx. by rewrite H4, H2.
Qed.

Lemma console_output_bounds_witness : 0 <= cursor (display (consolewrite [65; 10; 66] (Outputs [] (Cga (fun _ => 0) 1919)))) < 24 * 80.
Proof. apply (console_output_bounds [65; 10; 66] (Outputs [] (Cga (fun _ => 0) 1919))); [repeat constructor; discriminate|cbn; lia]. Defined.
