(* ===== verification/StorageProps.v ===== *)
(** * What the storage stack guarantees

    The theorems about the disk as the rest of the kernel sees it: crash
    atomicity of transactions, the buffer cache, block and inode allocation,
    file contents, directories and paths, each with an instance on the image
    of [Demo]. *)

From S2P Require Import Prelude Bytes Params CString Dll FsState Bio Log Crash Store Txn.
From S2P Require Import Fs FsAlloc FsInode FsFile FsWrite FsPath FsDir Demo.

(** ** Transactions and crashes *)

(** C1: The last [end_op] of a transaction commits it, and does so atomically:
    if the machine stops after any number [k] of the disk writes [end_op]
    makes, recovery at the next boot leaves the file system either exactly as
    it was before the transaction or exactly as the transaction left it. *)
Theorem end_op_crash_atomic start nlog dsz J D V r s :
  store (Env start nlog 1 dsz J D) V ∅ r s ->
  wp end_op (fun _ s' => exists W n, journal s' = J ++ W /\
    (forall x, outside start nlog x -> memdisk s' !! x = V !! x) /\
    forall k, wp boot_log (fun _ s'' => forall x, outside start nlog x ->
        memdisk s'' !! x = if (k <=? n)%nat then D !! x else V !! x)
      (boot (crashed k W D) dsz)) s.
Proof.
  intros Hs. eapply wp_mono; [exact (end_op_store _ _ _ _ _ _ _ _ Hs)|].
  intros [] s' (W & D' & Hid & HV & HJ & [n Hat] & _). exists W, n. split; [exact HJ|]. split; [|exact Hat].
  intros x Hx. rewrite <- HV by exact Hx. by destruct Hid as [[[_ (-> & _) _ _ _] _ _] _ _].
Qed.

Lemma end_op_crash_atomic_witness : exists s s', end_op s = Ok tt s' /\ memdisk s' !! 6 = Some demo_data.
Proof.
  destruct demo_changed as (J & D & s & Hs & HD).
  destruct (wp_run _ _ _ (end_op_crash_atomic _ _ _ _ _ _ _ _ Hs)) as ([] & s' & E & W & n & _ & HV & _).
  exists s, s'. split; [exact E|]. rewrite HV by (apply demo_outside; lia). apply lookup_insert_eq.
Defined.

(** C10: Recovery may itself be interrupted: if the machine stops after any
    number of the writes recovery makes and boots again, the file system ends
    up exactly as if the first recovery had completed. *)
Theorem recovery_restartable dsz start nlog hs bs D :
  log_disk dsz start nlog hs bs D ->
  wp boot_log (fun _ s => forall k,
    wp boot_log (fun _ s' => forall x, outside start nlog x -> memdisk s' !! x = memdisk s !! x)
      (boot (crashed k (journal s) D) dsz)) (boot D dsz).
Proof.
  intros Hd. eapply wp_mono; [exact (boot_log_spec _ _ _ _ _ _ Hd)|].
  intros [] s (de & Hde & HJ & (Hm & _) & _) k. rewrite HJ.
  eapply wp_mono; [exact (recover_prefix _ _ _ _ _ _ _ k Hd Hde)|].
  intros [] s' Hs x Hx. rewrite Hs, Hm by exact Hx. symmetry. unfold recover_writes.
  rewrite apply_writes_app. simpl. apply lookup_insert_ne.
  destruct Hd as [_ _ _ [G1 G2 G3 G4 G5 G6 G7] _ _], Hx; lia.
Qed.

Lemma recovery_restartable_witness : exists s, boot_log (boot demo_disk demo_size) = Ok tt s /\
  forall k, exists s', boot_log (boot (crashed k (journal s) demo_disk) demo_size) = Ok tt s' /\
    memdisk s' !! 5 = memdisk s !! 5.
Proof.
  destruct (wp_run _ _ _ (recovery_restartable _ _ _ _ _ _ demo_log_disk)) as ([] & s & E & H).
  exists s. split; [exact E|]. intros k. destruct (wp_run _ _ _ (H k)) as ([] & s' & E' & H').
  exists s'. split; [exact E'|]. apply H', demo_outside. lia.
Defined.

(** ** Files *)

Section Files.
(** A transaction [e] of the log is running. *)
Context (e : txn_env) (dv : devsw).
#[local] Instance in_log : BlockStore := log_store e.
Implicit Types (V : gmap Z block) (p : inode) (sb : superblock).

(** A regular file or directory in the inode cache, with the blocks of its
    contents present and its inode block apart from them. *)
Record open_file V sb (s : kst) (ip : nat) p : Prop := {
  of_cache : icache s !! ip = Some p;
  of_dev : i_dev p = ROOTDEV;
  of_type : i_type p <> T_DEV;
  of_file : file_ok V sb p;
  of_pres : present V p 0 (i_size p);
  of_size : i_size p <= MAXFILE * BSIZE;
  of_inode : inode_block_ok V sb p
}.

(** The blocks a write of [n] bytes at [off] touches. *)
Definition span (off n : Z) : Z := (off mod BSIZE + n + BSIZE - 1) / BSIZE.

Lemma span_covers off n : 0 <= off -> 0 < n ->
  n <= (Z.of_nat (Z.to_nat (span off n)) - 1) * BSIZE + (BSIZE - off mod BSIZE) \/ n = 0.
Proof.
  intros Ho Hn. left. pose proof (BSIZE_bound off). assert (BSIZE = 512) as EB by done. unfold span.
  pose proof (Z.div_mod (off mod BSIZE + n + BSIZE - 1) BSIZE ltac:(done)).
  pose proof (Z.mod_pos_bound (off mod BSIZE + n + BSIZE - 1) BSIZE ltac:(done)).
  rewrite Z2Nat.id by (apply Z.div_pos; lia). nia.
Qed.

Lemma span_fuel off n : 0 <= off -> 0 <= n -> (Z.to_nat (span off n) <= io_fuel n)%nat.
Proof.
  intros Ho Hn. pose proof (BSIZE_bound off). assert (BSIZE = 512) as EB by done. unfold span, io_fuel.
  apply Z2Nat.inj_le; [apply Z.div_pos; lia|pose proof (Z.div_pos n BSIZE); lia|].
  transitivity ((n + 2 * BSIZE) / BSIZE); [apply Z.div_le_mono; lia|]. rewrite Z.div_add by done. lia.
Qed.

(** [writei], for any file and any range inside the largest file. *)
Lemma writei_open V r s ip p sb k src off n :
  let nb := Z.to_nat (span off n) in
  store e V ∅ (6 * nb + 1 + r) s -> open_file V sb s ip p -> env_ok V sb (2 * nb + k) ∅ ->
  is_bytes src -> 0 < n -> (Z.to_nat n <= length src)%nat -> 0 <= off <= i_size p -> off + n <= MAXFILE * BSIZE ->
  wp (writei dv ip src off n) (fun x s' => exists V' p', x = n /\ write_done V V' sb p p' off n src /\
    store e V' ∅ r s' /\ env_ok V' sb k ∅ /\ icache s' = <[ip := p']> (icache s)) s.
Proof.
  intros nb Hst [Hp Hdev Hty Hf Hpre Hsz [Hki Hno Hso [Hw H1]]] Henv Hby Hn Hlen Ho Hmax.
  eapply (@writei_spec in_log dv nb V r s ip p sb k src off n); try done; try lia.
  - apply span_covers; lia.
  - apply span_fuel; lia.
Qed.
(** C13: What is written is what is read: after [writei] of [n] bytes, [readi]
    of the same range returns exactly those bytes. *)
Theorem writei_readi_roundtrip V r s ip p sb k src off n :
  let nb := Z.to_nat (span off n) in
  store e V ∅ (6 * nb + 1 + r) s -> open_file V sb s ip p -> env_ok V sb (2 * nb + k) ∅ ->
  is_bytes src -> 0 < n -> (Z.to_nat n <= length src)%nat -> 0 <= off <= i_size p -> off + n <= MAXFILE * BSIZE ->
  wp (let! _ := writei dv ip src off n in readi dv ip off n) (fun x _ => x = (n, take (Z.to_nat n) src)) s.
Proof.
  intros nb Hst Hof Henv Hby Hn Hlen Ho Hmax. apply wp_bind.
  eapply wp_mono; [by apply (writei_open V r s ip p sb k src off n)|].
  intros x s' (V' & p' & -> & Hwd & Hs' & _ & I'). pose proof (wd_size _ _ _ _ _ _ _ _ Hwd) as Hsz.
  pose proof MAXFILE_bytes as HM. destruct Hof as [Hp Hdev Hty _ _ Hs _].
  eapply wp_mono; [apply (@readi_spec in_log dv V' ∅ r s' ip p' off n); try done; try lia|].
  - rewrite I'. apply list_lookup_insert_eq. by eapply lookup_lt_Some.
  - apply (write_done_dense V V' sb p p' off n src); done || lia.
  - apply empty_small.
  - intros y s2 [-> _]. rewrite Z.min_l by lia. f_equal. by eapply write_done_bytes; [exact Hwd|lia|].
Qed.

(** [writei] inside a transaction: it writes all [n] bytes, extends the
    file when the range goes past its end, stores the new size in the inode on
    the disk, and changes no other byte of the file, no other inode and no
    block of another file. *)
Theorem writei_updates V r s ip p sb k src off n :
  let nb := Z.to_nat (span off n) in
  store e V ∅ (6 * nb + 1 + r) s -> open_file V sb s ip p -> env_ok V sb (2 * nb + k) ∅ ->
  is_bytes src -> 0 < n -> (Z.to_nat n <= length src)%nat -> 0 <= off <= i_size p -> off + n <= MAXFILE * BSIZE ->
  wp (writei dv ip src off n) (fun x s' => exists V' p', x = n /\ store e V' ∅ r s' /\
    icache s' = <[ip := p']> (icache s) /\ i_size p' = Z.max (i_size p) (off + n) /\ file_ok V' sb p' /\
    (forall i, 0 <= i < i_size p' -> file_byte V' p' i =
       if (off <=? i) && (i <? off + n) then nth (Z.to_nat (i - off)) src 0 else file_byte V p i) /\
    (i_size p < off + n -> forall q, inode_on V' (i_inum p) q = Some (loaded q p')) /\
    (forall j q, j <> i_inum p -> kept V sb (IBLOCK j) -> ~ owned V p (IBLOCK j) -> inode_on V' j q = inode_on V j q) /\
    (forall x, kept V sb x -> ~ owned V p x -> x <> IBLOCK (i_inum p) -> V' !! x = V !! x)) s.
Proof.
  intros nb Hst Hof Henv Hby Hn Hlen Ho Hmax.
  eapply wp_mono; [by apply (writei_open V r s ip p sb k src off n)|].
  intros x s' (V' & p' & -> & Hwd & Hs' & _ & I'). exists V', p'. destruct Hwd as [F M S P N O W K J].
  do 5 (split; [done|]). split; [|by split].
  intros i Hi. destruct (Z.leb_spec off i), (Z.ltb_spec i (off + n)); cbn [andb]; [by apply N|apply O; lia..].
Qed.

(** [readi] returns the bytes of the file from [off] on: [n] of them, or
    those up to the end of the file if that comes first, and the file is as
    before. *)
Theorem readi_bytes V H r s ip p off n :
  store e V H r s -> icache s !! ip = Some p -> dense V H p -> (size H <= 3)%nat ->
  0 <= off <= i_size p -> 0 <= n -> off + n < 2 ^ 32 ->
  wp (readi dv ip off n) (fun x s' => let m := Z.min n (i_size p - off) in
    x = (m, file_bytes V p off m) /\ store e V H r s' /\ icache s' = icache s) s.
Proof. apply (@readi_spec in_log). Qed.

(** C40: Ranges that no file can have are refused without any effect: a read or
    a write that starts past the end of the file or wraps around the 32-bit
    offset, and a write beyond the largest file. *)
Theorem file_range_errors s ip p src off n :
  icache s !! ip = Some p -> i_type p <> T_DEV ->
  (i_size p < off \/ u32 (off + n) < off ->
     readi dv ip off n s = Ok (-1, []) s /\ writei dv ip src off n s = Ok (-1) s) /\
  (MAXFILE * BSIZE < u32 (off + n) -> writei dv ip src off n s = Ok (-1) s).
Proof.
  intros Hp Hty. split; [intros [H|H]|intros H]; [split..|]; (apply (readi_range dv s ip p) || apply (writei_range dv s ip p));
    auto.
Qed.

(** [bmap] gives every block of a file a disk block of its own: it returns
    the one the file has or a newly allocated, zeroed one, which is then part
    of the file; the other blocks of the file stay where they are. *)
Theorem bmap_maps V r s ip p sb k bn :
  store e V ∅ (5 + r) s -> icache s !! ip = Some p -> i_dev p = ROOTDEV ->
  env_ok V sb (2 + k) ∅ -> file_ok V sb p -> 0 <= bn < MAXFILE ->
  wp (bmap ip bn) (fun a s' => exists V' p', a <> 0 /\ block_of V' p' bn = a /\ file_ok V' sb p' /\
    (forall bn', 0 <= bn' < MAXFILE -> bn' <> bn -> block_of V' p' bn' = block_of V p bn') /\
    (block_of V p bn <> 0 -> a = block_of V p bn) /\
    (block_of V p bn = 0 -> ~ kept V sb a /\ V' !! a = Some zero_block) /\
    store e V' ∅ r s' /\ icache s' = <[ip := p']> (icache s)) s.
Proof.
  intros Hst Hp Hdev Henv Hf Hbn.
  eapply wp_mono; [by apply (@bmap_spec in_log V r s ip p sb k bn)|].
  intros a s' (V' & p' & Hm & Hs' & _ & I'). exists V', p'.
  destruct Hm as [[-> Ha] F _ O S Z R _ _ _ _]. split; [done|]. split; [done|]. split; [done|]. split; [done|].
  split; [done|]. split; [intros E; by split; [apply R|apply Z]|]. by split.
Qed.
(** ** Blocks and inodes *)

(** [balloc] hands out the lowest free block of the disk: it is zeroed and
    marked in use, and no other block changes its state. *)
Theorem balloc_takes_lowest V sb H r s b0 :
  image V sb -> apart V sb H -> (size H <= 3)%nat -> store e V H (S (S r)) s ->
  0 <= b0 < sb_size sb -> used V sb b0 = false ->
  wp (balloc ROOTDEV) (fun b s' => lowest_free V sb b /\ exists V', store e V' H r s' /\
    V' !! b = Some zero_block /\ image V' sb /\
    forall b', 0 <= b' < sb_size sb -> used V' sb b' = (b =? b') || used V sb b') s.
Proof.
  intros Him Hap Hsz Hst Hb Hu. pose proof (image_blocks V H (S (S r)) s Hst) as Hblk.
  eapply wp_mono; [by apply (@balloc_spec in_log V sb H r s b0)|].
  intros b s' (Hl & Hs' & _). split; [done|]. destruct Hl as (Hb' & Hu' & _). exists (allocated V sb b). split; [done|].
  split; [apply lookup_insert_eq|]. split; [by apply image_allocated|]. intros b' Hb''. by apply used_allocated.
Qed.

(** [bfree] undoes [balloc]: a block that is allocated and freed again
    leaves exactly the same blocks in use. *)
Theorem balloc_bfree_roundtrip V sb r s b0 :
  image V sb -> store e V ∅ (3 + r) s -> 0 <= b0 < sb_size sb -> used V sb b0 = false ->
  wp (let! b := balloc ROOTDEV in bfree ROOTDEV b) (fun _ s' => exists V', store e V' ∅ r s' /\ image V' sb /\
    forall b', 0 <= b' < sb_size sb -> used V' sb b' = used V sb b') s.
Proof.
  intros Him Hst Hb Hu. pose proof (image_blocks V ∅ (3 + r) s Hst) as Hblk.
  assert (forall V, apart V sb ∅) as Hap by (intros V' i h Hi; by rewrite lookup_empty in Hi).
  apply wp_bind. eapply wp_mono; [by apply (@balloc_spec in_log V sb ∅ (S r) s b0); [..|apply empty_small| | |]|].
  intros b s1 ((Hb1 & Hu1 & _) & Hs1 & _). pose proof (image_blocks _ _ _ _ Hs1) as Hblk1.
  pose proof (image_allocated V sb b Him Hblk Hb1 Hu1) as Him1.
  assert (forall b', 0 <= b' < sb_size sb -> used (allocated V sb b) sb b' = (b =? b') || used V sb b') as HU
    by (intros; by apply used_allocated).
  assert (used (allocated V sb b) sb b = true) as Hub by (rewrite HU, Z.eqb_refl by done; done).
  eapply wp_mono; [by apply (@bfree_spec in_log (allocated V sb b) sb ∅ r s1 b); [..|apply empty_small| | |]|].
  intros [] s2 [Hs2 _]. exists (freed (allocated V sb b) sb b). split; [done|]. destruct (im_free _ _ Him b Hb1 Hu1) as (_ & Hw & Hn1 & Hnm). split.
  { apply image_freed; try done. unfold allocated. rewrite lookup_insert_eq. by eexists. }
  intros b' Hb'. rewrite used_freed, HU by done. destruct (Z.eqb_spec b b') as [<-|]; [by rewrite Hu1|done].
Qed.

(** The block allocator stops the kernel instead of corrupting the disk:
    [balloc] when no block is free, [bfree] for a block that is not in use. *)
Theorem block_alloc_errors V sb H r s :
  image V sb -> apart V sb H -> (size H <= 3)%nat -> store e V H (S (S r)) s ->
  ((forall b, 0 <= b < sb_size sb -> used V sb b = true) -> balloc ROOTDEV s = Panic "balloc: out of blocks") /\
  (forall b, 0 <= b < sb_size sb -> used V sb b = false -> bfree ROOTDEV b s = Panic "freeing free block").
Proof.
  intros Him Hap Hsz Hst. split.
  - by apply (@balloc_full in_log V sb H r s).
  - intros b Hb Hu. by apply (@bfree_free in_log V sb H (S r) s b).
Qed.

(** [ialloc] claims the lowest free inode: on the disk it has the given
    type and nothing else, every other inode is unchanged, and the caller
    holds a reference to its entry in the inode cache. *)
Theorem ialloc_takes_lowest V sb H r s type inum0 :
  image V sb -> itable V sb H -> unheld H 1 -> (size H <= 3)%nat -> store e V H (S r) s ->
  - 2 ^ 15 <= type < 2 ^ 15 -> icache_ok (icache s) -> (exists i p, icache s !! i = Some p /\ i_ref p = 0) ->
  1 <= inum0 < sb_ninodes sb -> type_on V inum0 = Some 0 ->
  wp (ialloc ROOTDEV type) (fun ip s' => exists inum V' p, lowest_inode V sb inum /\ store e V' H r s' /\
    (forall q, inode_on V' inum q = Some (loaded q (i_with_type type zero_inode))) /\
    (forall j q, j <> inum -> inode_on V' j q = inode_on V j q) /\
    icache s' !! ip = Some p /\ caches_inode p ROOTDEV inum /\ icache_ok (icache s')) s.
Proof.
  intros Him Hit Hu Hsz Hst Hty Hic Hfr Hi0 Ht0. pose proof (image_blocks V H (S r) s Hst) as Hblk.
  eapply wp_mono; [by apply (@ialloc_spec in_log V sb H r s type inum0)|].
  intros ip s' (inum & d & p & Hl & HV & Hs' & Hp & Hc & Hic'). pose proof (Hblk _ _ HV) as Hd.
  exists inum, (<[IBLOCK inum := fresh_dinode inum type d]> V), p. split; [done|]. split; [done|]. split; [|split; [|done]].
  - intros q. unfold inode_on. rewrite lookup_insert_eq. cbn [fmap option_fmap option_map]. f_equal. by apply fresh_dinode_same.
  - intros j q Hj. unfold inode_on. destruct (decide (IBLOCK inum = IBLOCK j)) as [E|E]; [|by rewrite lookup_insert_ne].
    rewrite <- E, lookup_insert_eq, HV. cbn [fmap option_fmap option_map]. f_equal. apply fresh_dinode_ne; [done|].
    by apply dinode_apart.
Qed.

(** An entry of the inode cache that has been recycled for the same inode. *)
Definition recycled (p : inode) : inode := Inode (i_dev p) (i_inum p) (i_ref p) 0 0 0 0 0 0 [].

(** An inode survives its cache entry: after [iupdate], an entry that has
    forgotten everything but the inode's number gets all its fields back from
    the disk by [ilock]. *)
Theorem iupdate_ilock_roundtrip V H r s ip p :
  store e V H (S r) s -> icache s !! ip = Some p -> inode_ok p -> i_dev p = ROOTDEV -> 0 < i_ref p -> i_type p <> 0 ->
  is_Some (V !! IBLOCK (i_inum p)) -> unheld H (IBLOCK (i_inum p)) -> (size H <= 3)%nat ->
  outside (e_start e) (e_nlog e) (IBLOCK (i_inum p)) -> IBLOCK (i_inum p) <> 1 ->
  wp (iupdate ip ;;; modify (on_inode ip recycled) ;;; ilock ip) (fun _ s' =>
    icache s' = <[ip := i_with_flags (Z.lor I_BUSY I_VALID) p]> (icache s)) s.
Proof.
  intros Hst Hp Hok Hdev Hr Hty [d HV] Hun Hsz Hout H1. apply wp_bind.
  pose proof (store_block e V H (S r) s _ _ Hst HV) as Hb.
  eapply (@iupdate_store in_log V H r s ip p d); try done. intros s1 Hs1 I1. apply wp_bind, wp_modify.
  rewrite <- I1 in Hp. pose proof (lookup_lt_Some _ _ _ Hp) as Hlt.
  eapply (@ilock_load in_log _ H r (on_inode ip recycled s1) ip (recycled p) (loaded (recycled p) p)); try done.
  - by apply (@bs_icache in_log _ _ _ s1 (alter recycled ip (icache s1))).
  - cbn. rewrite (alter_insert_list _ _ _ p) by done. by apply list_lookup_insert_eq.
  - cbn [i_inum recycled]. rewrite (inode_on_update V p d) by done. by rewrite decide_True.
  - intros s2 _ I2. rewrite I2. cbn. rewrite (alter_insert_list _ _ _ p), list_insert_insert_eq, I1 by done. by destruct p.
Qed.

(** ** Directories *)

(** [dirlookup] is a search of the directory's entries: it returns a
    reference to the inode of the first entry in use that has the name, with
    the entry's offset, and nothing when there is no such entry. *)
Theorem dirlookup_finds_first V H r s dp p name :
  store e V H r s -> icache s !! dp = Some p -> dir_ok V H p -> (size H <= 3)%nat ->
  icache_ok (icache s) -> (exists i q, icache s !! i = Some q /\ i_ref q = 0) ->
  wp (dirlookup dv dp name) (fun x s' => store e V H r s' /\ icache_ok (icache s') /\
    match list_find (names name) (entries V p) with
    | Some (k, de) => exists ip q, x = Some (ip, Z.of_nat k * DIRENT_SIZE) /\
        icache s' !! ip = Some q /\ caches_inode q ROOTDEV (de_inum de)
    | None => x = None /\ icache s' = icache s
    end) s.
Proof.
  intros. eapply wp_mono; [by apply (@dirlookup_spec in_log dv V H r s dp p name)|].
  intros x s' (Hs & Hic & Hx). do 2 (split; [done|]). destruct (list_find _ _) as [[k de]|]; [|done].
  destruct Hx as (ip & q & -> & Hq & Hc & _). by exists ip, q.
Qed.

End Files.

(** C2: A [write] is durable and atomic as a whole transaction: [begin_op],
    [writei] and [end_op] return the number of bytes written, the file then
    holds them and every other file is as before, and if the machine stops at
    any point of the commit the next boot shows the file system either without
    the write or with all of it. *)
Theorem write_durable start nlog dv D s ip p sb src off n :
  let e := Env start nlog 1 (disksize s) (journal s) D in
  let nb := Z.to_nat (span off n) in
  idle start nlog D s -> Z.of_nat (6 * nb + 1) < nlog -> (6 * nb + 5 <= NBUF)%nat ->
  open_file e D sb s ip p -> @env_ok (log_store e) D sb (2 * nb) ∅ ->
  is_bytes src -> 0 < n -> (Z.to_nat n <= length src)%nat -> 0 <= off <= i_size p -> off + n <= MAXFILE * BSIZE ->
  wp (begin_op ;;; let! x := writei dv ip src off n in end_op ;;; ret x) (fun x s' => x = n /\
    exists W V p', journal s' = journal s ++ W /\ icache s' = <[ip := p']> (icache s) /\
      @write_done (log_store e) D V sb p p' off n src /\
      (forall a, outside start nlog a -> memdisk s' !! a = V !! a) /\
      exists m, forall k, wp boot_log (fun _ s'' => forall a, outside start nlog a ->
          memdisk s'' !! a = if (k <=? m)%nat then D !! a else V !! a)
        (boot (crashed k W D) (disksize s))) s.
Proof.
  intros e nb Hid Hr Hr' Hof Henv Hby Hn Hlen Ho Hmax.
  eapply wp_mono; [apply (transaction (writei dv ip src off n) start nlog D s (6 * nb + 1)
    (fun x V s2 => x = n /\ exists p', @write_done (log_store e) D V sb p p' off n src /\ icache s2 = <[ip := p']> (icache s)));
    [done|done|lia|]|].
  - intros s1 Hs1 I1. eapply wp_mono.
    { apply (writei_open e dv D 0 s1 ip p sb 0 src off n); try done; rewrite ?Nat.add_0_r; try done.
      destruct Hof as [? ? ? ? ? ? ?]. split; try done. congruence. }
    intros x s2 (V & p' & -> & Hwd & Hs2 & _ & I2). exists V, 0%nat. split; [exact Hs2|]. split; [done|].
    exists p'. split; [done|]. congruence.
  - intros x s' (W & D' & V & s2 & (-> & p' & Hwd & I2) & Hid' & HV & HJ & Hat & I'). split; [done|].
    exists W, V, p'. split; [done|]. split; [congruence|]. split; [done|]. split; [|exact Hat].
    intros a Ha. rewrite <- HV by exact Ha. by destruct Hid' as [[[_ (-> & _) _ _ _] _ _] _ _].
Qed.

Lemma demo_open_file J D V s : demo_view V -> icache s = demo_icache ->
  open_file (demo_env J D) V demo_sb s 0 demo_root.
Proof.
  intros HV Hic. split; [by rewrite Hic|done|done|by apply demo_file_ok|by apply demo_present|done|by apply demo_inode_block].
Qed.

Lemma write_durable_witness : exists s s', 
  (begin_op ;;; let! x := writei no_devices 0 [104; 105] 32 2 in end_op ;;; ret x) s = Ok 2 s' /\
  i_size (inode_at 0 s) = 32 /\ i_size (inode_at 0 s') = 34.
Proof.
  destruct demo_idle as (D & s & Hid & HD & Hz & Hic).
  assert (span 32 2 = 1) as E1 by reflexivity.
  destruct (wp_run _ _ _ (write_durable demo_start demo_nlog no_devices D s 0 demo_root demo_sb [104; 105] 32 2 Hid
    ltac:(rewrite E1; done) ltac:(rewrite E1; apply Nat.leb_le; reflexivity)
    ltac:(rewrite Hz; apply demo_open_file; [exact HD|exact Hic])
    ltac:(rewrite E1, Hz; apply demo_env_ok; [exact HD|lia]) ltac:(repeat constructor; lia) ltac:(lia)
    ltac:(cbn; lia) ltac:(by vm_compute) ltac:(by vm_compute))) as (x & s' & E & -> & W & V & p' & _ & I' & Hwd & _).
  exists s, s'. split; [exact E|]. rewrite (inode_at_some 0 s demo_root) by (by rewrite Hic).
  rewrite (inode_at_some 0 s' p') by (by rewrite I', Hic). split; [reflexivity|].
  by rewrite (wd_size _ _ _ _ _ _ _ _ Hwd).
Defined.

(** ** The theorems at work on the image *)

Lemma writei_readi_roundtrip_witness : exists s s',
  (let! _ := writei no_devices 0 [104; 105] 32 2 in readi no_devices 0 32 2) s = Ok (2, [104; 105]) s'.
Proof.
  destruct demo_dir_open as (J & D & s & Hs & HD & Hic).
  destruct (wp_run _ _ _ (writei_readi_roundtrip (demo_env J D) no_devices D 12 s 0 demo_root demo_sb 0 [104; 105] 32 2 Hs
    (demo_open_file J D D s HD Hic) (demo_env_ok J D D HD 2 ltac:(lia)) ltac:(repeat constructor; lia) ltac:(lia)
    ltac:(cbn; lia) ltac:(by vm_compute) ltac:(by vm_compute))) as (x & s' & E & ->).
  by exists s, s'.
Defined.

Lemma writei_updates_witness : exists s s', writei no_devices 0 [104; 105] 32 2 s = Ok 2 s' /\ i_size (inode_at 0 s') = 34.
Proof.
  destruct demo_dir_open as (J & D & s & Hs & HD & Hic).
  destruct (wp_run _ _ _ (writei_updates (demo_env J D) no_devices D 12 s 0 demo_root demo_sb 0 [104; 105] 32 2 Hs
    (demo_open_file J D D s HD Hic) (demo_env_ok J D D HD 2 ltac:(lia)) ltac:(repeat constructor; lia) ltac:(lia)
    ltac:(cbn; lia) ltac:(by vm_compute) ltac:(by vm_compute))) as (x & s' & E & V' & p' & -> & _ & I' & Hsz & _).
  exists s, s'. split; [exact E|]. rewrite (inode_at_some 0 s' p') by (by rewrite I', Hic). by rewrite Hsz.
Defined.

Lemma readi_bytes_witness : exists s s', readi no_devices 0 16 100 s = Ok (16, demo_dirent 1 [46; 46]) s'.
Proof.
  destruct demo_dir_open as (J & D & s & Hs & HD & Hic).
  destruct (wp_run _ _ _ (readi_bytes (demo_env J D) no_devices D ∅ 19 s 0 demo_root 16 100 Hs ltac:(by rewrite Hic)
    (dk_dense _ _ _ (demo_dir_ok D HD)) empty_small ltac:(by vm_compute) ltac:(lia) ltac:(lia))) as (x & s' & E & -> & _).
  exists s, s'. rewrite E. do 2 f_equal. pose proof (demo_entries D HD) as He. apply (f_equal (fun l => l !! 1%nat)) in He.
  apply lookup_entries in He as [_ He]. symmetry. exact He.
Defined.

Lemma file_range_errors_witness : exists s, readi no_devices 0 33 1 s = Ok (-1, []) s.
Proof.
  destruct demo_dir_open as (J & D & s & Hs & HD & Hic). exists s.
  apply (file_range_errors no_devices s 0 demo_root [] 33 1); [by rewrite Hic|done|by left].
Defined.

Lemma bmap_maps_witness : exists s s' a, bmap 0 1 s = Ok a s' /\ a <> 0.
Proof.
  destruct demo_dir_open as (J & D & s & Hs & HD & Hic).
  destruct (wp_run _ _ _ (bmap_maps (demo_env J D) D 14 s 0 demo_root demo_sb 0 1 Hs ltac:(by rewrite Hic) ltac:(done)
    (demo_env_ok J D D HD 2 ltac:(lia)) (demo_file_ok J D D HD) ltac:(by vm_compute))) as (a & s' & E & V' & p' & Ha & _).
  by exists s, s', a.
Defined.

Lemma balloc_takes_lowest_witness : exists s s', balloc ROOTDEV s = Ok 6 s'.
Proof.
  destruct demo_dir_open as (J & D & s & Hs & HD & _).
  destruct (wp_run _ _ _ (balloc_takes_lowest (demo_env J D) D demo_sb ∅ 17 s 10 (demo_image J D D HD) (demo_apart D) empty_small Hs
    ltac:(done) ltac:(by rewrite (demo_used D 10 HD)))) as (b & s' & E & (Hb & Hu & Hl) & _).
  exists s, s'. rewrite E. f_equal. rewrite (demo_used D b HD Hb) in Hu. destruct (Z.ltb_spec b 6); [done|].
  destruct (decide (b = 6)); [done|]. specialize (Hl 6 ltac:(lia)). by rewrite (demo_used D 6 HD) in Hl.
Defined.

Lemma balloc_bfree_roundtrip_witness : exists s s', (let! b := balloc ROOTDEV in bfree ROOTDEV b) s = Ok tt s'.
Proof.
  destruct demo_dir_open as (J & D & s & Hs & HD & _).
  destruct (wp_run _ _ _ (balloc_bfree_roundtrip (demo_env J D) D demo_sb 16 s 10 (demo_image J D D HD) Hs
    ltac:(done) ltac:(by rewrite (demo_used D 10 HD)))) as ([] & s' & E & _).
  by exists s, s'.
Defined.

Lemma block_alloc_errors_witness : exists s, bfree ROOTDEV 9 s = Panic "freeing free block".
Proof.
  destruct demo_dir_open as (J & D & s & Hs & HD & _). exists s.
  apply (block_alloc_errors (demo_env J D) D demo_sb ∅ 17 s (demo_image J D D HD) (demo_apart D) empty_small Hs);
    [done|by rewrite (demo_used D 9 HD)].
Defined.

Lemma ialloc_takes_lowest_witness : exists s s' ip, ialloc ROOTDEV T_FILE s = Ok ip s' /\ i_inum (inode_at ip s') = 2.
Proof.
  destruct demo_dir_open as (J & D & s & Hs & HD & Hic).
  destruct (wp_run _ _ _ (ialloc_takes_lowest (demo_env J D) D demo_sb ∅ 18 s T_FILE 2 (demo_image J D D HD) (demo_itable J D D HD)
    (unheld_empty 1) empty_small Hs ltac:(by vm_compute) ltac:(rewrite Hic; apply demo_icache_ok) ltac:(rewrite Hic; apply demo_icache_free)
    ltac:(done) (demo_type D HD 2 ltac:(lia)))) as (ip & s' & E & inum & V' & p & (Hi & Ht & Hl) & _ & _ & _ & Hp & (_ & _ & Hc) & _).
  exists s, s', ip. split; [exact E|]. rewrite (inode_at_some ip s' p Hp), Hc. destruct (decide (inum = 1)) as [->|].
  - by rewrite (demo_type D HD 1 ltac:(lia)) in Ht.
  - destruct (decide (inum = 2)); [done|]. exfalso. apply (Hl 2 ltac:(lia)). exact (demo_type D HD 2 ltac:(lia)).
Defined.

Lemma iupdate_ilock_roundtrip_witness : exists s s', (iupdate 0 ;;; modify (on_inode 0 recycled) ;;; ilock 0) s = Ok tt s' /\
  i_size (inode_at 0 s') = 32.
Proof.
  destruct demo_dir_open as (J & D & s & Hs & HD & Hic).
  destruct (wp_run _ _ _ (iupdate_ilock_roundtrip (demo_env J D) D ∅ 18 s 0 demo_root Hs ltac:(by rewrite Hic) demo_inode_ok
    ltac:(done) ltac:(done) ltac:(done) (demo_some D 2 HD ltac:(lia)) (unheld_empty _) empty_small (demo_outside 2 ltac:(lia)) ltac:(done)))
    as ([] & s' & E & I').
  exists s, s'. split; [exact E|]. by rewrite (inode_at_some 0 s' _ ltac:(rewrite I', Hic; reflexivity)).
Defined.

Lemma dirlookup_finds_first_witness : exists s s' ip, dirlookup no_devices 0 [46; 46] s = Ok (Some (ip, 16)) s'.
Proof.
  destruct demo_dir_open as (J & D & s & Hs & HD & Hic).
  destruct (wp_run _ _ _ (dirlookup_finds_first (demo_env J D) no_devices D ∅ 19 s 0 demo_root [46; 46] Hs ltac:(by rewrite Hic)
    (demo_dir_ok D HD) empty_small ltac:(rewrite Hic; apply demo_icache_ok) ltac:(rewrite Hic; apply demo_icache_free)))
    as (x & s' & E & _ & _ & Hx).
  rewrite (demo_entries D HD) in Hx. change (list_find _ _) with (Some (1%nat, demo_dirent 1 [46; 46])) in Hx.
  destruct Hx as (ip & q & -> & _). by exists s, s', ip.
Defined.


(** ** Paths *)

(** [skipelem] splits a path the way the file system means it: called
    repeatedly, as [namex] does, it yields the elements between the slashes in
    order, each cut to DIRSIZ bytes, and the walk ends after at most as many
    steps as the path has bytes. *)
Theorem skipelem_splits path name :
  is_path path -> length name = DIRSIZ ->
  walk_elems (length path) path name = take DIRSIZ <$> elems path.
Proof. intros Hp Hn. by apply walk_elems_spec. Qed.

(** [//a///bb] *)
Lemma skipelem_splits_witness : walk_elems 8 [47; 47; 97; 47; 47; 47; 98; 98] (replicate DIRSIZ 0) = [[97]; [98; 98]].
Proof.
  etransitivity; [|reflexivity].
  exact (skipelem_splits [47; 47; 97; 47; 47; 47; 98; 98] (replicate DIRSIZ 0) ltac:(repeat constructor; done) ltac:(reflexivity)).
Defined.

(** ** The buffer cache *)

(** The buffer cache is coherent: a block changed through [bread],
    [bwrite] and [brelse] is on the disk, and the next [bread] of the sector
    sees the new contents. *)
Theorem bread_after_bwrite s D P sec d f :
  rep s D P ∅ -> D !! sec = Some d -> (size P < NBUF)%nat -> is_block (f (default d (P !! sec))) ->
  wp (let! b := bread ROOTDEV sec in set_data b f ;;; bwrite b ;;; brelse b ;;;
      let! b' := bread ROOTDEV sec in gets (data_of b'))
    (fun x s' => x = f (default d (P !! sec)) /\ memdisk s' = <[sec := x]> D) s.
Proof.
  intros Hr HD Hsz Hf. set (d0 := default d (P !! sec)) in *. apply wp_bind.
  eapply wp_mono; [apply (bread_spec s D P ∅ sec d Hr HD); [apply unheld_empty|right; rewrite map_size_empty; lia]|].
  intros b s1 (H1 & Hb & _ & _). fold d0 in H1. set (h := Held sec d0 _) in *.
  apply wp_bind, wp_modify. rewrite (on_buf_eq s1 b _ (with_data (f d0)))
    by (rewrite (held_data _ _ _ _ b h H1 (lookup_insert_eq _ _ _)); done).
  pose proof (set_data_spec _ _ _ _ b h _ H1 (lookup_insert_eq _ _ _) Hf) as H2. rewrite insert_insert_eq in H2.
  apply wp_bind. eapply wp_mono; [eapply (bwrite_spec _ _ _ _ b _ H2 (lookup_insert_eq _ _ _)); by eexists|].
  cbn [h_sector h_data]. intros [] s3 (H3 & _ & _). rewrite insert_insert_eq in H3.
  apply wp_bind. eapply wp_mono; [eapply (brelse_spec _ _ _ _ b _ H3 (lookup_insert_eq _ _ _))|].
  { intros _. apply lookup_insert_eq. }
  cbn [h_dirty]. intros [] s4 (H4 & _ & _). rewrite delete_insert_id in H4 by done.
  apply wp_bind. eapply wp_mono; [eapply (bread_spec s4 _ _ ∅ sec (f d0) H4)|].
  { apply lookup_insert_eq. }
  { apply unheld_empty. }
  { right. rewrite map_size_empty. rewrite map_size_delete. destruct (P !! sec); unfold id; lia. }
  intros b' s5 (H5 & _ & _ & _). rewrite lookup_delete_eq in H5. cbn [default from_option] in H5. apply wp_gets.
  rewrite (held_data _ _ _ _ b' _ H5 (lookup_insert_eq _ _ _) : data_of b' s5 = f d0). split; [done|]. by destruct H5 as (-> & _).
Qed.

Lemma bread_after_bwrite_witness : exists s s',
  (let! b := bread ROOTDEV 6 in set_data b (fun _ => demo_data) ;;; bwrite b ;;; brelse b ;;;
   let! b' := bread ROOTDEV 6 in gets (data_of b')) s = Ok demo_data s'.
Proof.
  destruct demo_booted as (s & D & _ & [[[_ Hr _ _ _] _ _] _ _] & _ & _ & HD).
  destruct (demo_some D 6 HD ltac:(lia)) as [d Hd].
  destruct (wp_run _ _ _ (bread_after_bwrite s D ∅ 6 d (fun _ => demo_data) Hr Hd ltac:(rewrite map_size_empty; by apply Nat.ltb_lt)
    demo_data_ok)) as (x & s' & E & -> & _).
  by exists s, s'.
Defined.

(** The cache is a least-recently-used list: [brelse] moves the released
    buffer to the front and leaves the order of the others, so that [bget],
    which searches from the back, recycles the buffer released longest ago. *)
Theorem brelse_most_recent s l1 b l2 :
  lru s (l1 ++ b :: l2) -> has (flags_of s b) B_BUSY = true ->
  wp (brelse b) (fun _ s' => lru s' (b :: l1 ++ l2)) s.
Proof.
  intros Hl Hb. assert (links_ok s) as Hlinks by (by eexists). pose proof Hl as (Hlen & Hd & Hp).
  assert (b < NBUF)%nat as Hlt by (apply (order_lt _ _ Hp); set_solver).
  apply wp_ok. exists tt. eexists. split; [by apply brelse_run|].
  destruct (relink_lru s l1 b l2 Hl) as (Hlen' & Hd' & Hp'). split; [|split; [|done]].
  - cbn. by rewrite length_alter.
  - assert (forall c z x, buf_at (wake c z) x = buf_at z x) as Hwake by done.
    eapply dll_ext; [| |exact Hd']; intros x; unfold next_of, prev_of;
      rewrite Hwake, (buf_at_on_buf (relink b s) b _ x ltac:(lia)); case_decide as E; by rewrite ?E.
Qed.

Lemma brelse_most_recent_witness : exists s s' b l1 l2, lru s (l1 ++ b :: l2) /\ brelse b s = Ok tt s' /\ lru s' (b :: l1 ++ l2).
Proof.
  destruct demo_booted as (s0 & D & _ & [[[_ Hr _ _ _] _ _] _ _] & _ & _ & HD).
  destruct (demo_some D 6 HD ltac:(lia)) as [d Hd].
  destruct (wp_run _ _ _ (bread_spec s0 D ∅ ∅ 6 d Hr Hd (unheld_empty _) ltac:(right; by apply Nat.ltb_lt)))
    as (b & s & _ & H1 & _).
  destruct (held_buf _ _ _ _ b _ H1 (lookup_insert_eq _ _ _)) as (Hi & (_ & _ & Hb & _) & _).
  destruct (links_split s b ltac:(apply H1) Hi) as (l1 & l2 & Hl).
  destruct (wp_run _ _ _ (brelse_most_recent s l1 b l2 Hl Hb)) as ([] & s' & E & H').
  by exists s, s', b, l1, l2.
Defined.

(** ** The log *)

(** Admission to the log: [begin_op] lets a system call in exactly when no
    commit is running and the log could still hold MAXOPBLOCKS more blocks for
    it and for every call already in; otherwise it goes to sleep on the log and
    changes nothing. *)
Theorem begin_op_admission s :
  begin_op s =
    if (l_committing (log s) =? 0) && (lh_n (log s) + (l_outstanding (log s) + 1) * MAXOPBLOCKS <=? LOGSIZE)
    then Ok tt (on_log (with_outstanding (l_outstanding (log s) + 1)) s)
    else Sleep ch_log s.
Proof. apply begin_op_run. Qed.

(** The log absorbs repeated writes: [log_write] of a held buffer marks it
    dirty and records its sector once, however often the sector is written in
    the transaction, so the log needs one block per different sector. *)
Theorem log_write_absorbs s D P H start nlog hs i h :
  in_txn s D P H start nlog hs -> H !! i = Some h -> 1 <= l_outstanding (log s) ->
  Z.of_nat (length hs) + 1 < nlog - 1 -> loggable s start nlog (h_sector h) ->
  wp (log_write i ;;; log_write i) (fun _ s' =>
    in_txn s' D P (<[i := Held (h_sector h) (h_data h) true]> H) start nlog
      (if decide (h_sector h ∈ hs) then hs else hs ++ [h_sector h]) /\ journal s' = journal s) s.
Proof.
  intros Ht Hi Ho Hn Hl. apply wp_bind.
  eapply wp_mono; [apply (log_write_spec s D P H start nlog hs i h); done || lia|].
  intros [] s1 (Ht1 & J1 & [O1 C1] & [Q1 _]). pose proof (length_log_add hs (h_sector h)).
  eapply wp_mono; [eapply (log_write_spec s1 D P _ start nlog (log_add hs (h_sector h)) i (Held (h_sector h) (h_data h) true))|].
  - done.
  - apply lookup_insert_eq.
  - by rewrite O1.
  - lia.
  - unfold loggable. by rewrite Q1.
  - cbn [h_sector h_data]. intros [] s2 (Ht2 & J2 & _). rewrite insert_insert_eq in Ht2. split; [|congruence].
    unfold log_add in Ht2 at 1. by rewrite decide_True in Ht2 by (apply elem_of_log_add; by right).
Qed.

Lemma log_write_absorbs_witness : exists s s' b, (log_write b ;;; log_write b) s = Ok tt s' /\ lh_n (log s) = 0 /\ lh_n (log s') = 1.
Proof.
  destruct demo_dir_open as (J & D & s0 & Hs0 & HD & _). destruct (demo_some D 6 HD ltac:(lia)) as [d Hd].
  destruct (wp_run _ _ _ (store_bread (demo_env J D) D ∅ 19 s0 6 d Hs0 Hd (unheld_empty _) empty_small))
    as (b & s & _ & _ & _ & dirty & [(P & hs & [Hin _ _] & Hlen & _) _ [Ho _] _ [Hz _]]).
  cbn in Hlen, Hz, Ho. unfold demo_nlog in Hlen. assert (hs = []) as -> by (destruct hs; [done|cbn in Hlen; lia]).
  destruct (wp_run _ _ _ (log_write_absorbs s D P _ demo_start demo_nlog [] b (Held 6 d dirty) Hin (lookup_insert_eq _ _ _)
    ltac:(rewrite Ho; lia) ltac:(by vm_compute) ltac:(split; [rewrite Hz; done|apply demo_outside; cbn; lia]))) as ([] & s' & E & H' & _).
  exists s, s', b. split; [exact E|]. destruct Hin as [_ _ (_ & _ & -> & _) _ _], H' as [_ _ (_ & _ & -> & _) _ _].
  by rewrite decide_False by set_solver.
Defined.
