(* ===== verification/Grep.v ===== *)
(** * [grep.c]

    The matcher, and the loop that reads the input into a buffer and matches it
    line by line.  The semantics of patterns the matcher is compared with is in
    the module [Pattern]. *)

From S2P Require Import Prelude Bytes CString Ulib.

(** Characters with a meaning in patterns. *)
Definition ch_caret : Z := 94.
Definition ch_dot : Z := 46.
Definition ch_star : Z := 42.
Definition ch_dollar : Z := 36.
Definition ch_newline : Z := 10.

(** ** The matcher *)

(** The loop of [matchstar]; [here] is [matchhere] of the rest of the pattern. *)
Fixpoint star_loop (here : list Z -> bool) (c : Z) (text : list Z) : bool :=
  if here text then true
  else match text with
       | [] => false
       | t :: text' => if (t =? c) || (c =? ch_dot) then star_loop here c text' else false
       end.

Fixpoint matchhere (re text : list Z) : bool :=
  match re with
  | [] => true
  | c :: re1 =>
      let single :=
        if (c =? ch_dollar) && bool_decide (re1 = []) then bool_decide (text = [])
        else match text with
             | [] => false
             | t :: text' => if (c =? ch_dot) || (c =? t) then matchhere re1 text' else false
             end in
      match re1 with
      | d :: re2 => if d =? ch_star then star_loop (fun t => matchhere re2 t) c text else single
      | [] => single
      end
  end.

Definition matchstar (c : Z) (re text : list Z) : bool := star_loop (matchhere re) c text.

Fixpoint match_loop (re text : list Z) : bool :=
  if matchhere re text then true
  else match text with
       | [] => false
       | _ :: text' => match_loop re text'
       end.

Definition match_ (re text : list Z) : bool :=
  if deref re =? ch_caret then matchhere (tl re) text else match_loop re text.

(** ** Reading lines *)

(** [sizeof(buf)]; [buf] itself is at address 0. *)
Definition bufsize : Z := 1024.

(** [strchr(p, c)] on memory, looking at [fuel] characters at most. *)
Fixpoint strchr_at (fuel : nat) (m : mem) (s c : Z) : option (option Z) :=
  match fuel with
  | O => None
  | S fuel' =>
      if m s =? 0 then Some None
      else if m s =? c then Some (Some s)
      else strchr_at fuel' m (s + 1) c
  end.

(** The bytes of memory from [a] to [b]. *)
Definition text_at (m : mem) (a b : Z) : list Z := m <$> seqZ a (b - a).

(** The inner loop: the memory and [p] after it, and what was written. *)
Fixpoint grep_lines (fuel : nat) (pattern : list Z) (m : mem) (p : Z) : option (mem * Z * list Z) :=
  match fuel with
  | O => None
  | S fuel' =>
      match strchr_at fuel m p ch_newline with
      | None => None
      | Some None => Some (m, p, [])
      | Some (Some q) =>
          let m1 := poke q 0 m in
          if match_ pattern (text_at m1 p q) then
            let m2 := poke q ch_newline m1 in
            match grep_lines fuel' pattern m2 (q + 1) with
            | Some (m', p', out) => Some (m', p', text_at m2 p (q + 1) ++ out)
            | None => None
            end
          else grep_lines fuel' pattern m1 (q + 1)
      end
  end.

(** Put the bytes [l] at address [a]. *)
Fixpoint put (m : mem) (a : Z) (l : list Z) : mem :=
  match l with
  | [] => m
  | c :: l' => put (poke a c m) (a + 1) l'
  end.

(** [grep]: [input] is what the descriptor delivers, one element for each
    [read]; a [read] takes as much of it as the buffer has room for. *)
Fixpoint grep_loop (fuel : nat) (pattern : list Z) (input : list (list Z)) (b : mem) (m : Z) : option (list Z) :=
  match fuel with
  | O => None
  | S fuel' =>
      match input with
      | [] => Some []
      | chunk :: rest =>
          let got := take (Z.to_nat (bufsize - m)) chunk in
          let left := drop (Z.to_nat (bufsize - m)) chunk in
          let n := Z.of_nat (length got) in
          if n <=? 0 then Some []
          else
            match grep_lines fuel' pattern (put b m got) 0 with
            | None => None
            | Some (b1, p, out) =>
                let m1 := if p =? 0 then 0 else m + n in
                let '(b2, m2) := if 0 <? m1 then (memmove b1 0 p (m1 - p), m1 - p) else (b1, m1) in
                match grep_loop fuel' pattern (if decide (left = []) then rest else left :: rest) b2 m2 with
                | Some out' => Some (out ++ out')
                | None => None
                end
            end
      end
  end.

Definition grep (fuel : nat) (pattern : list Z) (input : list (list Z)) : option (list Z) :=
  grep_loop fuel pattern input (fun _ => 0) 0.

(** ** Patterns *)

Module Pattern.

Inductive atom : Type := Lit (c : Z) | Any.
Inductive item : Type := One (a : atom) | Many (a : atom).

Definition stands_for (a : atom) (c : Z) : Prop :=
  match a with Lit d => c = d | Any => True end.

Inductive matches : list item -> list Z -> Prop :=
  | matches_nil : matches [] []
  | matches_one a c its t : stands_for a c -> matches its t -> matches (One a :: its) (c :: t)
  | matches_stop a its t : matches its t -> matches (Many a :: its) t
  | matches_more a c its t : stands_for a c -> matches (Many a :: its) t -> matches (Many a :: its) (c :: t).

(** A pattern: what it must match, and whether that has to be at the beginning
    and at the end of the text. *)
Record pattern := Pat { at_start : bool; items : list item; at_end : bool }.

Definition atom_of (c : Z) : atom := if c =? ch_dot then Any else Lit c.

(** A star applies to the character before it, whatever that is; a dollar sign
    is special at the very end only. *)
Fixpoint body (re : list Z) : list item * bool :=
  match re with
  | [] => ([], false)
  | c :: re1 =>
      let single :=
        if (c =? ch_dollar) && bool_decide (re1 = []) then ([], true)
        else let '(its, e) := body re1 in (One (atom_of c) :: its, e) in
      match re1 with
      | d :: re2 => if d =? ch_star then let '(its, e) := body re2 in (Many (atom_of c) :: its, e) else single
      | [] => single
      end
  end.

Definition of_text (re : list Z) : pattern :=
  match re with
  | c :: re' => if c =? ch_caret then let '(its, e) := body re' in Pat true its e
                else let '(its, e) := body re in Pat false its e
  | [] => Pat false [] false
  end.

(** A text has an occurrence of the pattern. *)
Definition occurs (p : pattern) (text : list Z) : Prop :=
  exists pre mid post, text = pre ++ mid ++ post /\ matches (items p) mid /\
    (at_start p = true -> pre = []) /\ (at_end p = true -> post = []).

End Pattern.
Import Pattern.

(** ** The matcher implements the patterns *)

(** What [matchhere] decides: the text begins with a match. *)
Definition begins (p : list item * bool) (text : list Z) : Prop :=
  exists mid post, text = mid ++ post /\ matches p.1 mid /\ (p.2 = true -> post = []).

Lemma atom_of_test c t : stands_for (atom_of c) t <-> (c =? ch_dot) || (c =? t) = true.
Proof.
  unfold atom_of. destruct (Z.eqb_spec c ch_dot); [done|]. cbn [stands_for orb]. rewrite Z.eqb_eq. naive_solver.
Qed.

Lemma begins_one a its e text :
  begins (One a :: its, e) text <-> exists t text', text = t :: text' /\ stands_for a t /\ begins (its, e) text'.
Proof.
  split.
  - intros (mid & post & -> & Hm & Hp). cbn [fst snd] in *. inversion Hm as [|? c ? t Hc Ht| |]; subst.
    exists c, (t ++ post). split; [done|]. split; [done|]. by exists t, post.
  - intros (t & text' & -> & Ht & mid & post & -> & Hm & Hp). exists (t :: mid), post. split; [done|].
    split; [by constructor|done].
Qed.

Lemma begins_many a its e text :
  begins (Many a :: its, e) text <->
  begins (its, e) text \/ exists t text', text = t :: text' /\ stands_for a t /\ begins (Many a :: its, e) text'.
Proof.
  split.
  - intros (mid & post & -> & Hm & Hp). cbn [fst snd] in *. inversion Hm as [| |? ? ? Ht|? c ? t Hc Ht]; subst.
    + left. by exists mid, post.
    + right. exists c, (t ++ post). split; [done|]. split; [done|]. by exists t, post.
  - intros [(mid & post & -> & Hm & Hp)|(t & text' & -> & Ht & mid & post & -> & Hm & Hp)].
    + exists mid, post. split; [done|]. split; [by apply matches_stop|done].
    + exists (t :: mid), post. split; [done|]. split; [by apply matches_more|done].
Qed.

Lemma begins_nil e text : begins ([], e) text <-> (e = true -> text = []).
Proof.
  split.
  - intros (mid & post & -> & Hm & Hp) He. inversion Hm; subst. by apply Hp.
  - intros H. exists [], text. split; [done|]. split; [constructor|done].
Qed.

Lemma star_loop_spec here c its e text :
  (forall t, here t = true <-> begins (its, e) t) ->
  star_loop here c text = true <-> begins (Many (atom_of c) :: its, e) text.
Proof.
  intros Hh. induction text as [|t text IH]; cbn [star_loop]; rewrite begins_many, <- Hh.
  - destruct (here []); [naive_solver|]. naive_solver.
  - destruct (here (t :: text)); [naive_solver|]. rewrite (Z.eqb_sym t c), orb_comm.
    pose proof (atom_of_test c t) as Ha. destruct (_ || _).
    + rewrite IH. split; [intros H; right; exists t, text; naive_solver|naive_solver].
    + split; [done|]. intros [|(t' & text' & [= <- <-] & Ht & _)]; [done|]. by apply Ha in Ht.
Qed.

Lemma matchhere_single c re1 text :
  (forall t, matchhere re1 t = true <-> begins (body re1) t) ->
  (if (c =? ch_dollar) && bool_decide (re1 = []) then bool_decide (text = [])
   else match text with
        | [] => false
        | t :: text' => if (c =? ch_dot) || (c =? t) then matchhere re1 text' else false
        end) = true <->
  begins (if (c =? ch_dollar) && bool_decide (re1 = []) then ([], true)
          else let '(its, e) := body re1 in (One (atom_of c) :: its, e)) text.
Proof.
  intros IH. destruct (_ && _).
  - rewrite begins_nil, bool_decide_eq_true. naive_solver.
  - destruct (body re1) as [its e]. rewrite begins_one. destruct text as [|t text]; [naive_solver|].
    pose proof (atom_of_test c t) as Ha. destruct (_ || _).
    + rewrite IH. split; [intros H; exists t, text; naive_solver|naive_solver].
    + split; [done|]. intros (t' & text' & [= <- <-] & Ht & _). by apply Ha in Ht.
Qed.

(** Induction on patterns as [matchhere] takes them apart. *)
Lemma pattern_ind (P : list Z -> Prop) :
  P [] -> (forall c, P [c]) -> (forall c d re, P re -> P (d :: re) -> P (c :: d :: re)) -> forall re, P re.
Proof.
  intros H0 H1 H2 re. enough (P re /\ forall c, P (c :: re)) by tauto.
  induction re as [|d re [IH1 IH2]]; [by split|]. split; [apply IH2|]. intros c. by apply H2.
Qed.

Lemma matchhere_spec re text : matchhere re text = true <-> begins (body re) text.
Proof.
  revert text. induction re as [|c|c d re IH1 IH2] using pattern_ind; intros text.
  - cbn [matchhere body]. rewrite begins_nil. by split.
  - apply (matchhere_single c [] text). intros t. cbn [matchhere body]. rewrite begins_nil. by split.
  - change (matchhere (c :: d :: re) text) with
      (if d =? ch_star then star_loop (fun t => matchhere re t) c text
       else if (c =? ch_dollar) && bool_decide (d :: re = []) then bool_decide (text = [])
       else match text with [] => false | t :: text' => if (c =? ch_dot) || (c =? t) then matchhere (d :: re) text' else false end).
    change (body (c :: d :: re)) with
      (if d =? ch_star then let '(its, e) := body re in (Many (atom_of c) :: its, e)
       else if (c =? ch_dollar) && bool_decide (d :: re = []) then ([], true)
       else let '(its, e) := body (d :: re) in (One (atom_of c) :: its, e)).
    destruct (d =? ch_star); [|by apply matchhere_single]. destruct (body re) as [its e]. by apply star_loop_spec.
Qed.

Lemma match_loop_spec re text :
  match_loop re text = true <-> exists pre suf, text = pre ++ suf /\ matchhere re suf = true.
Proof.
  induction text as [|t text IH]; cbn [match_loop].
  - destruct (matchhere re []) eqn:E; split; try done; [by exists [], []|]. intros ([|] & suf & H & Hm); [|done]. cbn in H. by subst suf; rewrite Hm in E.
  - destruct (matchhere re (t :: text)) eqn:E; [split; [by exists [], (t :: text)|done]|]. rewrite IH. split.
    + intros (pre & suf & -> & H). by exists (t :: pre), suf.
    + intros ([|x pre] & suf & H & Hm); [cbn in H; subst suf; congruence|]. injection H as -> ->. by exists pre, suf.
Qed.

Lemma match_spec re text : match_ re text = true <-> occurs (of_text re) text.
Proof.
  assert (forall re, match_loop re text = true <-> let '(its, e) := body re in occurs (Pat false its e) text) as Hfree.
  { intros r. rewrite match_loop_spec. pose proof (matchhere_spec r) as Hm. destruct (body r) as [its e]. split.
    - intros (pre & suf & -> & H). apply Hm in H as (mid & post & -> & H1 & H2). by exists pre, mid, post.
    - intros (pre & mid & post & -> & H1 & _ & H2). exists pre, (mid ++ post). split; [done|]. apply Hm. by exists mid, post. }
  unfold match_, of_text. destruct re as [|c re]; [apply (Hfree [])|]. cbn [deref hd tl]. destruct (c =? ch_caret).
  - rewrite matchhere_spec. destruct (body re) as [its e]. split.
    + intros (mid & post & -> & H1 & H2). exists [], mid, post. done.
    + intros (pre & mid & post & -> & H1 & H2 & H3). rewrite H2 by done. by exists mid, post.
  - rewrite Hfree. by destruct (body (c :: re)).
Qed.

#[export] Instance occurs_dec re text : Decision (occurs (of_text re) text).
Proof.
  destruct (match_ re text) eqn:E; [left; by apply match_spec|right]. intros H%match_spec. congruence.
Defined.

(** ** Reading lines *)

(** The memory at [a] begins with [l]. *)
Definition spells (m : mem) (a : Z) (l : list Z) : Prop := forall i c, l !! i = Some c -> m (a + Z.of_nat i) = c.

Lemma spells_app m a l1 l2 : spells m a (l1 ++ l2) <-> spells m a l1 /\ spells m (a + Z.of_nat (length l1)) l2.
Proof.
  split.
  - intros H. split; intros i c Hi; [apply H; by apply lookup_app_l_Some|].
    rewrite <- Z.add_assoc, <- Nat2Z.inj_add. apply H. rewrite lookup_app_r by lia. by rewrite Nat.add_comm, Nat.add_sub.
  - intros [H1 H2] i c [Hi|[Hl Hi]]%lookup_app_Some; [by apply H1|]. specialize (H2 _ _ Hi).
    replace (a + Z.of_nat i) with (a + Z.of_nat (length l1) + Z.of_nat (i - length l1)) by lia. done.
Qed.

Lemma spells_ext m m' a l :
  (forall x, a <= x < a + Z.of_nat (length l) -> m' x = m x) -> spells m a l -> spells m' a l.
Proof. intros He H i c Hi. rewrite He; [by apply H|]. apply lookup_lt_Some in Hi. lia. Qed.

Lemma text_at_spells m a l : spells m a l -> text_at m a (a + Z.of_nat (length l)) = l.
Proof.
  intros H. unfold text_at. replace (a + Z.of_nat (length l) - a) with (Z.of_nat (length l)) by lia.
  apply list_eq. intros i. rewrite list_lookup_fmap. destruct (decide (i < length l)%nat) as [Hi|Hi].
  - rewrite lookup_seqZ_lt by lia. destruct (lookup_lt_is_Some_2 _ _ Hi) as [c Hc]. rewrite Hc. cbn. by rewrite (H _ _ Hc).
  - rewrite lookup_seqZ_ge, lookup_ge_None_2 by lia. done.
Qed.

Lemma put_spec b a l x :
  put b a l x = if (a <=? x) && (x <? a + Z.of_nat (length l)) then nth (Z.to_nat (x - a)) l 0 else b x.
Proof.
  revert b a. induction l as [|c l IH]; intros b a; cbn [put length]; [zcmp; done|].
  rewrite IH. unfold poke. zcmp; try done.
  - replace (Z.to_nat (x - a)) with (S (Z.to_nat (x - (a + 1)))) by lia. done.
  - subst. by rewrite Z.sub_diag.
Qed.

Lemma put_spells b a l : spells (put b a l) a l.
Proof.
  intros i c Hi. rewrite put_spec. pose proof (lookup_lt_Some _ _ _ Hi). zcmp.
  replace (Z.to_nat (a + Z.of_nat i - a)) with i by lia. by apply nth_lookup_Some.
Qed.

(** A line of text: no newline and no NUL inside. *)
Definition is_line (l : list Z) : Prop := Forall (fun c => c <> 0 /\ c <> ch_newline) l.
Definition unlines (ls : list (list Z)) : list Z := concat ((fun l => l ++ [ch_newline]) <$> ls).

Lemma strchr_at_line fuel m s l :
  is_line l -> spells m s (l ++ [ch_newline]) -> (length l < fuel)%nat ->
  strchr_at fuel m s ch_newline = Some (Some (s + Z.of_nat (length l))).
Proof.
  intros Hl. revert s fuel. induction Hl as [|c l [H0 H1] Hl IH]; intros s [|fuel] Hs Hf; try (cbn in Hf; lia); cbn [strchr_at length].
  - pose proof (Hs 0%nat ch_newline eq_refl) as E. rewrite Z.add_0_r in E. rewrite E. cbn. f_equal. f_equal. lia.
  - pose proof (Hs 0%nat c eq_refl) as E. rewrite Z.add_0_r in E. rewrite E.
    destruct (Z.eqb_spec c 0); [done|]. destruct (Z.eqb_spec c ch_newline); [done|]. rewrite IH; [f_equal; f_equal; lia| |cbn in Hf; lia].
    intros i d Hi. rewrite <- Z.add_assoc. replace (1 + Z.of_nat i) with (Z.of_nat (S i)) by lia. by apply Hs.
Qed.

Lemma strchr_at_end fuel m s c : m s = 0 -> (0 < fuel)%nat -> strchr_at fuel m s c = Some None.
Proof. intros E Hf. destruct fuel; [lia|]. cbn. by rewrite E. Qed.

(** The inner loop prints the lines with a match. *)
Lemma grep_lines_spec pattern ls fuel m p :
  Forall is_line ls -> spells m p (unlines ls) -> m (p + Z.of_nat (length (unlines ls))) = 0 ->
  (length (unlines ls) < fuel)%nat ->
  exists m', grep_lines fuel pattern m p =
    Some (m', p + Z.of_nat (length (unlines ls)), unlines (filter (occurs (of_text pattern)) ls)).
Proof.
  intros Hls. revert fuel m p. induction Hls as [|l ls Hl Hls IH]; intros [|fuel] m p Hs Hz Hf; try lia.
  - exists m. unfold unlines in *. cbn [fmap list_fmap concat length filter list_filter] in *. rewrite Z.add_0_r in *.
    cbn [grep_lines]. by rewrite strchr_at_end by (done || lia).
  - change (unlines (l :: ls)) with ((l ++ [ch_newline]) ++ unlines ls) in *. rewrite length_app in *. cbn [grep_lines].
    assert (length (l ++ [ch_newline]) = S (length l)) as El by (rewrite length_app; cbn; lia). rewrite El in *.
    apply spells_app in Hs as [Hs1 Hs2]. rewrite El in Hs2. rewrite (strchr_at_line _ _ _ l Hl Hs1) by lia.
    set (q := p + Z.of_nat (length l)). set (m1 := poke q 0 m).
    assert (forall m2, (forall x, q < x -> m2 x = m x) -> exists m', grep_lines fuel pattern m2 (q + 1) =
      Some (m', p + Z.of_nat (S (length l) + length (unlines ls)), unlines (filter (occurs (of_text pattern)) ls))) as Hrest.
    { intros m2 Hm2. destruct (IH fuel m2 (q + 1)) as [m' E].
      - replace (q + 1) with (p + Z.of_nat (S (length l))) by lia. eapply spells_ext; [|exact Hs2].
        intros x Hx. apply Hm2. lia.
      - rewrite Hm2 by lia. rewrite <- Hz. f_equal. lia.
      - lia.
      - exists m'. rewrite E. f_equal. f_equal. f_equal. lia. }
    assert (text_at m1 p q = l) as Et.
    { apply text_at_spells. apply spells_app in Hs1 as [Hs1 _]. eapply spells_ext; [|exact Hs1]. intros x Hx. unfold m1, poke. zcmp. }
    rewrite Et. destruct (match_ pattern l) eqn:Em.
    + destruct (Hrest (poke q ch_newline m1)) as [m' E]; [intros x Hx; unfold m1, poke; zcmp|]. exists m'. rewrite E.
      rewrite filter_cons_True by (by apply match_spec).
      change (unlines (l :: ?x)) with ((l ++ [ch_newline]) ++ unlines x). do 3 f_equal.
      replace (q + 1) with (p + Z.of_nat (length (l ++ [ch_newline]))) by lia. apply text_at_spells.
      eapply spells_ext; [|exact Hs1]. intros x Hx. unfold m1, poke. zcmp.
      subst x. symmetry. apply (Hs1 (length l)). by apply list_lookup_middle.
    + destruct (Hrest m1) as [m' E]; [intros x Hx; unfold m1, poke; zcmp|]. exists m'. rewrite E.
      by rewrite filter_cons_False by (rewrite <- match_spec; congruence).
Qed.

(** A file that one [read] delivers. *)
Lemma grep_one_read pattern ls fuel :
  Forall is_line ls -> Z.of_nat (length (unlines ls)) < bufsize -> (S (length (unlines ls)) < fuel)%nat ->
  grep fuel pattern [unlines ls] = Some (unlines (filter (occurs (of_text pattern)) ls)).
Proof.
  intros Hls Hb Hf. destruct fuel as [|fuel]; [lia|]. unfold grep. cbn [grep_loop]. rewrite Z.sub_0_r.
  rewrite take_ge, drop_ge by lia. destruct (Z.leb_spec (Z.of_nat (length (unlines ls))) 0) as [H0|H0].
  - destruct Hls as [|l ls]; [done|]. change (unlines (l :: ls)) with ((l ++ [ch_newline]) ++ unlines ls) in H0.
    rewrite !length_app in H0. cbn in H0. lia.
  - destruct (grep_lines_spec pattern ls fuel (put (fun _ => 0) 0 (unlines ls)) 0 Hls) as [m' ->]; [apply put_spells| |lia|].
    { rewrite put_spec. by zcmp. }
    rewrite !Z.add_0_l. zcmp. rewrite Z.sub_diag.
    destruct fuel as [|fuel]; [lia|]. cbn [grep_loop]. by rewrite app_nil_r.
Qed.

(** ** Input in several pieces

    [strchr] looks for the end of a line also in what earlier reads have left in
    the buffer behind the bytes just read. *)
Lemma grep_stale_lines :
  grep 100 (chars "c") [chars "ab" ++ [10] ++ chars "cd" ++ [10] ++ chars "x"; chars "y" ++ [10]] =
  Some (chars "cd" ++ [10] ++ chars "cd" ++ [10]).
Proof. reflexivity. Qed.

(** A line that does not end within the buffer's content is forgotten. *)
Lemma grep_split_line : grep 100 (chars "l") [chars "hel"; chars "lo" ++ [10]] = Some (chars "lo" ++ [10]).
Proof. reflexivity. Qed.
