(* ===== verification/Sh.v ===== *)
(** * The shell: [sh.c]

    The parser, the execution of commands as the system calls it makes, and the
    list of jobs.  Pointers into the command line are offsets into it. *)

From S2P Require Import Prelude Bytes Params Ulib.

(** ** Commands *)

(** [argv] and [eargv] are the beginnings and the ends of the arguments. *)
Inductive cmd : Type :=
  | EXEC (argv : list (nat * nat))
  | REDIR (c : cmd) (file efile : nat) (mode fd : Z)
  | PIPE (left right : cmd)
  | LIST (left right : cmd)
  | BACK (c : cmd).

Definition MAXARGS : nat := 10.

Definition whitespace : list Z := [32; 9; 13; 10; 11].
Definition symbols : list Z := chars "<|>&;()".

(** [strchr(set, c)] as a condition. *)
Definition is_in (set : list Z) (c : Z) : bool := match strchr set c with Some _ => true | None => false end.

(** The command line is [buf] followed by a NUL; [es] points to the NUL.  The
    state of the parser is [*ps]. *)
Section Parser.
  Variable buf : list Z.

Definition es : nat := length buf.
Definition at_ (s : nat) : Z := nth s buf 0.

(** [while(s < es && test( *s)) s++] *)
Fixpoint skip_from (test : Z -> bool) (n s : nat) : nat :=
  match n with
  | O => s
  | S n' => if test (at_ s) then skip_from test n' (S s) else s
  end.
Definition skip (test : Z -> bool) (s : nat) : nat := skip_from test (es - s) s.
Definition skip_space : nat -> nat := skip (is_in whitespace).

(** A word ends at white space or a symbol. *)
Definition is_word (c : Z) : bool := negb (is_in whitespace c) && negb (is_in symbols c).

(** The token, and where it begins and ends. *)
Definition gettoken : M nat (Z * nat * nat) := fun ps =>
  let s := skip_space ps in
  let c := at_ s in
  let '(tok, e) :=
    if c =? 0 then (0, s)
    else if is_in (chars "|();&<") c then (c, S s)
    else if c =? 62 then
      if at_ (S s) =? 62 then (43, S (S s)) else (c, S s)
    else (97, skip is_word s) in
  Ok (tok, s, e) (skip_space e).

Definition peek (toks : list Z) : M nat bool := fun ps =>
  let s := skip_space ps in
  Ok (negb (at_ s =? 0) && is_in toks (at_ s)) s.

Definition out_of_fuel {A} : M nat A := fun _ => Fuel.

Fixpoint parseredirs (fuel : nat) (c : cmd) : M nat cmd :=
  match fuel with
  | O => out_of_fuel
  | S fuel' =>
      let! more := peek (chars "<>") in
      if negb more then ret c
      else
        let! t := gettoken in
        let! w := gettoken in
        let '(tok, _, _) := t in
        let '(tok', q, eq) := w in
        if negb (tok' =? 97) then panic "missing file for redirection"
        else
          parseredirs fuel'
            (if tok =? 60 then REDIR c q eq O_RDONLY 0
             else if tok =? 62 then REDIR c q eq (Z.lor O_WRONLY O_CREATE) 1
             else if tok =? 43 then REDIR c q eq (Z.lor O_WRONLY O_CREATE) 1
             else c)
  end.

(** [cmd->argv[argc] = q; cmd->eargv[argc] = eq]: the [execcmd] is inside the
    redirections that have been put around it. *)
Fixpoint add_arg (q eq : nat) (c : cmd) : cmd :=
  match c with
  | EXEC argv => EXEC (argv ++ [(q, eq)])
  | REDIR c' f ef mode fd => REDIR (add_arg q eq c') f ef mode fd
  | _ => c
  end.

(** The loop of [parseexec]. *)
Fixpoint parseargs (fuel : nat) (argc : nat) (r : cmd) : M nat cmd :=
  match fuel with
  | O => out_of_fuel
  | S fuel' =>
      let! stop := peek (chars "|)&;") in
      if stop : bool then ret r
      else
        let! t := gettoken in
        let '(tok, q, eq) := t in
        if tok =? 0 then ret r
        else if negb (tok =? 97) then panic "syntax"
        else if (MAXARGS <=? S argc)%nat then panic "too many args"
        else
          let! r' := parseredirs fuel' (add_arg q eq r) in
          parseargs fuel' (S argc) r'
  end.

(** The loop of [parseline]. *)
Fixpoint parsebacks (fuel : nat) (c : cmd) : M nat cmd :=
  match fuel with
  | O => out_of_fuel
  | S fuel' =>
      let! more := peek (chars "&") in
      if more : bool then gettoken ;;; parsebacks fuel' (BACK c) else ret c
  end.

Fixpoint parseline (fuel : nat) : M nat cmd :=
  match fuel with
  | O => out_of_fuel
  | S fuel' =>
      let! c := parsepipe fuel' in
      let! c := parsebacks fuel' c in
      let! more := peek (chars ";") in
      if more : bool then
        gettoken ;;;
        let! r := parseline fuel' in
        ret (LIST c r)
      else ret c
  end
with parsepipe (fuel : nat) : M nat cmd :=
  match fuel with
  | O => out_of_fuel
  | S fuel' =>
      let! c := parseexec fuel' in
      let! more := peek (chars "|") in
      if more : bool then
        gettoken ;;;
        let! r := parsepipe fuel' in
        ret (PIPE c r)
      else ret c
  end
with parseexec (fuel : nat) : M nat cmd :=
  match fuel with
  | O => out_of_fuel
  | S fuel' =>
      let! block := peek (chars "(") in
      if block : bool then parseblock fuel'
      else
        let! r := parseredirs fuel' (EXEC []) in
        parseargs fuel' 0 r
  end
with parseblock (fuel : nat) : M nat cmd :=
  match fuel with
  | O => out_of_fuel
  | S fuel' =>
      let! open := peek (chars "(") in
      if negb open then panic "parseblock"
      else
        gettoken ;;;
        let! c := parseline fuel' in
        let! close := peek (chars ")") in
        if negb close then panic "syntax - missing )"
        else
          gettoken ;;;
          parseredirs fuel' c
  end.

(** NUL-terminate the strings of a command; [b] is the line with its NUL. *)
Fixpoint nulterminate (c : cmd) (b : list Z) : list Z :=
  match c with
  | EXEC argv => foldl (fun b '(_, e) => <[e := 0]> b) b argv
  | REDIR c' _ ef _ _ => <[ef := 0]> (nulterminate c' b)
  | PIPE l r | LIST l r => nulterminate r (nulterminate l b)
  | BACK c' => nulterminate c' b
  end.

(** The command and the line it points into. *)
Definition parsecmd (fuel : nat) : M nat (cmd * list Z) :=
  let! c := parseline fuel in
  peek [] ;;;
  let! s := gets id in
  if negb (s =? es)%nat then panic "syntax"
  else ret (c, nulterminate c (buf ++ [0])).

End Parser.

(** ** Running commands

    A process is the tree of the system calls it makes, with the continuation
    for each result. *)

Inductive prog : Type :=
  | Exit (status : Z)
  | Exec (path : list Z) (argv : list (list Z)) (failed : prog)
  | Open (path : list Z) (mode : Z) (k : Z -> prog)
  | Close (fd : Z) (k : prog)
  | Dup (fd : Z) (k : Z -> prog)
  | Pipe (k : option (Z * Z) -> prog)
  | Fork (child : prog) (parent : Z -> prog)
  | Wait (k : prog)
  | Print (fd : Z) (text : list Z) (k : prog).

(** A parsed command with the strings its pointers stand for. *)
Inductive tree : Type :=
  | TExec (argv : list (list Z))
  | TRedir (t : tree) (file : list Z) (mode fd : Z)
  | TPipe (left right : tree)
  | TList (left right : tree)
  | TBack (t : tree).

Definition panic_ (msg : string) : prog := Print 2 (chars msg ++ [10]) (Exit 0).

(** [fork1]: the child continues with [child], the parent with [parent]. *)
Definition fork1 (child parent : prog) : prog :=
  Fork child (fun pid => if pid =? -1 then panic_ "fork" else parent).

Fixpoint runcmd (c : tree) : prog :=
  match c with
  | TExec argv =>
      match argv with
      | [] => Exit 0
      | path :: _ => Exec path argv (Print 2 (chars "exec " ++ path ++ chars " failed" ++ [10]) (Exit (-1)))
      end
  | TRedir c' file mode fd =>
      Close fd (Open file mode (fun r =>
        if r <? 0 then Print 2 (chars "open " ++ file ++ chars " failed" ++ [10]) (Exit (-1)) else runcmd c'))
  | TList l r => fork1 (runcmd l) (Wait (runcmd r))
  | TPipe l r =>
      Pipe (fun p =>
        match p with
        | None => panic_ "pipe"
        | Some (p0, p1) =>
            fork1 (Close 1 (Dup p1 (fun _ => Close p0 (Close p1 (runcmd l)))))
              (fork1 (Close 0 (Dup p0 (fun _ => Close p0 (Close p1 (runcmd r)))))
                (Close p0 (Close p1 (Wait (Wait (Exit 0))))))
        end)
  | TBack c' => runcmd c'
  end.

(** ** The job list *)

(** [struct job] without its unused [cmd]; 0 is the null pointer. *)
Record job : Type := Job { j_jid : Z; j_fd : Z; j_next : Z; j_prev : Z }.

Record shell : Type := Shell {
  jl_first : Z;
  jl_last : Z;
  jl_fgJob : Z;
  heap : gmap Z job;          (* the jobs in memory *)
  closed : list Z             (* the descriptors closed so far *)
}.

Definition set_first (p : Z) (s : shell) : shell := Shell p (jl_last s) (jl_fgJob s) (heap s) (closed s).
Definition set_last (p : Z) (s : shell) : shell := Shell (jl_first s) p (jl_fgJob s) (heap s) (closed s).
Definition set_fgJob (p : Z) (s : shell) : shell := Shell (jl_first s) (jl_last s) p (heap s) (closed s).
Definition set_heap (h : gmap Z job) (s : shell) : shell := Shell (jl_first s) (jl_last s) (jl_fgJob s) h (closed s).
Definition add_closed (fd : Z) (s : shell) : shell :=
  Shell (jl_first s) (jl_last s) (jl_fgJob s) (heap s) (closed s ++ [fd]).

Definition with_next (p : Z) (j : job) : job := Job (j_jid j) (j_fd j) p (j_prev j).
Definition with_prev (p : Z) (j : job) : job := Job (j_jid j) (j_fd j) (j_next j) p.

(** Reading and writing through a pointer that points to no job is a fault. *)
Definition job_at (p : Z) : M shell job := fun s =>
  match heap s !! p with Some j => Ok j s | None => Panic "fault" end.
Definition on_job (p : Z) (f : job -> job) : M shell unit :=
  let! j := job_at p in modify (fun s => set_heap (<[p := f j]> (heap s)) s).

Definition addJobToList (p : Z) : M shell unit :=
  let! s := gets id in
  if jl_first s =? 0 then
    modify (set_first p) ;;;
    modify (set_last p)
  else
    on_job p (with_prev (jl_last s)) ;;;
    on_job (jl_last s) (with_next p) ;;;
    modify (set_last p).

Definition when (b : bool) (m : M shell unit) : M shell unit := if b then m else ret tt.

Definition removeJobFromList (p : Z) : M shell unit :=
  let! s := gets id in
  when (jl_fgJob s =? p) (modify (set_fgJob 0)) ;;;
  let! s := gets id in
  when ((jl_first s =? p) && (jl_last s =? p)) (modify (set_first 0)) ;;;
  let! s := gets id in
  let! j := job_at p in
  when (jl_first s =? p) (modify (set_first (j_next j))) ;;;
  let! s := gets id in
  let! j := job_at p in
  when (jl_last s =? p) (modify (set_last (j_prev j))) ;;;
  let! j := job_at p in
  when (negb (j_prev j =? 0)) (on_job (j_prev j) (with_next (j_next j))) ;;;
  let! j := job_at p in
  when (negb (j_next j =? 0)) (on_job (j_next j) (with_prev (j_prev j))).

(** [free] leaves the content of the block as it is. *)
Definition clear_job (p : Z) (j : job) : M shell unit :=
  modify (add_closed (j_fd j)) ;;;
  removeJobFromList p.

(** [finished jid] is the system call [isJobEmpty]. *)
Fixpoint clear_loop (fuel : nat) (finished : Z -> bool) (p : Z) : M shell unit :=
  match fuel with
  | O => fun _ => Fuel
  | S fuel' =>
      if p =? 0 then ret tt
      else
        let! j := job_at p in
        when (finished (j_jid j)) (clear_job p j) ;;;
        let! j := job_at p in
        clear_loop fuel' finished (j_next j)
  end.

Definition clearFinishedJobs (fuel : nat) (finished : Z -> bool) : M shell unit :=
  let! s := gets id in
  clear_loop fuel finished (jl_first s).

(** ** The main loop *)

(** The loop of the [fg] command.  [j->jid] is read before [j] is tested; the
    null pointer ends the loop whatever is at address 0. *)
Fixpoint find_job (fuel : nat) (jid p : Z) : M shell Z :=
  match fuel with
  | O => fun _ => Fuel
  | S fuel' =>
      if p =? 0 then ret 0
      else
        let! j := job_at p in
        if j_jid j =? jid then ret p else find_job fuel' jid (j_next j)
  end.

(** The loop of the [jobs] command: the jobs printed. *)
Fixpoint list_jobs (fuel : nat) (p : Z) : M shell (list Z) :=
  match fuel with
  | O => fun _ => Fuel
  | S fuel' =>
      if p =? 0 then ret []
      else
        let! j := job_at p in
        let! rest := list_jobs fuel' (j_next j) in
        ret (j_jid j :: rest)
  end.

(** What [getcmd] does with the line it has read: the length of the line, or -1
    at the end of the input.  At the end of the input of a foreground job the
    shell closes the pipe to the job. *)
Definition getcmd (buf : list Z) : M shell Z :=
  let! s := gets id in
  if deref buf =? 0 then
    if negb (jl_fgJob s =? 0) then
      let! j := job_at (jl_fgJob s) in
      modify (add_closed (j_fd j)) ;;;
      modify (set_fgJob 0) ;;;
      ret (strlen buf)
    else ret (-1)
  else ret (strlen buf).

(** What the shell does with a line. *)
Inductive action : Type :=
  | Relay (fd : Z) (text : list Z)     (* to the foreground job *)
  | Chdir (path : list Z)
  | Jobs (jids : list Z)
  | Start (line : list Z)              (* a new job *)
  | Nothing.

Definition is_blank (c : Z) : bool := (c =? 10) || (c =? 32).

(** The tests of the main loop on the line [buf], behind [clearFinishedJobs]. *)
Definition choose (fuel : nat) (buf : list Z) : M shell action :=
  let! s := gets id in
  let c n := nth n buf 0 in
  if negb (jl_fgJob s =? 0) then
    let! j := job_at (jl_fgJob s) in
    ret (Relay (j_fd j) buf)
  else if (c 0%nat =? 99) && (c 1%nat =? 100) && (c 2%nat =? 32) then
    ret (Chdir (drop 3 (take (length buf - 1) buf)))
  else if (c 0%nat =? 106) && (c 1%nat =? 111) && (c 2%nat =? 98) && (c 3%nat =? 115) && is_blank (c 4%nat) then
    let! l := list_jobs fuel (jl_first s) in
    ret (Jobs l)
  else if (c 0%nat =? 102) && (c 1%nat =? 103) && is_blank (c 2%nat) then
    let! p := find_job fuel (atoi (drop 3 buf)) (jl_first s) in
    modify (set_fgJob p) ;;;
    ret Nothing
  else if negb (c 0%nat =? 10) then ret (Start buf)
  else ret Nothing.

(** A new job at [p], with the number [jid] and the write end [fd] of its pipe;
    it goes to the foreground unless its command ends with an ampersand. *)
Definition start_job (p jid fd : Z) (command : cmd) : M shell unit :=
  modify (fun s => set_heap (<[p := Job jid fd 0 0]> (heap s)) s) ;;;
  match command with
  | BACK _ => ret tt
  | _ => modify (set_fgJob p)
  end ;;;
  addJobToList p.
