(* ===== verification/ShParse.v ===== *)
(** * The shell's parser comes to an end

    The lexer, the progress the parser makes with every token, and a bound on
    the work for a line. *)

From S2P Require Import Prelude Bytes Params Ulib Sh.

(** [m] comes to an end, in [Q] unless the shell gives up with a message. *)
Definition halts {A} (m : M nat A) (Q : A -> nat -> Prop) (s : nat) : Prop :=
  match m s with
  | Ok a s' => Q a s'
  | Panic _ => True
  | _ => False
  end.

Lemma halts_bind {A B} (m : M nat A) (f : A -> M nat B) Q s :
  halts m (fun a => halts (f a) Q) s -> halts (bind m f) Q s.
Proof. unfold halts, bind. by destruct (m s). Qed.

Lemma halts_mono {A} (m : M nat A) (Q Q' : A -> nat -> Prop) s :
  halts m Q s -> (forall a s', Q a s' -> Q' a s') -> halts m Q' s.
Proof. unfold halts. destruct (m s); eauto. Qed.

Lemma halts_ret {A} (a : A) (Q : A -> nat -> Prop) s : Q a s -> halts (ret a) Q s.
Proof. done. Qed.

Lemma halts_panic {A} msg (Q : A -> nat -> Prop) s : halts (panic msg) Q s.
Proof. done. Qed.

(** Sets of characters do not contain the NUL. *)
Lemma is_in_spec set c : is_in set c = true <-> c ∈ set.
Proof.
  unfold is_in. destruct (strchr set c) as [t|] eqn:E.
  - apply strchr_Some in E as (pre & t' & -> & -> & _). split; [|done]. intros _. apply elem_of_app. right. by left.
  - apply strchr_None in E. by split.
Qed.

Section Progress.
  Context (buf : list Z).

Lemma skip_from_range test n s : (s <= skip_from buf test n s <= s + n)%nat.
Proof.
  revert s. induction n as [|n IH]; intros s; cbn [skip_from]; [lia|]. destruct (test _); [|lia]. specialize (IH (S s)). lia.
Qed.

Lemma skip_range test s : (s <= es buf)%nat -> (s <= skip buf test s <= es buf)%nat.
Proof. intros Hs. unfold skip. pose proof (skip_from_range test (es buf - s) s). lia. Qed.

Lemma skip_step test s : (s < es buf)%nat -> test (at_ buf s) = true -> (s < skip buf test s)%nat.
Proof.
  intros Hs Ht. unfold skip. destruct (es buf - s)%nat as [|n] eqn:E; [lia|]. cbn [skip_from]. rewrite Ht.
  pose proof (skip_from_range test n (S s)). lia.
Qed.

Lemma at_end s : at_ buf s <> 0 -> (s < es buf)%nat.
Proof.
  intros H. destruct (decide (s < es buf)%nat) as [|Hge]; [done|]. destruct H. unfold Sh.at_. apply nth_overflow. unfold es in *. lia.
Qed.

Lemma skip_stop test s : (skip buf test s < es buf)%nat -> test (at_ buf (skip buf test s)) = false.
Proof.
  unfold skip. remember (es buf - s)%nat as n eqn:En. revert s En. induction n as [|n IH]; intros s En; cbn [skip_from]; [lia|].
  destruct (test (at_ buf s)) eqn:E; [apply IH; lia|done].
Qed.

(** A token makes progress. *)
Lemma gettoken_halts s : (s <= es buf)%nat ->
  halts (gettoken buf) (fun '(tok, q, e) s' => (s <= s' <= es buf)%nat /\ (at_ buf (skip_space buf s) <> 0 -> (s < s')%nat) /\
    (tok <> 0 -> at_ buf (skip_space buf s) <> 0)) s.
Proof.
  intros Hs. unfold gettoken. unfold halts. pose proof (skip_range (is_in whitespace) s Hs) as H1. fold (skip_space buf s) in H1.
  set (q := skip_space buf s) in *. set (p := if _ =? 0 then _ else _).
  assert ((q <= p.2 <= es buf)%nat /\ (at_ buf q <> 0 -> (q < p.2)%nat) /\ (p.1 <> 0 -> at_ buf q <> 0)) as (Hp & Hpr & Hz).
  { unfold p. destruct (Z.eqb_spec (at_ buf q) 0) as [E|E]; [cbn; lia|]. pose proof (at_end _ E) as Hq.
    destruct (is_in (chars "|();&<") (at_ buf q)) eqn:Esym; [cbn; lia|]. destruct (Z.eqb_spec (at_ buf q) 62) as [E62|E62].
    - destruct (Z.eqb_spec (at_ buf (S q)) 62) as [E'|E']; cbn; [|lia]. assert (S q < es buf)%nat by (apply at_end; lia). lia.
    - cbn [fst snd]. pose proof (skip_range is_word q ltac:(lia)). assert (q < skip buf is_word q)%nat; [|lia].
      apply skip_step; [done|]. unfold is_word. apply andb_true_intro. split; apply negb_true_iff, not_true_is_false; rewrite is_in_spec.
      + intros Hw%is_in_spec. unfold q in Hw, Hq. unfold skip_space in Hw, Hq.
        by rewrite (skip_stop _ _ Hq) in Hw.
      + intros Hw. assert (at_ buf q ∈ chars "|();&<" \/ at_ buf q = 62) as [Hin|Heq]; [|by apply is_in_spec in Hin; congruence|done].
        unfold symbols in Hw. cbn in Hw |- *. set_solver. }
  destruct p as [tok e]. cbn [fst snd] in *. pose proof (skip_range (is_in whitespace) e ltac:(lia)). unfold skip_space.
  split; [lia|]. split; [intros H'; specialize (Hpr H'); lia|done].
Qed.
Lemma skip_idle test s : (s < es buf)%nat -> test (at_ buf s) = false -> skip buf test s = s.
Proof. intros Hs Ht. unfold skip. destruct (es buf - s)%nat; [done|]. cbn [skip_from]. by rewrite Ht. Qed.

Lemma skip_end test s : (es buf <= s)%nat -> skip buf test s = s.
Proof. intros Hs. unfold skip. by replace (es buf - s)%nat with 0%nat by lia. Qed.

Lemma skip_space_idem s : (s <= es buf)%nat -> skip_space buf (skip_space buf s) = skip_space buf s.
Proof.
  intros Hs. unfold skip_space. destruct (decide (skip buf (is_in whitespace) s < es buf)%nat) as [Hlt|Hge].
  - apply skip_idle; [done|by apply skip_stop].
  - apply skip_end. lia.
Qed.

Lemma peek_halts toks s : (s <= es buf)%nat ->
  halts (peek buf toks) (fun b s' => (s <= s' <= es buf)%nat /\ skip_space buf s' = s' /\ (b = true -> at_ buf s' <> 0)) s.
Proof.
  intros Hs. unfold peek, halts. split; [by apply skip_range|]. split; [by apply skip_space_idem|].
  intros [H _]%andb_prop. apply negb_true_iff, Z.eqb_neq in H. done.
Qed.

(** The token seen by [peek] is consumed. *)
Lemma peek_gettoken_halts toks {A} (yes no : M nat A) (Q : A -> nat -> Prop) s :
  (s <= es buf)%nat ->
  (forall s', (s < s' <= es buf)%nat -> halts yes Q s') -> (forall s', (s <= s' <= es buf)%nat -> halts no Q s') ->
  halts (let! more := peek buf toks in if more : bool then gettoken buf ;;; yes else no) Q s.
Proof.
  intros Hs Hy Hn. apply halts_bind. eapply halts_mono; [by apply peek_halts|]. intros [] s1 (H1 & Hi & Ha); [|by apply Hn].
  apply halts_bind. eapply halts_mono; [apply gettoken_halts; lia|]. intros [[tok q] e] s2 (H2 & Hp & _).
  rewrite Hi in Hp. specialize (Hp (Ha eq_refl)). apply Hy. lia.
Qed.

Lemma peek_not_halts toks {A} (yes no : M nat A) (Q : A -> nat -> Prop) s :
  (s <= es buf)%nat ->
  (forall s', (s < s' <= es buf)%nat -> halts yes Q s') -> (forall s', (s <= s' <= es buf)%nat -> halts no Q s') ->
  halts (let! more := peek buf toks in if negb more then no else gettoken buf ;;; yes) Q s.
Proof.
  intros Hs Hy Hn. apply halts_bind. eapply halts_mono; [by apply peek_halts|]. intros [] s1 (H1 & Hi & Ha); [|by apply Hn].
  cbn [negb]. apply halts_bind. eapply halts_mono; [apply gettoken_halts; lia|]. intros [[tok q] e] s2 (H2 & Hp & _).
  rewrite Hi in Hp. specialize (Hp (Ha eq_refl)). apply Hy. lia.
Qed.

(** A parser comes to an end behind where it started. *)
Definition forward {A} (m : M nat A) (s : nat) : Prop := halts m (fun _ s' => (s <= s' <= es buf)%nat) s.

Lemma forward_from {A} (m : M nat A) s s0 :
  forward m s -> (s0 <= s)%nat -> halts m (fun _ s' => (s0 <= s' <= es buf)%nat) s.
Proof. intros H Hs. eapply halts_mono; [exact H|]. cbv beta. lia. Qed.

Lemma parseredirs_forward fuel c s : (s <= es buf)%nat -> (es buf - s < fuel)%nat -> forward (parseredirs buf fuel c) s.
Proof.
  revert c s. induction fuel as [|fuel IH]; intros c s Hs Hf; [lia|]. unfold forward. cbn [parseredirs]. apply halts_bind.
  eapply halts_mono; [by apply peek_halts|]. intros [] s1 (H1 & Hi & Ha); [|by apply halts_ret]. cbn [negb].
  apply halts_bind. eapply halts_mono; [apply gettoken_halts; lia|]. intros [[tok q] e] s2 (H2 & Hp & _).
  rewrite Hi in Hp. specialize (Hp (Ha eq_refl)).
  apply halts_bind. eapply halts_mono; [apply gettoken_halts; lia|]. intros [[tok' q'] e'] s3 (H3 & _ & _).
  destruct (tok' =? 97); [cbn [negb]|apply halts_panic]. apply forward_from; [apply IH; lia|lia].
Qed.

Lemma parseargs_forward fuel argc r s : (s <= es buf)%nat -> (es buf - s < fuel)%nat -> forward (parseargs buf fuel argc r) s.
Proof.
  revert argc r s. induction fuel as [|fuel IH]; intros argc r s Hs Hf; [lia|]. unfold forward. cbn [parseargs]. apply halts_bind.
  eapply halts_mono; [by apply peek_halts|]. intros [] s1 (H1 & Hi & _); [by apply halts_ret|].
  apply halts_bind. eapply halts_mono; [apply gettoken_halts; lia|]. intros [[tok q] e] s2 (H2 & Hp & Ht).
  destruct (Z.eqb_spec tok 0) as [|Hne]; [apply halts_ret; lia|]. specialize (Hp (Ht Hne)).
  destruct (tok =? 97); [cbn [negb]|apply halts_panic]. destruct (_ <=? _)%nat; [apply halts_panic|].
  apply halts_bind. eapply halts_mono; [apply parseredirs_forward; lia|]. intros r' s3 H3. cbv beta in H3.
  apply forward_from; [apply IH; lia|lia].
Qed.

Lemma parsebacks_forward fuel c s : (s <= es buf)%nat -> (es buf - s < fuel)%nat -> forward (parsebacks buf fuel c) s.
Proof.
  revert c s. induction fuel as [|fuel IH]; intros c s Hs Hf; [lia|]. unfold forward. cbn [parsebacks].
  apply peek_gettoken_halts; [done|intros s' Hs'; apply forward_from; [apply IH; lia|lia]|]. intros s' Hs'. by apply halts_ret.
Qed.

(** The fuel each parser needs with [r] characters to go. *)
Lemma parse_forward fuel :
  (forall s, (s <= es buf)%nat -> (4 * (es buf - s) + 4 <= fuel)%nat -> forward (parseline buf fuel) s) /\
  (forall s, (s <= es buf)%nat -> (4 * (es buf - s) + 3 <= fuel)%nat -> forward (parsepipe buf fuel) s) /\
  (forall s, (s <= es buf)%nat -> (4 * (es buf - s) + 2 <= fuel)%nat -> forward (parseexec buf fuel) s) /\
  (forall s, (s <= es buf)%nat -> (4 * (es buf - s) + 1 <= fuel)%nat -> forward (parseblock buf fuel) s).
Proof.
  induction fuel as [|fuel (IHl & IHp & IHe & IHb)]; [repeat split; lia|].
  split; [|split; [|split]]; intros s Hs Hf; unfold forward; cbn [parseline parsepipe parseexec parseblock].
  - apply halts_bind. eapply halts_mono; [apply IHp; lia|]. intros c s1 H1. cbv beta in H1.
    apply halts_bind. eapply halts_mono; [apply parsebacks_forward; lia|]. intros c' s2 H2. cbv beta in H2.
    apply peek_gettoken_halts; [lia| |intros s3 H3; apply halts_ret; lia]. intros s3 H3.
    apply halts_bind. eapply halts_mono; [apply IHl; lia|]. intros r s4 H4. apply halts_ret. cbv beta in H4. lia.
  - apply halts_bind. eapply halts_mono; [apply IHe; lia|]. intros c s1 H1. cbv beta in H1.
    apply peek_gettoken_halts; [lia| |intros s3 H3; apply halts_ret; lia]. intros s3 H3.
    apply halts_bind. eapply halts_mono; [apply IHp; lia|]. intros r s4 H4. apply halts_ret. cbv beta in H4. lia.
  - apply halts_bind. eapply halts_mono; [by apply peek_halts|]. intros [] s1 (H1 & _); [apply forward_from; [apply IHb; lia|lia]|].
    apply halts_bind. eapply halts_mono; [apply parseredirs_forward; lia|]. intros r s2 H2. cbv beta in H2.
    apply forward_from; [apply parseargs_forward; lia|lia].
  - apply peek_not_halts; [done| |intros; apply halts_panic]. intros s1 H1.
    apply halts_bind. eapply halts_mono; [apply IHl; lia|]. intros c s2 H2. cbv beta in H2.
    apply peek_not_halts; [lia| |intros; apply halts_panic]. intros s3 H3.
    apply forward_from; [apply parseredirs_forward; lia|lia].
Qed.

End Progress.

(** The fuel that is always enough. *)
Definition parse_fuel (buf : list Z) : nat := 4 * length buf + 4.

Lemma parsecmd_halts buf fuel : (parse_fuel buf <= fuel)%nat -> halts (parsecmd buf fuel) (fun _ _ => True) 0%nat.
Proof.
  intros Hf. unfold parsecmd. apply halts_bind. eapply halts_mono; [apply (parse_forward buf fuel); [lia|]|].
  { unfold parse_fuel in Hf. unfold es. lia. }
  intros c s1 H1. cbv beta in H1. apply halts_bind. eapply halts_mono; [apply peek_halts; lia|]. intros b s2 _.
  apply halts_bind. unfold halts at 1, gets. destruct (_ =? _)%nat; [by apply halts_ret|apply halts_panic].
Qed.
