(* ===== verification/ShPrint.v ===== *)
(** * The shell's parser recovers the commands it is given

    Commands as a user thinks of them, their text, and the proof that the parser
    gets back from the text what the user meant; and that terminating the
    strings in place leaves every one of them as it was written. *)

From S2P Require Import Prelude Bytes Params Ulib Sh ShParse.

(** ** What a command means *)

(** [str q e] is the string that begins at [q] and that the parser says ends at
    [e]. *)
Fixpoint view (str : nat -> nat -> list Z) (c : cmd) : tree :=
  match c with
  | EXEC argv => TExec ((fun '(q, e) => str q e) <$> argv)
  | REDIR c' q e mode fd => TRedir (view str c') (str q e) mode fd
  | PIPE l r => TPipe (view str l) (view str r)
  | LIST l r => TList (view str l) (view str r)
  | BACK c' => TBack (view str c')
  end.

(** The C string in the buffer [b] at [q], which is what the programs get. *)
Fixpoint cstring (l : list Z) : list Z :=
  match l with
  | [] => []
  | c :: l' => if c =? 0 then [] else c :: cstring l'
  end.
Definition as_run (b : list Z) : cmd -> tree := view (fun q _ => cstring (drop q b)).

(** The part of the line between the two pointers. *)
Definition span_text (buf : list Z) (q e : nat) : list Z := slice buf q (e - q).
Definition as_parsed (buf : list Z) : cmd -> tree := view (span_text buf).

(** ** NUL termination *)

(** A word of the line: word characters only, and as many as there are. *)
Definition span_ok (buf : list Z) (q e : nat) : Prop :=
  (q < e <= length buf)%nat /\ (forall i, (q <= i < e)%nat -> is_word (at_ buf i) = true) /\
  ((e < length buf)%nat -> is_word (at_ buf e) = false).

Fixpoint spans (c : cmd) : list (nat * nat) :=
  match c with
  | EXEC argv => argv
  | REDIR c' q e _ _ => (q, e) :: spans c'
  | PIPE l r | LIST l r => spans l ++ spans r
  | BACK c' => spans c'
  end.

(** Every string of the command is a word of the line. *)
Definition words_ok (buf : list Z) (c : cmd) : Prop := forall q e, (q, e) ∈ spans c -> span_ok buf q e.

(** What a parser yields when it comes to an end with a result. *)
Definition yields {A} (m : M nat A) (P : A -> Prop) : Prop := forall s a s', m s = Ok a s' -> P a.

Lemma yields_bind {A B} (m : M nat A) (f : A -> M nat B) P Q :
  yields m P -> (forall a, P a -> yields (f a) Q) -> yields (bind m f) Q.
Proof. intros Hm Hf s b s' H. unfold bind in H. destruct (m s) as [a s1| | |] eqn:E; try done. by eapply Hf; [eapply Hm|]. Qed.

Lemma yields_any {A} (m : M nat A) : yields m (fun _ => True).
Proof. by intros s a s' _. Qed.

Lemma yields_ret {A} (a : A) (P : A -> Prop) : P a -> yields (ret a) P.
Proof. intros H s b s' [= <- _]. done. Qed.

Section Spans.
  Context (buf : list Z).

Lemma skip_from_all test n s i : (s <= i < skip_from buf test n s)%nat -> test (at_ buf i) = true.
Proof.
  revert s. induction n as [|n IH]; intros s Hi; cbn [skip_from] in Hi; [lia|]. destruct (test (at_ buf s)) eqn:E; [|lia].
  destruct (decide (i = s)) as [->|]; [done|]. apply (IH (S s)). lia.
Qed.

(** The token of a word. *)
Lemma gettoken_span : yields (gettoken buf) (fun '(tok, q, e) => tok = 97 -> span_ok buf q e).
Proof.
  intros s [[tok q] e] s' H Ht. unfold gettoken in H. set (q0 := skip_space buf s) in H.
  destruct (Z.eqb_spec (at_ buf q0) 0) as [|H0]; [by injection H as <- <- <- _|].
  destruct (is_in (chars "|();&<") (at_ buf q0)) eqn:Es.
  { injection H as <- <- <- _. by rewrite Ht in Es. }
  destruct (Z.eqb_spec (at_ buf q0) 62) as [E62|E62].
  { destruct (at_ buf (S q0) =? 62); injection H as <- <- <- _; congruence. }
  injection H as _ <- <- _. pose proof (at_end _ _ H0) as Hq. split; [|split].
  - pose proof (skip_range buf is_word q0 ltac:(lia)). split; [|apply H]. apply skip_step; [done|].
    unfold is_word. apply andb_true_intro. split; apply negb_true_iff.
    + apply skip_stop. exact Hq.
    + apply not_true_is_false. rewrite is_in_spec. intros Hw. apply not_true_iff_false in Es. apply Es. apply is_in_spec.
      unfold symbols in Hw. cbn in Hw |- *. set_solver.
  - intros i Hi. eapply skip_from_all. exact Hi.
  - intros He. by apply skip_stop.
Qed.

Lemma words_ok_redir c q e mode fd : words_ok buf c -> span_ok buf q e -> words_ok buf (REDIR c q e mode fd).
Proof. intros Hc Hs q' e' [[= -> ->]|H]%elem_of_cons; [done|by apply Hc]. Qed.

Lemma words_ok_two l r : words_ok buf l -> words_ok buf r -> words_ok buf (PIPE l r) /\ words_ok buf (LIST l r).
Proof. intros Hl Hr. split; intros q e [H|H]%elem_of_app; first [by apply Hl|by apply Hr]. Qed.

Lemma words_ok_arg c q e : words_ok buf c -> span_ok buf q e -> words_ok buf (add_arg q e c).
Proof.
  intros Hc Hs. induction c as [argv|c IH f ef mode fd| | |]; cbn [add_arg]; try done.
  - intros q' e' [H|[= -> ->]%list_elem_of_singleton]%elem_of_app; [by apply Hc|done].
  - apply words_ok_redir; [|apply Hc; by left]. apply IH. intros q' e' H. apply Hc. by right.
Qed.

Lemma parseredirs_words fuel c : words_ok buf c -> yields (parseredirs buf fuel c) (words_ok buf).
Proof.
  revert c. induction fuel as [|fuel IH]; intros c Hc; [done|]. cbn [parseredirs].
  eapply yields_bind; [apply yields_any|]. intros [] _; [|by apply yields_ret]. cbn [negb].
  eapply yields_bind; [apply yields_any|]. intros [[tok q0] e0] _. eapply yields_bind; [apply gettoken_span|].
  intros [[tok' q] e] Hs. destruct (Z.eqb_spec tok' 97) as [E|]; [|done]. cbn [negb]. specialize (Hs E). apply IH.
  destruct (tok =? 60), (tok =? 62), (tok =? 43); try done; by apply words_ok_redir.
Qed.

Lemma parseargs_words fuel argc r : words_ok buf r -> yields (parseargs buf fuel argc r) (words_ok buf).
Proof.
  revert argc r. induction fuel as [|fuel IH]; intros argc r Hr; [done|]. cbn [parseargs].
  eapply yields_bind; [apply yields_any|]. intros [] _; [by apply yields_ret|].
  eapply yields_bind; [apply gettoken_span|]. intros [[tok q] e] Hs. destruct (tok =? 0); [by apply yields_ret|].
  destruct (Z.eqb_spec tok 97) as [E|]; [|done]. cbn [negb]. destruct (_ <=? _)%nat; [done|].
  eapply yields_bind; [apply parseredirs_words, words_ok_arg; [done|by apply Hs]|]. intros r' Hr'. by apply IH.
Qed.

Lemma parsebacks_words fuel c : words_ok buf c -> yields (parsebacks buf fuel c) (words_ok buf).
Proof.
  revert c. induction fuel as [|fuel IH]; intros c Hc; [done|]. cbn [parsebacks].
  eapply yields_bind; [apply yields_any|]. intros [] _; [|by apply yields_ret].
  eapply yields_bind; [apply yields_any|]. intros _ _. by apply IH.
Qed.

Lemma parse_words fuel :
  yields (parseline buf fuel) (words_ok buf) /\ yields (parsepipe buf fuel) (words_ok buf) /\
  yields (parseexec buf fuel) (words_ok buf) /\ yields (parseblock buf fuel) (words_ok buf).
Proof.
  induction fuel as [|fuel (IHl & IHp & IHe & IHb)]; [done|].
  split; [|split; [|split]]; cbn [parseline parsepipe parseexec parseblock].
  - eapply yields_bind; [exact IHp|]. intros c Hc. eapply yields_bind; [by apply parsebacks_words|]. intros c' Hc'.
    eapply yields_bind; [apply yields_any|]. intros [] _; [|by apply yields_ret]. eapply yields_bind; [apply yields_any|]. intros _ _.
    eapply yields_bind; [exact IHl|]. intros r Hr. apply yields_ret. by apply words_ok_two.
  - eapply yields_bind; [exact IHe|]. intros c Hc.
    eapply yields_bind; [apply yields_any|]. intros [] _; [|by apply yields_ret]. eapply yields_bind; [apply yields_any|]. intros _ _.
    eapply yields_bind; [exact IHp|]. intros r Hr. apply yields_ret. by apply words_ok_two.
  - eapply yields_bind; [apply yields_any|]. intros [] _; [done|]. eapply yields_bind.
    + apply parseredirs_words. intros q e H. by apply elem_of_nil in H.
    + intros r Hr. by apply parseargs_words.
  - eapply yields_bind; [apply yields_any|]. intros [] _; [|done]. cbn [negb]. eapply yields_bind; [apply yields_any|]. intros _ _.
    eapply yields_bind; [exact IHl|]. intros c Hc. eapply yields_bind; [apply yields_any|]. intros [] _; [|done]. cbn [negb].
    eapply yields_bind; [apply yields_any|]. intros _ _. by apply parseredirs_words.
Qed.

End Spans.

Definition ends (c : cmd) : list nat := snd <$> spans c.

Lemma elem_of_ends c e : e ∈ ends c <-> exists q, (q, e) ∈ spans c.
Proof.
  unfold ends. rewrite list_elem_of_fmap. split; [intros ([q e'] & -> & H); by exists q|intros [q H]; by exists (q, e)].
Qed.

(** [nulterminate] puts a NUL at the ends and changes nothing else. *)
Lemma terminate_args (argv : list (nat * nat)) b i :
  foldl (fun b '(_, e) => <[e := 0]> b) b argv !! i =
  if decide (i ∈ snd <$> argv) then (if decide (i < length b)%nat then Some 0 else None) else b !! i.
Proof.
  revert b. induction argv as [|[q e] argv IH]; intros b; cbn [foldl fmap list_fmap snd].
  - by rewrite decide_False by (by intros ?%elem_of_nil).
  - rewrite IH, length_insert. destruct (decide (i ∈ snd <$> argv)) as [Hin|Hout].
    + by rewrite (decide_True (P := i ∈ e :: _)) by (by right).
    + destruct (decide (i = e)) as [->|Hne].
      * rewrite (decide_True (P := e ∈ e :: _)) by (by left). case_decide; [by rewrite list_lookup_insert_eq|].
        by rewrite list_insert_ge, lookup_ge_None_2 by lia.
      * rewrite (decide_False (P := i ∈ e :: _)) by (by intros [->|]%elem_of_cons). by rewrite list_lookup_insert_ne.
Qed.

Lemma nulterminate_lookup c b i :
  nulterminate c b !! i =
  if decide (i ∈ ends c) then (if decide (i < length b)%nat then Some 0 else None) else b !! i.
Proof.
  assert (forall c b, length (nulterminate c b) = length b) as Hlen.
  { clear. intros c. induction c as [argv|c IH f ef m fd|l IHl r IHr|l IHl r IHr|c IH]; intros b; cbn [nulterminate].
    - revert b. induction argv as [|[q e] argv IH]; intros b; cbn; [done|]. by rewrite IH, length_insert.
    - by rewrite length_insert.
    - by rewrite IHr.
    - by rewrite IHr.
    - done. }
  assert (forall l r b, (forall b, nulterminate l b !! i = if decide (i ∈ ends l) then (if decide (i < length b)%nat then Some 0 else None) else b !! i) ->
    (forall b, nulterminate r b !! i = if decide (i ∈ ends r) then (if decide (i < length b)%nat then Some 0 else None) else b !! i) ->
    nulterminate r (nulterminate l b) !! i =
    if decide (i ∈ snd <$> spans l ++ spans r) then (if decide (i < length b)%nat then Some 0 else None) else b !! i) as Htwo.
  { intros l r b' Hl Hr. rewrite Hr, Hl, Hlen, fmap_app. unfold ends.
    clear. repeat case_decide; try done; set_solver. }
  revert b. induction c as [argv|c IH f ef m fd|l IHl r IHr|l IHl r IHr|c IH]; intros b; cbn [nulterminate].
  - apply terminate_args.
  - destruct (decide (i = ef)) as [->|Hne].
    + unfold ends. cbn [spans fmap list_fmap snd]. rewrite (decide_True (P := ef ∈ ef :: _)) by (by left).
      destruct (decide (ef < length b)%nat); [by rewrite list_lookup_insert_eq by (by rewrite Hlen)|].
      by rewrite list_insert_ge, lookup_ge_None_2 by (rewrite Hlen; lia).
    + rewrite list_lookup_insert_ne, IH by done. unfold ends. cbn [spans fmap list_fmap snd].
      clear - Hne. repeat case_decide; try done; set_solver.
  - by apply Htwo.
  - by apply Htwo.
  - apply IH.
Qed.

Lemma cstring_at (l w : list Z) q :
  (forall i c, w !! i = Some c -> l !! (q + i)%nat = Some c /\ c <> 0) -> l !! (q + length w)%nat = Some 0 ->
  cstring (drop q l) = w.
Proof.
  revert q. induction w as [|c w IH]; intros q Hw Hz; cbn [length] in Hz.
  - rewrite Nat.add_0_r in Hz. by rewrite (drop_S _ _ _ Hz).
  - destruct (Hw 0%nat c eq_refl) as [Hc Hne]. rewrite Nat.add_0_r in Hc. rewrite (drop_S _ _ _ Hc). cbn [cstring].
    destruct (Z.eqb_spec c 0); [done|]. f_equal. apply IH; [|by rewrite Nat.add_succ_comm].
    intros i d Hi. rewrite Nat.add_succ_comm. by apply Hw.
Qed.

Lemma view_ext str str' c : (forall q e, (q, e) ∈ spans c -> str q e = str' q e) -> view str c = view str' c.
Proof.
  induction c as [argv|c IH f ef m fd|l IHl r IHr|l IHl r IHr|c IH]; intros H; cbn [view spans] in *.
  - f_equal. apply list_fmap_ext. intros i [q e] Hi. apply H. by eapply list_elem_of_lookup_2.
  - rewrite IH by (intros; apply H; by right). by rewrite H by (by left).
  - rewrite IHl, IHr; [done|intros; apply H; apply elem_of_app; by right|intros; apply H; apply elem_of_app; by left].
  - rewrite IHl, IHr; [done|intros; apply H; apply elem_of_app; by right|intros; apply H; apply elem_of_app; by left].
  - by rewrite IH.
Qed.

(** No NUL ends up inside a word: the strings are what was written. *)
Lemma nulterminate_strings buf c :
  0 ∉ buf -> words_ok buf c -> as_run (nulterminate c (buf ++ [0])) c = as_parsed buf c.
Proof.
  intros H0 Hc. apply view_ext. intros q e Hqe. destruct (Hc q e Hqe) as ([Hq He] & Hw & _).
  assert (length (span_text buf q e) = (e - q)%nat) as Hl by (apply length_slice; lia).
  assert (forall i, (i < length buf)%nat -> buf !! i = Some (at_ buf i)) as Hat.
  { intros i Hi. unfold at_. destruct (lookup_lt_is_Some_2 _ _ Hi) as [c' Hc']. by rewrite (nth_lookup_Some _ _ _ _ Hc'). }
  apply cstring_at.
  - intros i d Hi. assert (i < e - q)%nat as Hie by (rewrite <- Hl; by eapply lookup_lt_Some).
    unfold span_text, slice in Hi. rewrite lookup_take_lt, lookup_drop in Hi by done.
    rewrite nulterminate_lookup, decide_False.
    + split; [by rewrite lookup_app_l by lia|]. intros ->. apply H0. by eapply list_elem_of_lookup_2.
    + intros (q' & Hin)%elem_of_ends. destruct (Hc _ _ Hin) as (He' & _ & Hstop). specialize (Hw (q + i)%nat ltac:(lia)).
      by rewrite Hstop in Hw by lia.
  - rewrite Hl. replace (q + (e - q))%nat with e by lia. rewrite nulterminate_lookup, decide_True by (apply elem_of_ends; by exists q).
    rewrite decide_True; [done|]. rewrite length_app. cbn. lia.
Qed.

Lemma parsecmd_strings buf fuel s c b s' :
  0 ∉ buf -> parsecmd buf fuel s = Ok (c, b) s' -> as_run b c = as_parsed buf c.
Proof.
  intros H0 H. unfold parsecmd in H.
  assert (yields (parsecmd buf fuel) (fun '(c, b) => as_run b c = as_parsed buf c)) as Hy.
  { eapply yields_bind; [apply parse_words|]. intros c' Hc'. eapply yields_bind; [apply yields_any|]. intros _ _.
    eapply yields_bind; [apply yields_any|]. intros p _. destruct (_ =? _)%nat; [|done]. apply yields_ret. by apply nulterminate_strings. }
  by apply (Hy s (c, b) s').
Qed.

(** ** Commands and their text *)

Inductive direction : Type := Input | Output | Append.
Record redirection : Type := Redirection { rd_dir : direction; rd_file : list Z }.

(** A line is a sequence of pipelines, each sent to the background as often as
    it is followed by an ampersand. *)
Inductive line : Type :=
  | LineEnd (p : pipeline) (backs : nat)
  | LineSeq (p : pipeline) (backs : nat) (l : line)
with pipeline : Type :=
  | PipeEnd (e : simple)
  | PipeSeq (e : simple) (p : pipeline)
with simple : Type :=
  | Words (ws : list (list Z)) (rs : list redirection)
  | Block (l : line) (rs : list redirection).

Scheme line_mut := Induction for line Sort Prop
with pipeline_mut := Induction for pipeline Sort Prop
with simple_mut := Induction for simple Sort Prop.
Combined Scheme syntax_ind from line_mut, pipeline_mut, simple_mut.

Definition print_word (w : list Z) : list Z := w ++ [32].
Definition print_dir (d : direction) : list Z :=
  match d with Input => [60] | Output => [62] | Append => [62; 62] end.
Definition print_rd (r : redirection) : list Z := print_dir (rd_dir r) ++ print_word (rd_file r).
Definition print_rds (rs : list redirection) : list Z := concat (print_rd <$> rs).

Fixpoint print_line (l : line) : list Z :=
  match l with
  | LineEnd p n => print_pipe p ++ replicate n 38
  | LineSeq p n l' => print_pipe p ++ replicate n 38 ++ [59] ++ print_line l'
  end
with print_pipe (p : pipeline) : list Z :=
  match p with
  | PipeEnd e => print_simple e
  | PipeSeq e p' => print_simple e ++ [124] ++ print_pipe p'
  end
with print_simple (e : simple) : list Z :=
  match e with
  | Words ws rs => concat (print_word <$> ws) ++ print_rds rs
  | Block l rs => [40] ++ print_line l ++ [41] ++ print_rds rs
  end.

(** What is meant. *)
Definition redirect (t : tree) (r : redirection) : tree :=
  match rd_dir r with
  | Input => TRedir t (rd_file r) O_RDONLY 0
  | Output | Append => TRedir t (rd_file r) (Z.lor O_WRONLY O_CREATE) 1
  end.

Fixpoint mean_line (l : line) : tree :=
  match l with
  | LineEnd p n => Nat.iter n TBack (mean_pipe p)
  | LineSeq p n l' => TList (Nat.iter n TBack (mean_pipe p)) (mean_line l')
  end
with mean_pipe (p : pipeline) : tree :=
  match p with
  | PipeEnd e => mean_simple e
  | PipeSeq e p' => TPipe (mean_simple e) (mean_pipe p')
  end
with mean_simple (e : simple) : tree :=
  match e with
  | Words ws rs => foldl redirect (TExec ws) rs
  | Block l rs => foldl redirect (mean_line l) rs
  end.

(** Words are not empty and made of word characters, and a command has fewer
    than [MAXARGS] of them. *)
Definition ok_word (w : list Z) : Prop := w <> [] /\ Forall (fun c => is_word c = true /\ c <> 0) w.
Definition ok_rds (rs : list redirection) : Prop := Forall (fun r => ok_word (rd_file r)) rs.

Fixpoint ok_line (l : line) : Prop :=
  match l with
  | LineEnd p _ => ok_pipe p
  | LineSeq p _ l' => ok_pipe p /\ ok_line l'
  end
with ok_pipe (p : pipeline) : Prop :=
  match p with
  | PipeEnd e => ok_simple e
  | PipeSeq e p' => ok_simple e /\ ok_pipe p'
  end
with ok_simple (e : simple) : Prop :=
  match e with
  | Words ws rs => Forall ok_word ws /\ ok_rds rs /\ (length ws < MAXARGS)%nat
  | Block l rs => ok_line l /\ ok_rds rs
  end.

(** ** The lexer on text *)

(** The rest of the line does not begin with white space. *)
Definition starts (t : list Z) : Prop := match t with [] => True | c :: _ => is_in whitespace c = false /\ c <> 0 end.

Section Lexer.
  Context (buf : list Z).

Lemma at_rest s t : drop s buf = t -> at_ buf s = hd 0 t.
Proof.
  intros <-. unfold at_. destruct (decide (s < length buf)%nat) as [Hs|Hs].
  - destruct (lookup_lt_is_Some_2 _ _ Hs) as [c Hc]. by rewrite (drop_S _ _ _ Hc), (nth_lookup_Some _ _ _ _ Hc).
  - rewrite drop_ge, nth_overflow by lia. done.
Qed.

Lemma rest_step s n t u : drop s buf = t ++ u -> length t = n -> drop (s + n) buf = u.
Proof. intros E <-. by rewrite <- drop_drop, E, drop_app_length. Qed.

Lemma rest_one s c t : drop s buf = c :: t -> drop (S s) buf = t.
Proof. intros E. rewrite <- Nat.add_1_r. by apply (rest_step s 1 [c] t). Qed.

Lemma rest_some s c t : drop s buf = c :: t -> (s < es buf)%nat.
Proof.
  intros E. destruct (decide (s < es buf)%nat) as [|Hge]; [done|]. rewrite drop_ge in E by (unfold es in Hge; lia). done.
Qed.

Lemma skip_here s t : drop s buf = t -> starts t -> skip_space buf s = s.
Proof.
  intros E Ht. unfold skip_space. destruct t as [|c t].
  - apply skip_end. apply (f_equal length) in E. rewrite length_drop in E. cbn in E. unfold es. lia.
  - apply skip_idle; [by eapply rest_some|]. rewrite (at_rest _ _ E). apply Ht.
Qed.

Lemma peek_rest toks s t : drop s buf = t -> starts t ->
  peek buf toks s = Ok (match t with [] => false | c :: _ => is_in toks c end) s.
Proof.
  intros E Ht. unfold peek. rewrite (skip_here s t E Ht), (at_rest _ _ E). destruct t as [|c t]; [done|]. cbn [hd].
  destruct Ht as [_ H0]. by destruct (Z.eqb_spec c 0).
Qed.

Lemma gettoken_none s : drop s buf = [] -> gettoken buf s = Ok (0, s, s) s.
Proof. intros E. unfold gettoken. rewrite (skip_here s [] E I), (at_rest _ _ E). cbn. by rewrite (skip_here s [] E I). Qed.

Lemma gettoken_symbol s c t :
  drop s buf = c :: t -> c ∈ chars "|();&<" -> starts t -> gettoken buf s = Ok (c, s, S s) (S s).
Proof.
  intros E Hc Ht. unfold gettoken.
  assert (is_in whitespace c = false /\ c <> 0) as Hs.
  { cbn in Hc. rewrite !elem_of_cons in Hc. destruct Hc as [->|[->|[->|[->|[->|[->|Hc]]]]]]; try done. by apply elem_of_nil in Hc. }
  rewrite (skip_here s _ E Hs), (at_rest _ _ E). cbn [hd]. destruct (Z.eqb_spec c 0) as [|_]; [by destruct Hs|].
  rewrite (proj2 (is_in_spec _ _) Hc). by rewrite (skip_here (S s) t (rest_one _ _ _ E) Ht).
Qed.

Lemma gettoken_gt s t : drop s buf = 62 :: t -> hd 0 t <> 62 -> starts t -> gettoken buf s = Ok (62, s, S s) (S s).
Proof.
  intros E Hn Ht. unfold gettoken. rewrite (skip_here s _ E) by done. rewrite (at_rest _ _ E), (at_rest _ _ (rest_one _ _ _ E)).
  cbn [hd]. change (62 =? 0) with false. change (is_in (chars "|();&<") 62) with false. change (62 =? 62) with true.
  destruct (Z.eqb_spec (hd 0 t) 62); [done|]. by rewrite (skip_here (S s) t (rest_one _ _ _ E) Ht).
Qed.

Lemma gettoken_gtgt s t : drop s buf = 62 :: 62 :: t -> starts t -> gettoken buf s = Ok (43, s, S (S s)) (S (S s)).
Proof.
  intros E Ht. unfold gettoken. rewrite (skip_here s _ E) by done. rewrite (at_rest _ _ E), (at_rest _ _ (rest_one _ _ _ E)).
  cbn [hd]. change (62 =? 0) with false. change (is_in (chars "|();&<") 62) with false. change (62 =? 62) with true.
  cbn. by rewrite (skip_here (S (S s)) t (rest_one _ _ _ (rest_one _ _ _ E)) Ht).
Qed.

Lemma skip_word w s t c :
  drop s buf = w ++ c :: t -> Forall (fun c => is_word c = true) w -> is_word c = false -> skip buf is_word s = (s + length w)%nat.
Proof.
  intros E Hw Hc. revert s E. induction Hw as [|d w Hd Hw IH]; intros s E.
  - cbn in *. rewrite Nat.add_0_r. apply skip_idle; [by eapply rest_some|]. by rewrite (at_rest _ _ E).
  - pose proof (rest_some _ _ _ E) as Hs. unfold skip. destruct (es buf - s)%nat as [|n] eqn:En; [lia|]. cbn [skip_from].
    rewrite (at_rest _ _ E). cbn [hd app]. rewrite Hd. specialize (IH (S s) (rest_one _ _ _ E)). unfold skip in IH.
    replace (es buf - S s)%nat with n in IH by lia. rewrite IH. cbn [length]. lia.
Qed.

Lemma skip_one_space s t : drop s buf = 32 :: t -> starts t -> skip_space buf s = S s.
Proof.
  intros E Ht. pose proof (rest_some _ _ _ E) as Hs. unfold skip_space, skip. destruct (es buf - s)%nat as [|n] eqn:En; [lia|].
  cbn [skip_from]. rewrite (at_rest _ _ E). cbn [hd]. change (is_in whitespace 32) with true. cbv iota.
  pose proof (skip_here (S s) t (rest_one _ _ _ E) Ht) as H. unfold skip_space, skip in H. by replace (es buf - S s)%nat with n in H by lia.
Qed.

Lemma word_char c : is_word c = true -> is_in whitespace c = false /\ c ∉ symbols.
Proof.
  unfold is_word. intros [H1%negb_true_iff H2%negb_true_iff]%andb_prop. split; [done|]. intros H%is_in_spec. congruence.
Qed.

Lemma gettoken_word s w t :
  drop s buf = print_word w ++ t -> ok_word w -> starts t ->
  gettoken buf s = Ok (97, s, (s + length w)%nat) (s + length w + 1)%nat /\ drop (s + length w + 1) buf = t /\
  span_text buf s (s + length w) = w.
Proof.
  intros E [Hne Hw] Ht. unfold print_word in E. rewrite <- app_assoc in E. cbn [app] in E.
  assert (Forall (fun c => is_word c = true) w) as Hw' by (eapply Forall_impl; [exact Hw|]; by intros c []).
  assert (drop (s + length w) buf = 32 :: t) as E1 by (by apply (rest_step s _ w)).
  destruct w as [|c w]; [done|]. apply Forall_cons in Hw as [[Hc H0] _]. destruct (word_char c Hc) as [Hsp Hsy]. split; [|split].
  - unfold gettoken. rewrite (skip_here s _ E) by done. rewrite (at_rest _ _ E). cbn [hd app].
    destruct (Z.eqb_spec c 0) as [|_]; [done|].
    rewrite (not_true_is_false (is_in (chars "|();&<") c)) by (rewrite is_in_spec; unfold symbols in Hsy; cbn in *; set_solver).
    destruct (Z.eqb_spec c 62) as [->|_]; [destruct Hsy; cbn; set_solver|].
    rewrite (skip_word _ _ _ _ E Hw') by done. rewrite (skip_one_space _ t E1 Ht). do 2 f_equal. lia.
  - rewrite Nat.add_1_r. by apply (rest_one _ 32).
  - unfold span_text, slice. rewrite E. replace (s + length (c :: w) - s)%nat with (length (c :: w)) by lia. by rewrite take_app_length.
Qed.

(** ** The parser on text *)

(** The first character of [t], if there is one, is [set]'s, or is not. *)
Definition begins_in (set t : list Z) : Prop := match t with [] => True | c :: _ => c ∈ set end.
Definition begins_out (set t : list Z) : Prop := match t with [] => True | c :: _ => c ∉ set end.

Lemma stops_start set t : begins_in set t -> Forall (fun c => is_in whitespace c = false /\ c <> 0) set -> starts t.
Proof. intros Ht Hset. destruct t as [|c t]; [done|]. rewrite Forall_forall in Hset. by apply Hset. Qed.

Lemma begins_apart set set' t : begins_in set t -> set ## set' -> begins_out set' t.
Proof. destruct t as [|c t]; [done|]. cbn. set_solver. Qed.

Lemma peek_no toks s t : drop s buf = t -> starts t -> begins_out toks t -> peek buf toks s = Ok false s.
Proof.
  intros E Hs Hb. rewrite (peek_rest toks s t E Hs). destruct t as [|c t]; [done|]. f_equal.
  apply not_true_is_false. by rewrite is_in_spec.
Qed.

Lemma peek_yes toks s c t : drop s buf = c :: t -> starts (c :: t) -> c ∈ toks -> peek buf toks s = Ok true s.
Proof. intros E Hs Hb. rewrite (peek_rest toks s _ E Hs). f_equal. by apply is_in_spec. Qed.

Lemma starts_word w t : ok_word w -> starts (print_word w ++ t) /\ begins_out symbols (print_word w ++ t).
Proof.
  intros [Hne Hw]. destruct w as [|c w]; [done|]. apply Forall_cons in Hw as [[Hc H0] _]. destruct (word_char c Hc). by split.
Qed.

Lemma starts_rds rs t : ok_rds rs -> starts t -> starts (print_rds rs ++ t).
Proof. intros _ Ht. destruct rs as [|[[] f] rs]; cbn; done. Qed.

Lemma parseredirs_rds rs fuel s c rest :
  ok_rds rs -> drop s buf = print_rds rs ++ rest -> starts rest -> begins_out (chars "<>") rest ->
  (length (drop s buf) < fuel)%nat ->
  exists c' s', parseredirs buf fuel c s = Ok c' s' /\ drop s' buf = rest /\
    as_parsed buf c' = foldl redirect (as_parsed buf c) rs /\ (rs = [] -> c' = c).
Proof.
  intros Hrs. revert fuel s c. induction Hrs as [|[d f] rs Hf Hrs IH]; intros fuel s c E Hst Hout Hfuel; destruct fuel as [|fuel]; [lia| |lia|];
    cbn [parseredirs].
  - exists c, s. unfold bind. by rewrite (peek_no _ _ _ E Hst Hout).
  - cbn [rd_file] in Hf. change (print_rds (Redirection d f :: rs)) with ((print_dir d ++ print_word f) ++ print_rds rs) in E.
    rewrite <- !app_assoc in E. destruct (starts_word f (print_rds rs ++ rest) Hf) as [Hsf Hsym].
    assert (peek buf (chars "<>") s = Ok true s) as Hpk.
    { destruct d; cbn [print_dir app] in E; apply (peek_yes _ _ _ _ E); try done; cbn; set_solver. }
    assert (exists tok e n, gettoken buf s = Ok (tok, s, e) n /\ drop n buf = print_word f ++ print_rds rs ++ rest /\
      forall q eq, as_parsed buf (if tok =? 60 then REDIR c q eq O_RDONLY 0
             else if tok =? 62 then REDIR c q eq (Z.lor O_WRONLY O_CREATE) 1
             else if tok =? 43 then REDIR c q eq (Z.lor O_WRONLY O_CREATE) 1
             else c) = redirect (as_parsed buf c) (Redirection d (span_text buf q eq))) as (tok & e & n & Hg & En & Hm).
    { destruct d; cbn [print_dir app] in E.
      - exists 60, (S s), (S s). split; [by apply (gettoken_symbol _ _ _ E); [cbn; set_solver|]|]. split; [by eapply rest_one|done].
      - exists 62, (S s), (S s). split; [apply (gettoken_gt _ _ E); [|done]|split; [by eapply rest_one|done]].
        destruct (print_word f ++ _) as [|x t]; [done|]. cbn in Hsym |- *. intros ->. apply Hsym. set_solver.
      - exists 43, (S (S s)), (S (S s)). split; [by apply (gettoken_gtgt _ _ E)|]. split; [|done]. eapply rest_one, rest_one, E. }
    destruct (gettoken_word n f _ En Hf (starts_rds rs rest Hrs Hst)) as (Hw & Er & Hspan).
    edestruct (IH fuel (n + length f + 1)%nat) as (c' & s' & Ep & Es' & Hv & _); [exact Er|done|done| |].
    { assert (length (drop s buf) = length (print_dir d) + (length f + 1) + length (print_rds rs ++ rest))%nat as El.
      { rewrite E, !length_app. unfold print_word. rewrite length_app. cbn. lia. }
      rewrite Er. lia. }
    exists c', s'. unfold bind at 1. rewrite Hpk. cbn [negb]. unfold bind. rewrite Hg, Hw. change (97 =? 97) with true. cbn [negb].
    split; [exact Ep|]. split; [done|]. split; [|done]. rewrite Hv. cbn [foldl]. by rewrite Hm, Hspan.
Qed.

Lemma parseargs_stop fuel argc r s rest :
  drop s buf = rest -> begins_in (chars "|)&;") rest -> (0 < fuel)%nat -> parseargs buf fuel argc r s = Ok r s.
Proof.
  intros E Hst Hf. destruct fuel as [|fuel]; [lia|]. cbn [parseargs]. unfold bind at 1.
  assert (starts rest) as Hs by (eapply stops_start; [exact Hst|]; cbn; repeat constructor; done).
  rewrite (peek_rest _ _ _ E Hs). destruct rest as [|c rest]; [|unfold begins_in in Hst; by rewrite (proj2 (is_in_spec _ _) Hst)].
  unfold bind. by rewrite gettoken_none.
Qed.

Lemma parseargs_text ws rs fuel sp s rest :
  Forall ok_word ws -> ok_rds rs -> (ws = [] -> rs = []) -> (length sp + length ws < MAXARGS)%nat ->
  drop s buf = concat (print_word <$> ws) ++ print_rds rs ++ rest -> begins_in (chars "|)&;") rest ->
  (length (drop s buf) < fuel)%nat ->
  exists c' s', parseargs buf fuel (length sp) (EXEC sp) s = Ok c' s' /\ drop s' buf = rest /\
    as_parsed buf c' = foldl redirect (TExec (((fun '(q, e) => span_text buf q e) <$> sp) ++ ws)) rs.
Proof.
  intros Hws Hrs. revert fuel sp s. induction Hws as [|w ws Hw Hws IH]; intros fuel sp s Hnil Hlen E Hst Hfuel.
  - rewrite (Hnil eq_refl) in *. exists (EXEC sp), s. split; [by apply (parseargs_stop _ _ _ _ rest); [|done|lia]|].
    split; [done|]. cbn. by rewrite app_nil_r.
  - destruct fuel as [|fuel]; [lia|].
    assert (starts rest) as Hsr by (eapply stops_start; [exact Hst|]; cbn; repeat constructor; done).
    assert (begins_out (chars "<>") rest) as Hout by (eapply begins_apart; [exact Hst|]; cbn; set_solver).
    change (concat (print_word <$> w :: ws)) with (print_word w ++ concat (print_word <$> ws)) in E. rewrite <- app_assoc in E.
    assert (starts (concat (print_word <$> ws) ++ print_rds rs ++ rest)) as Hnext.
    { destruct Hws as [|w2 ws Hw2 Hws]; [by apply starts_rds|]. cbn [fmap list_fmap concat]. rewrite <- app_assoc. by apply starts_word. }
    destruct (gettoken_word s w _ E Hw Hnext) as (Hg & En & Hspan). set (n := (s + length w + 1)%nat) in *.
    assert (length (drop n buf) < length (drop s buf))%nat as Hshort.
    { rewrite En, E, !length_app. unfold print_word. rewrite length_app. cbn. lia. }
    destruct (starts_word w (concat (print_word <$> ws) ++ print_rds rs ++ rest) Hw) as [Hs1 Ho1].
    cbn [parseargs]. unfold bind at 1. rewrite (peek_no _ _ _ E Hs1).
    2: { destruct (print_word w ++ _) as [|x t]; [done|]. cbn in Ho1 |- *. unfold symbols in Ho1. cbn in Ho1. set_solver. }
    unfold bind at 1. rewrite Hg. change (97 =? 0) with false. change (97 =? 97) with true. cbn [negb add_arg].
    cbn [length] in Hlen. destruct (Nat.leb_spec MAXARGS (S (length sp))) as [|_]; [lia|].
    replace (S (length sp)) with (length (sp ++ [(s, (s + length w)%nat)])) by (rewrite length_app; cbn; lia).
    set (sp' := sp ++ [(s, (s + length w)%nat)]) in *.
    assert (((fun '(q, e) => span_text buf q e) <$> sp') ++ ws = ((fun '(q, e) => span_text buf q e) <$> sp) ++ w :: ws) as Hsp.
    { unfold sp'. rewrite fmap_app. cbn. by rewrite Hspan, <- app_assoc. }
    destruct (decide (ws = [])) as [->|Hne].
    + cbn [fmap list_fmap concat app] in En. destruct (parseredirs_rds rs fuel n (EXEC sp') rest Hrs En Hsr Hout ltac:(lia)) as (c1 & s1 & Hp & E1 & Hv & _).
      exists c1, s1. unfold bind. rewrite Hp. split; [apply (parseargs_stop _ _ _ _ rest); [done|done|lia]|]. split; [done|].
      rewrite Hv. unfold as_parsed at 1. cbn [view]. by rewrite <- Hsp, app_nil_r.
    + assert (begins_out (chars "<>") (concat (print_word <$> ws) ++ print_rds rs ++ rest)) as Hout2.
      { destruct Hws as [|w2 ws Hw2 Hws]; [done|]. cbn [fmap list_fmap concat]. rewrite <- app_assoc.
        destruct (starts_word w2 (concat (print_word <$> ws) ++ print_rds rs ++ rest) Hw2) as [_ Ho2].
        destruct (print_word w2 ++ _) as [|x t]; [done|]. cbn in Ho2 |- *. unfold symbols in Ho2. cbn in Ho2. set_solver. }
      destruct (parseredirs_rds [] fuel n (EXEC sp') _ ltac:(constructor) En Hnext Hout2 ltac:(lia)) as (c1 & s1 & Hp & E1 & _ & Hc1).
      rewrite (Hc1 eq_refl) in Hp. destruct (IH fuel sp' s1) as (c2 & s2 & Hp2 & E2 & Hv2); try done.
      * unfold sp'. rewrite length_app. cbn. lia.
      * rewrite E1, <- En. lia.
      * exists c2, s2. unfold bind. rewrite Hp. split; [exact Hp2|]. split; [done|]. by rewrite Hv2, Hsp.
Qed.

Lemma parsebacks_text n fuel s c rest :
  drop s buf = replicate n 38 ++ rest -> starts rest -> begins_out (chars "&") rest -> (length (drop s buf) < fuel)%nat ->
  exists c' s', parsebacks buf fuel c s = Ok c' s' /\ drop s' buf = rest /\ as_parsed buf c' = Nat.iter n TBack (as_parsed buf c).
Proof.
  revert fuel s c. induction n as [|n IH]; intros fuel s c E Hst Hout Hf; destruct fuel as [|fuel]; try lia; cbn [parsebacks].
  - exists c, s. unfold bind. by rewrite (peek_no _ _ _ E Hst Hout).
  - cbn [replicate app] in E. assert (starts (replicate n 38 ++ rest)) as Hst' by (by destruct n).
    unfold bind at 1. rewrite (peek_yes _ _ _ _ E) by (done || (cbn; set_solver)).
    unfold bind. rewrite (gettoken_symbol _ _ _ E) by (done || (cbn; set_solver)).
    pose proof (rest_one _ _ _ E) as E1. destruct (IH fuel (S s) (BACK c) E1 Hst Hout) as (c' & s' & Hp & Es & Hv).
    { rewrite E1. rewrite E in Hf. cbn in Hf. lia. }
    exists c', s'. split; [done|]. split; [done|]. rewrite Hv. cbn [as_parsed view]. symmetry. apply Nat.iter_succ_r.
Qed.

Lemma starts_syntax :
  (forall l, ok_line l -> forall t, starts t -> starts (print_line l ++ t)) /\
  (forall p, ok_pipe p -> forall t, starts t -> starts (print_pipe p ++ t)) /\
  (forall e, ok_simple e -> forall t, starts t -> starts (print_simple e ++ t)).
Proof.
  apply syntax_ind; cbn [ok_line ok_pipe ok_simple print_line print_pipe print_simple].
  - intros p IH n Hp t Ht. rewrite <- app_assoc. apply IH; [done|]. by destruct n.
  - intros p IH n l _ [Hp _] t Ht. rewrite <- !app_assoc. apply IH; [done|]. by destruct n.
  - intros e IH He. by apply IH.
  - intros e IH p _ [He _] t Ht. rewrite <- !app_assoc. by apply IH.
  - intros ws rs (Hws & Hrs & _) t Ht. rewrite <- app_assoc. destruct Hws as [|w ws Hw Hws]; [by apply starts_rds|].
    cbn [fmap list_fmap concat]. rewrite <- app_assoc. by apply starts_word.
  - done.
Qed.

Definition recovers (parse : nat -> M nat cmd) (text rest : list Z) (extra : nat) (t : tree) : Prop :=
  forall fuel s, drop s buf = text ++ rest -> (4 * length (drop s buf) + extra <= fuel)%nat ->
    exists c s', parse fuel s = Ok c s' /\ drop s' buf = rest /\ as_parsed buf c = t.

(** The end of a pipeline, and of a line up to its last pipeline. *)
Lemma parse_backs_text p n fuel s rest :
  recovers (parsepipe buf) (print_pipe p) (replicate n 38 ++ rest) 3 (mean_pipe p) ->
  drop s buf = print_pipe p ++ replicate n 38 ++ rest -> begins_in (chars ");") rest -> (4 * length (drop s buf) + 3 <= fuel)%nat ->
  exists c s', (let! c := parsepipe buf fuel in parsebacks buf fuel c) s = Ok c s' /\ drop s' buf = rest /\
    as_parsed buf c = Nat.iter n TBack (mean_pipe p).
Proof.
  intros Hp E Hst Hf. destruct (Hp fuel s E Hf) as (c & s1 & Ep & E1 & Hv).
  assert (starts rest) as Hsr by (eapply stops_start; [exact Hst|]; cbn; repeat constructor; done).
  assert (length (drop s1 buf) <= length (drop s buf))%nat as Hl by (rewrite E, E1, (length_app (print_pipe p)); lia).
  destruct (parsebacks_text n fuel s1 c rest E1 Hsr) as (c2 & s2 & Eb & E2 & Hv2).
  { eapply begins_apart; [exact Hst|]. cbn. set_solver. }
  { lia. }
  exists c2, s2. unfold bind. rewrite Ep. split; [done|]. split; [done|]. by rewrite Hv2, Hv.
Qed.

Lemma bind_assoc_eq {A B C} (m : M nat A) (f : A -> M nat B) (g : B -> M nat C) s a s' :
  (let! x := m in f x) s = Ok a s' -> (let! x := m in let! y := f x in g y) s = g a s'.
Proof. unfold bind. destruct (m s) as [x s1| | |]; try done. by intros ->. Qed.

Lemma words_text ws rs rest :
  ok_simple (Words ws rs) -> begins_in (chars "|)&;") rest ->
  recovers (parseexec buf) (print_simple (Words ws rs)) rest 2 (mean_simple (Words ws rs)).
Proof.
  intros (Hws & Hrs & Hlen) Hst fuel s E Hf. destruct fuel as [|fuel]; [lia|]. cbn [print_simple mean_simple] in *. rewrite <- app_assoc in E.
  assert (starts rest) as Hsr by (eapply stops_start; [exact Hst|]; cbn; repeat constructor; done).
  assert (begins_out (chars "<>") rest) as Hout by (eapply begins_apart; [exact Hst|]; cbn; set_solver).
  cbn [parseexec]. destruct (decide (ws = [])) as [->|Hne].
  - cbn [fmap list_fmap concat app] in E. destruct (parseredirs_rds rs fuel s (EXEC []) rest Hrs E Hsr Hout ltac:(lia)) as (c1 & s1 & Hp & E1 & Hv & _).
    exists c1, s1. unfold bind. rewrite (peek_no _ _ _ E); [|by apply starts_rds|].
    2: { destruct rs as [|[[] f] rs]; [destruct rest|..]; cbn in *; set_solver. }
    rewrite Hp. split; [apply (parseargs_stop _ _ _ _ rest); [done|done|lia]|]. by split.
  - destruct Hws as [|w ws Hw Hws]; [done|].
    assert (concat (print_word <$> w :: ws) = print_word w ++ concat (print_word <$> ws)) as Ec by done.
    destruct (starts_word w (concat (print_word <$> ws) ++ print_rds rs ++ rest) Hw) as [Hs1 Ho1].
    rewrite (app_assoc (print_word w)), <- Ec in Hs1, Ho1.
    assert (forall set, set ⊆ symbols -> begins_out set (concat (print_word <$> w :: ws) ++ print_rds rs ++ rest)) as Ho2.
    { intros set Hset. destruct (concat _ ++ _) as [|x t]; [done|]. cbn in Ho1 |- *. set_solver. }
    destruct (parseredirs_rds [] fuel s (EXEC []) _ ltac:(constructor) E Hs1) as (c1 & s1 & Hp & E1 & _ & Hc1).
    { apply Ho2. unfold symbols. cbn. set_solver. }
    { lia. }
    rewrite (Hc1 eq_refl) in Hp.
    destruct (parseargs_text (w :: ws) rs fuel [] s1 rest) as (c2 & s2 & Hp2 & E2 & Hv2); try done.
    { by constructor. }
    { rewrite E1, <- E. lia. }
    exists c2, s2. unfold bind. rewrite (peek_no _ _ _ E Hs1) by (apply Ho2; unfold symbols; cbn; set_solver). by rewrite Hp.
Qed.

Lemma block_text l rs rest :
  ok_rds rs -> (forall t, starts t -> starts (print_line l ++ t)) -> begins_in (chars "|)&;") rest ->
  (forall rest', begins_in (chars ")") rest' -> recovers (parseline buf) (print_line l) rest' 4 (mean_line l)) ->
  recovers (parseexec buf) (print_simple (Block l rs)) rest 2 (mean_simple (Block l rs)).
Proof.
  intros Hrs Sl Hst IH fuel s E Hf. destruct fuel as [|[|fuel]]; [lia|lia|]. cbn [print_simple mean_simple] in *.
  rewrite <- !app_assoc in E. cbn [app] in E.
  assert (starts rest) as Hsr by (eapply stops_start; [exact Hst|]; cbn; repeat constructor; done).
  assert (begins_out (chars "<>") rest) as Hout by (eapply begins_apart; [exact Hst|]; cbn; set_solver).
  set (rest1 := 41 :: print_rds rs ++ rest) in *. pose proof (rest_one _ _ _ E) as E1.
  assert (length (drop s buf) = S (length (drop (S s) buf))) as Hlen by (rewrite E, E1; done).
  destruct (IH rest1 ltac:(cbn; set_solver) fuel (S s) E1 ltac:(lia)) as (c & s2 & Ep & E2 & Hv).
  pose proof (rest_one _ _ _ E2) as E3.
  assert (length (drop (S s2) buf) < length (drop (S s) buf))%nat as Hlen2 by (rewrite E3, E1; unfold rest1; rewrite !length_app; cbn [length]; rewrite length_app; lia).
  destruct (parseredirs_rds rs fuel (S s2) c rest Hrs E3 Hsr Hout ltac:(lia)) as (c1 & s1 & Hp & Er & Hv1 & _).
  exists c1, s1. split; [|by rewrite Hv1, Hv]. cbn [parseexec]. unfold bind at 1.
  rewrite (peek_yes _ _ _ _ E) by (done || (cbn; set_solver)). cbn [parseblock]. unfold bind at 1.
  rewrite (peek_yes _ _ _ _ E) by (done || (cbn; set_solver)). cbn [negb]. unfold bind at 1.
  rewrite (gettoken_symbol _ _ _ E); [|cbn; set_solver|by apply Sl]. unfold bind at 1. rewrite Ep. unfold bind at 1.
  rewrite (peek_yes _ _ _ _ E2) by (done || (cbn; set_solver)). cbn [negb]. unfold bind.
  rewrite (gettoken_symbol _ _ _ E2); [exact Hp|cbn; set_solver|by apply starts_rds].
Qed.

Lemma parse_text :
  (forall l, ok_line l -> forall rest, begins_in (chars ")") rest -> recovers (parseline buf) (print_line l) rest 4 (mean_line l)) /\
  (forall p, ok_pipe p -> forall rest, begins_in (chars ")&;") rest -> recovers (parsepipe buf) (print_pipe p) rest 3 (mean_pipe p)) /\
  (forall e, ok_simple e -> forall rest, begins_in (chars "|)&;") rest -> recovers (parseexec buf) (print_simple e) rest 2 (mean_simple e)).
Proof.
  destruct starts_syntax as (Sl & Sp & Se).
  apply syntax_ind; cbn [ok_line ok_pipe ok_simple print_line print_pipe print_simple mean_line mean_pipe mean_simple].
  - intros p IH n Hp rest Hst fuel s E Hf. destruct fuel as [|fuel]; [lia|]. rewrite <- app_assoc in E.
    assert (starts rest) as Hsr by (eapply stops_start; [exact Hst|]; cbn; repeat constructor; done).
    assert (begins_in (chars ")&;") (replicate n 38 ++ rest)) as Hst' by (destruct n; [destruct rest|]; cbn in *; set_solver).
    destruct (parse_backs_text p n fuel s rest (IH Hp _ Hst') E) as (c & s1 & Ep & E1 & Hv); [destruct rest; cbn in *; set_solver|lia|].
    exists c, s1. cbn [parseline]. rewrite (bind_assoc_eq _ _ _ _ _ _ Ep). unfold bind. rewrite (peek_no _ _ _ E1 Hsr); [done|].
    eapply begins_apart; [exact Hst|]. cbn. set_solver.
  - intros p IHp n l IHl [Hp Hl] rest Hst fuel s E Hf. destruct fuel as [|fuel]; [lia|]. rewrite <- !app_assoc in E. cbn [app] in E.
    assert (starts rest) as Hsr by (eapply stops_start; [exact Hst|]; cbn; repeat constructor; done).
    set (rest1 := 59 :: print_line l ++ rest) in *.
    assert (begins_in (chars ")&;") (replicate n 38 ++ rest1)) as Hst' by (destruct n; cbn; set_solver).
    destruct (parse_backs_text p n fuel s rest1 (IHp Hp _ Hst') E) as (c & s1 & Ep & E1 & Hv); [cbn; set_solver|lia|].
    assert (length rest1 <= length (drop s buf))%nat as Hlen by (rewrite E, !length_app; lia).
    pose proof (rest_one _ _ _ E1) as E2. destruct (IHl Hl rest Hst fuel (S s1) E2) as (r & s2 & Er & E3 & Hv2).
    { rewrite E2. unfold rest1 in Hlen. cbn [length] in Hlen. lia. }
    exists (LIST c r), s2. cbn [parseline]. rewrite (bind_assoc_eq _ _ _ _ _ _ Ep). unfold bind.
    rewrite (peek_yes _ _ _ _ E1) by (done || (cbn; set_solver)).
    rewrite (gettoken_symbol _ _ _ E1) by (first [by apply Sl|cbn; set_solver]). rewrite Er.
    split; [done|]. split; [done|]. unfold as_parsed in *. cbn [view]. by rewrite Hv, Hv2.
  - intros e IH He rest Hst fuel s E Hf. destruct fuel as [|fuel]; [lia|].
    assert (starts rest) as Hsr by (eapply stops_start; [exact Hst|]; cbn; repeat constructor; done).
    destruct (IH He rest ltac:(destruct rest; cbn in *; set_solver) fuel s E ltac:(lia)) as (c & s1 & Ep & E1 & Hv).
    exists c, s1. cbn [parsepipe]. unfold bind. rewrite Ep, (peek_no _ _ _ E1 Hsr); [done|].
    eapply begins_apart; [exact Hst|]. cbn. set_solver.
  - intros e IHe p IHp [He Hp] rest Hst fuel s E Hf. destruct fuel as [|fuel]; [lia|]. rewrite <- !app_assoc in E. cbn [app] in E.
    assert (starts rest) as Hsr by (eapply stops_start; [exact Hst|]; cbn; repeat constructor; done).
    set (rest1 := 124 :: print_pipe p ++ rest) in *.
    destruct (IHe He rest1 ltac:(cbn; set_solver) fuel s E ltac:(lia)) as (c & s1 & Ep & E1 & Hv).
    assert (length rest1 <= length (drop s buf))%nat as Hlen by (rewrite E, !length_app; lia).
    pose proof (rest_one _ _ _ E1) as E2. destruct (IHp Hp rest Hst fuel (S s1) E2) as (r & s2 & Er & E3 & Hv2).
    { rewrite E2. unfold rest1 in Hlen. cbn [length] in Hlen. lia. }
    exists (PIPE c r), s2. cbn [parsepipe]. unfold bind. rewrite Ep, (peek_yes _ _ _ _ E1) by (done || (cbn; set_solver)).
    rewrite (gettoken_symbol _ _ _ E1) by (first [by apply Sp|cbn; set_solver]). rewrite Er.
    split; [done|]. split; [done|]. unfold as_parsed in *. cbn [view]. by rewrite Hv, Hv2.
  - intros ws rs Hok rest Hst. by apply words_text.
  - intros l IH rs [Hl Hrs] rest Hst. apply block_text; [done|by apply Sl|done|]. intros rest' Hst'. by apply IH.
Qed.
End Lexer.

(** The text of a command holds no NUL. *)
Lemma print_nul :
  (forall l, ok_line l -> 0 ∉ print_line l) /\ (forall p, ok_pipe p -> 0 ∉ print_pipe p) /\
  (forall e, ok_simple e -> 0 ∉ print_simple e).
Proof.
  assert (forall w, ok_word w -> 0 ∉ print_word w) as Hword.
  { intros w [_ Hw]. unfold print_word. rewrite elem_of_app. intros [H|H]; [|set_solver]. rewrite Forall_forall in Hw. by destruct (Hw 0 H). }
  assert (forall rs, ok_rds rs -> 0 ∉ print_rds rs) as Hrds.
  { intros rs Hrs. induction Hrs as [|[d f] rs Hf Hrs IH]; [set_solver|]. cbn [rd_file] in Hf. specialize (Hword f Hf).
    change (print_rds (Redirection d f :: rs)) with ((print_dir d ++ print_word f) ++ print_rds rs). destruct d; cbn; set_solver. }
  assert (forall n, 0 ∉ replicate n 38) as Hrep.
  { intros n H. by apply elem_of_replicate in H as [? _]. }
  apply syntax_ind; cbn [ok_line ok_pipe ok_simple print_line print_pipe print_simple].
  - intros p IH n Hp. specialize (IH Hp). specialize (Hrep n). set_solver.
  - intros p IH n l IHl [Hp Hl]. specialize (IH Hp). specialize (IHl Hl). specialize (Hrep n). set_solver.
  - done.
  - intros e IH p IHp [He Hp]. specialize (IH He). specialize (IHp Hp). set_solver.
  - intros ws rs (Hws & Hrs & _). specialize (Hrds rs Hrs). rewrite elem_of_app. intros [H|H]; [|done].
    induction Hws as [|w ws Hw Hws IH]; [by apply elem_of_nil in H|]. cbn [fmap list_fmap concat] in H.
    apply elem_of_app in H as [H|H]; [by apply (Hword w Hw)|by apply IH].
  - intros l IH rs [Hl Hrs]. specialize (IH Hl). specialize (Hrds rs Hrs). set_solver.
Qed.

(** The round trip. *)
Lemma parsecmd_print l fuel :
  ok_line l -> (parse_fuel (print_line l) <= fuel)%nat ->
  exists c b s', parsecmd (print_line l) fuel 0%nat = Ok (c, b) s' /\ as_run b c = mean_line l.
Proof.
  intros Hl Hf. set (buf := print_line l) in *.
  destruct (proj1 (parse_text buf) l Hl [] I fuel 0%nat) as (c & s & E & Es & Hv).
  { rewrite drop_0, app_nil_r. done. }
  { rewrite drop_0. exact Hf. }
  assert (es buf <= s)%nat as Hge.
  { apply (f_equal length) in Es. rewrite length_drop in Es. cbn in Es. unfold es. lia. }
  assert (s <= es buf)%nat as Hle.
  { pose proof (proj1 (parse_forward buf fuel) 0%nat ltac:(lia)) as H. rewrite Nat.sub_0_r in H. specialize (H Hf).
    unfold forward, halts in H. rewrite E in H. lia. }
  assert (parsecmd buf fuel 0%nat = Ok (c, nulterminate c (buf ++ [0])) s) as Ep.
  { unfold parsecmd, bind, gets. rewrite E, (peek_rest buf [] s [] Es I).
    destruct (Nat.eqb_spec (id s) (es buf)) as [|Hne]; [done|]. cbn in Hne. lia. }
  exists c, (nulterminate c (buf ++ [0])), s. split; [done|]. rewrite <- Hv. apply (parsecmd_strings buf fuel 0 c _ s); [|done].
  by apply print_nul.
Qed.
