(* ===== verification/ShRun.v ===== *)
(** * What the shell runs

    [runcmd] against the descriptor semantics of the kernel: a new descriptor is
    the lowest free one.  The programs it ends up executing, and the descriptors
    they have, are those the command asks for. *)

From S2P Require Import Prelude Bytes Params Ulib Sh.

(** What a descriptor refers to. *)
Inductive object : Type :=
  | Inherited (n : nat)
  | File (path : list Z) (mode : Z)
  | ReadEnd (pipe : nat)
  | WriteEnd (pipe : nat).

(** The lowest free descriptor of a descriptor table. *)
Fixpoint lowest (t : list (option object)) : option nat :=
  match t with
  | [] => None
  | None :: _ => Some 0%nat
  | Some _ :: t' => S <$> lowest t'
  end.

Definition set_fd (fd : Z) (o : option object) (t : list (option object)) : list (option object) := if fd <? 0 then t else <[Z.to_nat fd := o]> t.

(** The programs a process executes and with which descriptors, its descendants'
    first; [n] numbers the pipes.  Every call succeeds for which there are
    descriptors. *)
Fixpoint run (p : prog) (t : list (option object)) (n : nat) : list (list (list Z) * list (option object)) * nat :=
  match p with
  | Exit _ => ([], n)
  | Exec _ argv _ => ([(argv, t)], n)
  | Open path mode k =>
      match lowest t with
      | Some fd => run (k (Z.of_nat fd)) (<[fd := Some (File path mode)]> t) n
      | None => run (k (-1)) t n
      end
  | Close fd k => run k (set_fd fd None t) n
  | Dup fd k =>
      match lowest t, t !! Z.to_nat fd with
      | Some new, Some (Some o) => run (k (Z.of_nat new)) (<[new := Some o]> t) n
      | _, _ => run (k (-1)) t n
      end
  | Pipe k =>
      match lowest t with
      | None => run (k None) t n
      | Some r =>
          let t1 := <[r := Some (ReadEnd n)]> t in
          match lowest t1 with
          | None => run (k None) t n
          | Some w => run (k (Some (Z.of_nat r, Z.of_nat w))) (<[w := Some (WriteEnd n)]> t1) (S n)
          end
      end
  | Fork child parent =>
      let '(l1, n1) := run child t n in
      let '(l2, n2) := run (parent 1) t n1 in
      (l1 ++ l2, n2)
  | Wait k => run k t n
  | Print _ _ k => run k t n
  end.

(** What a command asks for. *)
Fixpoint wanted (c : tree) (t : list (option object)) (n : nat) : list (list (list Z) * list (option object)) * nat :=
  match c with
  | TExec argv => (match argv with [] => [] | _ => [(argv, t)] end, n)
  | TRedir c' file mode fd => wanted c' (set_fd fd (Some (File file mode)) t) n
  | TPipe l r =>
      let '(l1, n1) := wanted l (<[1%nat := Some (WriteEnd n)]> t) (S n) in
      let '(l2, n2) := wanted r (<[0%nat := Some (ReadEnd n)]> t) n1 in
      (l1 ++ l2, n2)
  | TList l r =>
      let '(l1, n1) := wanted l t n in
      let '(l2, n2) := wanted r t n1 in
      (l1 ++ l2, n2)
  | TBack c' => wanted c' t n
  end.

(** The commands of the parser redirect standard input and output. *)
Fixpoint std_redirs (c : tree) : Prop :=
  match c with
  | TExec _ => True
  | TRedir c' _ _ fd => (fd = 0 \/ fd = 1) /\ std_redirs c'
  | TPipe l r | TList l r => std_redirs l /\ std_redirs r
  | TBack c' => std_redirs c'
  end.

(** Standard input and output are open, and there is room for a pipe. *)
Record fds_ok (t : list (option object)) : Prop := {
  fo_std : exists a b t', t = Some a :: Some b :: t';
  fo_room : exists r w, lowest t = Some r /\ t !! r = Some None /\ (r < w)%nat /\ t !! w = Some None
}.

Lemma lowest_Some t r : lowest t = Some r <-> t !! r = Some None /\ forall i, (i < r)%nat -> exists o, t !! i = Some (Some o).
Proof.
  revert r. induction t as [|[o|] t IH]; intros r; cbn [lowest].
  - split; [done|]. by intros [? _].
  - rewrite fmap_Some. split.
    + intros (r' & [Hr Hi]%IH & ->). split; [done|]. intros [|i] Hi'; [by exists o|]. apply Hi. lia.
    + intros [Hr Hi]. destruct r as [|r]; [done|]. exists r. split; [|done]. apply IH. split; [done|]. intros i Hi'. apply (Hi (S i)). lia.
  - split; [intros [= <-]; split; [done|lia]|]. intros [Hr Hi]. destruct r as [|r]; [done|]. destruct (Hi 0%nat) as [? [=]]. lia.
Qed.

Lemma lowest_is_Some t i : t !! i = Some None -> exists r, lowest t = Some r /\ (r <= i)%nat.
Proof.
  revert i. induction t as [|[o|] t IH]; intros [|i] H; try done; cbn [lowest]; try (by exists 0%nat; split; [|lia]).
  destruct (IH i H) as (r & -> & Hr). exists (S r). split; [done|lia].
Qed.

(** Replacing standard input or output keeps the table fit. *)
Lemma fds_ok_set t i o : fds_ok t -> (i < 2)%nat -> fds_ok (<[i := Some o]> t).
Proof.
  intros [(a & b & t' & ->) (r & w & Hl & Hr & Hw & Hwn)] Hi.
  assert (2 <= r)%nat as Hr2 by (destruct r as [|[|r]]; [done|done|lia]).
  split.
  - destruct i as [|[|i]]; [by exists o, b, t'|by exists a, o, t'|lia].
  - exists r, w. split; [|by rewrite !list_lookup_insert_ne by lia].
    apply lowest_Some in Hl as [_ Hlow]. apply lowest_Some. split; [by rewrite list_lookup_insert_ne by lia|].
    intros j Hj. destruct (decide (j = i)) as [->|Hne]; [|rewrite list_lookup_insert_ne by done; by apply Hlow].
    exists o. apply list_lookup_insert_eq. destruct (Hlow i Hj) as [x Hx]. by eapply lookup_lt_Some.
Qed.

(** Closing a standard descriptor makes it the next one to be used. *)
Lemma lowest_closed t i : (exists a b t', t = Some a :: Some b :: t') -> (i < 2)%nat -> lowest (<[i := None]> t) = Some i.
Proof. intros (a & b & t' & ->) Hi. destruct i as [|[|i]]; [done|done|lia]. Qed.

(** The two ends of a pipe in the table, one of them duplicated to [i], and both
    closed again. *)
Lemma pipe_child t r w i R W o :
  t !! r = Some None -> t !! w = Some None -> r <> w -> (i < 2)%nat -> (2 <= r)%nat -> (2 <= w)%nat ->
  <[w := None]> (<[r := None]> (<[i := Some o]> (<[i := None]> (<[w := Some W]> (<[r := Some R]> t))))) = <[i := Some o]> (t : list (option object)).
Proof.
  intros Hr Hw Hne Hi Hr2 Hw2. apply list_eq. intros j.
  pose proof (lookup_lt_Some _ _ _ Hr) as Lr. pose proof (lookup_lt_Some _ _ _ Hw) as Lw.
  destruct (decide (j = w)) as [->|Hjw].
  { rewrite list_lookup_insert_eq by (by rewrite !length_insert). by rewrite list_lookup_insert_ne, Hw by lia. }
  rewrite (list_lookup_insert_ne _ w) by done. destruct (decide (j = r)) as [->|Hjr].
  { rewrite list_lookup_insert_eq by (by rewrite !length_insert). by rewrite list_lookup_insert_ne, Hr by lia. }
  rewrite (list_lookup_insert_ne _ r) by done. destruct (decide (j = i)) as [->|Hji].
  { rewrite !list_lookup_insert_eq by (rewrite ?length_insert; lia). done. }
  by rewrite !list_lookup_insert_ne by done.
Qed.

Lemma set_fd_nat i o t : set_fd (Z.of_nat i) o t = <[i := o]> t.
Proof. unfold set_fd. destruct (Z.ltb_spec (Z.of_nat i) 0); [lia|]. by rewrite Nat2Z.id. Qed.

Lemma run_pipe l r t n :
  fds_ok t -> (forall t n, fds_ok t -> run (runcmd l) t n = wanted l t n) -> (forall t n, fds_ok t -> run (runcmd r) t n = wanted r t n) ->
  run (runcmd (TPipe l r)) t n = wanted (TPipe l r) t n.
Proof.
  intros Ht IHl IHr. pose proof (fo_std _ Ht) as Hstd. destruct (fo_room _ Ht) as (a & b0 & Ha & Han & Hb0 & Hbn0).
  assert (2 <= a)%nat as Ha2 by (destruct Hstd as (x & y & t' & ->); destruct a as [|[|a]]; [done|done|lia]).
  cbn [runcmd run]. rewrite Ha. set (t1 := <[a := Some (ReadEnd n)]> t).
  assert (exists b, lowest t1 = Some b /\ t !! b = Some None /\ (a < b)%nat) as (b & Hb & Hbn & Hab).
  { destruct (lowest_is_Some t1 b0) as (b & Hb & _); [by unfold t1; rewrite list_lookup_insert_ne by lia|]. exists b. split; [done|].
    apply lowest_Some in Hb as [Hbn _]. destruct (decide (b = a)) as [->|Hne].
    { unfold t1 in Hbn. by rewrite list_lookup_insert_eq in Hbn by (by eapply lookup_lt_Some). }
    unfold t1 in Hbn. rewrite list_lookup_insert_ne in Hbn by done. split; [done|].
    destruct (decide (a < b)%nat) as [|Hge]; [done|]. apply lowest_Some in Ha as [_ Hlow]. destruct (Hlow b ltac:(lia)) as [o Ho]. congruence. }
  rewrite Hb. set (t2 := <[b := Some (WriteEnd n)]> t1).
  assert (forall i, (i < 2)%nat -> lowest (<[i := None]> t2) = Some i) as Hlow.
  { intros i Hi. apply lowest_closed; [|done]. destruct Hstd as (x & y & t' & Et). unfold t2, t1. rewrite Et.
    destruct a as [|[|a]]; [lia|lia|]. destruct b as [|[|b]]; [lia|lia|]. by eexists _, _, _. }
  assert (forall i o e, (i < 2)%nat -> (e = a /\ o = ReadEnd n) \/ (e = b /\ o = WriteEnd n) ->
    (<[i := None]> t2) !! e = Some (Some o)) as Hend.
  { intros i o e Hi He. pose proof (lookup_lt_Some _ _ _ Han) as La. pose proof (lookup_lt_Some _ _ _ Hbn) as Lb. unfold t2, t1.
    destruct He as [[-> ->]|[-> ->]]; rewrite list_lookup_insert_ne by lia.
    - rewrite list_lookup_insert_ne, list_lookup_insert_eq by lia. done.
    - rewrite list_lookup_insert_eq by (rewrite length_insert; lia). done. }
  unfold fork1. cbn [run]. change (1 =? -1) with false. cbn [run]. change (1 =? -1) with false. cbn [run].
  change (set_fd 1 None t2) with (<[1%nat := None]> t2). change (set_fd 0 None t2) with (<[0%nat := None]> t2).
  rewrite !Hlow, !Nat2Z.id, (Hend 1%nat (WriteEnd n) b), (Hend 0%nat (ReadEnd n) a) by (lia || tauto).
  rewrite !set_fd_nat. unfold t2, t1. rewrite !(pipe_child t a b) by (done || lia). cbn [wanted].
  rewrite IHl by (apply fds_ok_set; [done|lia]). destruct (wanted l _ _) as [l1 n1].
  rewrite IHr by (apply fds_ok_set; [done|lia]). destruct (wanted r _ _) as [l2 n2]. by rewrite app_nil_r.
Qed.

Lemma run_runcmd c t n : std_redirs c -> fds_ok t -> run (runcmd c) t n = wanted c t n.
Proof.
  revert t n. induction c as [argv|c IH file mode fd|l IHl r IHr|l IHl r IHr|c IH]; intros t n Hc Ht; cbn [std_redirs] in Hc.
  - by destruct argv.
  - destruct Hc as [Hfd Hc]. cbn [runcmd run wanted]. pose proof (fo_std _ Ht) as Hstd.
    assert (exists i, (i < 2)%nat /\ fd = Z.of_nat i) as (i & Hi & ->) by (destruct Hfd; [exists 0%nat|exists 1%nat]; lia).
    rewrite !set_fd_nat, lowest_closed by done.
    destruct (Z.ltb_spec (Z.of_nat i) 0) as [|_]; [lia|]. rewrite list_insert_insert_eq. apply IH; [done|by apply fds_ok_set].
  - destruct Hc as [Hl Hr]. apply run_pipe; [done|by intros; apply IHl|by intros; apply IHr].
  - destruct Hc as [Hl Hr]. cbn [runcmd run wanted fork1]. rewrite IHl by done. destruct (wanted l t n) as [l1 n1].
    change (1 =? -1) with false. cbn [run]. by rewrite IHr by done.
  - by apply IH.
Qed.
