(* ===== verification/ShJobs.v ===== *)
(** * The shell's list of jobs

    The list is doubly linked; adding, removing and clearing the finished jobs
    act on the sequence it stands for. *)

From S2P Require Import Prelude Bytes Params Ulib Sh.

(** The jobs [xs] linked in this order, behind [p] and before [n]. *)
Fixpoint linked (h : gmap Z job) (p : Z) (xs : list Z) (n : Z) : Prop :=
  match xs with
  | [] => True
  | x :: xs' => exists j, h !! x = Some j /\ j_prev j = p /\ j_next j = hd n xs' /\ linked h x xs' n
  end.

Definition tail_of (p : Z) (xs : list Z) : Z := List.last xs p.

Lemma tail_of_cons p x xs : tail_of p (x :: xs) = tail_of x xs.
Proof. unfold tail_of. revert x. induction xs as [|y xs IH]; intros x; [done|]. cbn. destruct xs; [done|]. apply (IH x). Qed.

Lemma tail_of_app p xs x ys : tail_of p (xs ++ x :: ys) = tail_of x ys.
Proof. revert p. induction xs as [|y xs IH]; intros p; cbn [app]; rewrite tail_of_cons; [done|apply IH]. Qed.

Lemma linked_app h p xs ys n :
  linked h p (xs ++ ys) n <-> linked h p xs (hd n ys) /\ linked h (tail_of p xs) ys n.
Proof.
  revert p. induction xs as [|x xs IH]; intros p; cbn [app linked]; [tauto|]. rewrite tail_of_cons. split.
  - intros (j & Hj & Hp & Hn & [H1 H2]%IH). split; [|done]. exists j. split; [done|]. split; [done|]. split; [|done].
    rewrite Hn. by destruct xs.
  - intros [(j & Hj & Hp & Hn & H1) H2]. exists j. split; [done|]. split; [done|]. split; [rewrite Hn; by destruct xs|].
    apply IH. by split.
Qed.

Lemma linked_frame h h' p xs n : (forall x, x ∈ xs -> h' !! x = h !! x) -> linked h p xs n -> linked h' p xs n.
Proof.
  revert p. induction xs as [|x xs IH]; intros p Hh H; [done|]. destruct H as (j & Hj & Hp & Hn & H). exists j.
  rewrite Hh by (by left). split; [done|]. split; [done|]. split; [done|]. apply IH; [|done]. intros y Hy. apply Hh. by right.
Qed.

Lemma linked_lookup h p xs n x : linked h p xs n -> x ∈ xs -> exists j, h !! x = Some j.
Proof. intros Hk (l1 & l2 & ->)%list_elem_of_split. apply linked_app in Hk as [_ (j & Hj & _)]. by exists j. Qed.

(** The shell's list is [xs]. *)
Record joblist_is (s : shell) (xs : list Z) : Prop := {
  ji_nodup : NoDup xs;
  ji_null : 0 ∉ xs;
  ji_first : jl_first s = hd 0 xs;
  ji_last : xs <> [] -> jl_last s = tail_of 0 xs;
  ji_links : linked (heap s) 0 xs 0
}.

Lemma job_at_ok p j s (Q : job -> shell -> Prop) : heap s !! p = Some j -> Q j s -> wp (job_at p) Q s.
Proof. intros Hj HQ. unfold wp, job_at. by rewrite Hj. Qed.

Lemma on_job_ok p f j s (Q : unit -> shell -> Prop) :
  heap s !! p = Some j -> Q tt (set_heap (<[p := f j]> (heap s)) s) -> wp (on_job p f) Q s.
Proof. intros Hj HQ. unfold on_job. apply wp_bind, (job_at_ok p j); [done|]. by apply wp_modify. Qed.

Lemma wp_when (b : bool) m (Q : unit -> shell -> Prop) s : (b = true -> wp m Q s) -> (b = false -> Q tt s) -> wp (when b m) Q s.
Proof. intros Ht Hf. unfold when. destruct b; [by apply Ht|]. apply wp_ret. by apply Hf. Qed.

(** ** Adding *)

Lemma linked_set_last h p xs x y n j j' :
  linked h p (xs ++ [x]) n -> NoDup (xs ++ [x]) -> h !! x = Some j -> j' = with_next y j ->
  linked (<[x := j']> h) p (xs ++ [x]) y.
Proof.
  intros Hl Hnd Hj ->. apply linked_app in Hl as [H1 H2]. apply linked_app. cbn [hd] in *. split.
  - eapply linked_frame; [|exact H1]. intros z Hz. apply lookup_insert_ne. intros ->. apply NoDup_app in Hnd as (_ & Hd & _).
    apply (Hd z Hz). by left.
  - destruct H2 as (j2 & Hj2 & Hp & _ & _). rewrite Hj in Hj2. injection Hj2 as <-. cbn [linked]. exists (with_next y j).
    rewrite lookup_insert_eq. done.
Qed.

Lemma add_spec p j xs s :
  joblist_is s xs -> heap s !! p = Some j -> j_next j = 0 -> j_prev j = 0 -> p <> 0 -> p ∉ xs ->
  wp (addJobToList p) (fun _ s' => joblist_is s' (xs ++ [p]) /\ jl_fgJob s' = jl_fgJob s /\ closed s' = closed s /\
    forall q j, heap s !! q = Some j -> exists j', heap s' !! q = Some j' /\ j_jid j' = j_jid j /\ j_fd j' = j_fd j) s.
Proof.
  intros [Hnd H0 Hf Hl Hk] Hj Hn Hp Hp0 Hin. unfold addJobToList. apply wp_bind, wp_gets. unfold id. rewrite Hf.
  destruct xs as [|x xs].
  - cbn [hd]. change (0 =? 0) with true. cbv iota. apply wp_bind, wp_modify, wp_modify. split; [|split; [done|split; [done|intros q j0 ?; by exists j0]]]. split.
    + apply NoDup_singleton.
    + set_solver.
    + done.
    + done.
    + cbn. by exists j.
  - cbn [hd]. destruct (Z.eqb_spec x 0) as [->|_]; [set_solver|]. rewrite Hl by done.
    destruct (exists_last (l := x :: xs)) as (ys & y & E); [done|]. rewrite E in *. clear E x xs.
    rewrite tail_of_app. unfold tail_of at 1. cbn [List.last].
    assert (exists jy, heap s !! y = Some jy) as [jy Hy].
    { apply linked_app in Hk as [_ (jy & Hy & _)]. by exists jy. }
    assert (y <> p) as Hne by (intros ->; apply Hin, elem_of_app; right; by left).
    apply wp_bind, (on_job_ok p _ j); [done|]. set (h1 := <[p := with_prev y j]> (heap s)).
    apply wp_bind, (on_job_ok y _ jy); [cbn; unfold h1; by rewrite lookup_insert_ne|]. apply wp_modify. cbn.
    set (h2 := <[y := with_next p jy]> h1).
    assert (linked h1 0 (ys ++ [y]) 0) as Hk1.
    { eapply linked_frame; [|exact Hk]. intros z Hz. apply lookup_insert_ne. by intros ->. }
    pose proof (linked_set_last h1 0 ys y p 0 jy _ Hk1 Hnd ltac:(unfold h1; by rewrite lookup_insert_ne) eq_refl) as Hk2.
    fold h2 in Hk2. split; [|split; [done|split; [done|]]].
    + split; cbn.
      * apply NoDup_app. split; [done|]. split; [set_solver|apply NoDup_singleton].
      * set_solver.
      * rewrite Hf. by destruct ys.
      * intros _. by rewrite tail_of_app.
      * apply linked_app. cbn [hd]. split; [exact Hk2|]. rewrite tail_of_app. unfold tail_of. cbn [List.last linked].
        exists (with_prev y j). unfold h2, h1. rewrite lookup_insert_ne, lookup_insert_eq by done. done.
    + intros q j0 Hq. unfold h2, h1. destruct (decide (q = y)) as [->|Hqy].
      * exists (with_next p jy). rewrite lookup_insert_eq. rewrite Hy in Hq. by injection Hq as <-.
      * rewrite lookup_insert_ne by done. destruct (decide (q = p)) as [->|Hqp]; [|exists j0; by rewrite lookup_insert_ne].
        exists (with_prev y j). rewrite lookup_insert_eq. rewrite Hj in Hq. by injection Hq as <-.
Qed.

(** ** Removing *)

(** Writing a field of the job at [z], if there is one. *)
Definition touch (z : Z) (f : job -> job) (h : gmap Z job) : gmap Z job :=
  if z =? 0 then h else match h !! z with Some j => <[z := f j]> h | None => h end.

Lemma touch_keeps z f h q j :
  (forall j, j_jid (f j) = j_jid j /\ j_fd (f j) = j_fd j) -> h !! q = Some j ->
  exists j', touch z f h !! q = Some j' /\ j_jid j' = j_jid j /\ j_fd j' = j_fd j.
Proof.
  intros Hf Hq. unfold touch. destruct (z =? 0); [by exists j|]. destruct (h !! z) as [jz|] eqn:Ez; [|by exists j].
  destruct (decide (q = z)) as [->|Hne]; [|exists j; by rewrite lookup_insert_ne].
  exists (f jz). rewrite lookup_insert_eq. rewrite Hq in Ez. injection Ez as <-. by destruct (Hf j).
Qed.

Lemma linked_remove h xs p ys j :
  linked h 0 (xs ++ p :: ys) 0 -> NoDup (xs ++ p :: ys) -> 0 ∉ xs ++ p :: ys -> h !! p = Some j ->
  let h1 := touch (j_prev j) (with_next (j_next j)) h in
  let h2 := touch (j_next j) (with_prev (j_prev j)) h1 in
  j_prev j = tail_of 0 xs /\ j_next j = hd 0 ys /\ (j_prev j <> 0 -> is_Some (h !! j_prev j)) /\ (j_next j <> 0 -> is_Some (h1 !! j_next j)) /\
  linked h2 0 (xs ++ ys) 0 /\ h2 !! p = Some j /\ forall q, q ∉ xs ++ ys -> h2 !! q = h !! q.
Proof.
  intros Hk Hnd H0 Hj h1 h2. apply linked_app in Hk as [Hx (j' & Hj' & Hp & Hn & Hy)]. rewrite Hj in Hj'. injection Hj' as <-.
  cbn [hd] in Hx. apply NoDup_app in Hnd as (Hndx & Hd & [Hpy Hndy]%NoDup_cons).
  assert (p ∉ xs) as Hpx by (intros H; apply (Hd p H); by left).
  assert (linked h1 0 xs (hd 0 ys) /\ (j_prev j <> 0 -> is_Some (h !! j_prev j)) /\ forall q, q ∉ xs -> h1 !! q = h !! q) as (Hx1 & Hs1 & Ho1).
  { unfold h1, touch. rewrite Hp. destruct xs as [|x xs _] using rev_ind; [by cbn|]. rewrite tail_of_app. unfold tail_of. cbn [List.last].
    destruct (Z.eqb_spec x 0) as [->|_]; [set_solver|].
    assert (exists jx, h !! x = Some jx) as [jx Hjx] by (apply linked_app in Hx as [_ (jx & Hjx & _)]; by exists jx). rewrite Hjx.
    split; [|split; [done|]].
    - rewrite Hn. by eapply linked_set_last.
    - intros q Hq. apply lookup_insert_ne. set_solver. }
  assert (linked h1 p ys 0) as Hy1.
  { eapply linked_frame; [|exact Hy]. intros z Hz. apply Ho1. intros H. apply (Hd z H). by right. }
  assert (linked h2 (tail_of 0 xs) ys 0 /\ (j_next j <> 0 -> is_Some (h1 !! j_next j)) /\ forall q, q ∉ ys -> h2 !! q = h1 !! q) as (Hy2 & Hs2 & Ho2).
  { unfold h2, touch. rewrite Hn. destruct ys as [|y ys]; [by cbn|]. cbn [hd]. destruct (Z.eqb_spec y 0) as [->|_]; [set_solver|].
    destruct Hy1 as (jy & Hjy & Hpy1 & Hny & Hys). rewrite Hjy. apply NoDup_cons in Hndy as [Hyy Hndy]. split; [|split; [done|]].
    - exists (with_prev (j_prev j) jy). rewrite lookup_insert_eq. split; [done|]. split; [by cbn; rewrite Hp|]. split; [done|].
      eapply linked_frame; [|exact Hys]. intros z Hz. apply lookup_insert_ne. by intros ->.
    - intros q Hq. apply lookup_insert_ne. set_solver. }
  split; [done|]. split; [done|]. split; [done|]. split; [done|]. split.
  - apply linked_app. split; [|done]. eapply linked_frame; [|exact Hx1]. intros z Hz. apply Ho2. intros H. apply (Hd z Hz). by right.
  - split; [by rewrite Ho2, Ho1|]. intros q Hq. rewrite Ho2, Ho1; [done|set_solver|set_solver].
Qed.

Lemma hd_is p (xs ys : list Z) : p ∉ xs -> (hd 0 (xs ++ p :: ys) =? p) = bool_decide (xs = []).
Proof.
  intros Hp. destruct xs as [|x xs]; cbn; [apply Z.eqb_refl|]. apply Z.eqb_neq. set_solver.
Qed.

Lemma tail_is p (xs ys : list Z) : p ∉ ys -> (tail_of 0 (xs ++ p :: ys) =? p) = bool_decide (ys = []).
Proof.
  intros Hp. rewrite tail_of_app. destruct ys as [|y ys _] using rev_ind; [apply Z.eqb_refl|].
  rewrite bool_decide_false by (by destruct ys). rewrite tail_of_app. apply Z.eqb_neq. cbn. set_solver.
Qed.

Lemma bind_ok {A B} (m : M shell A) (f : A -> M shell B) s a s' : m s = Ok a s' -> bind m f s = f a s'.
Proof. unfold bind. by intros ->. Qed.

Lemma on_job_run p f j s : heap s !! p = Some j -> on_job p f s = Ok tt (set_heap (<[p := f j]> (heap s)) s).
Proof. intros Hj. unfold on_job, bind, job_at, modify. by rewrite Hj. Qed.

(** The state [removeJobFromList] leaves. *)
Lemma remove_run p j s h1 h2 :
  heap s !! p = Some j -> p <> 0 -> j_prev j <> p -> j_next j <> p ->
  h1 = touch (j_prev j) (with_next (j_next j)) (heap s) -> h2 = touch (j_next j) (with_prev (j_prev j)) h1 ->
  (j_prev j <> 0 -> is_Some (heap s !! j_prev j)) -> (j_next j <> 0 -> is_Some (h1 !! j_next j)) ->
  removeJobFromList p s = Ok tt (Shell
    (if jl_first s =? p then (if jl_last s =? p then 0 else j_next j) else jl_first s)
    (if jl_last s =? p then j_prev j else jl_last s)
    (if jl_fgJob s =? p then 0 else jl_fgJob s) h2 (closed s)).
Proof.
  intros Hj Hp0 Hpp Hnp E1 E2 Hs1 Hs2. destruct s as [f l g h cl]; cbn [heap jl_first jl_last jl_fgJob closed] in *.
  assert (h1 !! p = Some j) as Hj1.
  { rewrite E1. unfold touch. destruct (j_prev j =? 0); [done|]. destruct (h !! j_prev j); [by rewrite lookup_insert_ne|done]. }
  assert (forall a l g h cl, h !! p = Some j -> job_at p (Shell a l g h cl) = Ok j (Shell a l g h cl)) as Hat.
  { intros a l' g0 h' cl' H. unfold job_at. cbn [heap]. by rewrite H. }
  unfold removeJobFromList. rewrite (bind_ok (gets id) _ _ _ _ eq_refl). cbn [jl_fgJob id]. set (g' := if g =? p then 0 else g).
  rewrite (bind_ok _ _ _ tt (Shell f l g' h cl)) by (unfold g'; by destruct (g =? p)).
  rewrite (bind_ok (gets id) _ _ _ _ eq_refl). cbn [jl_first jl_last id]. set (f1 := if (f =? p) && (l =? p) then 0 else f).
  rewrite (bind_ok _ _ _ tt (Shell f1 l g' h cl)) by (unfold f1; by destruct ((f =? p) && (l =? p))).
  rewrite (bind_ok (gets id) _ _ _ _ eq_refl), (bind_ok _ _ _ _ _ (Hat _ _ _ _ _ Hj)). cbn [jl_first id].
  set (f2 := if f =? p then (if l =? p then 0 else j_next j) else f).
  assert ((if f1 =? p then j_next j else f1) = f2) as Ef2.
  { unfold f1, f2. destruct (Z.eqb_spec f p) as [->|Hf]; cbn [andb]; [|by destruct (Z.eqb_spec f p)].
    destruct (l =? p); [destruct (Z.eqb_spec 0 p); congruence|by rewrite Z.eqb_refl]. }
  rewrite (bind_ok _ _ _ tt (Shell f2 l g' h cl)) by (rewrite <- Ef2; by destruct (f1 =? p)).
  rewrite (bind_ok (gets id) _ _ _ _ eq_refl), (bind_ok _ _ _ _ _ (Hat _ _ _ _ _ Hj)). cbn [jl_last id].
  set (l2 := if l =? p then j_prev j else l).
  rewrite (bind_ok _ _ _ tt (Shell f2 l2 g' h cl)) by (unfold l2; by destruct (l =? p)).
  rewrite (bind_ok _ _ _ _ _ (Hat _ _ _ _ _ Hj)), (bind_ok _ _ _ tt (Shell f2 l2 g' h1 cl)).
  2: { rewrite E1. unfold touch. destruct (Z.eqb_spec (j_prev j) 0) as [|Hne]; [done|]. destruct (Hs1 Hne) as [jp Hjp]. cbn [negb when].
       by rewrite (on_job_run _ _ jp), Hjp. }
  rewrite (bind_ok _ _ _ _ _ (Hat _ _ _ _ _ Hj1)), E2. unfold touch.
  destruct (Z.eqb_spec (j_next j) 0) as [|Hne]; [done|]. destruct (Hs2 Hne) as [jn Hjn]. cbn [negb when]. by rewrite (on_job_run _ _ jn), Hjn.
Qed.

Lemma remove_spec p xs ys s :
  joblist_is s (xs ++ p :: ys) ->
  wp (removeJobFromList p) (fun _ s' => joblist_is s' (xs ++ ys) /\
    jl_fgJob s' = (if jl_fgJob s =? p then 0 else jl_fgJob s) /\ closed s' = closed s /\
    (forall q, q ∉ xs ++ ys -> heap s' !! q = heap s !! q) /\
    (forall q j, heap s !! q = Some j -> exists j', heap s' !! q = Some j' /\ j_jid j' = j_jid j /\ j_fd j' = j_fd j)) s.
Proof.
  intros [Hnd H0 Hf Hl Hk]. assert (exists j, heap s !! p = Some j) as [j Hj].
  { apply linked_app in Hk as [_ (j & Hj & _)]. by exists j. }
  destruct (linked_remove _ _ _ _ _ Hk Hnd H0 Hj) as (Hp & Hn & Hs1 & Hs2 & Hk2 & _ & Ho).
  specialize (Hl ltac:(by destruct xs)). pose proof Hnd as (Hndx & Hd & [Hpy Hndy]%NoDup_cons)%NoDup_app.
  assert (p ∉ xs) as Hpx by (intros H; apply (Hd p H); by left).
  pose proof (hd_is p xs ys Hpx) as Eh. pose proof (tail_is p xs ys Hpy) as Et. rewrite <- Hf in Eh. rewrite <- Hl in Et.
  assert (p <> 0) as Hp0 by (intros ->; apply H0, elem_of_app; right; by left).
  assert (j_prev j <> p) as Hpp.
  { rewrite Hp. destruct xs as [|x xs _] using rev_ind; [cbn; congruence|]. rewrite tail_of_app. cbn. set_solver. }
  assert (j_next j <> p) as Hnp by (rewrite Hn; destruct ys; cbn; [congruence|set_solver]).
  apply wp_ok. eexists _, _. split; [by eapply remove_run|]. cbn [jl_fgJob closed heap]. split; [|split; [done|split; [done|split; [exact Ho|]]]].
  - split; cbn [jl_first jl_last heap].
    + apply NoDup_app. split; [done|]. split; [|done]. intros z Hz H. apply (Hd z Hz). by right.
    + set_solver.
    + rewrite Eh, Et. repeat case_bool_decide; subst; cbn [app hd]; try done; rewrite Hf; by destruct xs.
    + intros Hne. rewrite Et. case_bool_decide; subst; [by rewrite app_nil_r|]. rewrite Hl, tail_of_app.
      destruct ys as [|y ys]; [done|]. by rewrite tail_of_cons, tail_of_app.
    + exact Hk2.
  - intros q j0 Hq. destruct (touch_keeps (j_prev j) (with_next (j_next j)) (heap s) q j0) as (j1 & Hq1 & <- & <-); [done|done|].
    by apply touch_keeps.
Qed.

(** ** Clearing the finished jobs *)

Definition jid_of (s : shell) (x : Z) : Z := match heap s !! x with Some j => j_jid j | None => 0 end.
Definition fd_of (s : shell) (x : Z) : Z := match heap s !! x with Some j => j_fd j | None => 0 end.

Lemma clear_job_spec p j xs ys s :
  joblist_is s (xs ++ p :: ys) ->
  wp (clear_job p j) (fun _ s' => joblist_is s' (xs ++ ys) /\
    jl_fgJob s' = (if jl_fgJob s =? p then 0 else jl_fgJob s) /\ closed s' = closed s ++ [j_fd j] /\
    (forall q, q ∉ xs ++ ys -> heap s' !! q = heap s !! q) /\
    (forall q j, heap s !! q = Some j -> exists j', heap s' !! q = Some j' /\ j_jid j' = j_jid j /\ j_fd j' = j_fd j)) s.
Proof.
  intros Hs. unfold clear_job. apply wp_bind, wp_modify. eapply wp_mono; [apply (remove_spec p xs ys)|by intros [] s'].
  destruct Hs. by split.
Qed.

Section Clear.
  Context (finished : Z -> bool).

(** The jobs of [xs] that are finished, and the others. *)
Definition done_jobs (s : shell) (xs : list Z) : list Z := filter (fun x => finished (jid_of s x) = true) xs.
Definition live_jobs (s : shell) (xs : list Z) : list Z := filter (fun x => finished (jid_of s x) = false) xs.

Lemma done_cons s x xs : done_jobs s (x :: xs) = if finished (jid_of s x) then x :: done_jobs s xs else done_jobs s xs.
Proof. unfold done_jobs. rewrite filter_cons. by destruct (finished (jid_of s x)). Qed.

Lemma live_cons s x xs : live_jobs s (x :: xs) = if finished (jid_of s x) then live_jobs s xs else x :: live_jobs s xs.
Proof. unfold live_jobs. rewrite filter_cons. by destruct (finished (jid_of s x)). Qed.

Lemma live_ext s s' xs : (forall x, x ∈ xs -> jid_of s' x = jid_of s x /\ fd_of s' x = fd_of s x) ->
  live_jobs s' xs = live_jobs s xs /\ (fd_of s' <$> done_jobs s' xs) = (fd_of s <$> done_jobs s xs) /\ done_jobs s' xs = done_jobs s xs.
Proof.
  induction xs as [|x xs IH]; intros H; [done|]. destruct (H x) as [Ej Ef]; [by left|].
  destruct IH as (IH1 & IH2 & IH3); [intros y Hy; apply H; by right|]. rewrite !done_cons, !live_cons, Ej, IH1, IH3.
  rewrite IH3 in IH2. split; [done|]. split; [|done]. destruct (finished _); [|done]. cbn. by rewrite Ef, IH2.
Qed.

Lemma keeps_ids s s' x j : heap s !! x = Some j ->
  (exists j', heap s' !! x = Some j' /\ j_jid j' = j_jid j /\ j_fd j' = j_fd j) -> jid_of s' x = jid_of s x /\ fd_of s' x = fd_of s x.
Proof. intros Hj (j' & Hj' & E1 & E2). unfold jid_of, fd_of. by rewrite Hj, Hj'. Qed.

Lemma clear_loop_spec rest pre fuel s :
  joblist_is s (pre ++ rest) -> (length rest < fuel)%nat ->
  wp (clear_loop fuel finished (hd 0 rest)) (fun _ s' => joblist_is s' (pre ++ live_jobs s rest) /\
    closed s' = closed s ++ (fd_of s <$> done_jobs s rest) /\
    jl_fgJob s' = if decide (jl_fgJob s ∈ done_jobs s rest) then 0 else jl_fgJob s) s.
Proof.
  revert pre fuel s. induction rest as [|x rest IH]; intros pre fuel s Hs Hf; destruct fuel as [|fuel]; [cbn in Hf; lia| |cbn in Hf; lia|].
  - cbn. unfold ret, wp. split; [done|]. by rewrite app_nil_r, decide_False by (by intros ?%elem_of_nil).
  - pose proof Hs as [Hnd H0 _ _ Hk]. cbn [hd clear_loop length] in *.
    assert (x <> 0) as Hx0 by set_solver. destruct (Z.eqb_spec x 0) as [|_]; [done|].
    assert (exists j, heap s !! x = Some j /\ j_next j = hd 0 rest) as (j & Hj & Hn).
    { apply linked_app in Hk as [_ (j & Hj & _ & Hn & _)]. by exists j. }
    assert (forall y, y ∈ rest -> is_Some (heap s !! y)) as Hrest.
    { intros y Hy. apply list_elem_of_split in Hy as (l1 & l2 & ->). apply linked_app in Hk as [_ (_ & _ & _ & _ & Hk)].
      apply linked_app in Hk as [_ (jy & Hjy & _)]. by exists jy. }
    assert (jid_of s x = j_jid j /\ fd_of s x = j_fd j) as [Ej Ef] by (unfold jid_of, fd_of; by rewrite Hj).
    apply wp_bind, (job_at_ok x j); [done|]. rewrite !done_cons, !live_cons, Ej.
    apply wp_bind, wp_when; intros Hfin; rewrite Hfin.
    + cbn [fmap list_fmap]. rewrite Ef.
      eapply wp_mono; [by apply (clear_job_spec x j pre rest)|]. intros [] s1 (Hs1 & Hg1 & Hc1 & Ho1 & Hi1).
      apply wp_bind, (job_at_ok x j).
      { rewrite Ho1; [done|]. apply NoDup_app in Hnd as (_ & Hd & [Hxr _]%NoDup_cons). intros [H|H]%elem_of_app; [|done]. apply (Hd x H). by left. }
      rewrite Hn. eapply wp_mono; [apply (IH pre fuel s1 Hs1); lia|]. intros [] s2 (H1 & H2 & H3).
      destruct (live_ext s s1 rest) as (E1 & E2 & E3).
      { intros y Hy. destruct (Hrest y Hy) as [jy Hjy]. by eapply keeps_ids, Hi1. }
      rewrite E1 in H1. split; [done|]. rewrite E2, Hc1, <- app_assoc in H2. split; [done|]. rewrite H3, E3, Hg1.
      destruct (Z.eqb_spec (jl_fgJob s) x) as [->|Hne].
      * rewrite (decide_True (P := x ∈ x :: _)) by (by left). by destruct (decide (0 ∈ _)).
      * destruct (decide (jl_fgJob s ∈ x :: _)) as [Hin|Hout]; [rewrite decide_True by set_solver|rewrite decide_False by set_solver]; done.
    + apply wp_bind, (job_at_ok x j); [done|]. rewrite Hn. eapply wp_mono; [apply (IH (pre ++ [x]) fuel s); [by rewrite <- app_assoc|lia]|].
      intros [] s2 (H1 & H2 & H3). rewrite <- app_assoc in H1. done.
Qed.

Lemma clear_spec xs fuel s :
  joblist_is s xs -> (length xs < fuel)%nat ->
  wp (clearFinishedJobs fuel finished) (fun _ s' => joblist_is s' (live_jobs s xs) /\
    closed s' = closed s ++ (fd_of s <$> done_jobs s xs) /\
    jl_fgJob s' = if decide (jl_fgJob s ∈ done_jobs s xs) then 0 else jl_fgJob s) s.
Proof.
  intros Hs Hf. unfold clearFinishedJobs. apply wp_bind, wp_gets. unfold id. rewrite (ji_first _ _ Hs).
  by apply (clear_loop_spec xs []).
Qed.

End Clear.

(** ** The commands of the shell *)

Lemma list_jobs_spec xs p fuel s :
  linked (heap s) p xs 0 -> 0 ∉ xs -> (length xs < fuel)%nat ->
  wp (list_jobs fuel (hd 0 xs)) (fun l s' => s' = s /\ l = jid_of s <$> xs) s.
Proof.
  revert p fuel. induction xs as [|x xs IH]; intros p fuel Hk H0 Hf; destruct fuel as [|fuel]; try (cbn in Hf; lia); cbn [hd list_jobs].
  - by apply wp_ret.
  - destruct Hk as (j & Hj & _ & Hn & Hk). destruct (Z.eqb_spec x 0) as [|_]; [set_solver|].
    apply wp_bind, (job_at_ok x j); [done|]. apply wp_bind. rewrite Hn.
    eapply wp_mono; [apply (IH x fuel Hk); [set_solver|cbn in Hf; lia]|]. intros l s' [-> ->]. apply wp_ret. split; [done|].
    cbn. unfold jid_of at 2. by rewrite Hj.
Qed.

(** [fg] finds the first job with the number, or none. *)
Lemma find_job_spec xs p fuel jid s :
  linked (heap s) p xs 0 -> 0 ∉ xs -> (length xs < fuel)%nat ->
  wp (find_job fuel jid (hd 0 xs)) (fun r s' => s' = s /\ r = hd 0 (filter (fun x => jid_of s x = jid) xs)) s.
Proof.
  revert p fuel. induction xs as [|x xs IH]; intros p fuel Hk H0 Hf; destruct fuel as [|fuel]; try (cbn in Hf; lia); cbn [hd find_job].
  - by apply wp_ret.
  - destruct Hk as (j & Hj & _ & Hn & Hk). destruct (Z.eqb_spec x 0) as [|_]; [set_solver|].
    apply wp_bind, (job_at_ok x j); [done|]. assert (jid_of s x = j_jid j) as Ej by (unfold jid_of; by rewrite Hj).
    rewrite filter_cons, Ej. destruct (Z.eqb_spec (j_jid j) jid) as [E|E].
    + rewrite decide_True by done. by apply wp_ret.
    + rewrite decide_False by done. rewrite Hn. apply (IH x fuel Hk); [set_solver|cbn in Hf; lia].
Qed.

Lemma joblist_fg s xs p : joblist_is s xs -> joblist_is (set_fgJob p s) xs.
Proof. by intros []. Qed.

(** A new job is the last of the list. *)
Lemma start_job_spec p jid fd command xs s :
  joblist_is s xs -> p <> 0 -> p ∉ xs ->
  wp (start_job p jid fd command) (fun _ s' => joblist_is s' (xs ++ [p]) /\ jid_of s' p = jid /\ fd_of s' p = fd /\
    jl_fgJob s' = match command with BACK _ => jl_fgJob s | _ => p end /\ closed s' = closed s /\
    forall q, q ∈ xs -> jid_of s' q = jid_of s q /\ fd_of s' q = fd_of s q) s.
Proof.
  intros Hs Hp Hin. unfold start_job. apply wp_bind, wp_modify. set (h := <[p := _]> (heap s)).
  assert (h !! p = Some (Job jid fd 0 0)) as Hj by apply lookup_insert_eq.
  assert (joblist_is (set_heap h s) xs) as Hs1.
  { destruct Hs as [H1 H2 H3 H4 H5]. split; try done. eapply linked_frame; [|exact H5]. intros x Hx. apply lookup_insert_ne. by intros ->. }
  assert (forall s2, joblist_is s2 xs -> heap s2 = h -> wp (addJobToList p) (fun _ s' => joblist_is s' (xs ++ [p]) /\ jid_of s' p = jid /\ fd_of s' p = fd /\
    jl_fgJob s' = jl_fgJob s2 /\ closed s' = closed s2 /\ forall q, q ∈ xs -> jid_of s' q = jid_of s q /\ fd_of s' q = fd_of s q) s2) as Hadd.
  { intros s2 Hs2 Eh. eapply wp_mono; [apply (add_spec p (Job jid fd 0 0) xs s2 Hs2); try done; by rewrite Eh|].
    intros [] s3 (H1 & H2 & H3 & H4). split; [done|]. destruct (H4 p (Job jid fd 0 0)) as (j' & Hj' & E1 & E2); [by rewrite Eh|].
    split; [unfold jid_of; by rewrite Hj'|]. split; [unfold fd_of; by rewrite Hj'|]. split; [done|]. split; [done|]. intros q Hq.
    destruct (linked_lookup _ _ _ _ q (ji_links _ _ Hs) Hq) as [jq Hjq]. eapply keeps_ids; [exact Hjq|]. apply H4. rewrite Eh.
    unfold h. rewrite lookup_insert_ne; [done|]. by intros ->. }
  apply wp_bind. destruct command.
  1-4: apply wp_modify, (Hadd (set_fgJob p (set_heap h s))); [by apply joblist_fg|done].
  by apply wp_ret, (Hadd (set_heap h s)).
Qed.

(** The end of the input of a foreground job closes the pipe to the job, and the
    job's end closes the same descriptor once more. *)
Lemma fg_pipe_closed_twice p j s finished :
  joblist_is s [p] -> heap s !! p = Some j -> jl_fgJob s = p -> closed s = [] -> finished (j_jid j) = true ->
  wp (getcmd [] ;;; clearFinishedJobs 2 finished) (fun _ s' => closed s' = [j_fd j; j_fd j]) s.
Proof.
  intros Hs Hj Hg Hc Hfin. pose proof (ji_null _ _ Hs) as H0. apply wp_bind. unfold getcmd. apply wp_bind, wp_gets.
  change (deref [] =? 0) with true. cbv iota. unfold id. rewrite Hg. destruct (Z.eqb_spec p 0) as [|_]; [set_solver|]. cbn [negb].
  apply wp_bind, (job_at_ok p j); [done|]. apply wp_bind, wp_modify, wp_bind, wp_modify, wp_ret.
  eapply wp_mono; [apply (clear_spec finished [p]); [|cbn; lia]|].
  { destruct Hs. by split. }
  intros [] s' (_ & -> & _). cbn [closed set_fgJob add_closed]. rewrite Hc, done_cons. unfold jid_of, fd_of. cbn [heap set_fgJob add_closed].
  rewrite Hj, Hfin. cbn. by rewrite Hj.
Qed.

(** The end of the input of a foreground job also starts a job of the empty line:
    [getcmd] answers 0 and not -1, and an empty line is not a newline. *)
Lemma eof_starts_job s xs finished fuel :
  joblist_is s xs -> jl_fgJob s ∈ xs -> (length xs < fuel)%nat ->
  wp (getcmd [] ;;; clearFinishedJobs fuel finished ;;; choose fuel []) (fun a _ => a = Start []) s.
Proof.
  intros Hs Hg Hf. destruct (linked_lookup _ _ _ _ _ (ji_links _ _ Hs) Hg) as [j Hj]. pose proof (ji_null _ _ Hs) as H0.
  apply wp_bind. unfold getcmd. apply wp_bind, wp_gets. change (deref [] =? 0) with true. cbv iota. unfold id.
  destruct (Z.eqb_spec (jl_fgJob s) 0) as [E|_]; [by rewrite E in Hg|]. cbn [negb].
  apply wp_bind, (job_at_ok _ j); [done|]. apply wp_bind, wp_modify, wp_bind, wp_modify, wp_ret, wp_bind.
  eapply wp_mono; [apply (clear_spec finished xs); [by destruct Hs|done]|]. intros [] s' (_ & _ & E). cbn [jl_fgJob set_fgJob] in E.
  assert (jl_fgJob s' = 0) as E' by (by case_decide). unfold choose. apply wp_bind, wp_gets. unfold id. rewrite E'. by apply wp_ret.
Qed.
