(* ===== verification/Utils.v ===== *)
(** * The small user programs: [cat.c], [wc.c], [echo.c] and [fmtname] of [ls.c]

    What a descriptor delivers is a list of [read] results; what is written is
    the list of its bytes. *)

From S2P Require Import Prelude Bytes Params Ulib.

(** The result of a [read]: the bytes, none at the end of the file, or an
    error. *)
Inductive read_result : Type :=
  | Data (l : list Z)
  | Error.

(** ** [cat] *)

(** What is written, and whether [read] failed. *)
Fixpoint cat (input : list read_result) : list Z * bool :=
  match input with
  | Data (c :: l) :: rest => let '(out, e) := cat rest in ((c :: l) ++ out, e)
  | Error :: _ => (chars "cat: read error" ++ [10], true)
  | _ => ([], false)
  end.

(** ** [wc] *)

Definition wc_space : list Z := [32; 13; 9; 10; 11].

Record counts : Type := Counts { lines : Z; words : Z; bytes : Z; inword : bool }.

(** The body of the [for] loop. *)
Definition wc_byte (n : counts) (ch : Z) : counts :=
  let c := s32 (bytes n + 1) in
  let l := if ch =? 10 then s32 (lines n + 1) else lines n in
  match strchr wc_space ch with
  | Some _ => Counts l (words n) c false
  | None => if inword n then Counts l (words n) c true else Counts l (s32 (words n + 1)) c true
  end.

(** The [while] loop; [None] when [read] failed. *)
Fixpoint wc_loop (n : counts) (input : list read_result) : option counts :=
  match input with
  | Data (c :: l) :: rest => wc_loop (foldl wc_byte n (c :: l)) rest
  | Error :: _ => None
  | _ => Some n
  end.

(** What [wc] prints; the string at address [name] is the file's name. *)
Definition wc (str : Z -> list Z) (name : Z) (input : list read_result) : option (list Z) :=
  match wc_loop (Counts 0 0 0 false) input with
  | None => Some (chars "wc: read error" ++ [10])
  | Some n =>
      printf str (chars "%d %d %d %s" ++ [10])
        (fun i => match i with O => lines n | S O => words n | S (S O) => bytes n | _ => name end)
  end.

(** ** [echo] *)

Fixpoint echo (args : list (list Z)) : list Z :=
  match args with
  | [] => []
  | a :: args' => a ++ (if decide (args' = []) then [10] else [32]) ++ echo args'
  end.

(** ** [fmtname] *)

(** The loop that goes backwards from the end of the path: [n] characters are
    before [p]; the result is [p - path + 1]. *)
Fixpoint after_slash (path : list Z) (n : nat) : nat :=
  match n with
  | O => if nth 0 path 0 =? 47 then 1%nat else 0%nat
  | S n' => if nth n path 0 =? 47 then S n else after_slash path n'
  end.

Definition fmtname (path : list Z) : list Z :=
  let p := drop (after_slash path (length path)) path in
  if Z.of_nat DIRSIZ <=? strlen p then p
  else p ++ replicate (Z.to_nat (Z.of_nat DIRSIZ - strlen p)) 32.

(** ** What they do *)

(** The bytes delivered up to the end of the file or the first error. *)
Fixpoint delivered (input : list read_result) : list Z * bool :=
  match input with
  | Data (c :: l) :: rest => let '(out, e) := delivered rest in ((c :: l) ++ out, e)
  | Error :: _ => ([], true)
  | _ => ([], false)
  end.

(** [cat] copies, however the input is cut into pieces. *)
Lemma cat_spec input :
  cat input = let '(l, e) := delivered input in (l ++ if e then chars "cat: read error" ++ [10] else [], e).
Proof.
  induction input as [|[[|c l]|] input IH]; try done. cbn [cat delivered]. rewrite IH. destruct (delivered input) as [l' e].
  by rewrite app_assoc.
Qed.

(** The words of a text: the longest pieces without white space. *)
Fixpoint split_words (l : list Z) : list (list Z) :=
  match l with
  | [] => []
  | c :: l' =>
      if bool_decide (c ∈ wc_space) then split_words l'
      else match l' with
           | [] => [[c]]
           | d :: _ => if bool_decide (d ∈ wc_space) then [c] :: split_words l'
                       else match split_words l' with w :: ws => (c :: w) :: ws | [] => [[c]] end
           end
  end.

Lemma wc_space_test c : match strchr wc_space c with Some _ => true | None => false end = bool_decide (c ∈ wc_space).
Proof.
  destruct (strchr wc_space c) as [t|] eqn:E.
  - apply strchr_Some in E as (pre & t' & -> & Ep & _). symmetry. apply bool_decide_eq_true. rewrite Ep. apply elem_of_app. right. by left.
  - apply strchr_None in E. symmetry. by apply bool_decide_eq_false.
Qed.

(** The words that begin in [l], behind a word or not. *)
Definition new_words (inword : bool) (l : list Z) : nat :=
  match l with
  | c :: _ => if inword && negb (bool_decide (c ∈ wc_space)) then pred (length (split_words l)) else length (split_words l)
  | [] => 0%nat
  end.

Lemma split_words_cons c l :
  length (split_words (c :: l)) = if bool_decide (c ∈ wc_space) then length (split_words l) else S (new_words true l).
Proof.
  cbn [split_words]. case_bool_decide as Hc; [done|]. destruct l as [|d l]; [done|]. cbn [new_words andb].
  destruct (bool_decide (d ∈ wc_space)) eqn:Ed; [done|]. cbn [negb]. by destruct (split_words (d :: l)) eqn:E.
Qed.

Lemma new_words_cons b c l : new_words b (c :: l) =
  if bool_decide (c ∈ wc_space) then new_words false l else ((if b then 0 else 1) + new_words true l)%nat.
Proof.
  unfold new_words at 1. pose proof (split_words_cons c l) as Hs. destruct (bool_decide (c ∈ wc_space)) eqn:Ec.
  - rewrite andb_false_r, Hs. by destruct l.
  - rewrite andb_true_r, Hs. by destruct b.
Qed.

Lemma wc_fold l n :
  0 <= lines n -> 0 <= words n -> 0 <= bytes n ->
  lines n + Z.of_nat (length l) < 2 ^ 31 -> words n + Z.of_nat (length l) < 2 ^ 31 -> bytes n + Z.of_nat (length l) < 2 ^ 31 ->
  exists b, foldl wc_byte n l = Counts (lines n + Z.of_nat (length (filter (fun c => c = 10) l)))
    (words n + Z.of_nat (new_words (inword n) l)) (bytes n + Z.of_nat (length l)) b.
Proof.
  revert n. induction l as [|c l IH]; intros n H1 H2 H3 B1 B2 B3; cbn [foldl].
  - exists (inword n). destruct n; cbn. f_equal; lia.
  - cbn [length] in *. rewrite filter_cons, new_words_cons, <- wc_space_test. unfold wc_byte at 2. rewrite !s32_small by lia.
    set (l1 := if c =? 10 then lines n + 1 else lines n).
    assert (l1 + Z.of_nat (length (filter (fun c => c = 10) l)) =
      lines n + Z.of_nat (length (if decide (c = 10) then c :: filter (fun c => c = 10) l else filter (fun c => c = 10) l))) as El.
    { unfold l1. destruct (Z.eqb_spec c 10); [rewrite decide_True by done|rewrite decide_False by done]; cbn [length]; lia. }
    assert (lines n <= l1 <= lines n + 1) as Hl by (unfold l1; destruct (c =? 10); lia).
    rewrite <- El. destruct (strchr wc_space c); [|destruct (inword n)].
    + edestruct (IH (Counts l1 (words n) (bytes n + 1) false)) as [b E]; cbn; try lia. exists b. rewrite E. cbn. f_equal; lia.
    + edestruct (IH (Counts l1 (words n) (bytes n + 1) true)) as [b E]; cbn; try lia. exists b. rewrite E. cbn. f_equal; lia.
    + edestruct (IH (Counts l1 (words n + 1) (bytes n + 1) true)) as [b E]; cbn; try lia. exists b. rewrite E. cbn. f_equal; lia.
Qed.

Lemma wc_loop_spec input n :
  wc_loop n input = let '(l, e) := delivered input in if e then None else Some (foldl wc_byte n l).
Proof.
  revert n. induction input as [|[[|c l]|] input IH]; intros n; try done. cbn [wc_loop delivered]. rewrite IH.
  destruct (delivered input) as [l' []]; [done|]. by rewrite foldl_app.
Qed.

(** The counts, however the input is cut into pieces. *)
Lemma wc_counts_spec input l :
  delivered input = (l, false) -> Z.of_nat (length l) < 2 ^ 31 ->
  exists b, wc_loop (Counts 0 0 0 false) input =
    Some (Counts (Z.of_nat (length (filter (fun c => c = 10) l))) (Z.of_nat (length (split_words l))) (Z.of_nat (length l)) b).
Proof.
  intros E Hl. rewrite wc_loop_spec, E. destruct (wc_fold l (Counts 0 0 0 false)) as [b ->]; cbn; try lia.
  exists b. f_equal. f_equal. by destruct l.
Qed.

(** [fmtname] is the last component of the path, padded with blanks. *)
Lemma after_slash_spec path n :
  (n <= length path)%nat ->
  (after_slash path n <= S n)%nat /\ (forall i, (after_slash path n <= i <= n)%nat -> nth i path 0 <> 47) /\
  (after_slash path n = 0%nat \/ nth (pred (after_slash path n)) path 0 = 47).
Proof.
  induction n as [|n IH]; intros Hn; cbn [after_slash].
  - destruct (Z.eqb_spec (nth 0 path 0) 47); cbn.
    + split; [lia|]. split; [lia|by right].
    + split; [lia|]. split; [|by left]. intros i Hi. by replace i with 0%nat by lia.
  - destruct (Z.eqb_spec (nth (S n) path 0) 47).
    + split; [lia|]. split; [lia|by right].
    + destruct IH as (H1 & H2 & H3); [lia|]. split; [lia|]. split; [|done]. intros i Hi.
      destruct (decide (i = S n)) as [->|]; [done|]. apply H2. lia.
Qed.

Lemma fmtname_spec dir name :
  47 ∉ name -> Z.of_nat (length name) < 2 ^ 32 -> (dir = [] \/ List.last dir 0 = 47) ->
  fmtname (dir ++ name) = name ++ replicate (Z.to_nat (Z.of_nat DIRSIZ - Z.of_nat (length name))) 32.
Proof.
  intros Hn Hl Hd. unfold fmtname. destruct (after_slash_spec (dir ++ name) (length (dir ++ name)) ltac:(lia)) as (H1 & H2 & H3).
  set (k := after_slash _ _) in *. assert (k = length dir) as Ek.
  { rewrite length_app in H1, H2. destruct (decide (k < length dir)%nat) as [Hlt|Hge].
    - exfalso. destruct Hd as [->|Hd]; [cbn in Hlt; lia|]. destruct dir as [|x dir _] using rev_ind; [cbn in Hlt; lia|].
      rewrite last_last in Hd. subst x. rewrite length_app in *. cbn [length] in *.
      apply (H2 (length dir)); [lia|]. by rewrite <- app_assoc, app_nth2, Nat.sub_diag by lia.
    - destruct (decide (k = length dir)) as [|Hne]; [done|]. exfalso. destruct H3 as [H3|H3]; [lia|].
      rewrite app_nth2 in H3 by lia. destruct (decide (pred k - length dir < length name)%nat) as [Hlt|Hov]; [|rewrite nth_overflow in H3 by lia; done].
      apply Hn. rewrite <- H3. destruct (lookup_lt_is_Some_2 _ _ Hlt) as [c Hc]. rewrite (nth_lookup_Some _ _ _ _ Hc). by eapply list_elem_of_lookup_2. }
  rewrite Ek, drop_app_length, strlen_length by done. destruct (Z.leb_spec (Z.of_nat DIRSIZ) (Z.of_nat (length name))); [|done].
  replace (Z.to_nat (Z.of_nat DIRSIZ - _)) with 0%nat by lia. by rewrite app_nil_r.
Qed.
