(* ===== verification/Umalloc.v ===== *)
(** * The user-level allocator ([umalloc.c])

    Addresses are counted in units of [sizeof(Header)], 8 bytes, which all
    headers are aligned to.  The memory is that of the headers: for every unit
    the two fields a header at that unit has.  [sbrk] gives the units from the
    break on as long as the limit allows. *)

From Stdlib Require Import Sorted.
From S2P Require Import Prelude Bytes.

Record heap : Type := Heap {
  h_ptr : Z -> Z;     (* [s.ptr] *)
  h_size : Z -> Z;    (* [s.size] *)
  freep : Z;          (* 0 before the first call *)
  brk : Z;
  limit : Z
}.

Definition upd (f : Z -> Z) (a v : Z) : Z -> Z := fun x => if x =? a then v else f x.

Definition set_ptr (a v : Z) (h : heap) : heap := Heap (upd (h_ptr h) a v) (h_size h) (freep h) (brk h) (limit h).
Definition set_size (a v : Z) (h : heap) : heap := Heap (h_ptr h) (upd (h_size h) a v) (freep h) (brk h) (limit h).
Definition set_freep (v : Z) (h : heap) : heap := Heap (h_ptr h) (h_size h) v (brk h) (limit h).
Definition set_brk (v : Z) (h : heap) : heap := Heap (h_ptr h) (h_size h) (freep h) v (limit h).

Section Malloc.
  (** The address of [base], a static variable. *)
  Variable base : Z.

(** The loop that looks for the place of [bp] in the list. *)
Fixpoint free_loop (fuel : nat) (bp p : Z) : M heap Z :=
  match fuel with
  | O => fun _ => Fuel
  | S fuel' =>
      let! h := gets id in
      let q := h_ptr h p in
      if (p <? bp) && (bp <? q) then ret p
      else if (q <=? p) && ((p <? bp) || (bp <? q)) then ret p
      else free_loop fuel' bp q
  end.

(** [bp] linked in behind [p], and joined with its neighbours where it touches
    them. *)
Definition free_link (bp p : Z) : M heap unit :=
  let! h := gets id in
  (if bp + h_size h bp =? h_ptr h p then
     modify (set_size bp (u32 (h_size h bp + h_size h (h_ptr h p)))) ;;;
     modify (set_ptr bp (h_ptr h (h_ptr h p)))
   else modify (set_ptr bp (h_ptr h p))) ;;;
  let! h := gets id in
  (if p + h_size h p =? bp then
     modify (set_size p (u32 (h_size h p + h_size h bp))) ;;;
     modify (set_ptr p (h_ptr h bp))
   else modify (set_ptr p bp)) ;;;
  modify (set_freep p).

(** [ap] points behind the header. *)
Definition free (fuel : nat) (ap : Z) : M heap unit :=
  let bp := ap - 1 in
  let! h := gets id in
  let! p := free_loop fuel bp (freep h) in
  free_link bp p.

(** [sbrk(n)], [n] in bytes: the old break, or -1.  A negative [n] gives memory
    back, as [growproc] does. *)
Definition sbrk (n : Z) : M heap Z :=
  let! h := gets id in
  if 0 <=? n then
    (if brk h + n / 8 <=? limit h then
       modify (set_brk (brk h + n / 8)) ;;;
       ret (brk h)
     else ret (-1))
  else
    let newsz := u32 (8 * brk h + n) in
    if 8 * brk h <=? newsz then ret (brk h)
    else if newsz =? 0 then ret (-1)
    else
      modify (set_brk (newsz / 8)) ;;;
      ret (brk h).

Definition morecore (fuel : nat) (nu : Z) : M heap Z :=
  let nu := if nu <? 4096 then 4096 else nu in
  let! p := sbrk (s32 (u32 (nu * 8))) in
  if p =? -1 then ret 0
  else
    modify (set_size p nu) ;;;
    free fuel (p + 1) ;;;
    gets freep.

(** The block at [p], which has [nunits] units or more, is taken: all of it or
    its end. *)
Definition take_block (nunits prevp p : Z) : M heap Z :=
  let! h := gets id in
  if h_size h p =? nunits then
    modify (set_ptr prevp (h_ptr h p)) ;;;
    modify (set_freep prevp) ;;;
    ret (p + 1)
  else
    let n := u32 (h_size h p - nunits) in
    modify (set_size p n) ;;;
    modify (set_size (p + n) nunits) ;;;
    modify (set_freep prevp) ;;;
    ret (p + n + 1).

(** The loop of [malloc]; [fuel] bounds the loops of [free] too. *)
Fixpoint malloc_loop (fuel : nat) (nunits prevp p : Z) : M heap Z :=
  match fuel with
  | O => fun _ => Fuel
  | S fuel' =>
      let! h := gets id in
      if nunits <=? h_size h p then take_block nunits prevp p
      else if p =? freep h then
        let! p := morecore fuel' nunits in
        if p =? 0 then ret 0
        else
          let! h := gets id in
          malloc_loop fuel' nunits p (h_ptr h p)
      else malloc_loop fuel' nunits p (h_ptr h p)
  end.

Definition malloc (fuel : nat) (nbytes : Z) : M heap Z :=
  let nunits := u32 (u32 (nbytes + 8 - 1) / 8 + 1) in
  let! h := gets id in
  (if freep h =? 0 then
     modify (set_freep base) ;;;
     modify (set_ptr base base) ;;;
     modify (set_size base 0)
   else ret tt) ;;;
  let! h := gets id in
  malloc_loop fuel nunits (freep h) (h_ptr h (freep h)).

(** ** The free list *)

(** Following the pointers from [x] leads through [ys] to [z]. *)
Fixpoint path (ptr : Z -> Z) (x : Z) (ys : list Z) (z : Z) : Prop :=
  match ys with
  | [] => ptr x = z
  | y :: ys' => ptr x = y /\ path ptr y ys' z
  end.

Lemma path_app ptr x l y r z : path ptr x (l ++ y :: r) z <-> path ptr x l y /\ path ptr y r z.
Proof. revert x. induction l as [|a l IH]; intros x; cbn; [done|]. rewrite IH. tauto. Qed.

Lemma path_frame ptr ptr' x ys z : (forall a, a ∈ x :: ys -> ptr' a = ptr a) -> path ptr x ys z -> path ptr' x ys z.
Proof.
  revert x. induction ys as [|y ys IH]; intros x He H; cbn in *; [by rewrite He by (by left)|].
  destruct H as [H1 H2]. split; [by rewrite He by (by left)|]. apply IH; [|done]. intros a Ha. apply He. by right.
Qed.

Definition increasing : list Z -> Prop := StronglySorted Z.lt.

(** The free list: the pointers of the nodes [xs], which are in the order of
    their addresses and begin with [base], lead from one to the next and from the
    last back to [base]. *)
Record ring (ptr : Z -> Z) (xs : list Z) : Prop := {
  ring_base : exists ys, xs = base :: ys /\ path ptr base ys base;
  ring_sorted : increasing xs
}.

(** The division of the heap, the units from [lo] to [top], into the free blocks
    [xs] and the blocks in use [A], with their sizes in units, headers included.
    [base] is an empty block below the heap. *)
Record layout (size : Z -> Z) (xs : list Z) (A : gmap Z Z) (lo top : Z) : Prop := {
  lay_empty : size base = 0;
  lay_base : base < lo;
  lay_free : forall x, x ∈ xs -> x = base \/ lo <= x /\ 0 < size x /\ x + size x <= top;
  lay_apart : forall x y, x ∈ xs -> y ∈ xs -> x < y -> x + size x <= y;
  lay_used : forall b n, A !! b = Some n -> lo <= b /\ 0 < n /\ b + n <= top /\ size b = n;
  lay_used_apart : forall b n c m, A !! b = Some n -> A !! c = Some m -> b < c -> b + n <= c;
  lay_free_used : forall x b n, x ∈ xs -> A !! b = Some n -> x + size x <= b \/ b + n <= x;
  lay_all : forall u, lo <= u < top ->
    (exists x, x ∈ xs /\ x <= u < x + size x) \/ (exists b n, A !! b = Some n /\ b <= u < b + n)
}.

Record blocks (h : heap) (xs : list Z) (A : gmap Z Z) (lo : Z) : Prop := {
  bl_ring : ring (h_ptr h) xs;
  bl_layout : layout (h_size h) xs A lo (brk h);
  bl_range : 0 < base /\ lo <= brk h <= limit h /\ limit h <= 2 ^ 28
}.

(** Two heaps whose headers agree field by field. *)
Record same_heap (h h' : heap) : Prop := {
  sh_ptr : forall a, h_ptr h' a = h_ptr h a;
  sh_size : forall a, h_size h' a = h_size h a;
  sh_brk : brk h' = brk h;
  sh_limit : limit h' = limit h
}.

#[global] Instance ring_proper : Proper (pointwise_relation Z eq ==> eq ==> impl) ring.
Proof.
  intros p p' Hp xs ? <- [(ys & -> & H) Hs]. split; [|done]. exists ys. split; [done|].
  apply (path_frame p); [|done]. intros a _. by rewrite Hp.
Qed.

#[global] Instance layout_proper : Proper (pointwise_relation Z eq ==> eq ==> eq ==> eq ==> eq ==> impl) layout.
Proof.
  intros f g Hf xs ? <- A ? <- lo ? <- top ? <- [L1 L2 L3 L4 L5 L6 L7 L8]. split; try done; rewrite <-?Hf; try done.
  - intros x Hx. rewrite <-Hf. by apply L3.
  - intros x y. rewrite <-Hf. apply L4.
  - intros b n. rewrite <-Hf. apply L5.
  - intros x b n. rewrite <-Hf. apply L7.
  - intros u Hu. destruct (L8 u Hu) as [(x & Hx & Hr)|Hr]; [left|by right]. exists x. by rewrite <-Hf.
Qed.

#[global] Instance blocks_proper : Proper (same_heap ==> eq ==> eq ==> eq ==> impl) blocks.
Proof.
  intros h h' [Hp Hs Hb Hl] xs ? <- A ? <- lo ? <- [B1 B2 B3]. split; rewrite ?Hb, ?Hl; [| |done].
  - by eapply ring_proper; [intros a; symmetry; apply Hp| |apply B1].
  - by eapply layout_proper; [intros a; symmetry; apply Hs|..|apply B2].
Qed.

Lemma increasing_split l p r : increasing (l ++ p :: r) ->
  (forall x, x ∈ l -> x < p) /\ (forall x, x ∈ r -> p < x) /\ increasing (l ++ r).
Proof.
  induction l as [|a l IH]; intros H; cbn in *; inversion H as [|? ? H1 H2]; subst.
  - rewrite Forall_forall in H2. repeat split; [set_solver|done|done].
  - destruct (IH H1) as (I1 & I2 & I3). rewrite Forall_forall in H2. repeat split; [|done|].
    + intros x [->|Hx]%elem_of_cons; [apply H2; set_solver|by apply I1].
    + constructor; [done|]. apply Forall_forall. intros x Hx. apply H2. set_solver.
Qed.

Lemma increasing_insert l p b r : increasing (l ++ p :: r) -> p < b -> (forall x, x ∈ r -> b < x) ->
  increasing (l ++ p :: b :: r).
Proof.
  induction l as [|a l IH]; intros H Hb Hr; cbn in *; inversion H as [|? ? H1 H2]; subst.
  - rewrite Forall_forall in H2. constructor; [constructor; [done|by apply Forall_forall]|].
    apply Forall_forall. intros x [->|Hx]%elem_of_cons; [done|by apply H2].
  - constructor; [by apply IH|]. rewrite Forall_forall in H2 |- *. intros x Hx.
    destruct (decide (x = b)) as [->|]; [assert (a < p) by (apply H2; set_solver); lia|].
    apply H2. set_solver.
Qed.

(** The node that comes before [b]. *)
Lemma place xs b : increasing xs -> (exists x, x ∈ xs /\ x < b) -> b ∉ xs ->
  exists l p r, xs = l ++ p :: r /\ p < b /\ (forall x, x ∈ r -> b < x).
Proof.
  induction xs as [|a xs IH]; intros H (x & Hx & Hlt) Hn; [set_solver|]. inversion H as [|? ? H1 H2]; subst.
  rewrite Forall_forall in H2. destruct xs as [|c xs].
  - exists [], a, []. set_solver.
  - destruct (decide (c < b)) as [Hc|Hc].
    + destruct IH as (l & p & r & E & I); [done|set_solver|set_solver|]. exists (a :: l), p, r. by rewrite E.
    + exists [], a, (c :: xs). repeat split.
      * apply elem_of_cons in Hx as [->|Hx]; [done|]. specialize (H2 x Hx). lia.
      * intros y Hy. inversion H1 as [|? ? _ H3]; subst. rewrite Forall_forall in H3.
        assert (c <> b) by set_solver. apply elem_of_cons in Hy as [->|Hy]; [lia|]. specialize (H3 y Hy). lia.
Qed.

(** The ring seen from any of its nodes, and the successor of a node. *)
Lemma ring_from ptr ys p : path ptr base ys base -> p ∈ base :: ys ->
  exists zs, path ptr p zs p /\ (forall x, x ∈ p :: zs <-> x ∈ base :: ys) /\ length zs = length ys.
Proof.
  intros H [->|Hp]%elem_of_cons; [by exists ys|].
  apply list_elem_of_split in Hp as (l & r & ->). apply path_app in H as [H1 H2].
  exists (r ++ base :: l). split; [by apply path_app|]. split; [set_solver|]. rewrite !length_app. cbn. lia.
Qed.

Lemma ring_rest ptr ys l p r : path ptr base ys base -> base :: ys = l ++ p :: r -> path ptr p r base.
Proof. intros H E. destruct l as [|a l]; simplify_eq/=; [done|]. by apply path_app in H as [_ H]. Qed.

Lemma path_next ptr p r z : path ptr p r z -> ptr p = hd z r.
Proof. destruct r; cbn; tauto. Qed.

Lemma path_restart ptr v p b r z : path ptr p r z -> v b = ptr p -> (forall a, a ∈ r -> v a = ptr a) -> path v b r z.
Proof.
  intros H Hb Hr. destruct r as [|q r]; cbn in *; [by rewrite Hb|]. destruct H as [H1 H2].
  split; [by rewrite Hb|]. by apply (path_frame ptr).
Qed.

(** ** What the allocator does to the ring *)

(** [bp] linked in behind [p]. *)
Definition link (p bp : Z) (h : heap) : heap := set_ptr p bp (set_ptr bp (h_ptr h p) h).

(** [x] joined with the node behind it. *)
Definition merge (x : Z) (h : heap) : heap :=
  set_ptr x (h_ptr h (h_ptr h x)) (set_size x (h_size h x + h_size h (h_ptr h x)) h).

Lemma field_upd_eq f a v : upd f a v a = v.
Proof. unfold upd. by rewrite Z.eqb_refl. Qed.

Lemma field_upd_ne f a v x : x <> a -> upd f a v x = f x.
Proof. intros H. unfold upd. by rewrite (proj2 (Z.eqb_neq _ _) H). Qed.

(** Relinking one node: the nodes before it keep their pointers. *)
Lemma relink ptr ys l p r r' v : path ptr base ys base -> base :: ys = l ++ p :: r -> path v p r' base ->
  (forall x, x ∈ l -> v x = ptr x) -> exists ys', l ++ p :: r' = base :: ys' /\ path v base ys' base.
Proof.
  intros H E Hv He. destruct l as [|a l]; simplify_eq/=; [by exists r'|].
  apply path_app in H as [H _]. exists (l ++ p :: r'). split; [done|]. apply path_app. split; [|done].
  apply (path_frame ptr); [|done]. intros b Hb. apply He. set_solver.
Qed.

Lemma ring_link ptr l p r b : ring ptr (l ++ p :: r) -> p < b -> (forall x, x ∈ r -> b < x) ->
  ring (upd (upd ptr b (ptr p)) p b) (l ++ p :: b :: r).
Proof.
  intros [(ys & E & H) Hs] Hp Hr. destruct (increasing_split l p r Hs) as (I1 & I2 & _).
  split; [|by apply increasing_insert]. apply (relink ptr ys l p r); [done..| |].
  - cbn. rewrite field_upd_eq. split; [done|]. apply (path_restart ptr _ p); [by apply (ring_rest _ ys l)| |].
    + by rewrite field_upd_ne, field_upd_eq by lia.
    + intros a Ha. specialize (Hr a Ha). specialize (I2 a Ha). by rewrite !field_upd_ne by lia.
  - intros x Hx. specialize (I1 x Hx). by rewrite !field_upd_ne by lia.
Qed.

(** Leaving out the node [y] behind [x]. *)
Lemma ring_unlink ptr l x y r : ring ptr (l ++ x :: y :: r) -> ring (upd ptr x (ptr y)) (l ++ x :: r).
Proof.
  intros [(ys & E & H) Hs]. destruct (increasing_split l x (y :: r) Hs) as (I1 & I2 & _).
  pose proof (increasing_split (l ++ [x]) y r) as J. rewrite <-!app_assoc in J. specialize (J Hs) as (_ & _ & J3).
  split; [|done]. apply (relink ptr ys l x (y :: r)); [done..| |].
  - pose proof (ring_rest _ ys l x _ H (eq_sym E)) as [_ Hy]. apply (path_restart ptr _ y); [done|by rewrite field_upd_eq|].
    intros a Ha. specialize (I2 a ltac:(set_solver)). by rewrite field_upd_ne by lia.
  - intros a Ha. specialize (I1 a Ha). by rewrite field_upd_ne by lia.
Qed.

(** *** The division of the heap *)

Lemma lay_nonneg size xs A lo top x : layout size xs A lo top -> x ∈ xs -> 0 <= size x.
Proof. intros L Hx. destruct (lay_free _ _ _ _ _ L x Hx) as [->|?]; [by rewrite (lay_empty _ _ _ _ _ L)|lia]. Qed.

(** A block in use becomes free. *)
Lemma layout_release size xs xs' A lo top b n : layout size xs A lo top -> A !! b = Some n ->
  (forall x, x ∈ xs' <-> x = b \/ x ∈ xs) -> layout size xs' (delete b A) lo top.
Proof.
  intros L Hb Hm. pose proof (fun x => lay_nonneg _ _ _ _ _ x L) as Hpos. destruct L as [L1 L2 L3 L4 L5 L6 L7 L8].
  destruct (L5 b n Hb) as (Hlo & Hn & Htop & Hsz). split; try done.
  - intros x [->|Hx]%Hm; [right; lia|by apply L3].
  - intros x y [->|Hx]%Hm [->|Hy]%Hm Hlt; [lia| | |by apply L4].
    + specialize (Hpos y Hy). destruct (L7 y b n Hy Hb); lia.
    + destruct (L7 x b n Hx Hb); lia.
  - intros c m [? Hc]%lookup_delete_Some. by apply L5.
  - intros c m d k [? Hc]%lookup_delete_Some [? Hd]%lookup_delete_Some. by apply (L6 c m d k).
  - intros x c m [->|Hx]%Hm [? Hc]%lookup_delete_Some; [|by apply (L7 x c m)].
    destruct (Z.lt_total b c) as [Hlt|[->|Hlt]]; [|done|]; [specialize (L6 b n c m Hb Hc)|specialize (L6 c m b n Hc Hb)]; lia.
  - intros u Hu. destruct (L8 u Hu) as [(x & Hx & Hi)|(c & m & Hc & Hi)].
    + left. exists x. by rewrite Hm; auto.
    + destruct (decide (c = b)) as [->|]; [left; exists b|right; exists c, m].
      * rewrite Hm, Hsz. simplify_eq. auto.
      * by rewrite lookup_delete_ne.
Qed.

(** Two free blocks that touch become one. *)
Lemma layout_merge size xs xs' A lo top x y : layout size xs A lo top -> x ∈ xs -> y ∈ xs -> x < y ->
  x + size x = y -> (forall a, a ∈ xs' <-> a ∈ xs /\ a <> y) -> layout (upd size x (size x + size y)) xs' A lo top.
Proof.
  intros L Hx Hy Hxy Ht Hm. pose proof (fun x => lay_nonneg _ _ _ _ _ x L) as Hpos. destruct L as [L1 L2 L3 L4 L5 L6 L7 L8].
  assert (Hb : x <> base) by (intros ->; lia). pose proof (Hpos x Hx) as Px. pose proof (Hpos y Hy) as Py.
  destruct (L3 y Hy) as [->|Y3]; [destruct (L3 x Hx); lia|].
  split; try done; [by rewrite field_upd_ne| | | | |].
  - intros a [Ha Hne]%Hm. unfold upd. destruct (Z.eqb_spec a x) as [->|]; [destruct (L3 x Hx); [done|lia]|by apply L3].
  - intros a b [Ha Hna]%Hm [Hb' Hnb]%Hm Hlt. unfold upd. destruct (Z.eqb_spec a x) as [->|]; [|by apply L4].
    pose proof (L4 x b Hx Hb' Hlt). pose proof (L4 y b Hy Hb'). lia.
  - intros b n Hb'. destruct (L5 b n Hb') as (? & ? & ? & ?). rewrite field_upd_ne; [done|].
    intros ->. destruct (L7 x x n Hx Hb'); [|lia]. destruct (L3 x Hx); [done|lia].
  - intros a b n [Ha Hne]%Hm Hb'. unfold upd. destruct (Z.eqb_spec a x) as [->|]; [|by apply L7].
    destruct (L5 b n Hb') as (? & ? & ? & ?). pose proof (L7 x b n Hx Hb'). pose proof (L7 y b n Hy Hb'). lia.
  - intros u Hu. destruct (L8 u Hu) as [(a & Ha & Hi)|Hr]; [left|by right]. destruct (decide (a = x \/ a = y)) as [Hc|Hc].
    + exists x. rewrite Hm, field_upd_eq. split; [split; [done|lia]|]. destruct Hc as [->| ->]; lia.
    + exists a. rewrite Hm, field_upd_ne by tauto. tauto.
Qed.

(** A free block is taken into use. *)
Lemma layout_take size xs xs' A lo top x : layout size xs A lo top -> x ∈ xs -> x <> base ->
  (forall a, a ∈ xs' <-> a ∈ xs /\ a <> x) -> layout size xs' (<[x := size x]> A) lo top.
Proof.
  intros L Hx Hb Hm. pose proof (fun x => lay_nonneg _ _ _ _ _ x L) as Hpos. destruct L as [L1 L2 L3 L4 L5 L6 L7 L8].
  destruct (L3 x Hx) as [->|Hr]; [done|].
  assert (Hfree : A !! x = None).
  { destruct (A !! x) as [n|] eqn:E; [|done]. destruct (L7 x x n Hx E); destruct (L5 x n E) as (? & ? & ? & ?); lia. }
  split; try done.
  - intros a [Ha _]%Hm. by apply L3.
  - intros a b [Ha _]%Hm [Hb' _]%Hm. by apply L4.
  - intros b n [[<- <-]|[? Hb']]%lookup_insert_Some; [lia|by apply L5].
  - intros b n c m [[<- <-]|[? Hb']]%lookup_insert_Some [[<- <-]|[? Hc]]%lookup_insert_Some Hlt; [lia| | |by apply (L6 b n c m)].
    + destruct (L5 c m Hc) as (? & ? & ? & ?). destruct (L7 x c m Hx Hc); lia.
    + destruct (L7 x b n Hx Hb'); lia.
  - intros a b n [Ha Hne]%Hm [[<- <-]|[? Hb']]%lookup_insert_Some; [|by apply L7].
    destruct (Z.lt_total a x) as [Hlt|[->|Hlt]]; [|done|]; [left; by apply L4|right; by apply L4].
  - intros u Hu. destruct (L8 u Hu) as [(a & Ha & Hi)|(b & n & Hb' & Hi)].
    + destruct (decide (a = x)) as [->|]; [right; exists x, (size x)|left; exists a; by rewrite Hm].
      by rewrite lookup_insert_eq.
    + right. exists b, n. rewrite lookup_insert_ne; [done|]. intros ->. congruence.
Qed.

(** The last [n] units of a free block are taken into use. *)
Lemma layout_cut size xs A lo top x n : layout size xs A lo top -> x ∈ xs -> 0 < n < size x ->
  layout (upd (upd size x (size x - n)) (x + (size x - n)) n) xs (<[x + (size x - n) := n]> A) lo top.
Proof.
  intros L Hx Hn. pose proof (fun x => lay_nonneg _ _ _ _ _ x L) as Hpos. destruct L as [L1 L2 L3 L4 L5 L6 L7 L8].
  set (t := x + (size x - n)). assert (Hxb : x <> base) by (intros ->; lia).
  destruct (L3 x Hx) as [->|Hr]; [done|].
  assert (Hin : forall a, a ∈ xs -> a <> t).
  { intros a Ha ->. pose proof (L4 x t Hx Ha). lia. }
  assert (Hout : forall b m, A !! b = Some m -> b <> t /\ b <> x).
  { intros b m Hb. destruct (L5 b m Hb) as (? & ? & ? & ?). destruct (L7 x b m Hx Hb); lia. }
  assert (Hs : forall a, a ∈ xs -> upd (upd size x (size x - n)) t n a = if a =? x then size x - n else size a).
  { intros a Ha. rewrite field_upd_ne by auto. done. }
  split; try done.
  - rewrite !field_upd_ne; [done|done|lia].
  - intros a Ha. rewrite Hs by done. destruct (Z.eqb_spec a x) as [->|]; [lia|by apply L3].
  - intros a b Ha Hb Hlt. rewrite Hs by done. pose proof (L4 a b Ha Hb Hlt). destruct (Z.eqb_spec a x) as [->|]; lia.
  - intros b m [[<- <-]|[? Hb]]%lookup_insert_Some; [rewrite field_upd_eq; lia|]. destruct (Hout b m Hb). rewrite !field_upd_ne by done. by apply L5.
  - intros b m c k [[<- <-]|[? Hb]]%lookup_insert_Some [[<- <-]|[? Hc]]%lookup_insert_Some Hlt; [lia| | |by apply (L6 b m c k)].
    + destruct (L5 c k Hc) as (? & ? & ? & ?). destruct (L7 x c k Hx Hc); lia.
    + destruct (L7 x b m Hx Hb); lia.
  - intros a b m Ha [[<- <-]|[? Hb]]%lookup_insert_Some; rewrite Hs by done.
    + destruct (Z.eqb_spec a x) as [->|]; [lia|]. pose proof (L4 a x Ha Hx). pose proof (L4 x a Hx Ha). lia.
    + pose proof (L7 a b m Ha Hb). destruct (Z.eqb_spec a x) as [->|]; lia.
  - intros u Hu. destruct (L8 u Hu) as [(a & Ha & Hi)|(b & m & Hb & Hi)].
    + destruct (decide (a = x /\ t <= u)) as [[-> Ht]|Hne]; [right; exists t, n; rewrite lookup_insert_eq; split; [done|lia]|].
      left. exists a. rewrite Hs by done. split; [done|]. destruct (Z.eqb_spec a x) as [->|]; lia.
    + right. exists b, m. rewrite lookup_insert_ne; [done|]. intros ->. by destruct (Hout b m Hb).
Qed.

(** The heap grows by a block in use. *)
Lemma layout_grow size xs A lo top n : layout size xs A lo top -> lo <= top -> 0 < n ->
  layout (upd size top n) xs (<[top := n]> A) lo (top + n).
Proof.
  intros [L1 L2 L3 L4 L5 L6 L7 L8] Hlo Hn.
  assert (Hin : forall a, a ∈ xs -> upd size top n a = size a /\ a < top).
  { intros a Ha. assert (a < top) by (destruct (L3 a Ha); lia). rewrite field_upd_ne; lia. }
  split; try done.
  - rewrite field_upd_ne by lia. done.
  - intros a Ha. destruct (Hin a Ha) as [-> ?]. destruct (L3 a Ha) as [|]; [by left|right; lia].
  - intros a b Ha Hb. destruct (Hin a Ha) as [-> ?]. by apply L4.
  - intros b m [[<- <-]|[? Hb]]%lookup_insert_Some; [rewrite field_upd_eq; lia|].
    rewrite field_upd_ne by done. destruct (L5 b m Hb) as (? & ? & ? & ?). lia.
  - intros b m c k [[<- <-]|[? Hb]]%lookup_insert_Some [[<- <-]|[? Hc]]%lookup_insert_Some Hlt; [lia| | |by apply (L6 b m c k)].
    + destruct (L5 c k Hc) as (? & ? & ? & ?). lia.
    + destruct (L5 b m Hb) as (? & ? & ? & ?). lia.
  - intros a b m Ha [[<- <-]|[? Hb]]%lookup_insert_Some; destruct (Hin a Ha) as [-> ?]; [|by apply L7].
    left. destruct (L3 a Ha) as [->|]; lia.
  - intros u Hu. destruct (decide (u < top)) as [Hlt|Hge].
    + destruct (L8 u ltac:(lia)) as [(a & Ha & Hi)|(b & m & Hb & Hi)].
      * left. exists a. destruct (Hin a Ha) as [-> ?]. done.
      * right. exists b, m. destruct (L5 b m Hb) as (? & ? & ? & ?). rewrite lookup_insert_ne by lia. done.
    + right. exists top, n. rewrite lookup_insert_eq. split; [done|lia].
Qed.

(** *** [free] *)

(** The successor of a node is the next higher one, or [base]. *)
Lemma ring_succ ptr xs a : ring ptr xs -> a ∈ xs ->
  (a < ptr a /\ ptr a ∈ xs /\ forall z, z ∈ xs -> z <= a \/ ptr a <= z) \/
  (ptr a = base /\ base <= a /\ forall z, z ∈ xs -> z <= a).
Proof.
  intros [(ys & E & H) Hs] Ha. apply list_elem_of_split in Ha as (l & r & ->).
  destruct (increasing_split l a r Hs) as (I1 & I2 & _). pose proof (path_next _ _ _ _ (ring_rest _ ys l a r H (eq_sym E))) as Hn.
  destruct r as [|q r]; cbn in Hn; [right|left]; rewrite Hn.
  - assert (Hm : forall z, z ∈ l ++ [a] -> z <= a).
    { intros z [Hz|Hz%list_elem_of_singleton]%elem_of_app; [specialize (I1 z Hz); lia|lia]. }
    split; [done|]. split; [|done]. apply Hm. rewrite E. by left.
  - split; [apply I2; by left|]. split; [set_solver|]. intros z [Hz|[->|[->|Hz]%elem_of_cons]%elem_of_cons]%elem_of_app; [|lia..|].
    + specialize (I1 z Hz). lia.
    + pose proof (increasing_split (l ++ [a]) q r) as J. rewrite <-!app_assoc in J. destruct (J Hs) as (_ & J2 & _).
      specialize (J2 z Hz). lia.
Qed.

Lemma ring_min ptr xs a : ring ptr xs -> a ∈ xs -> base <= a.
Proof.
  intros [(ys & -> & _) Hs] [->|Ha]%elem_of_cons; [done|]. apply (increasing_split [] base ys) in Hs as (_ & H & _).
  specialize (H a Ha). lia.
Qed.

(** Where the loop of [free] stops. *)
Definition stops (ptr : Z -> Z) (bp p : Z) : bool :=
  (p <? bp) && (bp <? ptr p) || (ptr p <=? p) && ((p <? bp) || (bp <? ptr p)).

Lemma stops_place ptr xs p bp a : ring ptr xs -> p ∈ xs -> p < bp -> (forall z, z ∈ xs -> z <= p \/ bp < z) ->
  a ∈ xs -> stops ptr bp a = bool_decide (a = p).
Proof.
  intros R Hp Hlt Hz Ha. pose proof (ring_min ptr xs p R Hp) as Hb.
  apply eq_bool_prop_intro. rewrite bool_decide_spec, Is_true_true. unfold stops.
  rewrite orb_true_iff, !andb_true_iff, orb_true_iff, !Z.ltb_lt, Z.leb_le.
  pose proof (Hz a Ha) as Hza.
  destruct (ring_succ ptr xs a R Ha) as [(S1 & S2 & S3)|(S1 & S2 & S3)].
  - pose proof (Hz _ S2). pose proof (S3 p Hp). split; [|intros ->]; lia.
  - pose proof (S3 p Hp). rewrite S1. split; [|intros ->]; lia.
Qed.

Lemma free_loop_finds h bp p : forall zs x z fuel, path (h_ptr h) x zs z -> p ∈ x :: zs ->
  (forall a, a ∈ x :: zs -> stops (h_ptr h) bp a = bool_decide (a = p)) -> (length zs < fuel)%nat ->
  free_loop fuel bp x h = Ok p h.
Proof.
  induction zs as [|y zs IH]; intros x z [|fuel] Hpath Hp Hst Hf; cbn in Hf; try lia; cbn [free_loop];
    unfold bind, gets; cbn; specialize (Hst x ltac:(by left)) as Hx; unfold stops in Hx.
  - apply list_elem_of_singleton in Hp as ->. rewrite bool_decide_true in Hx by done.
    destruct (_ && _); [done|]. cbn in Hx. by rewrite Hx.
  - destruct (decide (x = p)) as [->|Hne].
    + rewrite bool_decide_true in Hx by done. destruct (_ && _); [done|]. cbn in Hx. by rewrite Hx.
    + rewrite bool_decide_false in Hx by done. apply orb_false_iff in Hx as [-> ->]. destruct Hpath as [-> Hpath].
      apply (IH y z); [done|set_solver| |lia]. intros a Ha. apply Hst. by right.
Qed.

(** The heap [free] leaves: [bp] is linked in and then joined with its
    neighbours. *)
Definition freed (p bp : Z) (h : heap) : heap :=
  let h := if bp + h_size h bp =? h_ptr h p then merge bp (link p bp h) else link p bp h in
  if p + h_size h p =? bp then merge p h else h.

Lemma link_blocks h A lo l p r b n : blocks h (l ++ p :: r) A lo -> A !! b = Some n -> p < b ->
  (forall x, x ∈ r -> b < x) -> blocks (link p b h) (l ++ p :: b :: r) (delete b A) lo.
Proof.
  intros [B1 B2 B3] Hb Hp Hr. split; [by apply ring_link| |done].
  apply (layout_release _ (l ++ p :: r) _ _ _ _ _ n); [done..|set_solver].
Qed.

Lemma merge_blocks h A lo l x y r : blocks h (l ++ x :: y :: r) A lo -> x + h_size h x = y ->
  blocks (merge x h) (l ++ x :: r) A lo.
Proof.
  intros [B1 B2 B3] Hy. assert (Hn : h_ptr h x = y).
  { destruct B1 as [(ys & E & H) _]. exact (path_next _ _ _ _ (ring_rest _ ys l x _ H (eq_sym E))). }
  pose proof (increasing_split l x (y :: r) (ring_sorted _ _ B1)) as (_ & I2 & _).
  pose proof (increasing_split (l ++ [x]) y r) as J. rewrite <-!app_assoc in J. destruct (J (ring_sorted _ _ B1)) as (J1 & J2 & _).
  split; [cbn; rewrite Hn; by apply ring_unlink| |done].
  cbn. rewrite Hn. apply (layout_merge _ (l ++ x :: y :: r)); [done|set_solver|set_solver|apply I2; by left|done|].
  intros a. split; [|set_solver]. intros Ha. split; [set_solver|]. intros ->.
  apply elem_of_app in Ha as [Ha|[Ha|Ha]%elem_of_cons].
  - specialize (J1 y ltac:(set_solver)). lia.
  - specialize (I2 y ltac:(by left)). lia.
  - specialize (J2 y Ha). lia.
Qed.

(** Some free block has room for [n] units. *)
Definition has_room (size : Z -> Z) (xs : list Z) (n : Z) : Prop := exists x, x ∈ xs /\ n <= size x.

Lemma freed_blocks h A lo l p r b n : blocks h (l ++ p :: r) A lo -> A !! b = Some n -> p < b ->
  (forall x, x ∈ r -> b < x) ->
  exists xs, blocks (freed p b h) xs (delete b A) lo /\ p ∈ xs /\ has_room (h_size (freed p b h)) xs n /\
    (length xs <= S (length (l ++ p :: r)))%nat.
Proof.
  intros B Hb Hp Hr. pose proof (link_blocks h A lo l p r b n B Hb Hp Hr) as B1.
  assert (Hn : h_ptr h p = hd base r).
  { destruct B as [[(ys & E & H) _] _ _]. exact (path_next _ _ _ _ (ring_rest _ ys l p _ H (eq_sym E))). }
  pose proof (bl_layout _ _ _ _ B) as L. destruct (lay_used _ _ _ _ _ L b n Hb) as (Hlo & Hn0 & _ & Hsz).
  pose proof (lay_base _ _ _ _ _ L) as Hbase.
  assert (exists r', let h' := if b + h_size h b =? h_ptr h p then merge b (link p b h) else link p b h in
    blocks h' (l ++ p :: b :: r') (delete b A) lo /\ n <= h_size h' b /\ (length r' <= length r)%nat) as (r' & B2 & Hs & Hl).
  { rewrite Hn. destruct (Z.eqb_spec (b + h_size h b) (hd base r)) as [Hq|]; [|exists r; cbn; rewrite Hsz; auto with lia].
    destruct r as [|q r]; cbn in Hq; [lia|]. exists r. split_and!; [|cbn|cbn; lia].
    - rewrite cons_middle, app_assoc in B1 |- *. by apply (merge_blocks _ _ _ _ b q).
    - rewrite field_upd_eq. pose proof (lay_nonneg _ _ _ _ _ q L ltac:(set_solver)) as Hpos.
      rewrite field_upd_ne, field_upd_eq, Hn by lia. cbn. lia. }
  cbv zeta in *. unfold freed. set (h' := if _ =? _ then merge b _ else _) in *.
  destruct (Z.eqb_spec (p + h_size h' p) b) as [He|].
  - exists (l ++ p :: r'). split_and!; [by apply (merge_blocks _ _ _ _ p b)|set_solver| |rewrite !length_app; cbn; lia].
    exists p. split; [set_solver|]. cbn. rewrite field_upd_eq.
    assert (h_ptr h' p = b) as ->.
    { destruct B2 as [[(ys & E & H) _] _ _]. exact (path_next _ _ _ _ (ring_rest _ ys l p _ H (eq_sym E))). }
    pose proof (lay_nonneg _ _ _ _ _ p (bl_layout _ _ _ _ B2) ltac:(set_solver)). lia.
  - exists (l ++ p :: b :: r'). split_and!; [done|set_solver| |rewrite !length_app; cbn; lia].
    exists b. split; [set_solver|done].
Qed.

Lemma free_link_spec h b p : p <> b -> h_ptr h p <> b -> (b + h_size h b = h_ptr h p -> h_ptr h p <> p) ->
  0 <= h_size h p <= 2 ^ 28 -> 0 <= h_size h b <= 2 ^ 28 -> 0 <= h_size h (h_ptr h p) <= 2 ^ 28 ->
  wp (free_link b p) (fun _ h' => same_heap (freed p b h) h' /\ freep h' = p) h.
Proof.
  intros Hpb Hqb Hqp Sp Sb Sq. unfold wp, free_link, freed, bind, gets, modify, merge, link, upd. cbn [id].
  assert (Eb : (b =? p) = false) by lia. assert (Ep : (p =? b) = false) by lia. assert (Eq : (h_ptr h p =? b) = false) by lia.
  destruct (Z.eqb_spec (b + h_size h b) (h_ptr h p)) as [H1|H1];
    [assert (Eqp : (h_ptr h p =? p) = false) by (apply Z.eqb_neq; auto)|];
    cbn; unfold upd; rewrite ?Z.eqb_refl, ?Eb, ?Ep, ?Eq, ?Eqp, ?Z.eqb_refl; cbn;
    destruct (Z.eqb_spec (p + h_size h p) b) as [H2|H2];
    cbn; unfold upd; rewrite ?Z.eqb_refl, ?Eb, ?Ep, ?Eq, ?Eqp, ?Z.eqb_refl; cbn.
  all: rewrite ?(u32_small (h_size h b + _)) by lia; rewrite ?u32_small by lia.
  all: split; [split; try done; cbn; intros a; unfold upd|done].
  all: destruct (Z.eqb_spec a p) as [->|]; rewrite ?Ep; try done; destruct (Z.eqb_spec a b) as [->|]; rewrite ?Z.eqb_refl; done.
Qed.

(** A block in use is freed, whatever node [freep] rests on. *)
Lemma free_spec h xs A lo b n fuel : blocks h xs A lo -> freep h ∈ xs -> A !! b = Some n -> (length xs < fuel)%nat ->
  wp (free fuel (b + 1)) (fun _ h' => (exists xs', blocks h' xs' (delete b A) lo /\ freep h' ∈ xs' /\
      has_room (h_size h') xs' n /\ (length xs' <= S (length xs))%nat) /\
    brk h' = brk h /\ limit h' = limit h) h.
Proof.
  intros B Hfp Hb Hf. pose proof (bl_ring _ _ _ _ B) as R. pose proof (bl_layout _ _ _ _ B) as L.
  destruct (lay_used _ _ _ _ _ L b n Hb) as (Hlo & Hn & Htop & Hsz). pose proof (lay_base _ _ _ _ _ L) as Hbl.
  assert (Hnb : b ∉ xs).
  { intros Hin. destruct (lay_free_used _ _ _ _ _ L b b n Hin Hb); lia. }
  destruct (ring_base _ _ R) as (ys & E & Hp).
  destruct (place xs b (ring_sorted _ _ R)) as (l & p & r & E' & Hlt & Hr); [exists base; rewrite E; split; [by left|lia]|done|].
  assert (Hz : forall z, z ∈ xs -> z <= p \/ b < z).
  { intros z Hz. rewrite E' in Hz, R. destruct (increasing_split _ _ _ (ring_sorted _ _ R)) as (I1 & _ & _).
    apply elem_of_app in Hz as [Hz|[->|Hz]%elem_of_cons]; [specialize (I1 z Hz)| |specialize (Hr z Hz)]; lia. }
  assert (Hpx : p ∈ xs) by (rewrite E'; set_solver).
  destruct (ring_from (h_ptr h) ys (freep h) Hp) as (zs & Hzs & Hmem & Hlen); [by rewrite <-E|].
  unfold free. replace (b + 1 - 1) with b by lia. cbv zeta. do 3 wp_step. apply wp_eq with (m' := ret p).
  { apply (free_loop_finds h b p zs _ (freep h)); [done| | |].
    - apply Hmem. by rewrite <-E.
    - intros a Ha. apply (stops_place _ xs); try done. rewrite E. by apply Hmem.
    - rewrite E in Hf. cbn in Hf. lia. }
  wp_step. assert (Hq : h_ptr h p ∈ xs /\ (b + h_size h b = h_ptr h p -> h_ptr h p <> p)).
  { destruct (ring_succ _ _ _ R Hpx) as [(? & ? & ?)|(-> & ? & ?)]; [split; [done|lia]|].
    split; [rewrite E; by left|lia]. }
  destruct Hq as [Hq1 Hq2].
  assert (Hsize : forall x, x ∈ xs -> 0 <= h_size h x <= 2 ^ 28).
  { intros x Hx. pose proof (bl_range _ _ _ _ B). destruct (lay_free _ _ _ _ _ L x Hx) as [->|]; [|lia].
    rewrite (lay_empty _ _ _ _ _ L). lia. }
  pose proof (bl_range _ _ _ _ B) as Hrange.
  wp_use (free_link_spec h b p); [lia|intros Eq; by rewrite Eq in Hq1|done|auto|lia|auto|].
  rewrite E' in B |- *. destruct (freed_blocks h A lo l p r b n B Hb Hlt Hr) as (xs' & B' & Hin & (x & Hx & Hroom) & Hl).
  intros _ h' [Hsame Hfp']. split.
  { exists xs'. split_and!; [by rewrite Hsame in B'|by rewrite Hfp'| |done]. exists x. by rewrite (sh_size _ _ Hsame). }
  rewrite (sh_brk _ _ Hsame), (sh_limit _ _ Hsame). unfold freed, merge, link. by do 2 case_match.
Qed.

(** *** [malloc] *)

(** A new block [b] of [n] units beside the blocks [A]. *)
Definition gains (h : heap) (A : gmap Z Z) (lo n b : Z) (h' : heap) : Prop :=
  A !! b = None /\ (exists xs, blocks h' xs (<[b := n]> A) lo /\ freep h' ∈ xs) /\ limit h' = limit h.

Lemma take_spec h xs A lo n prev : blocks h xs A lo -> prev ∈ xs -> 0 < n <= h_size h (h_ptr h prev) ->
  wp (take_block n prev (h_ptr h prev)) (fun a h' => gains h A lo n (a - 1) h' /\ brk h' = brk h) h.
Proof.
  intros B Hprev Hn. pose proof (bl_ring _ _ _ _ B) as R. pose proof (bl_layout _ _ _ _ B) as L. pose proof (bl_range _ _ _ _ B) as Hrg.
  pose proof (lay_base _ _ _ _ _ L) as Hbl. apply list_elem_of_split in Hprev as (l & r & ->).
  assert (exists r', r = h_ptr h prev :: r') as (r' & Er).
  { destruct (ring_base _ _ R) as (ys & E & H). pose proof (path_next _ _ _ _ (ring_rest _ ys l prev _ H (eq_sym E))) as Hnx.
    destruct r as [|q r]; cbn in Hnx; [|exists r; by rewrite Hnx]. rewrite Hnx, (lay_empty _ _ _ _ _ L) in Hn. lia. }
  set (p := h_ptr h prev) in *. subst r. set (xs := l ++ prev :: p :: r') in *.
  assert (Hp : p ∈ xs) by set_solver. assert (Hpb : p <> base) by (intros E; rewrite E, (lay_empty _ _ _ _ _ L) in Hn; lia).
  destruct (lay_free _ _ _ _ _ L p Hp) as [|Hpr]; [done|].
  pose proof (increasing_split l prev (p :: r') (ring_sorted _ _ R)) as (I1 & I2 & _).
  pose proof (increasing_split (l ++ [prev]) p r') as J. rewrite <-!app_assoc in J. destruct (J (ring_sorted _ _ R)) as (J1 & J2 & _).
  assert (Hfree : forall b, p <= b < p + h_size h p -> A !! b = None).
  { intros b Hb. destruct (A !! b) as [m|] eqn:E; [|done]. destruct (lay_used _ _ _ _ _ L b m E) as (? & ? & ? & ?).
    destruct (lay_free_used _ _ _ _ _ L p b m Hp E); lia. }
  unfold take_block. wp_step. wp_step. cbn [id]. destruct (Z.eqb_spec (h_size h p) n) as [Hs|Hs].
  - wp_steps. replace (p + 1 - 1) with p by lia. split; [split; [apply Hfree; lia|split; [|done]]|done].
    exists (l ++ prev :: r'). split; [|cbn; set_solver]. split; cbn; [by apply ring_unlink| |done].
    rewrite <-Hs. apply (layout_take _ xs); [done..|]. intros a. split; [|set_solver].
    intros Ha. split; [set_solver|]. intros ->. apply elem_of_app in Ha as [Ha|[Ha|Ha]%elem_of_cons].
    + specialize (J1 p ltac:(set_solver)). lia.
    + specialize (I2 p ltac:(by left)). lia.
    + specialize (J2 p Ha). lia.
  - rewrite u32_small by lia. cbv zeta. wp_steps. replace (p + (h_size h p - n) + 1 - 1) with (p + (h_size h p - n)) by lia.
    split; [split; [apply Hfree; lia|split; [|done]]|done].
    exists xs. split; [|cbn; set_solver]. split; cbn; [done|apply layout_cut; [done..|lia]|done].
Qed.

Lemma malloc_lap h n Q fuel : forall zs prev, path (h_ptr h) prev zs (freep h) -> freep h ∉ zs ->
  (forall a, a ∈ prev :: zs -> n <= h_size h (h_ptr h a) -> wp (take_block n a (h_ptr h a)) Q h) ->
  ((forall q, q ∈ zs ++ [freep h] -> h_size h q < n) ->
    wp (let! p := morecore fuel n in
        if p =? 0 then ret 0 else let! h := gets id in malloc_loop fuel n p (h_ptr h p)) Q h) ->
  wp (malloc_loop (length zs + S fuel) n prev (h_ptr h prev)) Q h.
Proof.
  induction zs as [|y zs IH]; intros prev Hp Hnf Ht Hm.
  - cbn in Hp. change (length [] + S fuel)%nat with (S fuel). cbn [malloc_loop]. wp_step. wp_step. cbn [id].
    destruct (Z.leb_spec n (h_size h (h_ptr h prev))) as [Hle|Hgt]; [apply Ht; [by left|done]|].
    rewrite Hp, Z.eqb_refl in *. apply Hm. intros q Hq%list_elem_of_singleton. by subst.
  - destruct Hp as [Hy Hp]. change (length (y :: zs) + S fuel)%nat with (S (length zs + S fuel)). cbn [malloc_loop].
    wp_step. wp_step. cbn [id]. destruct (Z.leb_spec n (h_size h (h_ptr h prev))) as [Hle|Hgt]; [apply Ht; [by left|done]|].
    rewrite Hy in *. destruct (Z.eqb_spec y (freep h)) as [->|]; [set_solver|].
    apply IH; [done|set_solver| |].
    + intros a Ha. apply Ht. by right.
    + intros Hq. apply Hm. intros q [->|Hq']%elem_of_cons; [done|by apply Hq].
Qed.

Lemma morecore_spec h xs A lo n fuel : blocks h xs A lo -> freep h ∈ xs -> 0 < n < 2 ^ 28 - 1 ->
  (length xs < fuel)%nat ->
  wp (morecore fuel n) (fun p h' =>
    (p = 0 /\ h' = h /\ limit h < brk h + Z.max n 4096) \/
    (p <> 0 /\ p = freep h' /\ brk h + Z.max n 4096 <= limit h /\ brk h' = brk h + Z.max n 4096 /\ limit h' = limit h /\
     exists xs', blocks h' xs' A lo /\ p ∈ xs' /\ has_room (h_size h') xs' n /\ (length xs' <= S (length xs))%nat)) h.
Proof.
  intros B Hfp Hn Hf. pose proof (bl_range _ _ _ _ B) as Hrg. pose proof (lay_base _ _ _ _ _ (bl_layout _ _ _ _ B)) as Hbl.
  unfold morecore. set (nu := if n <? 4096 then 4096 else n). assert (Hnu : nu = Z.max n 4096).
  { unfold nu. destruct (Z.ltb_spec n 4096); lia. }
  rewrite <-Hnu. cbv zeta. rewrite u32_small, s32_small by lia.
  unfold sbrk. wp_step. wp_step. wp_step. cbn [id]. rewrite (proj2 (Z.leb_le 0 (nu * 8))) by lia. rewrite Z.div_mul by lia.
  destruct (Z.leb_spec (brk h + nu) (limit h)) as [Hle|Hgt]; wp_steps.
  - rewrite (proj2 (Z.eqb_neq _ _)) by lia. wp_steps. set (h1 := set_size _ _ _).
    assert (B1 : blocks h1 xs (<[brk h := nu]> A) lo).
    { split; cbn; [apply (bl_ring _ _ _ _ B)|apply layout_grow; [apply B|lia..]|lia]. }
    wp_use (free_spec h1 xs (<[brk h := nu]> A) lo (brk h) nu); [done|done|by rewrite lookup_insert_eq|done|].
    intros _ h' [(xs' & B' & Hin & Hroom & Hlen) [Eb El]]. wp_steps. right.
    rewrite delete_insert_id in B'.
    2: { destruct (A !! brk h) as [m|] eqn:E; [|done]. destruct (lay_used _ _ _ _ _ (bl_layout _ _ _ _ B) _ _ E) as (? & ? & ? & ?). lia. }
    pose proof (ring_min _ _ _ (bl_ring _ _ _ _ B') Hin) as Hmin. pose proof (bl_range _ _ _ _ B').
    split_and!; [lia|done|done|done|done|]. exists xs'. split_and!; [done|done| |done].
    destruct Hroom as (x & Hx & Hxs). exists x. split; [done|lia].
  - left. split; [done|]. split; [by destruct h|lia].
Qed.

(** The units of a block for [nbytes] bytes, its header included. *)
Definition units (nbytes : Z) : Z := (nbytes + 7) / 8 + 1.

(** The heap between two calls, before or after the first. *)
Definition heap_ok (h : heap) (A : gmap Z Z) (lo : Z) : Prop :=
  (freep h = 0 /\ A = ∅ /\ 0 < base < lo /\ lo = brk h /\ brk h <= limit h <= 2 ^ 28) \/
  (exists xs, blocks h xs A lo /\ freep h ∈ xs).

Lemma increasing_length xs lo hi : increasing xs -> (forall x, x ∈ xs -> lo <= x < hi) -> lo <= hi ->
  Z.of_nat (length xs) <= hi - lo.
Proof.
  revert lo. induction xs as [|a xs IH]; intros lo Hs Hr Hlo; cbn [length]; [lia|]. inversion Hs as [|? ? H1 H2]; subst.
  rewrite Forall_forall in H2. pose proof (Hr a ltac:(by left)). specialize (IH (a + 1) H1).
  assert (Z.of_nat (length xs) <= hi - (a + 1)); [|lia]. apply IH; [|lia].
  intros x Hx. specialize (H2 x Hx). specialize (Hr x ltac:(by right)). lia.
Qed.

(** There are no more free blocks than units, and [base]. *)
Lemma blocks_length h xs A lo : blocks h xs A lo -> Z.of_nat (length xs) <= brk h - lo + 1.
Proof.
  intros [[(ys & -> & _) Hs] L Hr]. destruct (increasing_split [] base ys Hs) as (_ & I2 & I3). cbn [length].
  assert (Z.of_nat (length ys) <= brk h - lo); [|lia]. apply increasing_length; [done| |lia].
  intros x Hx. specialize (I2 x Hx). destruct (lay_free _ _ _ _ _ L x); [by right|lia..].
Qed.

Lemma ring_lap ptr xs f : ring ptr xs -> f ∈ xs ->
  exists zs, path ptr f zs f /\ (f ∉ zs) /\ (forall x, x ∈ f :: zs <-> x ∈ xs) /\ S (length zs) = length xs.
Proof.
  intros [(ys & -> & H) Hs] Hf. destruct (increasing_split [] base ys Hs) as (_ & I2 & _).
  apply elem_of_cons in Hf as [->|Hf].
  { exists ys. split_and!; try done. intros Hb. specialize (I2 base Hb). lia. }
  apply list_elem_of_split in Hf as (l & r & ->). apply path_app in H as [H1 H2].
  destruct (increasing_split (base :: l) f r Hs) as (J1 & J2 & _).
  exists (r ++ base :: l). split_and!; [by apply path_app| |set_solver|cbn; rewrite !length_app; cbn; lia].
  intros [Hf|Hf]%elem_of_app; [specialize (J2 f Hf)|specialize (J1 f Hf)]; lia.
Qed.

(** The search after the heap has grown finds a block. *)
Lemma malloc_second h xs A lo n fuel : blocks h xs A lo -> freep h ∈ xs -> 0 < n -> has_room (h_size h) xs n ->
  (length xs <= fuel)%nat ->
  wp (malloc_loop fuel n (freep h) (h_ptr h (freep h))) (fun a h' => gains h A lo n (a - 1) h' /\ brk h' = brk h) h.
Proof.
  intros B Hf Hn (x & Hx & Hxs) Hfuel. destruct (ring_lap _ _ _ (bl_ring _ _ _ _ B) Hf) as (zs & Hp & Hnf & Hm & Hl).
  replace fuel with (length zs + S (fuel - length zs - 1))%nat by lia. apply malloc_lap; [done|done| |].
  - intros a Ha Hle. apply (take_spec h xs); [done|by apply Hm|lia].
  - intros Hq. specialize (Hq x). rewrite <-Hm in Hx. specialize (Hq ltac:(set_solver)). lia.
Qed.

Definition malloc_post (h : heap) (A : gmap Z Z) (lo n a : Z) (h' : heap) : Prop :=
  limit h' = limit h /\
  ((a = 0 /\ heap_ok h' A lo /\ brk h' = brk h /\ limit h < brk h + Z.max n 4096) \/
   (0 < a /\ A !! (a - 1) = None /\ heap_ok h' (<[a - 1 := n]> A) lo)).

Lemma gains_post h h0 A lo n a h' : gains h A lo n (a - 1) h' -> limit h = limit h0 -> malloc_post h0 A lo n a h'.
Proof.
  intros (G1 & (xs & G2 & G3) & G4) Hl. split; [congruence|]. right. split; [|split; [done|right; by exists xs]].
  pose proof (bl_layout _ _ _ _ G2) as L. pose proof (bl_range _ _ _ _ G2). pose proof (lay_base _ _ _ _ _ L).
  destruct (lay_used _ _ _ _ _ L (a - 1) n) as (? & ? & ? & ?); [by rewrite lookup_insert_eq|lia].
Qed.

Lemma malloc_search h xs A lo n fuel : blocks h xs A lo -> freep h ∈ xs -> 0 < n < 2 ^ 28 - 1 ->
  (2 * length xs + 2 <= fuel)%nat ->
  wp (malloc_loop fuel n (freep h) (h_ptr h (freep h))) (malloc_post h A lo n) h.
Proof.
  intros B Hf Hn Hfuel. destruct (ring_lap _ _ _ (bl_ring _ _ _ _ B) Hf) as (zs & Hp & Hnf & Hm & Hl).
  set (k := (fuel - length zs - 1)%nat). replace fuel with (length zs + S k)%nat by lia. apply malloc_lap; [done|done| |].
  - intros a Ha Hle. wp_use (take_spec h xs A lo n a); [done|by apply Hm|lia|].
    intros b h' [G _]. by apply (gains_post h).
  - intros Hq. wp_step. wp_use (morecore_spec h xs A lo n k); [done|done|done|lia|].
    intros p h' [(-> & -> & Hlim)|(Hp0 & -> & Hlim & Eb & El & xs' & B' & Hin & Hroom & Hlen)].
    + rewrite Z.eqb_refl. wp_step. split; [done|]. left. split_and!; try done. right. by exists xs.
    + rewrite (proj2 (Z.eqb_neq _ _)) by done. wp_step. wp_step. cbn [id].
      wp_use (malloc_second h' xs' A lo n); [done|done|lia|done|lia|].
      intros a h'' [G _]. by apply (gains_post h').
Qed.

Lemma malloc_spec h A lo nbytes fuel : heap_ok h A lo -> 0 <= nbytes <= 2 ^ 31 - 32 ->
  2 * (limit h - lo) + 6 <= Z.of_nat fuel -> wp (malloc fuel nbytes) (malloc_post h A lo (units nbytes)) h.
Proof.
  intros Hok Hb Hfuel. unfold malloc. assert (Hu : 0 < units nbytes < 2 ^ 28 - 1).
  { unfold units. pose proof (Z.div_mod (nbytes + 7) 8 ltac:(lia)). pose proof (Z.mod_pos_bound (nbytes + 7) 8 ltac:(lia)). lia. }
  assert (u32 (u32 (nbytes + 8 - 1) / 8 + 1) = units nbytes) as ->.
  { rewrite (u32_small (nbytes + 8 - 1)) by lia. replace (nbytes + 8 - 1) with (nbytes + 7) by lia. fold (units nbytes).
    apply u32_small. lia. }
  cbv zeta. wp_step. wp_step. wp_step. cbn [id]. destruct Hok as [(E & -> & Hbase & Hlo & Hlim)|(xs & B & Hf)].
  - rewrite E, Z.eqb_refl. wp_steps. cbn [id]. set (h1 := set_size _ _ _).
    assert (B1 : blocks h1 [base] ∅ lo).
    { split; [split| |cbn; lia]; cbn.
      - exists []. split; [done|]. cbn. by rewrite field_upd_eq.
      - repeat constructor.
      - split; try done; cbn.
        + by rewrite field_upd_eq.
        + lia.
        + intros x Hx%list_elem_of_singleton. by left.
        + intros x y ->%list_elem_of_singleton ->%list_elem_of_singleton. lia.
        + intros u Hu'. lia. }
    wp_use (malloc_search h1 [base] ∅ lo (units nbytes)); [done|cbn; by left|done|cbn; lia|].
    intros a h' [Hl Hc]. split; [done|]. exact Hc.
  - pose proof (ring_min _ _ _ (bl_ring _ _ _ _ B) Hf). pose proof (bl_range _ _ _ _ B). pose proof (blocks_length _ _ _ _ B).
    rewrite (proj2 (Z.eqb_neq _ _)) by lia. wp_steps. cbn [id]. apply (malloc_search h xs); [done|done|done|lia].
Qed.

Lemma free_ok h A lo b n fuel : heap_ok h A lo -> A !! b = Some n -> limit h - lo + 2 <= Z.of_nat fuel ->
  wp (free fuel (b + 1)) (fun _ h' => heap_ok h' (delete b A) lo /\ limit h' = limit h) h.
Proof.
  intros [(_ & -> & _)|(xs & B & Hf)] Hb Hfuel; [done|].
  pose proof (bl_range _ _ _ _ B). pose proof (blocks_length _ _ _ _ B).
  wp_use (free_spec h xs A lo b n fuel); [done|done|done|lia|].
  intros _ h' [(xs' & B' & Hin & _) [_ El]]. split; [right; by exists xs'|done].
Qed.

(** ** A program that allocates and frees *)

Inductive request : Type :=
  | Malloc (nbytes : Z)
  | Free (k : nat).     (* the [k]th of the blocks it holds *)

(** The blocks the program holds: their addresses and the bytes it asked for. *)
Fixpoint serve (fuel : nat) (rs : list request) (live : list (Z * Z)) : M heap (list (Z * Z)) :=
  match rs with
  | [] => ret live
  | Malloc nbytes :: rs' =>
      let! a := malloc fuel nbytes in
      serve fuel rs' (if a =? 0 then live else (a, nbytes) :: live)
  | Free k :: rs' =>
      match live !! k with
      | Some (a, _) => free fuel a ;;; serve fuel rs' (delete k live)
      | None => serve fuel rs' live
      end
  end.

Definition request_ok (r : request) : Prop := match r with Malloc n => 0 <= n <= 2 ^ 31 - 32 | Free _ => True end.

Definition held (live : list (Z * Z)) : list (Z * Z) := (fun '(a, n) => (a - 1, units n)) <$> live.

Definition holds_blocks (h : heap) (live : list (Z * Z)) (lo : Z) : Prop :=
  NoDup (held live).*1 /\ heap_ok h (list_to_map (held live)) lo.

Lemma held_delete live k a n : live !! k = Some (a, n) -> NoDup (held live).*1 ->
  NoDup (held (delete k live)).*1 /\
  (list_to_map (held (delete k live)) : gmap Z Z) = delete (a - 1) (list_to_map (held live)) /\
  (list_to_map (held live) : gmap Z Z) !! (a - 1) = Some (units n).
Proof.
  intros Hk Hnd. pose proof (delete_Permutation live k _ Hk) as Hp.
  assert (Hp' : held live ≡ₚ (a - 1, units n) :: held (delete k live)) by exact (Permutation_map _ Hp).
  assert (Hnd' := Hnd). rewrite Hp' in Hnd'. cbn in Hnd'. apply NoDup_cons in Hnd' as [Hn1 Hn2]. split; [done|].
  rewrite (list_to_map_proper (M := gmap Z) _ _ Hnd Hp'). cbn. split; [|by rewrite lookup_insert_eq].
  rewrite delete_insert_id; [done|]. by apply not_elem_of_list_to_map_1.
Qed.

Lemma serve_spec fuel lo rs : Forall request_ok rs -> forall live h, holds_blocks h live lo ->
  2 * (limit h - lo) + 6 <= Z.of_nat fuel -> wp (serve fuel rs live) (fun live' h' => holds_blocks h' live' lo) h.
Proof.
  induction 1 as [|r rs Hr Hrs IH]; intros live h [Hnd Hok] Hfuel; cbn; [by apply wp_ret|].
  assert (Hlo : lo <= limit h) by (destruct Hok as [?|(xs & B & _)]; [lia|pose proof (bl_range _ _ _ _ B); lia]).
  destruct r as [n|k].
  - wp_step. wp_use malloc_spec; [done|done|done|]. intros a h' (El & [(-> & Hok' & _)|(Ha & Hn & Hok')]).
    + apply IH; [done|lia].
    + rewrite (proj2 (Z.eqb_neq _ _)) by lia. apply IH; [|lia]. split; [|done]. cbn. apply NoDup_cons. split; [|done].
      by apply not_elem_of_list_to_map_2.
  - destruct (live !! k) as [[a n]|] eqn:Hk; [|by apply IH].
    destruct (held_delete live k a n Hk Hnd) as (D1 & D2 & D3).
    wp_step. replace a with (a - 1 + 1) by lia. wp_use free_ok; [done|done|lia|].
    intros _ h' [Hok' El]. apply IH; [|lia]. split; [done|by rewrite D2].
Qed.

(** The bytes the program may use of the blocks it holds are in the heap, and no
    two blocks share one. *)
Lemma units_room n : n + 8 <= 8 * units n.
Proof. unfold units. pose proof (Z.div_mod (n + 7) 8 ltac:(lia)). pose proof (Z.mod_pos_bound (n + 7) 8 ltac:(lia)). lia. Qed.

Lemma held_in h live lo i a n : holds_blocks h live lo -> live !! i = Some (a, n) -> 8 * lo < 8 * a /\ 8 * a + n <= 8 * brk h.
Proof.
  intros [Hnd Hok] Hi. destruct (held_delete live i a n Hi Hnd) as (_ & _ & Ea).
  destruct Hok as [(_ & E & _)|(xs & B & _)]; [by rewrite E in Ea|].
  destruct (lay_used _ _ _ _ _ (bl_layout _ _ _ _ B) _ _ Ea) as (? & ? & ? & _). pose proof (units_room n). lia.
Qed.

Lemma held_apart h live lo i j a n b m : holds_blocks h live lo -> live !! i = Some (a, n) -> live !! j = Some (b, m) ->
  i <> j -> 8 * a + n <= 8 * b \/ 8 * b + m <= 8 * a.
Proof.
  intros [Hnd Hok] Hi Hj Hij. destruct (held_delete live i a n Hi Hnd) as (_ & _ & Ea).
  destruct (held_delete live j b m Hj Hnd) as (_ & _ & Eb).
  assert (Hne : a <> b).
  { intros ->. apply Hij. apply (NoDup_lookup (held live).*1 i j (b - 1)); [done|..]; unfold held;
      rewrite !list_lookup_fmap; [rewrite Hi|rewrite Hj]; done. }
  destruct Hok as [(_ & E & _)|(xs & B & _)]; [by rewrite E in Ea|]. pose proof (bl_layout _ _ _ _ B) as L.
  pose proof (lay_used_apart _ _ _ _ _ L _ _ _ _ Ea Eb). pose proof (lay_used_apart _ _ _ _ _ L _ _ _ _ Eb Ea).
  pose proof (units_room n). pose proof (units_room m). lia.
Qed.

Lemma path_reach ptr ys : forall x z a, path ptr x ys z -> a ∈ x :: ys -> exists k, Nat.iter k ptr x = a.
Proof.
  induction ys as [|y ys IH]; intros x z a H [->|Ha]%elem_of_cons; try (by exists 0%nat); [set_solver|].
  destruct H as [<- H]. destruct (IH _ z a H Ha) as [k <-]. exists (S k). by rewrite Nat.iter_succ_r.
Qed.

(** Every unit of the heap is in a block the program holds or in one the free list
    leads to. *)
Lemma held_or_free h live lo u : holds_blocks h live lo -> lo <= u < brk h ->
  (exists a n, (a, n) ∈ live /\ a - 1 <= u < a - 1 + units n) \/
  (exists k, let x := Nat.iter k (h_ptr h) base in x <= u < x + h_size h x).
Proof.
  intros [Hnd [(_ & _ & _ & -> & _)|(xs & B & _)]] Hu; [lia|].
  destruct (lay_all _ _ _ _ _ (bl_layout _ _ _ _ B) u Hu) as [(x & Hx & Hi)|(b & m & Hb & Hi)]; [right|left].
  - destruct (ring_base _ _ (bl_ring _ _ _ _ B)) as (ys & -> & H). destruct (path_reach _ _ _ _ _ H Hx) as [k <-]. by exists k.
  - apply elem_of_list_to_map in Hb; [|done]. apply list_elem_of_fmap in Hb as ([a n] & E & Ha). simplify_eq. by exists a, n.
Qed.
End Malloc.

(** A request near the top of the 32-bit range wraps around in [malloc] and gets a
    block without room for a single byte. *)
Lemma malloc_wraps :
  match malloc 1 10 (2 ^ 32 - 1) (Heap (fun _ => 0) (fun _ => 0) 0 100 5000) with
  | Ok a h => a <> 0 /\ h_size h (a - 1) = 1
  | _ => False
  end.
Proof. vm_compute. split; congruence. Qed.
