(* ===== verification/Mkfs.v ===== *)
(** * The image builder ([mkfs.c])

    The program that writes the first file system image: superblock, inodes, a
    root directory and the files given to it.  The image is a map from sectors to
    their bytes; the numbers in it are little-endian whatever the host's order
    is, which is what [xint] and [xshort] achieve.  A failed [assert] or a call of
    [exit(1)] is a [Panic].  The image is related to what the kernel's file system
    makes of it: the inodes, block maps and file contents are those of the
    kernel's own abstraction. *)

From S2P Require Import Prelude Bytes Params CString FsState Bio Log Store Fs FsAlloc FsInode FsFile FsWrite FsDir.

Definition nblocks : Z := 995 - LOGSIZE.
Definition nlog : Z := LOGSIZE.
Definition ninodes : Z := 200.
Definition fssize : Z := 1024.    (* [size] *)
Definition bitblocks : Z := fssize / (512 * 8) + 1.

Record mk : Type := Mk {
  img : gmap Z block;
  freeblock : Z;
  usedblocks : Z;
  freeinode : Z
}.

Definition set_img (V : gmap Z block) (s : mk) : mk := Mk V (freeblock s) (usedblocks s) (freeinode s).

Definition assert_ (b : bool) : M mk unit := if b then ret tt else panic "assertion failed".

(** ** Sectors and inodes *)

Definition wsect (sec : Z) (buf : block) : M mk unit := modify (fun s => set_img (<[sec := buf]> (img s)) s).

Definition rsect (sec : Z) : M mk block :=
  let! s := gets id in
  match img s !! sec with
  | Some d => ret d
  | None => panic "read"
  end.

Definition i2b (inum : Z) : Z := inum / IPB + 2.

Definition winode (inum : Z) (ip : inode) : M mk unit :=
  let bn := i2b inum in
  let! buf := rsect bn in
  wsect bn (put_dinode ip (dinode_off inum) buf).

Definition rinode (inum : Z) : M mk inode :=
  let bn := i2b inum in
  let! buf := rsect bn in
  ret (get_dinode buf (dinode_off inum) zero_inode).

Definition ialloc (type : Z) : M mk Z :=
  let! s := gets id in
  let inum := freeinode s in
  modify (fun s => Mk (img s) (freeblock s) (usedblocks s) (freeinode s + 1)) ;;;
  winode inum (i_with_size 0 (i_with_nlink 1 (i_with_type type zero_inode))) ;;;
  ret inum.

(** [freeblock++] and [usedblocks++] *)
Definition next_block : M mk Z :=
  let! s := gets id in
  modify (fun s => Mk (img s) (freeblock s + 1) (usedblocks s + 1) (freeinode s)) ;;;
  ret (freeblock s).

(** ** Appending to a file *)

(** The block for [fbn], allocated if the file lacks it: the inode, and the
    block. *)
Definition iappend_block (din : inode) (fbn : Z) : M mk (inode * Z) :=
  if fbn <? NDIRECT then
    let! din :=
      (if addr_of din (Z.to_nat fbn) =? 0 then
         let! b := next_block in
         ret (i_with_addr (Z.to_nat fbn) b din)
       else ret din) in
    ret (din, addr_of din (Z.to_nat fbn))
  else
    let! din :=
      (if addr_of din (Z.to_nat NDIRECT) =? 0 then
         let! b := next_block in
         ret (i_with_addr (Z.to_nat NDIRECT) b din)
       else ret din) in
    let! indirect := rsect (addr_of din (Z.to_nat NDIRECT)) in
    let! indirect :=
      (if ld32 indirect (4 * Z.to_nat (fbn - NDIRECT)) =? 0 then
         let! b := next_block in
         let indirect := st32 indirect (4 * Z.to_nat (fbn - NDIRECT)) b in
         wsect (addr_of din (Z.to_nat NDIRECT)) indirect ;;;
         ret indirect
       else ret indirect) in
    ret (din, ld32 indirect (4 * Z.to_nat (fbn - NDIRECT))).

(** The loop of [iappend]: the inode and the offset it ends with. *)
Fixpoint iappend_loop (fuel : nat) (din : inode) (off : Z) (p : list Z) : M mk (inode * Z) :=
  match fuel with
  | O => fun _ => Fuel
  | S fuel' =>
      let n := Z.of_nat (length p) in
      if n <=? 0 then ret (din, off)
      else
        let fbn := off / 512 in
        assert_ (fbn <? MAXFILE) ;;;
        let! r := iappend_block din fbn in
        let n1 := Z.min n ((fbn + 1) * 512 - off) in
        let! buf := rsect r.2 in
        wsect r.2 (splice buf (Z.to_nat (off - fbn * 512)) (take (Z.to_nat n1) p)) ;;;
        iappend_loop fuel' r.1 (off + n1) (drop (Z.to_nat n1) p)
  end.

Definition iappend (inum : Z) (xp : list Z) : M mk unit :=
  let! din := rinode inum in
  let! r := iappend_loop (S (length xp)) din (i_size din) xp in
  winode inum (i_with_size r.2 r.1).

(** ** The bitmap and [main] *)

Definition balloc (used : Z) : M mk unit :=
  assert_ (used <? 512 * 8) ;;;
  wsect (ninodes / IPB + 3) (foldl (fun buf i => mark_used i buf) zero_block (Z.of_nat <$> upto used)).

Definition superblock_bytes : list Z := le 4 fssize ++ le 4 nblocks ++ le 4 ninodes ++ le 4 nlog.

(** A directory entry: [de.name] filled by [strcpy] on the zeroed entry, and by
    [strncpy]. *)
Definition dirent_strcpy (inum : Z) (name : list Z) : list Z :=
  le 2 inum ++ splice (replicate DIRSIZ 0) 0 (name ++ [0]).
Definition dirent_strncpy (inum : Z) (name : list Z) : list Z := le 2 inum ++ strncpy (ptr name) DIRSIZ.

(** Leading underscores are left out of names. *)
Definition file_name (arg : list Z) : list Z :=
  match arg with
  | c :: rest => if c =? 95 then rest else arg
  | [] => arg
  end.

(** One file of the command line: its argument, and what the calls of [read]
    deliver, or nothing if it cannot be opened. *)
Definition add_file (rootino : Z) (f : list Z * option (list (list Z))) : M mk unit :=
  assert_ (negb (bool_decide (47 ∈ f.1))) ;;;
  match f.2 with
  | None => panic "open"
  | Some chunks =>
      let! inum := ialloc T_FILE in
      iappend rootino (dirent_strncpy inum (file_name f.1)) ;;;
      for_ chunks (fun buf => iappend inum buf)
  end.

(** The root directory with [.] and [..]. *)
Definition make_root : M mk Z :=
  let! rootino := ialloc T_DIR in
  assert_ (rootino =? ROOTINO) ;;;
  iappend rootino (dirent_strcpy rootino [46]) ;;;
  iappend rootino (dirent_strcpy rootino [46; 46]) ;;;
  ret rootino.

(** Fix the size of the root directory. *)
Definition fix_root (rootino : Z) : M mk unit :=
  let! din := rinode rootino in
  let off := i_size din in
  let off := (off / BSIZE + 1) * BSIZE in
  winode rootino (i_with_size off din).

Definition mkfs_main (files : list (list Z * option (list (list Z)))) : M mk unit :=
  modify (fun s => Mk (img s) (ninodes / IPB + 3 + bitblocks) (ninodes / IPB + 3 + bitblocks) (freeinode s)) ;;;
  let! s := gets id in
  assert_ (nblocks + usedblocks s + nlog =? fssize) ;;;
  for_ (Z.of_nat <$> upto (nblocks + usedblocks s + nlog)) (fun i => wsect i zero_block) ;;;
  wsect 1 (splice zero_block 0 superblock_bytes) ;;;
  let! rootino := make_root in
  for_ files (add_file rootino) ;;;
  fix_root rootino ;;;
  let! s := gets id in
  balloc (usedblocks s).

(** The variables as the program is started. *)
Definition mk_start : mk := Mk ∅ 0 0 1.

(** ** Files in the image *)

(** The first data block. *)
Definition data_start : Z := ninodes / IPB + 3 + bitblocks.

(** The file with inode [p] has its first [k] blocks, all different and below
    [free], and they hold the bytes [c] followed by zeros. *)
Record holds (V : gmap Z block) (free : Z) (p : inode) (k : Z) (c : list Z) : Prop := {
  ho_inode : inode_ok p;
  ho_len : 0 <= k <= MAXFILE /\ Z.of_nat (length c) <= k * BSIZE;
  ho_ind : ind p = 0 /\ k <= NDIRECT \/
    NDIRECT < k /\ data_start <= ind p < free /\ exists a, V !! ind p = Some a /\ is_block a;
  ho_blk : forall bn, 0 <= bn < k -> data_start <= block_of V p bn < free /\
    block_of V p bn <> ind p /\ exists d, V !! block_of V p bn = Some d /\ is_block d;
  ho_none : forall bn, k <= bn < MAXFILE -> block_of V p bn = 0;
  ho_inj : forall bn bn', 0 <= bn < k -> 0 <= bn' < k -> block_of V p bn = block_of V p bn' -> bn = bn';
  ho_bytes : forall i, 0 <= i < k * BSIZE -> file_byte V p i = nth (Z.to_nat i) c 0
}.

(** The disk blocks of a file. *)
Definition owns (V : gmap Z block) (p : inode) (x : Z) : Prop := x <> 0 /\ owned V p x.

(** From one state of a file to a later one: only blocks of the file and new
    ones have changed. *)
Record extends (V : gmap Z block) (free : Z) (p : inode) (V' : gmap Z block) (free' : Z) (p' : inode) : Prop := {
  ex_free : free <= free';
  ex_same : forall x, ~ owns V p x -> x < free \/ free' <= x -> V' !! x = V !! x;
  ex_owns : forall x, owns V' p' x -> owns V p x \/ free <= x < free';
  ex_blocks : (forall x d, V !! x = Some d -> is_block d) -> forall x d, V' !! x = Some d -> is_block d;
  ex_dom : forall x, is_Some (V !! x) -> is_Some (V' !! x);
  ex_rest : i_type p' = i_type p /\ i_nlink p' = i_nlink p /\ i_size p' = i_size p
}.

Lemma data_start_pos : 0 < data_start.
Proof. done. Qed.

Section Extend.
Implicit Types (V : gmap Z block) (p : inode).

Lemma insert_blocks V x d : is_block d -> (forall x d, V !! x = Some d -> is_block d) ->
  forall y d', <[x := d]> V !! y = Some d' -> is_block d'.
Proof. intros Hd HV y d' [[_ <-]|[_ ?]]%lookup_insert_Some; [done|by eapply HV]. Qed.

(** A new block of zeros becomes block [k] of the file. *)
Lemma holds_more V V' free free' p p' k c :
  holds V free p k c -> inode_ok p' -> k < MAXFILE -> free <= free' ->
  (ind p' = 0 /\ k < NDIRECT \/ NDIRECT <= k /\ data_start <= ind p' < free' /\ exists a, V' !! ind p' = Some a /\ is_block a) ->
  (forall bn, 0 <= bn < MAXFILE -> bn <> k -> block_of V' p' bn = block_of V p bn) ->
  (data_start <= block_of V' p' k < free' /\ block_of V' p' k <> ind p' /\ free <= block_of V' p' k /\
   V' !! block_of V' p' k = Some zero_block) ->
  (forall x, x < free -> x <> ind p' -> V' !! x = V !! x) ->
  (forall bn, 0 <= bn < k -> block_of V p bn <> ind p') ->
  holds V' free' p' (k + 1) c.
Proof.
  intros [Hi [Hk Hl] Hind Hblk Hnone Hinj Hb] Hi' Hk' Hfr Hind' Hsame (Hn1 & Hn2 & Hn3 & Hn4) Hkeep Hne.
  assert (Hold : forall bn, 0 <= bn < k -> block_of V' p' bn = block_of V p bn) by (intros bn Hbn; apply Hsame; lia).
  split; [done|unfold BSIZE in *; lia| | | | |].
  - destruct Hind' as [[? ?]|[? ?]]; [left; lia|right; split; [lia|done]].
  - intros bn Hbn. destruct (decide (bn = k)) as [->|].
    + split; [lia|]. split; [done|]. exists zero_block. split; [done|apply zero_block_ok].
    + rewrite Hold by lia. destruct (Hblk bn ltac:(lia)) as (B1 & B2 & d & B3 & B4).
      split; [lia|]. split; [apply Hne; lia|]. exists d. split; [|done]. rewrite Hkeep; [done|lia|apply Hne; lia].
  - intros bn Hbn. rewrite Hsame by lia. apply Hnone. lia.
  - intros bn bn' Hbn Hbn' E. destruct (decide (bn = k)) as [->|], (decide (bn' = k)) as [->|]; [done| | |].
    + rewrite (Hold bn') in E by lia. destruct (Hblk bn' ltac:(lia)) as (? & _). lia.
    + rewrite (Hold bn) in E by lia. destruct (Hblk bn ltac:(lia)) as (? & _). lia.
    + rewrite !Hold in E by lia. apply Hinj; [lia|lia|done].
  - intros i Hi0. pose proof (Z.div_mod i BSIZE ltac:(unfold BSIZE; lia)) as Hd. pose proof (BSIZE_bound i) as Hm.
    unfold file_byte. destruct (decide (i / BSIZE = k)) as [E|E].
    + rewrite E, Hn4. rewrite E in Hd. rewrite (nth_overflow c) by lia. unfold zero_block.
      rewrite nth_lookup, lookup_replicate_2; [done|lia].
    + assert (0 <= i / BSIZE < k) as Hq by (unfold BSIZE in *; split; [apply Z.div_pos; lia|lia]).
      rewrite Hold by done. destruct (Hblk _ Hq) as (B1 & B2 & _). rewrite Hkeep; [|lia|by apply Hne].
      apply (Hb i). unfold BSIZE in *. lia.
Qed.

Lemma extends_refl V free p : extends V free p V free p.
Proof. split; auto. done. Qed.

Lemma extends_trans V free p V1 free1 p1 V2 free2 p2 :
  extends V free p V1 free1 p1 -> extends V1 free1 p1 V2 free2 p2 -> extends V free p V2 free2 p2.
Proof.
  intros [A1 A2 A3 A4 A5 (? & ? & ?)] [B1 B2 B3 B4 B5 (? & ? & ?)]. split; [lia| | |intros HV; apply B4, A4, HV|auto|by split_and!; congruence].
  - intros x Hx Hr. rewrite B2; [apply A2; [done|lia]| |lia]. intros [?|?]%A3; [done|lia].
  - intros x [?|?]%B3; [|right; lia]. destruct (A3 x) as [?|?]; [done|by left|right; lia].
Qed.

(** The blocks that are still to be handed out are zero. *)
Definition fresh V (free : Z) : Prop := forall b, free <= b < fssize -> V !! b = Some zero_block.

(** The blocks that [k] blocks of data take, with the indirect block. *)
Definition blocks_for (k : Z) : Z := if k <=? NDIRECT then k else k + 1.

(** The file grows from [k] to [k + 1] blocks. *)
Record grows V (free : Z) p (k : Z) (c : list Z) V' (free' : Z) p' : Prop := {
  gw_holds : holds V' free' p' (k + 1) c;
  gw_extends : extends V free p V' free' p';
  gw_fresh : fresh V' free';
  gw_free : free' = free + blocks_for (k + 1) - blocks_for k
}.

Lemma owns_below V free p k c x : holds V free p k c -> owns V p x -> data_start <= x < free.
Proof.
  intros [_ _ Hind Hblk Hnone _ _] [Hx [->|(bn & Hbn & ->)]].
  - destruct Hind as [[? _]|(_ & ? & _)]; [done|lia].
  - destruct (decide (bn < k)); [apply Hblk; lia|]. by rewrite Hnone in Hx by lia.
Qed.

Lemma grow_direct V free p k c :
  holds V free p k c -> fresh V free -> k < NDIRECT -> data_start <= free < fssize ->
  let p' := i_with_addr (Z.to_nat k) free p in
  grows V free p k c V (free + 1) p' /\ block_of V p' k = free.
Proof.
  intros H Hf Hk Hfr p'. pose proof (ho_len _ _ _ _ _ H) as [Hk0 _]. pose proof (ho_inode _ _ _ _ _ H) as Hi.
  pose proof data_start_pos as Hpos.
  assert (Hb : 0 <= free < 2 ^ 32) by (unfold fssize in *; lia).
  pose proof (direct_extended V p free k Hi ltac:(lia) Hb) as E. fold p' in E.
  assert (NDIRECT < MAXFILE) as Hnm by done.
  assert (Ek : block_of V p' k = free) by (rewrite E, decide_True by lia; done).
  assert (Hind : ind p' = 0).
  { destruct (ho_ind _ _ _ _ _ H) as [[? _]|[? _]]; [|lia]. unfold ind, p'. rewrite addr_of_with; [|done|unfold NDIRECT in *; lia].
    rewrite decide_False by (unfold NDIRECT in *; lia). done. }
  assert (Hold : ind p = 0) by (destruct (ho_ind _ _ _ _ _ H) as [[? _]|[? _]]; [done|lia]).
  split; [|done]. split.
  - apply (holds_more V V free (free + 1) p p' k c); [done|by apply inode_ok_addr|lia|lia|left; by split| | |done|].
    + intros bn Hbn Hne. by rewrite E, decide_False.
    + rewrite Ek, Hind. split_and!; [lia..|]. apply Hf. lia.
    + intros bn Hbn. rewrite Hind. destruct (ho_blk _ _ _ _ _ H bn Hbn) as (? & _). lia.
  - split; [lia|done| |done|done|done]. intros x [Hx [->|(bn & Hbn & ->)]]; [by rewrite Hind in Hx|].
    rewrite E in Hx |- * by done. case_decide; [right; lia|]. left. split; [done|]. right. by exists bn.
  - intros b Hb'. apply Hf. lia.
  - unfold blocks_for. destruct (Z.leb_spec (k + 1) NDIRECT), (Z.leb_spec k NDIRECT); lia.
Qed.

(** The indirect block has the entry for block [k]. *)
Lemma grow_entry V free p k c a :
  holds V free p k c -> fresh V free -> NDIRECT < k < MAXFILE -> data_start <= free < fssize ->
  V !! ind p = Some a ->
  let V' := <[ind p := st32 a (4 * Z.to_nat (k - NDIRECT)) free]> V in
  grows V free p k c V' (free + 1) p /\ block_of V' p k = free.
Proof.
  intros H Hf Hk Hfr Ha V'. pose proof data_start_pos as Hpos.
  destruct (ho_ind _ _ _ _ _ H) as [[_ ?]|(_ & Hi & a' & Ha' & Hblk)]; [lia|]. simplify_eq.
  assert (Hb : 0 <= free < 2 ^ 32) by (unfold fssize in *; lia).
  pose proof (entry_set V (Superblock 0 0 0 0) p a free k ltac:(lia) Ha (proj1 Hblk) ltac:(lia) Hb) as E. fold V' in E.
  assert (Ek : block_of V' p k = free) by (rewrite E, decide_True; [done|done|unfold NDIRECT in *; lia]).
  assert (Hnew : is_block (st32 a (4 * Z.to_nat (k - NDIRECT)) free)).
  { destruct Hblk as [Hl Hbytes]. split; [unfold st32; rewrite length_st; [done|]|by apply st_bytes].
    rewrite Hl. unfold BSIZE, MAXFILE, NINDIRECT, NDIRECT, BSIZE in *. change (512 / 4) with 128 in *. lia. }
  split; [|done]. split.
  - apply (holds_more V V' free (free + 1) p p k c); [done|apply H|lia|lia| | | | |].
    + right. split; [lia|]. split; [lia|]. eexists. by split; [apply lookup_insert_eq|].
    + intros bn Hbn Hne. by rewrite E, decide_False.
    + rewrite Ek. split_and!; [lia..|]. unfold V'. rewrite lookup_insert_ne by lia. apply Hf. lia.
    + intros x Hx Hne. unfold V'. by rewrite lookup_insert_ne.
    + intros bn Hbn. by apply (ho_blk _ _ _ _ _ H).
  - split; [lia| | | | |done]; [| |by apply insert_blocks|by intros; apply update_some].
    + intros x Hx Hr. unfold V'. rewrite lookup_insert_ne; [done|]. intros <-. apply Hx. split; [lia|by left].
    + intros x [Hx [->|(bn & Hbn & ->)]]; [left; split; [done|by left]|].
      rewrite E in Hx |- * by done. case_decide; [right; lia|]. left. split; [done|]. right. by exists bn.
  - intros b Hb'. unfold V'. rewrite lookup_insert_ne by lia. apply Hf. lia.
  - unfold blocks_for. destruct (Z.leb_spec (k + 1) NDIRECT), (Z.leb_spec k NDIRECT); lia.
Qed.

(** The first block behind the direct ones also takes an indirect block. *)
Lemma grow_indirect V free p c :
  holds V free p NDIRECT c -> fresh V free -> data_start <= free -> free + 1 < fssize ->
  let p' := i_with_addr (Z.to_nat NDIRECT) free p in
  let V' := <[free := st32 zero_block (4 * Z.to_nat (NDIRECT - NDIRECT)) (free + 1)]> V in
  grows V free p NDIRECT c V' (free + 2) p' /\ block_of V' p' NDIRECT = free + 1 /\ ind p' = free.
Proof.
  intros H Hf Hfr Hfr' p' V'. pose proof data_start_pos as Hpos. pose proof (ho_inode _ _ _ _ _ H) as Hi.
  destruct (ho_ind _ _ _ _ _ H) as [[Hind _]|[? _]]; [|lia].
  assert (Hz : V !! free = Some zero_block) by (apply Hf; lia).
  assert (Hind' : ind p' = free) by (unfold ind, p'; rewrite addr_of_with by (done || (unfold NDIRECT; lia)); by rewrite decide_True).
  pose proof (indirect_added V (Superblock 0 0 0 0) p free Hi Hind ltac:(lia) Hz) as E0. fold p' in E0.
  assert (Hb : 0 <= free + 1 < 2 ^ 32) by (unfold fssize in *; lia).
  pose proof (entry_set V (Superblock 0 0 0 0) p' zero_block (free + 1) NDIRECT) as E. rewrite Hind' in E.
  specialize (E ltac:(lia) Hz eq_refl ltac:(done) Hb). fold V' in E.
  assert (Ek : block_of V' p' NDIRECT = free + 1) by (by rewrite E, decide_True).
  assert (Hold : forall bn, 0 <= bn < MAXFILE -> bn <> NDIRECT -> block_of V' p' bn = block_of V p bn).
  { intros bn Hbn Hne. by rewrite E, decide_False, E0. }
  split; [|done]. split.
  - apply (holds_more V V' free (free + 2) p p' NDIRECT c); try done.
    + apply inode_ok_addr; [done|]. unfold fssize in *. lia.
    + lia.
    + right. rewrite Hind'. split; [done|]. split; [lia|]. eexists. split; [apply lookup_insert_eq|].
      split; [unfold st32; rewrite length_st; [done|by apply Nat.leb_le]|apply st_bytes, zero_block_ok].
    + rewrite Ek, Hind'. split_and!; [lia..|]. unfold V'. rewrite lookup_insert_ne by lia. apply Hf. lia.
    + intros x Hx Hne. unfold V'. rewrite lookup_insert_ne; [done|lia].
    + intros bn Hbn. rewrite Hind'. destruct (ho_blk _ _ _ _ _ H bn Hbn) as (? & _). lia.
  - split; [lia| | | | |done]; [| |apply insert_blocks|by intros; apply update_some].
    3: { split; [unfold st32; rewrite length_st; [done|by apply Nat.leb_le]|apply st_bytes, zero_block_ok]. }
    + intros x Hx Hr. unfold V'. rewrite lookup_insert_ne; [done|lia].
    + intros x [Hx [->|(bn & Hbn & ->)]]; [right; lia|].
      destruct (decide (bn = NDIRECT)) as [->|]; [right; lia|]. rewrite Hold in Hx |- * by done.
      left. split; [done|]. right. by exists bn.
  - intros b Hb'. unfold V'. rewrite lookup_insert_ne by lia. apply Hf. lia.
  - change (blocks_for (NDIRECT + 1)) with 14. change (blocks_for NDIRECT) with 12. lia.
Qed.

(** Writing bytes behind those the file has, within its last block. *)
Lemma holds_write V free p k c w d :
  holds V free p k c -> let off := Z.of_nat (length c) in
  off / BSIZE < k -> off mod BSIZE + Z.of_nat (length w) <= BSIZE -> is_bytes w ->
  V !! block_of V p (off / BSIZE) = Some d ->
  let V' := <[block_of V p (off / BSIZE) := splice d (Z.to_nat (off mod BSIZE)) w]> V in
  holds V' free p k (c ++ w) /\ extends V free p V' free p /\ (forall x, ~ owns V p x -> V' !! x = V !! x).
Proof.
  intros H off Hk Hw Hwb Hd V'. pose proof data_start_pos as Hpos.
  pose proof (BSIZE_bound off) as Hm. pose proof (Z.div_mod off BSIZE ltac:(unfold BSIZE; lia)) as Hdm.
  assert (Hq : 0 <= off / BSIZE < k) by (split; [apply Z.div_pos; unfold BSIZE; lia|done]).
  destruct (ho_blk _ _ _ _ _ H _ Hq) as (B1 & B2 & d' & B3 & Hblk). assert (d' = d) as -> by congruence.
  destruct Hblk as [Hl Hdb]. pose proof (ho_len _ _ _ _ _ H) as [Hk0 Hlen].
  assert (Hsp : (Z.to_nat (off mod BSIZE) + length w <= length d)%nat) by (rewrite Hl; lia).
  assert (Hd' : is_block (splice d (Z.to_nat (off mod BSIZE)) w)) by (split; [by rewrite length_splice|by apply splice_bytes]).
  assert (E : forall bn, block_of V' p bn = block_of V p bn).
  { intros bn. apply block_of_ext. unfold V'. by rewrite lookup_insert_ne by done. }
  assert (Hsame : forall x, ~ owns V p x -> V' !! x = V !! x).
  { intros x Hx. unfold V'. rewrite lookup_insert_ne; [done|]. intros <-. apply Hx. split; [lia|right].
    exists (off / BSIZE). split; [lia|done]. }
  split; [|split; [|done]].
  - split; [apply H| | | | | |].
    + split; [done|]. rewrite length_app. fold off. unfold BSIZE in *. lia.
    + destruct (ho_ind _ _ _ _ _ H) as [?|(? & ? & a & ? & ?)]; [by left|right]. split; [done|]. split; [done|].
      exists a. unfold V'. by rewrite lookup_insert_ne by done.
    + intros bn Hbn. rewrite E. destruct (ho_blk _ _ _ _ _ H bn Hbn) as (? & ? & d'' & ? & ?). do 2 (split; [done|]).
      unfold V'. destruct (decide (block_of V p (off / BSIZE) = block_of V p bn)) as [->|]; [rewrite lookup_insert_eq|rewrite lookup_insert_ne by done]; eauto.
    + intros bn Hbn. rewrite E. by apply (ho_none _ _ _ _ _ H).
    + intros bn bn' Hbn Hbn'. rewrite !E. by apply (ho_inj _ _ _ _ _ H).
    + intros i Hi. unfold file_byte. rewrite E. pose proof (BSIZE_bound i) as Hmi.
      pose proof (Z.div_mod i BSIZE ltac:(unfold BSIZE; lia)) as Hdi. pose proof (ho_bytes _ _ _ _ _ H i Hi) as Hbi.
      assert (Hqi : 0 <= i / BSIZE < k) by (unfold BSIZE in *; split; [apply Z.div_pos; lia|lia]).
      unfold file_byte in Hbi. unfold V'. destruct (decide (i / BSIZE = off / BSIZE)) as [Ei|Ei].
      * rewrite Ei in *. rewrite lookup_insert_eq, nth_splice by done. rewrite Hd in Hbi.
        case_decide as Hc; [rewrite app_nth2 by lia; f_equal; lia|]. rewrite Hbi.
        destruct (decide (Z.to_nat i < length c)%nat); [by rewrite app_nth1|].
        rewrite !nth_overflow; [done|rewrite length_app; lia|lia].
      * rewrite lookup_insert_ne by (intros E'; apply Ei; symmetry; by apply (ho_inj _ _ _ _ _ H)). rewrite Hbi.
        assert (i / BSIZE < off / BSIZE \/ off / BSIZE < i / BSIZE) as [Hlt|Hlt] by lia.
        -- rewrite app_nth1; [done|]. unfold BSIZE in *. lia.
        -- rewrite !nth_overflow; [done|rewrite length_app; unfold BSIZE in *; lia|unfold BSIZE in *; lia].
  - split; [done|by intros; apply Hsame| |by apply insert_blocks|by intros; apply update_some|done].
    intros x Hx. left. unfold owns, owned in *. by setoid_rewrite E in Hx.
Qed.
End Extend.

(** ** [iappend] *)

Lemma rsect_ok s sec d (Q : block -> mk -> Prop) : img s !! sec = Some d -> Q d s -> wp (rsect sec) Q s.
Proof. intros Hd HQ. unfold rsect. apply wp_bind, wp_gets. cbn [id]. rewrite Hd. by apply wp_ret. Qed.

Lemma wsect_ok s sec d (Q : unit -> mk -> Prop) : Q tt (set_img (<[sec := d]> (img s)) s) -> wp (wsect sec d) Q s.
Proof. intros HQ. by apply wp_modify. Qed.

Lemma next_block_ok s (Q : Z -> mk -> Prop) :
  Q (freeblock s) (Mk (img s) (freeblock s + 1) (usedblocks s + 1) (freeinode s)) -> wp next_block Q s.
Proof. intros HQ. unfold next_block. apply wp_bind, wp_gets. apply wp_bind, wp_modify. by apply wp_ret. Qed.

(** The file has the block already. *)
Lemma iappend_block_found s p k c fbn :
  holds (img s) (freeblock s) p k c -> 0 <= fbn < k ->
  wp (iappend_block p fbn) (fun r s' => r = (p, block_of (img s) p fbn) /\ s' = s) s.
Proof.
  intros H Hf. pose proof data_start_pos as Hpos. destruct (ho_blk _ _ _ _ _ H fbn Hf) as (B1 & _).
  unfold iappend_block, block_of in *. destruct (Z.ltb_spec fbn NDIRECT) as [Hlt|Hge].
  - apply wp_bind. rewrite (proj2 (Z.eqb_neq _ _)) by lia. apply wp_ret. by apply wp_ret.
  - destruct (ho_ind _ _ _ _ _ H) as [[? ?]|(_ & Hi & a & Ha & _)]; [lia|]. unfold ind in *.
    rewrite (proj2 (Z.eqb_neq (addr_of p (Z.to_nat NDIRECT)) 0)) in * by lia. apply wp_bind, wp_ret.
    apply wp_bind, (rsect_ok _ _ a); [done|]. rewrite Ha in *. apply wp_bind. rewrite (proj2 (Z.eqb_neq _ _)) by lia.
    apply wp_ret. by apply wp_ret.
Qed.

(** The file gets its next block. *)
Lemma iappend_block_new s p k c :
  holds (img s) (freeblock s) p k c -> fresh (img s) (freeblock s) -> data_start <= freeblock s -> k < MAXFILE ->
  freeblock s + blocks_for (k + 1) - blocks_for k <= fssize ->
  wp (iappend_block p k) (fun r s' => exists V' p' free', r = (p', block_of V' p' k) /\
    grows (img s) (freeblock s) p k c V' free' p' /\
    s' = Mk V' free' (usedblocks s + (free' - freeblock s)) (freeinode s)) s.
Proof.
  intros H Hfr Hs Hk Hb. pose proof (ho_len _ _ _ _ _ H) as [Hk0 _]. pose proof data_start_pos as Hpos.
  pose proof (ho_none _ _ _ _ _ H k ltac:(lia)) as H0. unfold blocks_for in Hb. unfold iappend_block.
  destruct (Z.ltb_spec k NDIRECT) as [Hlt|Hge].
  - destruct (Z.leb_spec (k + 1) NDIRECT), (Z.leb_spec k NDIRECT); try lia.
    destruct (grow_direct _ _ _ _ _ H Hfr Hlt ltac:(lia)) as [G E].
    assert (E' : addr_of p (Z.to_nat k) = 0) by (unfold block_of in H0; by rewrite (proj2 (Z.ltb_lt _ _)) in H0 by lia).
    rewrite E', Z.eqb_refl. do 2 apply wp_bind. apply next_block_ok. apply wp_ret, wp_ret.
    eexists _, _, _. split; [|split; [exact G|f_equal; lia]]. f_equal.
    unfold block_of. by rewrite (proj2 (Z.ltb_lt _ _)) by lia.
  - destruct (ho_ind _ _ _ _ _ H) as [[Hi Hk']|(Hk' & Hi & a & Ha & Hab)].
    + assert (k = NDIRECT) as -> by lia. change (NDIRECT + 1 <=? NDIRECT) with false in Hb.
      change (NDIRECT <=? NDIRECT) with true in Hb. cbv iota in Hb.
      destruct (grow_indirect _ _ _ _ H Hfr Hs ltac:(lia)) as (G & E & Ei).
      fold (ind p). rewrite Hi, Z.eqb_refl. do 2 apply wp_bind. apply next_block_ok. apply wp_ret.
      fold (ind (i_with_addr (Z.to_nat NDIRECT) (freeblock s) p)). rewrite Ei.
      apply wp_bind, (rsect_ok _ _ zero_block); [apply Hfr; lia|].
      apply wp_bind. change (ld32 zero_block (4 * Z.to_nat (NDIRECT - NDIRECT)) =? 0) with true. cbv iota.
      apply wp_bind, next_block_ok. apply wp_bind, wsect_ok. apply wp_ret, wp_ret. cbn [freeblock].
      eexists _, _, _. split; [|split; [exact G|unfold set_img; cbn; f_equal; lia]]. f_equal.
      rewrite E. unfold ld32, st32. rewrite ld_st_eq by (by apply Nat.leb_le). apply Z.mod_small.
      unfold fssize in *. cbn. lia.
    + destruct (Z.leb_spec (k + 1) NDIRECT), (Z.leb_spec k NDIRECT); try lia.
      destruct (grow_entry _ _ _ _ _ a H Hfr ltac:(lia) ltac:(lia) Ha) as [G E].
      assert (E' : ld32 a (4 * Z.to_nat (k - NDIRECT)) = 0).
      { unfold block_of in H0. rewrite (proj2 (Z.ltb_ge _ _)), (proj2 (Z.eqb_neq _ _)), Ha in H0 by lia. done. }
      fold (ind p). rewrite (proj2 (Z.eqb_neq (ind p) 0)) by lia. apply wp_bind, wp_ret.
      apply wp_bind, (rsect_ok _ _ a); [done|]. apply wp_bind. rewrite E', Z.eqb_refl.
      apply wp_bind, next_block_ok. apply wp_bind, wsect_ok. apply wp_ret, wp_ret. cbn [freeblock].
      eexists _, _, _. split; [|split; [exact G|unfold set_img; cbn; f_equal; lia]]. f_equal.
      rewrite E. destruct Hab as [Hl _]. unfold ld32, st32. rewrite ld_st_eq.
      * apply Z.mod_small. unfold fssize in *. cbn. lia.
      * rewrite Hl. change (Z.to_nat BSIZE) with 512%nat. change NDIRECT with 12 in *. change MAXFILE with 140 in *. lia.
Qed.

(** The data blocks for [n] bytes, and all blocks. *)
Definition nblk (n : Z) : Z := (n + 511) / 512.
Definition cost (n : Z) : Z := blocks_for (nblk n).

Lemma nblk_bounds n : n <= 512 * nblk n < n + 512.
Proof. unfold nblk. pose proof (Z.div_mod (n + 511) 512). pose proof (Z.mod_pos_bound (n + 511) 512). lia. Qed.

Lemma nblk_unique n k : n <= 512 * k < n + 512 -> nblk n = k.
Proof. pose proof (nblk_bounds n). lia. Qed.

Lemma blocks_for_mono k k' : k <= k' -> blocks_for k <= blocks_for k'.
Proof. unfold blocks_for. intros. destruct (Z.leb_spec k NDIRECT), (Z.leb_spec k' NDIRECT); lia. Qed.

(** The part of the builder's state that appending to one file relies on. *)
Record ready (s : mk) : Prop := {
  rd_free : data_start <= freeblock s;
  rd_used : usedblocks s = freeblock s;
  rd_fresh : fresh (img s) (freeblock s)
}.

(** A file [p] with the bytes [c] has become [p'] with the bytes [c']. *)
Record appended (s : mk) (p : inode) (n : Z) (s' : mk) (p' : inode) (c' : list Z) : Prop := {
  ap_holds : holds (img s') (freeblock s') p' (nblk (Z.of_nat (length c'))) c';
  ap_extends : extends (img s) (freeblock s) p (img s') (freeblock s') p';
  ap_ready : ready s';
  ap_free : freeblock s' = freeblock s + cost (Z.of_nat (length c')) - cost n;
  ap_inode : freeinode s' = freeinode s
}.

(** The block for the next byte. *)
Lemma iappend_block_spec s p c :
  let n := Z.of_nat (length c) in
  holds (img s) (freeblock s) p (nblk n) c -> ready s -> n / BSIZE < MAXFILE ->
  freeblock s + cost (n + 1) - cost n <= fssize ->
  wp (iappend_block p (n / BSIZE)) (fun r s' => ready s' /\ freeinode s' = freeinode s /\
    holds (img s') (freeblock s') r.1 (nblk (n + 1)) c /\ n / BSIZE < nblk (n + 1) /\
    extends (img s) (freeblock s) p (img s') (freeblock s') r.1 /\
    freeblock s' = freeblock s + cost (n + 1) - cost n /\ r.2 = block_of (img s') r.1 (n / BSIZE)) s.
Proof.
  intros n H [R1 R2 R3] Hm Hb. pose proof (nblk_bounds n) as Hn. pose proof (nblk_bounds (n + 1)) as Hn1.
  pose proof (Z.div_mod n BSIZE ltac:(done)) as Hd. pose proof (BSIZE_bound n) as Hmod. unfold cost in *.
  assert (0 <= n) by lia. change BSIZE with 512 in *. destruct (decide (n mod 512 = 0)) as [E|E].
  - assert (nblk n = n / 512) as E1 by (apply nblk_unique; lia). assert (nblk (n + 1) = n / 512 + 1) as E2 by (apply nblk_unique; lia).
    rewrite E1, E2 in *. eapply wp_mono; [by apply (iappend_block_new s p (n / 512) c)|].
    intros r s' (V' & p' & free' & -> & [G1 G2 G3 G4] & ->). cbn [fst snd img freeblock usedblocks freeinode].
    pose proof (ex_free _ _ _ _ _ _ G2). split; [split; cbn; [lia|lia|done]|]. split_and!; try done; lia.
  - assert (nblk n = n / 512 + 1) as E1 by (apply nblk_unique; lia). assert (nblk (n + 1) = n / 512 + 1) as E2 by (apply nblk_unique; lia).
    rewrite E1, E2 in *. eapply wp_mono; [apply (iappend_block_found s p (n / 512 + 1) c); [done|]|].
    + split; [apply Z.div_pos; lia|lia].
    + intros r s' [-> ->]. cbn [fst snd]. split_and!; try done; [lia|apply extends_refl|lia].
Qed.

Lemma iappend_loop_spec : forall fuel w s p c,
  let n := Z.of_nat (length c) in let m := n + Z.of_nat (length w) in
  holds (img s) (freeblock s) p (nblk n) c -> ready s -> is_bytes w -> (length w < fuel)%nat ->
  m <= MAXFILE * BSIZE -> freeblock s + cost m - cost n <= fssize ->
  wp (iappend_loop fuel p n w) (fun r s' => r.2 = m /\ appended s p n s' r.1 (c ++ w)) s.
Proof.
  induction fuel as [|fuel IH]; intros w s p c n m H R Hw Hf Hm Hb; [lia|]. cbn [iappend_loop].
  destruct (Z.leb_spec (Z.of_nat (length w)) 0) as [Hz|Hz].
  { assert (w = []) as -> by (destruct w; [done|cbn in Hz; lia]). apply wp_ret. cbn in m. split; [cbn; lia|].
    rewrite app_nil_r. split; try done; [apply extends_refl|fold n; lia]. }
  change 512 with BSIZE. pose proof (Z.div_mod n BSIZE ltac:(done)) as Hd. pose proof (BSIZE_bound n) as Hmod.
  assert (Hq : n / BSIZE < MAXFILE) by (apply Z.div_lt_upper_bound; [done|lia]).
  assert (Hq0 : 0 <= n / BSIZE) by (apply Z.div_pos; [lia|done]).
  pose proof (blocks_for_mono (nblk (n + 1)) (nblk m) ltac:(pose proof (nblk_bounds (n + 1)); pose proof (nblk_bounds m); lia)) as Hmono.
  apply wp_bind. rewrite (proj2 (Z.ltb_lt _ _) Hq). apply wp_ret. apply wp_bind.
  eapply wp_mono; [apply (iappend_block_spec s p c); try done; unfold cost in *; fold n; lia|]. fold n.
  intros [p1 x] s1 (R1 & F1 & H1 & Hlt & X1 & E1 & ->). cbn [fst snd] in *.
  set (n1 := Z.min (Z.of_nat (length w)) ((n / BSIZE + 1) * BSIZE - n)) in *.
  assert (Hn1 : 0 < n1 <= Z.of_nat (length w) /\ n mod BSIZE + n1 <= BSIZE) by (unfold BSIZE in *; lia).
  destruct (ho_blk _ _ _ _ _ H1 (n / BSIZE) ltac:(lia)) as (B1 & _ & d & Hd1 & _).
  apply wp_bind, (rsect_ok _ _ d); [done|]. apply wp_bind, wsect_ok.
  replace (n - n / BSIZE * BSIZE) with (n mod BSIZE) by lia.
  set (w1 := take (Z.to_nat n1) w). assert (Hw1 : Z.of_nat (length w1) = n1) by (unfold w1; rewrite length_take; lia).
  assert (Ew : w = w1 ++ drop (Z.to_nat n1) w) by (symmetry; apply take_drop).
  pose proof (holds_write (img s1) (freeblock s1) p1 _ c w1 d H1 ltac:(fold n; lia) ltac:(fold n; lia)
    ltac:(by apply Forall_take) Hd1) as (H2 & O2 & S2). fold n in H2, S2, O2. set (s2 := set_img _ s1).
  assert (Hlc : Z.of_nat (length (c ++ w1)) = n + n1) by (rewrite length_app; lia).
  assert (Hnb : nblk (n + 1) = nblk (n + n1)).
  { symmetry. apply nblk_unique. pose proof (nblk_bounds (n + 1)). unfold BSIZE in *. lia. }
  rewrite Hnb in *. assert (X2 : extends (img s) (freeblock s) p (img s2) (freeblock s2) p1)
    by (eapply extends_trans; [exact X1|exact O2]).
  assert (Hld : Z.of_nat (length (drop (Z.to_nat n1) w)) = Z.of_nat (length w) - n1) by (rewrite length_drop; lia).
  rewrite <-Hlc. eapply wp_mono; [apply (IH (drop (Z.to_nat n1) w) s2 p1 (c ++ w1)); rewrite ?Hlc, ?Hld|].
  - exact H2.
  - destruct R1 as [? ? Hfresh]. split; [done|done|]. intros b Hb'. unfold s2. cbn. rewrite S2; [by apply Hfresh|].
    intros Ho. pose proof (owns_below _ _ _ _ _ _ H1 Ho). cbn in *. lia.
  - by apply Forall_drop.
  - lia.
  - lia.
  - replace (n + n1 + (Z.of_nat (length w) - n1)) with m by lia. unfold cost in *. rewrite Hnb in *. cbn. lia.
  - intros r s' [Hr [A1 A2 A3 A4 A5]]. rewrite Hlc, Hld in *. split; [lia|]. rewrite <-app_assoc, <-Ew in *.
    split; try done; [by eapply extends_trans| |cbn in *; congruence].
    rewrite A4. unfold cost in *. cbn. rewrite E1, Hnb. lia.
Qed.

(** ** The image as a whole *)

(** Inode [inum] is in use with the type [ty], one link and the bytes [c]. *)
Definition stored (V : gmap Z block) (free inum ty : Z) (c : list Z) (p : inode) : Prop :=
  inode_on V inum zero_inode = Some p /\ i_type p = ty /\ i_nlink p = 1 /\ i_size p = Z.of_nat (length c) /\
  holds V free p (nblk (Z.of_nat (length c))) c.

(** The files [F], by inode number, with types and contents. *)
Record built (s : mk) (F : gmap Z (Z * list Z)) : Prop := {
  bu_ready : ready s;
  bu_some : forall b, 0 <= b < fssize -> is_Some (img s !! b);
  bu_blocks : forall b d, img s !! b = Some d -> is_block d;
  bu_super : img s !! 1 = Some (splice zero_block 0 superblock_bytes);
  bu_file : forall inum ty c, F !! inum = Some (ty, c) ->
    0 <= inum < ninodes /\ exists p, stored (img s) (freeblock s) inum ty c p;
  bu_apart : forall i j p q x, is_Some (F !! i) -> is_Some (F !! j) -> i <> j ->
    inode_on (img s) i zero_inode = Some p -> inode_on (img s) j zero_inode = Some q ->
    owns (img s) p x -> ~ owns (img s) q x
}.

Lemma IBLOCK_range inum : 0 <= inum < ninodes -> 2 <= IBLOCK inum < data_start.
Proof.
  intros H. unfold IBLOCK. rewrite IPB_eq. change data_start with 29. unfold ninodes in H.
  pose proof (Z.div_mod inum 8). pose proof (Z.mod_pos_bound inum 8). lia.
Qed.

(** What a file is depends on its inode's addresses and its own blocks. *)
Lemma holds_addrs V free p p' k c :
  i_addrs p' = i_addrs p -> inode_ok p' -> holds V free p k c ->
  holds V free p' k c /\ forall x, owns V p' x <-> owns V p x.
Proof.
  intros E Hi [H1 H2 H3 H4 H5 H6 H7]. assert (Ei : ind p' = ind p) by (unfold ind, addr_of; by rewrite E).
  assert (Eb : forall bn, block_of V p' bn = block_of V p bn) by (intros bn; unfold block_of, ind, addr_of; by rewrite E).
  split; [|intros x; unfold owns, owned; setoid_rewrite Eb; by rewrite Ei].
  split; rewrite ?Ei; try done; intros; unfold file_byte in *; rewrite ?Eb in *; auto.
Qed.

Lemma holds_frame V V' free free' p k c :
  holds V free p k c -> free <= free' -> (forall x, owns V p x -> V' !! x = V !! x) ->
  holds V' free' p k c /\ forall x, owns V' p x <-> owns V p x.
Proof.
  intros H Hf Hs. pose proof data_start_pos as Hpos. destruct H as [H1 H2 H3 H4 H5 H6 H7].
  assert (Eb : forall bn, block_of V' p bn = block_of V p bn).
  { intros bn. apply block_of_ext'. intros Hi. apply Hs. split; [done|by left]. }
  assert (Hd : forall bn, 0 <= bn < k -> V' !! block_of V p bn = V !! block_of V p bn).
  { intros bn Hbn. destruct (H4 bn Hbn) as (? & _). apply Hs. split; [lia|]. right. exists bn. split; [lia|done]. }
  split; [|intros x; unfold owns, owned; by setoid_rewrite Eb].
  split; try done.
  - destruct H3 as [?|(? & ? & a & ? & ?)]; [by left|right]. split_and!; [done|lia|lia|]. exists a.
    split; [|done]. rewrite Hs; [done|]. split; [lia|by left].
  - intros bn Hbn. rewrite Eb. destruct (H4 bn Hbn) as (? & ? & d & ? & ?). split_and!; [lia|lia|done|].
    exists d. by rewrite Hd.
  - intros bn Hbn. rewrite Eb. by apply H5.
  - intros bn bn' Hbn Hbn'. rewrite !Eb. by apply H6.
  - intros i Hi. unfold file_byte in *. rewrite Eb, Hd; [by apply H7|]. unfold BSIZE in *.
    split; [apply Z.div_pos; lia|]. apply Z.div_lt_upper_bound; lia.
Qed.

(** Storing an inode: it can be read back, and the others are as before. *)
Lemma inode_on_put V inum p d :
  V !! IBLOCK inum = Some d -> is_block d -> inode_ok p ->
  let V' := <[IBLOCK inum := put_dinode p (dinode_off inum) d]> V in
  inode_on V' inum zero_inode = Some (loaded zero_inode p) /\
  (forall j, j <> inum -> inode_on V' j zero_inode = inode_on V j zero_inode) /\
  is_block (put_dinode p (dinode_off inum) d).
Proof.
  intros HV Hd Hp V'. pose proof (dinode_off_bound inum) as Ho. rewrite <-(proj1 Hd) in Ho.
  pose proof (proj1 (io_addrs _ Hp)) as Hl. split; [|split].
  - unfold inode_on, V'. rewrite lookup_insert_eq. cbn. by rewrite get_put_dinode.
  - intros j Hj. unfold inode_on, V'. destruct (decide (IBLOCK inum = IBLOCK j)) as [E|E].
    + rewrite <-E, lookup_insert_eq, HV. cbn. f_equal. apply get_put_dinode_ne; [done|done|].
      destruct (dinode_apart inum j E ltac:(done)); [by right|by left].
    + by rewrite lookup_insert_ne.
  - by apply put_dinode_block.
Qed.

Lemma winode_ok s inum p d (Q : unit -> mk -> Prop) :
  img s !! IBLOCK inum = Some d ->
  Q tt (set_img (<[IBLOCK inum := put_dinode p (dinode_off inum) d]> (img s)) s) -> wp (winode inum p) Q s.
Proof. intros Hd HQ. unfold winode. apply wp_bind, (rsect_ok _ _ d); [done|]. by apply wsect_ok. Qed.

Lemma rinode_ok s inum p (Q : inode -> mk -> Prop) :
  inode_on (img s) inum zero_inode = Some p -> Q p s -> wp (rinode inum) Q s.
Proof.
  unfold inode_on. intros Hp HQ. destruct (img s !! IBLOCK inum) as [d|] eqn:Hd; [|done].
  unfold rinode. apply wp_bind, (rsect_ok _ _ d); [done|]. apply wp_ret. cbn in Hp. by simplify_eq.
Qed.

(** One file has changed, by steps that only touch its own and new blocks, and
    its inode is stored. *)
Lemma built_update s F inum ty c p s1 p1 p2 d :
  built s F -> 0 <= inum < ninodes ->
  (forall j q x, is_Some (F !! j) -> j <> inum -> inode_on (img s) j zero_inode = Some q -> owns (img s) q x -> ~ owns (img s) p x) ->
  (forall x, owns (img s) p x -> data_start <= x) ->
  extends (img s) (freeblock s) p (img s1) (freeblock s1) p1 -> ready s1 ->
  holds (img s1) (freeblock s1) p1 (nblk (Z.of_nat (length c))) c ->
  inode_ok p2 -> i_addrs p2 = i_addrs p1 -> i_type p2 = ty -> i_nlink p2 = 1 -> i_size p2 = Z.of_nat (length c) ->
  img s1 !! IBLOCK inum = Some d ->
  built (set_img (<[IBLOCK inum := put_dinode p2 (dinode_off inum) d]> (img s1)) s1) (<[inum := (ty, c)]> F).
Proof.
  intros B Hin Hex Hlow X R1 H1 Hok Ead Ety Enl Esz Hd. pose proof (IBLOCK_range inum Hin) as Hib.
  pose proof (bu_ready _ _ B) as [R0 _ _]. pose proof (ex_free _ _ _ _ _ _ X) as Hfr.
  pose proof (ex_blocks _ _ _ _ _ _ X (bu_blocks _ _ B)) as Hblk.
  destruct (inode_on_put (img s1) inum p2 d Hd (Hblk _ _ Hd) Hok) as (P1 & P2 & P3).
  set (V2 := <[IBLOCK inum := put_dinode p2 (dinode_off inum) d]> (img s1)) in *.
  assert (Hhigh : forall x, data_start <= x -> V2 !! x = img s1 !! x) by (intros x Hx; unfold V2; rewrite lookup_insert_ne; [done|lia]).
  (* the file itself *)
  destruct (holds_addrs (img s1) (freeblock s1) p1 (loaded zero_inode p2) (nblk (Z.of_nat (length c))) c) as [H2 O2];
    [done|by destruct Hok|done|].
  destruct (holds_frame (img s1) V2 (freeblock s1) (freeblock s1) (loaded zero_inode p2) _ _ H2 ltac:(lia)) as [H3 O3].
  { intros x Hx. apply Hhigh. by destruct (owns_below _ _ _ _ _ _ H2 Hx). }
  (* the other files *)
  assert (Hother : forall j ty' c' q, F !! j = Some (ty', c') -> j <> inum -> stored (img s) (freeblock s) j ty' c' q ->
    stored V2 (freeblock s1) j ty' c' q /\ forall x, owns V2 q x <-> owns (img s) q x).
  { intros j ty' c' q Hj Hne (S1 & S2 & S3 & S4 & S5). destruct (bu_file _ _ B j ty' c' Hj) as [Hjr _].
    pose proof (IBLOCK_range j Hjr) as Hjb.
    destruct (holds_frame (img s) V2 (freeblock s) (freeblock s1) q _ _ S5 Hfr) as [H4 O4].
    { intros x Hx. pose proof (owns_below _ _ _ _ _ _ S5 Hx). rewrite Hhigh by lia.
      apply (ex_same _ _ _ _ _ _ X); [|lia]. apply (Hex j q x); [by rewrite Hj|done|done|done]. }
    split; [|done]. split_and!; try done. rewrite P2 by done. unfold inode_on in *.
    rewrite (ex_same _ _ _ _ _ _ X); [done| |lia]. intros Ho. specialize (Hlow _ Ho). lia. }
  assert (Hsame : forall j q, is_Some (F !! j) -> j <> inum -> inode_on V2 j zero_inode = Some q ->
    inode_on (img s) j zero_inode = Some q /\ forall x, owns V2 q x -> owns (img s) q x /\ x < freeblock s).
  { intros j q [[ty' c'] Hj] Hne Hq. destruct (bu_file _ _ B j ty' c' Hj) as [_ (q' & Hst)].
    destruct (Hother j ty' c' q' Hj Hne Hst) as [(E & _) Ho]. assert (q' = q) as -> by congruence.
    split; [apply Hst|]. intros x Hx. apply Ho in Hx. split; [done|].
    destruct Hst as (_ & _ & _ & _ & S5). by destruct (owns_below _ _ _ _ _ _ S5 Hx). }
  assert (Hown : forall x, owns V2 (loaded zero_inode p2) x -> owns (img s) p x \/ freeblock s <= x).
  { intros x Hx. apply O3, O2 in Hx. destruct (ex_owns _ _ _ _ _ _ X x Hx); [by left|right; lia]. }
  split.
  - destruct R1 as [Ra Rb Rc]. split; [done|done|]. intros b Hb. cbn in *. rewrite Hhigh by lia. by apply Rc.
  - intros b Hb. cbn. apply update_some, (ex_dom _ _ _ _ _ _ X), (bu_some _ _ B b Hb).
  - by apply insert_blocks.
  - cbn. unfold V2. rewrite lookup_insert_ne by lia. rewrite (ex_same _ _ _ _ _ _ X); [apply B| |change data_start with 29 in *; lia].
    intros Ho. specialize (Hlow _ Ho). change data_start with 29 in *. lia.
  - intros j ty' c'. cbn. destruct (decide (j = inum)) as [->|Hne].
    + rewrite lookup_insert_eq. intros [= <- <-]. split; [done|]. exists (loaded zero_inode p2). by split_and!.
    + rewrite lookup_insert_ne by done. intros Hj. destruct (bu_file _ _ B j ty' c' Hj) as [Hjr (q & Hq)].
      split; [done|]. exists q. by apply Hother.
  - intros i j q q' x Hi Hj Hne Hq Hq' Hx Hx'. cbn in *. rewrite <-!not_eq_None_Some in *.
    destruct (decide (i = inum)) as [->|Hni], (decide (j = inum)) as [->|Hnj]; [done| | |].
    + rewrite lookup_insert_ne in Hj by done. destruct (Hsame j q') as [A1 A2]; [by apply not_eq_None_Some|done|done|].
      destruct (A2 x Hx') as [A3 A4]. assert (q = loaded zero_inode p2) as -> by congruence.
      destruct (Hown x Hx) as [Ho|Ho]; [|lia]. revert Ho. apply (Hex j q'); [by apply not_eq_None_Some|done..].
    + rewrite lookup_insert_ne in Hi by done. destruct (Hsame i q) as [A1 A2]; [by apply not_eq_None_Some|done|done|].
      destruct (A2 x Hx) as [A3 A4]. assert (q' = loaded zero_inode p2) as -> by congruence.
      destruct (Hown x Hx') as [Ho|Ho]; [|lia]. revert Ho. apply (Hex i q); [by apply not_eq_None_Some|done..].
    + rewrite lookup_insert_ne in Hi, Hj by done. apply not_eq_None_Some in Hi, Hj.
      destruct (Hsame i q Hi Hni Hq) as [A1 A2], (Hsame j q' Hj Hnj Hq') as [B1 B2].
      destruct (A2 x Hx) as [A3 _], (B2 x Hx') as [B3 _]. by apply (bu_apart _ _ B i j q q' x).
Qed.

Lemma inode_ok_size p n : inode_ok p -> 0 <= n < 2 ^ 32 -> inode_ok (i_with_size n p).
Proof. intros [? ? ? ? ? ?] Hn. by split. Qed.

Lemma MAXFILE_eq : MAXFILE * BSIZE = 71680.
Proof. done. Qed.

(** Appending bytes to a file. *)
Lemma iappend_spec s F inum ty c w :
  let n := Z.of_nat (length c) in let m := n + Z.of_nat (length w) in
  built s F -> F !! inum = Some (ty, c) -> is_bytes w -> m <= MAXFILE * BSIZE ->
  freeblock s + cost m - cost n <= fssize ->
  wp (iappend inum w) (fun _ s' => built s' (<[inum := (ty, c ++ w)]> F) /\
    freeblock s' = freeblock s + cost m - cost n /\ freeinode s' = freeinode s) s.
Proof.
  intros n m B HF Hw Hm Hb. destruct (bu_file _ _ B _ _ _ HF) as [Hin (p & S1 & S2 & S3 & S4 & S5)].
  unfold iappend. apply wp_bind, (rinode_ok _ _ p); [done|]. apply wp_bind. rewrite S4.
  eapply wp_mono; [apply (iappend_loop_spec (S (length w)) w s p c); try done; [apply B|lia]|].
  intros [p1 m'] s1 [-> [A1 A2 A3 A4 A5]]. cbn [fst snd] in *.
  destruct (img s1 !! IBLOCK inum) as [d|] eqn:Hd.
  2: { pose proof (IBLOCK_range inum Hin). change data_start with 29 in *.
       destruct (ex_dom _ _ _ _ _ _ A2 (IBLOCK inum)); [|congruence]. apply (bu_some _ _ B). unfold fssize. lia. }
  assert (Hlen : Z.of_nat (length (c ++ w)) = m) by (rewrite length_app; lia). destruct (ex_rest _ _ _ _ _ _ A2) as (E1 & E2 & E3).
  apply (winode_ok _ _ _ d); [done|]. split; [|by rewrite Hlen in A4].
  apply (built_update s F inum ty (c ++ w) p s1 p1); try done.
  - intros j q x Hj Hne Hq Ho. by apply (bu_apart _ _ B j inum q p x Hj).
  - intros x Ho. by destruct (owns_below _ _ _ _ _ _ S5 Ho).
  - apply inode_ok_size; [apply A1|]. rewrite MAXFILE_eq in Hm. lia.
  - cbn. congruence.
  - cbn. congruence.
Qed.

(** A new inode, for an empty file. *)
Lemma image_ialloc_spec s F ty :
  built s F -> F !! freeinode s = None -> 0 <= freeinode s < ninodes -> - 2 ^ 15 <= ty < 2 ^ 15 ->
  wp (ialloc ty) (fun inum s' => inum = freeinode s /\ built s' (<[freeinode s := (ty, [])]> F) /\
    freeblock s' = freeblock s /\ freeinode s' = freeinode s + 1) s.
Proof.
  intros B HF Hin Hty. unfold ialloc. apply wp_bind, wp_gets. cbn [id]. apply wp_bind, wp_modify.
  set (s1 := Mk _ _ _ _). set (p0 := i_with_size 0 (i_with_nlink 1 (i_with_type ty zero_inode))).
  assert (Hp0 : inode_ok p0).
  { split; cbn; try lia. split; [done|]. by repeat constructor. }
  destruct (bu_some _ _ B (IBLOCK (freeinode s))) as [d Hd].
  { pose proof (IBLOCK_range _ Hin). change data_start with 29 in *. unfold fssize. lia. }
  assert (H0 : forall bn, block_of (img s) p0 bn = 0).
  { assert (Ha : forall k, addr_of p0 k = 0).
    { intros k. unfold addr_of. change (i_addrs p0) with (replicate 13 0). rewrite nth_lookup.
      destruct (replicate 13 0 !! k) as [z|] eqn:E; [|done]. by apply lookup_replicate_1 in E as [-> _]. }
    intros bn. unfold block_of, ind. rewrite !Ha. by case_match. }
  assert (Hno : forall x, ~ owns (img s) p0 x).
  { intros x [Hx [->|(bn & _ & ->)]]; [done|by rewrite H0 in Hx]. }
  assert (Hh : holds (img s) (freeblock s) p0 0 []).
  { split; try done; try (intros; lia). left. by split. }
  apply wp_bind, (winode_ok s1 _ _ d); [done|]. apply wp_ret. split; [done|]. split; [|done].
  apply (built_update s F (freeinode s) ty [] p0 s1 p0); try done.
  - intros x Hx. by apply Hno in Hx.
  - apply extends_refl.
  - by destruct (bu_ready _ _ B).
Qed.

(** Writing the pieces of a file one after the other. *)
Lemma iappends_spec inum ty chunks : forall s F c,
  let n := Z.of_nat (length c) in let m := n + Z.of_nat (length (concat chunks)) in
  built s F -> F !! inum = Some (ty, c) -> is_bytes (concat chunks) -> m <= MAXFILE * BSIZE ->
  freeblock s + cost m - cost n <= fssize ->
  wp (for_ chunks (fun buf => iappend inum buf)) (fun _ s' => built s' (<[inum := (ty, c ++ concat chunks)]> F) /\
    freeblock s' = freeblock s + cost m - cost n /\ freeinode s' = freeinode s) s.
Proof.
  induction chunks as [|w chunks IH]; intros s F c n m B HF Hw Hm Hb; cbn [for_ concat] in *.
  - apply wp_ret. cbn in m. replace m with n by lia. rewrite app_nil_r, insert_id by done. split_and!; [done|lia|done].
  - apply Forall_app in Hw as [Hw1 Hw2]. set (l := Z.of_nat (length w)).
    assert (Em : m = n + l + Z.of_nat (length (concat chunks))) by (unfold m, l; cbn; rewrite length_app; lia).
    pose proof (blocks_for_mono (nblk (n + l)) (nblk m) ltac:(pose proof (nblk_bounds (n + l)); pose proof (nblk_bounds m); lia)) as Hmono.
    apply wp_bind. eapply wp_mono; [apply (iappend_spec s F inum ty c w); try done; fold n l; [lia|unfold cost in *; lia]|].
    fold n l. intros _ s1 (B1 & E1 & I1). assert (Hl : Z.of_nat (length (c ++ w)) = n + l) by (rewrite length_app; lia).
    eapply wp_mono; [apply (IH s1 (<[inum := (ty, c ++ w)]> F) (c ++ w)); rewrite ?Hl; [exact B1|by rewrite lookup_insert_eq|done|lia|]|].
    + replace (n + l + Z.of_nat (length (concat chunks))) with m by lia. lia.
    + rewrite Hl. replace (n + l + Z.of_nat (length (concat chunks))) with m by lia.
      intros _ s2 (B2 & E2 & I2). rewrite insert_insert_eq, <-app_assoc in B2. split_and!; [done|lia|congruence].
Qed.

(** *** The directory *)

Definition dot_entry : list Z := dirent_strcpy ROOTINO [46].
Definition dotdot_entry : list Z := dirent_strcpy ROOTINO [46; 46].

(** The entries of the root directory when the files [fs], names and contents,
    are in the image. *)
Definition dir_entries (fs : list (list Z * list Z)) : list (list Z) :=
  dot_entry :: dotdot_entry :: imap (fun i f => dirent_strncpy (2 + Z.of_nat i) f.1) fs.

Lemma dir_entries_app fs f : dir_entries (fs ++ [f]) = dir_entries fs ++ [dirent_strncpy (2 + Z.of_nat (length fs)) f.1].
Proof. unfold dir_entries. rewrite imap_app. cbn. by rewrite Nat.add_0_r. Qed.

Lemma length_dirent inum name : length (dirent_strncpy inum name) = 16%nat.
Proof. unfold dirent_strncpy. by rewrite length_app, length_le, length_strncpy. Qed.

Lemma dir_entries_length fs : Forall (fun e => length e = 16%nat) (dir_entries fs).
Proof.
  do 2 (constructor; [done|]). apply Forall_lookup. intros i e He. apply list_lookup_imap_Some in He as (f & _ & ->).
  apply length_dirent.
Qed.

Lemma length_concat_const (es : list (list Z)) k : Forall (fun e => length e = k) es -> length (concat es) = (k * length es)%nat.
Proof. induction 1 as [|e es He _ IH]; cbn; [lia|]. rewrite length_app, He, IH. lia. Qed.

Lemma length_dir fs : length (concat (dir_entries fs)) = (16 * (2 + length fs))%nat.
Proof. rewrite (length_concat_const _ 16) by apply dir_entries_length. unfold dir_entries. cbn [length]. by rewrite length_imap. Qed.

Lemma image_strncpy_bytes name n : is_bytes name -> is_bytes (strncpy (ptr name) n).
Proof.
  revert name. induction n as [|n IH]; intros name Hn; cbn; [constructor|]. destruct name as [|x name].
  - cbn. constructor; [lia|]. apply Forall_replicate. lia.
  - inversion Hn; subst. unfold ptr at 1. cbn. destruct (Z.eqb_spec x 0); [constructor; [lia|apply Forall_replicate; lia]|].
    constructor; [done|]. rewrite next_ptr. by apply IH.
Qed.

(** The blocks of the files. *)
Definition total_cost (fs : list (list Z * list Z)) : Z := foldr (fun f n => cost (Z.of_nat (length f.2)) + n) 0 fs.

Lemma total_cost_app fs f : total_cost (fs ++ [f]) = total_cost fs + cost (Z.of_nat (length f.2)).
Proof. induction fs as [|g fs IH]; [cbn; lia|]. unfold total_cost in *. cbn [app foldr]. rewrite IH. lia. Qed.

(** The image holds the files [fs]. *)
Record progress (s : mk) (fs : list (list Z * list Z)) (F : gmap Z (Z * list Z)) : Prop := {
  pg_built : built s F;
  pg_root : F !! ROOTINO = Some (T_DIR, concat (dir_entries fs));
  pg_files : forall i f, fs !! i = Some f -> F !! (2 + Z.of_nat i) = Some (T_FILE, f.2);
  pg_none : forall j, 2 + Z.of_nat (length fs) <= j -> F !! j = None;
  pg_inode : freeinode s = 2 + Z.of_nat (length fs);
  pg_free : freeblock s = data_start + cost (16 * (2 + Z.of_nat (length fs))) + total_cost fs
}.

(** A file on the command line that can be added, and what it becomes. *)
Definition given (f : list Z * option (list (list Z))) : option (list Z * list Z) :=
  match f with
  | (arg, Some chunks) => Some (file_name arg, concat chunks)
  | (_, None) => None
  end.

Record file_given (f : list Z * option (list (list Z))) : Prop := {
  fg_open : is_Some f.2;
  fg_name : (47 ∉ f.1) /\ is_bytes f.1;
  fg_bytes : is_bytes (concat (default [] f.2));
  fg_size : Z.of_nat (length (concat (default [] f.2))) <= MAXFILE * BSIZE
}.

Lemma cost_mono n m : n <= m -> cost n <= cost m.
Proof. intros. apply blocks_for_mono. pose proof (nblk_bounds n). pose proof (nblk_bounds m). lia. Qed.

Lemma cost_0 : cost 0 = 0.
Proof. done. Qed.

Lemma cost_nonneg n : 0 <= n -> 0 <= cost n.
Proof. intros. rewrite <-cost_0. by apply cost_mono. Qed.

Lemma add_file_spec s fs F f g :
  progress s fs F -> file_given f -> given f = Some g -> 2 + Z.of_nat (length fs) < ninodes ->
  data_start + cost (16 * (3 + Z.of_nat (length fs))) + total_cost (fs ++ [g]) <= fssize ->
  wp (add_file ROOTINO f) (fun _ s' => exists F', progress s' (fs ++ [g]) F') s.
Proof.
  intros [P1 P2 P3 P4 P5 P6] [G1 [G2 G3] G4 G5] Hg Hin Hroom. destruct f as [arg [chunks|]]; [|by destruct G1]. cbn in *. simplify_eq.
  rewrite total_cost_app in Hroom. cbn [snd] in Hroom. set (k := Z.of_nat (length fs)) in *.
  set (n := Z.of_nat (length (concat chunks))) in *.
  pose proof (cost_nonneg n ltac:(lia)). pose proof (cost_mono (16 * (2 + k)) (16 * (3 + k)) ltac:(lia)).
  assert (Hname : is_bytes (file_name arg)).
  { destruct arg as [|x arg]; [done|]. cbn. case_match; [by inversion G3|done]. }
  unfold add_file. cbn [fst snd]. apply wp_bind. rewrite bool_decide_false by done. apply wp_ret.
  apply wp_bind. eapply wp_mono; [apply (image_ialloc_spec s F); [done|apply P4; lia|lia|unfold T_FILE; lia]|].
  intros inum s1 (-> & B1 & E1 & I1). rewrite P5 in *. assert (Hld : Z.of_nat (length (concat (dir_entries fs))) = 16 * (2 + k)).
  { rewrite length_dir. unfold k. lia. }
  apply wp_bind. eapply wp_mono; [apply (iappend_spec s1 (<[2 + k := (T_FILE, [])]> F) ROOTINO T_DIR (concat (dir_entries fs)))|].
  - exact B1.
  - rewrite lookup_insert_ne by (unfold ROOTINO; lia). done.
  - apply Forall_app. split; [apply le_bytes|by apply image_strncpy_bytes].
  - rewrite Hld, length_dirent, MAXFILE_eq. unfold ninodes in Hin. lia.
  - rewrite Hld, length_dirent. replace (16 * (2 + k) + Z.of_nat 16) with (16 * (3 + k)) by lia. lia.
  - rewrite Hld, length_dirent. replace (16 * (2 + k) + Z.of_nat 16) with (16 * (3 + k)) by lia.
    intros _ s2 (B2 & E2 & I2). eapply wp_mono; [eapply (iappends_spec (2 + k) T_FILE chunks s2 _ [])|].
    + exact B2.
    + rewrite lookup_insert_ne by (unfold ROOTINO; lia). by rewrite lookup_insert_eq.
    + done.
    + change (Z.of_nat (length ([] : list Z))) with 0. rewrite Z.add_0_l. fold n. done.
    + change (Z.of_nat (length ([] : list Z))) with 0. rewrite Z.add_0_l. fold n. rewrite cost_0. lia.
    + change (Z.of_nat (length ([] : list Z))) with 0. rewrite Z.add_0_l. fold n. rewrite cost_0. intros _ s3 (B3 & E3 & I3). eexists. split.
      * exact B3.
      * rewrite lookup_insert_ne by (unfold ROOTINO; lia). rewrite lookup_insert_eq, dir_entries_app, concat_app.
        cbn. by rewrite app_nil_r.
      * intros i f Hf. apply lookup_app_Some in Hf as [Hf|[Hl Hf]].
        -- pose proof (lookup_lt_Some _ _ _ Hf). rewrite !lookup_insert_ne by (unfold ROOTINO; lia). by apply P3.
        -- apply list_lookup_singleton_Some in Hf as [E <-]. assert (2 + Z.of_nat i = 2 + k) as -> by lia.
           by rewrite lookup_insert_eq.
      * intros j. rewrite length_app. cbn. intros Hj. rewrite !lookup_insert_ne by (unfold ROOTINO; lia). apply P4. lia.
      * rewrite length_app. cbn. lia.
      * rewrite length_app, total_cost_app. cbn. fold n. replace (2 + Z.of_nat (length fs + 1)) with (3 + k) by lia. lia.
Qed.

(** *** The end of [main] *)

(** The bytes behind the end of a file in its last block are zero, so they can
    become part of it. *)
Lemma holds_pad V free p k c m : holds V free p k c -> Z.of_nat (length c + m) <= k * BSIZE ->
  holds V free p k (c ++ replicate m 0).
Proof.
  intros [H1 [H2 _] H3 H4 H5 H6 H7] Hm. split; try done; [split; [done|by rewrite length_app, length_replicate]|].
  intros i Hi. rewrite H7 by done. destruct (decide (Z.to_nat i < length c)%nat); [by rewrite app_nth1|].
  rewrite app_nth2, nth_overflow by lia. rewrite nth_lookup.
  destruct (replicate m 0 !! _) as [z|] eqn:E; [|done]. by apply lookup_replicate_1 in E as [-> _].
Qed.

(** The padding of the root directory. *)
Definition padding (n : Z) : nat := Z.to_nat (BSIZE - n mod BSIZE).

Lemma fix_root_spec s F c :
  let n := Z.of_nat (length c) in
  built s F -> F !! ROOTINO = Some (T_DIR, c) -> n mod BSIZE <> 0 ->
  wp (fix_root ROOTINO) (fun _ s' => built s' (<[ROOTINO := (T_DIR, c ++ replicate (padding n) 0)]> F) /\
    freeblock s' = freeblock s) s.
Proof.
  intros n B HF Hn. destruct (bu_file _ _ B _ _ _ HF) as [Hin (p & S1 & S2 & S3 & S4 & S5)].
  pose proof (BSIZE_bound n) as Hm. pose proof (Z.div_mod n BSIZE ltac:(done)) as Hd.
  assert (Hk : nblk n = n / BSIZE + 1) by (apply nblk_unique; unfold BSIZE in *; lia).
  pose proof (ho_len _ _ _ _ _ S5) as [Hk' _]. fold n in Hk', S4. rewrite Hk in Hk'.
  assert (Hlen : Z.of_nat (length (c ++ replicate (padding n) 0)) = (n / BSIZE + 1) * BSIZE).
  { rewrite length_app, length_replicate. unfold padding. lia. }
  unfold fix_root. apply wp_bind, (rinode_ok _ _ p); [done|]. rewrite S4.
  destruct (bu_some _ _ B (IBLOCK ROOTINO)) as [d Hdd]; [done|].
  apply (winode_ok _ _ _ d); [done|]. split; [|done].
  apply (built_update s F ROOTINO T_DIR _ p s p); try done.
  - intros j q x Hj Hne Hq Ho. by apply (bu_apart _ _ B j ROOTINO q p x Hj).
  - intros x Ho. by destruct (owns_below _ _ _ _ _ _ S5 Ho).
  - apply extends_refl.
  - apply B.
  - rewrite Hlen. replace (nblk ((n / BSIZE + 1) * BSIZE)) with (nblk n).
    + apply holds_pad; [done|]. rewrite Hk. unfold padding. lia.
    + rewrite Hk. symmetry. apply nblk_unique. unfold BSIZE in *. lia.
  - apply inode_ok_size; [apply S5|]. assert (0 <= n / BSIZE) by (apply Z.div_pos; [lia|done]).
    change MAXFILE with 140 in *. change BSIZE with 512 in *. lia.
Qed.

(** The bitmap shows the first [used] blocks as used. *)
Lemma marked_bits l d b : is_block d -> Forall (fun i => 0 <= i < BPB) l -> 0 <= b ->
  is_block (foldl (fun buf i => mark_used i buf) d l) /\
  bit_of (foldl (fun buf i => mark_used i buf) d l) b = bool_decide (b ∈ l) || bit_of d b.
Proof.
  intros Hd Hl Hb. revert d Hd. induction Hl as [|i l Hi Hl IH]; intros d Hd; cbn [foldl]; [done|].
  destruct (IH (mark_used i d)) as [I1 I2]; [by apply mark_used_block|]. split; [done|].
  rewrite I2, bit_of_mark_used by done. destruct (Z.eqb_spec i b) as [->|Hne].
  - rewrite (bool_decide_true (b ∈ b :: l)) by (by left). by rewrite orb_true_r.
  - rewrite (bool_decide_ext (b ∈ i :: l) (b ∈ l)); [done|]. set_solver.
Qed.

Definition mkfs_sb : superblock := Superblock fssize nblocks ninodes nlog.

Lemma image_balloc_spec s F :
  built s F -> (forall inum f, F !! inum = Some f -> 0 <= inum < ninodes) -> usedblocks s < BPB ->
  wp (balloc (usedblocks s)) (fun _ s' => built s' F /\ usedblocks s' = usedblocks s /\
    forall b, 0 <= b < fssize -> used (img s') mkfs_sb b = (b <? usedblocks s)) s.
Proof.
  intros B HF Hu. pose proof (bu_ready _ _ B) as [R1 R2 R3].
  assert (Hl : Forall (fun i => 0 <= i < BPB) (Z.of_nat <$> upto (usedblocks s))).
  { apply Forall_fmap, Forall_forall. intros i Hi%elem_of_seq. cbn. lia. }
  assert (Hm : BBLOCK 0 ninodes = ninodes / IPB + 3) by done.
  unfold balloc. apply wp_bind. change (512 * 8) with BPB. rewrite (proj2 (Z.ltb_lt _ _) Hu). apply wp_ret.
  set (bm := foldl _ _ _). assert (Hbm : is_block bm) by (apply (marked_bits _ _ 0); [apply zero_block_ok|done|done]).
  apply wsect_ok. split; [|split; [done|]].
  - destruct B as [B1 B2 B3 B4 B5 B6].
    assert (Hhi : forall x, data_start <= x -> <[ninodes / IPB + 3 := bm]> (img s) !! x = img s !! x).
    { intros x Hx. rewrite lookup_insert_ne; [done|]. change (ninodes / IPB + 3) with 28. change data_start with 29 in Hx. lia. }
    assert (Hino : forall j, 0 <= j < ninodes -> inode_on (<[ninodes / IPB + 3 := bm]> (img s)) j zero_inode = inode_on (img s) j zero_inode).
    { intros j Hj. unfold inode_on. rewrite lookup_insert_ne; [done|]. change (ninodes / IPB + 3) with 28.
      unfold IBLOCK. rewrite IPB_eq. unfold ninodes in Hj. pose proof (Z.div_mod j 8). pose proof (Z.mod_pos_bound j 8). lia. }
    assert (Hst : forall j ty c q, stored (img s) (freeblock s) j ty c q -> 0 <= j < ninodes ->
      stored (<[ninodes / IPB + 3 := bm]> (img s)) (freeblock s) j ty c q /\
      forall x, owns (<[ninodes / IPB + 3 := bm]> (img s)) q x <-> owns (img s) q x).
    { intros j ty c q (S1 & S2 & S3 & S4 & S5) Hj.
      destruct (holds_frame (img s) (<[ninodes / IPB + 3 := bm]> (img s)) _ _ q _ _ S5 (Z.le_refl _)) as [H1 H2].
      { intros x Hx. apply Hhi. by destruct (owns_below _ _ _ _ _ _ S5 Hx). }
      split; [|done]. split_and!; try done. by rewrite Hino. }
    split; cbn.
    + split; [done|done|]. intros b Hb. cbn in *. rewrite Hhi by lia. by apply R3.
    + intros b Hb. by apply update_some, B2.
    + by apply insert_blocks.
    + by rewrite lookup_insert_ne.
    + intros j ty c Hj. destruct (B5 j ty c Hj) as [Hr (q & Hq)]. split; [done|]. exists q. by apply Hst.
    + intros i j q q' x [[ty c] Hi] [[ty' c'] Hj] Hne Hq Hq'.
      destruct (B5 _ _ _ Hi) as [Hri (qi & Hqi)], (B5 _ _ _ Hj) as [Hrj (qj & Hqj)].
      rewrite Hino in Hq, Hq' by done. assert (qi = q) as -> by (destruct Hqi; congruence).
      assert (qj = q') as -> by (destruct Hqj; congruence).
      rewrite (proj2 (Hst _ _ _ _ Hqi Hri)), (proj2 (Hst _ _ _ _ Hqj Hrj)).
      by apply (B6 i j q q' x).
  - intros b Hb. cbn. unfold used, BBLOCK, mkfs_sb. cbn. rewrite (Z.div_small b BPB) by (unfold fssize, BPB, BSIZE in *; lia).
    rewrite Z.mod_small by (unfold fssize, BPB, BSIZE in *; lia). change (0 + ninodes / IPB + 3) with (ninodes / IPB + 3).
    rewrite lookup_insert_eq. destruct (marked_bits (Z.of_nat <$> upto (usedblocks s)) zero_block b) as [_ E]; [apply zero_block_ok|done|lia|].
    fold bm in E. rewrite E. clear E.
    assert (bit_of zero_block b = false) as ->.
    { unfold bit_of, byte_of, zero_block. rewrite nth_lookup. destruct (replicate _ _ !! _) as [z|] eqn:E; [|apply Z.testbit_0_l].
      apply lookup_replicate_1 in E as [-> _]. apply Z.testbit_0_l. }
    rewrite orb_false_r. apply eq_bool_prop_intro. rewrite bool_decide_spec, Is_true_true, Z.ltb_lt, list_elem_of_fmap.
    unfold upto. setoid_rewrite elem_of_seq. split; [intros (y & -> & Hy); lia|]. intros Hlt. exists (Z.to_nat b). lia.
Qed.

Lemma zero_all l : forall s,
  wp (for_ l (fun i => wsect i zero_block)) (fun _ s' => (forall x, img s' !! x = if decide (x ∈ l) then Some zero_block else img s !! x) /\
    freeblock s' = freeblock s /\ usedblocks s' = usedblocks s /\ freeinode s' = freeinode s) s.
Proof.
  induction l as [|i l IH]; intros s; cbn [for_]; [by apply wp_ret|].
  apply wp_bind, wsect_ok. eapply wp_mono; [apply IH|]. intros _ s' (E & E1 & E2 & E3). split_and!; try done.
  intros x. rewrite E. cbn. destruct (decide (x ∈ l)); [by rewrite decide_True by (by right)|].
  destruct (decide (x = i)) as [->|]; [by rewrite lookup_insert_eq, decide_True by (by left)|].
  rewrite lookup_insert_ne, decide_False by set_solver. done.
Qed.

Lemma built_empty V :
  (forall b, V !! b = if decide (0 <= b < fssize) then Some zero_block else None) ->
  built (Mk (<[1 := splice zero_block 0 superblock_bytes]> V) data_start data_start 1) ∅.
Proof.
  intros HV. assert (Hsb : is_block (splice zero_block 0 superblock_bytes)).
  { split; [done|]. apply splice_bytes; [apply zero_block_ok|]. by repeat (apply Forall_app; split; [apply le_bytes|]); apply le_bytes. }
  split; cbn; try done.
  - split; cbn; try done. intros b Hb. change data_start with 29 in Hb. rewrite lookup_insert_ne by lia.
    rewrite HV, decide_True by lia. done.
  - intros b Hb. apply update_some. by rewrite HV, decide_True.
  - apply insert_blocks; [done|]. intros b d. rewrite HV. case_decide; [|done]. intros [= <-]. apply zero_block_ok.
  - by rewrite lookup_insert_eq.
  - intros i j p q x [? [=]].
Qed.

(** The root directory with its first two entries. *)
Lemma make_root_spec s :
  built s ∅ -> freeblock s = data_start -> freeinode s = 1 ->
  wp make_root (fun r s' => r = ROOTINO /\ exists F, progress s' [] F) s.
Proof.
  intros B Hf Hi. apply wp_bind. eapply wp_mono; [apply (image_ialloc_spec s ∅); [done|done|by rewrite Hi|done]|].
  intros inum s1 (-> & B1 & E1 & I1). rewrite Hi in *. apply wp_bind, wp_ret.
  assert (Hdot : forall name, is_bytes name -> (length name < 14)%nat -> is_bytes (dirent_strcpy 1 name)).
  { intros name Hn Hl. apply Forall_app. split; [apply le_bytes|]. apply splice_bytes.
    - apply Forall_replicate. lia.
    - apply Forall_app. split; [done|]. repeat constructor; lia. }
  apply wp_bind. eapply wp_mono; [eapply (iappend_spec s1 _ 1 T_DIR []); [exact B1|by rewrite lookup_insert_eq| |done|]|].
  { apply Hdot; [repeat constructor; lia|cbn; lia]. }
  { cbn -[fssize data_start cost]. rewrite E1, Hf. vm_compute. congruence. }
  intros _ s2 (B2 & E2 & I2). rewrite insert_insert_eq in B2.
  apply wp_bind. eapply wp_mono; [eapply (iappend_spec s2 _ 1 T_DIR ([] ++ dirent_strcpy 1 [46])); [exact B2|by rewrite lookup_insert_eq| |done|]|].
  { apply Hdot; [repeat constructor; lia|cbn; lia]. }
  { rewrite E2, E1, Hf. vm_compute. congruence. }
  intros _ s3 (B3 & E3 & I3). rewrite insert_insert_eq in B3. apply wp_ret. split; [done|]. eexists. split; [exact B3|..].
  - done.
  - done.
  - intros j Hj. cbn in Hj. rewrite lookup_insert_ne by lia. done.
  - by rewrite I3, I2, I1.
  - rewrite E3, E2, E1, Hf. done.
Qed.

Lemma add_files_spec files : forall s fs F gs,
  progress s fs F -> Forall file_given files -> Forall2 (fun f g => given f = Some g) files gs ->
  2 + Z.of_nat (length fs + length gs) <= ninodes ->
  data_start + cost (16 * (2 + Z.of_nat (length fs + length gs))) + total_cost (fs ++ gs) <= fssize ->
  wp (for_ files (add_file ROOTINO)) (fun _ s' => exists F', progress s' (fs ++ gs) F') s.
Proof.
  induction files as [|f files IH]; intros s fs F gs P Hg Hm Hin Hroom; cbn [for_].
  - inversion Hm; subst. rewrite app_nil_r. apply wp_ret. by exists F.
  - inversion Hm as [|? g ? gs' Hg1 Hg2]; subst. inversion Hg as [|? ? Hf Hfs]; subst.
    cbn [length] in *. assert (Hsplit : fs ++ g :: gs' = (fs ++ [g]) ++ gs') by (by rewrite <-app_assoc).
    rewrite Hsplit in *. assert (Hpos : forall l l', total_cost l <= total_cost (l ++ l')).
    { intros l l'. induction l as [|x l IHl]; cbn; [|unfold total_cost in *; cbn; lia].
      induction l' as [|x l' IHl']; [done|]. unfold total_cost in *. cbn [foldr]. pose proof (cost_nonneg (Z.of_nat (length x.2))). lia. }
    specialize (Hpos (fs ++ [g]) gs').
    pose proof (cost_mono (16 * (3 + Z.of_nat (length fs))) (16 * (2 + Z.of_nat (length fs + S (length gs')))) ltac:(lia)).
    apply wp_bind. eapply wp_mono; [apply (add_file_spec s fs F f g); [done|done|done|lia|lia]|].
    intros _ s1 (F1 & P1). apply (IH s1 (fs ++ [g]) F1 gs'); try done; rewrite length_app; cbn [length].
    + lia.
    + replace (length fs + 1 + length gs')%nat with (length fs + S (length gs'))%nat by lia. done.
Qed.

Lemma mkfs_spec files fs :
  let n := 2 + Z.of_nat (length fs) in
  Forall file_given files -> Forall2 (fun f g => given f = Some g) files fs -> n <= ninodes -> n mod 32 <> 0 ->
  data_start + cost (16 * n) + total_cost fs <= fssize ->
  wp (mkfs_main files) (fun _ s => usedblocks s = data_start + cost (16 * n) + total_cost fs /\
    (forall b, 0 <= b < fssize -> used (img s) mkfs_sb b = (b <? usedblocks s)) /\
    exists F, built s F /\ F !! ROOTINO = Some (T_DIR, concat (dir_entries fs) ++ replicate (padding (16 * n)) 0) /\
      forall i f, fs !! i = Some f -> F !! (2 + Z.of_nat i) = Some (T_FILE, f.2)) mk_start.
Proof.
  intros n Hg Hfs Hin Hmod Hroom. unfold mkfs_main. apply wp_bind, wp_modify. apply wp_bind, wp_gets. cbn [id usedblocks].
  apply wp_bind, wp_ret. apply wp_bind. eapply wp_mono; [apply zero_all|].
  intros _ s1 (E & E1 & E2 & E3). apply wp_bind, wsect_ok. set (s2 := set_img _ s1).
  assert (B : built s2 ∅).
  { unfold s2, set_img. rewrite E1, E2, E3. cbn. apply built_empty. intros b. rewrite E. cbn [img mk_start].
    assert (b ∈ Z.of_nat <$> upto (nblocks + (ninodes / IPB + 3 + bitblocks) + nlog) <-> 0 <= b < fssize) as Hb.
    { rewrite list_elem_of_fmap. unfold upto. setoid_rewrite elem_of_seq. change (Z.to_nat _) with 1024%nat. unfold fssize.
      split; [intros (y & -> & ?); lia|]. intros Hb. exists (Z.to_nat b). lia. }
    destruct (decide (b ∈ _)) as [H|H], (decide (0 <= b < fssize)) as [H'|H']; try done; [by apply Hb in H|by apply Hb in H']. }
  apply wp_bind. eapply wp_mono; [by apply make_root_spec|]. intros r s3 (-> & F3 & P3).
  apply wp_bind. eapply wp_mono; [apply (add_files_spec files s3 [] F3 fs); cbn; done|].
  intros _ s4 (F4 & [Q1 Q2 Q3 Q4 Q5 Q6]). cbn [app] in *. fold n in Q5, Q6.
  assert (Hld : Z.of_nat (length (concat (dir_entries fs))) = 16 * n) by (rewrite length_dir; unfold n; lia).
  apply wp_bind. eapply wp_mono; [apply (fix_root_spec s4 F4 (concat (dir_entries fs))); [done|done|]|].
  { rewrite Hld. pose proof (Z.div_mod n 32). change BSIZE with (16 * 32). rewrite Zmult_mod_distr_l. lia. }
  rewrite Hld. intros _ s5 (B5 & E5). apply wp_bind, wp_gets. cbn [id].
  pose proof (bu_ready _ _ B5) as [_ Hu _].
  eapply wp_mono; [apply (image_balloc_spec s5 _ B5)|].
  - intros inum [ty c] HF. by apply (bu_file _ _ B5 inum ty c).
  - rewrite Hu, E5, Q6. unfold fssize, BPB, BSIZE in *. lia.
  - intros _ s6 (B6 & E6 & Hbits). rewrite E6 in *. split; [lia|]. split; [done|]. eexists. split; [exact B6|].
    rewrite lookup_insert_eq. split; [done|]. intros i f Hf. rewrite lookup_insert_ne by (unfold ROOTINO; lia). by apply Q3.
Qed.

(** ** What the kernel finds *)

(** A stored file as the kernel's [ilock] and [readi] see it. *)
Lemma stored_kernel V free inum ty c p0 q :
  stored V free inum ty c p0 -> ty <> T_DEV -> i_dev q = ROOTDEV ->
  let p := loaded q p0 in
  inode_on V inum q = Some p /\ i_type p = ty /\ i_nlink p = 1 /\ i_size p = Z.of_nat (length c) /\
  dense V ∅ p /\ file_bytes V p 0 (i_size p) = c.
Proof.
  intros (S1 & S2 & S3 & S4 & S5) Hty Hq p. pose proof data_start_pos as Hpos.
  destruct (holds_addrs V free p0 p _ c eq_refl ltac:(by destruct (ho_inode _ _ _ _ _ S5)) S5) as [H _].
  pose proof (nblk_bounds (Z.of_nat (length c))) as Hn. pose proof (ho_len _ _ _ _ _ H) as [Hk _].
  assert (Hblk : forall i, 0 <= i < Z.of_nat (length c) -> 0 <= i / BSIZE < nblk (Z.of_nat (length c)) /\ i < nblk (Z.of_nat (length c)) * BSIZE).
  { intros i Hi. unfold BSIZE. split; [split; [apply Z.div_pos; lia|apply Z.div_lt_upper_bound; lia]|lia]. }
  split_and!; try done.
  - unfold inode_on in *. destruct (V !! IBLOCK inum) as [d|]; [|done]. cbn in *. simplify_eq. done.
  - split; try done; [unfold p; cbn; by rewrite S2| |].
    + cbn. rewrite S4. change BSIZE with 512. change MAXFILE with 140 in *. lia.
    + intros i Hi. cbn in Hi. rewrite S4 in Hi. destruct (Hblk i Hi) as [Hb _].
      destruct (ho_blk _ _ _ _ _ H _ Hb) as (? & _ & d & ? & _). split; [lia|]. by exists d.
  - cbn. rewrite S4. apply list_eq. intros k. unfold file_bytes, upto. rewrite list_lookup_fmap.
    destruct (decide (k < length c)%nat) as [Hlt|Hge].
    + rewrite lookup_seq_lt by lia. cbn. rewrite (ho_bytes _ _ _ _ _ H); [|split; [lia|apply Hblk; lia]].
      rewrite nth_lookup, Z.add_0_l, Nat2Z.id. by destruct (lookup_lt_is_Some_2 c k Hlt) as [x ->].
    + rewrite lookup_seq_ge by lia. by rewrite lookup_ge_None_2 by lia.
Qed.

(** A file of whole entries, as a directory. *)
Lemma entries_concat V p es :
  file_bytes V p 0 (i_size p) = concat es -> Forall (fun e => length e = 16%nat) es ->
  i_size p = 16 * Z.of_nat (length es) -> entries V p = es.
Proof.
  intros Hb Hes Hs. apply list_eq. intros k. unfold entries, upto. rewrite list_lookup_fmap, Hs.
  change DIRENT_SIZE with 16. rewrite (Z.mul_comm 16), Z.div_mul, Nat2Z.id by done.
  destruct (decide (k < length es)%nat) as [Hlt|Hge]; [|by rewrite lookup_seq_ge, lookup_ge_None_2 by lia].
  rewrite lookup_seq_lt by done. cbn [fmap option_fmap option_map]. destruct (lookup_lt_is_Some_2 es k Hlt) as [e He]. rewrite He. f_equal.
  apply list_elem_of_split_length in He as (l1 & l2 & -> & Hl1).
  apply Forall_app in Hes as [Hf1 [He Hf2]%Forall_cons].
  assert (Hsize : i_size p = 16 * Z.of_nat k + (16 + 16 * Z.of_nat (length l2))) by (rewrite Hs, length_app; cbn; lia).
  rewrite Hsize, file_bytes_app, file_bytes_app, concat_app in Hb by lia. cbn [concat] in Hb.
  apply app_inj_1 in Hb as [_ Hb]; [|rewrite length_file_bytes, (length_concat_const _ 16) by done; lia].
  apply app_inj_1 in Hb as [Hb _]; [|rewrite length_file_bytes, He; lia].
  rewrite <-Hb. f_equal. lia.
Qed.
