(* ===== verification/UserProps.v ===== *)
(** * What the user programs guarantee

    The theorems about the shell, [grep], [wc], the user library and its
    allocator, with instances on concrete inputs. *)

From S2P Require Import Prelude Bytes Params CString Ulib Grep Sh ShParse ShPrint ShRun ShJobs Utils Umalloc.

(** ** The shell *)

Lemma mean_std :
  (forall l, std_redirs (mean_line l)) /\ (forall p, std_redirs (mean_pipe p)) /\ (forall e, std_redirs (mean_simple e)).
Proof.
  assert (forall rs t, std_redirs t -> std_redirs (foldl redirect t rs)) as Hrs.
  { intros rs. induction rs as [|[d f] rs IH]; intros t Ht; [done|]. cbn [foldl]. apply IH. unfold redirect. destruct d; cbn; tauto. }
  assert (forall n t, std_redirs t -> std_redirs (Nat.iter n TBack t)) as Hn by (intros n t Ht; by induction n).
  apply syntax_ind; intros; cbn [mean_line mean_pipe mean_simple std_redirs]; auto. by apply Hrs.
Qed.

(** C5: The shell runs what the user typed: the text of a command line, with any
    nesting of blocks, pipes, sequences, redirections and background marks,
    parses, and running the result executes exactly the programs the line names,
    in its order, with exactly the descriptors it asks for: files and pipe ends
    in place of standard input and output, and no other pipe end left open. *)
Theorem shell_runs_typed l fuel t n :
  ok_line l -> (parse_fuel (print_line l) <= fuel)%nat -> fds_ok t ->
  exists c b s, parsecmd (print_line l) fuel 0%nat = Ok (c, b) s /\
    run (runcmd (as_run b c)) t n = wanted (mean_line l) t n.
Proof.
  intros Hl Hf Ht. destruct (parsecmd_print l fuel Hl Hf) as (c & b & s & E & Hv). exists c, b, s. split; [done|].
  rewrite Hv. apply run_runcmd; [apply mean_std|done].
Qed.

(** [(ls;cat)<in|wc>out&] *)
Definition demo_line : line :=
  let cmd w := Words [chars w] [] in
  LineEnd (PipeSeq (Block (LineSeq (PipeEnd (cmd "ls")) 0 (LineEnd (PipeEnd (cmd "cat")) 0)) [Redirection Input (chars "in")])
    (PipeEnd (Words [chars "wc"; chars "-l"] [Redirection Append (chars "out")]))) 1.

Lemma demo_line_ok : ok_line demo_line.
Proof.
  assert (forall w, w <> [] -> forallb (fun c => is_word c && negb (c =? 0)) w = true -> ok_word w) as Hw.
  { intros w Hne H. split; [done|]. rewrite Forall_forall. intros c Hc. rewrite forallb_forall in H.
    specialize (H c ltac:(by apply list_elem_of_In)). apply andb_prop in H as [H1 H2]. split; [done|].
    by apply negb_true_iff, Z.eqb_neq in H2. }
  cbn [ok_line ok_pipe ok_simple demo_line]. unfold ok_rds.
  repeat match goal with |- _ /\ _ => split | |- Forall _ _ => constructor | |- ok_word _ => by apply Hw end; cbn; unfold MAXARGS; lia.
Qed.

Definition demo_fds : list (option object) := [Some (Inherited 0); Some (Inherited 1); Some (Inherited 2); None; None; None].

Lemma demo_fds_ok : fds_ok demo_fds.
Proof. split; [by eexists _, _, _|]. exists 3%nat, 4%nat. repeat split. lia. Qed.

Lemma shell_runs_typed_witness : exists c b s,
  parsecmd (print_line demo_line) 200 0%nat = Ok (c, b) s /\
  run (runcmd (as_run b c)) demo_fds 0 =
  ([([chars "ls"], [Some (File (chars "in") 0); Some (WriteEnd 0); Some (Inherited 2); None; None; None]);
    ([chars "cat"], [Some (File (chars "in") 0); Some (WriteEnd 0); Some (Inherited 2); None; None; None]);
    ([chars "wc"; chars "-l"], [Some (ReadEnd 0); Some (File (chars "out") 0x201); Some (Inherited 2); None; None; None])], 1%nat).
Proof.
  apply (shell_runs_typed demo_line 200 demo_fds 0); [exact demo_line_ok| |exact demo_fds_ok]. apply Nat.leb_le. reflexivity.
Defined.

(** C33: The parser always comes to an end: on any line whatsoever it returns a
    command or gives up with an error message, within a number of steps linear
    in the length of the line. *)
Theorem parsecmd_terminates buf fuel :
  (4 * length buf + 4 <= fuel)%nat ->
  (exists c b s, parsecmd buf fuel 0%nat = Ok (c, b) s) \/ (exists msg, parsecmd buf fuel 0%nat = Panic msg).
Proof.
  intros Hf. pose proof (parsecmd_halts buf fuel Hf) as H. unfold halts in H.
  destruct (parsecmd buf fuel 0%nat) as [[c b] s|msg|ch s|]; [left; by eauto|right; by eauto|done|done].
Qed.

Lemma parsecmd_terminates_witness :
  (exists c b s, parsecmd (chars "a <b )") 28 0%nat = Ok (c, b) s) \/ (exists msg, parsecmd (chars "a <b )") 28 0%nat = Panic msg).
Proof. apply parsecmd_terminates. apply Nat.leb_le. reflexivity. Defined.

(** On every line that parses, the strings the programs are given are what
    the line says: ending them in place with NULs overwrites no character of
    another word. *)
Theorem parsecmd_words_intact buf fuel c b s :
  0 ∉ buf -> parsecmd buf fuel 0%nat = Ok (c, b) s -> as_run b c = as_parsed buf c.
Proof. intros H0 E. by apply (parsecmd_strings buf fuel 0 c b s). Qed.

Lemma parsecmd_words_intact_witness :
  let c := LIST (REDIR (EXEC [(0%nat, 1%nat)]) 2 3 (Z.lor O_WRONLY O_CREATE) 1) (EXEC [(4%nat, 5%nat)]) in
  parsecmd (chars "a>b;c") 30 0%nat = Ok (c, [97; 0; 98; 0; 99; 0]) 5%nat /\
  as_run [97; 0; 98; 0; 99; 0] c = as_parsed (chars "a>b;c") c.
Proof.
  intros c. assert (parsecmd (chars "a>b;c") 30 0%nat = Ok (c, [97; 0; 98; 0; 99; 0]) 5%nat) as E by reflexivity.
  split; [exact E|]. apply (parsecmd_words_intact _ 30 c _ 5%nat); [|exact E].
  apply (bool_decide_unpack _). reflexivity.
Defined.

(** The job list stays what it stands for: clearing it removes exactly the
    finished jobs, keeps the others in order, closes the pipe of each job it
    removes, and takes a finished job out of the foreground. *)
Theorem jobs_cleared finished xs s fuel :
  joblist_is s xs -> (length xs < fuel)%nat ->
  wp (clearFinishedJobs fuel finished) (fun _ s' =>
    joblist_is s' (filter (fun x => finished (jid_of s x) = false) xs) /\
    closed s' = closed s ++ (fd_of s <$> filter (fun x => finished (jid_of s x) = true) xs) /\
    (jl_fgJob s ∈ xs -> finished (jid_of s (jl_fgJob s)) = true -> jl_fgJob s' = 0)) s.
Proof.
  intros Hs Hf. eapply wp_mono; [by apply (clear_spec finished xs)|]. intros [] s' (H1 & H2 & H3). split; [done|]. split; [done|].
  intros Hin Hfin. rewrite H3, decide_True; [done|]. by apply list_elem_of_filter.
Qed.

(** Three jobs. *)
Definition demo_jobs : shell :=
  Shell 8 24 16 {[ 8 := Job 1 4 16 0; 16 := Job 2 5 24 8; 24 := Job 3 6 0 16 ]} [].

Lemma demo_jobs_ok : joblist_is demo_jobs [8; 16; 24].
Proof.
  split.
  - repeat (apply NoDup_cons; split; [set_solver|]). apply NoDup_nil_2.
  - set_solver.
  - reflexivity.
  - reflexivity.
  - cbn [linked]. exists (Job 1 4 16 0). split; [reflexivity|]. split; [reflexivity|]. split; [reflexivity|].
    exists (Job 2 5 24 8). split; [reflexivity|]. split; [reflexivity|]. split; [reflexivity|].
    exists (Job 3 6 0 16). split; [reflexivity|]. split; [reflexivity|]. by split.
Qed.

Lemma jobs_cleared_witness : exists s', clearFinishedJobs 10 (fun jid => jid =? 2) demo_jobs = Ok tt s' /\
  joblist_is s' [8; 24] /\ closed s' = [5] /\ jl_fgJob s' = 0.
Proof.
  destruct (wp_run _ _ _ (jobs_cleared (fun jid => jid =? 2) [8; 16; 24] demo_jobs 10 demo_jobs_ok ltac:(apply Nat.ltb_lt; reflexivity)))
    as ([] & s' & E & H1 & H2 & H3).
  exists s'. split; [exact E|]. split; [exact H1|]. split; [exact H2|]. apply H3; [set_solver|reflexivity].
Defined.

(** Starting a job puts it at the end of the list, with its number and the
    pipe to it, and into the foreground unless the command ends with an
    ampersand. *)
Theorem jobs_started p jid fd command xs s :
  joblist_is s xs -> p <> 0 -> p ∉ xs ->
  wp (start_job p jid fd command) (fun _ s' => joblist_is s' (xs ++ [p]) /\ jid_of s' p = jid /\ fd_of s' p = fd /\
    jl_fgJob s' = match command with BACK _ => jl_fgJob s | _ => p end) s.
Proof. intros Hs Hp Hx. eapply wp_mono; [by apply start_job_spec|]. by intros [] s' (H1 & H2 & H3 & H4 & _). Qed.

Lemma jobs_started_witness : exists s', start_job 32 4 7 (BACK (EXEC [])) demo_jobs = Ok tt s' /\
  joblist_is s' [8; 16; 24; 32] /\ jl_fgJob s' = 16.
Proof.
  destruct (wp_run _ _ _ (jobs_started 32 4 7 (BACK (EXEC [])) [8; 16; 24] demo_jobs demo_jobs_ok ltac:(discriminate) ltac:(set_solver)))
    as ([] & s' & E & H1 & _ & _ & H2).
  by exists s'.
Defined.

(** ** [grep] *)

(** C26: The matcher of [grep] decides exactly whether the pattern occurs in the
    text: characters, dots, starred characters and the two anchors mean what
    they should, also a star after any character and a dollar sign or a caret in
    the middle. *)
Theorem grep_match_exact re text : match_ re text = true <-> Pattern.occurs (Pattern.of_text re) text.
Proof. apply match_spec. Qed.

(** [grep] prints exactly the lines with an occurrence of the pattern, in
    their order, for an input of complete lines that one read delivers. *)
Theorem grep_prints_matching pattern ls fuel :
  Forall is_line ls -> Z.of_nat (length (unlines ls)) < bufsize -> (S (length (unlines ls)) < fuel)%nat ->
  grep fuel pattern [unlines ls] = Some (unlines (filter (Pattern.occurs (Pattern.of_text pattern)) ls)).
Proof. apply grep_one_read. Qed.

Lemma grep_prints_matching_witness :
  grep 100 (chars "^h.*o$") [unlines [chars "hello"; chars "hollow"; chars "ho"]] = Some (unlines [chars "hello"; chars "ho"]).
Proof.
  apply (grep_prints_matching (chars "^h.*o$") [chars "hello"; chars "hollow"; chars "ho"] 100).
  - repeat constructor; done.
  - reflexivity.
  - apply Nat.ltb_lt. reflexivity.
Defined.

(** ** The user library and small programs *)

(** Numbers survive printing: [atoi] reads back what ["%d"] prints for a
    number that is not negative, and a negative number prints as a minus sign and
    the digits of its absolute value; what is printed always fits into the
    buffer of [printint]. *)
Theorem printf_atoi_roundtrip str v :
  - 2 ^ 31 < v < 2 ^ 31 ->
  exists w, printf str (chars "%d") (fun _ => u32 v) = Some (if v <? 0 then 45 :: w else w) /\ atoi w = Z.abs v /\ (length w <= 10)%nat.
Proof.
  intros Hv. destruct (printint_dec (u32 v)) as (w & E & Hl & Hd & Hw).
  assert (s32 (u32 v) = v) as Es.
  { unfold s32, u32, wrap. rewrite Zplus_mod_idemp_l. fold (s32 v). by apply s32_small; lia. }
  rewrite Es in *. exists w. split; [|split; [rewrite <- Hw; apply atoi_digits; [done|lia]|done]].
  unfold printf. change (chars "%d") with [37; 100]. cbn [printf_loop]. rewrite E. cbn. by rewrite app_nil_r.
Qed.

Lemma printf_atoi_roundtrip_witness : exists w, printf (fun _ => []) (chars "%d") (fun _ => u32 (-1205)) = Some (45 :: w) /\ atoi w = 1205.
Proof. destruct (printf_atoi_roundtrip (fun _ => []) (-1205) ltac:(lia)) as (w & E & Hw & _). by exists w. Defined.

(** [wc] counts the newlines, the words and the bytes of its input, however
    the reads cut it into pieces. *)
Theorem wc_counts input l :
  delivered input = (l, false) -> Z.of_nat (length l) < 2 ^ 31 ->
  exists b, wc_loop (Counts 0 0 0 false) input =
    Some (Counts (Z.of_nat (length (filter (fun c => c = 10) l))) (Z.of_nat (length (split_words l))) (Z.of_nat (length l)) b).
Proof. apply wc_counts_spec. Qed.

Lemma wc_counts_witness : exists b,
  wc_loop (Counts 0 0 0 false) [Data (chars "one tw"); Data (chars "o" ++ [10] ++ chars "three"); Data []] = Some (Counts 1 3 13 b).
Proof. apply (wc_counts [Data (chars "one tw"); Data (chars "o" ++ [10] ++ chars "three"); Data []] (chars "one two" ++ [10] ++ chars "three")); reflexivity. Defined.

(** ** The allocator *)


