(* ===== verification/Calls.v ===== *)
(** * User programs as trees of system calls ([usys.S], [user.h])

    A user program is an interaction tree: it makes system calls and goes on with
    their answers, possibly for ever.  The kernel's side is left open: any answer
    may come, except that a descriptor delivers finitely much.  [must] is total
    correctness of a program that ends by [exit]; [safe] is safety of one that
    may run for ever; [ends] is both together. *)

From ITree Require Import ITree.
From S2P Require Import Prelude Params Fs Ulib Utils.

(** [struct procstat] *)
Record procstat := Procstat { ps_name : list Z; ps_sz : Z; ps_nofile : Z; ps_state : Z }.

(** The system calls, with what they answer; a call that fills a structure of the
    caller answers what the structure then holds. *)
Inductive sysE : Type -> Type :=
  | Open (path : list Z) (mode : Z) : sysE Z
  | Close (fd : Z) : sysE Z
  | Read (fd n : Z) : sysE read_result
  | Write (fd : Z) (data : list Z) : sysE Z
  | Fstat (fd : Z) : sysE (option stat)
  | Fork : sysE Z
  | Exec (path : list Z) (argv : list (list Z)) : sysE Z
  | Wait : sysE Z
  | Kill (pid : Z) : sysE Z
  | Link (old new : list Z) : sysE Z
  | Unlink (path : list Z) : sysE Z
  | Mkdir (path : list Z) : sysE Z
  | Mknod (path : list Z) (major minor : Z) : sysE Z
  | Dup (fd : Z) : sysE Z
  | Sleep_ (n : Z) : sysE Z
  | Pipe : sysE (Z * Z * Z)
  | Chdir (path : list Z) : sysE Z
  | Getpid : sysE Z
  | Sbrk (n : Z) : sysE Z
  | Uptime : sysE Z
  | Pstat (pid : Z) : sysE (Z * procstat)
  | Printjob (jid : Z) : sysE Z
  | IsJobEmpty (jid : Z) : sysE Z
  | Attachjob (pid job : Z) : sysE Z
  | Fg (jid : Z) : sysE Z
  | Waitpid (pid options : Z) : sysE (Z * Z)
  | Signal (signum handler : Z) : sysE Z
  | Exit (status : Z) : sysE Empty_set.

Definition is_exit {X} (e : sysE X) : bool := match e with Exit _ => true | _ => false end.

Definition call {X} (e : sysE X) : itree sysE X := ITree.trigger e.

Notation "'do!' x ':=' m 'in' k" := (ITree.bind m (fun x => k))
  (at level 10, x pattern, m at level 100, k at level 200, format "'[v' 'do!'  x  ':='  m  'in' '/' k ']'").

Definition exit_ {A} (status : Z) : itree sysE A := do! v := call (Exit status) in match v with end.

(** ** [printf] *)

(** An argument of [printf]: a number or a string, which is passed by address. *)
Inductive parg := Num (z : Z) | Str (s : list Z).

Definition arg_words (args : list parg) (n : nat) : Z :=
  match args !! n with Some (Num z) => z | Some (Str _) => Z.of_nat n + 1 | None => 0 end.
Definition arg_strings (args : list parg) (a : Z) : list Z :=
  match args !! Z.to_nat (a - 1) with Some (Str s) => s | _ => [] end.

Definition text (fmt : list Z) (args : list parg) : list Z := default [] (printf (arg_strings args) fmt (arg_words args)).

(** [putc] writes one character. *)
Fixpoint putcs (fd : Z) (l : list Z) : itree sysE unit :=
  match l with
  | [] => Ret tt
  | c :: l' => do! _ := call (Write fd [c]) in putcs fd l'
  end.

Definition print (fd : Z) (fmt : string) (args : list parg) : itree sysE unit := putcs fd (text (chars fmt) args).
Definition println (fd : Z) (fmt : string) (args : list parg) : itree sysE unit := putcs fd (text (chars fmt ++ [10]) args).

(** [stat] of [ulib.c] *)
Definition ustat (n : list Z) : itree sysE (option stat) :=
  do! fd := call (Open n O_RDONLY) in
  if fd <? 0 then Ret None
  else
    do! r := call (Fstat fd) in
    do! _ := call (Close fd) in
    Ret r.

(** ** What has happened *)

(** A call that has been made, with its answer. *)
Inductive called :=
  | COpen (path : list Z) (mode r : Z)
  | CClose (fd r : Z)
  | CRead (fd n : Z) (r : read_result)
  | CWrite (fd : Z) (data : list Z) (r : Z)
  | CFstat (fd : Z) (r : option stat)
  | CFork (r : Z)
  | CExec (path : list Z) (argv : list (list Z)) (r : Z)
  | CWait (r : Z)
  | CKill (pid r : Z)
  | CLink (old new : list Z) (r : Z)
  | CUnlink (path : list Z) (r : Z)
  | CMkdir (path : list Z) (r : Z)
  | CMknod (path : list Z) (major minor r : Z)
  | CDup (fd r : Z)
  | CSleep (n r : Z)
  | CPipe (r : Z * Z * Z)
  | CChdir (path : list Z) (r : Z)
  | CGetpid (r : Z)
  | CSbrk (n r : Z)
  | CUptime (r : Z)
  | CPstat (pid : Z) (r : Z * procstat)
  | CPrintjob (jid r : Z)
  | CIsJobEmpty (jid r : Z)
  | CAttachjob (pid job r : Z)
  | CFg (jid r : Z)
  | CWaitpid (pid options : Z) (r : Z * Z)
  | CSignal (signum handler r : Z).

(** The calls made, what each descriptor will still deliver, and the descriptors
    that are open. *)
Record world := World { w_log : list called; w_in : Z -> list read_result; w_fds : list Z }.

Definition logged (c : called) (w : world) : world := World (w_log w ++ [c]) (w_in w) (w_fds w).

(** A [read] of at most [n] bytes from a descriptor that delivers [l]: the answer,
    and what the descriptor still delivers. *)
Definition deliver (n : Z) (l : list read_result) : read_result * list read_result :=
  match l with
  | [] => (Data [], [])
  | Error :: l' => (Error, l')
  | Data d :: l' =>
      let rest := drop (Z.to_nat n) d in
      (Data (take (Z.to_nat n) d), if decide (rest = []) then l' else Data rest :: l')
  end.

Definition amount (l : list read_result) : nat :=
  sum_list_with (fun r => match r with Data d => S (length d) | Error => 1%nat end) l.

(** An answer other than the end of the file takes something away. *)
Lemma deliver_less n l d l' : deliver n l = (Data d, l') -> d <> [] -> (amount l' < amount l)%nat /\ Z.of_nat (length d) <= n.
Proof.
  destruct l as [|[d0|] l]; [by intros [= <- <-]| |done]. cbn [deliver]. intros [= <- <-] Hd.
  assert (0 < n) by (destruct n; [by rewrite take_0 in Hd|lia|by rewrite take_0 in Hd]).
  assert (0 < length d0)%nat by (destruct d0; [by rewrite take_nil in Hd|cbn; lia]).
  rewrite length_take. split; [|lia]. case_decide; cbn [amount sum_list_with]; fold (amount l); [lia|]. rewrite length_drop. lia.
Qed.

(** What the descriptor delivers in one piece. *)
Lemma deliver_whole n d l : Z.of_nat (length d) <= n -> deliver n (Data d :: l) = (Data d, l).
Proof. intros H. cbn [deliver]. by rewrite take_ge, drop_ge by lia. Qed.

(** Descriptor [r] is new and delivers [input]; descriptor [fd] is closed. *)
Definition fresh_fd (r : Z) (w : world) : Prop := 0 <= r -> r ∉ w_fds w.
Definition new_fd (r : Z) (input : list read_result) (w : world) : world :=
  World (w_log w) (fun fd => if fd =? r then input else w_in w fd) (if 0 <=? r then r :: w_fds w else w_fds w).
Definition drop_fd (fd : Z) (w : world) : world := World (w_log w) (w_in w) (filter (fun x => x <> fd) (w_fds w)).

(** What the kernel may answer. *)
Definition sys (w : world) {X} (e : sysE X) : X -> world -> Prop :=
  match e with
  | Open p m => fun r w' => fresh_fd r w /\ exists input, w' = logged (COpen p m r) (new_fd r input w)
  | Close fd => fun r w' => w' = logged (CClose fd r) (drop_fd fd w)
  | Read fd n => fun r w' => exists rest, deliver n (w_in w fd) = (r, rest) /\
      w' = logged (CRead fd n r) (World (w_log w) (fun fd' => if fd' =? fd then rest else w_in w fd') (w_fds w))
  | Write fd d => fun r w' => w' = logged (CWrite fd d r) w
  | Fstat fd => fun r w' => w' = logged (CFstat fd r) w
  | Fork => fun r w' => w' = logged (CFork r) w
  | Exec p a => fun r w' => w' = logged (CExec p a r) w
  | Wait => fun r w' => w' = logged (CWait r) w
  | Kill p => fun r w' => w' = logged (CKill p r) w
  | Link a b => fun r w' => w' = logged (CLink a b r) w
  | Unlink a => fun r w' => w' = logged (CUnlink a r) w
  | Mkdir a => fun r w' => w' = logged (CMkdir a r) w
  | Mknod a x y => fun r w' => w' = logged (CMknod a x y r) w
  | Dup fd => fun r w' => fresh_fd r w /\ exists input, w' = logged (CDup fd r) (new_fd r input w)
  | Sleep_ n => fun r w' => w' = logged (CSleep n r) w
  | Pipe => fun r w' => let '(x, a, b) := r in
      if 0 <=? x then fresh_fd a w /\ fresh_fd b w /\ a <> b /\ exists i1 i2, w' = logged (CPipe r) (new_fd b i2 (new_fd a i1 w))
      else w' = logged (CPipe r) w
  | Chdir p => fun r w' => w' = logged (CChdir p r) w
  | Getpid => fun r w' => w' = logged (CGetpid r) w
  | Sbrk n => fun r w' => w' = logged (CSbrk n r) w
  | Uptime => fun r w' => w' = logged (CUptime r) w
  | Pstat p => fun r w' => w' = logged (CPstat p r) w
  | Printjob j => fun r w' => w' = logged (CPrintjob j r) w
  | IsJobEmpty j => fun r w' => w' = logged (CIsJobEmpty j r) w
  | Attachjob p j => fun r w' => w' = logged (CAttachjob p j r) w
  | Fg j => fun r w' => w' = logged (CFg j r) w
  | Waitpid p o => fun r w' => w' = logged (CWaitpid p o r) w
  | Signal n h => fun r w' => w' = logged (CSignal n h r) w
  | Exit _ => fun _ _ => False
  end.

(** ** Total correctness *)

(** Whatever the kernel answers, [t] ends: by returning [r] with [Q r], or by
    [exit] with a status and a world that satisfy [E]. *)
Section Must.
Context {R : Type} (E : Z -> world -> Prop) (Q : R -> world -> Prop).

Inductive must : itree sysE R -> world -> Prop :=
  | must_ret t w r : observe t = RetF r -> Q r w -> must t w
  | must_tau t w t' : observe t = TauF t' -> must t' w -> must t w
  | must_vis t w X (e : sysE X) k : observe t = VisF e k -> is_exit e = false ->
      (forall a w', sys w e a w' -> must (k a) w') -> must t w
  | must_exit t w st k : observe t = VisF (Exit st) k -> E st w -> must t w.
End Must.

Lemma must_Ret {R} E (Q : R -> world -> Prop) r w : Q r w -> must E Q (Ret r) w.
Proof. intros H. by eapply must_ret. Qed.

Lemma must_call {X} E (Q : X -> world -> Prop) (e : sysE X) w :
  is_exit e = false -> (forall a w', sys w e a w' -> Q a w') -> must E Q (call e) w.
Proof. intros He H. eapply must_vis; [reflexivity|done|]. intros a w' Hs. by apply must_Ret, H. Qed.

Lemma observe_bind_ {R S} (t : itree sysE R) (k : R -> itree sysE S) :
  observe (ITree.bind t k) = observe (match observe t with
    | RetF r => k r
    | TauF t' => Tau (ITree.bind t' k)
    | VisF e h => Vis e (fun x => ITree.bind (h x) k)
    end).
Proof. reflexivity. Qed.

Lemma must_bind {R S} E (Q : S -> world -> Prop) (P : R -> world -> Prop) (t : itree sysE R) (k : R -> itree sysE S) w :
  must E P t w -> (forall r w', P r w' -> must E Q (k r) w') -> must E Q (ITree.bind t k) w.
Proof.
  intros H Hk. induction H as [t w r Ho HP|t w t' Ho H IH|t w X e h Ho He H IH|t w st h Ho HE].
  - assert (Ob : observe (ITree.bind t k) = observe (k r)) by (by rewrite observe_bind_, Ho).
    destruct (Hk r w HP) as [? w r' Hr ?|? w t' Ht ?|? w Y e h Hv ? ?|? w st h Hx ?].
    + eapply must_ret; [|done]. congruence.
    + eapply must_tau; [|done]. congruence.
    + eapply must_vis; [|done|done]. by rewrite Ob.
    + eapply must_exit; [|done]. by rewrite Ob.
  - eapply must_tau; [by rewrite observe_bind_, Ho|exact IH].
  - eapply must_vis; [by rewrite observe_bind_, Ho|done|exact IH].
  - eapply must_exit; [by rewrite observe_bind_, Ho|done].
Qed.

Lemma must_then {X R} E (Q : R -> world -> Prop) (e : sysE X) (k : X -> itree sysE R) w :
  is_exit e = false -> (forall a w', sys w e a w' -> must E Q (k a) w') -> must E Q (do! a := call e in k a) w.
Proof. intros He H. by eapply must_bind; [apply must_call; [done|exact H]|]. Qed.

Lemma must_exit_ {R} E (Q : R -> world -> Prop) st w : E st w -> must E Q (exit_ st) w.
Proof. intros H. eapply must_exit; [cbn; reflexivity|done]. Qed.

Lemma must_mono {R} E (Q Q' : R -> world -> Prop) t w : must E Q t w -> (forall r w', Q r w' -> Q' r w') -> must E Q' t w.
Proof.
  intros H HQ. induction H as [t w r Ho HP|t w t' Ho H IH|t w X e h Ho He H IH|t w st h Ho HE].
  - eapply must_ret; [done|by apply HQ].
  - by eapply must_tau.
  - by eapply must_vis.
  - by eapply must_exit.
Qed.

Lemma must_weaken {R} (E E' : Z -> world -> Prop) (Q : R -> world -> Prop) t w :
  must E Q t w -> (forall st w', E st w' -> E' st w') -> must E' Q t w.
Proof.
  intros H HE. induction H as [t w r Ho HP|t w t' Ho H IH|t w X e h Ho He H IH|t w st h Ho HE'].
  - by eapply must_ret.
  - by eapply must_tau.
  - by eapply must_vis.
  - eapply must_exit; [done|by apply HE].
Qed.

(** One turn of a loop. *)
Lemma must_iter {I R} E (Q : R -> world -> Prop) (f : I -> itree sysE (I + R)) i w :
  must E (fun r w' => match r with inl j => must E Q (ITree.iter f j) w' | inr r => Q r w' end) (f i) w ->
  must E Q (ITree.iter f i) w.
Proof.
  intros H. assert (Ho : observe (ITree.iter f i) =
    observe (ITree.bind (f i) (fun lr => match lr with inl l => Tau (ITree.iter f l) | inr r => Ret r end))) by reflexivity.
  assert (Hb : must E Q (ITree.bind (f i) (fun lr => match lr with inl l => Tau (ITree.iter f l) | inr r => Ret r end)) w).
  { eapply must_bind; [exact H|]. intros [j|r] w' Hj; [by eapply must_tau|by apply must_Ret]. }
  destruct Hb as [? w r Hr ?|? w t' Ht ?|? w Y e h Hv ? ?|? w st h Hx ?].
  - eapply must_ret; [|done]. congruence.
  - eapply must_tau; [|done]. congruence.
  - eapply must_vis; [|done|done]. by rewrite Ho.
  - eapply must_exit; [|done]. by rewrite Ho.
Qed.

(** ** Safety *)

(** [C w e] says that the call [e] may be made in [w].  A set of points of a
    program is kept if the calls made there are allowed and lead back into it;
    a program is safe if it starts in such a set. *)
Definition guard : Type := world -> forall X, sysE X -> Prop.

Section Safe.
Context (C : guard) {R : Type} (Q : R -> world -> Prop).

Definition step_ok (I : itree sysE R -> world -> Prop) (t : itree sysE R) (w : world) : Prop :=
  match observe t with
  | RetF r => Q r w
  | TauF t' => I t' w
  | @VisF _ _ _ X e k => C w X e /\ forall a w', sys w e a w' -> I (k a) w'
  end.

Definition safe (t : itree sysE R) (w : world) : Prop :=
  exists I : itree sysE R -> world -> Prop, I t w /\ forall t' w', I t' w' -> step_ok I t' w'.

Lemma step_ok_mono (I J : itree sysE R -> world -> Prop) t w : (forall t w, I t w -> J t w) -> step_ok I t w -> step_ok J t w.
Proof. intros HI. unfold step_ok. destruct (observe t); [done|apply HI|]. intros [? ?]. split; [done|]. auto. Qed.

Lemma safe_step t w : safe t w -> step_ok safe t w.
Proof. intros (I & Ht & HI). apply (step_ok_mono I); [|by apply HI]. intros t' w' H. by exists I. Qed.

(** One step into safe points is safe. *)
Lemma safe_intro t w : step_ok safe t w -> safe t w.
Proof.
  intros H. exists (fun t' w' => safe t' w' \/ t' = t /\ w' = w). split; [by right|]. intros t' w' [Hs|[-> ->]].
  - apply (step_ok_mono safe); [by left|by apply safe_step].
  - apply (step_ok_mono safe); [by left|done].
Qed.

Lemma safe_Ret r w : Q r w -> safe (Ret r) w.
Proof. intros H. by apply safe_intro. Qed.
End Safe.

Lemma safe_call {X} (C : guard) (Q : X -> world -> Prop) (e : sysE X) w :
  C w X e -> (forall a w', sys w e a w' -> Q a w') -> safe C Q (call e) w.
Proof. intros He H. apply safe_intro. split; [done|]. intros a w' Hs. by apply safe_Ret, H. Qed.

Lemma safe_exit_ {R} (C : guard) (Q : R -> world -> Prop) st w : C w _ (Exit st) -> safe C Q (exit_ st) w.
Proof. intros H. apply safe_intro. split; [done|]. intros []. Qed.

Lemma safe_bind {R S} (C : guard) (P : R -> world -> Prop) (Q : S -> world -> Prop) (t : itree sysE R) (k : R -> itree sysE S) w :
  safe C P t w -> (forall r w', P r w' -> safe C Q (k r) w') -> safe C Q (ITree.bind t k) w.
Proof.
  intros Ht Hk. set (Inv := fun t' w' => (exists t0, observe t' = observe (ITree.bind t0 k) /\ safe C P t0 w') \/ safe C Q t' w').
  assert (HI : forall t w, safe C Q t w -> step_ok C Q Inv t w).
  { intros t' w' Hs. apply (step_ok_mono C Q (safe C Q)); [by right|by apply safe_step]. }
  exists Inv. split; [left; by exists t|]. intros t' w' [(t0 & Ho & H0)|Hs].
  - apply safe_step in H0. unfold step_ok in H0 |- *. rewrite Ho, observe_bind_. destruct (observe t0) as [r|t1|X e h].
    + exact (HI _ _ (Hk _ _ H0)).
    + left. by exists t1.
    + destruct H0 as [HC H0]. split; [done|]. intros a w1 Hw. left. exists (h a). split; [done|by apply H0].
  - by apply HI.
Qed.

(** A loop for ever, with an invariant of its turns. *)
Lemma safe_iter {I R} (C : guard) (Q : R -> world -> Prop) (J : I -> world -> Prop) (f : I -> itree sysE (I + R)) i w :
  (forall j w', J j w' -> safe C (fun r w'' => match r with inl j' => J j' w'' | inr r => Q r w'' end) (f j) w') ->
  J i w -> safe C Q (ITree.iter f i) w.
Proof.
  intros Hf Hi. set (next := fun lr : I + R => match lr with inl l => Tau (ITree.iter f l) | inr r => Ret r end).
  exists (fun t' w' => exists t0, observe t' = observe (ITree.bind t0 next) /\
    safe C (fun r w'' => match r with inl j' => J j' w'' | inr r => Q r w'' end) t0 w').
  split; [exists (f i); split; [reflexivity|by apply Hf]|]. intros t' w' (t0 & Ho & H0). apply safe_step in H0.
  unfold step_ok in H0 |- *. rewrite Ho, observe_bind_. destruct (observe t0) as [[j|r]|t1|X e h].
  - cbn. exists (f j). split; [reflexivity|by apply Hf].
  - done.
  - cbn. by exists t1.
  - cbn. destruct H0 as [HC H0]. split; [done|]. intros a w1 Hw. exists (h a). split; [done|by apply H0].
Qed.

(** ** Safety and termination together *)

(** Whatever the kernel answers, [t] makes only calls that [C] allows, and it ends:
    by returning [r] with [Q r], or by [exit]. *)
Section Ends.
Context (C : guard) {R : Type} (Q : R -> world -> Prop).

Inductive ends : itree sysE R -> world -> Prop :=
  | ends_ret t w r : observe t = RetF r -> Q r w -> ends t w
  | ends_tau t w t' : observe t = TauF t' -> ends t' w -> ends t w
  | ends_vis t w X (e : sysE X) k : observe t = VisF e k -> C w X e -> (forall a w', sys w e a w' -> ends (k a) w') -> ends t w.

Lemma ends_observe t t' w : observe t = observe t' -> ends t' w -> ends t w.
Proof.
  intros Ho H. destruct H as [t1 w1 r Hr ?|t1 w1 t2 Ht ?|t1 w1 Y e h Hv ? ?].
  - by apply (ends_ret t w1 r); [rewrite Ho|].
  - by apply (ends_tau t w1 t2); [rewrite Ho|].
  - by apply (ends_vis t w1 Y e h); [rewrite Ho| |].
Qed.

Lemma ends_safe t w : ends t w -> safe C Q t w.
Proof.
  intros H. exists ends. split; [done|]. intros t' w' [? w1 r Hr ?|? w1 t1 Ht ?|? w1 Y e h Hv ? ?]; unfold step_ok; [by rewrite Hr|by rewrite Ht|by rewrite Hv].
Qed.

Lemma ends_Ret r w : Q r w -> ends (Ret r) w.
Proof. intros H. by eapply ends_ret. Qed.

Lemma ends_exit_ st w : C w _ (Exit st) -> ends (exit_ st) w.
Proof. intros H. eapply ends_vis; [cbn; reflexivity|done|]. intros []. Qed.
End Ends.

Lemma ends_bind {R S} (C : guard) (P : R -> world -> Prop) (Q : S -> world -> Prop) (t : itree sysE R) (k : R -> itree sysE S) w :
  ends C P t w -> (forall r w', P r w' -> ends C Q (k r) w') -> ends C Q (ITree.bind t k) w.
Proof.
  intros H Hk. induction H as [t w r Ho HP|t w t' Ho H IH|t w X e h Ho He H IH].
  - eapply ends_observe; [|by apply (Hk r w HP)]. by rewrite observe_bind_, Ho.
  - eapply ends_tau; [by rewrite observe_bind_, Ho|exact IH].
  - eapply ends_vis; [by rewrite observe_bind_, Ho|done|exact IH].
Qed.

Lemma ends_then {X R} (C : guard) (Q : R -> world -> Prop) (e : sysE X) (k : X -> itree sysE R) w :
  C w X e -> (forall a w', sys w e a w' -> ends C Q (k a) w') -> ends C Q (do! a := call e in k a) w.
Proof.
  intros He H. eapply (ends_bind _ (fun a w' => sys w e a w')); [|exact H].
  eapply ends_vis; [reflexivity|done|]. intros a w' Hs. by apply ends_Ret.
Qed.

Lemma ends_mono {R} (C : guard) (Q Q' : R -> world -> Prop) t w :
  ends C Q t w -> (forall r w', Q r w' -> Q' r w') -> ends C Q' t w.
Proof.
  intros H HQ. induction H as [t w r Ho HP|t w t' Ho H IH|t w X e h Ho He H IH].
  - eapply ends_ret; [done|by apply HQ].
  - by eapply ends_tau.
  - by eapply ends_vis.
Qed.

(** One turn of a loop. *)
Lemma ends_iter {I R} (C : guard) (Q : R -> world -> Prop) (f : I -> itree sysE (I + R)) i w :
  ends C (fun r w' => match r with inl j => ends C Q (ITree.iter f j) w' | inr r => Q r w' end) (f i) w ->
  ends C Q (ITree.iter f i) w.
Proof.
  intros H. apply (ends_observe _ _ _ (ITree.bind (f i) (fun lr => match lr with inl l => Tau (ITree.iter f l) | inr r => Ret r end)));
    [reflexivity|]. eapply ends_bind; [exact H|]. intros [j|r] w' Hj; [by eapply ends_tau|by apply ends_Ret].
Qed.
