(* ===== verification/Programs.v ===== *)
(** * The main functions of the user programs ([cat.c], [wc.c], [echo.c], [ls.c],
      [kill.c], [ln.c], [mkdir.c], [rm.c], [zombie.c], [init.c], [forktest.c],
      [stressfs.c])

    Each is a tree of system calls ([Calls]); [argv] is the list of the argument
    strings, the program's name first. *)

From ITree Require Import ITree.
From S2P Require Import Prelude Bytes Params Fs Ulib Utils Calls.

Definition args (argv : list (list Z)) : list (list Z) := tail argv.

(** The loop of [rm] and [mkdir]: the first failure ends the program. *)
Fixpoint each_or_fail (op : list Z -> sysE Z) (fmt : string) (l : list (list Z)) : itree sysE unit :=
  match l with
  | [] => exit_ 0
  | a :: l' =>
      do! r := call (op a) in
      if r <? 0 then
        do! _ := println 2 fmt [Str a] in
        exit_ (-1)
      else each_or_fail op fmt l'
  end.

Definition rm_main (argv : list (list Z)) : itree sysE unit :=
  if (length argv <? 2)%nat then
    do! _ := println 2 "Usage: rm files..." [] in
    exit_ 0
  else each_or_fail Unlink "rm: %s failed to delete" (args argv).

Definition mkdir_main (argv : list (list Z)) : itree sysE unit :=
  if (length argv <? 2)%nat then
    do! _ := println 2 "Usage: mkdir files..." [] in
    exit_ 0
  else each_or_fail Mkdir "mkdir: %s failed to create" (args argv).

Definition ln_main (argv : list (list Z)) : itree sysE unit :=
  match argv with
  | [_; a; b] =>
      do! r := call (Link a b) in
      do! _ := (if r <? 0 then println 2 "link %s %s: failed" [Str a; Str b] else Ret tt) in
      exit_ (-1)
  | _ =>
      do! _ := println 2 "Usage: ln old new" [] in
      exit_ 0
  end.

Fixpoint kill_each (l : list (list Z)) : itree sysE unit :=
  match l with
  | [] => exit_ 0
  | a :: l' =>
      do! _ := call (Kill (atoi a)) in
      kill_each l'
  end.

Definition kill_main (argv : list (list Z)) : itree sysE unit :=
  if (length argv <? 1)%nat then
    do! _ := println 2 "usage: kill pid..." [] in
    exit_ 0
  else kill_each (args argv).

(** The separator is a string of one character. *)
Fixpoint echo_each (l : list (list Z)) : itree sysE unit :=
  match l with
  | [] => exit_ 0
  | a :: l' =>
      do! _ := print 1 "%s%s" [Str a; Str (if decide (l' = []) then [10] else [32])] in
      echo_each l'
  end.

Definition echo_main (argv : list (list Z)) : itree sysE unit := echo_each (args argv).

Definition zombie_main : itree sysE unit :=
  do! pid := call Fork in
  do! _ := (if 0 <? pid then do! _ := call (Sleep_ 5) in Ret tt else Ret tt) in
  exit_ 0.

(** ** [cat] *)

Definition cat_fd (fd : Z) : itree sysE unit :=
  do! ok := ITree.iter (fun _ : unit =>
    do! r := call (Read fd 512) in
    match r with
    | Data (c :: l) => do! _ := call (Write 1 (c :: l)) in Ret (inl tt)
    | Data [] => Ret (inr true)
    | Error => Ret (inr false)
    end) tt in
  if (ok : bool) then Ret tt
  else
    do! _ := println 1 "cat: read error" [] in
    exit_ (-1).

Fixpoint cat_each (l : list (list Z)) : itree sysE unit :=
  match l with
  | [] => Ret tt
  | a :: l' =>
      do! fd := call (Open a 0) in
      if fd <? 0 then
        do! _ := println 1 "cat: cannot open %s" [Str a] in
        exit_ (-1)
      else
        do! _ := cat_fd fd in
        do! _ := call (Close fd) in
        cat_each l'
  end.

(** The lines marked as debugging; [malloc] gets its first memory from [sbrk]. *)
Definition cat_debug : itree sysE unit :=
  do! _ := call (Sbrk (4096 * 8)) in
  do! p := call (Pstat 3) in
  let '(r, st) := p in
  do! _ := print 1 "log:: pstat- isWork-> %d; " [Num r] in
  do! _ := print 1 "name: " [] in
  do! _ := print 1 "%s " [Str (ps_name st)] in
  do! _ := print 1 "state: " [] in
  do! _ := print 1 "%d " [Num (ps_state st)] in
  do! _ := print 1 "sz: " [] in
  do! _ := print 1 "%d " [Num (ps_sz st)] in
  do! _ := print 1 "nofile: " [] in
  putcs 1 (text (chars " %d" ++ [10; 32]) [Num (ps_nofile st)]).

Definition cat_main (argv : list (list Z)) : itree sysE unit :=
  if (length argv <=? 1)%nat then
    do! _ := cat_fd 0 in
    exit_ 0
  else
    do! _ := cat_each (args argv) in
    do! _ := cat_debug in
    exit_ 0.

(** ** [wc] *)

Definition wc_fd (fd : Z) (name : list Z) : itree sysE unit :=
  do! r := ITree.iter (fun n : counts =>
    do! r := call (Read fd 512) in
    match r with
    | Data (c :: l) => Ret (inl (foldl wc_byte n (c :: l)))
    | Data [] => Ret (inr (Some n))
    | Error => Ret (inr None)
    end) (Counts 0 0 0 false) in
  match r with
  | Some n => println 1 "%d %d %d %s" [Num (lines n); Num (words n); Num (bytes n); Str name]
  | None =>
      do! _ := println 1 "wc: read error" [] in
      exit_ (-1)
  end.

Fixpoint wc_each (l : list (list Z)) : itree sysE unit :=
  match l with
  | [] => exit_ 0
  | a :: l' =>
      do! fd := call (Open a 0) in
      if fd <? 0 then
        do! _ := println 1 "wc: cannot open %s" [Str a] in
        exit_ (-1)
      else
        do! _ := wc_fd fd a in
        do! _ := call (Close fd) in
        wc_each l'
  end.

Definition wc_main (argv : list (list Z)) : itree sysE unit :=
  if (length argv <=? 1)%nat then
    do! _ := wc_fd 0 [] in
    exit_ 0
  else wc_each (args argv).

(** ** [ls] *)

Definition ls_line (name : list Z) (st : stat) : itree sysE unit :=
  println 1 "%s %d %d %d" [Str (fmtname name); Num (st_type st); Num (st_ino st); Num (st_size st)].

(** The characters of a name before the NUL. *)
Fixpoint until_nul (l : list Z) : list Z :=
  match l with
  | [] => []
  | c :: l' => if c =? 0 then [] else c :: until_nul l'
  end.

(** The entries of the directory behind [fd]. *)
Definition ls_dir (fd : Z) (path : list Z) : itree sysE unit :=
  ITree.iter (fun _ : unit =>
    do! r := call (Read fd 16) in
    match r with
    | Data de =>
        if (length de =? 16)%nat then
          if ld16 de 0 =? 0 then Ret (inl tt)
          else
            let buf := path ++ [47] ++ until_nul (slice de 2 DIRSIZ) in
            do! st := ustat buf in
            match st with
            | None => do! _ := println 1 "ls: cannot stat %s" [Str buf] in Ret (inl tt)
            | Some st => do! _ := ls_line buf st in Ret (inl tt)
            end
        else Ret (inr tt)
    | Error => Ret (inr tt)
    end) tt.

Definition ls (path : list Z) : itree sysE unit :=
  do! fd := call (Open path 0) in
  if fd <? 0 then println 2 "ls: cannot open %s" [Str path]
  else
    do! st := call (Fstat fd) in
    match st with
    | None =>
        do! _ := println 2 "ls: cannot stat %s" [Str path] in
        do! _ := call (Close fd) in
        Ret tt
    | Some st =>
        do! _ := (if st_type st =? T_FILE then ls_line path st
                  else if st_type st =? T_DIR then
                    if 512 <? strlen path + 1 + Z.of_nat DIRSIZ + 1 then println 1 "ls: path too long" []
                    else ls_dir fd path
                  else Ret tt) in
        do! _ := call (Close fd) in
        Ret tt
    end.

Fixpoint ls_each (l : list (list Z)) : itree sysE unit :=
  match l with
  | [] => exit_ 0
  | a :: l' => do! _ := ls a in ls_each l'
  end.

Definition ls_main (argv : list (list Z)) : itree sysE unit :=
  if (length argv <? 2)%nat then
    do! _ := ls [46] in
    exit_ 0
  else ls_each (args argv).

(** ** [init] *)

(** [while((wpid=wait(&status)) >= 0 && wpid != pid) printf(...);] *)
Definition init_wait (pid : Z) : itree sysE unit :=
  ITree.iter (fun _ : unit =>
    do! wpid := call Wait in
    if (0 <=? wpid) && negb (wpid =? pid) then
      do! _ := println 1 "zombie! is %d" [Num wpid] in
      Ret (inl tt)
    else Ret (inr tt)) tt.

Definition init_turn : itree sysE (unit + Empty_set) :=
  do! _ := println 1 "init: starting sh" [] in
  do! pid := call Fork in
  if pid <? 0 then
    do! _ := println 1 "init: fork failed" [] in
    exit_ (-1)
  else if pid =? 0 then
    do! _ := call (Exec (chars "sh") [chars "sh"]) in
    do! _ := println 1 "init: exec sh failed" [] in
    exit_ (-1)
  else
    do! _ := init_wait pid in
    Ret (inl tt).

Definition init_main : itree sysE Empty_set :=
  do! fd := call (Open (chars "console") O_RDWR) in
  do! _ := (if fd <? 0 then
              do! _ := call (Mknod (chars "console") 1 1) in
              do! _ := call (Open (chars "console") O_RDWR) in
              Ret tt
            else Ret tt) in
  do! _ := call (Dup 0) in
  do! _ := call (Dup 0) in
  ITree.iter (fun _ : unit => init_turn) tt.

(** ** [forktest] *)

(** [printf] of [forktest.c], which ignores further arguments. *)
Definition put_string (fd : Z) (s : string) : itree sysE unit := do! _ := call (Write fd (chars s ++ [10])) in Ret tt.

(** The first loop, from [n] with [N - n = k]: the value of [n] after it. *)
Fixpoint fork_loop (k n : nat) : itree sysE nat :=
  match k with
  | O => Ret n
  | S k' =>
      do! pid := call Fork in
      if pid <? 0 then Ret n
      else if pid =? 0 then exit_ 0
      else fork_loop k' (S n)
  end.

Fixpoint wait_loop (n : nat) : itree sysE unit :=
  match n with
  | O => Ret tt
  | S n' =>
      do! r := call Wait in
      if r <? 0 then
        do! _ := put_string 1 "wait stopped early" in
        exit_ (-1)
      else wait_loop n'
  end.

Definition FORKTEST_N : nat := 1000.

Definition forktest : itree sysE unit :=
  do! _ := put_string 1 "fork test" in
  do! n := fork_loop FORKTEST_N 0 in
  if (n =? FORKTEST_N)%nat then
    do! _ := put_string 1 "fork claimed to work N times!" in
    exit_ 0
  else
    do! _ := wait_loop n in
    do! r := call Wait in
    if negb (r =? -1) then
      do! _ := put_string 1 "wait got too many" in
      exit_ (-1)
    else put_string 1 "fork test OK".

Definition forktest_main : itree sysE unit :=
  do! _ := forktest in
  exit_ 0.

(** ** [stressfs] *)

(** [for(i = 0; i < 4; i++) if(fork() > 0) break;] from [i] with [4 - i = k]. *)
Fixpoint stress_fork (k i : nat) : itree sysE nat :=
  match k with
  | O => Ret i
  | S k' =>
      do! pid := call Fork in
      if 0 <? pid then Ret i else stress_fork k' (S i)
  end.

Fixpoint times {X} (n : nat) (e : sysE X) : itree sysE unit :=
  match n with
  | O => Ret tt
  | S n' => do! _ := call e in times n' e
  end.

Definition stressfs_main : itree sysE unit :=
  do! _ := println 1 "stressfs starting" [] in
  do! i := stress_fork 4 0 in
  do! _ := println 1 "write %d" [Num (Z.of_nat i)] in
  let path := chars "stressfs" ++ [u8 (48 + Z.of_nat i)] in
  do! fd := call (Open path (Z.lor O_CREATE O_RDWR)) in
  do! _ := times 20 (Write fd (replicate 512 97)) in
  do! _ := call (Close fd) in
  do! _ := println 1 "read" [] in
  do! fd := call (Open path O_RDONLY) in
  do! _ := times 20 (Read fd 512) in
  do! _ := call (Close fd) in
  do! _ := call Wait in
  exit_ 0.
