(* ===== verification/ProgramSpec.v ===== *)
(** * What the user programs do

    Observations of the calls a program has made, and the behaviour of the
    programs in [Programs] in terms of them. *)

From ITree Require Import ITree.
From S2P Require Import Prelude Bytes Params Fs Ulib Utils Calls Programs.

Definition collect {A} (f : called -> list A) (l : list called) : list A := concat (f <$> l).

Lemma collect_app {A} (f : called -> list A) l1 l2 : collect f (l1 ++ l2) = collect f l1 ++ collect f l2.
Proof. unfold collect. by rewrite fmap_app, concat_app. Qed.

Lemma collect_one {A} (f : called -> list A) c : collect f [c] = f c.
Proof. apply app_nil_r. Qed.

(** The bytes written to [fd], the bytes read, the files opened with the answers,
    the files deleted and the directories made. *)
Definition writes (fd : Z) (c : called) : list Z := match c with CWrite fd' d _ => if fd' =? fd then d else [] | _ => [] end.
Definition reads (c : called) : list Z := match c with CRead _ _ (Data l) => l | _ => [] end.
Definition opens (c : called) : list (list Z * Z) := match c with COpen p _ r => [(p, r)] | _ => [] end.
Definition unlinks (c : called) : list (list Z * Z) := match c with CUnlink p r => [(p, r)] | _ => [] end.
Definition mkdirs (c : called) : list (list Z * Z) := match c with CMkdir p r => [(p, r)] | _ => [] end.
Definition kills (c : called) : list Z := match c with CKill p _ => [p] | _ => [] end.

(** [w'] comes after [w], with the calls [new] made in between. *)
Definition after (w : world) (new : list called) (w' : world) : Prop := w_log w' = w_log w ++ new.

Lemma after_refl w : after w [] w.
Proof. unfold after. by rewrite app_nil_r. Qed.

Lemma after_trans w1 n1 w2 n2 w3 : after w1 n1 w2 -> after w2 n2 w3 -> after w1 (n1 ++ n2) w3.
Proof. unfold after. intros H1 H2. by rewrite H2, H1, app_assoc. Qed.

Lemma after_logged w c : after w [c] (logged c w).
Proof. done. Qed.

(** Printing writes the characters and does nothing else. *)
Lemma must_putcs E fd l : forall w, must E (fun _ w' => (w_in w' = w_in w /\ w_fds w' = w_fds w) /\ exists new, after w new w' /\
  collect (writes fd) new = l /\ Forall (fun c => exists d r, c = CWrite fd d r) new) (putcs fd l) w.
Proof.
  induction l as [|c l IH]; intros w; cbn [putcs].
  - apply must_Ret. split; [done|]. exists []. split; [apply after_refl|]. by split.
  - apply must_then; [done|]. intros r w1 ->. eapply must_mono; [apply IH|]. intros [] w' (Hi & new & Ha & Hw & Hall). split; [done|].
    exists (CWrite fd [c] r :: new). split; [exact (after_trans _ _ _ _ _ (after_logged _ _) Ha)|].
    split; [|constructor; [by eexists _, _|done]]. change (CWrite fd [c] r :: new) with ([CWrite fd [c] r] ++ new).
    rewrite collect_app, collect_one, Hw. cbn. by rewrite Z.eqb_refl.
Qed.

Lemma collect_silent {A} (f : called -> list A) fd new : (forall d r, f (CWrite fd d r) = []) ->
  Forall (fun c => exists d r, c = CWrite fd d r) new -> collect f new = [].
Proof.
  intros Hf. induction 1 as [|c new (d & r & ->) _ IH]; [done|]. change (CWrite fd d r :: new) with ([CWrite fd d r] ++ new).
  by rewrite collect_app, collect_one, Hf, IH.
Qed.

(** ** Programs that act on each of their arguments *)

(** All calls succeeded, or all but the last. *)
Definition all_or_last (files : list (list Z)) (status : Z) (made : list (list Z * Z)) : Prop :=
  made.*1 `prefix_of` files /\
  ((status = 0 /\ made.*1 = files /\ Forall (fun p => 0 <= p.2) made) \/
   (status = -1 /\ exists before p r, made = before ++ [(p, r)] /\ Forall (fun p => 0 <= p.2) before /\ r < 0)).

Lemma each_or_fail_spec (op : list Z -> sysE Z) (f : called -> list (list Z * Z)) fmt :
  (forall a, is_exit (op a) = false) -> (forall d r, f (CWrite 2 d r) = []) ->
  (forall w a r w', sys w (op a) r w' -> exists c, w' = logged c w /\ f c = [(a, r)]) ->
  forall l w, must (fun st w' => exists new, after w new w' /\ all_or_last l st (collect f new)) (fun _ _ => False) (each_or_fail op fmt l) w.
Proof.
  intros Hex Hf Hop. induction l as [|a l IH]; intros w; cbn [each_or_fail].
  - apply must_exit_. exists []. split; [apply after_refl|]. split; [done|]. left. split_and!; [done|done|constructor].
  - apply must_then; [apply Hex|]. intros r w1 (c & -> & Hc)%Hop. destruct (Z.ltb_spec r 0) as [Hr|Hr].
    + eapply must_bind; [apply must_putcs|]. intros [] w2 (_ & new & Ha & _ & Hall). apply must_exit_.
      exists ([c] ++ new). split; [by eapply after_trans; [apply after_logged|]|].
      rewrite collect_app, collect_one, Hc, (collect_silent f 2 new Hf Hall). split; [by exists l|].
      right. split; [done|]. by exists [], a, r.
    + eapply must_weaken; [apply IH|]. intros st w2 (new & Ha & [k Hp] & Hres).
      exists ([c] ++ new). split; [by eapply after_trans; [apply after_logged|]|].
      rewrite collect_app, collect_one, Hc. split; [exists k; cbn; by rewrite Hp|].
      destruct Hres as [(-> & H1 & H2)|(-> & b & p & r' & H1 & H2 & H3)].
      * left. split; [done|]. split; [cbn; by rewrite H1|by constructor].
      * right. split; [done|]. exists ((a, r) :: b), p, r'. split; [by rewrite H1|]. split; [by constructor|done].
Qed.

(** ** [cat] *)

(** What was written to the standard output is what was read, and then [extra]. *)
Definition copied (new : list called) (extra : list Z) : Prop := collect (writes 1) new = collect reads new ++ extra.

Lemma copied_app n1 n2 extra : copied n1 [] -> copied n2 extra -> copied (n1 ++ n2) extra.
Proof. unfold copied. rewrite !collect_app. intros -> ->. by rewrite app_nil_r, app_assoc. Qed.

(** The files opened, all with success. *)
Definition opened (new : list called) (l : list (list Z)) : Prop :=
  (collect opens new).*1 = l /\ Forall (fun p => 0 <= p.2) (collect opens new).

Lemma opened_app n1 n2 l1 l2 : opened n1 l1 -> opened n2 l2 -> opened (n1 ++ n2) (l1 ++ l2).
Proof. intros [A1 A2] [B1 B2]. unfold opened. rewrite collect_app, fmap_app, A1, B1. split; [done|]. by apply Forall_app. Qed.

Lemma printed_copied fd l new : (fd =? 1) = true -> collect (writes fd) new = l -> Forall (fun c => exists d r, c = CWrite fd d r) new ->
  copied new l /\ opened new [].
Proof.
  intros ->%Z.eqb_eq Hw Hall. unfold copied, opened. rewrite Hw, !(collect_silent _ 1 new) by done. split; [done|]. split; [done|constructor].
Qed.

Lemma must_print E l w : must E (fun _ w' => exists new, after w new w' /\ copied new l /\ opened new []) (putcs 1 l) w.
Proof.
  eapply must_mono; [apply must_putcs|]. intros [] w' (_ & new & Ha & Hw & Hall). exists new. split; [done|]. by apply (printed_copied 1).
Qed.

Lemma cat_loop_spec E fd : forall n w, (amount (w_in w fd) < n)%nat ->
  must E (fun _ w' => exists new, after w new w' /\ copied new [] /\ opened new [])
    (ITree.iter (fun _ : unit => do! r := call (Read fd 512) in
      match r with
      | Data (c :: l) => do! _ := call (Write 1 (c :: l)) in Ret (inl tt)
      | Data [] => Ret (inr true)
      | Error => Ret (inr false)
      end) tt) w.
Proof.
  induction n as [|n IH]; intros w Hn; [lia|]. apply must_iter. apply must_then; [done|]. intros r w1 (rest & Hr & Hw1).
  assert (A1 : after w [CRead fd 512 r] w1) by (by subst w1).
  assert (Hend : reads (CRead fd 512 r) = [] -> exists new, after w new w1 /\ copied new [] /\ opened new []).
  { intros Hq. eexists. split; [exact A1|]. unfold copied, opened. rewrite !collect_one, Hq. split; [done|split; [done|apply List.Forall_nil]]. }
  destruct r as [[|c l]|]; [apply must_Ret; by apply Hend| |apply must_Ret; by apply Hend].
  apply deliver_less in Hr as [Hr _]; [|done]. apply must_then; [done|]. intros r w2 ->.
  apply must_Ret. eapply must_mono; [apply IH|].
  - subst w1. cbn [logged w_in]. rewrite Z.eqb_refl. lia.
  - intros _ w' (new & Ha & Hc & Ho). exists ([CRead fd 512 (Data (c :: l)); CWrite 1 (c :: l) r] ++ new). split.
    { unfold after in *. cbn [logged w_log] in Ha. by rewrite Ha, A1, <-!app_assoc. }
    split; [apply copied_app; [|done]|apply (opened_app _ _ [] []); [|done]].
    + unfold copied, collect. cbn. by rewrite !app_nil_r.
    + split; [done|apply List.Forall_nil].
Qed.

Lemma cat_fd_spec fd w : must
  (fun st w' => st = -1 /\ exists new, after w new w' /\ copied new (text (chars "cat: read error" ++ [10]) []))
  (fun _ w' => exists new, after w new w' /\ copied new [] /\ opened new []) (cat_fd fd) w.
Proof.
  unfold cat_fd. eapply must_bind; [exact (cat_loop_spec _ fd _ w (Nat.lt_succ_diag_r _))|]. intros ok w1 (n1 & A1 & C1 & O1). destruct (ok : bool).
  - apply must_Ret. by exists n1.
  - eapply must_bind; [apply must_print|]. intros [] w2 (n2 & A2 & C2 & O2). apply must_exit_. split; [done|].
    exists (n1 ++ n2). split; [by eapply after_trans|by apply copied_app].
Qed.

(** How [cat] gives up: a file cannot be opened, or not read. *)
Definition cat_failed (l : list (list Z)) (w : world) (st : Z) (w' : world) : Prop :=
  st = -1 /\ exists new extra, after w new w' /\ copied new extra /\
    (extra = text (chars "cat: read error" ++ [10]) [] \/ exists a, a ∈ l /\ extra = text (chars "cat: cannot open %s" ++ [10]) [Str a]).

Lemma cat_failed_later l l' w n w1 st w' :
  after w n w1 -> copied n [] -> (forall a, a ∈ l -> a ∈ l') -> cat_failed l w1 st w' -> cat_failed l' w st w'.
Proof.
  intros A1 C1 Hl (-> & n2 & extra & A2 & C2 & Hx). split; [done|]. exists (n ++ n2), extra.
  split; [by eapply after_trans|]. split; [by apply copied_app|]. destruct Hx as [?|(a & Ha & ?)]; [by left|right; exists a; auto].
Qed.

Lemma copied_quiet c : writes 1 c = [] -> reads c = [] -> copied [c] [].
Proof. intros H1 H2. unfold copied. by rewrite !collect_one, H1, H2. Qed.

Lemma cat_each_spec : forall l w, must (cat_failed l w)
  (fun _ w' => exists new, after w new w' /\ copied new [] /\ opened new l) (cat_each l) w.
Proof.
  induction l as [|a l IH]; intros w; cbn [cat_each].
  { apply must_Ret. exists []. split; [apply after_refl|]. split; [done|]. split; [done|constructor]. }
  apply must_then; [done|]. intros fd w1 (_ & inp & ->). set (w1 := logged _ _). assert (A1 : after w [COpen a 0 fd] w1) by done. assert (C1 : copied [COpen a 0 fd] []) by (by apply copied_quiet). destruct (Z.ltb_spec fd 0) as [Hfd|Hfd].
  - eapply must_bind; [apply must_print|]. intros [] w2 (n2 & A2 & C2 & _). apply must_exit_. split; [done|].
    exists ([COpen a 0 fd] ++ n2). eexists. split; [by eapply after_trans|]. split; [by apply copied_app|]. right. exists a. split; [by left|done].
  - eapply must_bind.
    { eapply must_weaken; [apply cat_fd_spec|]. intros st w' (-> & n2 & A2 & C2). split; [done|].
      exists ([COpen a 0 fd] ++ n2). eexists. split; [by eapply after_trans|]. split; [by apply copied_app|by left]. }
    intros [] w2 (n2 & A2 & C2 & O2).
    apply must_then; [done|]. intros r w3 ->.
    assert (A3 : after w (([COpen a 0 fd] ++ n2) ++ [CClose fd r]) (logged (CClose fd r) (drop_fd fd w2)))
      by (eapply after_trans; [eapply after_trans; [exact A1|exact A2]|done]).
    assert (C3 : copied (([COpen a 0 fd] ++ n2) ++ [CClose fd r]) []) by (apply copied_app; [by apply copied_app|by apply copied_quiet]).
    eapply must_weaken; [eapply must_mono; [apply IH|]|].
    + intros [] w' (n4 & A4 & C4 & O4). eexists. split; [exact (after_trans _ _ _ _ _ A3 A4)|]. split; [by apply copied_app|].
      apply (opened_app _ _ [a] l); [|done]. apply (opened_app _ _ [a] []); [apply (opened_app _ _ [a] []); [|done]|].
      * split; [done|]. by repeat constructor.
      * split; [done|apply List.Forall_nil].
    + intros st w'. apply (cat_failed_later l (a :: l) w _ _ st w' A3 C3). intros x Hx. by right.
Qed.

(** Programs that only print. *)
Definition printer (t : itree sysE unit) : Prop := forall E w,
  must E (fun _ w' => exists new, after w new w' /\ collect reads new = [] /\ opened new []) t w.

Lemma printer_putcs l : printer (putcs 1 l).
Proof.
  intros E w. eapply must_mono; [apply must_putcs|]. intros [] w' (_ & new & Ha & _ & Hall). exists new. split; [done|].
  unfold opened. rewrite !(collect_silent _ 1 new) by done. split; [done|]. split; [done|constructor].
Qed.

Lemma printer_bind t1 t2 : printer t1 -> printer t2 -> printer (do! _ := t1 in t2).
Proof.
  intros H1 H2 E w. eapply must_bind; [apply H1|]. intros [] w1 (n1 & A1 & R1 & O1). eapply must_mono; [apply H2|].
  intros [] w2 (n2 & A2 & R2 & O2). exists (n1 ++ n2). split; [by eapply after_trans|]. split; [by rewrite collect_app, R1, R2|].
  by apply (opened_app _ _ [] []).
Qed.

Lemma cat_debug_spec E w : must E (fun _ w' => exists new extra, after w new w' /\ copied new extra /\ opened new []) cat_debug w.
Proof.
  unfold cat_debug. apply must_then; [done|]. intros a w0 ->. apply must_then; [done|]. intros [r st] w1 ->. cbv beta iota.
  eapply must_mono; [unfold print; repeat first [apply printer_putcs|apply printer_bind]|].
  intros [] w' (new & Ha & Hr & Ho). exists ([CSbrk (4096 * 8) a; CPstat 3 (r, st)] ++ new). eexists.
  split; [eapply after_trans; [exact (after_trans _ _ _ _ _ (after_logged _ _) (after_logged _ _))|exact Ha]|].
  split; [|by apply (opened_app _ _ [] []); [split; [done|constructor]|]].
  unfold copied. rewrite !collect_app, Hr. done.
Qed.

(** ** [ls] ends *)

(** Descriptor [fd] stays open and still delivers [input]. *)
Definition keeps_fd (fd : Z) (input : list read_result) (w : world) : Prop := fd ∈ w_fds w /\ w_in w fd = input.

Lemma putcs_keeps E out l fd input w : keeps_fd fd input w -> must E (fun _ w' => keeps_fd fd input w') (putcs out l) w.
Proof. intros [H1 H2]. eapply must_mono; [apply must_putcs|]. intros [] w' [[E1 E2] _]. split; congruence. Qed.

Lemma open_keeps p m r fd input w w' : 0 <= fd -> keeps_fd fd input w -> sys w (Open p m) r w' -> keeps_fd fd input w' /\ (0 <= r -> r <> fd).
Proof.
  intros Hfd [H1 H2] (Hf & inp & ->). assert (Hne : 0 <= r -> r <> fd) by (intros Hr ->; by apply Hf). split; [|done].
  split; cbn; [destruct (0 <=? r); [by right|done]|]. destruct (Z.eqb_spec fd r) as [->|]; [by destruct (Hne Hfd)|done].
Qed.

Lemma close_keeps c r fd input w : c <> fd -> keeps_fd fd input w -> keeps_fd fd input (logged (CClose c r) (drop_fd c w)).
Proof. intros Hne [H1 H2]. split; [|done]. cbn. apply list_elem_of_filter. split; [congruence|done]. Qed.

Lemma ustat_keeps E n fd input w : 0 <= fd -> keeps_fd fd input w -> must E (fun _ w' => keeps_fd fd input w') (ustat n) w.
Proof.
  intros Hfd Hk. unfold ustat. apply must_then; [done|]. intros r w1 H1. destruct (open_keeps _ _ _ _ _ _ _ Hfd Hk H1) as [K1 Hr].
  destruct (Z.ltb_spec r 0); [by apply must_Ret|]. apply must_then; [done|]. intros st w2 ->. apply must_then; [done|].
  intros c w3 ->. apply must_Ret. apply close_keeps; [by apply Hr|done].
Qed.

Lemma ls_dir_ends E fd path : 0 <= fd -> forall n input w, (amount input < n)%nat -> keeps_fd fd input w ->
  must E (fun _ w' => fd ∈ w_fds w') (ls_dir fd path) w.
Proof.
  intros Hfd. induction n as [|n IH]; intros input w Hn [H1 H2]; [lia|]. apply must_iter. apply must_then; [done|]. intros r w1 (rest & Hr & ->).
  set (w1 := logged _ _). assert (K1 : keeps_fd fd rest w1) by (split; [done|]; cbn; by rewrite Z.eqb_refl). rewrite H2 in Hr.
  destruct r as [de|]; [|apply must_Ret; apply K1]. destruct (Nat.eqb_spec (length de) 16) as [Hl|]; [|apply must_Ret; apply K1].
  apply deliver_less in Hr as [Hr _]; [|by intros ->]. assert (Hrest : (amount rest < n)%nat) by lia.
  destruct (ld16 de 0 =? 0); [apply must_Ret; by apply (IH rest)|].
  eapply must_bind; [by apply (ustat_keeps E _ fd rest)|].
  intros [st|] w2 K2; (eapply must_bind; [by apply (putcs_keeps E _ _ fd rest)|]); intros [] w3 K3; apply must_Ret; by apply (IH rest).
Qed.

Lemma ls_ends E path w : must E (fun _ _ => True) (ls path) w.
Proof.
  assert (Hp : forall fd l w, must E (fun (_ : unit) _ => True) (putcs fd l) w) by (intros; eapply must_mono; [apply must_putcs|done]).
  assert (Hc : forall fd w, must E (fun (_ : unit) _ => True) (do! _ := call (Close fd) in Ret tt) w)
    by (intros; apply must_then; [done|]; intros; by apply must_Ret).
  unfold ls. apply must_then; [done|]. intros fd w1 (Hf & inp & ->). destruct (Z.ltb_spec fd 0); [apply Hp|].
  apply must_then; [done|]. intros [st|] w2 ->; [|eapply must_bind; [apply Hp|intros [] w3 _; apply Hc]].
  eapply must_bind; [|intros [] w3 _; apply Hc].
  destruct (st_type st =? T_FILE); [apply Hp|]. destruct (st_type st =? T_DIR); [|by apply must_Ret].
  destruct (512 <? _); [apply Hp|]. eapply must_mono; [apply (ls_dir_ends E fd path ltac:(lia) _ inp _ (Nat.lt_succ_diag_r _))|done].
  split; cbn; [|by rewrite Z.eqb_refl]. rewrite (proj2 (Z.leb_le 0 fd)) by lia. by left.
Qed.

Lemma ls_each_ends : forall l w, must (fun st _ => st = 0) (fun _ _ => False) (ls_each l) w.
Proof.
  induction l as [|a l IH]; intros w; cbn [ls_each]; [by apply must_exit_|]. eapply must_bind; [apply ls_ends|]. intros [] w' _. apply IH.
Qed.

(** ** [init] *)

(** The shell that is running, as far as the calls of [init] tell: a [fork] that
    returns in the parent starts one; a [wait] that returns it, or that finds no
    child, ends it. *)
Definition shell_step (sh : option Z) (c : called) : option Z :=
  match c with
  | CFork r => if 0 <? r then Some r else sh
  | CWait r => if (r <? 0) || bool_decide (sh = Some r) then None else sh
  | _ => sh
  end.
Definition shell_of (log : list called) : option Z := foldl shell_step None log.

(** The answer of the last [fork]. *)
Definition last_fork (log : list called) : option Z := last (omap (fun c => match c with CFork r => Some r | _ => None end) log).

(** [init] forks only when no shell is running, runs [sh] only in a child, and
    ends only in a child or after a [fork] that failed. *)
Definition init_rules : guard := fun w X e =>
  match e with
  | Fork => shell_of (w_log w) = None
  | Exec p _ => last_fork (w_log w) = Some 0 /\ p = chars "sh"
  | Exit _ => exists r, last_fork (w_log w) = Some r /\ r <= 0
  | _ => True
  end.

Lemma shell_of_snoc l c : shell_of (l ++ [c]) = shell_step (shell_of l) c.
Proof. unfold shell_of. by rewrite foldl_app. Qed.

Lemma last_fork_snoc l c : last_fork (l ++ [c]) = match c with CFork r => Some r | _ => last_fork l end.
Proof. unfold last_fork. rewrite omap_app. destruct c; cbn [omap list_omap]; rewrite ?app_nil_r, ?last_snoc; done. Qed.

Lemma safe_then {X R} (C : guard) (Q : R -> world -> Prop) (e : sysE X) (k : X -> itree sysE R) w :
  C w X e -> (forall a w', sys w e a w' -> safe C Q (k a) w') -> safe C Q (do! a := call e in k a) w.
Proof. intros He H. by eapply safe_bind; [apply safe_call; [done|exact H]|]. Qed.

(** Printing changes neither. *)
Lemma init_prints fd l sh lf : forall w, shell_of (w_log w) = sh -> last_fork (w_log w) = lf ->
  safe init_rules (fun _ w' => shell_of (w_log w') = sh /\ last_fork (w_log w') = lf) (putcs fd l) w.
Proof.
  induction l as [|c l IH]; intros w Hs Hl; cbn [putcs]; [by apply safe_Ret|]. apply safe_then; [done|]. intros r w' ->.
  apply IH; cbn; by rewrite ?shell_of_snoc, ?last_fork_snoc.
Qed.

Lemma init_wait_safe pid w : 0 < pid -> shell_of (w_log w) = Some pid ->
  safe init_rules (fun _ w' => shell_of (w_log w') = None) (init_wait pid) w.
Proof.
  intros Hp Hs. unfold init_wait. apply (safe_iter _ _ (fun _ w => shell_of (w_log w) = Some pid)); [|done]. clear w Hs. intros [] w Hs.
  apply safe_then; [done|]. intros r w1 ->.
  assert (E : shell_of (w_log (logged (CWait r) w)) = if (r <? 0) || (r =? pid) then None else Some pid).
  { cbn [logged w_log]. rewrite shell_of_snoc, Hs. cbn [shell_step].
    replace (bool_decide (Some pid = Some r)) with (r =? pid); [done|]. apply eq_true_iff_eq. rewrite bool_decide_eq_true, Z.eqb_eq. naive_solver. }
  destruct (Z.leb_spec 0 r), (Z.eqb_spec r pid), (Z.ltb_spec r 0); try lia; cbn [negb andb orb] in *; try (by apply safe_Ret).
  eapply safe_bind; [by apply (init_prints 1 _ (Some pid) (last_fork (w_log (logged (CWait r) w))))|].
  intros [] w2 [H2 _]. by apply safe_Ret.
Qed.

Lemma init_turn_safe w : shell_of (w_log w) = None ->
  safe init_rules (fun r w' => match r with inl _ => shell_of (w_log w') = None | inr _ => False end) init_turn w.
Proof.
  intros Hs. unfold init_turn. eapply safe_bind; [by apply (init_prints 1 _ None (last_fork (w_log w)))|]. intros [] w1 [S1 _].
  apply safe_then; [done|]. intros pid w2 ->.
  assert (Hl : last_fork (w_log (logged (CFork pid) w1)) = Some pid) by (cbn; by rewrite last_fork_snoc).
  destruct (Z.ltb_spec pid 0).
  - eapply safe_bind; [by eapply (init_prints 1 _ _ (Some pid))|]. intros [] w3 [_ H3]. apply safe_exit_. exists pid. split; [done|lia].
  - destruct (Z.eqb_spec pid 0) as [->|Hne].
    + apply safe_then; [done|]. intros r w3 ->. eapply safe_bind.
      { eapply (init_prints 1 _ _ (Some 0)); [reflexivity|]. cbn. rewrite last_fork_snoc. exact Hl. }
      intros [] w4 [_ H4]. apply safe_exit_. by exists 0.
    + eapply safe_bind; [apply (init_wait_safe pid); [lia|]|intros [] w3 H3; by apply safe_Ret].
      cbn. rewrite shell_of_snoc. cbn. by rewrite (proj2 (Z.ltb_lt 0 pid)) by lia.
Qed.
