(* ===== verification/GrepMain.v ===== *)
(** * The program [grep]

    The loops of [grep.c] with their system calls, and its main function.  The
    memory starts with [buf] at address 0 and goes on behind it; the loops search
    it as the program does, also past what has been read. *)

From ITree Require Import ITree.
From S2P Require Import Prelude Bytes Params CString Fs Ulib Utils Grep Calls Programs ProgramSpec.

(** [strchr], which ends only at a character equal to [c] or at a NUL. *)
Definition strchr_in (m : mem) (s c : Z) : itree sysE (option Z) :=
  ITree.iter (fun s => Ret (if m s =? 0 then inr None else if m s =? c then inr (Some s) else inl (s + 1))) s.

(** The lines from [p] on: the memory and [p] after the loop. *)
Definition grep_scan (pattern : list Z) (m : mem) (p : Z) : itree sysE (mem * Z) :=
  ITree.iter (fun '(m, p) =>
    do! q := strchr_in m p ch_newline in
    match q with
    | None => Ret (inr (m, p))
    | Some q =>
        let m1 := poke q 0 m in
        if match_ pattern (text_at m1 p q) then
          let m2 := poke q ch_newline m1 in
          do! _ := call (Write 1 (text_at m2 p (q + 1))) in
          Ret (inl (m2, q + 1))
        else Ret (inl (m1, q + 1))
    end) (m, p).

(** One [read] and what becomes of it; the state is [buf] and [m]. *)
Definition grep_turn (pattern : list Z) (fd : Z) (bm : mem * Z) : itree sysE (mem * Z + mem) :=
  let '(b, m) := bm in
  do! r := call (Read fd (bufsize - m)) in
  match r with
  | Data (c :: l) =>
      do! r := grep_scan pattern (put b m (c :: l)) 0 in
      let '(b1, p) := r in
      let m1 := if p =? 0 then 0 else m + Z.of_nat (length (c :: l)) in
      Ret (inl (if 0 <? m1 then (memmove b1 0 p (m1 - p), m1 - p) else (b1, m1)))
  | _ => Ret (inr b)
  end.

Definition grep_fd (pattern : list Z) (fd : Z) (b : mem) : itree sysE mem := ITree.iter (grep_turn pattern fd) (b, 0).

Fixpoint grep_each (pattern : list Z) (files : list (list Z)) (b : mem) : itree sysE unit :=
  match files with
  | [] => exit_ 0
  | a :: files' =>
      do! fd := call (Open a 0) in
      if fd <? 0 then
        do! _ := println 1 "grep: cannot open %s" [Str a] in
        exit_ (-1)
      else
        do! b' := grep_fd pattern fd b in
        do! _ := call (Close fd) in
        grep_each pattern files' b'
  end.

Definition grep_main (argv : list (list Z)) (b : mem) : itree sysE unit :=
  match argv with
  | _ :: pattern :: files =>
      if decide (files = []) then
        do! _ := grep_fd pattern 0 b in
        exit_ 0
      else grep_each pattern files b
  | _ =>
      do! _ := println 2 "usage: grep pattern [file ...]" [] in
      exit_ 0
  end.

(** ** The loops end *)

Lemma strchr_in_at E fuel m c w : forall s r, strchr_at fuel m s c = Some r -> must E (fun r' w' => r' = r /\ w' = w) (strchr_in m s c) w.
Proof.
  induction fuel as [|fuel IH]; intros s r Hr; [done|]. cbn [strchr_at] in Hr. apply must_iter, must_Ret.
  destruct (m s =? 0); [by injection Hr as <-|]. destruct (m s =? c); [by injection Hr as <-|]. by apply IH.
Qed.

(** A NUL at [z] stops the search. *)
Lemma strchr_at_total m c z : m z = 0 -> c <> 0 -> forall fuel s, s <= z -> z - s < Z.of_nat fuel ->
  exists r, strchr_at fuel m s c = Some r /\ forall q, r = Some q -> s <= q < z.
Proof.
  intros Hz Hc. induction fuel as [|fuel IH]; intros s H1 H2; [lia|]. cbn [strchr_at].
  destruct (Z.eqb_spec (m s) 0) as [H0|H0]; [by exists None|]. assert (s <> z) by (by intros ->).
  destruct (m s =? c); [exists (Some s); split; [done|]; intros q [= <-]; lia|].
  destruct (IH (s + 1)) as (r & E & Hr); [lia|lia|]. exists r. split; [done|]. intros q ->. specialize (Hr q eq_refl). lia.
Qed.

Lemma grep_lines_total pattern z : forall fuel m p, m z = 0 -> p <= z -> z - p < Z.of_nat fuel ->
  exists m' p' out, grep_lines fuel pattern m p = Some (m', p', out) /\ p <= p' <= z /\ m' z = 0.
Proof.
  induction fuel as [|fuel IH]; intros m p Hz H1 H2; [lia|]. cbn [grep_lines].
  destruct (strchr_at_total m ch_newline z Hz ltac:(done) (S fuel) p H1 H2) as (r & -> & Hr).
  destruct r as [q|]; [|exists m, p, []; split; [done|lia]]. specialize (Hr q eq_refl).
  assert (Hnext : forall m2, m2 z = m z -> exists m' p' out, grep_lines fuel pattern m2 (q + 1) = Some (m', p', out) /\ p <= p' <= z /\ m' z = 0).
  { intros m2 Em. destruct (IH m2 (q + 1)) as (m' & p' & out & E & Hp & Hm); [congruence|lia|lia|]. exists m', p', out. split; [done|]. split; [lia|done]. }
  destruct (match_ _ _).
  - destruct (Hnext (poke q ch_newline (poke q 0 m))) as (m' & p' & out & -> & Hp); [unfold poke; by zcmp|]. by eexists _, _, _.
  - apply Hnext. unfold poke. by zcmp.
Qed.

(** The loop writes what [grep_lines] says, and calls nothing else. *)
Definition only_wrote (w w' : world) (out : list Z) : Prop :=
  w_in w' = w_in w /\ w_fds w' = w_fds w /\ exists new, after w new w' /\ collect (writes 1) new = out.

Lemma grep_scan_lines E pattern : forall fuel m p m' p' out w, grep_lines fuel pattern m p = Some (m', p', out) ->
  must E (fun r w' => r = (m', p') /\ only_wrote w w' out) (grep_scan pattern m p) w.
Proof.
  induction fuel as [|fuel IH]; intros m p m' p' out w Hl; [done|]. cbn [grep_lines] in Hl.
  destruct (strchr_at (S fuel) m p ch_newline) as [r|] eqn:Er; [|done]. apply must_iter.
  eapply must_bind; [by eapply strchr_in_at|]. intros r' w1 [-> ->]. destruct r as [q|].
  - cbv zeta. destruct (match_ pattern _).
    + destruct (grep_lines fuel pattern _ (q + 1)) as [[[m2 p2] out2]|] eqn:E2; [|done]. injection Hl as <- <- <-.
      apply must_then; [done|]. intros r w2 ->. apply must_Ret. eapply must_mono; [by apply (IH _ _ _ _ _ _ E2)|].
      intros r' w' (-> & I & F & new & A & W). split; [done|]. split; [done|]. split; [done|].
      eexists ([_] ++ new). split; [exact (after_trans _ _ _ _ _ (after_logged w _) A)|]. by rewrite collect_app, collect_one, W.
    + apply must_Ret. by apply IH.
  - injection Hl as <- <- <-. apply must_Ret. split; [done|]. split; [done|]. split; [done|]. exists []. split; [apply after_refl|done].
Qed.

Lemma copy_up_other n : forall m dst src x, x < dst \/ dst + Z.of_nat n <= x -> copy_up m dst src n x = m x.
Proof. induction n as [|n IH]; intros m dst src x Hx; [done|]. cbn [copy_up]. rewrite IH by lia. unfold poke. by zcmp. Qed.

(** A file is read to its end, and the NUL behind the buffer stays. *)
Lemma grep_fd_ends E pattern fd : forall n b m w, (amount (w_in w fd) < n)%nat -> b bufsize = 0 -> m <= bufsize ->
  must E (fun b' _ => b' bufsize = 0) (ITree.iter (grep_turn pattern fd) (b, m)) w.
Proof.
  induction n as [|n IH]; intros b m w Hn Hb Hm; [lia|]. apply must_iter. apply must_then; [done|]. intros r w1 (rest & Hr & ->).
  destruct r as [[|c l]|]; [by apply must_Ret| |by apply must_Ret]. apply deliver_less in Hr as [Hr Hlen]; [|done].
  destruct (grep_lines_total pattern bufsize 1025 (put b m (c :: l)) 0) as (b1 & p & out & Hl & Hp & Hb1); [|done|done|].
  { rewrite put_spec. by zcmp. }
  eapply must_bind; [by eapply grep_scan_lines|]. intros r w2 (-> & Hi & _). apply must_Ret.
  assert (Hw2 : (amount (w_in w2 fd) < n)%nat) by (rewrite Hi; cbn [logged w_in]; rewrite Z.eqb_refl; lia).
  set (m1 := if p =? 0 then 0 else _). assert (m1 <= bufsize) by (unfold m1; destruct (p =? 0); [done|lia]).
  destruct (Z.ltb_spec 0 m1) as [H1|H1]; [|by apply IH].
  assert (0 < p) by (unfold m1 in H1; destruct (Z.eqb_spec p 0); lia).
  apply IH; [done| |lia]. unfold memmove. by rewrite copy_up_other by lia.
Qed.

Lemma grep_each_ends pattern : forall files b w, b bufsize = 0 ->
  must (fun st _ => st = 0 \/ st = -1) (fun _ _ => False) (grep_each pattern files b) w.
Proof.
  induction files as [|a files IH]; intros b w Hb; cbn [grep_each]; [apply must_exit_; by left|].
  apply must_then; [done|]. intros fd w1 (_ & inp & ->). destruct (fd <? 0).
  - eapply must_bind; [apply must_putcs|]. intros [] w2 _. apply must_exit_. by right.
  - eapply must_bind; [by apply (grep_fd_ends _ pattern fd _ b 0 _ (Nat.lt_succ_diag_r _))|]. intros b' w2 Hb'.
    apply must_then; [done|]. intros r w3 ->. by apply IH.
Qed.

(** ** What it prints *)

(** Input that one [read] delivers. *)
Lemma grep_fd_prints E pattern fd ls w : Forall is_line ls -> Z.of_nat (length (unlines ls)) < bufsize -> w_in w fd = [Data (unlines ls)] ->
  must E (fun _ w' => exists new, after w new w' /\ collect (writes 1) new = unlines (filter (Pattern.occurs (Pattern.of_text pattern)) ls))
    (grep_fd pattern fd (fun _ => 0)) w.
Proof.
  intros Hls Hlen Hin. apply must_iter. apply must_then; [done|]. intros r w1 (rest & Hr & Hw1). rewrite Hin, deliver_whole in Hr by lia.
  injection Hr as <- <-. assert (A1 : after w [CRead fd (bufsize - 0) (Data (unlines ls))] w1) by (by subst w1).
  destruct (grep_lines_spec pattern ls 1025 (put (fun _ => 0) 0 (unlines ls)) 0 Hls) as [m' Hl]; [apply put_spells|rewrite put_spec; by zcmp|unfold bufsize in *; lia|].
  assert (Hi1 : w_in w1 fd = []) by (subst w1; cbn; by rewrite Z.eqb_refl).
  destruct (unlines ls) as [|c l] eqn:El.
  - apply must_Ret. eexists. split; [exact A1|]. destruct ls as [|x ls]; [done|]. change (unlines (x :: ls)) with ((x ++ [ch_newline]) ++ unlines ls) in El. by destruct x.
  - eapply must_bind; [by eapply grep_scan_lines|]. intros r w2 (-> & Hi & _ & new & A2 & W2). apply must_Ret. rewrite Z.add_0_l.
    set (bm := if 0 <? _ then _ else _). destruct bm as [b2 m2]. apply must_iter. apply must_then; [done|]. intros r w3 (rest & Hr & Hw3).
    rewrite Hi, Hi1 in Hr. injection Hr as <- <-. apply must_Ret. eexists ([_] ++ new ++ [_]). split; [eapply after_trans; [exact A1|]|].
    + eapply after_trans; [exact A2|]. by subst w3.
    + rewrite !collect_app, !collect_one, W2. cbn. by rewrite app_nil_r.
Qed.
