(* ===== verification/ShMain.v ===== *)
(** * The main function of the shell ([sh.c])

    The shell as a tree of system calls, from the opening of the console to the
    end of its input, and the rules its calls keep.  The list of jobs and the
    parser are those of [Sh]; the address [malloc] returns for a new job is the
    argument [alloc]. *)

From ITree Require Import ITree.
From S2P Require Import Prelude Bytes Params Fs Ulib Utils Sh ShParse ShPrint ShJobs Calls Programs ProgramSpec.

(** ** The program *)

(** A process of [runcmd]. *)
Fixpoint process {A} (p : prog) : itree sysE A :=
  match p with
  | Sh.Exit st => exit_ st
  | Sh.Exec path argv failed => do! _ := call (Exec path argv) in process failed
  | Sh.Open path mode k => do! r := call (Open path mode) in process (k r)
  | Sh.Close fd k => do! _ := call (Close fd) in process k
  | Sh.Dup fd k => do! r := call (Dup fd) in process (k r)
  | Sh.Pipe k => do! (r, a, b) := call Pipe in process (k (if r <? 0 then None else Some (a, b)))
  | Sh.Fork child parent => do! pid := call Fork in if pid =? 0 then process child else process (parent pid)
  | Sh.Wait k => do! _ := call Wait in process k
  | Sh.Print fd l k => do! _ := putcs fd l in process k
  end.

(** [gets] of [ulib.c]: the bytes put into the buffer before the final NUL. *)
Definition gets_turn (max : Z) (buf : list Z) : itree sysE (list Z + list Z) :=
  if Z.of_nat (length buf) + 1 <? max then
    do! r := call (Read 0 1) in
    match r with
    | Data (c :: _) => Ret (if (c =? 10) || (c =? 13) then inr (buf ++ [c]) else inl (buf ++ [c]))
    | _ => Ret (inr buf)
    end
  else Ret (inr buf).
Definition gets_ (max : Z) : itree sysE (list Z) := ITree.iter (gets_turn max) [].

(** A fault ends the program with status -1. *)
Definition fault {A} : itree sysE A := exit_ (-1).

Fixpoint closes (l : list Z) : itree sysE unit :=
  match l with
  | [] => Ret tt
  | fd :: l' => do! _ := call (Close fd) in closes l'
  end.

(** An operation on the list of jobs, with the descriptors it closes. *)
Definition perform {A} (m : M shell A) (s : shell) : itree sysE (A * shell) :=
  match m s with
  | Ok a s' => do! _ := closes (drop (length (closed s)) (closed s')) in Ret (a, s')
  | _ => fault
  end.

(** [clearFinishedJobs], with its system calls. *)
Definition clear_turn (x : Z * shell) : itree sysE ((Z * shell) + shell) :=
  let '(p, s) := x in
  if p =? 0 then Ret (inr s)
  else
    do! (j, s) := perform (job_at p) s in
    do! r := call (IsJobEmpty (j_jid j)) in
    do! (_, s) := (if r =? 1 then perform (clear_job p j) s else Ret (tt, s)) in
    do! (j, s) := perform (job_at p) s in
    Ret (inl (j_next j, s)).
Definition clear (s : shell) : itree sysE shell := ITree.iter clear_turn (jl_first s, s).

Definition parse_ {A} (line : list Z) (k : cmd -> list Z -> itree sysE A) : itree sysE A :=
  match (let! c := parseline line (parse_fuel line) in peek line [] ;;; ret c) 0%nat with
  | Ok c s =>
      if negb (s =? es line)%nat then
        do! _ := println 2 "leftovers: %s" [Str (drop s line)] in
        process (panic_ "syntax")
      else k c (nulterminate c (line ++ [0]))
  | Panic msg => process (panic_ msg)
  | _ => fault
  end.

Section Main.
Context (alloc : shell -> Z).

(** A line that is a command: a job with a pipe to it. *)
Definition start_ (s : shell) (jobcntr : Z) (line : list Z) : itree sysE (shell * Z * bool) :=
  do! (r, p0, p1) := call Pipe in
  if r =? -1 then process (panic_ "pipe")
  else
    let job := alloc s in
    let jid := jobcntr + 1 in
    parse_ line (fun command b =>
      do! childPid := call Fork in
      if childPid =? -1 then process (panic_ "fork")
      else if childPid =? 0 then
        do! _ := call (Close 0) in
        do! _ := call (Dup p0) in
        do! _ := call (Close p1) in
        process (fork1 (runcmd (as_run b command)) (Sh.Exit 0))
      else
        do! _ := call (Close p0) in
        do! _ := call (Attachjob childPid job) in
        do! (_, s) := perform (start_job job jid p1 command) s in
        do! _ := call Wait in
        Ret (s, jid, match command with BACK _ => true | _ => false end)).

(** What the main loop does with a line. *)
Definition act (a : action) (s : shell) (jobcntr : Z) : itree sysE (shell * Z * bool) :=
  match a with
  | Relay fd l => do! _ := call (Write fd l) in Ret (s, jobcntr, false)
  | Sh.Chdir path =>
      do! r := call (Chdir path) in
      do! _ := (if r <? 0 then println 2 "cannot cd %s" [Str path] else Ret tt) in
      Ret (s, jobcntr, true)
  | Jobs jids =>
      do! _ := foldr (fun jid t => do! _ := call (Printjob jid) in t) (Ret tt) jids in
      do! _ := (if jl_first s =? 0 then println 1 "There are no jobs." [] else Ret tt) in
      Ret (s, jobcntr, true)
  | Start line => start_ s jobcntr line
  | Nothing => Ret (s, jobcntr, true)
  end.

(** One turn of the main loop: the list of jobs, [jobcntr] and [bPrintDollar]. *)
Definition sh_turn (x : shell * Z * bool) : itree sysE ((shell * Z * bool) + Empty_set) :=
  let '(s, jobcntr, bPrintDollar) := x in
  do! _ := (if bPrintDollar : bool then print 2 "$ " [] else Ret tt) in
  do! bytes := gets_ 100 in
  let buf := cstring bytes in
  do! (cmdLen, s) := perform (getcmd buf) s in
  if cmdLen <? 0 then exit_ 0
  else
    do! s := clear s in
    do! (a, s) := perform (choose (S (size (heap s))) buf) s in
    do! x := act a s jobcntr in
    Ret (inl x).

Definition open_console : itree sysE unit :=
  ITree.iter (fun _ : unit =>
    do! fd := call (Open (chars "console") O_RDWR) in
    if fd <? 0 then Ret (inr tt)
    else if 3 <=? fd then
      do! _ := call (Close fd) in
      Ret (inr tt)
    else Ret (inl tt)) tt.

Definition sh_main : itree sysE Empty_set :=
  do! _ := open_console in
  ITree.iter sh_turn (Shell 0 0 0 ∅ [], 0, true).
End Main.

(** ** What has happened in a session *)

(** What the calls of the shell tell: the bytes of the line read last or being
    read, whether it is complete, the pipes made and whether the last call of
    [pipe] failed, the number of calls of [fork] and of [wait], the answer of the
    last [fork], whether this is a child, and the descriptors [open] returned. *)
Record session := Session {
  typed : list Z;
  whole : bool;
  pipes : list (Z * Z);
  pipe_failed : bool;
  forks : nat;
  waits : nat;
  forked : Z;
  is_child : bool;
  consoles : list Z
}.

Definition take_byte (c : Z) (v : session) : session :=
  let l := (if whole v then [] else typed v) ++ [c] in
  Session l ((c =? 10) || (c =? 13) || (99 <=? Z.of_nat (length l))) (pipes v) (pipe_failed v) (forks v) (waits v) (forked v) (is_child v) (consoles v).

Definition step (v : session) (c : called) : session :=
  match c with
  | CRead _ _ (Data (c :: _)) => take_byte c v
  | CRead _ _ _ =>
      Session (if whole v then [] else typed v) true (pipes v) (pipe_failed v) (forks v) (waits v) (forked v) (is_child v) (consoles v)
  | CPipe (r, a, b) =>
      Session (typed v) (whole v) (if r =? -1 then pipes v else pipes v ++ [(a, b)]) (r =? -1) (forks v) (waits v) (forked v) (is_child v) (consoles v)
  | CFork r => Session (typed v) (whole v) (pipes v) (pipe_failed v) (S (forks v)) (waits v) r (is_child v || (r =? 0)) (consoles v)
  | CWait _ => Session (typed v) (whole v) (pipes v) (pipe_failed v) (forks v) (S (waits v)) (forked v) (is_child v) (consoles v)
  | COpen _ _ r => Session (typed v) (whole v) (pipes v) (pipe_failed v) (forks v) (waits v) (forked v) (is_child v) (r :: consoles v)
  | _ => v
  end.

Definition session_of (w : world) : session := foldl step (Session [] true [] false 0 0 1 false []) (w_log w).

(** The line, as a string, and the programs its command names. *)
Definition the_line (v : session) : list Z := cstring (typed v).

Fixpoint programs (t : tree) : list (list (list Z)) :=
  match t with
  | TExec argv => [argv]
  | TRedir t _ _ _ | TBack t => programs t
  | TPipe l r | TList l r => programs l ++ programs r
  end.
Definition parsed (line : list Z) : option tree :=
  match parsecmd line (parse_fuel line) 0%nat with Ok (c, b) _ => Some (as_run b c) | _ => None end.

(** The shell itself reads the console byte by byte; writes messages, or a whole
    line to the pipe of a job; closes the console or ends of those pipes; makes
    one child for each pipe, tells the kernel its job and waits for it once; asks
    for jobs it has started; changes to the directory of a [cd] line; and ends
    only at the end of its input, after a failed [pipe] or [fork], or at a line
    that does not parse.  A child runs only programs the line names. *)
Definition allowed (v : session) {X} (e : sysE X) : Prop :=
  if is_child v then
    match e with
    | Exec path argv => hd_error argv = Some path /\ exists t, parsed (the_line v) = Some t /\ argv ∈ programs t
    | Write fd _ => fd = 2
    | Open _ _ | Close _ | Dup _ | Pipe | Fork | Wait | Exit _ => True
    | _ => False
    end
  else
    match e with
    | Open path mode => path = chars "console" /\ mode = O_RDWR /\ pipes v = []
    | Read fd n => fd = 0 /\ n = 1
    | Write fd d => fd = 1 \/ fd = 2 \/ (whole v = true /\ fd ∈ (pipes v).*2 /\ d = the_line v)
    | Close fd => fd ∈ consoles v \/ fd ∈ (pipes v).*1 \/ fd ∈ (pipes v).*2
    | Pipe => whole v = true /\ hd 0 (the_line v) <> 10 /\ length (pipes v) = forks v
    | Fork => whole v = true /\ length (pipes v) = S (forks v) /\ is_Some (parsed (the_line v))
    | Attachjob pid _ => pid = forked v
    | Wait => forks v = S (waits v)
    | Chdir path => whole v = true /\ take 3 (the_line v) = chars "cd " /\ path = drop 3 (take (length (the_line v) - 1) (the_line v))
    | Printjob jid | IsJobEmpty jid => 1 <= jid <= Z.of_nat (length (pipes v))
    | Exit _ => whole v = true /\ (the_line v = [] \/ pipe_failed v = true \/ forked v = -1 \/ parsed (the_line v) = None)
    | _ => False
    end.
Definition sh_rules : guard := fun w X e => allowed (session_of w) e.

(** ** The rules are kept *)

Lemma session_logged c w : session_of (logged c w) = step (session_of w) c.
Proof. unfold session_of. cbn [logged w_log]. by rewrite foldl_app. Qed.

Lemma session_new_fd r input w : session_of (new_fd r input w) = session_of w.
Proof. done. Qed.
Lemma session_drop_fd fd w : session_of (drop_fd fd w) = session_of w.
Proof. done. Qed.

(** What the session is after a call. *)
Lemma session_after {X} (e : sysE X) a w w' : sys w e a w' ->
  match e in sysE Y return Y -> Prop with
  | Read fd n => fun a => session_of w' = step (session_of w) (CRead fd n a) /\ (length (match a with Data l => l | Error => [] end) <= Z.to_nat n)%nat
  | Pipe => fun a => session_of w' = step (session_of w) (CPipe a)
  | Fork => fun a => session_of w' = step (session_of w) (CFork a)
  | Wait => fun a => session_of w' = step (session_of w) (CWait a)
  | Open p m => fun a => session_of w' = step (session_of w) (COpen p m a)
  | Exit _ => fun _ => False
  | _ => fun _ => session_of w' = session_of w
  end a.
Proof.
  destruct e; cbn [sys]; try (intros ->; by rewrite session_logged); try done.
  - intros (_ & input & ->). by rewrite session_logged, session_new_fd.
  - intros (rest & E & ->). rewrite session_logged. split; [done|]. destruct (w_in w fd) as [|[d|] l]; cbn [deliver] in E; injection E as <- _; cbn [length]; try lia.
    rewrite length_take. lia.
  - intros (_ & input & ->). by rewrite session_logged, session_new_fd.
  - destruct a as [[x a] b]. destruct (0 <=? x); [|intros ->; by rewrite session_logged].
    intros (_ & _ & _ & i1 & i2 & ->). by rewrite session_logged, !session_new_fd.
Qed.

Lemma putcs_ends fd l v : (forall d, allowed v (Write fd d)) -> forall w, session_of w = v ->
  ends sh_rules (fun _ w' => session_of w' = v) (putcs fd l) w.
Proof.
  intros H. induction l as [|c l IH]; intros w Hw; cbn [putcs]; [by apply ends_Ret|].
  apply ends_then; [unfold sh_rules; by rewrite Hw|]. intros a w1 Hs%session_after. apply IH. by rewrite <-Hw.
Qed.

(** *** In a child *)

(** The program executes only what [ok] allows, and prints only messages. *)
Fixpoint runs_only (ok : list (list Z) -> Prop) (p : prog) : Prop :=
  match p with
  | Sh.Exit _ => True
  | Sh.Exec path argv failed => hd_error argv = Some path /\ ok argv /\ runs_only ok failed
  | Sh.Open _ _ k | Sh.Dup _ k => forall r, runs_only ok (k r)
  | Sh.Close _ k | Sh.Wait k => runs_only ok k
  | Sh.Pipe k => forall r, runs_only ok (k r)
  | Sh.Fork child parent => runs_only ok child /\ forall r, runs_only ok (parent r)
  | Sh.Print fd _ k => fd = 2 /\ runs_only ok k
  end.

Lemma runs_only_panic ok msg : runs_only ok (panic_ msg).
Proof. done. Qed.

Lemma runs_only_fork1 ok child parent : runs_only ok child -> runs_only ok parent -> runs_only ok (fork1 child parent).
Proof. intros Hc Hp. split; [done|]. intros r. by destruct (r =? -1). Qed.

Lemma runs_only_mono (ok ok' : list (list Z) -> Prop) p : (forall a, ok a -> ok' a) -> runs_only ok p -> runs_only ok' p.
Proof. intros H. induction p; cbn [runs_only]; naive_solver. Qed.

Lemma runcmd_runs t : runs_only (fun argv => argv ∈ programs t) (runcmd t).
Proof.
  induction t as [argv|t IH file mode fd|l IHl r IHr|l IHl r IHr|t IH]; cbn [runcmd programs].
  - destruct argv as [|path argv]; [done|]. cbn. split; [done|]. split; [by left|done].
  - cbn. intros r. by destruct (r <? 0).
  - assert (Hl : runs_only (fun argv => argv ∈ programs l ++ programs r) (runcmd l)) by (eapply runs_only_mono; [|done]; set_solver).
    assert (Hr : runs_only (fun argv => argv ∈ programs l ++ programs r) (runcmd r)) by (eapply runs_only_mono; [|done]; set_solver).
    intros [[p0 p1]|]; [|done]. apply runs_only_fork1; [by intros ?|]. apply runs_only_fork1; [by intros ?|done].
  - apply runs_only_fork1; [eapply runs_only_mono; [|exact IHl]; set_solver|]. cbn. eapply runs_only_mono; [|exact IHr]. set_solver.
  - exact IH.
Qed.

Definition in_child (l : list Z) (w : world) : Prop := is_child (session_of w) = true /\ typed (session_of w) = l.

(** A call that keeps the child a child. *)
Lemma child_then {X R} (Q : R -> world -> Prop) (e : sysE X) (k : X -> itree sysE R) l w :
  in_child l w -> allowed (session_of w) e -> (forall a w', in_child l w' -> ends sh_rules Q (k a) w') -> ends sh_rules Q (do! a := call e in k a) w.
Proof.
  intros [Hc Hl] He Hk. apply ends_then; [done|]. intros a w' Hs. apply Hk. pose proof He as He'. unfold allowed in He'. rewrite Hc in He'.
  apply session_after in Hs. unfold in_child. destruct e; try done; rewrite Hs; cbn [step is_child typed]; try done.
  - by rewrite Hc.
  - by destruct a as [[? ?] ?].
Qed.

Lemma process_child {R} (Q : R -> world -> Prop) l p :
  runs_only (fun argv => exists t, parsed (cstring l) = Some t /\ argv ∈ programs t) p ->
  forall w, in_child l w -> ends sh_rules Q (process p) w.
Proof.
  assert (Hall : forall X (e : sysE X) w, in_child l w -> match e with Open _ _ | Close _ | Dup _ | Pipe | Fork | Wait | Exit _ => True | _ => False end ->
    allowed (session_of w) e) by (intros X e w [Hc _]; unfold allowed; rewrite Hc; by destruct e).
  induction p as [st|path argv p IH|path mode k IH|fd p IH|fd k IH|k IH|child IHc parent IHp|p IH|fd d p IH];
    cbn [runs_only process]; intros Hp w Hw.
  - by apply ends_exit_, Hall.
  - destruct Hp as (Hh & Ht & Hp). apply (child_then _ _ _ l); [done| |by intros _ w'; apply IH].
    destruct Hw as [Hc Hl]. unfold allowed, the_line. by rewrite Hc, Hl.
  - apply (child_then _ _ _ l); [done|by apply Hall|]. intros r w'. by apply IH.
  - apply (child_then _ _ _ l); [done|by apply Hall|]. intros r w'. by apply IH.
  - apply (child_then _ _ _ l); [done|by apply Hall|]. intros r w'. by apply IH.
  - apply (child_then _ _ _ l); [done|by apply Hall|]. intros [[r a] b] w'. by apply IH.
  - apply (child_then _ _ _ l); [done|by apply Hall|]. intros r w' Hw'. destruct Hp as [H1 H2]. destruct (r =? 0); [by apply IHc|by apply IHp].
  - apply (child_then _ _ _ l); [done|by apply Hall|]. intros r w'. by apply IH.
  - destruct Hp as [-> Hp]. eapply ends_bind; [apply (putcs_ends 2 d (session_of w)); [|done]|].
    + intros d'. unfold allowed. by rewrite (proj1 Hw).
    + intros [] w' E. apply IH; [done|]. unfold in_child. by rewrite E.
Qed.

(** *** Reading a line *)

Definition with_line (l : list Z) (b : bool) (v : session) : session :=
  Session l b (pipes v) (pipe_failed v) (forks v) (waits v) (forked v) (is_child v) (consoles v).

Lemma gets_ends v w : session_of w = v -> whole v = true -> is_child v = false ->
  ends sh_rules (fun l w' => session_of w' = with_line l true v) (gets_ 100) w.
Proof.
  intros Hw Hv Hc. unfold gets_.
  assert (forall n buf w, (99 - length buf <= n)%nat -> (length buf <= 99)%nat ->
    session_of w = (if decide (buf = []) then v else with_line buf (99 <=? Z.of_nat (length buf)) v) ->
    ends sh_rules (fun l w' => session_of w' = with_line l true v) (ITree.iter (gets_turn 100) buf) w) as H.
  2: { apply (H 99%nat []); [cbn; lia|cbn; lia|]. by rewrite decide_True. }
  clear w Hw. intros n. induction n as [|n IH]; intros buf w Hn Hb Hw; apply ends_iter; unfold gets_turn at 2.
  - destruct (Z.ltb_spec (Z.of_nat (length buf) + 1) 100); [lia|]. apply ends_Ret. rewrite Hw, decide_False by (by intros ->).
    by rewrite (proj2 (Z.leb_le _ _)) by lia.
  - destruct (Z.ltb_spec (Z.of_nat (length buf) + 1) 100) as [Hlt|Hge].
    + assert (Hold : is_child (session_of w) = false /\ (if whole (session_of w) then [] else typed (session_of w)) = buf /\
        forall l b, with_line l b (session_of w) = with_line l b v).
      { rewrite Hw. case_decide as E; [by rewrite Hv, E|]. cbn. by rewrite (proj2 (Z.leb_gt _ _)) by lia. }
      destruct Hold as (Hch & Hold & Hsame).
      apply ends_then; [unfold sh_rules, allowed; by rewrite Hch|]. intros [[|c d]|] w1 [Hs Hd]%session_after; apply ends_Ret; cbn [step] in Hs.
      * by rewrite Hold in Hs; etransitivity; [exact Hs|apply Hsame].
      * unfold take_byte in Hs. cbn zeta in Hs. rewrite Hold in Hs.
        assert (E : session_of w1 = with_line (buf ++ [c]) ((c =? 10) || (c =? 13) || (99 <=? Z.of_nat (length (buf ++ [c])))) v)
          by (etransitivity; [exact Hs|apply Hsame]).
        destruct ((c =? 10) || (c =? 13)); [done|]. apply IH; rewrite ?length_app; cbn [length]; [lia|lia|].
        rewrite E, decide_False, length_app by (by destruct buf). done.
      * by rewrite Hold in Hs; etransitivity; [exact Hs|apply Hsame].
    + apply ends_Ret. rewrite Hw, decide_False by (intros ->; cbn in Hge; lia). by rewrite (proj2 (Z.leb_le _ _)) by lia.
Qed.

(** *** The list of jobs *)

Lemma closes_ends v l : (forall fd, fd ∈ l -> allowed v (Close fd)) -> forall w, session_of w = v ->
  ends sh_rules (fun _ w' => session_of w' = v) (closes l) w.
Proof.
  induction l as [|fd l IH]; intros H w Hw; cbn [closes]; [by apply ends_Ret|].
  apply ends_then; [unfold sh_rules; rewrite Hw; apply H; by left|]. intros a w1 Hs%session_after. apply IH; [|by rewrite <-Hw].
  intros fd' Hfd. apply H. by right.
Qed.

Lemma perform_ends {A} (m : M shell A) s v w (Q : A -> shell -> Prop) :
  session_of w = v -> wp m (fun a s' => Q a s' /\ exists new, closed s' = closed s ++ new /\ forall fd, fd ∈ new -> allowed v (Close fd)) s ->
  ends sh_rules (fun r w' => session_of w' = v /\ Q r.1 r.2) (perform m s) w.
Proof.
  intros Hw Hm. destruct (wp_run _ _ _ Hm) as (a & s' & E & HQ & new & Hn & Hc). unfold perform. rewrite E, Hn, drop_app_length.
  eapply ends_bind; [by apply (closes_ends v)|]. intros [] w1 Hw1. by apply ends_Ret.
Qed.

(** The shell between two lines: its jobs are [xs], numbered up to [jobcntr], each
    with the pipe that was made for it. *)
Record running (s : shell) (jobcntr : Z) (xs : list Z) (v : session) : Prop := {
  rn_jobs : joblist_is s xs;
  rn_fg : jl_fgJob s = 0 \/ jl_fgJob s ∈ xs;
  rn_ids : forall x, x ∈ xs -> 1 <= jid_of s x <= jobcntr /\ fd_of s x ∈ (pipes v).*2;
  rn_count : jobcntr = Z.of_nat (length (pipes v));
  rn_forks : forks v = length (pipes v);
  rn_waits : waits v = length (pipes v);
  rn_parent : is_child v = false;
  rn_whole : whole v = true
}.

Lemma running_job s n xs v x : running s n xs v -> x ∈ xs -> exists j, heap s !! x = Some j /\ x <> 0 /\
  1 <= j_jid j <= n /\ j_fd j ∈ (pipes v).*2.
Proof.
  intros H Hx. pose proof (rn_ids _ _ _ _ H x Hx) as Hi. destruct (rn_jobs _ _ _ _ H) as [_ H0 _ _ Hk].
  assert (x <> 0) by (by intros ->). apply list_elem_of_split in Hx as (l1 & l2 & ->). apply linked_app in Hk as [_ (j & Hj & _)].
  exists j. unfold jid_of, fd_of in Hi. rewrite Hj in Hi. done.
Qed.

(** The jobs are fewer than the fuel. *)
Lemma running_size s n xs v : running s n xs v -> (length xs < S (size (heap s)))%nat.
Proof.
  intros H. destruct (rn_jobs _ _ _ _ H) as [Hnd _ _ _ _]. rewrite <-(size_list_to_set (C := gset Z) xs Hnd), <-(size_dom (D := gset Z)).
  apply le_n_S, subseteq_size. intros x Hx%elem_of_list_to_set. destruct (running_job _ _ _ _ _ H Hx) as (j & Hj & _). by eapply elem_of_dom_2.
Qed.

Lemma close_job v fd : is_child v = false -> fd ∈ (pipes v).*2 -> allowed v (Close fd).
Proof. intros Hc Hfd. unfold allowed. rewrite Hc. by right; right. Qed.

Lemma job_at_ends s n xs v p w : running s n xs v -> session_of w = v -> p ∈ xs ->
  ends sh_rules (fun r w' => session_of w' = v /\ r.2 = s /\ heap s !! p = Some r.1) (perform (job_at p) s) w.
Proof.
  intros Hr Hw Hp. destruct (running_job _ _ _ _ _ Hr Hp) as (j & Hj & _). apply perform_ends with (Q := fun a s' => s' = s /\ heap s !! p = Some a); [done|].
  apply (job_at_ok p j); [done|]. split; [done|]. exists []. rewrite app_nil_r. split; [done|]. by intros ? ?%elem_of_nil.
Qed.

(** Removing a job. *)
Lemma clear_job_ends s n pre x rest v j w : running s n (pre ++ x :: rest) v -> session_of w = v -> heap s !! x = Some j ->
  ends sh_rules (fun r w' => session_of w' = v /\ running r.2 n (pre ++ rest) v /\ heap r.2 !! x = Some j) (perform (clear_job x j) s) w.
Proof.
  intros Hr Hw Hj. destruct (running_job _ _ _ _ x Hr ltac:(set_solver)) as (j' & Hj' & _ & _ & Hfd). rewrite Hj in Hj'. injection Hj' as <-. subst v.
  apply perform_ends with (Q := fun _ s' => running s' n (pre ++ rest) (session_of w) /\ heap s' !! x = Some j); [done|].
  pose proof (rn_jobs _ _ _ _ Hr) as Hs. eapply wp_mono; [by apply (clear_job_spec x j pre rest)|]. intros [] s' (H1 & H2 & H3 & H4 & H5). split.
  - split; [|rewrite H4; [done|]; intros Hin; destruct Hs as [(Hn1 & Hn2 & [Hn3 _]%NoDup_cons)%NoDup_app _ _ _ _]; apply elem_of_app in Hin as [Hin|Hin]; [|done];
      apply (Hn2 x Hin); by left].
    destruct Hr as [R1 R2 R3 R4 R5 R6 R7 R8]. split; try done.
    + rewrite H2. destruct (Z.eqb_spec (jl_fgJob s) x); [by left|]. set_solver.
    + intros y Hy. destruct (running_job s n (pre ++ x :: rest) (session_of w) y) as (jy & Hjy & _ & H7 & H8); [by split|set_solver|].
      destruct (H5 y jy Hjy) as (jy' & Hjy' & E1 & E2). unfold jid_of, fd_of. by rewrite Hjy', E1, E2.
  - exists [j_fd j]. split; [done|]. intros fd ->%list_elem_of_singleton. apply close_job; [by apply (rn_parent _ _ _ _ Hr)|done].
Qed.

Lemma clear_ends s n xs v w : running s n xs v -> session_of w = v ->
  ends sh_rules (fun s' w' => session_of w' = v /\ exists xs', running s' n xs' v) (clear s) w.
Proof.
  intros Hr Hw. unfold clear. rewrite (ji_first _ _ (rn_jobs _ _ _ _ Hr)).
  assert (forall rest pre s w, running s n (pre ++ rest) v -> session_of w = v ->
    ends sh_rules (fun s' w' => session_of w' = v /\ exists xs', running s' n xs' v) (ITree.iter clear_turn (hd 0 rest, s)) w) as H; [|by apply (H xs [])].
  clear s xs w Hr Hw. intros rest. induction rest as [|x rest IH]; intros pre s w Hr Hw; apply ends_iter; unfold clear_turn at 2; cbn [hd].
  - apply ends_Ret. split; [done|]. by exists (pre ++ []).
  - destruct (running_job _ _ _ _ x Hr ltac:(set_solver)) as (j & Hj & Hx & Hid & _). rewrite (proj2 (Z.eqb_neq x 0) Hx).
    assert (Hnext : j_next j = hd 0 rest).
    { destruct (rn_jobs _ _ _ _ Hr) as [_ _ _ _ Hk]. apply linked_app in Hk as [_ (j' & Hj' & _ & Hn & _)]. by simplify_eq. }
    eapply ends_bind; [by apply (job_at_ends s n (pre ++ x :: rest) v); [..|set_solver]|]. intros [j1 s1] w1 (Hw1 & E1 & E2). cbn [fst snd] in E1, E2. subst s1. rewrite Hj in E2. injection E2 as <-.
    apply ends_then; [unfold sh_rules, allowed; rewrite Hw1, (rn_parent _ _ _ _ Hr); by rewrite <-(rn_count _ _ _ _ Hr)|].
    intros r w2 Hs%session_after. destruct (Z.eqb_spec r 1) as [_|_].
    + eapply ends_bind; [apply (clear_job_ends s n pre x rest v j); [done|by rewrite Hs|done]|]. intros [[] s2] w3 (Hw3 & Hr2 & Hj2). cbn [fst snd] in Hr2, Hj2.
      eapply ends_bind.
      { apply (perform_ends (job_at x) s2 v w3 (fun a s' => s' = s2 /\ a = j) Hw3). apply (job_at_ok x j); [done|]. split; [done|]. exists [].
        rewrite app_nil_r. split; [done|]. by intros ? ?%elem_of_nil. }
      intros [j2 s3] w4 (Hw4 & E3 & E4). cbn [fst snd] in E3, E4. subst s3 j2. apply ends_Ret. rewrite Hnext. by apply (IH pre).
    + eapply ends_bind; [by apply (ends_Ret _ (fun r w' => session_of w' = v /\ r = (tt, s))); rewrite Hs|]. intros [[] s2] w3 [Hw3 [= ->]].
      eapply ends_bind; [by apply (job_at_ends s n (pre ++ x :: rest) v); [..|set_solver]|]. intros [j2 s3] w4 (Hw4 & E3 & E4). cbn [fst snd] in E3, E4. subst s3. rewrite Hj in E4. injection E4 as <-.
      apply ends_Ret. rewrite Hnext. apply (IH (pre ++ [x])); [by rewrite <-app_assoc|done].
Qed.

Lemma running_line s n xs v l : running s n xs v -> running s n xs (with_line l true v).
Proof. by intros []. Qed.

Lemma running_fg s n xs v p : running s n xs v -> p = 0 \/ p ∈ xs -> running (set_fgJob p s) n xs v.
Proof. intros [] Hp. split; try done. by apply joblist_fg. Qed.

Lemma nothing_closed (s s' : shell) v : closed s' = closed s -> exists new, closed s' = closed s ++ new /\ forall fd, fd ∈ new -> allowed v (Close fd).
Proof. intros ->. exists []. rewrite app_nil_r. split; [done|]. by intros ? ?%elem_of_nil. Qed.

Lemma cstring_hd l : hd 0 (cstring l) = 0 -> cstring l = [].
Proof. destruct l as [|c l]; [done|]. cbn. destruct (Z.eqb_spec c 0); [done|]. by intros. Qed.

Lemma getcmd_ends s n xs v w : running s n xs v -> session_of w = v ->
  ends sh_rules (fun r w' => session_of w' = v /\ running r.2 n xs v /\ (r.1 < 0 -> the_line v = [])) (perform (getcmd (the_line v)) s) w.
Proof.
  intros Hr Hw. apply perform_ends with (Q := fun r s' => running s' n xs v /\ (r < 0 -> the_line v = [])); [done|].
  assert (Hlen : 0 <= strlen (the_line v)) by (apply Z.mod_pos_bound; lia).
  unfold getcmd. apply wp_bind, wp_gets. unfold id, deref. destruct (Z.eqb_spec (hd 0 (the_line v)) 0) as [E|E].
  - destruct (Z.eqb_spec (jl_fgJob s) 0) as [E0|E0]; cbn [negb].
    + apply wp_ret. split; [|by apply nothing_closed]. split; [done|]. intros _. by apply cstring_hd.
    + destruct (rn_fg _ _ _ _ Hr) as [?|Hfg]; [done|]. destruct (running_job _ _ _ _ _ Hr Hfg) as (j & Hj & _ & _ & Hfd).
      apply wp_bind, (job_at_ok _ j); [done|]. apply wp_bind, wp_modify, wp_bind, wp_modify, wp_ret. split.
      * split; [|lia]. apply (running_fg _ _ _ _ 0) in Hr; [|by left]. by destruct Hr as [[] ? ? ? ? ? ? ?].
      * exists [j_fd j]. split; [done|]. intros fd ->%list_elem_of_singleton. apply close_job; [by apply (rn_parent _ _ _ _ Hr)|done].
  - apply wp_ret. split; [|by apply nothing_closed]. split; [done|]. lia.
Qed.

(** An action is one the line asks for. *)
Definition action_ok (v : session) (a : action) : Prop :=
  match a with
  | Relay fd l => fd ∈ (pipes v).*2 /\ l = the_line v
  | Sh.Chdir path => allowed v (Chdir path)
  | Jobs jids => forall jid, jid ∈ jids -> 1 <= jid <= Z.of_nat (length (pipes v))
  | Start l => l = the_line v /\ hd 0 (the_line v) <> 10
  | Nothing => True
  end.

Lemma cd_line l : (nth 0 l 0 =? 99) && (nth 1 l 0 =? 100) && (nth 2 l 0 =? 32) = true -> take 3 l = chars "cd ".
Proof.
  intros [[H1%Z.eqb_eq H2%Z.eqb_eq]%andb_prop H3%Z.eqb_eq]%andb_prop. destruct l as [|a [|b [|c l]]]; cbn in *; try done. by subst.
Qed.

Lemma choose_ends s n xs v w : running s n xs v -> session_of w = v ->
  ends sh_rules (fun r w' => session_of w' = v /\ running r.2 n xs v /\ action_ok v r.1) (perform (choose (S (size (heap s))) (the_line v)) s) w.
Proof.
  intros Hr Hw. apply perform_ends with (Q := fun r s' => running s' n xs v /\ action_ok v r); [done|].
  pose proof (running_size _ _ _ _ Hr) as Hsize. destruct (rn_jobs _ _ _ _ Hr) as [_ H0 Hf _ Hk].
  unfold choose. apply wp_bind, wp_gets. unfold id. destruct (Z.eqb_spec (jl_fgJob s) 0) as [E0|E0]; cbn [negb].
  - destruct (_ && _) eqn:Ecd.
    { apply wp_ret. split; [|by apply nothing_closed]. split; [done|]. unfold action_ok, allowed.
      rewrite (rn_parent _ _ _ _ Hr). split; [apply (rn_whole _ _ _ _ Hr)|]. split; [by apply cd_line|done]. }
    clear Ecd. destruct (_ && _).
    { rewrite Hf. apply wp_bind. eapply wp_mono; [by apply (list_jobs_spec xs 0)|]. intros l s' [-> ->]. apply wp_ret.
      split; [|by apply nothing_closed]. split; [done|]. intros jid (x & -> & Hx)%list_elem_of_fmap. rewrite <-(rn_count _ _ _ _ Hr).
      by apply (rn_ids _ _ _ _ Hr). }
    destruct (_ && _).
    { rewrite Hf. apply wp_bind. eapply wp_mono; [by apply (find_job_spec xs 0)|]. intros p s' [-> ->]. apply wp_bind, wp_modify, wp_ret.
      split; [|by apply nothing_closed]. split; [|done]. apply running_fg; [done|].
      destruct (filter _ xs) as [|x l] eqn:E; [by left|]. right. cbn [hd].
      assert (Hx : x ∈ filter (fun x => jid_of s x = atoi (drop 3 (the_line v))) xs) by (rewrite E; by left). by apply list_elem_of_filter in Hx as [_ ?]. }
    destruct (Z.eqb_spec (nth 0 (the_line v) 0) 10) as [E|E]; cbn [negb]; apply wp_ret; (split; [|by apply nothing_closed]); [done|].
    split; [done|]. split; [done|]. by destruct (the_line v).
  - destruct (rn_fg _ _ _ _ Hr) as [?|Hfg]; [done|]. destruct (running_job _ _ _ _ _ Hr Hfg) as (j & Hj & _ & _ & Hfd).
    apply wp_bind, (job_at_ok _ j); [done|]. apply wp_ret. split; [|by apply nothing_closed]. done.
Qed.

(** *** A new job *)

(** The shell ends with a message. *)
Lemma panic_ends {R} (Q : R -> world -> Prop) msg v w : session_of w = v -> is_child v = false -> allowed v (Exit 0) ->
  ends sh_rules Q (process (panic_ msg)) w.
Proof.
  intros Hw Hc He. cbn [panic_ process]. eapply ends_bind; [apply (putcs_ends 2 _ v); [|done]|].
  - intros d. unfold allowed. rewrite Hc. by right; left.
  - intros [] w1 Hw1. apply ends_exit_. unfold sh_rules. by rewrite Hw1.
Qed.

Lemma parse_ends {R} (Q : R -> world -> Prop) k v w : session_of w = v -> is_child v = false -> whole v = true ->
  (forall c b, parsed (the_line v) = Some (as_run b c) -> ends sh_rules Q (k c b) w) -> ends sh_rules Q (parse_ (the_line v) k) w.
Proof.
  intros Hw Hc Hv Hk. assert (He : parsed (the_line v) = None -> allowed v (Exit 0)).
  { intros E. unfold allowed. rewrite Hc. split; [done|]. by right; right; right. }
  pose proof (parsecmd_halts (the_line v) _ (le_n _)) as Hh. unfold parsed in *. unfold parse_, parsecmd, halts, bind, gets, ret in *.
  destruct (parseline (the_line v) (parse_fuel (the_line v)) 0%nat) as [c s|msg|ch s0|]; try done; [|by eapply panic_ends; [..|apply He]].
  destruct (peek (the_line v) [] s) as [p s1|msg|ch s0|]; try done; [|by eapply panic_ends; [..|apply He]]. unfold id in *.
  destruct (s1 =? es (the_line v))%nat; cbn [negb] in *; [by apply Hk|].
  eapply ends_bind; [apply (putcs_ends 2 _ v); [|done]|].
  - intros d. unfold allowed. rewrite Hc. by right; left.
  - intros [] w1 Hw1. eapply panic_ends; [done|done|by apply He].
Qed.

Section Alloc.
Context (alloc : shell -> Z) (alloc_ok : forall s xs, joblist_is s xs -> alloc s <> 0 /\ alloc s ∉ xs).

(** The loop goes on. *)
Definition goes_on (r : shell * Z * bool) (w : world) : Prop := exists xs, running r.1.1 r.1.2 xs (session_of w).

(** The child: its standard input is the pipe, and it runs the command. *)
Lemma child_ends {R} (Q : R -> world -> Prop) p0 p1 l t w : in_child l w -> parsed (cstring l) = Some t ->
  ends sh_rules Q (do! _ := call (Close 0) in do! _ := call (Dup p0) in do! _ := call (Close p1) in process (fork1 (runcmd t) (Sh.Exit 0))) w.
Proof.
  intros Hw Ht. assert (Hall : forall X (e : sysE X) w, in_child l w -> match e with Close _ | Dup _ => True | _ => False end ->
    allowed (session_of w) e) by (intros X e w' [Hc _]; unfold allowed; rewrite Hc; by destruct e).
  apply (child_then _ _ _ l); [done|by apply Hall|]. intros _ w1 H1. apply (child_then _ _ _ l); [done|by apply Hall|]. intros _ w2 H2.
  apply (child_then _ _ _ l); [done|by apply Hall|]. intros _ w3 H3. apply (process_child Q l); [|done]. apply runs_only_fork1; [|done].
  eapply runs_only_mono; [|apply runcmd_runs]. intros argv Ha. by exists t.
Qed.

(** The job is on the list. *)
Lemma job_started s n xs v p0 p1 command w :
  running s n xs v -> session_of w = v -> forall v2, pipes v2 = pipes v ++ [(p0, p1)] -> is_child v2 = false ->
  wp (start_job (alloc s) (n + 1) p1 command) (fun _ s' => closed s' = closed s /\
    joblist_is s' (xs ++ [alloc s]) /\ (jl_fgJob s' = 0 \/ jl_fgJob s' ∈ xs ++ [alloc s]) /\
    forall x, x ∈ xs ++ [alloc s] -> 1 <= jid_of s' x <= n + 1 /\ fd_of s' x ∈ (pipes v2).*2) s.
Proof.
  intros Hr Hw v2 Hp Hc. destruct (alloc_ok s xs (rn_jobs _ _ _ _ Hr)) as [Ha0 Hax].
  eapply wp_mono; [by apply (start_job_spec _ _ _ _ xs); [apply (rn_jobs _ _ _ _ Hr)|..]|].
  intros [] s' (H1 & H2 & H3 & H4 & H5 & H6). split; [done|]. split; [done|]. split.
  - rewrite H4. pose proof (rn_fg _ _ _ _ Hr). destruct command; set_solver.
  - rewrite Hp, fmap_app. cbn [fmap list_fmap snd]. pose proof (rn_count _ _ _ _ Hr). intros x [Hx| ->%list_elem_of_singleton]%elem_of_app.
    + destruct (H6 x Hx) as [-> ->]. destruct (rn_ids _ _ _ _ Hr x Hx) as [? ?]. split; [lia|]. apply elem_of_app. by left.
    + rewrite H2, H3. split; [lia|]. apply elem_of_app. right. by left.
Qed.

Lemma start_ends s n xs v w : running s n xs v -> session_of w = v -> hd 0 (the_line v) <> 10 ->
  ends sh_rules goes_on (start_ alloc s n (the_line v)) w.
Proof.
  intros Hr Hw Hl. pose proof Hr as [_ _ _ R4 R5 R6 R7 R8]. unfold start_.
  apply ends_then; [unfold sh_rules, allowed; rewrite Hw, R7; done|]. intros [[r p0] p1] w1 Hs1%session_after. rewrite Hw in Hs1. cbn [step] in Hs1.
  destruct (Z.eqb_spec r (-1)) as [->|Hne].
  { eapply panic_ends; [exact Hs1|done|]. unfold allowed. cbn. rewrite R7. split; [done|]. by right; left. }
  set (v1 := session_of w1) in *. assert (E1 : is_child v1 = false /\ whole v1 = true /\ the_line v1 = the_line v /\ pipes v1 = pipes v ++ [(p0, p1)] /\
    forks v1 = forks v /\ waits v1 = waits v /\ consoles v1 = consoles v) by (by rewrite Hs1).
  destruct E1 as (C1 & W1 & L1 & P1 & F1 & N1 & O1). clear Hs1. rewrite <-L1. apply (parse_ends _ _ v1); [done..|]. intros c b Hp.
  apply ends_then.
  { unfold sh_rules, allowed. fold v1. rewrite C1, P1, length_app, F1, Hp. cbn [length]. split; [done|]. split; [lia|done]. }
  intros pid w2 Hs2%session_after. fold v1 in Hs2. cbn [step] in Hs2. destruct (Z.eqb_spec pid (-1)) as [->|Hne1].
  { eapply panic_ends; [exact Hs2|by rewrite C1|]. unfold allowed. cbn. rewrite C1. split; [done|]. by right; right; left. }
  destruct (Z.eqb_spec pid 0) as [->|Hne0].
  { apply (child_ends _ _ _ (typed v1)); [|done]. split; [by rewrite Hs2; cbn; rewrite orb_true_r|by rewrite Hs2]. }
  rewrite C1 in Hs2. cbn [orb] in Hs2. set (v2 := session_of w2) in *.
  assert (E2 : is_child v2 = false /\ whole v2 = true /\ pipes v2 = pipes v ++ [(p0, p1)] /\ forks v2 = S (forks v) /\ waits v2 = waits v /\ forked v2 = pid)
    by (by rewrite Hs2; cbn; rewrite W1, P1, F1, N1).
  destruct E2 as (C2 & W2 & P2 & F2 & N2 & O2). clear Hs2.
  apply ends_then; [unfold sh_rules, allowed; fold v2; rewrite C2, P2, fmap_app; right; left; apply elem_of_app; right; by left|].
  intros _ w3 Hs3%session_after. apply ends_then; [unfold sh_rules, allowed; rewrite Hs3; fold v2; by rewrite C2|]. intros _ w4 Hs4%session_after.
  rewrite Hs3 in Hs4. fold v2 in Hs4. eapply ends_bind.
  { apply (perform_ends _ s v2 w4 (fun _ s' => joblist_is s' (xs ++ [alloc s]) /\ (jl_fgJob s' = 0 \/ jl_fgJob s' ∈ xs ++ [alloc s]) /\
      forall x, x ∈ xs ++ [alloc s] -> 1 <= jid_of s' x <= n + 1 /\ fd_of s' x ∈ (pipes v2).*2) Hs4).
    eapply wp_mono; [by apply (job_started s n xs v p0 p1 c w Hr Hw v2)|]. intros [] s' [H1 H2]. split; [done|by apply nothing_closed]. }
  intros [[] s'] w5 (Hw5 & H1 & H2 & H3). cbn [fst snd] in H1, H2, H3.
  apply ends_then; [unfold sh_rules, allowed; rewrite Hw5, C2; lia|]. intros r6 w6 Hs6%session_after. apply ends_Ret. exists (xs ++ [alloc s]).
  rewrite Hs6, Hw5. split; cbn [fst snd step pipes forks waits is_child whole]; try done; rewrite ?P2, ?length_app; cbn [length]; lia.
Qed.

(** *** The main loop *)

Lemma act_ends s n xs v a w : running s n xs v -> session_of w = v -> action_ok v a -> ends sh_rules goes_on (act alloc a s n) w.
Proof.
  intros Hr Hw Ha. pose proof (rn_parent _ _ _ _ Hr) as Hc.
  assert (Hmsg : forall fd, fd = 1 \/ fd = 2 -> forall d, allowed v (Write fd d)) by (intros fd Hfd d; unfold allowed; rewrite Hc; tauto).
  assert (Hdone : forall b w', session_of w' = v -> goes_on (s, n, b) w') by (intros b w' Hw'; exists xs; by rewrite Hw').
  destruct a as [fd l|path|jids|l|]; cbn [act action_ok] in *.
  - destruct Ha as [Hfd ->]. apply ends_then; [unfold sh_rules, allowed; rewrite Hw, Hc; right; right; split; [apply (rn_whole _ _ _ _ Hr)|done]|].
    intros r w1 Hs%session_after. apply ends_Ret, Hdone. by rewrite Hs.
  - apply ends_then; [unfold sh_rules; by rewrite Hw|]. intros r w1 Hs%session_after. rewrite Hw in Hs.
    eapply (ends_bind _ (fun _ w' => session_of w' = v)); [destruct (r <? 0); [apply putcs_ends; [apply Hmsg; by right|done]|by apply ends_Ret]|].
    intros [] w2 Hw2. by apply ends_Ret, Hdone.
  - eapply (ends_bind _ (fun _ w' => session_of w' = v)).
    { clear Hdone. revert w Hw. induction jids as [|jid jids IH]; intros w Hw; cbn [foldr]; [by apply ends_Ret|].
      apply ends_then; [unfold sh_rules, allowed; rewrite Hw, Hc; apply Ha; by left|]. intros r w1 Hs%session_after. rewrite Hw in Hs.
      apply IH; [|done]. intros j Hj. apply Ha. by right. }
    intros [] w1 Hw1. eapply (ends_bind _ (fun _ w' => session_of w' = v));
      [destruct (_ =? 0); [apply putcs_ends; [apply Hmsg; by left|done]|by apply ends_Ret]|].
    intros [] w2 Hw2. by apply ends_Ret, Hdone.
  - destruct Ha as [-> Hl]. by apply (start_ends s n xs v).
  - by apply ends_Ret, Hdone.
Qed.

Lemma sh_turn_ends x w : goes_on x w -> ends sh_rules (fun r w' => match r with inl x' => goes_on x' w' | inr _ => False end) (sh_turn alloc x) w.
Proof.
  destruct x as [[s n] dollar]. intros [xs Hr]. cbn [fst snd] in Hr. set (v := session_of w) in *. pose proof (rn_parent _ _ _ _ Hr) as Hc. unfold sh_turn.
  eapply (ends_bind _ (fun _ w' => session_of w' = v)).
  { destruct dollar; [|by apply ends_Ret]. apply putcs_ends; [|done]. intros d. unfold allowed. rewrite Hc. by right; left. }
  intros [] w1 Hw1. eapply ends_bind; [by apply (gets_ends v); [|apply (rn_whole _ _ _ _ Hr)|]|]. intros bytes w2 Hw2.
  apply (running_line _ _ _ _ bytes) in Hr. set (v2 := with_line bytes true v) in *. change (cstring bytes) with (the_line v2).
  eapply ends_bind; [by apply (getcmd_ends s n xs v2)|]. intros [cmdLen s1] w3 (Hw3 & Hr3 & He). cbn [fst snd] in Hr3, He.
  destruct (Z.ltb_spec cmdLen 0) as [Hlt|_].
  { apply ends_exit_. unfold sh_rules, allowed. rewrite Hw3, (rn_parent _ _ _ _ Hr3). split; [done|]. left. by apply He. }
  eapply ends_bind; [by apply (clear_ends s1 n xs v2)|]. intros s2 w4 (Hw4 & xs2 & Hr4).
  eapply ends_bind; [by apply (choose_ends s2 n xs2 v2)|]. intros [a s3] w5 (Hw5 & Hr5 & Ha). cbn [fst snd] in Hr5, Ha.
  eapply ends_bind; [by apply (act_ends s3 n xs2 v2)|]. intros x w6 Hx. by apply ends_Ret.
Qed.

End Alloc.

(** The console is opened at most four times: each [open] takes a descriptor. *)
Lemma open_console_ends w : session_of w = Session [] true [] false 0 0 1 false [] ->
  ends sh_rules (fun _ w' => exists l, session_of w' = Session [] true [] false 0 0 1 false l) open_console w.
Proof.
  intros Hw. assert (forall k (free : list Z) w, length free = k -> (forall fd, 0 <= fd < 3 -> fd ∈ w_fds w \/ fd ∈ free) ->
    (exists l, session_of w = Session [] true [] false 0 0 1 false l) ->
    ends sh_rules (fun _ w' => exists l, session_of w' = Session [] true [] false 0 0 1 false l) open_console w) as H.
  { intros k. induction (lt_wf k) as [k _ IH]. intros free w0 Hk Hfree [l Hl]. apply ends_iter.
    apply ends_then; [unfold sh_rules, allowed; by rewrite Hl|]. intros fd w1 Hs. pose proof Hs as (Hnew & input & E).
    apply session_after in Hs. rewrite Hl in Hs. cbn [step] in Hs. destruct (Z.ltb_spec fd 0); [apply ends_Ret; by eexists|].
    destruct (Z.leb_spec 3 fd).
    - apply ends_then; [unfold sh_rules, allowed; rewrite Hs; left; by left|]. intros r w2 Hs2%session_after. apply ends_Ret. rewrite Hs2, Hs. by eexists.
    - apply ends_Ret. destruct (Hfree fd ltac:(lia)) as [Hin|Hin]; [by apply Hnew in Hin|].
      apply (IH (length (filter (fun x => x <> fd) free)) ltac:(subst k; apply (length_filter_lt _ _ fd); [done|by intros ?]) (filter (fun x => x <> fd) free)); [done| |by eexists].
      intros fd' Hfd'. destruct (decide (fd' = fd)) as [->|Hne].
      + left. subst w1. cbn. rewrite (proj2 (Z.leb_le 0 fd)) by lia. by left.
      + destruct (Hfree fd' Hfd') as [?|?].
        * left. subst w1. cbn. rewrite (proj2 (Z.leb_le 0 fd)) by lia. by right.
        * right. by apply list_elem_of_filter. }
  apply (H 3%nat [0; 1; 2]); [done| |by eexists]. intros fd Hfd. right. assert (fd = 0 \/ fd = 1 \/ fd = 2) as [->|[->| ->]] by lia; set_solver.
Qed.
