(* ===== verification/ProgramProps.v ===== *)
(** * What the user programs guarantee

    The theorems about the programs of [Programs], whatever the kernel answers to
    their calls. *)

From ITree Require Import ITree.
From S2P Require Import Prelude Bytes Params CString Fs Ulib Utils Grep Sh ShJobs Calls Programs ProgramSpec GrepMain ShMain.



(** [rm] deletes its arguments in order and stops at the first it cannot
    delete: it ends with status 0 exactly when every one was deleted. *)
Theorem rm_deletes argv w : (2 <= length argv)%nat -> must
  (fun st w' => exists new, after w new w' /\ all_or_last (args argv) st (collect unlinks new)) (fun _ _ => False) (rm_main argv) w.
Proof.
  intros Hn. unfold rm_main. rewrite (proj2 (Nat.ltb_ge _ _) Hn). apply each_or_fail_spec; [done|done|].
  intros w0 a r w' ->. by eexists.
Qed.

Lemma rm_deletes_witness : must (fun st w' => exists new, after (World [] (fun _ => []) []) new w' /\
  all_or_last [chars "a"; chars "b"] st (collect unlinks new)) (fun _ _ => False) (rm_main [chars "rm"; chars "a"; chars "b"]) (World [] (fun _ => []) []).
Proof. apply (rm_deletes [chars "rm"; chars "a"; chars "b"]). cbn. lia. Defined.

(** [mkdir] makes its directories in order and stops at the first it cannot make. *)
Lemma mkdir_makes argv w : (2 <= length argv)%nat -> must
  (fun st w' => exists new, after w new w' /\ all_or_last (args argv) st (collect mkdirs new)) (fun _ _ => False) (mkdir_main argv) w.
Proof.
  intros Hn. unfold mkdir_main. rewrite (proj2 (Nat.ltb_ge _ _) Hn). apply each_or_fail_spec; [done|done|].
  intros w0 a r w' ->. by eexists.
Qed.

(** [kill] sends the signal to each of its arguments, read as numbers. *)
Lemma kill_sends argv w : (1 <= length argv)%nat -> must
  (fun st w' => st = 0 /\ exists new, after w new w' /\ collect kills new = atoi <$> args argv) (fun _ _ => False) (kill_main argv) w.
Proof.
  intros Hn. unfold kill_main. rewrite (proj2 (Nat.ltb_ge _ _) Hn). clear Hn. revert w.
  induction (args argv) as [|a l IH]; intros w; cbn [kill_each].
  - apply must_exit_. split; [done|]. exists []. split; [apply after_refl|done].
  - apply must_then; [done|]. intros r w1 ->. eapply must_weaken; [apply IH|]. intros st w2 (-> & new & Ha & Hk). split; [done|].
    exists ([CKill (atoi a) r] ++ new). split; [by eapply after_trans; [apply after_logged|]|]. by rewrite collect_app, collect_one, Hk.
Qed.

(** [echo] writes what the function of that name says. *)
Lemma echo_writes argv w : must
  (fun st w' => st = 0 /\ exists new, after w new w' /\ collect (writes 1) new = echo (args argv)) (fun _ _ => False) (echo_main argv) w.
Proof.
  unfold echo_main. revert w. induction (args argv) as [|a l IH]; intros w; cbn [echo_each echo].
  - apply must_exit_. split; [done|]. exists []. split; [apply after_refl|done].
  - eapply must_bind; [apply must_putcs|]. intros [] w1 (_ & n1 & A1 & W1 & _).
    eapply must_weaken; [apply IH|]. intros st w2 (-> & n2 & A2 & W2). split; [done|].
    exists (n1 ++ n2). split; [by eapply after_trans|]. rewrite collect_app, W1, W2, app_assoc. f_equal.
    unfold text, printf. cbn. by rewrite app_nil_r.
Qed.

(** [ls] ends, with status 0, on every directory. *)
Lemma ls_terminates argv w : must (fun st _ => st = 0) (fun _ _ => False) (ls_main argv) w.
Proof.
  unfold ls_main. destruct (_ <? 2)%nat; [|apply ls_each_ends]. eapply must_bind; [apply ls_ends|]. intros [] w' _. by apply must_exit_.
Qed.

(** [grep] always ends, with status 0, or -1 if a file cannot be opened, when the
    byte behind its buffer is NUL. *)
Theorem grep_terminates argv b w : b bufsize = 0 -> must (fun st _ => st = 0 \/ st = -1) (fun _ _ => False) (grep_main argv b) w.
Proof.
  intros Hb. destruct argv as [|a [|pattern files]]; cbn [grep_main].
  1,2: eapply must_bind; [apply must_putcs|]; intros [] w' _; apply must_exit_; by left.
  case_decide; [|by apply grep_each_ends].
  eapply must_bind; [by apply (grep_fd_ends _ pattern 0 _ b 0 _ (Nat.lt_succ_diag_r _))|]. intros b' w' _. apply must_exit_. by left.
Qed.

(** C27: [grep pattern] prints exactly the lines of its input in which the pattern
    occurs, in order, and ends with status 0, when the input is a file of lines
    that fits into the buffer and one [read] delivers it. *)
Theorem grep_prints name pattern ls w : Forall is_line ls -> Z.of_nat (length (unlines ls)) < bufsize -> w_in w 0 = [Data (unlines ls)] ->
  must (fun st w' => st = 0 /\ exists new, after w new w' /\
      collect (writes 1) new = unlines (filter (Pattern.occurs (Pattern.of_text pattern)) ls))
    (fun _ _ => False) (grep_main [name; pattern] (fun _ => 0)) w.
Proof.
  intros Hls Hlen Hin. cbn [grep_main]. rewrite decide_True by done. eapply must_bind; [by apply (grep_fd_prints _ pattern 0 ls w)|].
  intros b w' H. apply must_exit_. by split.
Qed.

Lemma grep_prints_witness : let w := World [] (fun _ => [Data (unlines [chars "hello"; chars "hollow"; chars "ho"])]) [0; 1; 2] in
  must (fun st w' => st = 0 /\ exists new, after w new w' /\ collect (writes 1) new = unlines [chars "hello"; chars "ho"]) (fun _ _ => False)
    (grep_main [chars "grep"; chars "^h.*o$"] (fun _ => 0)) w.
Proof.
  intros w. eapply must_weaken; [apply (grep_prints (chars "grep") (chars "^h.*o$") [chars "hello"; chars "hollow"; chars "ho"] w)|].
  - repeat constructor; done.
  - reflexivity.
  - reflexivity.
  - intros st w' (-> & new & A & W). split; [done|]. exists new. split; [done|]. rewrite W. vm_compute. reflexivity.
Defined.

(** C22: The shell keeps its rules in every session, whatever the kernel answers
    and whatever is typed: it makes one child for each job, with a pipe of its
    own, tells the kernel about it and waits for it; it hands input to jobs only
    as the whole line that was typed, and only through the pipes made for them; a
    child runs only programs that the line names; and the shell ends only at the
    end of its input, after a failed [pipe] or [fork], or at a line that does not
    parse, so that its list of jobs never leads it to a bad address.  Opening the
    console ends, and so does each turn of the main loop. *)
Theorem shell_keeps_rules alloc input fds : (forall s xs, joblist_is s xs -> alloc s <> 0 /\ alloc s ∉ xs) ->
  safe sh_rules (fun _ _ => False) (sh_main alloc) (World [] input fds) /\
  ends sh_rules (fun _ w => goes_on (Shell 0 0 0 ∅ [], 0, true) w) open_console (World [] input fds) /\
  forall x w, goes_on x w -> ends sh_rules (fun r w' => match r with inl x' => goes_on x' w' | inr _ => False end) (sh_turn alloc x) w.
Proof.
  intros Ha. assert (Ho : ends sh_rules (fun _ w => goes_on (Shell 0 0 0 ∅ [], 0, true) w) open_console (World [] input fds)).
  { eapply ends_mono; [by apply open_console_ends|]. intros [] w [l Hl]. exists []. rewrite Hl. split; cbn [fst snd]; try done.
    - split; try done; [apply NoDup_nil_2|set_solver].
    - by left.
    - set_solver. }
  split; [|split; [done|by apply sh_turn_ends]]. unfold sh_main. eapply safe_bind; [by apply ends_safe|]. intros [] w Hw.
  apply (safe_iter _ _ goes_on); [|done]. intros x w' Hx. by apply ends_safe, sh_turn_ends.
Qed.

(** Addresses that are in no use. *)
Definition demo_alloc (s : shell) : Z := fresh ({[0]} ∪ dom (heap s) : gset Z).

Lemma shell_keeps_rules_witness : safe sh_rules (fun _ _ => False) (sh_main demo_alloc) (World [] (fun _ => [Data (chars "ls | wc")]) [0; 1; 2]).
Proof.
  refine (proj1 (shell_keeps_rules demo_alloc (fun _ => [Data (chars "ls | wc")]) [0; 1; 2] _)). intros s xs Hs.
  pose proof (is_fresh ({[0]} ∪ dom (heap s) : gset Z)) as H. fold (demo_alloc s) in H. split; [set_solver|]. intros Hx.
  destruct (linked_lookup _ _ _ _ _ (ji_links _ _ Hs) Hx) as [j Hj]. apply H, elem_of_union_r. by eapply elem_of_dom_2.
Defined.
