(* ===== verification/Ide.v ===== *)
(** * The IDE disk driver ([ide.c])

    The driver keeps a queue of buffers, threaded through their [qnext] fields;
    the first is the one the disk is working on.  [iderw] appends a buffer and
    sleeps until the interrupt handler has finished it.  The disk controller is
    hardware: the class [Controller] has its ports and states what the driver
    relies on.  The driver is shown to do what the memory disk of [memide.c]
    does, one request after the other in the order they were made. *)

From S2P Require Import Prelude Bytes Params FsState Bio.

Definition IDE_BSY : Z := 0x80.
Definition IDE_DRDY : Z := 0x40.
Definition IDE_DF : Z := 0x20.
Definition IDE_ERR : Z := 0x01.
Definition IDE_CMD_READ : Z := 0x20.
Definition IDE_CMD_WRITE : Z := 0x30.

Definition ready (r : Z) : bool := Z.land r (Z.lor IDE_BSY IDE_DRDY) =? IDE_DRDY.

(** The drive and the sector that the bytes in the address registers 0x1f3 to
    0x1f6 stand for. *)
Definition drive_of (b6 : Z) : Z := Z.land (Z.shiftr b6 4) 1.
Definition lba_of (b3 b4 b5 b6 : Z) : Z :=
  b3 + Z.shiftl b4 8 + Z.shiftl b5 16 + Z.shiftl (Z.land b6 0x0f) 24.

(** The controller: its ports, what is on the disks, and the sector it is
    reading, if any.  [delay] bounds the polls until it is ready again. *)
Class Controller := {
  ctl : Type;
  outb : Z -> Z -> ctl -> ctl;
  inb_status : ctl -> Z * ctl;          (* [inb(0x1f7)] *)
  outsl : list Z -> ctl -> ctl;         (* port 0x1f0 *)
  insl : ctl -> list Z * ctl;
  later : ctl -> ctl -> Prop;           (* some time passes *)

  media : ctl -> Z -> Z -> block;       (* by drive and sector *)
  reading : ctl -> option (Z * Z);
  delay : ctl -> nat;
  patience : nat;

  ctl_delay c : (delay c < patience)%nat;
  ctl_status c : media (inb_status c).2 = media c /\ reading (inb_status c).2 = reading c /\
    (ready (inb_status c).1 = true \/ (delay (inb_status c).2 < delay c)%nat);
  ctl_later c c' : later c c' -> media c' = media c /\ reading c' = reading c;
  ctl_irq c v : media (outb 0x3f6 v c) = media c;
  (* the registers are loaded with the address and a command is given *)
  ctl_select c b3 b4 b5 b6 cmd :
    let c' := outb 0x1f7 cmd (outb 0x1f6 b6 (outb 0x1f5 b5 (outb 0x1f4 b4 (outb 0x1f3 b3 (outb 0x1f2 1 c))))) in
    (cmd = IDE_CMD_READ -> media c' = media c /\ reading c' = Some (drive_of b6, lba_of b3 b4 b5 b6)) /\
    (cmd = IDE_CMD_WRITE -> forall data, length data = 512%nat -> forall d sec,
       media (outsl data c') d sec = if decide (d = drive_of b6 /\ sec = lba_of b3 b4 b5 b6) then data else media c d sec);
  ctl_data c d sec : reading c = Some (d, sec) -> (insl c).1 = media c d sec /\ media (insl c).2 = media c
}.

Section Driver.
Context `{C : Controller}.

(** The buffers, which are those of the buffer cache; the queue; the disk. *)
Record ide : Type := MkIde {
  d_k : kst;
  idequeue : option nat;
  qnext : gmap nat nat;
  havedisk1 : bool;
  d_ctl : ctl
}.

Definition on_k (f : kst -> kst) (s : ide) : ide := MkIde (f (d_k s)) (idequeue s) (qnext s) (havedisk1 s) (d_ctl s).
Definition set_queue (q : option nat) (s : ide) : ide := MkIde (d_k s) q (qnext s) (havedisk1 s) (d_ctl s).
Definition set_qnext (b : nat) (n : option nat) (s : ide) : ide :=
  MkIde (d_k s) (idequeue s) (partial_alter (fun _ => n) b (qnext s)) (havedisk1 s) (d_ctl s).
Definition set_ctl (c : ctl) (s : ide) : ide := MkIde (d_k s) (idequeue s) (qnext s) (havedisk1 s) c.

Definition port (a v : Z) : M ide unit := modify (fun s => set_ctl (outb a v (d_ctl s)) s).

(** Wait for IDE disk to become ready: the loop, and the result. *)
Fixpoint idewait_loop (fuel : nat) : M ide Z :=
  match fuel with
  | O => fun _ => Fuel
  | S fuel' =>
      let! c := gets d_ctl in
      let (r, c') := inb_status c in
      modify (set_ctl c') ;;;
      if ready r then ret r else idewait_loop fuel'
  end.

Definition idewait (checkerr : bool) : M ide Z :=
  let! r := idewait_loop patience in
  if checkerr && negb (Z.land r (Z.lor IDE_DF IDE_ERR) =? 0) then ret (-1) else ret 0.

(** Start the request for [b]. *)
Definition idestart (b : option nat) : M ide unit :=
  match b with
  | None => panic "idestart"
  | Some b =>
      idewait false ;;;
      let! x := gets (fun s => buf_at (d_k s) b) in
      port 0x3f6 0 ;;;
      port 0x1f2 1 ;;;
      port 0x1f3 (Z.land (b_sector x) 0xff) ;;;
      port 0x1f4 (Z.land (Z.shiftr (b_sector x) 8) 0xff) ;;;
      port 0x1f5 (Z.land (Z.shiftr (b_sector x) 16) 0xff) ;;;
      port 0x1f6 (Z.lor (Z.lor 0xe0 (Z.shiftl (Z.land (b_dev x) 1) 4)) (Z.land (Z.shiftr (b_sector x) 24) 0x0f)) ;;;
      if has (b_flags x) B_DIRTY then
        port 0x1f7 IDE_CMD_WRITE ;;;
        modify (fun s => set_ctl (outsl (b_data x) (d_ctl s)) s)
      else port 0x1f7 IDE_CMD_READ
  end.

Definition read_data (b : nat) : M ide unit :=
  let! c := gets d_ctl in
  let (d, c') := insl c in
  modify (on_k (on_buf b (with_data d))) ;;;
  modify (set_ctl c').

(** Interrupt handler. *)
Definition ideintr : M ide unit :=
  let! q := gets idequeue in
  match q with
  | None => ret tt
  | Some b =>
      modify (fun s => set_queue (qnext s !! b) s) ;;;
      let! f := gets (fun s => flags_of (d_k s) b) in
      (if negb (has f B_DIRTY) then
         let! r := idewait true in
         if 0 <=? r then read_data b else ret tt
       else ret tt) ;;;
      modify (on_k (on_buf b (fun x => with_flags (set_flag (b_flags x) B_VALID) x))) ;;;
      modify (on_k (on_buf b (fun x => with_flags (clr_flag (b_flags x) B_DIRTY) x))) ;;;
      modify (on_k (wake (ch_buf b))) ;;;
      let! q := gets idequeue in
      match q with
      | None => ret tt
      | Some b' => idestart (Some b')
      end
  end.

(** [for(pp = &idequeue; *pp; pp = &( *pp )->qnext) ; *pp = b;] *)
Fixpoint append_from (fuel p b : nat) : M ide unit :=
  match fuel with
  | O => fun _ => Fuel
  | S fuel' =>
      let! n := gets (fun s => qnext s !! p) in
      match n with
      | None => modify (set_qnext p (Some b))
      | Some p' => append_from fuel' p' b
      end
  end.

Definition append_queue (b : nat) : M ide unit :=
  let! q := gets idequeue in
  match q with
  | None => modify (set_queue (Some b))
  | Some p => append_from (S NBUF) p b
  end.

(** Sync buf with disk: up to the end or the first [sleep]. *)
Definition iderw (b : nat) : M ide unit :=
  let! x := gets (fun s => buf_at (d_k s) b) in
  let! disk1 := gets havedisk1 in
  if negb (has (b_flags x) B_BUSY) then panic "iderw: buf not busy"
  else if Z.land (b_flags x) (Z.lor B_VALID B_DIRTY) =? B_VALID then panic "iderw: nothing to do"
  else if negb (b_dev x =? 0) && negb disk1 then panic "iderw: ide disk 1 not present"
  else
    modify (set_qnext b None) ;;;
    append_queue b ;;;
    let! q := gets idequeue in
    (if decide (q = Some b) then idestart (Some b) else ret tt) ;;;
    let! f := gets (fun s => flags_of (d_k s) b) in
    if negb (Z.land f (Z.lor B_VALID B_DIRTY) =? B_VALID) then sleep (ch_buf b) else ret tt.

(** Is disk 1 present?  The loop of [ideinit]. *)
Fixpoint probe (n : nat) : M ide bool :=
  match n with
  | O => ret false
  | S n' =>
      let! c := gets d_ctl in
      let (r, c') := inb_status c in
      modify (set_ctl c') ;;;
      if negb (r =? 0) then ret true else probe n'
  end.

(** The controller's part of [ideinit]; its interrupt is enabled as in
    [Devices]. *)
Definition ideinit : M ide unit :=
  idewait false ;;;
  port 0x1f6 (Z.lor 0xe0 (Z.shiftl 1 4)) ;;;
  let! found := probe 1000 in
  modify (fun s => MkIde (d_k s) (idequeue s) (qnext s) (if found then true else havedisk1 s) (d_ctl s)) ;;;
  port 0x1f6 (Z.lor 0xe0 (Z.shiftl 0 4)).

(** ** The queue *)

Fixpoint linked_q (qn : gmap nat nat) (h : option nat) (q : list nat) : Prop :=
  match q with
  | [] => h = None
  | b :: q' => h = Some b /\ linked_q qn (qn !! b) q'
  end.

Lemma linked_q_frame qn qn' h q : (forall b, b ∈ q -> qn' !! b = qn !! b) -> linked_q qn h q -> linked_q qn' h q.
Proof.
  revert h. induction q as [|b q IH]; intros h He Hq; [done|]. destruct Hq as [-> Hq]. split; [done|].
  rewrite He by (by left). apply IH; [|done]. intros x Hx. apply He. by right.
Qed.

Definition same_but_queue (s s' : ide) : Prop := d_k s' = d_k s /\ havedisk1 s' = havedisk1 s /\ d_ctl s' = d_ctl s.

Lemma append_from_spec b : forall fuel p r s,
  linked_q (qnext s) (Some p) (p :: r) -> NoDup (p :: r) -> b ∉ p :: r -> qnext s !! b = None -> (length r < fuel)%nat ->
  wp (append_from fuel p b) (fun _ s' => linked_q (qnext s') (Some p) (p :: r ++ [b]) /\ idequeue s' = idequeue s /\
    same_but_queue s s' /\ forall x, x ∉ p :: r -> qnext s' !! x = qnext s !! x) s.
Proof.
  induction fuel as [|fuel IH]; intros p r s [_ Hq] Hnd Hb Hn Hf; [lia|]. cbn [append_from].
  apply wp_bind, wp_gets. apply NoDup_cons in Hnd as [Hp Hnd]. destruct r as [|p' r]; cbn in Hq.
  - rewrite Hq. apply wp_modify. cbn. rewrite lookup_partial_alter_eq. split_and!; try done.
    + rewrite lookup_partial_alter_ne by set_solver. done.
    + intros x Hx. rewrite lookup_partial_alter_ne by set_solver. done.
  - destruct Hq as [E Hq]. rewrite E. cbn in Hf. eapply wp_mono; [apply (IH p' r); [by split|done|set_solver|done|lia]|].
    intros _ s' (L & Eq & Es & Ex). split_and!; try done; [|intros x Hx; apply Ex; set_solver].
    cbn [app]. split; [done|]. rewrite Ex, E by done. exact L.
Qed.

Lemma nodup_bound (l : list nat) n : NoDup l -> (forall x, x ∈ l -> (x < n)%nat) -> (length l <= n)%nat.
Proof.
  intros Hnd Hl. replace n with (length (seq 0 n)) by apply length_seq. apply submseteq_length, NoDup_submseteq; [done|].
  intros x Hx. apply elem_of_seq. specialize (Hl x Hx). lia.
Qed.

Lemma append_queue_spec b q s :
  linked_q (qnext s) (idequeue s) q -> NoDup q -> b ∉ q -> qnext s !! b = None -> (forall x, x ∈ q -> (x < NBUF)%nat) ->
  wp (append_queue b) (fun _ s' => linked_q (qnext s') (idequeue s') (q ++ [b]) /\ same_but_queue s s' /\
    idequeue s' = match q with [] => Some b | p :: _ => Some p end) s.
Proof.
  intros Hq Hnd Hb Hn Hlt. unfold append_queue. apply wp_bind, wp_gets. destruct q as [|p r].
  - cbn in Hq. rewrite Hq. apply wp_modify. cbn. done.
  - destruct Hq as [Hp Hq]. rewrite Hp. eapply wp_mono; [apply (append_from_spec b (S NBUF) p r); try done|].
    + pose proof (nodup_bound _ _ Hnd Hlt) as Hl. cbn [length] in Hl. lia.
    + intros _ s' (L & Eq & Es & _). rewrite Eq, Hp. split_and!; try done; apply Es.
Qed.

(** ** Waiting and starting *)

(** Commands that only move the controller on, without effect on the disks. *)
Definition polled (s s' : ide) : Prop :=
  exists c, s' = set_ctl c s /\ media c = media (d_ctl s) /\ reading c = reading (d_ctl s).

Lemma idewait_loop_spec : forall fuel s, (delay (d_ctl s) < fuel)%nat ->
  wp (idewait_loop fuel) (fun r s' => polled s s' /\ ready r = true) s.
Proof.
  induction fuel as [|fuel IH]; intros s Hd; [lia|]. cbn [idewait_loop]. apply wp_bind, wp_gets.
  pose proof (ctl_status (d_ctl s)) as (S1 & S2 & S3). destruct (inb_status (d_ctl s)) as [r c]. cbn in S1, S2, S3.
  apply wp_bind, wp_modify. destruct (ready r) eqn:Er; [apply wp_ret; split; [by exists c|done]|].
  destruct S3 as [?|Hlt]; [done|]. eapply wp_mono; [apply IH; cbn; lia|].
  intros r' s' [(c' & -> & M1 & M2) Hr]. cbn in M1, M2. split; [|done]. exists c'. split_and!; [done|congruence..].
Qed.

Lemma idewait_spec s err : wp (idewait err) (fun r s' => polled s s' /\ (r = 0 \/ err = true /\ r = -1)) s.
Proof.
  unfold idewait. apply wp_bind. eapply wp_mono; [apply idewait_loop_spec, ctl_delay|].
  intros r s' [Hp _]. destruct err; cbn; [|apply wp_ret; auto]. case_match; apply wp_ret; auto.
Qed.

(** The address registers hold the sector. *)
Lemma lba_of_sector dev sec : 0 <= sec < 2 ^ 28 -> dev = 0 \/ dev = 1 ->
  let b6 := Z.lor (Z.lor 0xe0 (Z.shiftl (Z.land dev 1) 4)) (Z.land (Z.shiftr sec 24) 0x0f) in
  drive_of b6 = dev /\
  lba_of (Z.land sec 0xff) (Z.land (Z.shiftr sec 8) 0xff) (Z.land (Z.shiftr sec 16) 0xff) b6 = sec.
Proof.
  intros Hs Hd b6. unfold drive_of, lba_of, b6.
  assert (Hh : 0 <= sec / 2 ^ 24 < 16) by (split; [apply Z.div_pos; lia|apply Z.div_lt_upper_bound; lia]).
  rewrite !(Z.shiftr_div_pow2 sec), !Z.shiftl_mul_pow2 by lia.
  change 0xff with (Z.ones 8). rewrite !Z.land_ones by lia.
  assert (Hb : forall h, 0 <= h < 16 -> let b := Z.lor (Z.lor 0xe0 (Z.land dev 1 * 2 ^ 4)) (Z.land h 0x0f) in
    Z.land (Z.shiftr b 4) 1 = dev /\ Z.land b 0x0f = h).
  { intros h Hh'. assert (forallb (fun dev => forallb (fun h => let b := Z.lor (Z.lor 0xe0 (Z.land dev 1 * 2 ^ 4)) (Z.land h 0x0f) in
      (Z.land (Z.shiftr b 4) 1 =? dev) && (Z.land b 0x0f =? h)) (Z.of_nat <$> seq 0 16)) [0; 1] = true) as Hall by reflexivity.
    rewrite forallb_forall in Hall. specialize (Hall dev ltac:(cbn; destruct Hd as [-> | ->]; auto)). cbv beta in Hall. rewrite forallb_forall in Hall.
    specialize (Hall h). rewrite <-list_elem_of_In, list_elem_of_fmap in Hall.
    destruct (andb_prop _ _ (Hall ltac:(exists (Z.to_nat h); rewrite elem_of_seq; lia))) as [?%Z.eqb_eq ?%Z.eqb_eq]. by split. }
  destruct (Hb _ Hh) as [-> ->]. split; [done|]. clear. Z.div_mod_to_equations. lia.
Qed.

(** A request the buffer cache may make. *)
Record request_ok (a : kst) (b : nat) : Prop := {
  rq_buf : (b < NBUF)%nat /\ (NBUF < length (bcache a))%nat;
  rq_busy : has (flags_of a b) B_BUSY = true;
  rq_todo : Z.land (flags_of a b) (Z.lor B_VALID B_DIRTY) <> B_VALID;
  rq_dev : b_dev (buf_at a b) = 1;
  rq_sector : 0 <= b_sector (buf_at a b) < disksize a;
  rq_data : length (b_data (buf_at a b)) = 512%nat
}.

(** The disks, with the write of the request the controller works on. *)
Definition disk_with (a : kst) (head : option nat) (sec : Z) : block :=
  match head with
  | Some b => if has (flags_of a b) B_DIRTY && (b_sector (buf_at a b) =? sec) then b_data (buf_at a b)
              else default zero_block (memdisk a !! sec)
  | None => default zero_block (memdisk a !! sec)
  end.

(** The controller works on [head] and has done the requests before it, with the
    effect the state [a] of the memory disk shows. *)
Record at_work (a : kst) (head : option nat) (c : ctl) : Prop := {
  wk_media : forall sec, 0 <= sec < disksize a -> media c 1 sec = disk_with a head sec;
  wk_reading : forall b, head = Some b -> has (flags_of a b) B_DIRTY = false -> reading c = Some (1, b_sector (buf_at a b))
}.

Lemma idestart_spec a b s :
  request_ok a b -> disksize a <= 2 ^ 28 -> bcache (d_k s) = bcache a -> at_work a None (d_ctl s) ->
  wp (idestart (Some b)) (fun _ s' => exists c, s' = set_ctl c s /\ at_work a (Some b) c) s.
Proof.
  intros [_ _ _ Hdev Hsec Hdata] Hsize Hbufs [Hm _].
  assert (Hx : buf_at (d_k s) b = buf_at a b) by (unfold buf_at; by rewrite Hbufs).
  unfold idestart. apply wp_bind. eapply wp_mono; [apply idewait_spec|]. intros r s1 [(c1 & -> & M1 & _) _].
  apply wp_bind, wp_gets. cbn [d_k set_ctl]. rewrite Hx. set (x := buf_at a b) in *.
  destruct (lba_of_sector (b_dev x) (b_sector x) ltac:(lia) ltac:(by right)) as [L1 L2].
  set (b6 := Z.lor _ (Z.land (Z.shiftr (b_sector x) 24) 15)) in *. rewrite Hdev in L1.
  unfold port. repeat (apply wp_bind, wp_modify). cbn [d_ctl set_ctl].
  pose proof (ctl_select (outb 0x3f6 0 c1) (Z.land (b_sector x) 255) (Z.land (Z.shiftr (b_sector x) 8) 255)
    (Z.land (Z.shiftr (b_sector x) 16) 255) b6) as Hsel.
  unfold flags_of in *. destruct (has (b_flags x) B_DIRTY) eqn:Hd.
  - destruct (Hsel IDE_CMD_WRITE) as [_ Hw]. specialize (Hw eq_refl (b_data x) Hdata). rewrite L1, L2 in Hw.
    apply wp_bind, wp_modify. apply wp_modify. eexists. split; [reflexivity|]. split.
    + intros sec Hs. cbn [d_ctl set_ctl]. rewrite Hw, ctl_irq, M1. unfold disk_with, flags_of. fold x. rewrite Hd. cbn [andb].
      destruct (Z.eqb_spec (b_sector x) sec) as [<-|Hne]; [by rewrite decide_True|].
      rewrite decide_False by (intros [_ ?]; congruence). by apply Hm.
    + intros b' [= <-]. unfold flags_of. fold x. congruence.
  - destruct (Hsel IDE_CMD_READ) as [Hr _]. destruct (Hr eq_refl) as [R1 R2]. rewrite L1, L2 in R2.
    apply wp_modify. eexists. split; [reflexivity|]. split.
    + intros sec Hs. cbn [d_ctl set_ctl]. rewrite R1, ctl_irq, M1. unfold disk_with, flags_of. fold x. rewrite Hd. by apply Hm.
    + intros b' [= <-] _. exact R2.
Qed.

(** ** The driver and the memory disk *)

Record sim (a : kst) (q : list nat) (s : ide) : Prop := {
  sm_bufs : bcache (d_k s) = bcache a;
  sm_queue : linked_q (qnext s) (idequeue s) q /\ NoDup q;
  sm_ok : forall b, b ∈ q -> request_ok a b;
  sm_work : at_work a (head q) (d_ctl s);
  sm_disk : havedisk1 s = true /\ disksize a <= 2 ^ 28 /\ disksize (d_k s) = disksize a
}.

(** A new request is put at the end of the queue, and its process waits. *)
Lemma iderw_queues a q s b :
  sim a q s -> request_ok a b -> b ∉ q ->
  exists s', iderw b s = Sleep (ch_buf b) s' /\ sim a (q ++ [b]) s'.
Proof.
  intros [Hb [Hq Hnd] Hok Hwk (Hd & Hsize & Hds)] Hr Hnin. pose proof Hr as [R1 R2 R3 R4 R5 R6].
  assert (Hx : buf_at (d_k s) b = buf_at a b) by (unfold buf_at; by rewrite Hb).
  set (s0 := set_qnext b None s).
  assert (Hq0 : linked_q (qnext s0) (idequeue s0) q).
  { apply (linked_q_frame (qnext s)); [|done]. intros x Hx'. cbn. rewrite lookup_partial_alter_ne; [done|]. by intros <-. }
  destruct (wp_run _ _ _ (append_queue_spec b q s0 Hq0 Hnd Hnin ltac:(cbn; by rewrite lookup_partial_alter_eq)
    ltac:(intros x Hx'; by apply Hok))) as ([] & s1 & E1 & L1 & (K1 & K2 & K3) & H1). cbn in K1, K2, K3.
  assert (exists s2, (if decide (idequeue s1 = Some b) then idestart (Some b) else ret tt) s1 = Ok tt s2 /\
    sim a (q ++ [b]) s2 /\ d_k s2 = d_k s) as (s2 & E2 & Hsim & Hk).
  { assert (Hcom : forall s2, d_k s2 = d_k s1 -> qnext s2 = qnext s1 -> idequeue s2 = idequeue s1 -> havedisk1 s2 = havedisk1 s1 ->
      at_work a (head (q ++ [b])) (d_ctl s2) -> sim a (q ++ [b]) s2).
    { intros s2 F1 F2 F3 F4 F5. split; [congruence| | |done|by rewrite F4, F1, K1, K2].
      - rewrite F2, F3. split; [done|]. apply NoDup_app. split_and!; [done|set_solver|apply NoDup_singleton].
      - intros x [?| ->%list_elem_of_singleton]%elem_of_app; [by apply Hok|done]. }
    rewrite H1. destruct q as [|p r].
    - rewrite decide_True by done. cbn in Hwk.
      destruct (wp_run _ _ _ (idestart_spec a b s1 Hr Hsize ltac:(by rewrite K1) ltac:(by rewrite K3))) as ([] & s2 & E2 & c & -> & W).
      exists (set_ctl c s1). split; [done|]. split; [by apply Hcom|done].
    - rewrite decide_False by (intros [= ->]; set_solver). exists s1. split; [done|]. split; [|done].
      apply Hcom; try done. by rewrite K3. }
  exists s2. split; [|done]. unfold flags_of in *. unfold iderw, bind, gets, modify. fold s0.
  rewrite Hx, R2, (proj2 (Z.eqb_neq _ _) R3), R4, Hd. cbn [negb andb Z.eqb]. cbv beta iota.
  fold s0. rewrite E1, E2. unfold flags_of.
  rewrite Hk, Hx, (proj2 (Z.eqb_neq _ _) R3). done.
Qed.

Lemma clr_flag_none f m : has f m = false -> clr_flag f m = f.
Proof.
  unfold has, clr_flag. intros H%negb_false_iff%Z.eqb_eq. rewrite <-(Z.land_m1_r f) at 2.
  by rewrite <-(Z.lor_lnot_diag m), Z.land_lor_distr_r, H, Z.lor_0_l.
Qed.

Lemma on_buf_bcache i f k : bcache (on_buf i f k) = alter f i (bcache k).
Proof. done. Qed.

(** What the memory disk does with a request. *)
Lemma memide_does a b : request_ok a b ->
  exists a', Bio.iderw b a = Ok tt a' /\ disksize a' = disksize a /\
    bcache a' = alter (fun x => with_flags (clr_flag (set_flag (b_flags x) B_VALID) B_DIRTY)
      (if has (b_flags x) B_DIRTY then x else with_data (default zero_block (memdisk a !! b_sector x)) x)) b (bcache a) /\
    forall sec, default zero_block (memdisk a' !! sec) = disk_with a (Some b) sec.
Proof.
  intros [R1 R2 R3 R4 R5 R6]. destruct (lookup_lt_is_Some_2 (bcache a) b ltac:(lia)) as [x Hx].
  assert (Ex : buf_at a b = x) by (unfold buf_at; by rewrite Hx).
  assert (Hfl : forall f, set_flag (clr_flag f B_DIRTY) B_VALID = clr_flag (set_flag f B_VALID) B_DIRTY).
  { intros f. unfold set_flag, clr_flag. rewrite Z.land_lor_distr_l. done. }
  assert (W : wp (Bio.iderw b) (fun _ a' => disksize a' = disksize a /\
    bcache a' = alter (fun x => with_flags (clr_flag (set_flag (b_flags x) B_VALID) B_DIRTY)
      (if has (b_flags x) B_DIRTY then x else with_data (default zero_block (memdisk a !! b_sector x)) x)) b (bcache a) /\
    forall sec, default zero_block (memdisk a' !! sec) = disk_with a (Some b) sec) a).
  { unfold Bio.iderw. apply wp_bind, wp_gets. rewrite R2, (proj2 (Z.eqb_neq _ _) R3). cbn [negb].
    apply wp_bind, wp_gets. rewrite R4. cbn [negb Z.eqb Pos.eqb]. apply wp_bind, wp_gets. apply wp_bind, wp_gets.
    rewrite (proj2 (Z.leb_gt _ _)) by lia. unfold flags_of in *. rewrite Ex in *. apply wp_bind.
    destruct (has (b_flags x) B_DIRTY) eqn:Hd.
    - wp_steps. split; [done|]. split.
      + cbn. apply list_eq. intros j. destruct (decide (j = b)) as [->|]; [|by rewrite !list_lookup_alter_ne].
        rewrite !list_lookup_alter_eq, Hx. cbn. rewrite Hd, Hfl. by destruct x.
      + intros sec. unfold disk_with, flags_of. rewrite Ex, Hd. cbn. unfold buf_at. cbn. rewrite list_lookup_alter_eq, Hx. cbn.
        destruct (Z.eqb_spec (b_sector x) sec) as [->|]; [by rewrite lookup_insert_eq|by rewrite lookup_insert_ne].
    - wp_steps. split; [done|]. split; [|intros sec; unfold disk_with, flags_of; by rewrite Ex, Hd].
      cbn. apply list_eq. intros j. destruct (decide (j = b)) as [->|]; [|by rewrite !list_lookup_alter_ne].
      rewrite !list_lookup_alter_eq, Hx. cbn. rewrite Hd, <-Hfl, clr_flag_none by done. by destruct x. }
  destruct (wp_run _ _ _ W) as ([] & a' & E & H). by exists a'.
Qed.

(** The drive reports no error. *)
Definition healthy : Prop := forall c, Z.land (inb_status c).1 (Z.lor IDE_DF IDE_ERR) = 0.

Lemma idewait_healthy s err : healthy -> wp (idewait err) (fun r s' => polled s s' /\ r = 0) s.
Proof.
  intros Hh. unfold idewait. apply wp_bind.
  assert (H : forall fuel s, (delay (d_ctl s) < fuel)%nat ->
    wp (idewait_loop fuel) (fun r s' => polled s s' /\ Z.land r (Z.lor IDE_DF IDE_ERR) = 0) s).
  { clear s. induction fuel as [|fuel IH]; intros s Hd; [lia|]. cbn [idewait_loop]. apply wp_bind, wp_gets.
    pose proof (ctl_status (d_ctl s)) as (S1 & S2 & S3). pose proof (Hh (d_ctl s)) as Hs.
    destruct (inb_status (d_ctl s)) as [r c]. cbn in S1, S2, S3, Hs.
    apply wp_bind, wp_modify. destruct (ready r); [apply wp_ret; split; [by exists c|done]|].
    destruct S3 as [?|Hlt]; [done|]. eapply wp_mono; [apply IH; cbn; lia|].
    intros r' s' [(c' & -> & M1 & M2) Hr]. cbn in M1, M2. split; [|done]. exists c'. split_and!; [done|congruence..]. }
  eapply wp_mono; [apply H, ctl_delay|]. intros r s' [Hp ->]. rewrite andb_false_r. by apply wp_ret.
Qed.

Lemma buf_at_ne a a' b b' f : bcache a' = alter f b (bcache a) -> b' <> b -> buf_at a' b' = buf_at a b'.
Proof. intros E Hne. unfold buf_at. by rewrite E, list_lookup_alter_ne. Qed.

(** The head's request is done: the data of a read are in the buffer. *)
Lemma finish_head a b s :
  healthy -> bcache (d_k s) = bcache a -> request_ok a b -> at_work a (Some b) (d_ctl s) ->
  wp (let! f := gets (fun s => flags_of (d_k s) b) in
      if negb (has f B_DIRTY) then
        let! r := idewait true in
        if 0 <=? r then read_data b else ret tt
      else ret tt) (fun _ s' => exists c,
        s' = set_ctl c (on_k (on_buf b (fun x => if has (b_flags x) B_DIRTY then x
          else with_data (default zero_block (memdisk a !! b_sector x)) x)) s) /\ media c = media (d_ctl s)) s.
Proof.
  intros Hh Hb [R1 R2 R3 R4 R5 R6] [Hm Hrd].
  destruct (lookup_lt_is_Some_2 (bcache a) b ltac:(lia)) as [x Hx].
  assert (Ex : buf_at a b = x) by (unfold buf_at; by rewrite Hx).
  assert (Ex' : buf_at (d_k s) b = x) by (unfold buf_at; by rewrite Hb, Hx).
  assert (Hsame : forall f, f x = x -> on_buf b f (d_k s) = d_k s).
  { intros f Hf. unfold on_buf. destruct (d_k s) as [? ? ? ? bc ? ?]. cbn in *. f_equal. subst bc. apply list_eq. intros j.
    destruct (decide (j = b)) as [->|]; [by rewrite list_lookup_alter_eq, Hx; cbn; rewrite Hf|by rewrite list_lookup_alter_ne]. }
  apply wp_bind, wp_gets. unfold flags_of in *. rewrite Ex'. destruct (has (b_flags x) B_DIRTY) eqn:Hd; cbn [negb].
  - apply wp_ret. exists (d_ctl s). split; [|done]. unfold on_k. rewrite Hsame by (by rewrite Hd). by destruct s.
  - apply wp_bind. eapply wp_mono; [by apply idewait_healthy|]. intros r s1 [(c1 & -> & M1 & M2) ->]. cbn [Z.leb Z.compare].
    unfold read_data. apply wp_bind, wp_gets. cbn [d_ctl set_ctl].
    specialize (Hrd b eq_refl). rewrite Ex in *. specialize (Hrd Hd). rewrite <-M2 in Hrd.
    destruct (ctl_data _ _ _ Hrd) as [D1 D2]. destruct (insl c1) as [d c2]. cbn in D1, D2.
    wp_steps. exists c2. split; [|congruence]. unfold set_ctl, on_k. cbn. f_equal.
    apply on_buf_eq. rewrite Ex', Hd. f_equal. rewrite D1, M1, Hm by lia. unfold disk_with, flags_of. cbn [head]. by rewrite Ex, Hd.
Qed.

Lemma ideintr_serves a b q s :
  healthy -> sim a (b :: q) s ->
  wp ideintr (fun _ s' => exists a', Bio.iderw b a = Ok tt a' /\ sim a' q s' /\
    Z.land (flags_of (d_k s') b) (Z.lor B_VALID B_DIRTY) = B_VALID /\ last (wakeups (d_k s')) = Some (ch_buf b)) s.
Proof.
  intros Hh Hsim. pose proof Hsim as [Hb [Hq Hnd] Hok Hwk (Hdisk & Hsize & Hds)]. cbn in Hq. destruct Hq as [Hh1 Hq].
  destruct (memide_does a b (Hok b ltac:(by left))) as (a' & Ea & Es & Ebc & Emd).
  apply NoDup_cons in Hnd as [Hbq Hnd].
  destruct (lookup_lt_is_Some_2 (bcache a) b) as [x Hx]; [pose proof (rq_buf _ _ (Hok b ltac:(by left))); lia|].
  unfold ideintr. apply wp_bind, wp_gets. rewrite Hh1. apply wp_bind, wp_modify. set (s0 := set_queue _ s).
  assert (Hrest : forall b', b' ∈ q -> request_ok a' b').
  { intros b' Hb'. destruct (Hok b' ltac:(by right)) as [R1 R2 R3 R4 R5 R6]. assert (b' <> b) as Hne by (by intros ->).
    split; unfold flags_of in *; rewrite ?(buf_at_ne a a' b b' _ Ebc Hne), ?Es; try done. rewrite Ebc, length_alter. done. }
  apply wp_assoc. apply wp_bind. eapply wp_mono; [apply (finish_head a b s0); [done|done|apply Hok; by left|done]|].
  intros [] s1 (c & -> & Mc). wp_steps. set (s2 := on_k (wake (ch_buf b)) _).
  assert (Hbc : bcache (d_k s2) = bcache a').
  { rewrite Ebc. cbn. rewrite Hb. apply list_eq. intros j. destruct (decide (j = b)) as [->|]; [|by rewrite !list_lookup_alter_ne].
    rewrite !list_lookup_alter_eq, Hx. cbn. by case_match. }
  assert (Hidle : at_work a' None (d_ctl s2)).
  { split; [|done]. intros sec Hs. rewrite Es in Hs. cbn [disk_with]. rewrite Emd. cbn [d_ctl s2 on_k set_ctl].
    unfold s2. cbn. rewrite Mc. by apply (wk_media _ _ _ Hwk). }
  assert (Hfl : forall s', d_k s' = d_k s2 -> Z.land (flags_of (d_k s') b) (Z.lor B_VALID B_DIRTY) = B_VALID /\
    last (wakeups (d_k s')) = Some (ch_buf b)).
  { intros s' ->. split; [|cbn; by rewrite last_snoc]. unfold flags_of, buf_at. rewrite Hbc, Ebc, list_lookup_alter_eq, Hx.
    cbn. unfold set_flag, clr_flag. apply Z.bits_inj'. intros n Hn.
    rewrite !Z.land_spec, !Z.lor_spec, Z.lnot_spec by done. change B_VALID with (2 ^ 1). change B_DIRTY with (2 ^ 2).
    rewrite !Z.pow2_bits_eqb by lia. destruct (Z.eqb_spec 1 n), (Z.eqb_spec 2 n); try lia; cbn; by rewrite ?orb_true_r, ?orb_false_r, ?andb_false_r. }
  cbn [idequeue s2 on_k set_ctl s0 set_queue]. unfold s2 at 1. cbn [idequeue on_k set_ctl].
  change (idequeue s0) with (qnext s !! b). destruct q as [|b' q]; cbn in Hq.
  - rewrite Hq. apply wp_ret. exists a'. split; [done|]. split; [|by apply Hfl]. split; [done| |done|done|cbn; by rewrite Es].
    split; [|constructor]. cbn. by rewrite Hq.
  - destruct Hq as [Hq1 Hq]. rewrite Hq1. eapply wp_mono; [apply (idestart_spec a' b' s2); [apply Hrest; by left|lia|done|done]|].
    intros [] s3 (c3 & -> & W3). exists a'. split; [done|]. split; [|by apply Hfl]. split; [done| |done|done|cbn; by rewrite Es].
    split; [|done]. cbn. by rewrite Hq1.
Qed.

(** ** Runs of the driver *)

(** Requests [rs] have been made and [ds] of them are done.  A process makes no
    second request for a buffer it is still waiting for. *)
Inductive runs (s0 : ide) : list nat -> list nat -> ide -> Prop :=
  | runs_start : runs s0 [] [] s0
  | runs_request rs ds s b s' :
      runs s0 rs ds s -> request_ok (d_k s) b -> b ∉ drop (length ds) rs ->
      iderw b s = Sleep (ch_buf b) s' -> runs s0 (rs ++ [b]) ds s'
  | runs_interrupt rs ds s b c s' :
      runs s0 rs ds s -> idequeue s = Some b -> later (d_ctl s) c ->
      ideintr (set_ctl c s) = Ok tt s' -> runs s0 rs (ds ++ [b]) s'
  | runs_spurious rs ds s c s' :
      runs s0 rs ds s -> idequeue s = None -> later (d_ctl s) c ->
      ideintr (set_ctl c s) = Ok tt s' -> runs s0 rs ds s'.

Lemma sim_later a q s c : sim a q s -> later (d_ctl s) c -> sim a q (set_ctl c s).
Proof.
  intros [Hb Hq Hok [W1 W2] Hd] Hl. destruct (ctl_later _ _ Hl) as [M1 M2].
  split; [exact Hb|exact Hq|exact Hok| |exact Hd]. split; cbn; [by rewrite M1|by rewrite M2].
Qed.

Lemma request_ok_sim a q s b : sim a q s -> request_ok (d_k s) b -> request_ok a b.
Proof.
  intros [Hb _ _ _ (_ & _ & Hd)] [R1 R2 R3 R4 R5 R6]. unfold flags_of, buf_at in *. rewrite Hb, Hd in *. by split.
Qed.

Lemma for_snoc {A} (l : list A) x (f : A -> M kst unit) s s' s'' :
  for_ l f s = Ok tt s' -> f x s' = Ok tt s'' -> for_ (l ++ [x]) f s = Ok tt s''.
Proof.
  revert s. induction l as [|y l IH]; intros s H1 H2.
  - cbn in *. unfold ret in H1. injection H1 as ->. unfold bind. by rewrite H2.
  - cbn [for_ app] in *. unfold bind in *. destruct (f y s) as [? s1| | |]; try done. by apply IH.
Qed.

Lemma runs_fifo a0 s0 rs ds s :
  healthy -> sim a0 [] s0 -> runs s0 rs ds s ->
  exists q a, rs = ds ++ q /\ for_ ds Bio.iderw a0 = Ok tt a /\ sim a q s.
Proof.
  intros Hh Hs0. induction 1 as [|rs ds s b s' _ IH Hr Hn E|rs ds s b c s' _ IH Hq Hl E|rs ds s c s' _ IH Hq Hl E].
  - by exists [], a0.
  - destruct IH as (q & a & -> & Ha & Hs). rewrite drop_app_length in Hn.
    destruct (iderw_queues a q s b Hs (request_ok_sim _ _ _ _ Hs Hr) Hn) as (s1 & E1 & Hs1).
    assert (s1 = s') as -> by congruence.
    exists (q ++ [b]), a. by rewrite app_assoc.
  - destruct IH as (q & a & -> & Ha & Hs). destruct q as [|b' q]; [destruct (sm_queue _ _ _ Hs) as [L _]; cbn in L; congruence|].
    assert (b' = b) as -> by (destruct (sm_queue _ _ _ Hs) as [[L _] _]; congruence).
    destruct (wp_run _ _ _ (ideintr_serves a b q _ Hh (sim_later _ _ _ _ Hs Hl))) as ([] & s1 & E1 & a' & Ea & Hs1 & _).
    assert (s1 = s') as -> by congruence. exists q, a'. split; [by rewrite <-app_assoc|]. split; [by eapply for_snoc|done].
  - destruct IH as (q & a & -> & Ha & Hs). destruct q as [|b' q]; [|destruct (sm_queue _ _ _ Hs) as [[L _] _]; congruence].
    assert (s' = set_ctl c s) as ->; [|exists [], a; split_and!; [done|done|by apply sim_later]].
    unfold ideintr, bind, gets in E. cbn in E. rewrite Hq in E. by injection E as <-.
Qed.
End Driver.
