(* ===== verification/Boot.v ===== *)
(** * The boot loader ([bootmain.c])

    The boot sector reads the kernel's ELF file, which starts at sector 1 of the
    first disk, into physical memory.  The disk is the controller of [Ide]. *)

From S2P Require Import Prelude Bytes Params Ide Exec.

Definition SECTSIZE : Z := 512.

(** [elf = (struct elfhdr* )0x10000;  // scratch space] *)
Definition scratch : Z := 0x10000.

Definition ph_paddr (h : list Z) : Z := ld32 h 12.

(** Physical memory, byte by byte. *)
Abbreviation memory := (Z -> Z).

Definition store_at (dst : Z) (l : list Z) (m : memory) : memory :=
  fun a => if (dst <=? a) && (a <? dst + Z.of_nat (length l)) then nth (Z.to_nat (a - dst)) l 0 else m a.
Definition bytes_at (m : memory) (a : Z) (n : nat) : list Z := m <$> seqZ a (Z.of_nat n).

Section Loader.
Context `{C : Controller}.

Record boot : Type := MkBoot { bt_mem : memory; bt_ctl : ctl }.

Definition set_mem (f : memory -> memory) (s : boot) : boot := MkBoot (f (bt_mem s)) (bt_ctl s).
Definition set_disk (f : ctl -> ctl) (s : boot) : boot := MkBoot (bt_mem s) (f (bt_ctl s)).

(** Wait for disk ready. *)
Fixpoint waitdisk_loop (fuel : nat) : M boot unit :=
  match fuel with
  | O => fun _ => Fuel
  | S fuel' =>
      let! c := gets bt_ctl in
      let (r, c') := inb_status c in
      modify (set_disk (fun _ => c')) ;;;
      if negb (Z.land r 0xC0 =? 0x40) then waitdisk_loop fuel' else ret tt
  end.

Definition waitdisk : M boot unit := waitdisk_loop patience.

Definition bport (a v : Z) : M boot unit := modify (set_disk (outb a (u8 v))).

(** Read a single sector at offset into [dst]. *)
Definition readsect (dst offset : Z) : M boot unit :=
  waitdisk ;;;
  bport 0x1f2 1 ;;;
  bport 0x1f3 offset ;;;
  bport 0x1f4 (Z.shiftr offset 8) ;;;
  bport 0x1f5 (Z.shiftr offset 16) ;;;
  bport 0x1f6 (Z.lor (Z.shiftr offset 24) 0xE0) ;;;
  bport 0x1f7 0x20 ;;;
  waitdisk ;;;
  let! c := gets bt_ctl in
  let (d, c') := insl c in
  modify (set_mem (store_at dst d)) ;;;
  modify (set_disk (fun _ => c')).

Fixpoint readseg_loop (fuel : nat) (pa epa offset : Z) : M boot unit :=
  match fuel with
  | O => fun _ => Fuel
  | S fuel' =>
      if pa <? epa then
        readsect pa offset ;;;
        readseg_loop fuel' (u32 (pa + SECTSIZE)) epa (u32 (offset + 1))
      else ret tt
  end.

(** Read [count] bytes at [offset] from kernel into physical address [pa]. *)
Definition readseg (pa count offset : Z) : M boot unit :=
  let epa := u32 (pa + count) in
  let pa := u32 (pa - offset mod SECTSIZE) in
  let offset := u32 (offset / SECTSIZE + 1) in
  readseg_loop (Z.to_nat (count / SECTSIZE + 3)) pa epa offset.

(** Load the program segment whose header is at [ph]. *)
Definition load_segment (ph : Z) : M boot unit :=
  let! h := gets (fun s => bytes_at (bt_mem s) ph 32) in
  let pa := ph_paddr h in
  readseg pa (ph_filesz h) (ph_off h) ;;;
  let! h := gets (fun s => bytes_at (bt_mem s) ph 32) in
  if ph_filesz h <? ph_memsz h then
    modify (set_mem (store_at (u32 (pa + ph_filesz h)) (replicate (Z.to_nat (ph_memsz h - ph_filesz h)) 0)))
  else ret tt.

(** Load each program segment.  There are [phnum] turns unless the table passes
    the end of memory, where the test fails at once. *)
Fixpoint load_segments (n : nat) (ph eph : Z) : M boot unit :=
  match n with
  | O => ret tt
  | S n' =>
      if ph <? eph then load_segment ph ;;; load_segments n' (u32 (ph + PROGHDR_SIZE)) eph
      else ret tt
  end.

(** The address of the kernel that is called, [None] when the loader returns. *)
Definition bootmain : M boot (option Z) :=
  readseg scratch 4096 0 ;;;
  let! elf := gets (fun s => bytes_at (bt_mem s) scratch 52) in
  if negb (elf_magic elf =? ELF_MAGIC) then ret None
  else
    let ph := u32 (scratch + elf_phoff elf) in
    load_segments (Z.to_nat (elf_phnum elf)) ph (u32 (ph + elf_phnum elf * PROGHDR_SIZE)) ;;;
    let! elf := gets (fun s => bytes_at (bt_mem s) scratch 52) in
    ret (Some (elf_entry elf)).

(** ** Reading *)

(** The byte of the kernel's file at [o], and its bytes. *)
Definition kernel_byte (c : ctl) (o : Z) : Z := nth (Z.to_nat (o mod SECTSIZE)) (media c 0 (o / SECTSIZE + 1)) 0.
Definition kernel_bytes (c : ctl) (o : Z) (n : nat) : list Z := kernel_byte c <$> seqZ o (Z.of_nat n).

Definition sectors (c : ctl) : Prop := forall sec, length (media c 0 sec) = 512%nat.

Lemma store_at_out dst l m a : a < dst \/ dst + Z.of_nat (length l) <= a -> store_at dst l m a = m a.
Proof. intros H. unfold store_at. destruct (Z.leb_spec dst a), (Z.ltb_spec a (dst + Z.of_nat (length l))); try done. lia. Qed.

Lemma store_at_in dst l m a : dst <= a < dst + Z.of_nat (length l) -> store_at dst l m a = nth (Z.to_nat (a - dst)) l 0.
Proof. intros H. unfold store_at. destruct (Z.leb_spec dst a), (Z.ltb_spec a (dst + Z.of_nat (length l))); try done; lia. Qed.

Lemma nth_replicate_zero n i : nth i (replicate n 0) 0 = 0.
Proof. revert i. induction n as [|n IH]; intros [|i]; cbn; auto. Qed.

Lemma waitdisk_spec s : wp waitdisk (fun _ s' => exists c, s' = set_disk (fun _ => c) s /\
  media c = media (bt_ctl s) /\ reading c = reading (bt_ctl s)) s.
Proof.
  unfold waitdisk. pose proof (ctl_delay (bt_ctl s)) as Hd. revert Hd. generalize patience. intros fuel.
  revert s. induction fuel as [|fuel IH]; intros s Hd; [lia|]. cbn [waitdisk_loop]. apply wp_bind, wp_gets.
  pose proof (ctl_status (bt_ctl s)) as (S1 & S2 & S3). unfold ready in S3. change (Z.lor IDE_BSY IDE_DRDY) with 0xC0 in S3.
  change IDE_DRDY with 0x40 in S3. destruct (inb_status (bt_ctl s)) as [r c]. cbn [fst snd] in S1, S2, S3.
  apply wp_bind, wp_modify. destruct (_ =? 64); cbn [negb]; [apply wp_ret; by exists c|].
  destruct S3 as [?|Hlt]; [done|]. eapply wp_mono; [apply IH; cbn; lia|].
  intros _ s' (c' & -> & M1 & M2). exists c'. cbn in *. split_and!; [done|congruence..].
Qed.

Lemma readsect_spec dst sec s : 0 <= sec < 2 ^ 28 ->
  wp (readsect dst sec) (fun _ s' => media (bt_ctl s') = media (bt_ctl s) /\
    bt_mem s' = store_at dst (media (bt_ctl s) 0 sec) (bt_mem s)) s.
Proof.
  intros Hs. unfold readsect. apply wp_bind. eapply wp_mono; [apply waitdisk_spec|]. intros _ s1 (c1 & -> & M1 & _).
  unfold bport. repeat (apply wp_bind, wp_modify). apply wp_bind.
  eapply wp_mono; [apply waitdisk_spec|]. intros _ s2 (c2 & -> & M2 & R2).
  cbn [set_disk bt_ctl bt_mem] in *.
  pose proof (lba_of_sector 0 sec Hs ltac:(auto)) as HL. cbv zeta in HL. destruct HL as [L1 L2].
  pose proof (ctl_select c1 (u8 sec) (u8 (sec ≫ 8)) (u8 (sec ≫ 16)) (u8 (Z.lor (sec ≫ 24) 224)) 32) as [Hsel _].
  destruct (Hsel eq_refl) as [S1 S2]. change (u8 32) with 32 in *. change (u8 1) with 1 in *.
  assert (E6 : u8 (Z.lor (sec ≫ 24) 224) = Z.lor (Z.lor 0xe0 (Z.shiftl (Z.land 0 1) 4)) (Z.land (sec ≫ 24) 0x0f)).
  { assert (0 <= sec ≫ 24 < 16) as Hh.
    { rewrite Z.shiftr_div_pow2 by lia. split; [apply Z.div_pos; lia|apply Z.div_lt_upper_bound; lia]. }
    revert Hh. generalize (sec ≫ 24). intros h Hh.
    assert (forallb (fun h => u8 (Z.lor h 224) =? Z.lor (Z.lor 0xe0 (Z.shiftl (Z.land 0 1) 4)) (Z.land h 0x0f)) (seqZ 0 16) = true)
      as Hall by reflexivity.
    rewrite forallb_forall in Hall. apply Z.eqb_eq, Hall, list_elem_of_In, elem_of_seqZ. lia. }
  assert (Eb : forall x, u8 x = Z.land x 0xff) by (intros x; change 0xff with (Z.ones 8); by rewrite Z.land_ones).
  rewrite !(Eb sec), !(Eb (sec ≫ 8)), !(Eb (sec ≫ 16)), E6 in *. rewrite L1, L2 in S2. rewrite <-R2 in S2.
  destruct (ctl_data _ _ _ S2) as [D1 D2]. apply wp_bind, wp_gets. cbn [bt_ctl set_disk].
  destruct (insl c2) as [d c3]. cbn in D1, D2. apply wp_bind, wp_modify, wp_modify. cbn. split; [congruence|]. rewrite D1. congruence.
Qed.

Lemma kernel_byte_sector c sec i : 0 <= i < SECTSIZE ->
  kernel_byte c (SECTSIZE * (sec - 1) + i) = nth (Z.to_nat i) (media c 0 sec) 0.
Proof.
  intros Hi. unfold kernel_byte. change SECTSIZE with 512 in *.
  replace ((512 * (sec - 1) + i) mod 512) with i by (rewrite Z.mul_comm, Z.add_comm, Z.mod_add, Z.mod_small; lia).
  replace ((512 * (sec - 1) + i) / 512) with (sec - 1) by (rewrite Z.mul_comm, Z.add_comm, Z.div_add, Z.div_small; lia).
  by replace (sec - 1 + 1) with sec by lia.
Qed.

Lemma readseg_loop_spec epa : forall fuel pa sec s,
  sectors (bt_ctl s) -> 0 <= pa -> epa + SECTSIZE <= 2 ^ 32 -> epa <= pa + SECTSIZE * (Z.of_nat fuel - 1) -> (0 < fuel)%nat ->
  0 < sec -> sec + Z.of_nat fuel < 2 ^ 28 ->
  wp (readseg_loop fuel pa epa sec) (fun _ s' => media (bt_ctl s') = media (bt_ctl s) /\
    (forall a, pa <= a < epa -> bt_mem s' a = kernel_byte (bt_ctl s) (SECTSIZE * (sec - 1) + (a - pa))) /\
    (forall a, a < pa -> bt_mem s' a = bt_mem s a)) s.
Proof.
  induction fuel as [|fuel IH]; intros pa sec s Hsec Hpa Hepa Hf Hf0 Hs0 Hs; [lia|]. cbn [readseg_loop].
  destruct (Z.ltb_spec pa epa) as [Hlt|]; [|apply wp_ret; split_and!; [done|lia|done]].
  assert (Hf1 : (0 < fuel)%nat) by (change SECTSIZE with 512 in *; lia).
  apply wp_bind. eapply wp_mono; [apply readsect_spec; lia|]. intros _ s1 [M1 E1].
  rewrite (u32_small (pa + SECTSIZE)), (u32_small (sec + 1)) by (change SECTSIZE with 512 in *; lia).
  eapply wp_mono; [apply IH; change SECTSIZE with 512 in *; try lia|].
  { unfold sectors. by rewrite M1. }
  intros _ s' (M2 & A2 & B2). split; [congruence|]. split.
  - intros a Ha. destruct (Z.lt_ge_cases a (pa + SECTSIZE)) as [Hin|Hout].
    + rewrite B2, E1, store_at_in by (rewrite ?Hsec; change SECTSIZE with 512 in *; lia).
      rewrite kernel_byte_sector by lia. done.
    + rewrite A2 by lia. unfold kernel_byte. rewrite M1.
      by replace (SECTSIZE * (sec + 1 - 1) + (a - (pa + SECTSIZE))) with (SECTSIZE * (sec - 1) + (a - pa)) by lia.
  - intros a Ha. rewrite B2, E1, store_at_out; [done|lia|change SECTSIZE with 512; lia].
Qed.
Lemma readseg_spec pa count off s :
  sectors (bt_ctl s) -> 0 <= count -> 0 <= off < 2 ^ 32 -> off mod SECTSIZE <= pa -> pa + count + SECTSIZE <= 2 ^ 32 ->
  wp (readseg pa count off) (fun _ s' => media (bt_ctl s') = media (bt_ctl s) /\
    (forall i, 0 <= i < count -> bt_mem s' (pa + i) = kernel_byte (bt_ctl s) (off + i)) /\
    (forall a, a < pa - off mod SECTSIZE -> bt_mem s' a = bt_mem s a)) s.
Proof.
  intros Hsec Hc Ho Hpa Hend. unfold readseg.
  pose proof (Z.div_mod off SECTSIZE ltac:(done)) as Hdm. pose proof (Z.mod_pos_bound off SECTSIZE eq_refl) as Hm.
  pose proof (Z.div_mod count SECTSIZE ltac:(done)) as Hcd. pose proof (Z.mod_pos_bound count SECTSIZE eq_refl) as Hcm.
  assert (0 <= count / SECTSIZE) by (apply Z.div_pos; [lia|done]).
  change SECTSIZE with 512 in *. rewrite !u32_small by lia.
  eapply wp_mono; [apply readseg_loop_spec; change SECTSIZE with 512; try lia; done|].
  intros _ s' (M1 & A & B). split; [done|]. split; [|done]. intros i Hi. rewrite A by lia.
  change SECTSIZE with 512. f_equal. lia.
Qed.

(** ** Loading *)

(** The tables of the kernel's file. *)
Definition kernel_elf (c : ctl) : list Z := kernel_bytes c 0 52.
Definition kernel_ph (c : ctl) (k : nat) : list Z := kernel_bytes c (elf_phoff (kernel_elf c) + 32 * Z.of_nat k) 32.
Definition kernel_phnum (c : ctl) : nat := Z.to_nat (elf_phnum (kernel_elf c)).

(** The first byte a segment's sectors can touch, and the end of its memory. *)
Definition seg_low (h : list Z) : Z := ph_paddr h - ph_off h mod SECTSIZE.
Definition seg_end (h : list Z) : Z := ph_paddr h + Z.max (ph_filesz h) (ph_memsz h).

(** A kernel the loader can load: the header and the table are in the first
    page, the segments are above the scratch space, in increasing order, and end
    below the end of memory. *)
Record kernel_file (c : ctl) : Prop := {
  kf_sectors : sectors c;
  kf_bytes : forall o, 0 <= kernel_byte c o < 256;
  kf_magic : elf_magic (kernel_elf c) = ELF_MAGIC;
  kf_table : elf_phoff (kernel_elf c) + 32 * Z.of_nat (kernel_phnum c) <= 4096;
  kf_low : forall k, (k < kernel_phnum c)%nat -> scratch + 4096 <= seg_low (kernel_ph c k);
  kf_high : forall k, (k < kernel_phnum c)%nat -> seg_end (kernel_ph c k) + SECTSIZE <= 2 ^ 32;
  kf_order : forall j k, (j < k < kernel_phnum c)%nat -> seg_end (kernel_ph c j) <= seg_low (kernel_ph c k)
}.

(** A segment is in memory: the bytes of the file, then zeros. *)
Definition seg_loaded (c : ctl) (m : memory) (h : list Z) : Prop :=
  (forall i, 0 <= i < ph_filesz h -> m (ph_paddr h + i) = kernel_byte c (ph_off h + i)) /\
  (forall i, ph_filesz h <= i < ph_memsz h -> m (ph_paddr h + i) = 0).

Lemma bytes_at_kernel (c : ctl) m a o n :
  (forall i, 0 <= i < Z.of_nat n -> m (a + i) = kernel_byte c (o + i)) -> bytes_at m a n = kernel_bytes c o n.
Proof.
  intros H. unfold bytes_at, kernel_bytes. apply list_eq. intros i. rewrite !list_lookup_fmap.
  destruct (decide (i < n)%nat) as [Hi|Hi].
  - rewrite !lookup_seqZ_lt by lia. cbn. f_equal. apply H. lia.
  - by rewrite !lookup_seqZ_ge by lia.
Qed.

Lemma ld_kernel (c : ctl) o n i j : kernel_file c -> (i + j <= n)%nat -> 0 <= ld j (kernel_bytes c o n) i < 2 ^ (8 * Z.of_nat j).
Proof.
  intros H Hij. apply ld_range; [|unfold kernel_bytes; rewrite length_fmap, length_seqZ; lia].
  apply Forall_forall. intros b (x & -> & _)%list_elem_of_fmap. apply H.
Qed.

(** The scratch space has the first page of the file. *)
Definition paged (c : ctl) (m : memory) : Prop := forall i, 0 <= i < 4096 -> m (scratch + i) = kernel_byte c i.

Lemma load_segment_spec c k s :
  kernel_file c -> (k < kernel_phnum c)%nat -> media (bt_ctl s) = media c -> paged c (bt_mem s) ->
  let h := kernel_ph c k in
  wp (load_segment (scratch + elf_phoff (kernel_elf c) + 32 * Z.of_nat k)) (fun _ s' =>
    media (bt_ctl s') = media c /\ seg_loaded c (bt_mem s') h /\ forall a, a < seg_low h -> bt_mem s' a = bt_mem s a) s.
Proof.
  intros Hc Hk Hm Hp h. unfold load_segment.
  assert (Hph0 : 0 <= elf_phoff (kernel_elf c)) by (apply (ld_kernel c 0 52 28 4); [done|lia]).
  pose proof (kf_table _ Hc) as Htab.
  assert (Hh : forall s, paged c (bt_mem s) ->
    bytes_at (bt_mem s) (scratch + elf_phoff (kernel_elf c) + 32 * Z.of_nat k) 32 = h).
  { intros s' Hp'. apply bytes_at_kernel. intros i Hi. rewrite <-(Z.add_assoc scratch), <-(Z.add_assoc scratch).
    apply Hp'. lia. }
  apply wp_bind, wp_gets. rewrite (Hh s Hp). cbv zeta.
  pose proof (kf_low _ Hc k Hk) as Kl. pose proof (kf_high _ Hc k Hk) as Kh. fold h in Kl, Kh.
  assert (H4 : forall i, (i + 4 <= 32)%nat -> 0 <= ld32 h i < 2 ^ 32) by (intros i Hi; by apply (ld_kernel c _ 32 i 4)).
  assert (0 <= ph_off h < 2 ^ 32 /\ 0 <= ph_paddr h < 2 ^ 32 /\ 0 <= ph_filesz h < 2 ^ 32 /\ 0 <= ph_memsz h < 2 ^ 32)
    as (Ho & Hpa & Hfs & Hms) by (split_and!; apply H4; lia).
  unfold seg_low, seg_end in *. pose proof (eq_refl : SECTSIZE = 512) as Hsz. pose proof (eq_refl : scratch = 65536) as Hsc.
  pose proof (Z.mod_pos_bound (ph_off h) SECTSIZE eq_refl) as Hmod.
  apply wp_bind. eapply wp_mono; [apply readseg_spec; [|lia..]|].
  { unfold sectors. rewrite Hm. apply Hc. }
  intros _ s1 (M1 & A1 & B1).
  assert (Hp1 : paged c (bt_mem s1)) by (intros i Hi; rewrite B1 by lia; by apply Hp).
  apply wp_bind, wp_gets. rewrite (Hh s1 Hp1).
  assert (Hread : forall i, 0 <= i < ph_filesz h -> bt_mem s1 (ph_paddr h + i) = kernel_byte c (ph_off h + i)).
  { intros i Hi. rewrite A1 by done. unfold kernel_byte. by rewrite Hm. }
  destruct (Z.ltb_spec (ph_filesz h) (ph_memsz h)).
  - apply wp_modify. cbn. rewrite u32_small by lia. split; [congruence|]. split; [split|].
    + intros i Hi. rewrite store_at_out by lia. by apply Hread.
    + intros i Hi. rewrite store_at_in by (rewrite length_replicate; lia). apply nth_replicate_zero.
    + intros a Ha. rewrite store_at_out by lia. by apply B1.
  - apply wp_ret. split; [congruence|]. split; [split; [done|lia]|done].
Qed.

Lemma load_segments_spec c (m0 : memory) : kernel_file c -> forall n k s,
  (k + n = kernel_phnum c)%nat -> media (bt_ctl s) = media c -> paged c (bt_mem s) ->
  (forall a, a < scratch -> bt_mem s a = m0 a) -> (forall j, (j < k)%nat -> seg_loaded c (bt_mem s) (kernel_ph c j)) ->
  let table := scratch + elf_phoff (kernel_elf c) in
  wp (load_segments n (table + 32 * Z.of_nat k) (table + 32 * Z.of_nat (kernel_phnum c))) (fun _ s' =>
    media (bt_ctl s') = media c /\ paged c (bt_mem s') /\ (forall a, a < scratch -> bt_mem s' a = m0 a) /\
    forall j, (j < kernel_phnum c)%nat -> seg_loaded c (bt_mem s') (kernel_ph c j)) s.
Proof.
  intros Hc. induction n as [|n IH]; intros k s Hk Hm Hp Hlow Hl table; cbn [load_segments].
  { apply wp_ret. split_and!; try done. intros j Hj. apply Hl. lia. }
  assert (Hkn : (k < kernel_phnum c)%nat) by lia. rewrite (proj2 (Z.ltb_lt _ _)) by lia.
  assert (Hph0 : 0 <= elf_phoff (kernel_elf c)) by (apply (ld_kernel c 0 52 28 4); [done|lia]).
  pose proof (kf_table _ Hc) as Htab. pose proof (kf_low _ Hc k Hkn) as Kl. pose proof (eq_refl : scratch = 65536) as Hsc.
  apply wp_bind. eapply wp_mono; [by apply load_segment_spec|]. intros _ s1 (M1 & L1 & B1).
  change PROGHDR_SIZE with 32. rewrite u32_small by (unfold table; lia).
  replace (table + 32 * Z.of_nat k + 32) with (table + 32 * Z.of_nat (S k)) by lia.
  apply IH; [lia|done| | |].
  - intros i Hi. rewrite B1 by lia. by apply Hp.
  - intros a Ha. rewrite B1 by lia. by apply Hlow.
  - intros j Hj. destruct (decide (j = k)) as [->|]; [done|].
    pose proof (kf_order _ Hc j k ltac:(lia)) as Kj. unfold seg_end in Kj.
    destruct (Hl j ltac:(lia)) as [L3 L4]. split; intros i Hi; rewrite B1 by lia; [by apply L3|by apply L4].
Qed.

Lemma readseg_header s : sectors (bt_ctl s) -> wp (readseg scratch 4096 0) (fun _ s' =>
  media (bt_ctl s') = media (bt_ctl s) /\ paged (bt_ctl s) (bt_mem s') /\ forall a, a < scratch -> bt_mem s' a = bt_mem s a) s.
Proof.
  intros Hs. eapply wp_mono; [apply readseg_spec; [done|lia|lia|done|done]|].
  intros _ s' (M1 & A & B). split; [done|]. split; [intros i Hi; by rewrite A|].
  intros a Ha. apply B. change (0 mod SECTSIZE) with 0. lia.
Qed.
End Loader.
