(* ===== verification/Mp.v ===== *)
(** * The discovery of processors ([mp.c], [mp.h])

    The BIOS leaves a floating pointer structure somewhere in low memory, which
    leads to a table with an entry for every processor, bus and interrupt
    source.  Memory is indexed by physical address, as [p2v] maps it. *)

From S2P Require Import Prelude Bytes Params Ide Boot.

(** ** [mp.h] *)

Definition MP_SIZE : Z := 16.
Definition MPCONF_SIZE : Z := 44.
Definition MPPROC_SIZE : Z := 20.
Definition MPIOAPIC_SIZE : Z := 8.

Definition mp_physaddr (h : list Z) : Z := ld32 h 4.
Definition mp_imcrp (h : list Z) : Z := ld 1 h 12.

Definition mpconf_length (h : list Z) : Z := ld16 h 4.
Definition mpconf_version (h : list Z) : Z := ld 1 h 6.
Definition mpconf_lapicaddr (h : list Z) : Z := ld32 h 36.

Definition mpproc_apicid (h : list Z) : Z := ld 1 h 1.
Definition mpproc_flags (h : list Z) : Z := ld 1 h 3.
Definition mpioapic_apicno (h : list Z) : Z := ld 1 h 1.

Definition MPBOOT : Z := 0x02.
Definition MPPROC : Z := 0x00.
Definition MPBUS : Z := 0x01.
Definition MPIOAPIC : Z := 0x02.
Definition MPIOINTR : Z := 0x03.
Definition MPLINTR : Z := 0x04.

(** ** [mp.c] *)

Definition sum (l : list Z) : Z := u8 (foldl Z.add 0 l).

(** ["_MP_"] and ["PCMP"] *)
Definition sig_mp : list Z := [95; 77; 80; 95].
Definition sig_pcmp : list Z := [80; 67; 77; 80].

Definition is_mp (m : memory) (p : Z) : bool :=
  bool_decide (bytes_at m p 4 = sig_mp) && (sum (bytes_at m p 16) =? 0).

(** Look for an MP structure in the [len] bytes at [a]. *)
Definition mpsearch1 (m : memory) (a len : Z) : option Z :=
  snd <$> list_find (fun p => is_mp m p = true) ((fun i => a + MP_SIZE * i) <$> seqZ 0 ((len + MP_SIZE - 1) / MP_SIZE)).

Definition mpsearch (m : memory) : option Z :=
  let p := Z.shiftl (Z.lor (Z.shiftl (m 0x40F) 8) (m 0x40E)) 4 in
  match (if negb (p =? 0) then mpsearch1 m p 1024
         else let p := Z.lor (Z.shiftl (m 0x414) 8) (m 0x413) * 1024 in mpsearch1 m (u32 (p - 1024)) 1024) with
  | Some mp => Some mp
  | None => mpsearch1 m 0xF0000 0x10000
  end.

(** Search for an MP configuration table: the table and the structure. *)
Definition mpconfig (m : memory) : option (Z * Z) :=
  match mpsearch m with
  | None => None
  | Some mp =>
      let conf := mp_physaddr (bytes_at m mp 16) in
      if conf =? 0 then None
      else if negb (bool_decide (bytes_at m conf 4 = sig_pcmp)) then None
      else
        let h := bytes_at m conf 44 in
        if negb (mpconf_version h =? 1) && negb (mpconf_version h =? 4) then None
        else if negb (sum (bytes_at m conf (Z.to_nat (mpconf_length h))) =? 0) then None
        else Some (conf, mp)
  end.

(** The variables [mpinit] sets; [m_ids] are the [id] fields of [cpus], [m_out]
    the writes to ports, oldest first. *)
Record machine_info := Info {
  m_ids : list Z;
  bcpu : nat;
  ismp : bool;
  ncpu : nat;
  ioapicid : Z;
  lapic : Z;
  m_out : list (Z * Z)
}.

Definition info0 : machine_info := Info (replicate NCPU 0) 0 false 0 0 0 [].

Definition set_bcpu (b : nat) (i : machine_info) : machine_info :=
  Info (m_ids i) b (ismp i) (ncpu i) (ioapicid i) (lapic i) (m_out i).
Definition set_ismp (b : bool) (i : machine_info) : machine_info :=
  Info (m_ids i) (bcpu i) b (ncpu i) (ioapicid i) (lapic i) (m_out i).
Definition set_ncpu (n : nat) (i : machine_info) : machine_info :=
  Info (m_ids i) (bcpu i) (ismp i) n (ioapicid i) (lapic i) (m_out i).
Definition set_ioapicid (a : Z) (i : machine_info) : machine_info :=
  Info (m_ids i) (bcpu i) (ismp i) (ncpu i) a (lapic i) (m_out i).
Definition set_lapic (a : Z) (i : machine_info) : machine_info :=
  Info (m_ids i) (bcpu i) (ismp i) (ncpu i) (ioapicid i) a (m_out i).
Definition set_id (n : nat) (i : machine_info) : machine_info :=
  Info (<[n := u8 (Z.of_nat n)]> (m_ids i)) (bcpu i) (ismp i) (ncpu i) (ioapicid i) (lapic i) (m_out i).
Definition out (a v : Z) (i : machine_info) : machine_info :=
  Info (m_ids i) (bcpu i) (ismp i) (ncpu i) (ioapicid i) (lapic i) (m_out i ++ [(a, v)]).

(** The case [MPPROC].  A write past the end of [cpus] has no defined effect;
    the model stops there. *)
Definition mp_proc (h : list Z) : M machine_info unit :=
  let! n := gets ncpu in
  (if negb (Z.of_nat n =? mpproc_apicid h) then modify (set_ismp false) else ret tt) ;;;
  (if has (mpproc_flags h) MPBOOT then modify (set_bcpu n) else ret tt) ;;;
  (if (n <? NCPU)%nat then modify (set_id n) else panic "cpus: index out of range") ;;;
  modify (set_ncpu (S n)).

Fixpoint mp_entries (m : memory) (fuel : nat) (p e : Z) : M machine_info unit :=
  match fuel with
  | O => fun _ => Fuel
  | S fuel' =>
      if p <? e then
        if m p =? MPPROC then mp_proc (bytes_at m p 20) ;;; mp_entries m fuel' (p + MPPROC_SIZE) e
        else if m p =? MPIOAPIC then
          modify (set_ioapicid (mpioapic_apicno (bytes_at m p 8))) ;;; mp_entries m fuel' (p + MPIOAPIC_SIZE) e
        else if (m p =? MPBUS) || (m p =? MPIOINTR) || (m p =? MPLINTR) then mp_entries m fuel' (p + 8) e
        else modify (set_ismp false) ;;; mp_entries m fuel' p e
      else ret tt
  end.

(** [imcr] is what [inb(0x23)] reads. *)
Definition mpinit (m : memory) (imcr : Z) : M machine_info unit :=
  modify (set_bcpu 0) ;;;
  match mpconfig m with
  | None => ret tt
  | Some (conf, mp) =>
      let h := bytes_at m conf 44 in
      modify (set_ismp true) ;;;
      modify (set_lapic (mpconf_lapicaddr h)) ;;;
      mp_entries m (S (Z.to_nat (mpconf_length h))) (conf + MPCONF_SIZE) (conf + mpconf_length h) ;;;
      let! b := gets ismp in
      if negb b then
        modify (set_ncpu 1) ;;; modify (set_lapic 0) ;;; modify (set_ioapicid 0)
      else if negb (mp_imcrp (bytes_at m mp 16) =? 0) then
        modify (out 0x22 0x70) ;;;
        modify (out 0x23 (u8 (Z.lor imcr 1)))
      else ret tt
  end.

Definition mpbcpu (i : machine_info) : Z := Z.of_nat (bcpu i).

(** ** Tables *)

(** The entries of a table, with the fields the kernel looks at. *)
Inductive entry :=
  | Proc (apicid version flags : Z) (rest : list Z)
  | Ioapic (apicno : Z) (rest : list Z)
  | Other (type : Z) (rest : list Z).

Definition entry_bytes (e : entry) : list Z :=
  match e with
  | Proc a v f rest => [MPPROC; a; v; f] ++ rest
  | Ioapic a rest => [MPIOAPIC; a] ++ rest
  | Other t rest => t :: rest
  end.

Definition entry_ok (e : entry) : Prop :=
  is_bytes (entry_bytes e) /\
  match e with
  | Proc _ _ _ rest => length rest = 16%nat
  | Ioapic _ rest => length rest = 6%nat
  | Other t rest => t ∈ [MPBUS; MPIOINTR; MPLINTR] /\ length rest = 7%nat
  end.

Definition table_bytes (es : list entry) : list Z := concat (entry_bytes <$> es).

(** The processors of a table, with their flags, and its last I/O APIC. *)
Definition procs (es : list entry) : list (Z * Z) :=
  omap (fun e => match e with Proc a _ f _ => Some (a, f) | _ => None end) es.
Definition ioapics (es : list entry) : list Z :=
  omap (fun e => match e with Ioapic a _ => Some a | _ => None end) es.

(** What the table says, from the variables [i]. *)
Definition entry_step (i : machine_info) (e : entry) : machine_info :=
  match e with
  | Proc a _ f _ =>
      Info (<[ncpu i := u8 (Z.of_nat (ncpu i))]> (m_ids i)) (if has f MPBOOT then ncpu i else bcpu i)
        (ismp i && (Z.of_nat (ncpu i) =? a)) (S (ncpu i)) (ioapicid i) (lapic i) (m_out i)
  | Ioapic a _ => set_ioapicid a i
  | Other _ _ => i
  end.

Lemma bytes_at_app (m : memory) p (l1 l2 : list Z) :
  bytes_at m p (length (l1 ++ l2)) = l1 ++ l2 ->
  bytes_at m p (length l1) = l1 /\ bytes_at m (p + Z.of_nat (length l1)) (length l2) = l2.
Proof.
  unfold bytes_at. rewrite length_app, Nat2Z.inj_add, seqZ_app, fmap_app by lia.
  intros H. apply app_inj_1 in H; [done|]. rewrite length_fmap, length_seqZ. lia.
Qed.

Lemma bytes_at_take (m : memory) p n k : (k <= n)%nat -> bytes_at m p k = take k (bytes_at m p n).
Proof.
  intros Hk. unfold bytes_at. replace (Z.of_nat n) with (Z.of_nat k + Z.of_nat (n - k)) by lia.
  rewrite seqZ_app, fmap_app by lia. symmetry. apply take_app_length'. rewrite length_fmap, length_seqZ. lia.
Qed.

Lemma bytes_at_head (m : memory) p l : l <> [] -> bytes_at m p (length l) = l -> m p = hd 0 l.
Proof.
  destruct l as [|x l]; [done|]. intros _ H%(bytes_at_app m p [x] l). destruct H as [H _]. cbn in H. injection H as H.
  by rewrite ?Z.add_0_r, ?Z.add_0_l in H.
Qed.

Lemma unle_byte b : unle [b] = b.
Proof. cbn. lia. Qed.

Lemma entry_length e : entry_ok e -> length (entry_bytes e) = match e with Proc _ _ _ _ => 20%nat | _ => 8%nat end.
Proof. destruct e; cbn; intros [_ H]; [by rewrite H|by rewrite H|destruct H as [_ ->]; done]. Qed.

Lemma mp_proc_spec a v f rest i : (ncpu i < NCPU)%nat -> mp_proc ([MPPROC; a; v; f] ++ rest) i = Ok tt (entry_step i (Proc a v f rest)).
Proof.
  intros Hn. unfold mp_proc, bind, gets. change (mpproc_apicid _) with (unle [a]). change (mpproc_flags _) with (unle [f]).
  rewrite !unle_byte, (proj2 (Nat.ltb_lt _ _) Hn). cbn [entry_step].
  destruct i as [ids b im n io la o]. cbn. destruct (Z.of_nat n =? a), (has f MPBOOT), im; done.
Qed.

Lemma mp_entries_spec m : forall es fuel p i,
  Forall entry_ok es -> bytes_at m p (length (table_bytes es)) = table_bytes es -> (length es < fuel)%nat ->
  (ncpu i + length (procs es) <= NCPU)%nat ->
  mp_entries m fuel p (p + Z.of_nat (length (table_bytes es))) i = Ok tt (foldl entry_step i es).
Proof.
  induction es as [|e es IH]; intros fuel p i Hok Hm Hf Hn; (destruct fuel as [|fuel]; [cbn in Hf; lia|]); cbn [mp_entries].
  { cbn [table_bytes fmap list_fmap concat length]. by rewrite (proj2 (Z.ltb_ge _ _)) by lia. }
  apply Forall_cons in Hok as [He Hok]. unfold table_bytes in Hm |- *. rewrite fmap_cons in Hm |- *. cbn [concat] in Hm |- *.
  fold (table_bytes es) in Hm |- *. destruct (bytes_at_app _ _ _ _ Hm) as [Hm1 Hm2]. rewrite length_app, Nat2Z.inj_add, Z.add_assoc.
  pose proof (entry_length e He) as Hl. rewrite (proj2 (Z.ltb_lt _ _)) by (destruct e; lia).
  assert (Hh : m p = hd 0 (entry_bytes e)) by (apply bytes_at_head; [by destruct e|done]).
  cbn [foldl]. destruct e as [a v f rest|a rest|t rest]; cbn [length] in Hf; cbn in Hh; rewrite Hh; rewrite Hl in Hm1, Hm2 |- *.
  - rewrite Z.eqb_refl, Hm1. unfold bind. cbn [entry_bytes].
    cbn [procs omap list_omap length] in Hn. fold (procs es) in Hn. rewrite mp_proc_spec by lia.
    apply IH; [done|done|lia|]. cbn. unfold procs in *. lia.
  - rewrite Hm1. change (mpioapic_apicno _) with (unle [a]). rewrite unle_byte.
    change (MPIOAPIC =? MPPROC) with false. rewrite Z.eqb_refl. unfold bind, modify. by apply IH; [done|done|lia|].
  - destruct He as [_ [Ht _]].
    assert ((t =? MPPROC) = false /\ (t =? MPIOAPIC) = false /\ (t =? MPBUS) || (t =? MPIOINTR) || (t =? MPLINTR) = true) as (-> & -> & ->).
    { rewrite !elem_of_cons in Ht. destruct Ht as [-> | [-> | [-> | []%elem_of_nil]]]; done. }
    by apply IH; [done|done|lia|].
Qed.

(** What a whole table says. *)
Lemma foldl_entry_step es : forall i,
  let i' := foldl entry_step i es in
  (ncpu i + length (procs es) <= length (m_ids i))%nat ->
  ncpu i' = (ncpu i + length (procs es))%nat /\
  ismp i' = ismp i && bool_decide ((procs es).*1 = seqZ (Z.of_nat (ncpu i)) (Z.of_nat (length (procs es)))) /\
  ioapicid i' = default (ioapicid i) (last (ioapics es)) /\ lapic i' = lapic i /\ m_out i' = m_out i /\
  length (m_ids i') = length (m_ids i) /\
  (forall k, m_ids i' !! k = if decide (ncpu i <= k < ncpu i + length (procs es))%nat then Some (u8 (Z.of_nat k)) else m_ids i !! k) /\
  (forall b, (forall k a f, procs es !! k = Some (a, f) -> has f MPBOOT = bool_decide (k = b)) ->
     bcpu i' = if decide (b < length (procs es))%nat then (ncpu i + b)%nat else bcpu i).
Proof.
  induction es as [|e es IH]; intros i.
  { cbn. intros _. rewrite bool_decide_true, andb_true_r by done. split; [lia|]. do 5 (split; [done|]).
    split; [intros k; by rewrite decide_False by lia|done]. }
  cbn [foldl]. destruct e as [a v f rest|a rest|t rest].
  - cbn [procs ioapics omap list_omap]. fold (procs es). fold (ioapics es). cbn [length]. intros Hlen.
    destruct (IH (entry_step i (Proc a v f rest))) as (A1 & A2 & A3 & A4 & A5 & A6 & A7 & A8).
    { cbn. rewrite length_insert. unfold procs in *. lia. }
    cbn [entry_step ncpu ismp ioapicid lapic m_out m_ids bcpu] in *. rewrite length_insert in A6.
    split; [lia|]. split; [|do 4 (split; [done|]); split].
    + rewrite A2, <-andb_assoc. f_equal. rewrite fmap_cons, (seqZ_cons (Z.of_nat (ncpu i))) by lia. cbn [fst].
      replace (Z.pred (Z.of_nat (S (length (procs es))))) with (Z.of_nat (length (procs es))) by lia.
      replace (Z.of_nat (S (ncpu i))) with (Z.succ (Z.of_nat (ncpu i))) by lia.
      destruct (Z.eqb_spec (Z.of_nat (ncpu i)) a) as [<-|Hne]; [apply bool_decide_ext; split; [by intros ->|by intros [= ->]]|].
      cbn [andb]. rewrite bool_decide_false by congruence. done.
    + intros k. rewrite A7. destruct (decide (k = ncpu i)) as [->|Hne].
      * rewrite decide_False, decide_True by lia. apply list_lookup_insert_eq. lia.
      * rewrite list_lookup_insert_ne by done. by destruct (decide (S (ncpu i) <= k < S (ncpu i) + length (procs es))%nat), (decide (ncpu i <= k < ncpu i + S (length (procs es)))%nat); try lia.
    + intros b Hb. pose proof (Hb 0%nat a f eq_refl) as H0. destruct b as [|b].
      * rewrite (A8 (length (procs es))).
        { rewrite decide_False, decide_True, Nat.add_0_r, H0 by lia. by rewrite bool_decide_true. }
        intros k a' f' Hk. rewrite (Hb (S k) a' f' Hk), !bool_decide_false; [done| |done]. apply lookup_lt_Some in Hk. lia.
      * rewrite (A8 b) by (intros k a' f' Hk; rewrite (Hb (S k) a' f' Hk); apply bool_decide_ext; lia).
        rewrite H0, bool_decide_false by done.
        by destruct (decide (b < length (procs es))%nat), (decide (S b < S (length (procs es)))%nat); lia.
  - cbn [procs ioapics omap list_omap]. fold (procs es). fold (ioapics es). intros Hlen.
    destruct (IH (entry_step i (Ioapic a rest)) Hlen) as (A1 & A2 & A3 & A4 & A5 & A6 & A7 & A8). cbn in *.
    split_and!; try done. rewrite A3, last_cons. by destruct (last (ioapics es)).
  - cbn [procs ioapics omap list_omap]. apply IH.
Qed.

Lemma table_bytes_length es : Forall entry_ok es -> (8 * length es <= length (table_bytes es))%nat.
Proof.
  induction 1 as [|e es He _ IH]; [done|]. unfold table_bytes. rewrite fmap_cons. cbn [concat]. fold (table_bytes es).
  rewrite length_app, (entry_length e He). cbn [length]. destruct e; lia.
Qed.

(** An entry of any other type is never passed: the loop does not end. *)
Lemma mp_unknown_entry_loops m fuel p e i : p < e -> 4 < m p -> mp_entries m fuel p e i = Fuel.
Proof.
  intros Hp Ht. revert i. induction fuel as [|fuel IH]; intros i; [done|]. cbn [mp_entries].
  rewrite (proj2 (Z.ltb_lt _ _) Hp). change MPPROC with 0. change MPIOAPIC with 2. change MPBUS with 1. change MPIOINTR with 3. change MPLINTR with 4.
  rewrite !(proj2 (Z.eqb_neq _ _)) by lia. apply IH.
Qed.
