(* ===== verification/Devices.v ===== *)
(** * Interrupt controllers, timer, serial port and clock ([picirq.c],
      [ioapic.c], [lapic.c], [timer.c], [uart.c])

    These drivers are writes to ports and memory-mapped registers.  The class
    [Hardware] has the devices' side; the state keeps the writes beside it, so
    that what a device has been told can be read off.  The class
    [RealTimeClock] states what [cmostime] relies on. *)

From S2P Require Import Prelude Params Trap.

(** A write of the kernel to a device, or to the BIOS's memory. *)
Inductive dev_write :=
  | Outb (port v : Z)
  | Lapicw (index v : Z)
  | Ioapicw (reg v : Z)
  | Physw (addr v : Z).

#[export] Instance dev_write_eq_dec : EqDecision dev_write.
Proof. solve_decision. Defined.

Class Hardware := {
  hw : Type;
  hw_write : dev_write -> hw -> hw;
  hw_inb : Z -> hw -> Z * hw;
  hw_lapic : Z -> hw -> Z * hw;
  hw_ioapic : Z -> hw -> Z * hw
}.

(** [irqmask] of [picirq.c], [uart] of [uart.c]; [d_ismp], [d_lapic] and
    [d_ioapicid] are what [mpinit] found, [d_said] whether [cpunum] has printed
    its message. *)
Record dev `{H : Hardware} : Type := MkDev {
  d_hw : hw;
  trace : list dev_write;
  irqmask : Z;
  uart : bool;
  d_ismp : bool;
  d_lapic : Z;
  d_ioapicid : Z;
  d_said : Z
}.

Section Devices.
Context `{H : Hardware}.

Definition told (w : dev_write) (s : dev) : dev :=
  MkDev _ (hw_write w (d_hw s)) (trace s ++ [w]) (irqmask s) (uart s) (d_ismp s) (d_lapic s) (d_ioapicid s) (d_said s).

Definition write (w : dev_write) : M dev unit := modify (told w).

Definition set_hw (h : hw) (s : dev) : dev :=
  MkDev _ h (trace s) (irqmask s) (uart s) (d_ismp s) (d_lapic s) (d_ioapicid s) (d_said s).

Definition read (f : hw -> Z * hw) : M dev Z :=
  let! h := gets d_hw in
  let (v, h') := f h in
  modify (set_hw h') ;;;
  ret v.

Definition outb (port v : Z) : M dev unit := write (Outb port (u8 v)).
Definition inb (port : Z) : M dev Z := read (hw_inb port).

(** ** [picirq.c] *)

Definition IO_PIC1 : Z := 0x20.
Definition IO_PIC2 : Z := 0xA0.
Definition IRQ_SLAVE : Z := 2.

(** [static ushort irqmask = 0xFFFF & ~(1<<IRQ_SLAVE);] *)
Definition irqmask_init : Z := Z.land 0xFFFF (Z.lnot (Z.shiftl 1 IRQ_SLAVE)).

Definition picsetmask (mask : Z) : M dev unit :=
  modify (fun s => MkDev _ (d_hw s) (trace s) mask (uart s) (d_ismp s) (d_lapic s) (d_ioapicid s) (d_said s)) ;;;
  outb (IO_PIC1 + 1) mask ;;;
  outb (IO_PIC2 + 1) (Z.shiftr mask 8).

Definition picenable (irq : Z) : M dev unit :=
  let! m := gets irqmask in
  picsetmask (u16 (Z.land m (Z.lnot (Z.shiftl 1 irq)))).

Definition picinit : M dev unit :=
  outb (IO_PIC1 + 1) 0xFF ;;;
  outb (IO_PIC2 + 1) 0xFF ;;;
  outb IO_PIC1 0x11 ;;;
  outb (IO_PIC1 + 1) T_IRQ0 ;;;
  outb (IO_PIC1 + 1) (Z.shiftl 1 IRQ_SLAVE) ;;;
  outb (IO_PIC1 + 1) 0x3 ;;;
  outb IO_PIC2 0x11 ;;;
  outb (IO_PIC2 + 1) (T_IRQ0 + 8) ;;;
  outb (IO_PIC2 + 1) IRQ_SLAVE ;;;
  outb (IO_PIC2 + 1) 0x3 ;;;
  outb IO_PIC1 0x68 ;;;
  outb IO_PIC1 0x0a ;;;
  outb IO_PIC2 0x68 ;;;
  outb IO_PIC2 0x0a ;;;
  let! m := gets irqmask in
  if negb (m =? 0xFFFF) then picsetmask m else ret tt.

(** ** [ioapic.c] *)

Definition REG_ID : Z := 0x00.
Definition REG_VER : Z := 0x01.
Definition REG_TABLE : Z := 0x10.
Definition INT_DISABLED : Z := 0x00010000.

Definition ioapicread (reg : Z) : M dev Z := read (hw_ioapic reg).
Definition ioapicwrite (reg data : Z) : M dev unit := write (Ioapicw reg (u32 data)).

(** The message about a wrong id is not part of the state. *)
Definition ioapicinit : M dev unit :=
  let! mp := gets d_ismp in
  if negb mp then ret tt
  else
    let! v := ioapicread REG_VER in
    let maxintr := Z.land (Z.shiftr v 16) 0xFF in
    let! id := ioapicread REG_ID in
    for_ (upto (maxintr + 1)) (fun i =>
      let i := Z.of_nat i in
      ioapicwrite (REG_TABLE + 2 * i) (Z.lor INT_DISABLED (T_IRQ0 + i)) ;;;
      ioapicwrite (REG_TABLE + 2 * i + 1) 0).

Definition ioapicenable (irq cpunum : Z) : M dev unit :=
  let! mp := gets d_ismp in
  if negb mp then ret tt
  else
    ioapicwrite (REG_TABLE + 2 * irq) (T_IRQ0 + irq) ;;;
    ioapicwrite (REG_TABLE + 2 * irq + 1) (Z.shiftl cpunum 24).

(** ** [timer.c] *)

Definition IO_TIMER1 : Z := 0x040.
Definition TIMER_FREQ : Z := 1193182.
Definition TIMER_DIV (x : Z) : Z := (TIMER_FREQ + x / 2) / x.
Definition TIMER_MODE : Z := IO_TIMER1 + 3.
Definition TIMER_SEL0 : Z := 0x00.
Definition TIMER_RATEGEN : Z := 0x04.
Definition TIMER_16BIT : Z := 0x30.

Definition timerinit : M dev unit :=
  outb TIMER_MODE (Z.lor (Z.lor TIMER_SEL0 TIMER_RATEGEN) TIMER_16BIT) ;;;
  outb IO_TIMER1 (TIMER_DIV 100 mod 256) ;;;
  outb IO_TIMER1 (TIMER_DIV 100 / 256) ;;;
  picenable IRQ_TIMER.

(** ** [uart.c] *)

Definition COM1 : Z := 0x3f8.

(** [for(i = 0; i < 128 && !(inb(COM1+5) & 0x20); i++) microdelay(10);] *)
Fixpoint uart_wait (n : nat) : M dev unit :=
  match n with
  | O => ret tt
  | S n' =>
      let! v := inb (COM1 + 5) in
      if negb (has v 0x20) then uart_wait n' else ret tt
  end.

Definition uartputc (c : Z) : M dev unit :=
  let! u := gets uart in
  if negb u then ret tt
  else
    uart_wait 128 ;;;
    outb COM1 c.

Definition uartgetc : M dev Z :=
  let! u := gets uart in
  if negb u then ret (-1)
  else
    let! v := inb (COM1 + 5) in
    if negb (has v 0x01) then ret (-1) else inb COM1.

(** ["xv6...\n"] *)
Definition uart_hello : list Z := [120; 118; 54; 46; 46; 46; 10].

Definition uartinit : M dev unit :=
  outb (COM1 + 2) 0 ;;;
  outb (COM1 + 3) 0x80 ;;;
  outb COM1 (115200 / 9600) ;;;
  outb (COM1 + 1) 0 ;;;
  outb (COM1 + 3) 0x03 ;;;
  outb (COM1 + 4) 0 ;;;
  outb (COM1 + 1) 0x01 ;;;
  let! v := inb (COM1 + 5) in
  if v =? 0xFF then ret tt
  else
    modify (fun s => MkDev _ (d_hw s) (trace s) (irqmask s) true (d_ismp s) (d_lapic s) (d_ioapicid s) (d_said s)) ;;;
    inb (COM1 + 2) ;;;
    inb COM1 ;;;
    picenable IRQ_COM1 ;;;
    ioapicenable IRQ_COM1 0 ;;;
    for_ uart_hello uartputc.

(** ** [lapic.c] *)

Definition ID : Z := 0x0020 / 4.
Definition VER : Z := 0x0030 / 4.
Definition TPR : Z := 0x0080 / 4.
Definition EOI : Z := 0x00B0 / 4.
Definition SVR : Z := 0x00F0 / 4.
Definition ENABLE : Z := 0x00000100.
Definition ESR : Z := 0x0280 / 4.
Definition ICRLO : Z := 0x0300 / 4.
Definition INIT : Z := 0x00000500.
Definition STARTUP : Z := 0x00000600.
Definition DELIVS : Z := 0x00001000.
Definition ASSERT : Z := 0x00004000.
Definition LEVEL : Z := 0x00008000.
Definition BCAST : Z := 0x00080000.
Definition ICRHI : Z := 0x0310 / 4.
Definition TIMER : Z := 0x0320 / 4.
Definition X1 : Z := 0x0000000B.
Definition PERIODIC : Z := 0x00020000.
Definition PCINT : Z := 0x0340 / 4.
Definition LINT0 : Z := 0x0350 / 4.
Definition LINT1 : Z := 0x0360 / 4.
Definition ERROR : Z := 0x0370 / 4.
Definition MASKED : Z := 0x00010000.
Definition TICR : Z := 0x0380 / 4.
Definition TDCR : Z := 0x03E0 / 4.
Definition IRQ_ERROR : Z := 19.

Definition lapicr (index : Z) : M dev Z := read (hw_lapic index).

Definition lapicw (index value : Z) : M dev unit :=
  write (Lapicw index (u32 value)) ;;;
  let! _ := lapicr ID in
  ret tt.

(** [while(lapic[ICRLO] & DELIVS) ;] *)
Fixpoint delivery_wait (fuel : nat) : M dev unit :=
  match fuel with
  | O => fun _ => Fuel
  | S fuel' =>
      let! v := lapicr ICRLO in
      if has v DELIVS then delivery_wait fuel' else ret tt
  end.

Definition lapicinit (fuel : nat) : M dev unit :=
  let! l := gets d_lapic in
  if l =? 0 then ret tt
  else
    lapicw SVR (Z.lor ENABLE (T_IRQ0 + IRQ_SPURIOUS)) ;;;
    lapicw TDCR X1 ;;;
    lapicw TIMER (Z.lor PERIODIC (T_IRQ0 + IRQ_TIMER)) ;;;
    lapicw TICR 10000000 ;;;
    lapicw LINT0 MASKED ;;;
    lapicw LINT1 MASKED ;;;
    let! v := lapicr VER in
    (if 4 <=? Z.land (Z.shiftr v 16) 0xFF then lapicw PCINT MASKED else ret tt) ;;;
    lapicw ERROR (T_IRQ0 + IRQ_ERROR) ;;;
    lapicw ESR 0 ;;;
    lapicw ESR 0 ;;;
    lapicw EOI 0 ;;;
    lapicw ICRHI 0 ;;;
    lapicw ICRLO (Z.lor (Z.lor BCAST INIT) LEVEL) ;;;
    delivery_wait fuel ;;;
    lapicw TPR 0.

(** [intr] is the interrupt flag; the message of the first call with interrupts
    on is counted by [d_said]. *)
Definition cpunum (intr : bool) : M dev Z :=
  (if intr then modify (fun s => MkDev _ (d_hw s) (trace s) (irqmask s) (uart s) (d_ismp s) (d_lapic s) (d_ioapicid s) (s32 (d_said s + 1)))
   else ret tt) ;;;
  let! l := gets d_lapic in
  if negb (l =? 0) then
    let! v := lapicr ID in
    ret (Z.shiftr v 24)
  else ret 0.

Definition lapiceoi : M dev unit :=
  let! l := gets d_lapic in
  if negb (l =? 0) then lapicw EOI 0 else ret tt.

Definition microdelay (us : Z) : M dev unit := ret tt.

Definition CMOS_PORT : Z := 0x70.
Definition CMOS_RETURN : Z := 0x71.

(** Start additional processor running entry code at [addr]. *)
Definition lapicstartap (apicid addr : Z) : M dev unit :=
  outb CMOS_PORT 0xF ;;;
  outb (CMOS_PORT + 1) 0x0A ;;;
  let wrv := Z.lor (Z.shiftl 0x40 4) 0x67 in
  write (Physw wrv 0) ;;;
  write (Physw (wrv + 2) (u16 (Z.shiftr addr 4))) ;;;
  lapicw ICRHI (Z.shiftl apicid 24) ;;;
  lapicw ICRLO (Z.lor (Z.lor INIT LEVEL) ASSERT) ;;;
  microdelay 200 ;;;
  lapicw ICRLO (Z.lor INIT LEVEL) ;;;
  microdelay 100 ;;;
  for_ (upto 2) (fun _ =>
    lapicw ICRHI (Z.shiftl apicid 24) ;;;
    lapicw ICRLO (Z.lor STARTUP (Z.shiftr addr 12)) ;;;
    microdelay 200).

(** *** The clock *)

Definition CMOS_STATA : Z := 0x0a.
Definition CMOS_STATB : Z := 0x0b.
Definition CMOS_UIP : Z := Z.shiftl 1 7.
Definition SECS : Z := 0x00.
Definition MINS : Z := 0x02.
Definition HOURS : Z := 0x04.
Definition DAY : Z := 0x07.
Definition MONTH : Z := 0x08.
Definition YEAR : Z := 0x09.

(** [struct rtcdate] of [date.h] *)
Record rtcdate := Rtc { second : Z; minute : Z; hour : Z; day : Z; month : Z; year : Z }.

Definition cmos_read (reg : Z) : M dev Z :=
  outb CMOS_PORT reg ;;;
  microdelay 200 ;;;
  inb CMOS_RETURN.

Definition fill_rtcdate : M dev rtcdate :=
  let! s := cmos_read SECS in
  let! m := cmos_read MINS in
  let! h := cmos_read HOURS in
  let! d := cmos_read DAY in
  let! mo := cmos_read MONTH in
  let! y := cmos_read YEAR in
  ret (Rtc s m h d mo y).

(** [for (;;) ...]: the date read twice alike. *)
Fixpoint cmos_loop (fuel : nat) : M dev rtcdate :=
  match fuel with
  | O => fun _ => Fuel
  | S fuel' =>
      let! t1 := fill_rtcdate in
      let! a := cmos_read CMOS_STATA in
      if has a CMOS_UIP then cmos_loop fuel'
      else
        let! t2 := fill_rtcdate in
        if (second t1 =? second t2) && (minute t1 =? minute t2) && (hour t1 =? hour t2) &&
           (day t1 =? day t2) && (month t1 =? month t2) && (year t1 =? year t2) then ret t1
        else cmos_loop fuel'
  end.

Definition CONV (x : Z) : Z := u32 (Z.shiftr x 4 * 10 + Z.land x 0xf).

Definition cmostime (fuel : nat) : M dev rtcdate :=
  let! sb := cmos_read CMOS_STATB in
  let bcd := Z.land sb (Z.shiftl 1 2) =? 0 in
  let! t := cmos_loop fuel in
  let t := if bcd then Rtc (CONV (second t)) (CONV (minute t)) (CONV (hour t)) (CONV (day t)) (CONV (month t)) (CONV (year t)) else t in
  ret (Rtc (second t) (minute t) (hour t) (day t) (month t) (u32 (year t + 2000))).

(** ** What the devices have been told *)

(** Only the hardware and the writes change. *)
Definition only_told (ws : list dev_write) (s s' : dev) : Prop :=
  trace s' = trace s ++ ws /\ irqmask s' = irqmask s /\ uart s' = uart s /\ d_ismp s' = d_ismp s /\
  d_lapic s' = d_lapic s /\ d_ioapicid s' = d_ioapicid s /\ d_said s' = d_said s.

Lemma only_told_refl s : only_told [] s s.
Proof. unfold only_told. by rewrite app_nil_r. Qed.

Lemma only_told_trans ws1 ws2 s s' s'' : only_told ws1 s s' -> only_told ws2 s' s'' -> only_told (ws1 ++ ws2) s s''.
Proof.
  intros (A1 & A2 & A3 & A4 & A5 & A6 & A7) (B1 & B2 & B3 & B4 & B5 & B6 & B7).
  unfold only_told. split_and!; try congruence. by rewrite B1, A1, app_assoc.
Qed.

(** [tells m ws]: [m] returns, having made the writes [ws] and nothing else. *)
Definition tells {A} (m : M dev A) (ws : list dev_write) (s : dev) : Prop := wp m (fun _ s' => only_told ws s s') s.

Lemma tells_write w s : tells (write w) [w] s.
Proof. apply wp_modify. split_and!; done. Qed.

Lemma tells_outb p v s : tells (outb p v) [Outb p (u8 v)] s.
Proof. apply tells_write. Qed.

Lemma tells_read f s : tells (read f) [] s.
Proof. unfold tells, read. apply wp_bind, wp_gets. destruct (f (d_hw s)) as [v h]. apply wp_bind, wp_modify, wp_ret. unfold only_told. by rewrite app_nil_r. Qed.

Lemma tells_ret {A} (a : A) s : tells (ret a) [] s.
Proof. apply wp_ret, only_told_refl. Qed.

Lemma tells_bind {A B} (m : M dev A) (k : A -> M dev B) ws1 ws2 s :
  tells m ws1 s -> (forall a s', tells (k a) ws2 s') -> tells (bind m k) (ws1 ++ ws2) s.
Proof.
  intros H1 H2. apply wp_bind. eapply wp_mono; [exact H1|]. intros a s' E1. eapply wp_mono; [apply H2|].
  intros b s'' E2. exact (only_told_trans _ _ _ _ _ E1 E2).
Qed.

Lemma tells_cons {A B} (m : M dev A) (k : A -> M dev B) w ws s :
  tells m [w] s -> (forall a s', tells (k a) ws s') -> tells (bind m k) (w :: ws) s.
Proof. apply (tells_bind m k [w] ws). Qed.

Lemma tells_then {A B} (m : M dev A) (k : A -> M dev B) ws1 (P : list dev_write -> Prop) s :
  tells m ws1 s -> (forall a s', wp (k a) (fun _ s'' => exists ws, only_told ws s' s'' /\ P (ws1 ++ ws)) s') ->
  wp (bind m k) (fun _ s'' => exists ws, only_told ws s s'' /\ P ws) s.
Proof.
  intros H1 H2. apply wp_bind. eapply wp_mono; [exact H1|]. intros a s' E1. eapply wp_mono; [apply H2|].
  intros b s'' (ws & E2 & HP). exists (ws1 ++ ws). split; [exact (only_told_trans _ _ _ _ _ E1 E2)|done].
Qed.

Lemma tells_lapicw r v s : tells (lapicw r v) [Lapicw r (u32 v)] s.
Proof.
  change [Lapicw r (u32 v)] with ([Lapicw r (u32 v)] ++ [] ++ []). apply tells_bind; [apply tells_write|].
  intros _ s'. apply tells_bind; [apply tells_read|]. intros _ ?. apply tells_ret.
Qed.
End Devices.

Ltac tells :=
  first [apply tells_outb|apply tells_write|apply tells_lapicw|apply tells_read|apply tells_ret
        |apply tells_bind; [tells|intros ? ?; tells]].

(** The last value written to a port, to a register of the I/O APIC and to one of
    the local APIC. *)
Definition port_value (p : Z) (tr : list dev_write) : option Z :=
  last (omap (fun w => match w with Outb p' v => if p' =? p then Some v else None | _ => None end) tr).
Definition ioapic_value (r : Z) (tr : list dev_write) : option Z :=
  last (omap (fun w => match w with Ioapicw r' v => if r' =? r then Some v else None | _ => None end) tr).
Definition lapic_value (r : Z) (tr : list dev_write) : option Z :=
  last (omap (fun w => match w with Lapicw r' v => if r' =? r then Some v else None | _ => None end) tr).

(** The mask in the two 8259s, and an entry of the redirection table. *)
Definition pic_mask (tr : list dev_write) : option Z :=
  lo ← port_value (IO_PIC1 + 1) tr; hi ← port_value (IO_PIC2 + 1) tr; Some (lo + 256 * hi).
Definition redirection (i : Z) (tr : list dev_write) : option (Z * Z) :=
  lo ← ioapic_value (REG_TABLE + 2 * i) tr; hi ← ioapic_value (REG_TABLE + 2 * i + 1) tr; Some (lo, hi).

Lemma last_app {A} (l1 l2 : list A) : last (l1 ++ l2) = match last l2 with Some x => Some x | None => last l1 end.
Proof.
  destruct l2 as [|x l2 _] using rev_ind; [by rewrite app_nil_r|]. by rewrite app_assoc, !last_snoc.
Qed.

Lemma port_value_app p tr ws :
  port_value p (tr ++ ws) = match port_value p ws with Some v => Some v | None => port_value p tr end.
Proof. unfold port_value. by rewrite omap_app, last_app. Qed.

Lemma ioapic_value_app r tr ws :
  ioapic_value r (tr ++ ws) = match ioapic_value r ws with Some v => Some v | None => ioapic_value r tr end.
Proof. unfold ioapic_value. by rewrite omap_app, last_app. Qed.

Section Interrupts.
Context `{H : Hardware}.

(** The wait for the serial line ends, ready or not, and the character is sent
    once. *)
Lemma uartputc_sends c s : tells (uartputc c) (if uart s then [Outb COM1 (u8 c)] else []) s.
Proof.
  unfold uartputc. apply wp_bind, wp_gets. destruct (uart s); cbn [negb]; [|apply tells_ret].
  assert (Hw : forall n s, tells (uart_wait n) [] s).
  { induction n as [|n IH]; intros s'; [apply tells_ret|]. cbn [uart_wait]. apply (tells_bind _ _ [] []); [apply tells_read|].
    intros v s2. destruct (negb _); [apply IH|apply tells_ret]. }
  apply (tells_bind _ _ [] [Outb COM1 (u8 c)]); [apply Hw|]. intros. apply tells_outb.
Qed.

(** The local APIC after [lapicinit], once the interrupt it sends is delivered:
    enabled, its timer periodic on the vector of the clock, the lines it does not
    use masked, errors on their own vector, no priority. *)
Lemma lapicinit_sets fuel s : d_lapic s <> 0 -> (forall h, has (hw_lapic ICRLO h).1 DELIVS = false) -> (0 < fuel)%nat ->
  wp (lapicinit fuel) (fun _ s' => exists ws, only_told ws s s' /\
    lapic_value SVR ws = Some (Z.lor ENABLE (T_IRQ0 + IRQ_SPURIOUS)) /\ lapic_value TIMER ws = Some (Z.lor PERIODIC (T_IRQ0 + IRQ_TIMER)) /\
    lapic_value LINT0 ws = Some MASKED /\ lapic_value LINT1 ws = Some MASKED /\
    lapic_value ERROR ws = Some (T_IRQ0 + IRQ_ERROR) /\ lapic_value TPR ws = Some 0) s.
Proof.
  intros Hl Hd Hf. unfold lapicinit. apply wp_bind, wp_gets. rewrite (proj2 (Z.eqb_neq _ _) Hl).
  assert (Hw : forall s, tells (delivery_wait fuel) [] s).
  { intros s'. destruct fuel as [|fuel]; [lia|]. cbn [delivery_wait]. unfold lapicr, read. apply wp_bind, wp_bind, wp_gets.
    specialize (Hd (d_hw s')). destruct (hw_lapic ICRLO (d_hw s')) as [v h]. cbn in Hd. apply wp_bind, wp_modify, wp_ret.
    rewrite Hd. apply wp_ret. unfold only_told. by rewrite app_nil_r. }
  do 6 (eapply tells_then; [apply tells_lapicw|intros [] ?]). eapply tells_then; [apply tells_read|intros v s7].
  assert (Hrest : forall (m : M dev unit) ws, (forall s, tells m ws s) ->
    tells (m ;;; lapicw ERROR (T_IRQ0 + IRQ_ERROR) ;;; lapicw ESR 0 ;;; lapicw ESR 0 ;;; lapicw EOI 0 ;;; lapicw ICRHI 0 ;;;
      lapicw ICRLO (Z.lor (Z.lor BCAST INIT) LEVEL) ;;; delivery_wait fuel ;;; lapicw TPR 0)
      (ws ++ [Lapicw ERROR (T_IRQ0 + IRQ_ERROR); Lapicw ESR 0; Lapicw ESR 0; Lapicw EOI 0; Lapicw ICRHI 0;
              Lapicw ICRLO (Z.lor (Z.lor BCAST INIT) LEVEL); Lapicw TPR 0]) s7).
  { intros m ws Hm. apply tells_bind; [apply Hm|]. intros ? ?.
    do 6 (apply tells_cons; [apply tells_lapicw|intros [] ?]). apply (tells_bind _ _ []); [apply Hw|intros [] ?]. apply tells_lapicw. }
  destruct (4 <=? _).
  - eapply wp_mono; [apply (Hrest _ _ (tells_lapicw PCINT MASKED))|]. intros [] s8 E. eexists. split; [exact E|]. split_and!; reflexivity.
  - eapply wp_mono; [apply (Hrest _ _ (tells_ret tt))|]. intros [] s8 E. eexists. split; [exact E|]. split_and!; reflexivity.
Qed.

Lemma wp_outb p v (Q : unit -> dev -> Prop) s : Q tt (told (Outb p (u8 v)) s) -> wp (outb p v) Q s.
Proof. done. Qed.

Lemma picsetmask_spec mask s : 0 <= mask < 2 ^ 16 ->
  wp (picsetmask mask) (fun _ s' => irqmask s' = mask /\ d_ismp s' = d_ismp s /\ pic_mask (trace s') = Some mask /\
    forall i, redirection i (trace s') = redirection i (trace s)) s.
Proof.
  intros Hm. unfold picsetmask, outb, write. repeat (apply wp_bind, wp_modify). apply wp_modify. cbn [told trace irqmask d_ismp].
  split; [done|]. split; [done|]. split.
  - assert (E : forall a b tr, pic_mask ((tr ++ [Outb (IO_PIC1 + 1) a]) ++ [Outb (IO_PIC2 + 1) b]) = Some (a + 256 * b)).
    { intros a b tr. unfold pic_mask. by rewrite !port_value_app. }
    rewrite E. unfold u8, wrap. rewrite Z.shiftr_div_pow2 by lia. f_equal.
    rewrite (Z.mod_small (mask / 2 ^ 8)) by (split; [apply Z.div_pos; lia|apply Z.div_lt_upper_bound; lia]).
    pose proof (Z.div_mod mask (2 ^ 8) ltac:(lia)). lia.
  - intros i. unfold redirection. by rewrite !ioapic_value_app.
Qed.

Lemma picinit_spec s : irqmask s = irqmask_init ->
  wp picinit (fun _ s' => irqmask s' = irqmask_init /\ d_ismp s' = d_ismp s /\ pic_mask (trace s') = Some irqmask_init) s.
Proof.
  intros Hm. unfold picinit. do 14 (apply wp_bind, wp_outb). apply wp_bind, wp_gets. cbn [told irqmask]. rewrite Hm. change (irqmask_init =? 65535) with false. cbn [negb].
  eapply wp_mono; [by apply picsetmask_spec|]. intros _ s' (A & B & C & _). done.
Qed.

Lemma picenable_spec irq m s : irqmask s = m -> 0 <= m < 2 ^ 16 -> 0 <= irq ->
  wp (picenable irq) (fun _ s' => let m' := clr_flag m (2 ^ irq) in irqmask s' = m' /\ 0 <= m' < 2 ^ 16 /\
    d_ismp s' = d_ismp s /\ pic_mask (trace s') = Some m' /\ forall i, redirection i (trace s') = redirection i (trace s)) s.
Proof.
  intros E Hm Hi. unfold picenable. apply wp_bind, wp_gets. rewrite E. rewrite Z.shiftl_1_l. fold (clr_flag m (2 ^ irq)).
  assert (Hr : 0 <= clr_flag m (2 ^ irq) < 2 ^ 16).
  { unfold clr_flag. split; [apply Z.land_nonneg; left; apply Hm|]. rewrite <-Z.ldiff_land.
    apply Z.le_lt_trans with m; [apply (Z.ldiff_le _ m); [lia|]|apply Hm]. apply Z.bits_inj'. intros n Hn.
    rewrite Z.ldiff_spec, Z.bits_0, Z.ldiff_spec. destruct (Z.testbit m n); cbn; [by rewrite andb_false_r|done]. }
  unfold u16, wrap. rewrite Z.mod_small by done. eapply wp_mono; [by apply picsetmask_spec|].
  intros _ s' (A & B & C & D). done.
Qed.

Lemma redirection_app i tr ws :
  redirection i (tr ++ ws) = lo ← (match ioapic_value (REG_TABLE + 2 * i) ws with Some v => Some v | None => ioapic_value (REG_TABLE + 2 * i) tr end);
    hi ← (match ioapic_value (REG_TABLE + 2 * i + 1) ws with Some v => Some v | None => ioapic_value (REG_TABLE + 2 * i + 1) tr end);
    Some (lo, hi).
Proof. unfold redirection. by rewrite !ioapic_value_app. Qed.

(** Writing both halves of an entry. *)
Lemma redirection_write i j lo hi tr :
  redirection i (tr ++ [Ioapicw (REG_TABLE + 2 * j) lo; Ioapicw (REG_TABLE + 2 * j + 1) hi]) =
  if decide (i = j) then Some (lo, hi) else redirection i tr.
Proof.
  rewrite redirection_app. unfold ioapic_value at 1 3. cbn [omap list_omap].
  destruct (decide (i = j)) as [->|Hne].
  - rewrite !Z.eqb_refl, !(proj2 (Z.eqb_neq _ _)) by lia. done.
  - rewrite !(proj2 (Z.eqb_neq _ _)) by lia. done.
Qed.

Lemma pic_mask_ioapic tr r1 v1 r2 v2 : pic_mask (tr ++ [Ioapicw r1 v1; Ioapicw r2 v2]) = pic_mask tr.
Proof. unfold pic_mask. by rewrite !port_value_app. Qed.

Lemma ioapicinit_spec s maxintr :
  d_ismp s = true -> (forall h, Z.land (Z.shiftr (hw_ioapic REG_VER h).1 16) 0xFF = maxintr) ->
  wp ioapicinit (fun _ s' => irqmask s' = irqmask s /\ d_ismp s' = true /\ pic_mask (trace s') = pic_mask (trace s) /\
    forall i, 0 <= i <= maxintr -> redirection i (trace s') = Some (u32 (Z.lor INT_DISABLED (T_IRQ0 + i)), 0)) s.
Proof.
  intros Hmp Hmax. unfold ioapicinit. apply wp_bind, wp_gets. rewrite Hmp. cbn [negb]. unfold ioapicread, read.
  apply wp_bind, wp_bind, wp_gets. specialize (Hmax (d_hw s)). destruct (hw_ioapic REG_VER (d_hw s)) as [v h]. cbn in Hmax.
  apply wp_bind, wp_modify, wp_ret. rewrite Hmax. apply wp_bind, wp_bind, wp_gets.
  destruct (hw_ioapic REG_ID _) as [id h2]. apply wp_bind, wp_modify, wp_ret.
  eapply wp_mono; [apply (wp_for (fun k s' => irqmask s' = irqmask s /\ d_ismp s' = true /\ pic_mask (trace s') = pic_mask (trace s) /\
    forall i, 0 <= i < Z.of_nat k -> redirection i (trace s') = Some (u32 (Z.lor INT_DISABLED (T_IRQ0 + i)), 0)))| ].
  - cbn. split_and!; [done|done|done|lia].
  - intros k x s' [-> Hk]%lookup_upto (A1 & A2 & A3 & A4). unfold ioapicwrite, write. apply wp_bind, wp_modify, wp_modify.
    cbn [told trace irqmask d_ismp]. rewrite <-app_assoc. cbn [app]. split; [done|]. split; [done|]. split; [by rewrite pic_mask_ioapic|].
    intros i Hi. rewrite redirection_write. destruct (decide (i = Z.of_nat k)) as [->|]; [done|]. apply A4. lia.
  - intros _ s' (A1 & A2 & A3 & A4). split_and!; try done. intros i Hi. apply A4. rewrite length_upto. lia.
Qed.

Lemma ioapicenable_spec s irq cpu :
  d_ismp s = true ->
  wp (ioapicenable irq cpu) (fun _ s' => irqmask s' = irqmask s /\ d_ismp s' = true /\ pic_mask (trace s') = pic_mask (trace s) /\
    forall i, redirection i (trace s') =
      if decide (i = irq) then Some (u32 (T_IRQ0 + irq), u32 (Z.shiftl cpu 24)) else redirection i (trace s)) s.
Proof.
  intros Hmp. unfold ioapicenable. apply wp_bind, wp_gets. rewrite Hmp. cbn [negb]. unfold ioapicwrite, write.
  apply wp_bind, wp_modify, wp_modify. cbn [told trace irqmask d_ismp]. rewrite <-app_assoc. cbn [app].
  split; [done|]. split; [done|]. split; [apply pic_mask_ioapic|]. intros i. apply redirection_write.
Qed.

(** The processor an interrupt was last enabled for. *)
Definition routed (irqs : list (Z * Z)) (i : Z) : option Z :=
  last (omap (fun p => if p.1 =? i then Some p.2 else None) irqs).

(** The drivers enable their interrupts on both controllers. *)
Definition enable (p : Z * Z) : M dev unit := picenable p.1 ;;; ioapicenable p.1 p.2.

Definition enabled (maxintr : Z) (irqs : list (Z * Z)) (s : dev) : Prop :=
  (exists m, irqmask s = m /\ 0 <= m < 2 ^ 16 /\ pic_mask (trace s) = Some m /\
     forall i, 0 <= i < 16 -> Z.testbit m i = negb (bool_decide (i = IRQ_SLAVE \/ i ∈ irqs.*1))) /\ d_ismp s = true /\
  forall i, 0 <= i <= maxintr -> redirection i (trace s) = Some (match routed irqs i with
    | Some cpu => (u32 (T_IRQ0 + i), u32 (Z.shiftl cpu 24))
    | None => (u32 (Z.lor INT_DISABLED (T_IRQ0 + i)), 0)
    end).

Lemma enable_spec maxintr irqs p s : 0 <= p.1 -> enabled maxintr irqs s -> wp (enable p) (fun _ s' => enabled maxintr (irqs ++ [p]) s') s.
Proof.
  destruct p as [irq cpu]. cbn [fst]. intros Hirq ((m & Em & Hm & Hp & Hb) & Hmp & Hr). unfold enable. cbn [fst snd].
  apply wp_bind. eapply wp_mono; [by apply (picenable_spec irq m)|]. intros _ s1 (A1 & A2 & A3 & A4 & A5).
  eapply wp_mono; [by apply ioapicenable_spec; rewrite A3|]. intros _ s2 (B1 & B2 & B3 & B4). split; [|split; [done|]].
  - exists (clr_flag m (2 ^ irq)). split; [congruence|]. split; [done|]. split; [congruence|]. intros i Hi.
    pose proof (has_clr m irq i Hirq ltac:(lia)) as Hc. rewrite !has_bit in Hc by lia. rewrite Hc, Hb by done.
    rewrite fmap_app. cbn [fmap list_fmap fst]. destruct (Z.eqb_spec irq i) as [->|Hne]; cbn [negb andb].
    + rewrite bool_decide_true; [done|]. right. set_solver.
    + f_equal. apply bool_decide_ext. set_solver.
  - intros i Hi. rewrite B4, A5, Hr by done. unfold routed. rewrite omap_app, last_app. cbn [omap list_omap fst snd].
    destruct (Z.eqb_spec irq i) as [->|Hne]; [by rewrite decide_True|]. by rewrite decide_False by congruence.
Qed.
End Interrupts.

(** ** The clock *)

Definition field (d : rtcdate) (reg : Z) : Z :=
  if reg =? SECS then second d else if reg =? MINS then minute d else if reg =? HOURS then hour d
  else if reg =? DAY then day d else if reg =? MONTH then month d else year d.
Definition rtc_regs : list Z := [SECS; MINS; HOURS; DAY; MONTH; YEAR].

(** The registers hold the fields in binary or as two decimal digits. *)
Definition rtc_encode (binary : bool) (x : Z) : Z := if binary then x else 16 * (x / 10) + x mod 10.

(** A clock: its registers at the time of each read ([now] counts them), and the
    date.  When the update bit is clear no update comes during the next six
    reads.  The mode does not change, and after any time there is a while without
    an update. *)
Class RealTimeClock `{H : Hardware} := {
  now : hw -> nat;
  cmos : nat -> Z -> Z;
  date : nat -> rtcdate;
  binary : bool;

  rtc_read h reg : let r := hw_inb CMOS_RETURN (hw_write (Outb CMOS_PORT reg) h) in r.1 = cmos (now h) reg /\ now r.2 = S (now h);
  rtc_mode t : has (cmos t CMOS_STATB) (Z.shiftl 1 2) = binary;
  rtc_range t reg : reg ∈ rtc_regs -> 0 <= field (date t) reg < 100;
  rtc_quiet t k reg : has (cmos t CMOS_STATA) CMOS_UIP = false -> (1 <= k <= 6)%nat -> reg ∈ rtc_regs ->
    cmos (t + k) reg = rtc_encode binary (field (date t) reg);
  rtc_calm t : exists T, (t <= T)%nat /\ forall u, (T <= u <= T + 26)%nat ->
    has (cmos u CMOS_STATA) CMOS_UIP = false /\ forall reg, reg ∈ rtc_regs -> cmos u reg = cmos T reg
}.

Section Clock.
Context `{R : RealTimeClock}.

Abbreviation time s := (now (d_hw s)).

Lemma cmos_read_spec reg s : 0 <= reg < 256 -> wp (cmos_read reg) (fun v s' => v = cmos (time s) reg /\ time s' = S (time s)) s.
Proof.
  intros Hr. unfold cmos_read. apply wp_bind, wp_outb. apply wp_bind, wp_ret. unfold inb, read. apply wp_bind, wp_gets.
  cbn [told d_hw]. unfold u8, wrap. rewrite Z.mod_small by done.
  pose proof (rtc_read (d_hw s) reg) as [R1 R2]. destruct (hw_inb _ _) as [v h]. apply wp_bind, wp_modify, wp_ret. done.
Qed.

Lemma fill_rtcdate_spec s : let t := time s in
  wp fill_rtcdate (fun d s' => d = Rtc (cmos t SECS) (cmos (t + 1) MINS) (cmos (t + 2) HOURS) (cmos (t + 3) DAY) (cmos (t + 4) MONTH) (cmos (t + 5) YEAR) /\
    time s' = (t + 6)%nat) s.
Proof.
  intros t. unfold fill_rtcdate.
  apply wp_bind. eapply wp_mono; [by apply cmos_read_spec|]. intros v1 s1 [-> T1].
  apply wp_bind. eapply wp_mono; [by apply cmos_read_spec|]. intros v2 s2 [-> T2].
  apply wp_bind. eapply wp_mono; [by apply cmos_read_spec|]. intros v3 s3 [-> T3].
  apply wp_bind. eapply wp_mono; [by apply cmos_read_spec|]. intros v4 s4 [-> T4].
  apply wp_bind. eapply wp_mono; [by apply cmos_read_spec|]. intros v5 s5 [-> T5].
  apply wp_bind. eapply wp_mono; [by apply cmos_read_spec|]. intros v6 s6 [-> T6].
  apply wp_ret. rewrite T6, T5, T4, T3, T2, T1. fold t. split; [|lia]. do 5 f_equal; try lia; f_equal; lia.
Qed.

(** A date as the registers show it. *)
Definition shown (d : rtcdate) : rtcdate :=
  let e := rtc_encode binary in Rtc (e (second d)) (e (minute d)) (e (hour d)) (e (day d)) (e (month d)) (e (year d)).

Lemma quiet_fill t : has (cmos t CMOS_STATA) CMOS_UIP = false ->
  Rtc (cmos (t + 1) SECS) (cmos (t + 1 + 1) MINS) (cmos (t + 1 + 2) HOURS) (cmos (t + 1 + 3) DAY) (cmos (t + 1 + 4) MONTH) (cmos (t + 1 + 5) YEAR) =
  shown (date t).
Proof.
  intros Hq. rewrite <-!Nat.add_assoc. cbn [Nat.add].
  rewrite !(rtc_quiet t) by (done || lia || (unfold rtc_regs; set_solver)). done.
Qed.

(** While the clock is calm, from [T] on. *)
Definition calm (T : nat) : Prop := forall u, (T <= u <= T + 26)%nat ->
  has (cmos u CMOS_STATA) CMOS_UIP = false /\ forall reg, reg ∈ rtc_regs -> cmos u reg = cmos T reg.

(** The loop ends, with the date at some moment. *)
Lemma cmos_loop_spec T : calm T -> forall fuel s, (time s <= T + 13)%nat -> (T - time s < fuel)%nat ->
  wp (cmos_loop fuel) (fun d _ => exists t, (time s <= t)%nat /\ d = shown (date t)) s.
Proof.
  intros HT. induction fuel as [|fuel IH]; intros s Hlo Hf; [lia|]. cbn [cmos_loop].
  apply wp_bind. eapply wp_mono; [apply fill_rtcdate_spec|]. intros t1 s1 [E1 T1].
  apply wp_bind. eapply wp_mono; [by apply cmos_read_spec|]. intros a s2 [-> T2]. rewrite T1 in *.
  assert (Hagain : forall s', (time s < T)%nat -> (time s < time s' <= time s + 13)%nat ->
    wp (cmos_loop fuel) (fun d _ => exists t, (time s <= t)%nat /\ d = shown (date t)) s').
  { intros s' Hs Ht. eapply wp_mono; [apply IH; lia|]. intros d _ (t & ? & ->). exists t. split; [lia|done]. }
  destruct (has _ CMOS_UIP) eqn:Hu.
  { apply Hagain; [|lia]. destruct (decide (time s < T)%nat); [done|]. destruct (HT (time s + 6)%nat ltac:(lia)). congruence. }
  apply wp_bind. eapply wp_mono; [apply fill_rtcdate_spec|]. intros t2 s3 [E2 T3]. rewrite T2 in *.
  replace (S (time s + 6)) with (time s + 6 + 1)%nat in * by lia.
  rewrite (quiet_fill _ Hu) in E2. case_match eqn:Heq.
  - apply wp_ret. exists (time s + 6)%nat. split; [lia|]. rewrite <-E2. repeat (apply andb_true_iff in Heq as [Heq ?%Z.eqb_eq]).
    apply Z.eqb_eq in Heq. destruct t1, t2. cbn in *. congruence.
  - apply Hagain; [|lia]. destruct (decide (time s < T)%nat); [done|]. exfalso.
    assert (Hc : forall u v reg, (time s <= u <= time s + 12)%nat -> (time s <= v <= time s + 12)%nat -> reg ∈ rtc_regs -> cmos u reg = cmos v reg).
    { intros u v reg Hu' Hv Hr. destruct (HT u ltac:(lia)) as [_ ->]; [|done]. destruct (HT v ltac:(lia)) as [_ ->]; done. }
    rewrite <-(quiet_fill _ Hu) in E2. rewrite E1, E2 in Heq. cbn [second minute hour day month year] in Heq.
    rewrite (Hc (time s) (time s + 6 + 1)%nat SECS), (Hc (time s + 1)%nat (time s + 6 + 1 + 1)%nat MINS),
      (Hc (time s + 2)%nat (time s + 6 + 1 + 2)%nat HOURS), (Hc (time s + 3)%nat (time s + 6 + 1 + 3)%nat DAY),
      (Hc (time s + 4)%nat (time s + 6 + 1 + 4)%nat MONTH), (Hc (time s + 5)%nat (time s + 6 + 1 + 5)%nat YEAR) in Heq
      by (lia || (unfold rtc_regs; set_solver)).
    by rewrite !Z.eqb_refl in Heq.
Qed.

Lemma CONV_encode x : 0 <= x < 100 -> CONV (16 * (x / 10) + x mod 10) = x.
Proof.
  intros Hx. assert (forallb (fun x => CONV (16 * (x / 10) + x mod 10) =? x) (seqZ 0 100) = true) as Hall by reflexivity.
  rewrite forallb_forall in Hall. apply Z.eqb_eq, Hall, list_elem_of_In, elem_of_seqZ. lia.
Qed.
End Clock.
