(* ===== verification/BootProps.v ===== *)
(** * What the image builder and the boot code guarantee

    The theorems about the first file system image, the disk driver and the
    start of the machine, with instances on concrete inputs. *)

From S2P Require Import Prelude Bytes Params CString FsState Bio Log Store Fs FsAlloc FsInode FsFile FsWrite FsDir Mkfs Ide Exec Boot Mp.

(** ** The image *)





(** ** The disk driver *)

(** C11: The interrupt-driven disk driver does what the memory disk does, one
    request after the other in the order in which they were made: after any run
    of requests and interrupts from an idle driver the requests done are a
    prefix of those made, the buffers are what [memide.c]'s [iderw] leaves after
    that prefix, and so is the disk, but for the write the disk is working on.
    The driver never gets stuck: a further request is queued and its process
    sleeps, and the interrupt for a request in hand finishes it and wakes its
    process. *)
Theorem ide_serves_in_order `{C : Controller} a0 s0 rs ds s :
  healthy -> sim a0 [] s0 -> runs s0 rs ds s ->
  exists q a, rs = ds ++ q /\ for_ ds Bio.iderw a0 = Ok tt a /\ bcache (d_k s) = bcache a /\
    (forall sec, 0 <= sec < disksize a -> media (d_ctl s) 1 sec = disk_with a (head q) sec) /\
    (forall b, request_ok (d_k s) b -> b ∉ q -> exists s', Ide.iderw b s = Sleep (ch_buf b) s') /\
    (forall b c, head q = Some b -> later (d_ctl s) c -> exists s', Ide.ideintr (set_ctl c s) = Ok tt s' /\
       Z.land (flags_of (d_k s') b) (Z.lor B_VALID B_DIRTY) = B_VALID /\ last (wakeups (d_k s')) = Some (ch_buf b)).
Proof.
  intros Hh Hs0 Hr. destruct (runs_fifo a0 s0 rs ds s Hh Hs0 Hr) as (q & a & E & Ha & Hs).
  exists q, a. split; [done|]. split; [done|]. split; [apply Hs|]. split; [apply (wk_media _ _ _ (sm_work _ _ _ Hs))|]. split.
  - intros b Hb Hq. destruct (iderw_queues a q s b Hs (request_ok_sim _ _ _ _ Hs Hb) Hq) as (s' & E' & _). by exists s'.
  - intros b c Hq Hl. destruct q as [|b' q]; [done|]. injection Hq as ->.
    destruct (wp_run _ _ _ (ideintr_serves a b q _ Hh (sim_later _ _ _ _ Hs Hl))) as ([] & s' & E' & _ & _ & _ & H). by exists s'.
Qed.

(** A controller that is busy for one poll after each command. *)
Record toy := Toy { t_media : Z -> Z -> block; t_addr : Z * Z * Z * Z; t_cmd : Z; t_reading : option (Z * Z); t_busy : bool }.

Definition t_drive (c : toy) : Z := let '(_, _, _, b6) := t_addr c in drive_of b6.
Definition t_lba (c : toy) : Z := let '(b3, b4, b5, b6) := t_addr c in lba_of b3 b4 b5 b6.

Definition t_outb (p v : Z) (c : toy) : toy :=
  let '(b3, b4, b5, b6) := t_addr c in
  let at_ a := Toy (t_media c) a (t_cmd c) (t_reading c) (t_busy c) in
  if p =? 0x1f3 then at_ (v, b4, b5, b6) else if p =? 0x1f4 then at_ (b3, v, b5, b6)
  else if p =? 0x1f5 then at_ (b3, b4, v, b6) else if p =? 0x1f6 then at_ (b3, b4, b5, v)
  else if p =? 0x1f7 then Toy (t_media c) (t_addr c) v (if v =? IDE_CMD_READ then Some (t_drive c, t_lba c) else None) true
  else c.

Definition t_status (c : toy) : Z * toy :=
  (if t_busy c then IDE_BSY else IDE_DRDY, Toy (t_media c) (t_addr c) (t_cmd c) (t_reading c) false).

Definition t_outsl (d : list Z) (c : toy) : toy :=
  if t_cmd c =? IDE_CMD_WRITE then
    Toy (fun dr sec => if decide (dr = t_drive c /\ sec = t_lba c) then d else t_media c dr sec) (t_addr c) 0 None (t_busy c)
  else c.

Definition t_insl (c : toy) : list Z * toy :=
  (match t_reading c with Some (d, sec) => t_media c d sec | None => [] end, c).

Program Definition toy_ctl : Controller := {|
  ctl := toy; outb := t_outb; inb_status := t_status; outsl := t_outsl; insl := t_insl; later := eq;
  media := t_media; reading := t_reading; delay c := if t_busy c then 1%nat else 0%nat; patience := 2%nat
|}.
Next Obligation. intros c. cbn. case_match; lia. Qed.
Next Obligation. intros c. cbn. split_and!; try done. destruct (t_busy c); [right; lia|left; done]. Qed.
Next Obligation. by intros c ? ->. Qed.
Next Obligation. by intros [m [[[? ?] ?] ?] cm r bz] v. Qed.
Next Obligation.
  intros [m [[[? ?] ?] ?] cm r bz] b3 b4 b5 b6 cmd. cbn. split; [by intros ->|]. intros -> data _ d sec. done.
Qed.
Next Obligation. intros c d sec. cbn. unfold t_insl. by intros ->. Qed.

(** Two requests on a disk of zeros: buffer 0 reads sector 5, buffer 1 writes
    sector 7. *)
Definition ide_demo_k : kst :=
  K ∅ 1024 [] [] ([Buf B_BUSY 1 5 0 0 zero_block; Buf (Z.lor B_BUSY B_DIRTY) 1 7 0 0 (replicate 512 1)] ++ replicate (NBUF - 1) zero_buf)
    zero_log [].

Definition ide_demo : @ide toy_ctl :=
  @MkIde toy_ctl ide_demo_k None ∅ true (Toy (fun _ _ => zero_block) (0, 0, 0, 0) 0 None false).

Lemma ide_serves_in_order_witness : exists s, @runs toy_ctl ide_demo [0%nat; 1%nat] [0%nat] s /\
  media (d_ctl s) 1 7 = replicate 512 1.
Proof.
  assert (Hh : @healthy toy_ctl) by (intros c; cbn; by destruct (t_busy c)).
  assert (H0 : @sim toy_ctl ide_demo_k [] ide_demo).
  { split; [done|by split; [|constructor]|set_solver| |by cbn]. split; [|done]. intros sec _. cbn. by rewrite lookup_empty. }
  assert (Hr : forall b a, bcache a = bcache ide_demo_k -> disksize a = 1024 -> (b = 0 \/ b = 1)%nat -> request_ok a b).
  { intros b a Eb Ed Hb. split; unfold flags_of, buf_at; rewrite ?Eb, ?Ed; destruct Hb as [-> | ->]; refine (bool_decide_unpack _ _); vm_compute; exact I. }
  destruct (@iderw_queues toy_ctl _ _ _ 0%nat H0 (Hr 0%nat _ eq_refl eq_refl ltac:(lia)) ltac:(set_solver)) as (s1 & E1 & H1).
  destruct (@iderw_queues toy_ctl _ _ _ 1%nat H1 (Hr 1%nat _ eq_refl eq_refl ltac:(lia)) ltac:(set_solver)) as (s2 & E2 & H2).
  destruct (wp_run _ _ _ (@ideintr_serves toy_ctl _ 0%nat _ _ Hh H2)) as ([] & s3 & E3 & _).
  assert (R : @runs toy_ctl ide_demo [0%nat; 1%nat] [0%nat] s3).
  { apply (@runs_interrupt toy_ctl _ _ [] s2 0%nat (d_ctl s2)); [|apply H2|done|by destruct s2].
    apply (@runs_request toy_ctl _ [0%nat] [] s1 1%nat); [|apply Hr; [apply H1|apply H1|lia]|set_solver|done].
    apply (@runs_request toy_ctl _ [] [] ide_demo 0%nat); [constructor|by apply Hr; auto|set_solver|done]. }
  exists s3. split; [done|].
  destruct (@ide_serves_in_order toy_ctl _ _ _ _ _ Hh H0 R) as (q & a & Eq & Ea & _ & Hm & _).
  injection Eq as <-. vm_compute in Ea. injection Ea as <-. rewrite Hm by (cbn; lia). reflexivity.
Defined.

(** ** The boot loader *)

(** The boot loader loads the kernel.  From a disk that holds a loadable
    kernel file it reads every program segment to its physical address, byte for
    byte, with zeros after the bytes of the file, although it reads whole sectors
    and so more than asked; memory below its scratch space, where it runs itself,
    is untouched; and it enters the kernel at the address the file gives. *)
Lemma bootmain_spec `{C : Controller} s : let c := bt_ctl s in
  kernel_file c -> wp bootmain (fun r s' => r = Some (elf_entry (kernel_elf c)) /\
    (forall k, (k < kernel_phnum c)%nat -> seg_loaded c (bt_mem s') (kernel_ph c k)) /\
    (forall a, a < scratch -> bt_mem s' a = bt_mem s a)) s.
Proof.
  intros c Hc. unfold bootmain. apply wp_bind. eapply wp_mono; [apply readseg_header, Hc|]. intros _ s1 (M1 & P1 & B1). fold c in M1, P1.
  assert (He : forall s, paged c (bt_mem s) -> bytes_at (bt_mem s) scratch 52 = kernel_elf c).
  { intros s' Hp. apply bytes_at_kernel. intros i Hi. apply Hp. lia. }
  apply wp_bind, wp_gets. rewrite (He s1 P1), (kf_magic _ Hc), Z.eqb_refl. cbn [negb]. cbv zeta.
  assert (0 <= elf_phoff (kernel_elf c)) by (apply (ld_kernel c 0 52 28 4); [done|lia]).
  assert (0 <= elf_phnum (kernel_elf c)) by (apply (ld_kernel c 0 52 44 2); [done|lia]).
  pose proof (kf_table _ Hc) as Ht. pose proof (eq_refl : scratch = 65536) as Hsc. unfold kernel_phnum in Ht.
  change PROGHDR_SIZE with 32. rewrite !u32_small by (rewrite ?u32_small; lia). apply wp_bind.
  pose proof (load_segments_spec c (bt_mem s) Hc (kernel_phnum c) 0 s1 ltac:(lia) M1 P1 B1 ltac:(lia)) as L. cbv zeta in L.
  rewrite Z.mul_0_r, Z.add_0_r in L. unfold kernel_phnum at 1 2 in L. rewrite Z2Nat.id, (Z.mul_comm 32) in L by done.
  eapply wp_mono; [exact L|]. intros _ s2 (M2 & P2 & B2 & L2).
  apply wp_bind, wp_gets, wp_ret. by rewrite (He s2 P2).
Qed.

(** A kernel of two segments: six bytes at 0x100008, and one byte followed by
    three zeros at 0x100200. *)
Definition demo_header : block :=
  let ph off pa fsz msz := le 4 1 ++ le 4 off ++ le 4 pa ++ le 4 pa ++ le 4 fsz ++ le 4 msz ++ le 4 7 ++ le 4 4 in
  splice zero_block 0 (le 4 ELF_MAGIC ++ replicate 20 0 ++ le 4 0x100008 ++ le 4 52 ++ replicate 8 0 ++ le 2 52 ++ le 2 32 ++ le 2 2 ++ replicate 6 0
    ++ ph 520 0x100008 6 6 ++ ph 1024 0x100200 1 4).

Definition demo_kernel (d sec : Z) : block :=
  if sec =? 1 then demo_header else if sec =? 2 then splice zero_block 8 [10; 11; 12; 13; 14; 15]
  else if sec =? 3 then splice zero_block 0 [99] else zero_block.

Definition demo_boot : @boot toy_ctl := @MkBoot toy_ctl (fun _ => 7) (Toy demo_kernel (0, 0, 0, 0) 0 None false).

Lemma demo_kernel_sectors d sec : length (demo_kernel d sec) = 512%nat /\ is_bytes (demo_kernel d sec).
Proof.
  unfold demo_kernel. repeat case_match; (split; [reflexivity|]); unfold is_bytes; refine (bool_decide_unpack _ _); vm_compute; exact I.
Qed.

Lemma demo_kernel_file : @kernel_file toy_ctl (bt_ctl demo_boot).
Proof.
  split.
  - intros sec. apply demo_kernel_sectors.
  - intros o. unfold kernel_byte. cbn [media toy_ctl t_media bt_ctl demo_boot].
    destruct (nth_in_or_default (Z.to_nat (o mod SECTSIZE)) (demo_kernel 0 (o / SECTSIZE + 1)) 0) as [Hin| ->]; [|lia].
    destruct (demo_kernel_sectors 0 (o / SECTSIZE + 1)) as [_ Hb]. unfold is_bytes in Hb. rewrite Forall_forall in Hb.
    by apply Hb, list_elem_of_In.
  - vm_compute. reflexivity.
  - vm_compute. congruence.
  - change (kernel_phnum _) with 2%nat. intros [|[|k]] Hk; [vm_compute; congruence..|lia].
  - change (kernel_phnum _) with 2%nat. intros [|[|k]] Hk; [vm_compute; congruence..|lia].
  - change (kernel_phnum _) with 2%nat. intros j k Hk. assert (j = 0 /\ k = 1)%nat as [-> ->] by lia. vm_compute. congruence.
Qed.

(** ** The discovery of processors *)






