(* ===== verification/Start.v ===== *)
(** * Starting the other processors ([startothers] of [main.c])

    The first processor gives each other one a stack, an entry point and a page
    table in memory below the entry code at 0x7000, sends it the start-up
    interrupts of [lapic.c] and waits until it reports.  What a processor reads
    from there when it starts is kept in [launched]. *)

From S2P Require Import Prelude Params CString Kalloc Vm UserInit Devices.

Record launch := Launch { l_cpu : nat; l_stack : Z; l_entry : Z; l_pgdir : Z }.

Section Start.
Context `{H : Hardware}.

Record smp : Type := Smp { s_dev : dev; s_mem : kmem; launched : list launch }.

Definition on_dev {A} (m : M dev A) : M smp A := fun s =>
  match m (s_dev s) with
  | Ok a d => Ok a (Smp d (s_mem s) (launched s))
  | Panic msg => Panic msg
  | Sleep c d => Sleep c (Smp d (s_mem s) (launched s))
  | Fuel => Fuel
  end.

Definition on_kmem {A} (m : M kmem A) : M smp A := fun s =>
  match m (s_mem s) with
  | Ok a k => Ok a (Smp (s_dev s) k (launched s))
  | Panic msg => Panic msg
  | Sleep c k => Sleep c (Smp (s_dev s) k (launched s))
  | Fuel => Fuel
  end.

(** [ids] are the [id] fields of [cpus]; [mpenter] and [entrypgdir] addresses of
    the kernel; [entryother] the code of [entryother.S]; [started c k] tells
    whether the [k]-th look at [cpus[c].started] finds it set. *)
Context (ids : list Z) (mpenter entrypgdir : Z) (entryother : list Z) (started : nat -> nat -> bool).

(** [code = p2v(0x7000)] *)
Definition code : Z := p2v 0x7000.

(** [while(c->started == 0) ;] *)
Fixpoint wait_started (fuel k c : nat) : M smp unit :=
  match fuel with
  | O => fun _ => Fuel
  | S fuel' => if negb (started c k) then wait_started fuel' (S k) c else ret tt
  end.

Definition word (a v : Z) : M smp unit := on_kmem (modify (fun k => Kmem (store32 a v (km_mem k)) (use_lock k) (freelist k))).

(** The processor that is started reads its words. *)
Definition note_launch (c : nat) (s : smp) : smp :=
  let m := km_mem (s_mem s) in
  Smp (s_dev s) (s_mem s) (launched s ++ [Launch c (load32 m (code - 4)) (load32 m (code - 8)) (load32 m (code - 12))]).

(** The body of the loop for processor [c]. *)
Definition start_cpu (fuel c : nat) : M smp unit :=
  let! me := on_dev (cpunum false) in
  if Z.of_nat c =? me then ret tt
  else
    let! stack := on_kmem kalloc in
    word (code - 4) (u32 (stack + KSTACKSIZE)) ;;;
    word (code - 8) mpenter ;;;
    word (code - 12) (v2p entrypgdir) ;;;
    on_dev (lapicstartap (nth c ids 0) (v2p code)) ;;;
    modify (note_launch c) ;;;
    wait_started fuel 0 c.

Definition startothers (fuel ncpu : nat) : M smp unit :=
  on_kmem (modify (fun k => Kmem (put_bytes code entryother (km_mem k)) (use_lock k) (freelist k))) ;;;
  for_ (seq 0 ncpu) (start_cpu fuel).

(** ** What it does *)

Lemma wp_on_dev {A} (m : M dev A) Q s :
  wp m (fun a d => Q a (Smp d (s_mem s) (launched s))) (s_dev s) -> wp (on_dev m) Q s.
Proof. unfold wp, on_dev. by destruct (m (s_dev s)). Qed.

Lemma wait_started_spec fuel : forall k c s, (exists j, (k <= j < k + fuel)%nat /\ started c j = true) ->
  wait_started fuel k c s = Ok tt s.
Proof.
  induction fuel as [|fuel IH]; intros k c s (j & Hj & Hs); [lia|]. cbn [wait_started].
  destruct (started c k) eqn:E; [done|]. cbn [negb]. apply IH. exists j. split; [|done].
  destruct (decide (j = k)) as [->|]; [congruence|lia].
Qed.

(** The start-up interrupts of processor [id], as the local APIC gets them. *)
Definition startup_ipis (id : Z) : list dev_write :=
  [Lapicw ICRHI (u32 (Z.shiftl id 24)); Lapicw ICRLO (Z.lor (Z.lor INIT LEVEL) ASSERT); Lapicw ICRLO (Z.lor INIT LEVEL);
   Lapicw ICRHI (u32 (Z.shiftl id 24)); Lapicw ICRLO (Z.lor STARTUP 7); Lapicw ICRHI (u32 (Z.shiftl id 24)); Lapicw ICRLO (Z.lor STARTUP 7)].

Definition is_lapicw (w : dev_write) : bool := match w with Lapicw _ _ => true | _ => false end.

Lemma lapicstartap_spec id s : wp (lapicstartap id 0x7000) (fun _ s' =>
  exists ws, only_told ws s s' /\ filter is_lapicw ws = startup_ipis id) s.
Proof.
  assert (exists ws, tells (lapicstartap id 0x7000) ws s /\ filter is_lapicw ws = startup_ipis id) as (ws & T & E).
  { eexists. split; [unfold lapicstartap, microdelay; change (upto 2) with [0%nat; 1%nat]; cbn [for_]; tells|]. reflexivity. }
  eapply wp_mono; [exact T|]. intros [] s' Hs. by exists ws.
Qed.

(** Writes below the end of the kernel do not disturb the free list. *)
Lemma kmem_ok_outside kend k m l : kmem_ok kend k l -> (forall x, kend <= x -> m x = km_mem k x) ->
  kmem_ok kend (Kmem m (use_lock k) (freelist k)) l.
Proof.
  intros [Hc Hp Hn] Hm. split; [|done|done]. cbn. apply (chained_ext (km_mem k)); [|done].
  intros x y Hx Hy. apply Hm. rewrite Forall_forall in Hp. destruct (Hp x Hx) as (_ & ? & _). lia.
Qed.

(** The state between two turns: the processors [cs] have been started, with the
    pages [st]; [l] are free, and the memory from the kernel's end on is [m0]. *)
Record starting (kend : Z) (d0 : dev) (m0 : mem) (cs : list nat) (st l : list Z) (s : smp) : Prop := {
  sg_mem : kmem_ok kend (s_mem s) l;
  sg_code : forall i b, entryother !! i = Some b -> km_mem (s_mem s) (code + Z.of_nat i) = b;
  sg_launched : launched s = zip_with (fun c p => Launch c (p + KSTACKSIZE) mpenter (v2p entrypgdir)) cs st;
  sg_frame : forall x, kend <= x -> km_mem (s_mem s) x = m0 x;
  sg_ipis : exists ws, only_told ws d0 (s_dev s) /\ filter is_lapicw ws = concat ((fun c => startup_ipis (nth c ids 0)) <$> cs)
}.

(** The number of the running processor: what its local APIC says, 0 without one. *)
Definition is_cpu (me : nat) (lapic_at : Z) : Prop :=
  if lapic_at =? 0 then me = 0%nat else forall h, Z.shiftr (hw_lapic ID h).1 24 = Z.of_nat me.

Lemma cpunum_spec me (d : dev) : is_cpu me (d_lapic d) -> wp (cpunum false) (fun r d' => r = Z.of_nat me /\ only_told [] d d') d.
Proof.
  unfold is_cpu. intros Hme. unfold cpunum. apply wp_bind, wp_ret. apply wp_bind, wp_gets.
  destruct (Z.eqb_spec (d_lapic d) 0) as [Hl|Hl]; cbn [negb]; [apply wp_ret; subst me; split; [done|apply only_told_refl]|].
  unfold lapicr, read. apply wp_bind, wp_bind, wp_gets. specialize (Hme (d_hw d)). destruct (hw_lapic ID (d_hw d)) as [v h].
  apply wp_bind, wp_modify, wp_ret, wp_ret. split; [done|]. unfold only_told. by rewrite app_nil_r.
Qed.

Lemma start_cpu_spec kend d0 m0 fuel me c cs st p l s :
  is_cpu me (d_lapic d0) -> code <= kend ->
  0 <= mpenter < 2 ^ 32 -> c <> me -> (exists j, (j < fuel)%nat /\ started c j = true) -> length cs = length st ->
  starting kend d0 m0 cs st (p :: l) s ->
  wp (start_cpu fuel c) (fun _ s' => starting kend d0 m0 (cs ++ [c]) (st ++ [p]) l s') s.
Proof.
  intros Hme Hk Hmp Hc Hst Hlen [Hm Hcode Hl Hfr (ws & Hw & Hi)]. unfold start_cpu. apply wp_bind, wp_on_dev.
  assert (Hme' : is_cpu me (d_lapic (s_dev s))) by (destruct Hw as (_ & _ & _ & _ & -> & _); done).
  eapply wp_mono; [by apply (cpunum_spec me)|]. intros r d1 [-> Hd1]. rewrite (proj2 (Z.eqb_neq _ _)) by lia.
  destruct (kalloc_run kend (s_mem s) (p :: l) Hm) as (k' & Ek & Hk' & Em & _). cbn [hd tl] in Ek, Hk'.
  apply wp_bind. unfold wp at 1, on_kmem. cbn [s_mem]. rewrite Ek.
  assert (Hp : page_ok kend p) by (destruct Hm as [_ Hp _]; by apply Forall_cons in Hp as [? _]).
  destruct Hp as (Hp1 & _ & Hp2 & Hp3).
  assert (Hfit : p + KSTACKSIZE < 2 ^ 32).
  { destruct (decide (p + KSTACKSIZE < 2 ^ 32)); [done|]. exfalso. clear -n Hp2 Hp3. revert Hp2. unfold v2p, u32, wrap.
    change KERNBASE with (2 ^ 31). change PHYSTOP with 0xE000000. change KSTACKSIZE with 4096 in n.
    rewrite Z.mod_small; lia. }
  rewrite u32_small by (change KSTACKSIZE with 4096 in *; lia).
  unfold word. do 3 (apply wp_bind; unfold wp at 1, on_kmem, modify at 1; cbn [s_mem s_dev launched]).
  change (v2p code) with 0x7000. apply wp_bind, wp_on_dev. cbn [s_dev s_mem launched km_mem use_lock freelist].
  eapply wp_mono; [apply lapicstartap_spec|]. intros _ d2 (ws2 & Hd2 & Hi2). apply wp_bind, wp_modify.
  unfold wp. rewrite wait_started_spec; [|destruct Hst as (j & ? & ?); exists j; split; [lia|done]].
  set (m' := store32 (code - 12) _ _). assert (Hpg : 0 <= v2p entrypgdir < 2 ^ 32) by apply u32_range.
  assert (Hld : load32 m' (code - 4) = p + KSTACKSIZE /\ load32 m' (code - 8) = mpenter /\ load32 m' (code - 12) = v2p entrypgdir).
  { unfold m'. split_and!.
    - rewrite 2!(load32_ext _ (store32 _ _ _)) by (intros x Hx; apply store32_other; lia). apply load32_store32. change KSTACKSIZE with 4096 in *. lia.
    - rewrite (load32_ext _ (store32 _ _ _)) by (intros x Hx; apply store32_other; lia). by apply load32_store32.
    - by apply load32_store32. }
  destruct Hld as (L1 & L2 & L3). split.
  - apply (kmem_ok_outside kend k' m' l Hk'). intros x Hx. unfold m'. by rewrite !store32_other by lia.
  - intros i b Hb. cbn [note_launch s_mem km_mem]. fold m'. unfold m'. rewrite !store32_other, Em by lia. by apply Hcode.
  - cbn [note_launch launched s_mem km_mem]. fold m'. rewrite L1, L2, L3, Hl, zip_with_app by done. done.
  - intros x Hx. cbn [note_launch s_mem km_mem]. fold m'. unfold m'. rewrite !store32_other, Em by lia. by apply Hfr.
  - exists (ws ++ [] ++ ws2). split; [by eapply only_told_trans; [|eapply only_told_trans]|].
    rewrite fmap_app, concat_app. cbn [app fmap list_fmap concat]. rewrite app_nil_r. rewrite filter_app, Hi, Hi2. done.
Qed.

Definition others (me ncpu : nat) : list nat := filter (fun c => c <> me) (seq 0 ncpu).

Lemma start_cpus_spec kend d0 m0 fuel me :
  is_cpu me (d_lapic d0) -> code <= kend ->
  0 <= mpenter < 2 ^ 32 -> (forall c, exists j, (j < fuel)%nat /\ started c j = true) ->
  forall todo cs st st' l s, length cs = length st -> length st' = length (filter (fun c => c <> me) todo) ->
  starting kend d0 m0 cs st (st' ++ l) s ->
  wp (for_ todo (start_cpu fuel)) (fun _ s' => starting kend d0 m0 (cs ++ filter (fun c => c <> me) todo) (st ++ st') l s') s.
Proof.
  intros Hme Hk Hmp Hst. induction todo as [|c todo IH]; intros cs st st' l s Hlen Hn Hs; cbn [for_].
  - destruct st'; [|done]. rewrite filter_nil, !app_nil_r. by apply wp_ret.
  - apply wp_bind. rewrite filter_cons in Hn |- *. destruct (decide (c <> me)) as [Hc|Hc].
    + destruct st' as [|p st']; [done|]. eapply wp_mono; [by apply (start_cpu_spec kend d0 m0 fuel me c cs st p (st' ++ l))|].
      intros [] s1 H1. injection Hn as Hn. rewrite (cons_middle c), (cons_middle p), !app_assoc.
      apply IH; [rewrite !length_app, Hlen; done|done|done].
    + apply dec_stable in Hc as ->. destruct Hs as [Hm Hcode Hl Hfr (ws & Hw & Hi)].
      unfold start_cpu. apply wp_bind, wp_on_dev.
      assert (Hme' : is_cpu me (d_lapic (s_dev s))) by (destruct Hw as (_ & _ & _ & _ & -> & _); done).
      eapply wp_mono; [by apply (cpunum_spec me)|]. intros r d1 [-> Hd1]. rewrite Z.eqb_refl. apply wp_ret.
      apply IH; [done|done|]. split; [done|done|done|done|]. exists (ws ++ []). split; [by eapply only_told_trans|by rewrite app_nil_r].
Qed.

(** The entry code is in place and the other processors are started, in order. *)
Lemma startothers_spec kend fuel ncpu me stacks l s :
  kmem_ok kend (s_mem s) (stacks ++ l) -> code + Z.of_nat (length entryother) <= kend -> 0 <= mpenter < 2 ^ 32 ->
  is_cpu me (d_lapic (s_dev s)) -> launched s = [] -> length stacks = length (others me ncpu) ->
  (forall c, exists j, (j < fuel)%nat /\ started c j = true) ->
  wp (startothers fuel ncpu) (fun _ s' => starting kend (s_dev s) (km_mem (s_mem s)) (others me ncpu) stacks l s') s.
Proof.
  intros Hm Hend Hmp Hme Hl Hn Hst. unfold startothers. apply wp_bind. unfold wp at 1, on_kmem, modify at 1. unfold others in *.
  apply (start_cpus_spec kend (s_dev s) (km_mem (s_mem s)) fuel me Hme ltac:(lia) Hmp Hst (seq 0 ncpu) [] [] stacks l); [done|done|].
  assert (Hfr : forall x, kend <= x -> put_bytes code entryother (km_mem (s_mem s)) x = km_mem (s_mem s) x)
    by (intros x Hx; rewrite put_bytes_code; by rewrite (proj2 (Z.ltb_ge x _)), andb_false_r by lia).
  split; [by apply kmem_ok_outside| |by rewrite Hl|done|exists []; split; [apply only_told_refl|done]].
  intros i b Hb. cbn [s_mem km_mem]. pose proof (lookup_lt_Some _ _ _ Hb). rewrite put_bytes_code.
  rewrite (proj2 (Z.leb_le _ _)), (proj2 (Z.ltb_lt _ _)) by lia. cbn [andb].
  replace (Z.to_nat (code + Z.of_nat i - code)) with i by lia. by apply nth_lookup_Some.
Qed.
End Start.
