(* ===== verification/Segment.v ===== *)
(** * Segments, gates and the processor's tables ([mmu.h], [asm.h], and
      [seginit], [switchkvm], [switchuvm] and [kvmalloc] of [vm.c], [tvinit] of
      [trap.c])

    The descriptors are records of their bit fields, with the bytes they occupy.
    What the processor makes of them is in the last part. *)

From S2P Require Import Prelude Bytes Params Kalloc Vm Proc Trap.

Definition SEG_KCODE : Z := 1.
Definition SEG_KDATA : Z := 2.
Definition SEG_KCPU : Z := 3.
Definition SEG_TSS : Z := 6.
Definition NSEGS : nat := 7.

Definition STA_X : Z := 0x8.
Definition STA_W : Z := 0x2.
Definition STA_R : Z := 0x2.
Definition STS_T32A : Z := 0x9.
Definition STS_IG32 : Z := 0xE.
Definition STS_TG32 : Z := 0xF.

(** The value kept by a bit field of width [w]. *)
Abbreviation bits w x := (wrap w x).

Record segdesc := Segdesc {
  lim_15_0 : Z;
  base_15_0 : Z;
  base_23_16 : Z;
  sd_type : Z;
  sd_s : Z;
  sd_dpl : Z;
  sd_p : Z;
  lim_19_16 : Z;
  sd_avl : Z;
  sd_rsv1 : Z;
  sd_db : Z;
  sd_g : Z;
  base_31_24 : Z
}.

(** Normal segment *)
Definition SEG (type base lim dpl : Z) : segdesc :=
  Segdesc (Z.land (Z.shiftr lim 12) 0xffff) (Z.land (u32 base) 0xffff)
    (Z.land (Z.shiftr (u32 base) 16) 0xff) (bits 4 type) 1 (bits 2 dpl) 1
    (bits 4 (Z.shiftr (u32 lim) 28)) 0 0 1 1 (bits 8 (Z.shiftr (u32 base) 24)).

Definition SEG16 (type base lim dpl : Z) : segdesc :=
  Segdesc (Z.land lim 0xffff) (Z.land (u32 base) 0xffff)
    (Z.land (Z.shiftr (u32 base) 16) 0xff) (bits 4 type) 1 (bits 2 dpl) 1
    (bits 4 (Z.shiftr (u32 lim) 16)) 0 0 1 0 (bits 8 (Z.shiftr (u32 base) 24)).

(** The two words of the structure. *)
Definition seg_bytes (d : segdesc) : list Z :=
  le 4 (lim_15_0 d + 2 ^ 16 * base_15_0 d) ++
  le 4 (base_23_16 d + 2 ^ 8 * sd_type d + 2 ^ 12 * sd_s d + 2 ^ 13 * sd_dpl d + 2 ^ 15 * sd_p d + 2 ^ 16 * lim_19_16 d +
        2 ^ 20 * sd_avl d + 2 ^ 21 * sd_rsv1 d + 2 ^ 22 * sd_db d + 2 ^ 23 * sd_g d + 2 ^ 24 * base_31_24 d).

(** [SEG_ASM] of [asm.h], with which the boot code builds its table. *)
Definition SEG_ASM (type base lim : Z) : list Z :=
  le 2 (Z.land (Z.shiftr lim 12) 0xffff) ++ le 2 (Z.land base 0xffff) ++
  [Z.land (Z.shiftr base 16) 0xff; Z.lor 0x90 type; Z.lor 0xC0 (Z.land (Z.shiftr lim 28) 0xf); Z.land (Z.shiftr base 24) 0xff].

Record gatedesc := Gatedesc {
  off_15_0 : Z;
  gd_cs : Z;
  gd_args : Z;
  gd_rsv1 : Z;
  gd_type : Z;
  gd_s : Z;
  gd_dpl : Z;
  gd_p : Z;
  off_31_16 : Z
}.

Definition zero_gate : gatedesc := Gatedesc 0 0 0 0 0 0 0 0 0.
Definition zero_seg : segdesc := Segdesc 0 0 0 0 0 0 0 0 0 0 0 0 0.

Definition SETGATE (istrap : bool) (sel off d : Z) : gatedesc :=
  Gatedesc (Z.land (u32 off) 0xffff) (bits 16 sel) 0 0 (if istrap then STS_TG32 else STS_IG32) 0 (bits 2 d) 1
    (Z.shiftr (u32 off) 16).

(** The processor's registers and tables that the kernel sets: [gdt] and the
    fields of [ts] in [struct cpu], the registers loaded by [lgdt], [loadgs],
    [ltr] and [lcr3]. *)
Record cpu_tables := CpuTables {
  gdt : list segdesc;
  ts_esp0 : Z;
  ts_ss0 : Z;
  gdtr_limit : Z;
  gs : Z;
  tr : Z;
  cr3 : Z
}.

Definition set_seg (i : Z) (d : segdesc) (c : cpu_tables) : cpu_tables :=
  CpuTables (<[Z.to_nat i := d]> (gdt c)) (ts_esp0 c) (ts_ss0 c) (gdtr_limit c) (gs c) (tr c) (cr3 c).

(** [local] is the address of [c->cpu]. *)
Definition seginit (local : Z) (c : cpu_tables) : cpu_tables :=
  let c := set_seg SEG_KCODE (SEG (Z.lor STA_X STA_R) 0 0xffffffff 0) c in
  let c := set_seg SEG_KDATA (SEG STA_W 0 0xffffffff 0) c in
  let c := set_seg SEG_UCODE (SEG (Z.lor STA_X STA_R) 0 0xffffffff DPL_USER) c in
  let c := set_seg SEG_UDATA (SEG STA_W 0 0xffffffff DPL_USER) c in
  let c := set_seg SEG_KCPU (SEG STA_W local 8 0) c in
  CpuTables (gdt c) (ts_esp0 c) (ts_ss0 c) (Z.of_nat NSEGS * 8 - 1) (Z.shiftl SEG_KCPU 3) (tr c) (cr3 c).

Definition switchkvm (kpgdir : Z) : M cpu_tables unit :=
  modify (fun c => CpuTables (gdt c) (ts_esp0 c) (ts_ss0 c) (gdtr_limit c) (gs c) (tr c) (v2p kpgdir)).

(** [struct taskstate]: the fields with their sizes. *)
Definition taskstate : list (string * Z) :=
  [("link", 4); ("esp0", 4); ("ss0", 2); ("padding1", 2); ("esp1", 4); ("ss1", 2); ("padding2", 2); ("esp2", 4); ("ss2", 2); ("padding3", 2);
   ("cr3", 4); ("eip", 4); ("eflags", 4); ("eax", 4); ("ecx", 4); ("edx", 4); ("ebx", 4); ("esp", 4); ("ebp", 4); ("esi", 4); ("edi", 4);
   ("es", 2); ("padding4", 2); ("cs", 2); ("padding5", 2); ("ss", 2); ("padding6", 2); ("ds", 2); ("padding7", 2); ("fs", 2); ("padding8", 2);
   ("gs", 2); ("padding9", 2); ("ldt", 2); ("padding10", 2); ("t", 2); ("iomb", 2)]%string.

(** [sizeof(struct taskstate)] *)
Definition TS_SIZE : Z := foldr Z.add 0 (taskstate.*2).

(** [ts] is the address of [cpu->ts], [kstack] that of the current process. *)
Definition switchuvm (ts kstack pgdir : Z) : M cpu_tables unit :=
  let d := SEG16 STS_T32A ts (TS_SIZE - 1) 0 in
  modify (set_seg SEG_TSS d) ;;;
  modify (set_seg SEG_TSS (Segdesc (lim_15_0 d) (base_15_0 d) (base_23_16 d) (sd_type d) 0 (sd_dpl d) (sd_p d)
    (lim_19_16 d) (sd_avl d) (sd_rsv1 d) (sd_db d) (sd_g d) (base_31_24 d))) ;;;
  modify (fun c => CpuTables (gdt c) (u32 (kstack + KSTACKSIZE)) (Z.shiftl SEG_KDATA 3) (gdtr_limit c) (gs c) (Z.shiftl SEG_TSS 3) (cr3 c)) ;;;
  if pgdir =? 0 then panic "switchuvm: no pgdir"
  else modify (fun c => CpuTables (gdt c) (ts_esp0 c) (ts_ss0 c) (gdtr_limit c) (gs c) (tr c) (v2p pgdir)).

(** [vectors] is the array of entry points in the generated [vectors.S]. *)
Definition tvinit (vectors : nat -> Z) (idt : list gatedesc) : list gatedesc :=
  let idt := fold_left (fun t i => <[i := SETGATE false (Z.shiftl SEG_KCODE 3) (vectors i) 0]> t) (seq 0 256) idt in
  <[Z.to_nat T_SYSCALL := SETGATE true (Z.shiftl SEG_KCODE 3) (vectors (Z.to_nat T_SYSCALL)) DPL_USER]> idt.

Section Kvm.
Context (data : Z).

(** Page table for when no process is running: its address and the processor's
    tables. *)
Definition kvmalloc (c : cpu_tables) : M kmem (Z * cpu_tables) :=
  let! kpgdir := setupkvm data in
  match switchkvm kpgdir c with
  | Ok _ c' => ret (kpgdir, c')
  | _ => panic "switchkvm"
  end.
End Kvm.

(** ** What the processor makes of them *)

Definition seg_base (d : segdesc) : Z := base_15_0 d + 2 ^ 16 * base_23_16 d + 2 ^ 24 * base_31_24 d.
Definition seg_limit (d : segdesc) : Z :=
  let l := lim_15_0 d + 2 ^ 16 * lim_19_16 d in if sd_g d =? 1 then 2 ^ 12 * l + 0xfff else l.

Definition is_code (d : segdesc) : bool := (sd_s d =? 1) && has (sd_type d) STA_X.

(** May a program at level [cpl] load a selector for the data segment [d]? *)
Definition may_load (cpl : Z) (d : segdesc) : bool := (sd_p d =? 1) && (cpl <=? sd_dpl d).

(** May a program at level [cpl] raise the interrupt of gate [g] with [int]? *)
Definition may_call (cpl : Z) (g : gatedesc) : bool := (gd_p g =? 1) && (cpl <=? gd_dpl g).

(** Entry through a gate: the new level, the address reached and whether
    interrupts stay enabled; [None] is a fault. *)
Definition enter (t : list segdesc) (cpl : Z) (g : gatedesc) : option (Z * Z * bool) :=
  match t !! Z.to_nat (Z.shiftr (gd_cs g) 3) with
  | None => None
  | Some d =>
      let off := off_15_0 g + 2 ^ 16 * off_31_16 g in
      if (gd_p g =? 1) && ((gd_type g =? STS_IG32) || (gd_type g =? STS_TG32)) && is_code d && (sd_p d =? 1) &&
         (sd_dpl d <=? cpl) && (off <=? seg_limit d)
      then Some (sd_dpl d, u32 (seg_base d + off), gd_type g =? STS_TG32)
      else None
  end.

Lemma split_address b : 0 <= b < 2 ^ 32 ->
  Z.land b 0xffff + 2 ^ 16 * Z.land (Z.shiftr b 16) 0xff + 2 ^ 24 * bits 8 (Z.shiftr b 24) = b.
Proof.
  intros Hb. change 0xffff with (Z.ones 16). change 0xff with (Z.ones 8). rewrite !Z.land_ones, !Z.shiftr_div_pow2 by lia.
  unfold wrap. rewrite (Z.mod_small (b / 2 ^ 24)) by (split; [apply Z.div_pos; lia|apply Z.div_lt_upper_bound; lia]).
  Z.div_mod_to_equations. lia.
Qed.

Lemma SEG_decode type base lim dpl : 0 <= base < 2 ^ 32 -> 0 <= lim < 2 ^ 32 ->
  seg_base (SEG type base lim dpl) = base /\ seg_limit (SEG type base lim dpl) = lim / 2 ^ 12 * 2 ^ 12 + 0xfff.
Proof.
  intros Hb Hl. unfold seg_base, seg_limit, SEG. cbn [base_15_0 base_23_16 base_31_24 lim_15_0 lim_19_16 sd_g Z.eqb Pos.eqb].
  rewrite !u32_small by lia. split; [by apply split_address|].
  change 0xffff with (Z.ones 16). rewrite Z.land_ones, !Z.shiftr_div_pow2 by lia. unfold wrap.
  rewrite (Z.mod_small (lim / 2 ^ 28)) by (split; [apply Z.div_pos; lia|apply Z.div_lt_upper_bound; lia]).
  Z.div_mod_to_equations. lia.
Qed.

Lemma le_cons n b v : 0 <= b < 256 -> le (S n) (b + 2 ^ 8 * v) = b :: le n v.
Proof. intros Hb. cbn [le]. rewrite (Z.mul_comm (2 ^ 8)), Z.mod_add, Z.div_add, Z.mod_small, Z.div_small by lia. done. Qed.

Lemma le_two a b : 0 <= a < 2 ^ 16 -> le 4 (a + 2 ^ 16 * b) = le 2 a ++ le 2 b.
Proof.
  intros Ha. assert (E : a = a mod 256 + 2 ^ 8 * (a / 256)) by (pose proof (Z.div_mod a 256); lia).
  assert (0 <= a / 256 < 256) by (split; [apply Z.div_pos; lia|apply Z.div_lt_upper_bound; lia]).
  pose proof (Z.mod_pos_bound a 256 ltac:(lia)).
  replace (a + 2 ^ 16 * b) with (a mod 256 + 2 ^ 8 * (a / 256 + 2 ^ 8 * b)) by lia.
  rewrite !le_cons by lia. cbn [le app]. rewrite (Z.mod_small (a / 256)) by lia. done.
Qed.

(** The boot code's macro builds the same descriptors. *)
Lemma SEG_ASM_bytes type base lim : 0 <= type < 16 -> 0 <= base < 2 ^ 32 -> 0 <= lim < 2 ^ 32 ->
  seg_bytes (SEG type base lim 0) = SEG_ASM type base lim.
Proof.
  intros Ht Hb Hl. unfold seg_bytes, SEG_ASM, SEG.
  cbn [lim_15_0 base_15_0 base_23_16 sd_type sd_s sd_dpl sd_p lim_19_16 sd_avl sd_rsv1 sd_db sd_g base_31_24].
  rewrite !u32_small by lia. change 0xffff with (Z.ones 16). change 0xff with (Z.ones 8). change (Z.land (lim ≫ 28) 0xf) with (Z.land (lim ≫ 28) (Z.ones 4)). rewrite !Z.land_ones by lia.
  unfold wrap. change (0 mod 2 ^ 2) with 0. set (b2 := (base ≫ 16) mod 2 ^ 8). set (b3 := (base ≫ 24) mod 2 ^ 8). set (l2 := (lim ≫ 28) mod 2 ^ 4).
  assert (0 <= b2 < 256 /\ 0 <= b3 < 256 /\ 0 <= l2 < 16) as (H2 & H3 & H4)
    by (split_and!; apply Z.mod_pos_bound; lia).
  rewrite (Z.mod_small type) by lia. rewrite le_two, <-app_assoc by (apply Z.mod_pos_bound; lia). f_equal. f_equal.
  assert (Hor : forall x, 0 <= x < 16 -> Z.lor 0x90 x = 0x90 + x /\ Z.lor 0xC0 x = 0xC0 + x).
  { intros x Hx. assert (forallb (fun x => (Z.lor 0x90 x =? 0x90 + x) && (Z.lor 0xC0 x =? 0xC0 + x)) (seqZ 0 16) = true) as Hall by reflexivity.
    rewrite forallb_forall in Hall. specialize (Hall x). rewrite <-list_elem_of_In, elem_of_seqZ in Hall.
    apply andb_prop in Hall as [?%Z.eqb_eq ?%Z.eqb_eq]; [done|lia]. }
  rewrite (proj1 (Hor type Ht)), (proj2 (Hor l2 H4)).
  replace (b2 + 2 ^ 8 * type + 2 ^ 12 * 1 + 2 ^ 13 * 0 + 2 ^ 15 * 1 + 2 ^ 16 * l2 + 2 ^ 20 * 0 + 2 ^ 21 * 0 + 2 ^ 22 * 1 + 2 ^ 23 * 1 + 2 ^ 24 * b3)
    with (b2 + 2 ^ 8 * ((144 + type) + 2 ^ 8 * ((192 + l2) + 2 ^ 8 * b3))) by lia.
  rewrite !le_cons by lia. cbn [le]. by rewrite Z.mod_small by lia.
Qed.

Lemma SETGATE_enter t istrap off d cpl seg :
  t !! 1%nat = Some seg -> is_code seg = true -> sd_p seg = 1 -> sd_dpl seg = 0 -> seg_base seg = 0 -> seg_limit seg = 0xffffffff ->
  0 <= off < 2 ^ 32 -> 0 <= cpl ->
  enter t cpl (SETGATE istrap (Z.shiftl SEG_KCODE 3) off d) = Some (0, off, istrap).
Proof.
  intros Ht Hc Hp Hd Hb Hl Ho Hcpl. unfold enter, SETGATE. cbn [gd_cs gd_p gd_type off_15_0 off_31_16].
  change (Z.to_nat (Z.shiftr (bits 16 (Z.shiftl SEG_KCODE 3)) 3)) with 1%nat. rewrite Ht, Hc, Hp, Hd, Hb, Hl, u32_small by done.
  assert (E : Z.land off 0xffff + 2 ^ 16 * Z.shiftr off 16 = off).
  { change 0xffff with (Z.ones 16). rewrite Z.land_ones, Z.shiftr_div_pow2 by lia. pose proof (Z.div_mod off (2 ^ 16)). lia. }
  rewrite E, Z.add_0_l, u32_small by done. rewrite !(proj2 (Z.leb_le _ _)) by lia. by destruct istrap.
Qed.

Lemma tvinit_lookup vectors idt i : length idt = 256%nat -> (i < 256)%nat ->
  tvinit vectors idt !! i = Some (SETGATE (bool_decide (i = Z.to_nat T_SYSCALL)) (Z.shiftl SEG_KCODE 3) (vectors i)
    (if bool_decide (i = Z.to_nat T_SYSCALL) then DPL_USER else 0)).
Proof.
  intros Hl Hi. unfold tvinit. set (f := fun (t : list gatedesc) j => _).
  assert (Hf : forall l t, length (fold_left f l t) = length t /\ (forall j, (j < length t)%nat ->
    fold_left f l t !! j = if decide (j ∈ l) then Some (SETGATE false (Z.shiftl SEG_KCODE 3) (vectors j) 0) else t !! j)).
  { induction l as [|x l IH] using rev_ind; intros t; [split; [done|]; intros j _; by rewrite decide_False by set_solver|].
    rewrite fold_left_app. cbn [fold_left]. destruct (IH t) as [L1 L2]. unfold f at 1 3. rewrite length_insert. split; [done|]. intros j Hj.
    destruct (decide (j = x)) as [->|Hne]; [rewrite list_lookup_insert_eq by lia; by rewrite decide_True by set_solver|].
    rewrite list_lookup_insert_ne, L2 by done. by destruct (decide (j ∈ l)), (decide (j ∈ l ++ [x])); try set_solver. }
  destruct (Hf (seq 0 256) idt) as [L1 L2]. destruct (decide (i = Z.to_nat T_SYSCALL)) as [->|Hne].
  - rewrite bool_decide_true by done. apply list_lookup_insert_eq. lia.
  - rewrite bool_decide_false, list_lookup_insert_ne, L2, decide_True by (done || lia || (rewrite elem_of_seq; lia)). done.
Qed.
