(* ===== verification/Cprintf.v ===== *)
(** * Kernel messages ([printint], [cprintf] and [panic] of [console.c], and
      [procdump] of [proc.c])

    A routine's output is the list of the arguments of [consputc].  A string
    argument is an address; [str] gives the characters at it up to the NUL. *)

From S2P Require Import Prelude Params CString Kernel Ulib Console.

Module Cons.
(** ["0123456789abcdef"] *)
Definition digits : list Z := chars "0123456789abcdef".

(** The [do] loop: [buf] with the last digit first, [None] when it is full. *)
Fixpoint digits_loop (room : nat) (x base : Z) (buf : list Z) : option (list Z) :=
  match room with
  | O => None
  | S room' =>
      let buf' := nth (Z.to_nat (x mod base)) digits 0 :: buf in
      if negb (x / base =? 0) then digits_loop room' (x / base) base buf' else Some buf'
  end.

Definition printint (xx base : Z) (sgn : bool) : option (list Z) :=
  let sgn := sgn && (s32 xx <? 0) in
  let x := if sgn then u32 (- s32 xx) else u32 xx in
  match digits_loop 16 x base [] with
  | None => None
  | Some buf => if sgn then (if (length buf <? 16)%nat then Some (45 :: buf) else None) else Some buf
  end.
End Cons.

Section Cprintf.
Context (str : Z -> list Z).

(** The loop over the format; [ap n] is the [n]-th argument word. *)
Fixpoint cprintf_loop (fmt : list Z) (ap : nat -> Z) : option (list Z) :=
  let out w rest := match rest with Some l => Some (w ++ l) | None => None end in
  let next := fun n => ap (S n) in
  match fmt with
  | [] => Some []
  | c :: fmt' =>
      if negb (c =? ch_percent) then out [c] (cprintf_loop fmt' ap)
      else
        match fmt' with
        | [] => Some []
        | c :: fmt' =>
            if c =? 100 then
              match Cons.printint (ap 0%nat) 10 true with Some w => out w (cprintf_loop fmt' next) | None => None end
            else if (c =? 120) || (c =? 112) then
              match Cons.printint (ap 0%nat) 16 false with Some w => out w (cprintf_loop fmt' next) | None => None end
            else if c =? 115 then
              out (if ap 0%nat =? 0 then chars "(null)" else str (ap 0%nat)) (cprintf_loop fmt' next)
            else if c =? ch_percent then out [ch_percent] (cprintf_loop fmt' ap)
            else out [ch_percent; c] (cprintf_loop fmt' ap)
        end
  end.

(** [fmt == 0] is [None]. *)
Definition cprintf (fmt : option (list Z)) (ap : nat -> Z) : M unit (list Z) :=
  match fmt with
  | None => panic "null fmt"
  | Some fmt =>
      match cprintf_loop fmt ap with
      | Some l => ret l
      | None => panic "printint: buffer overflow"
      end
  end.

(** What [panic] prints before it stops the machine: the message is a format. *)
Definition panic_text (cpu_id : Z) (s : list Z) (ap : nat -> Z) (pcs : list Z) : option (list Z) :=
  h ← cprintf_loop (chars "cpu%d: panic: ") (fun _ => cpu_id);
  m ← cprintf_loop s ap;
  n ← cprintf_loop [10] (fun _ => 0);
  t ← mapM (fun pc => cprintf_loop (chars " %p") (fun _ => pc)) pcs;
  Some (h ++ m ++ n ++ concat t).
End Cprintf.

(** The characters of [consputc]'s calls on the serial line and the screen. *)
Definition consputs (l : list Z) (o : outputs) : outputs := fold_left (fun o c => consputc c o) l o.

(** ** Process listing *)

Definition state_name (st : procstate) : list Z :=
  match st with
  | UNUSED => chars "unused"
  | EMBRYO => chars "embryo"
  | SLEEPING => chars "sleep "
  | RUNNABLE => chars "runble"
  | RUNNING => chars "run   "
  | ZOMBIE => chars "zombie"
  end.

(** [pcs p] are the ten return addresses [getcallerpcs] finds on the stack of a
    sleeping process.  A string argument is given by its characters. *)
Definition with_strings (l : list (list Z)) (a : Z) : list Z := nth (Z.to_nat (a - 1)) l [].
Definition words (l : list Z) (n : nat) : Z := nth n l 0.

Fixpoint dump_pcs (pcs : list Z) : option (list Z) :=
  match pcs with
  | [] => Some []
  | pc :: pcs' =>
      if negb (pc =? 0) then
        w ← cprintf_loop (fun _ => []) (chars " %p") (fun _ => pc);
        l ← dump_pcs pcs';
        Some (w ++ l)
      else Some []
  end.

(** The characters before the first NUL. *)
Fixpoint cstr (l : list Z) : list Z :=
  match l with
  | [] => []
  | c :: l' => if c =? 0 then [] else c :: cstr l'
  end.

Definition dump_proc (pcs : proc -> list Z) (p : proc) : option (list Z) :=
  if decide (p_state p = UNUSED) then Some []
  else
    h ← cprintf_loop (with_strings [state_name (p_state p); cstr (p_name p)]) (chars "%d %s %s") (words [p_pid p; 1; 2]);
    s ← (if decide (p_state p = SLEEPING) then dump_pcs (take 10 (pcs p)) else Some []);
    n ← cprintf_loop (fun _ => []) [10] (fun _ => 0);
    Some (h ++ s ++ n).

Definition procdump (pcs : proc -> list Z) (ptable : list proc) : option (list Z) :=
  l ← mapM (dump_proc pcs) ptable; Some (concat l).

(** ** The messages of the other files *)

(** [statusPrint] of [printjob] *)
Definition status_print (st : procstate) : list Z :=
  match st with
  | UNUSED => chars "UNUSED"
  | EMBRYO => chars "EMBRYO"
  | SLEEPING => chars "SLEEPING"
  | RUNNABLE => chars "RUNNABLE"
  | RUNNING => chars "RUNNING"
  | ZOMBIE => chars "ZOMBIE"
  end.

(** [cmd a] is the command line at [a]. *)
Definition line_text (cmd : Z -> list Z) (l : cons_line) : option (list Z) :=
  match l with
  | JobLine jid c => cprintf_loop (with_strings [cmd c]) (chars "Job %d: %s" ++ [10]) (words [jid; 1])
  | ProcLine pid name sz nofile st =>
      cprintf_loop (with_strings [cstr name; status_print st]) (chars "%d: %s %d %d %s " ++ [10]) (words [pid; 1; sz; nofile; 2])
  | HereLine => cprintf_loop (fun _ => []) (chars "i'm here" ++ [10]) (fun _ => 0)
  | UnknownCall pid name num => cprintf_loop (with_strings [cstr name]) (chars "%d %s: unknown sys call %d" ++ [10]) (words [pid; 1; num])
  | SpuriousInterrupt cpu cs eip => cprintf_loop (fun _ => []) (chars "cpu%d: spurious interrupt at %x:%x" ++ [10]) (words [cpu; cs; eip])
  | KillProc pid name trapno err cpu eip addr =>
      cprintf_loop (with_strings [cstr name])
        (chars "pid %d %s: trap %d err %d on cpu %d eip 0x%x addr 0x%x--kill proc" ++ [10])
        (words [pid; 1; trapno; err; cpu; eip; addr])
  end.

(** ** The kernel's and the library's printing *)

(** Equal but for the case of hexadecimal digits. *)
Definition same_char (a b : Z) : Prop := a = b \/ 97 <= a <= 102 /\ b = a - 32.

Lemma same_refl l : Forall2 same_char l l.
Proof. induction l; constructor; [by left|done]. Qed.

Lemma digits_same d : 0 <= d < 16 -> same_char (nth (Z.to_nat d) Cons.digits 0) (nth (Z.to_nat d) digits 0).
Proof.
  intros Hd. assert (Forall (fun d => same_char (nth (Z.to_nat d) Cons.digits 0) (nth (Z.to_nat d) digits 0)) (seqZ 0 16)) as Hall.
  { repeat (constructor; [first [by left|right; vm_compute; intuition congruence]|]). constructor. }
  rewrite Forall_forall in Hall. apply Hall, elem_of_seqZ. lia.
Qed.

Lemma digits_loop_same room : forall x base b1 b2, 1 < base <= 16 -> 0 <= x -> Forall2 same_char b1 b2 ->
  match Cons.digits_loop room x base b1, digits_loop room x base b2 with
  | Some r1, Some r2 => Forall2 same_char r1 r2
  | None, None => True
  | _, _ => False
  end.
Proof.
  induction room as [|room IH]; intros x base b1 b2 Hb Hx Hs; [done|]. cbn [Cons.digits_loop digits_loop].
  pose proof (Z.mod_pos_bound x base ltac:(lia)) as Hm. pose proof (digits_same (x mod base) ltac:(lia)) as Hd.
  destruct (x / base =? 0); cbn [negb]; [by constructor|]. apply IH; [done|apply Z.div_pos; lia|by constructor].
Qed.

Lemma printint_same v base sgn l : 1 < base <= 16 -> Ulib.printint v base sgn = Some l ->
  exists l', Cons.printint v base sgn = Some l' /\ Forall2 same_char l' l.
Proof.
  intros Hb. unfold Ulib.printint, Cons.printint. set (x := if sgn && _ then _ else _).
  assert (Hx : 0 <= x) by (unfold x; case_match; apply u32_range).
  pose proof (digits_loop_same 16 x base [] [] Hb Hx ltac:(constructor)) as Hs. change printint_buf with 16%nat.
  destruct (Cons.digits_loop 16 x base []) as [r1|], (digits_loop 16 x base []) as [r2|]; try done.
  destruct (sgn && (s32 v <? 0)).
  - rewrite (Forall2_length _ _ _ Hs). destruct (length r2 <? 16)%nat; [|done]. intros [= <-].
    eexists. split; [done|]. constructor; [by left|done].
  - intros [= <-]. by exists r1.
Qed.

(** No conversion [%c] in the format. *)
Fixpoint no_char_conv (fmt : list Z) : bool :=
  match fmt with
  | [] => true
  | c :: fmt' =>
      if negb (c =? ch_percent) then no_char_conv fmt'
      else match fmt' with [] => true | c :: fmt' => negb (c =? 99) && no_char_conv fmt' end
  end.

Lemma cprintf_same str : forall n fmt ap, (length fmt <= n)%nat -> no_char_conv fmt = true ->
  exists l l', cprintf_loop str fmt ap = Some l /\ Ulib.printf_loop str fmt ap false = Some l' /\ Forall2 same_char l l'.
Proof.
  induction n as [|n IH]; intros [|c fmt] ap Hn Hc; cbn [length] in Hn; try lia; try (by exists [], []).
  assert (Hout : forall w w' fmt ap, (length fmt <= n)%nat -> no_char_conv fmt = true -> Forall2 same_char w w' -> exists l l',
    match cprintf_loop str fmt ap with Some l => Some (w ++ l) | None => None end = Some l /\
    match Ulib.printf_loop str fmt ap false with Some l => Some (w' ++ l) | None => None end = Some l' /\ Forall2 same_char l l').
  { intros w w' fmt' ap' Hl Hf Hw. destruct (IH fmt' ap' Hl Hf) as (l & l' & -> & -> & H). eexists _, _. split; [done|]. split; [done|].
    by apply Forall2_app. }
  cbn [cprintf_loop Ulib.printf_loop no_char_conv negb] in *. destruct (Z.eqb_spec c ch_percent) as [->|Hne]; cbn [negb] in *.
  2: { apply Hout; [lia|done|apply same_refl]. }
  destruct fmt as [|c fmt]; [by exists [], []|]. cbn [length] in Hn. apply andb_true_iff in Hc as [Hc1 Hc].
  cbn [Ulib.printf_loop negb]. rewrite (negb_true_iff (c =? 99)) in Hc1. rewrite Hc1.
  destruct (c =? 100).
  { destruct (printint_dec (ap 0%nat)) as (w & E & _). destruct (printint_same _ 10 _ _ ltac:(lia) E) as (w' & E' & Hw).
    rewrite E, E'. apply Hout; [lia|done|done]. }
  destruct ((c =? 120) || (c =? 112)).
  { destruct (printint_hex (ap 0%nat)) as (w & E & _). destruct (printint_same _ 16 _ _ ltac:(lia) E) as (w' & E' & Hw).
    rewrite E, E'. apply Hout; [lia|done|done]. }
  destruct (c =? 115); [apply Hout; [lia|done|apply same_refl]|].
  destruct (Z.eqb_spec c ch_percent) as [->|]; apply Hout; (lia || done || apply same_refl).
Qed.
