(* ===== verification/Main.v ===== *)
(** * [main.c]

    The sequence of calls with which the first processor brings up the kernel, up
    to the point where it enters the scheduler, and that of the others.  The state
    puts those of the components side by side. *)

From S2P Require Import Prelude Bytes Params Ide Boot Mp CString FsState Bio Log Fs FsInode Kalloc Vm VmMap VmSpace Spinlock Kernel Proc ProcSpec.
From S2P Require Import UserInit Ulib Trap Devices Start Segment Cprintf.

Section Main.
Context `{H : Hardware} `{C : Controller}.

(** [y_queue] and the following two are the variables of [ide.c], [y_info] those
    of [mp.c]; [y_me] is the number of the running processor ([cpu]), [y_cpu] are
    its tables, [y_idtr] the address and limit of the interrupt table it uses;
    [y_locks] the locks that
    have been initialised; [y_text] what has been printed. *)
Record system : Type := System {
  y_kernel : kernel;
  y_dev : dev;
  y_queue : option nat;
  y_qnext : gmap nat nat;
  y_havedisk1 : bool;
  y_ctl : ctl;
  y_info : machine_info;
  y_me : Z;
  y_cpu : cpu_tables;
  y_kpgdir : Z;
  y_idt : list gatedesc;
  y_idtr : option (Z * Z);
  y_devsw : devsw;
  y_locking : bool;
  y_locks : gmap string spinlock;
  y_launched : list launch;
  y_text : list Z;
  y_started : bool
}.

Definition with_kernel (x : kernel) (s : system) : system :=
  System x (y_dev s) (y_queue s) (y_qnext s) (y_havedisk1 s) (y_ctl s) (y_info s) (y_me s) (y_cpu s) (y_kpgdir s) (y_idt s) (y_idtr s) (y_devsw s)
    (y_locking s) (y_locks s) (y_launched s) (y_text s) (y_started s).
Definition with_dev (x : dev) (s : system) : system :=
  System (y_kernel s) x (y_queue s) (y_qnext s) (y_havedisk1 s) (y_ctl s) (y_info s) (y_me s) (y_cpu s) (y_kpgdir s) (y_idt s) (y_idtr s) (y_devsw s)
    (y_locking s) (y_locks s) (y_launched s) (y_text s) (y_started s).
Definition with_info (x : machine_info) (s : system) : system :=
  System (y_kernel s) (y_dev s) (y_queue s) (y_qnext s) (y_havedisk1 s) (y_ctl s) x (y_me s) (y_cpu s) (y_kpgdir s) (y_idt s) (y_idtr s) (y_devsw s)
    (y_locking s) (y_locks s) (y_launched s) (y_text s) (y_started s).
Definition with_cpu (x : cpu_tables) (s : system) : system :=
  System (y_kernel s) (y_dev s) (y_queue s) (y_qnext s) (y_havedisk1 s) (y_ctl s) (y_info s) (y_me s) x (y_kpgdir s) (y_idt s) (y_idtr s) (y_devsw s)
    (y_locking s) (y_locks s) (y_launched s) (y_text s) (y_started s).
Definition with_me (x : Z) (s : system) : system :=
  System (y_kernel s) (y_dev s) (y_queue s) (y_qnext s) (y_havedisk1 s) (y_ctl s) (y_info s) x (y_cpu s) (y_kpgdir s) (y_idt s) (y_idtr s) (y_devsw s)
    (y_locking s) (y_locks s) (y_launched s) (y_text s) (y_started s).
Definition with_kpgdir (x : Z) (s : system) : system :=
  System (y_kernel s) (y_dev s) (y_queue s) (y_qnext s) (y_havedisk1 s) (y_ctl s) (y_info s) (y_me s) (y_cpu s) x (y_idt s) (y_idtr s) (y_devsw s)
    (y_locking s) (y_locks s) (y_launched s) (y_text s) (y_started s).
Definition with_idt (x : list gatedesc) (s : system) : system :=
  System (y_kernel s) (y_dev s) (y_queue s) (y_qnext s) (y_havedisk1 s) (y_ctl s) (y_info s) (y_me s) (y_cpu s) (y_kpgdir s) x (y_idtr s) (y_devsw s)
    (y_locking s) (y_locks s) (y_launched s) (y_text s) (y_started s).
Definition with_idtr (x : option (Z * Z)) (s : system) : system :=
  System (y_kernel s) (y_dev s) (y_queue s) (y_qnext s) (y_havedisk1 s) (y_ctl s) (y_info s) (y_me s) (y_cpu s) (y_kpgdir s) (y_idt s) x (y_devsw s)
    (y_locking s) (y_locks s) (y_launched s) (y_text s) (y_started s).
Definition with_console (x : devsw) (s : system) : system :=
  System (y_kernel s) (y_dev s) (y_queue s) (y_qnext s) (y_havedisk1 s) (y_ctl s) (y_info s) (y_me s) (y_cpu s) (y_kpgdir s) (y_idt s) (y_idtr s) x
    true (y_locks s) (y_launched s) (y_text s) (y_started s).
Definition with_lock (name : string) (s : system) : system :=
  System (y_kernel s) (y_dev s) (y_queue s) (y_qnext s) (y_havedisk1 s) (y_ctl s) (y_info s) (y_me s) (y_cpu s) (y_kpgdir s) (y_idt s) (y_idtr s) (y_devsw s)
    (y_locking s) (<[name := initlock]> (y_locks s)) (y_launched s) (y_text s) (y_started s).
Definition with_text (l : list Z) (s : system) : system :=
  System (y_kernel s) (y_dev s) (y_queue s) (y_qnext s) (y_havedisk1 s) (y_ctl s) (y_info s) (y_me s) (y_cpu s) (y_kpgdir s) (y_idt s) (y_idtr s) (y_devsw s)
    (y_locking s) (y_locks s) (y_launched s) (y_text s ++ l) (y_started s).
Definition with_started (s : system) : system :=
  System (y_kernel s) (y_dev s) (y_queue s) (y_qnext s) (y_havedisk1 s) (y_ctl s) (y_info s) (y_me s) (y_cpu s) (y_kpgdir s) (y_idt s) (y_idtr s) (y_devsw s)
    (y_locking s) (y_locks s) (y_launched s) (y_text s) true.

(** The parts that components share. *)
Definition ide_of (s : system) : ide := MkIde (k_fs (y_kernel s)) (y_queue s) (y_qnext s) (y_havedisk1 s) (y_ctl s).
Definition with_ide (x : ide) (s : system) : system :=
  System (set_fs (d_k x) (y_kernel s)) (y_dev s) (idequeue x) (qnext x) (havedisk1 x) (d_ctl x) (y_info s) (y_me s) (y_cpu s) (y_kpgdir s) (y_idt s)
    (y_idtr s) (y_devsw s) (y_locking s) (y_locks s) (y_launched s) (y_text s) (y_started s).
Definition smp_of (s : system) : smp := Smp (y_dev s) (k_mem (y_kernel s)) (y_launched s).
Definition with_smp (x : smp) (s : system) : system :=
  System (set_mem (s_mem x) (y_kernel s)) (s_dev x) (y_queue s) (y_qnext s) (y_havedisk1 s) (y_ctl s) (y_info s) (y_me s) (y_cpu s) (y_kpgdir s) (y_idt s)
    (y_idtr s) (y_devsw s) (y_locking s) (y_locks s) (launched x) (y_text s) (y_started s).

(** A component's operation on its part of the state. *)
Definition lift {St A} (get : system -> St) (put : St -> system -> system) (m : M St A) : M system A := fun s =>
  match m (get s) with
  | Ok a x => Ok a (put x s)
  | Panic msg => Panic msg
  | Sleep c x => Sleep c (put x s)
  | Fuel => Fuel
  end.

Definition on_kernel {A} (m : M kernel A) : M system A := lift y_kernel with_kernel m.
Definition on_memory {A} (m : M kmem A) : M system A := on_kernel (with_mem m).
Definition on_device {A} (m : M dev A) : M system A := lift y_dev with_dev m.

Definition init_lock (name : string) : M system unit := modify (with_lock name).

(** Addresses the linker knows; the images the build embeds; [cpu_at n] and
    [idt_at], the addresses of [cpus[n].cpu] and [idt]; the entry points of
    [vectors.S]; the console's routines for the device switch; what the port 0x23
    reads; and, for the loops that wait for another processor, when they see it
    and for how long they are followed. *)
Context (kend data trapret forkret mpenter_at entrypgdir : Z) (entryother initcode : list Z) (cpu_at : Z -> Z) (idt_at : Z)
  (vectors : nat -> Z) (consoleread : nat -> Z -> M kst (Z * list Z)) (consolewrite : nat -> list Z -> Z -> M kst Z)
  (imcr : Z) (visible : nat -> nat -> bool) (fuel : nat).

Definition cprint (fmt : list Z) (n : Z) : M system unit :=
  match cprintf (fun _ => []) (Some fmt) (fun _ => n) tt with
  | Ok l _ => modify (with_text l)
  | Panic msg => panic msg
  | _ => panic "cprintf"
  end.

(** [cpu->id] *)
Definition cpu_id : M system Z := gets (fun s => nth (Z.to_nat (y_me s)) (m_ids (y_info s)) 0).

(** ** The calls *)

Definition kinit1_ : M system unit := init_lock "kmem" ;;; on_memory (kinit1 kend kend (p2v (4 * 1024 * 1024))).

Definition kvmalloc_ : M system unit :=
  let! c := gets y_cpu in
  let! r := on_memory (kvmalloc data c) in
  modify (with_kpgdir r.1) ;;;
  modify (with_cpu r.2).

(** Physical memory, as [p2v] maps it. *)
Definition physical (m : mem) : Z -> Z := fun pa => m (p2v pa).

(** The drivers see what [mpinit] found. *)
Definition found (i : machine_info) (d : dev) : dev :=
  MkDev _ (d_hw d) (trace d) (irqmask d) (uart d) (ismp i) (lapic i) (ioapicid i) (d_said d).

Definition mpinit_ : M system unit :=
  let! m := gets (fun s => km_mem (k_mem (y_kernel s))) in
  lift y_info with_info (mpinit (physical m) imcr) ;;;
  let! i := gets y_info in
  on_device (modify (found i)).

Definition seginit_ : M system unit :=
  let! n := on_device (cpunum false) in
  modify (fun s => with_cpu (seginit (cpu_at n) (y_cpu s)) s) ;;;
  modify (with_me n).

Definition CONSOLE : Z := 1.

Definition consoleinit : M system unit :=
  init_lock "console" ;;;
  init_lock "input" ;;;
  modify (fun s => with_console (Devsw (fun d => if d =? CONSOLE then Some consoleread else dev_read (y_devsw s) d)
                                  (fun d => if d =? CONSOLE then Some consolewrite else Fs.dev_write (y_devsw s) d)) s) ;;;
  on_device (picenable IRQ_KBD ;;; ioapicenable IRQ_KBD 0).

Definition pinit : M system unit := init_lock "ptable".
Definition fileinit : M system unit := init_lock "ftable".
Definition iinit : M system unit := init_lock "icache".
Definition binit_ : M system unit := init_lock "bcache" ;;; on_kernel (with_fs binit).

Definition tvinit_ : M system unit :=
  modify (fun s => with_idt (tvinit vectors (y_idt s)) s) ;;;
  init_lock "time".

Definition ideinit_ : M system unit :=
  init_lock "ide" ;;;
  let! i := gets y_info in
  on_device (picenable IRQ_IDE ;;; ioapicenable IRQ_IDE (Z.of_nat (ncpu i) - 1)) ;;;
  lift ide_of with_ide ideinit.

Definition startothers_ : M system unit :=
  let! i := gets y_info in
  lift smp_of with_smp (startothers (m_ids i) mpenter_at entrypgdir entryother visible fuel (ncpu i)).

Definition userinit_ : M system unit :=
  let! dv := gets y_devsw in
  on_kernel (userinit data trapret forkret dv initcode).

(** [lidt(idt, sizeof(idt));] *)
Definition idtinit : M system unit := modify (with_idtr (Some (idt_at, 256 * 8 - 1))).

(** Common CPU setup code, up to the call of [scheduler]. *)
Definition mpmain : M system unit :=
  let! id := cpu_id in
  cprint (chars "cpu%d: starting" ++ [10]) id ;;;
  idtinit ;;;
  modify with_started.

(** Other CPUs jump here from [entryother.S]. *)
Definition mpenter : M system unit :=
  let! d := gets y_kpgdir in
  lift y_cpu with_cpu (switchkvm d) ;;;
  seginit_ ;;;
  on_device (lapicinit fuel) ;;;
  mpmain.

Definition main : M system unit :=
  kinit1_ ;;;
  kvmalloc_ ;;;
  mpinit_ ;;;
  on_device (lapicinit fuel) ;;;
  seginit_ ;;;
  let! id := cpu_id in
  cprint ([10] ++ chars "cpu%d: starting xv6" ++ [10; 10]) id ;;;
  on_device picinit ;;;
  on_device ioapicinit ;;;
  consoleinit ;;;
  on_device uartinit ;;;
  pinit ;;;
  tvinit_ ;;;
  binit_ ;;;
  fileinit ;;;
  iinit ;;;
  ideinit_ ;;;
  let! i := gets y_info in
  (if negb (ismp i) then on_device timerinit else ret tt) ;;;
  startothers_ ;;;
  on_memory (kinit2 kend (p2v (4 * 1024 * 1024)) (p2v PHYSTOP)) ;;;
  userinit_ ;;;
  mpmain.
End Main.
