(* ===== verification/MainSpec.v ===== *)
(** * What the calls of [main] do

    The drivers' calls leave the rest of the kernel alone; [main] arrives at the
    scheduler with memory, tables, processors and the first process ready. *)

From S2P Require Import Prelude Bytes Params Ide Boot Mp CString FsState Bio Log Fs FsInode Kalloc Vm VmMap VmSpace Spinlock Kernel Proc ProcSpec.
From S2P Require Import UserInit Ulib Trap Devices Start Segment Cprintf Main.

(** ** Devices *)

Section Harmless.
Context `{H : Hardware}.

(** The operation returns, and what [mpinit] found stays. *)
Definition same_machine (d d' : dev) : Prop := d_lapic d' = d_lapic d /\ d_ismp d' = d_ismp d.
Definition harmless {A} (m : M dev A) : Prop := forall d, wp m (fun _ d' => same_machine d d') d.

Lemma harmless_bind {A B} (m : M dev A) (f : A -> M dev B) : harmless m -> (forall a, harmless (f a)) -> harmless (bind m f).
Proof.
  intros Hm Hf d. apply wp_bind. eapply wp_mono; [apply Hm|]. intros a d1 [A1 A2]. eapply wp_mono; [apply Hf|].
  intros b d2 [B1 B2]. split; congruence.
Qed.

Lemma harmless_ret {A} (a : A) : harmless (ret a).
Proof. intros d. by apply wp_ret. Qed.

Lemma harmless_modify f : (forall d, same_machine d (f d)) -> harmless (modify f).
Proof. intros Hf d. by apply wp_modify. Qed.

Lemma harmless_gets {A} (f : dev -> A) : harmless (gets f).
Proof. intros d. by apply wp_gets. Qed.

Lemma harmless_read f : harmless (read f).
Proof. intros d. unfold read. apply wp_bind, wp_gets. destruct (f (d_hw d)) as [v h]. by apply wp_bind, wp_modify, wp_ret. Qed.

Lemma harmless_for {A} (l : list A) (f : A -> M dev unit) : (forall x, harmless (f x)) -> harmless (for_ l f).
Proof.
  intros Hf. induction l as [|x l IH]; [apply harmless_ret|]. cbn [for_]. apply harmless_bind; [apply Hf|done].
Qed.

Lemma harmless_wait n : harmless (uart_wait n).
Proof.
  induction n as [|n IH]; cbn [uart_wait]; [apply harmless_ret|]. apply harmless_bind; [apply harmless_read|].
  intros v. destruct (negb _); [exact IH|apply harmless_ret].
Qed.
End Harmless.

Create HintDb harmless.
#[export] Hint Resolve harmless_ret harmless_gets harmless_read harmless_wait : harmless.
#[export] Hint Extern 1 (harmless (bind _ _)) => apply harmless_bind; [|intros ?] : harmless.
#[export] Hint Extern 1 (harmless (modify _)) => apply harmless_modify; intros ?; split; reflexivity : harmless.
#[export] Hint Extern 1 (harmless (for_ _ _)) => apply harmless_for; intros ? : harmless.
#[export] Hint Extern 2 (harmless (if ?b then _ else _)) => destruct b : harmless.

Section Drivers.
Context `{H : Hardware}.

Lemma harmless_outb p v : harmless (outb p v).
Proof. unfold outb, write. auto with harmless. Qed.
Lemma harmless_lapicw r v : harmless (lapicw r v).
Proof. unfold lapicw, write, lapicr. auto with harmless. Qed.
Lemma harmless_ioapicwrite r v : harmless (ioapicwrite r v).
Proof. unfold ioapicwrite, write. auto with harmless. Qed.
#[local] Hint Resolve harmless_outb harmless_lapicw harmless_ioapicwrite : harmless.

Lemma harmless_picenable irq : harmless (picenable irq).
Proof. unfold picenable, picsetmask. auto 10 with harmless. Qed.
Lemma harmless_ioapicenable irq n : harmless (ioapicenable irq n).
Proof. unfold ioapicenable. auto 10 with harmless. Qed.
#[local] Hint Resolve harmless_picenable harmless_ioapicenable : harmless.

Lemma harmless_picinit : harmless picinit.
Proof. unfold picinit, picsetmask. auto 40 with harmless. Qed.
Lemma harmless_ioapicinit : harmless ioapicinit.
Proof. unfold ioapicinit, ioapicread. auto 20 with harmless. Qed.
Lemma harmless_timerinit : harmless timerinit.
Proof. unfold timerinit. auto 20 with harmless. Qed.
Lemma harmless_uartputc c : harmless (uartputc c).
Proof. unfold uartputc. auto 20 with harmless. Qed.
#[local] Hint Resolve harmless_uartputc : harmless.
Lemma harmless_uartinit : harmless uartinit.
Proof. unfold uartinit, inb. auto 40 with harmless. Qed.
Lemma harmless_cpunum : harmless (cpunum false).
Proof. unfold cpunum, lapicr. auto 20 with harmless. Qed.

(** The interrupt that resets the other processors is delivered at once. *)
Lemma harmless_lapicinit fuel : (forall h, has (hw_lapic ICRLO h).1 DELIVS = false) -> (0 < fuel)%nat -> harmless (lapicinit fuel).
Proof.
  intros Hd Hf. assert (harmless (delivery_wait fuel)).
  { intros d. destruct fuel as [|f]; [lia|]. cbn [delivery_wait]. unfold lapicr, read. apply wp_bind, wp_bind, wp_gets.
    specialize (Hd (d_hw d)). destruct (hw_lapic ICRLO (d_hw d)) as [v h]. cbn in Hd. apply wp_bind, wp_modify, wp_ret. rewrite Hd. by apply wp_ret. }
  unfold lapicinit, lapicr. auto 40 with harmless.
Qed.
End Drivers.

(** ** Memory *)

Lemma kfree_frame kend v k k' : kfree kend v k = Ok tt k' -> forall x, ~ v <= x < v + PGSIZE -> km_mem k' x = km_mem k x.
Proof.
  unfold kfree, bind, modify. destruct (_ || _ || _); [done|]. intros [= <-] x Hx. cbn [km_mem].
  rewrite store32_other by (unfold PGSIZE in *; lia). rewrite memset_spec by done. unfold filled. zcmp.
Qed.

(** [freerange] writes only to the pages it frees. *)
Lemma freerange_frame kend vstart vend k k' : freerange kend vstart vend k = Ok tt k' -> 0 <= vstart <= 2 ^ 32 - PGSIZE ->
  forall x, x < vstart \/ vend <= x -> km_mem k' x = km_mem k x.
Proof.
  intros E Hv x Hx. unfold freerange in E. destruct (PGROUNDUP_spec vstart ltac:(unfold PGSIZE in *; lia)) as [[Hge _] _].
  assert (P : forall p, p ∈ pages (PGROUNDUP vstart) vend (Z.to_nat (vend / PGSIZE)) -> vstart <= p /\ p + PGSIZE <= vend).
  { intros p (i & _ & -> & Hp)%pages_spec. unfold PGSIZE in *. lia. }
  revert k E P. generalize (pages (PGROUNDUP vstart) vend (Z.to_nat (vend / PGSIZE))) as ps. induction ps as [|p ps IH]; intros k E P.
  - by injection E as <-.
  - cbn [for_] in E. unfold bind in E. destruct (kfree kend p k) as [[] k1| | |] eqn:E1; try done.
    rewrite (IH k1 E) by (intros q Hq; apply P; by right). apply (kfree_frame _ _ _ _ E1). destruct (P p ltac:(by left)). lia.
Qed.

(** Enough pages between two addresses. *)
Lemma page_count (l : list Z) a b n : a mod PGSIZE = 0 -> a + Z.of_nat n * PGSIZE <= b ->
  (forall x, x mod PGSIZE = 0 -> a <= x -> x + PGSIZE <= b -> x ∈ l) -> (n <= length l)%nat.
Proof.
  intros Ha Hb Hl. set (ps := (fun i : nat => a + Z.of_nat i * PGSIZE) <$> seq 0 n).
  transitivity (length ps); [unfold ps; rewrite length_fmap, length_seq; reflexivity|].
  apply submseteq_length, NoDup_submseteq.
  - unfold ps. apply NoDup_fmap_2, NoDup_seq. intros i j E. unfold PGSIZE in E. clear ps. lia.
  - intros x (i & -> & Hi%elem_of_seq)%list_elem_of_fmap. unfold PGSIZE in *. apply Hl; [by rewrite Z.mod_add|lia|nia].
Qed.

Definition four_mb : Z := KERNBASE + 4 * 1024 * 1024.

Section Memory.
Context (kend data : Z).
Hypothesis (Hkend : KERNBASE < kend <= KERNBASE + 3 * 1024 * 1024) (Hdata : data_ok data).

(** The first memory: the pages between the kernel and 4 MB. *)
Lemma kinit1_spec k : freelist k = 0 -> exists k1 l1, kinit1 kend kend four_mb k = Ok tt k1 /\ kmem_ok kend k1 l1 /\ (256 <= length l1)%nat /\
  (forall x, x ∈ l1 -> x + PGSIZE <= four_mb) /\ forall x, x < kend -> km_mem k1 x = km_mem k x.
Proof.
  intros Hf. assert (PGSIZE = 4096 /\ KERNBASE = 2147483648 /\ PHYSTOP = 234881024 /\ four_mb = 2151677952) as (EP & EK & ES & E4) by done.
  destruct (freerange_spec kend (Kmem (km_mem k) 0 (freelist k)) [] kend four_mb) as (k1 & l1 & E & Hk & _ & Hl); try lia.
  { split; [exact Hf|constructor|constructor]. }
  { by intros x Hx%elem_of_nil. }
  rewrite app_nil_r in Hk. exists k1, l1. split; [done|]. split; [done|]. split; [|split].
  - apply (page_count l1 (KERNBASE + 3 * 1024 * 1024) four_mb 256); [done|lia|]. intros x X1 X2 X3. apply Hl. split; [done|]. lia.
  - intros x Hx. by apply Hl in Hx as (_ & _ & ?).
  - intros x Hx. by apply (freerange_frame kend kend four_mb _ k1 E ltac:(lia) x (or_introl Hx)).
Qed.

(** The kernel's page table [d] with the tables [T], in pages that are not free. *)
Record kernel_space (m : mem) (l : list Z) (d : Z) (T : gmap Z Z) : Prop := {
  ks_space : space kend m d T;
  ks_entry : forall j, vpage j -> entry m T j = kernel_map data j;
  ks_own : forall p, owns_page d T p -> (p ∉ l) /\ p + PGSIZE <= four_mb
}.

Lemma kernel_space_ext m m' l l' d T : kernel_space m l d T -> (forall p, p ∈ l' -> p ∈ l \/ four_mb <= p) ->
  (forall p x, page_ok kend p -> p ∉ l -> p + PGSIZE <= four_mb -> in_page p x -> m' x = m x) -> kernel_space m' l' d T.
Proof.
  intros [Hs He Ho] Hl Hm. destruct (space_ext kend m m' d T) as [Hs' He']; [|done|].
  { intros p x Hp Hx. destruct (Ho p Hp). apply (Hm p); try done. by eapply owned_ok. }
  split; [done|intros j Hj; rewrite He' by done; by apply He|].
  intros p Hp. destruct (Ho p Hp) as [O1 O2]. split; [|done]. intros [?|?]%Hl; [done|]. unfold PGSIZE in *. lia.
Qed.

Lemma kvmalloc_spec k l c : kmem_ok kend k l -> (65 < length l)%nat -> (forall x, x ∈ l -> x + PGSIZE <= four_mb) ->
  exists d k' l' T, kvmalloc data c k = Ok (d, CpuTables (gdt c) (ts_esp0 c) (ts_ss0 c) (gdtr_limit c) (gs c) (tr c) (v2p d)) k' /\
    kmem_ok kend k' l' /\ (length l <= length l' + 65)%nat /\ (forall x, x ∈ l' -> x ∈ l) /\ kernel_space (km_mem k') l' d T /\
    forall x, x < kend -> km_mem k' x = km_mem k x.
Proof.
  intros Hk Hl Hlow. destruct (wp_run _ _ _ (setupkvm_tight kend data ltac:(lia) k l Hk Hdata Hl)) as (d & k' & E & Hd & xs & l' & T & B & EL & Hsz & He).
  pose proof (bt_list _ _ _ _ _ _ _ _ _ B) as El. destruct (bt_ok _ _ _ _ _ _ _ _ _ B) as [Hk' Hs Ha].
  exists d, k', l', T. unfold kvmalloc, bind. rewrite E. split; [done|]. split; [done|]. split; [lia|].
  split; [intros x Hx; rewrite El, elem_of_app; by right|]. split.
  - split; [done|done|]. intros p Hp. split; [by apply Ha|]. apply Hlow. rewrite El, elem_of_app. left.
    by destruct (bt_own _ _ _ _ _ _ _ _ _ B p Hp).
  - intros x Hx. apply (bt_mem _ _ _ _ _ _ _ _ _ B). intros p [[]|Hp] Hx'.
    assert (page_ok kend p) as (_ & ? & _) by (destruct Hk as [_ Hf _]; rewrite Forall_forall in Hf; apply Hf; rewrite El, elem_of_app; by left).
    unfold in_page in Hx'. lia.
Qed.

(** The rest of the memory. *)
Lemma kinit2_spec k l : kmem_ok kend k l -> (forall x, x ∈ l -> x + PGSIZE <= four_mb) ->
  exists k' l', kinit2 kend four_mb (KERNBASE + PHYSTOP) k = Ok tt k' /\ kmem_ok kend k' (l' ++ l) /\ (4000 <= length l')%nat /\
    (forall x, x ∈ l' -> four_mb <= x) /\ forall x, x < four_mb -> km_mem k' x = km_mem k x.
Proof.
  intros Hk Hl. assert (PGSIZE = 4096 /\ KERNBASE = 2147483648 /\ PHYSTOP = 234881024 /\ four_mb = 2151677952) as (EP & EK & ES & E4) by done.
  destruct (freerange_spec kend k l four_mb (KERNBASE + PHYSTOP)) as (k1 & l1 & E & Hk1 & _ & Hl1); try done; try lia.
  { intros x Hx. left. specialize (Hl x Hx). lia. }
  unfold kinit2, bind. rewrite E. exists (Kmem (km_mem k1) 1 (freelist k1)), l1. split; [done|].
  split; [by destruct Hk1 as [? ? ?]; split|]. split; [|split].
  - apply (page_count l1 four_mb (KERNBASE + PHYSTOP) 4000); [done|lia|]. intros x X1 X2 X3. apply Hl1. split; [done|]. lia.
  - intros x Hx. by apply Hl1 in Hx as (_ & ? & _).
  - intros x Hx. by apply (freerange_frame kend four_mb _ _ k1 E ltac:(lia) x (or_introl Hx)).
Qed.
End Memory.

(** ** The calls of the drivers *)

Section Calls.
Context `{H : Hardware} `{C : Controller}.

Lemma wp_lift {St A} (get : system -> St) put (m : M St A) Q s :
  wp m (fun a x => Q a (put x s)) (get s) -> wp (lift get put m) Q s.
Proof. unfold wp, lift. by destruct (m (get s)). Qed.

(** What stays between the first calls and [startothers], and what the calls
    made so far have set up. *)
Record booting (k0 : kmem) (i : machine_info) (d me : Z) (cpu : cpu_tables) (idt : list gatedesc) (L : list string) (s : system) : Prop := {
  bo_mem : k_mem (y_kernel s) = k0;
  bo_table : k_ptable (y_kernel s) = replicate NPROC zero_proc;
  bo_pid : k_nextpid (y_kernel s) = 1;
  bo_icache : icache (k_fs (y_kernel s)) = replicate NINODE zero_inode;
  bo_info : y_info s = i;
  bo_dev : d_lapic (y_dev s) = lapic i /\ d_ismp (y_dev s) = ismp i;
  bo_kpgdir : y_kpgdir s = d;
  bo_me : y_me s = me;
  bo_cpu : y_cpu s = cpu;
  bo_idt : y_idt s = idt;
  bo_locks : forall n, n ∈ L -> y_locks s !! n = Some initlock;
  bo_launched : y_launched s = []
}.

Section Steps.
Context (k0 : kmem) (i : machine_info) (d me : Z) (cpu : cpu_tables) (idt : list gatedesc) (L : list string) (s : system).
#[local] Abbreviation boots := (booting k0 i d me cpu idt).

Lemma step_lock n : boots L s -> wp (init_lock n) (fun _ => boots (n :: L)) s.
Proof.
  intros []. apply wp_modify. split; try done. intros n' Hn'. cbn [y_locks with_lock].
  destruct (decide (n = n')) as [->|Hne]; [by rewrite lookup_insert_eq|]. rewrite lookup_insert_ne by done.
  apply elem_of_cons in Hn' as [->|Hn']; [done|]. by apply bo_locks0.
Qed.

Lemma step_dev (m : M dev unit) : harmless m -> boots L s -> wp (on_device m) (fun _ => boots L) s.
Proof.
  intros Hm []. apply wp_lift. eapply wp_mono; [apply Hm|]. intros [] d' [D1 D2]. split; try done.
  cbn [y_dev with_dev]. destruct bo_dev0. split; congruence.
Qed.

Lemma step_print fmt n : boots L s -> (exists l, cprintf_loop (fun _ => []) fmt (fun _ => n) = Some l) -> wp (cprint fmt n) (fun _ => boots L) s.
Proof. intros [] [l E]. unfold cprint, cprintf. rewrite E. apply wp_modify. by split. Qed.
End Steps.

Section Drivers.
Context (k0 : kmem) (i : machine_info) (d me : Z) (cpu : cpu_tables) (idt : list gatedesc) (L : list string) (s : system).
#[local] Abbreviation boots := (booting k0 i d me cpu idt).

Lemma binit_keeps f : wp binit (fun _ f' => icache f' = icache f /\ FsState.wakeups f' = FsState.wakeups f) f.
Proof.
  unfold binit. apply wp_bind, wp_modify, wp_bind, wp_modify.
  eapply wp_mono; [apply (wp_for (fun _ f' => icache f' = icache f /\ FsState.wakeups f' = FsState.wakeups f))|by intros [] f'].
  - done.
  - intros k b f' _ [I1 I2]. apply wp_bind, wp_gets. do 3 apply wp_bind, wp_modify. apply wp_bind, wp_gets. apply wp_bind, wp_modify, wp_modify. done.
Qed.

Lemma step_binit : boots L s -> wp binit_ (fun _ => boots ("bcache" :: L)) s.
Proof.
  intros Hb. unfold binit_. apply wp_bind. eapply wp_mono; [by apply step_lock|]. clear Hb. intros [] s1 []. apply wp_lift, wp_with_fs.
  eapply wp_mono; [apply binit_keeps|]. intros [] f' [I1 I2]. rewrite I2. split; try done. cbn. by rewrite I1.
Qed.

Lemma probe_keeps n x : wp (probe n) (fun _ x' => d_k x' = d_k x) x.
Proof.
  revert x. induction n as [|n IH]; intros x; cbn [probe]; [by apply wp_ret|]. apply wp_bind, wp_gets.
  destruct (inb_status (d_ctl x)) as [r c]. apply wp_bind, wp_modify. destruct (negb _); [by apply wp_ret|]. apply (IH (set_ctl c x)).
Qed.

Lemma ideinit_keeps x : wp ideinit (fun _ x' => d_k x' = d_k x) x.
Proof.
  unfold ideinit. apply wp_bind. eapply wp_mono; [apply idewait_spec|]. intros r x1 [(c & -> & _) _].
  unfold port. apply wp_bind, wp_modify. apply wp_bind. eapply wp_mono; [apply probe_keeps|]. intros b x2 E. apply wp_bind, wp_modify, wp_modify.
  exact E.
Qed.

Lemma step_ideinit : boots L s -> wp ideinit_ (fun _ => boots ("ide" :: L)) s.
Proof.
  intros Hb. unfold ideinit_. apply wp_bind. eapply wp_mono; [by apply step_lock|]. clear Hb. intros [] s1 Hb. apply wp_bind, wp_gets. apply wp_bind.
  eapply wp_mono; [apply (step_dev k0 i d me cpu idt ("ide" :: L) s1); [|exact Hb]|].
  { apply harmless_bind; [apply harmless_picenable|intros; apply harmless_ioapicenable]. }
  clear Hb. intros [] s2 []. apply wp_lift. eapply wp_mono; [apply ideinit_keeps|]. intros [] x E. change (d_k (ide_of s2)) with (k_fs (y_kernel s2)) in E.
  split; try done. cbn. by rewrite E.
Qed.

Lemma step_seginit cpu_at n : is_cpu n (lapic i) -> boots L s ->
  wp (seginit_ cpu_at) (fun _ => booting k0 i d (Z.of_nat n) (seginit (cpu_at (Z.of_nat n)) cpu) idt L) s.
Proof.
  intros Hn []. unfold seginit_. apply wp_bind, wp_lift. destruct bo_dev0 as [D1 D2].
  eapply wp_mono; [apply (cpunum_spec n); by rewrite D1|]. intros r d' [-> (_ & _ & _ & E1 & E2 & _)]. apply wp_bind, wp_modify, wp_modify.
  split; try done; cbn; [split; congruence|by rewrite bo_cpu0].
Qed.

Lemma step_tvinit vectors : boots L s -> wp (tvinit_ vectors) (fun _ => booting k0 i d me cpu (tvinit vectors idt) ("time" :: L)) s.
Proof.
  intros []. unfold tvinit_. apply wp_bind, wp_modify. apply step_lock. split; try done. cbn. by rewrite bo_idt0.
Qed.

Lemma step_consoleinit rd wr : boots L s -> wp (consoleinit rd wr) (fun _ => boots ("input" :: "console" :: L)) s.
Proof.
  intros Hb. unfold consoleinit. apply wp_bind. eapply wp_mono; [by apply step_lock|]. clear Hb. intros [] s1 Hb. apply wp_bind.
  eapply wp_mono; [by apply step_lock|]. clear Hb. intros [] s2 []. apply wp_bind, wp_modify. apply step_dev; [|by split].
  apply harmless_bind; [apply harmless_picenable|intros; apply harmless_ioapicenable].
Qed.
End Drivers.

(** The messages of [main] and [mpmain] can always be printed. *)
Lemma decimal_printed n : exists l, Cons.printint n 10 true = Some l.
Proof.
  destruct (Ulib.printint_dec n) as (w & E & _). destruct (printint_same n 10 true _ ltac:(lia) E) as (l & El & _). by exists l.
Qed.

Lemma greeting_printed n : (exists l, cprintf_loop (fun _ => []) ([10] ++ chars "cpu%d: starting xv6" ++ [10; 10]) (fun _ => n) = Some l) /\
  exists l, cprintf_loop (fun _ => []) (chars "cpu%d: starting" ++ [10]) (fun _ => n) = Some l.
Proof.
  destruct (decimal_printed n) as [w Hw].
  split; match goal with |- context [cprintf_loop _ ?f _] => let l := eval vm_compute in f in change f with l end;
    cbn [cprintf_loop Z.eqb Pos.eqb negb ch_percent]; rewrite Hw; by eexists.
Qed.

Lemma mpmain_spec idt_at s : wp (mpmain idt_at) (fun _ s' => exists l, s' = with_started (with_idtr (Some (idt_at, 2047)) (with_text l s))) s.
Proof.
  unfold mpmain. apply wp_bind, wp_gets. apply wp_bind. unfold cprint, cprintf.
  match goal with |- context [cprintf_loop _ _ (fun _ => ?z)] => destruct (proj2 (greeting_printed z)) as [l ->] end.
  apply wp_modify. apply wp_bind. unfold idtinit. apply wp_modify, wp_modify. by exists l.
Qed.
End Calls.

(** One call of a driver from [main]. *)
Ltac boot_step tac :=
  apply wp_bind; eapply wp_mono; [tac; eassumption|cbn beta];
  match goal with Hb : booting _ _ _ _ _ _ _ ?s |- _ => clear Hb; clear s end; intros [] ?s ?Hb.
