(* ===== verification/DeviceProps.v ===== *)
(** * What the device drivers guarantee

    The theorems about the interrupt controllers, the serial port and the clock,
    with instances on concrete hardware. *)

From S2P Require Import Prelude Bytes Params Kalloc Vm Proc UserInit Trap Ulib Devices Start Segment Console Cprintf.

(** ** Protection *)

(** C20: A program enters the kernel only where the kernel lets it.  After
    [seginit], [tvinit] and the switch to a process, [int n] from user mode is
    allowed for the system call gate and for no other; every gate, from user or
    kernel mode, leads to its own entry point at level 0, with interrupts off but
    for system calls; the stack the processor then takes is the top of the
    process's kernel stack in a level-0 segment; and no kernel segment can be
    loaded at user level. *)
Theorem gates_protect_kernel vectors idt c local ts kstack pgdir :
  length idt = 256%nat -> length (gdt c) = NSEGS -> (forall i, (i < 256)%nat -> 0 <= vectors i < 2 ^ 32) -> pgdir <> 0 ->
  exists c', switchuvm ts kstack pgdir (seginit local c) = Ok tt c' /\
    (forall i, (i < 256)%nat -> exists g, tvinit vectors idt !! i = Some g /\
       may_call DPL_USER g = bool_decide (i = Z.to_nat T_SYSCALL) /\
       forall cpl, 0 <= cpl -> enter (gdt c') cpl g = Some (0, vectors i, bool_decide (i = Z.to_nat T_SYSCALL))) /\
    (exists d, gdt c' !! Z.to_nat (Z.shiftr (ts_ss0 c') 3) = Some d /\ sd_dpl d = 0 /\ has (sd_type d) STA_W = true) /\
    ts_esp0 c' = u32 (kstack + KSTACKSIZE) /\ cr3 c' = v2p pgdir /\
    (forall j d, j ∈ [SEG_KCODE; SEG_KDATA; SEG_KCPU; SEG_TSS] -> gdt c' !! Z.to_nat j = Some d -> may_load DPL_USER d = false).
Proof.
  intros Hidt Hgdt Hvec Hpg. unfold switchuvm, bind, modify. rewrite (proj2 (Z.eqb_neq _ _) Hpg).
  eexists. split; [reflexivity|]. cbn [gdt ts_ss0 ts_esp0 cr3].
  destruct (gdt c) as [|d0 [|d1 [|d2 [|d3 [|d4 [|d5 [|d6 [|]]]]]]]] eqn:Eg; try done.
  unfold seginit, set_seg. cbn [gdt]. rewrite Eg.
  match goal with |- context [enter ?t _ _] => set (tab := t) end.
  assert (H1 : tab !! 1%nat = Some (SEG (Z.lor STA_X STA_R) 0 0xffffffff 0)) by reflexivity.
  split; [|split; [|split; [done|split; [done|]]]].
  - intros i Hi. rewrite tvinit_lookup by done. eexists. split; [reflexivity|]. split; [by case_bool_decide|].
    intros cpl Hcpl. apply (SETGATE_enter _ _ _ _ _ _ H1); try done. by apply Hvec.
  - eexists. split; [reflexivity|]. done.
  - intros j d Hj. rewrite !elem_of_cons, elem_of_nil in Hj. destruct Hj as [-> | [-> | [-> | [-> | []]]]]; intros [= <-]; reflexivity.
Qed.

Lemma gates_protect_kernel_witness : exists c', switchuvm 0x80110000 0x8dfff000 0x8dffe000 (seginit 0x80100000 (CpuTables (replicate 7 zero_seg) 0 0 0 0 0 0)) = Ok tt c' /\
  ts_esp0 c' = 0x8e000000.
Proof.
  destruct (gates_protect_kernel (fun i => 0x80106000 + 10 * Z.of_nat i) (replicate 256 zero_gate)
    (CpuTables (replicate 7 zero_seg) 0 0 0 0 0 0) 0x80100000 0x80110000 0x8dfff000 0x8dffe000) as (c' & E & _ & _ & H & _).
  - reflexivity.
  - reflexivity.
  - intros i Hi. lia.
  - lia.
  - exists c'. split; [exact E|]. rewrite H. reflexivity.
Defined.

(** ** Messages *)

(** The kernel's [cprintf] prints, for every format without [%c] and all
    arguments, what the library's [printf] prints, but for the case of
    hexadecimal digits; in particular the 16 characters of its number buffer
    always suffice. *)
Theorem cprintf_like_printf str fmt ap : no_char_conv fmt = true ->
  exists l l', cprintf str (Some fmt) ap tt = Ok l tt /\ Ulib.printf str fmt ap = Some l' /\ Forall2 same_char l l'.
Proof.
  intros Hc. destruct (cprintf_same str (length fmt) fmt ap ltac:(lia) Hc) as (l & l' & E & E' & H).
  exists l, l'. unfold cprintf. rewrite E. by split_and!.
Qed.

Lemma cprintf_like_printf_witness : exists l l', cprintf (fun _ => []) (Some (chars "eip 0x%x %d")) (words [0xbeef; - 7]) tt = Ok l tt /\
  Ulib.printf (fun _ => []) (chars "eip 0x%x %d") (words [0xbeef; - 7]) = Some l' /\ Forall2 same_char l l' /\ l = chars "eip 0xbeef -7".
Proof.
  destruct (cprintf_like_printf (fun _ => []) (chars "eip 0x%x %d") (words [0xbeef; - 7])) as (l & l' & E & E' & H); [reflexivity|].
  exists l, l'. split; [done|]. split; [done|]. split; [done|]. vm_compute in E. injection E as <-. reflexivity.
Defined.

(** ** Interrupts and the clock *)

(** C32: Interrupts reach the processors they are meant for.  After the two
    interrupt controllers are initialised and the drivers have enabled their
    interrupts, the 8259s mask exactly the lines nobody enabled (but not the
    cascade), and each line of the I/O APIC is either disabled or, once enabled,
    delivered as its own vector to the processor it was last enabled for. *)
Theorem irqs_routed `{H : Hardware} s maxintr irqs :
  irqmask s = irqmask_init -> d_ismp s = true ->
  (forall h, Z.land (Z.shiftr (hw_ioapic REG_VER h).1 16) 0xFF = maxintr) -> Forall (fun p => 0 <= p.1) irqs ->
  wp (picinit ;;; ioapicinit ;;; for_ irqs enable) (fun _ s' =>
    (exists m, pic_mask (trace s') = Some m /\
       forall i, 0 <= i < 16 -> Z.testbit m i = negb (bool_decide (i = IRQ_SLAVE \/ i ∈ irqs.*1))) /\
    forall i, 0 <= i <= maxintr -> redirection i (trace s') = Some (match routed irqs i with
      | Some cpu => (u32 (T_IRQ0 + i), u32 (Z.shiftl cpu 24))
      | None => (u32 (Z.lor INT_DISABLED (T_IRQ0 + i)), 0)
      end)) s.
Proof.
  intros Hm Hmp Hmax Hirqs. apply wp_bind. eapply wp_mono; [by apply picinit_spec|]. intros _ s1 (A1 & A2 & A3).
  apply wp_bind. eapply wp_mono; [apply (ioapicinit_spec s1 maxintr); [congruence|done]|]. intros _ s2 (B1 & B2 & B3 & B4).
  eapply wp_mono; [apply (wp_for (fun k s' => enabled maxintr (take k irqs) s'))|].
  - split; [|split; [done|exact B4]]. exists irqmask_init. split; [congruence|]. split; [done|]. split; [congruence|].
    intros i Hi. cbn [take fmap list_fmap].
    assert (forallb (fun i => Bool.eqb (Z.testbit irqmask_init i) (negb (bool_decide (i = IRQ_SLAVE \/ i ∈ @nil Z)))) (seqZ 0 16) = true)
      as Hall by (vm_compute; reflexivity).
    rewrite forallb_forall in Hall. apply eqb_prop, Hall, list_elem_of_In, elem_of_seqZ. lia.
  - intros k p s' Hk He. rewrite (take_S_r _ _ _ Hk). apply enable_spec; [|done].
    rewrite Forall_lookup in Hirqs. by apply (Hirqs k p).
  - intros _ s' ((m & _ & _ & C1 & C2) & _ & C3). rewrite firstn_all in C2, C3. split; [by exists m|done].
Qed.

(** C36: [cmostime] returns, and what it returns is the date and time at one
    moment of its run, never a mixture of two, in binary whatever form the clock
    keeps it in. *)
Theorem cmostime_reads_clock `{R : RealTimeClock} s :
  exists fuel0, forall fuel, (fuel0 <= fuel)%nat -> exists d s' t,
    cmostime fuel s = Ok d s' /\ (now (d_hw s) <= t)%nat /\
    d = Rtc (second (date t)) (minute (date t)) (hour (date t)) (day (date t)) (month (date t)) (year (date t) + 2000).
Proof.
  destruct (rtc_calm (S (now (d_hw s)))) as (T & HT & Hcalm). exists (S T). intros fuel Hf.
  assert (W : wp (cmostime fuel) (fun d _ => exists t, (now (d_hw s) <= t)%nat /\
    d = Rtc (second (date t)) (minute (date t)) (hour (date t)) (day (date t)) (month (date t)) (year (date t) + 2000)) s).
  { unfold cmostime. apply wp_bind. eapply wp_mono; [by apply cmos_read_spec|]. intros sb s1 [-> T1].
    apply wp_bind. eapply wp_mono; [apply (cmos_loop_spec T Hcalm); lia|]. intros d s2 (t & Ht & ->). apply wp_ret.
    exists t. split; [lia|]. pose proof (rtc_mode (now (d_hw s))) as Hmode. unfold has in Hmode.
    assert (Hr : forall reg, reg ∈ rtc_regs -> 0 <= field (date t) reg < 100) by apply rtc_range.
    assert (Hy : u32 (year (date t) + 2000) = year (date t) + 2000).
    { pose proof (Hr YEAR ltac:(unfold rtc_regs; set_solver)) as Hy. cbn in Hy. apply u32_small. lia. }
    unfold shown, rtc_encode. destruct (Z.land _ _ =? 0); cbn [negb] in Hmode; rewrite <-Hmode; cbn [second minute hour day month year].
    - rewrite !CONV_encode, Hy; try done;
        [apply (Hr YEAR)|apply (Hr MONTH)|apply (Hr DAY)|apply (Hr HOURS)|apply (Hr MINS)|apply (Hr SECS)]; unfold rtc_regs; set_solver.
    - by rewrite Hy. }
  destruct (wp_run _ _ _ W) as (d & s' & E & t & H1 & H2). by exists d, s', t.
Qed.

(** A clock in BCD mode that passes midnight, on a machine with one I/O APIC of
    24 lines. *)
Definition demo_date (t : nat) : rtcdate := if (t <? 10)%nat then Rtc 59 59 23 31 12 15 else Rtc 0 0 0 1 1 16.

Definition demo_cmos (t : nat) (reg : Z) : Z :=
  if reg =? CMOS_STATA then if ((4 <=? t) && (t <? 10))%nat then CMOS_UIP else 0
  else if reg =? CMOS_STATB then 0 else rtc_encode false (field (demo_date t) reg).

#[local] Instance demo_hw : Hardware := {|
  hw := nat * Z;
  hw_write w h := match w with Outb 0x70 r => (h.1, r) | _ => h end;
  hw_inb p h := if p =? CMOS_RETURN then (demo_cmos h.1 h.2, (S h.1, h.2)) else (0, h);
  hw_lapic _ h := (0, h);
  hw_ioapic r h := (if r =? REG_VER then Z.shiftl 23 16 else 0, h)
|}.

#[local] Program Instance demo_clock : RealTimeClock := {|
  now h := h.1; cmos := demo_cmos; date := demo_date; binary := false
|}.
Next Obligation. done. Qed.
Next Obligation. done. Qed.
Next Obligation.
  intros t reg Hr. unfold demo_date, rtc_regs in *.
  rewrite !elem_of_cons, elem_of_nil in Hr. destruct (t <? 10)%nat; destruct Hr as [-> | [-> | [-> | [-> | [-> | [-> | []]]]]]]; done.
Qed.
Next Obligation.
  intros t k reg Hq Hk Hr. assert (demo_date (t + k) = demo_date t) as E.
  { unfold demo_date. unfold demo_cmos in Hq. cbn [Z.eqb Pos.eqb CMOS_STATA] in Hq.
    destruct (Nat.leb_spec 4 t), (Nat.ltb_spec t 10); cbn [andb] in Hq; try done;
      destruct (Nat.ltb_spec (t + k) 10); done || lia. }
  unfold demo_cmos. rewrite E. unfold rtc_regs in Hr. rewrite !elem_of_cons, elem_of_nil in Hr.
  destruct Hr as [-> | [-> | [-> | [-> | [-> | [-> | []]]]]]]; done.
Qed.
Next Obligation.
  intros t. exists (t + 10)%nat. split; [lia|]. intros u Hu. split.
  - unfold demo_cmos. rewrite Z.eqb_refl. destruct (Nat.ltb_spec u 10); [lia|]. by rewrite andb_false_r.
  - intros reg _. unfold demo_cmos, demo_date. destruct (Nat.ltb_spec u 10), (Nat.ltb_spec (t + 10) 10); try lia.
    by rewrite !andb_false_r.
Qed.

Definition demo_dev : dev := MkDev _ (0%nat, 0) [] irqmask_init false true 0 0 0.

Lemma irqs_routed_witness : wp (picinit ;;; ioapicinit ;;; for_ [(1, 0); (4, 0); (14, 1)] enable) (fun _ s' =>
  (exists m, pic_mask (trace s') = Some m /\ Z.testbit m 14 = false /\ Z.testbit m 3 = true) /\
  redirection 14 (trace s') = Some (46, 2 ^ 24) /\ redirection 3 (trace s') = Some (0x10023, 0)) demo_dev.
Proof.
  eapply wp_mono; [apply (irqs_routed demo_dev 23 [(1, 0); (4, 0); (14, 1)])|].
  - reflexivity.
  - reflexivity.
  - intros h. reflexivity.
  - repeat constructor; cbn; lia.
  - intros _ s' [(m & E & Hm) Hr]. split; [|split; rewrite Hr by lia; reflexivity].
    exists m. split; [exact E|]. split; rewrite Hm by lia; reflexivity.
Defined.

Lemma cmostime_reads_clock_witness : exists fuel d s' t, cmostime fuel demo_dev = Ok d s' /\
  d = Rtc (second (demo_date t)) (minute (demo_date t)) (hour (demo_date t)) (day (demo_date t)) (month (demo_date t)) (year (demo_date t) + 2000).
Proof.
  destruct (cmostime_reads_clock demo_dev) as (fuel & Hf). destruct (Hf fuel (le_n fuel)) as (d & s' & t & E & _ & Ed).
  exists fuel, d, s', t. split; [exact E|exact Ed].
Defined.

(** ** The other processors *)

(** C30: [startothers] starts every processor but the running one, once and in
    order: each gets the start-up interrupts for its own APIC id and finds, below
    the entry code at 0x7000, a stack of its own from the page allocator, the
    kernel's entry point and the boot page table. *)
Theorem startothers_starts_each `{H : Hardware} ids mpenter entrypgdir entryother started kend fuel ncpu (me : nat) stacks l (s : smp) :
  kmem_ok kend (s_mem s) (stacks ++ l) -> code + Z.of_nat (length entryother) <= kend -> 0 <= mpenter < 2 ^ 32 ->
  (forall h, Z.shiftr (hw_lapic ID h).1 24 = Z.of_nat me) -> d_lapic (s_dev s) <> 0 -> launched s = [] ->
  length stacks = length (others me ncpu) -> (forall c, exists j, (j < fuel)%nat /\ started c j = true) ->
  exists s', startothers ids mpenter entrypgdir entryother started fuel ncpu s = Ok tt s' /\
    launched s' = zip_with (fun c p => Launch c (p + KSTACKSIZE) mpenter (v2p entrypgdir)) (others me ncpu) stacks /\ NoDup stacks /\
    (exists ws, trace (s_dev s') = trace (s_dev s) ++ ws /\
       filter is_lapicw ws = concat ((fun c => startup_ipis (nth c ids 0)) <$> others me ncpu)) /\
    (forall i b, entryother !! i = Some b -> km_mem (s_mem s') (code + Z.of_nat i) = b) /\ kmem_ok kend (s_mem s') l.
Proof.
  intros Hm Hend Hmp Hme Hlap Hl Hn Hst. assert (Hcpu : is_cpu me (d_lapic (s_dev s))) by (unfold is_cpu; by rewrite (proj2 (Z.eqb_neq _ _) Hlap)).
  destruct (wp_run _ _ _ (startothers_spec ids mpenter entrypgdir entryother started kend fuel ncpu me stacks l s Hm Hend Hmp Hcpu Hl Hn Hst))
    as ([] & s' & E & [S1 S2 S3 _ (ws & [S4 _] & S5)]).
  exists s'. split; [done|]. split; [done|].
  split; [destruct Hm as [_ _ Hnd]; by apply NoDup_app in Hnd as [? _]|]. split; [by exists ws|]. done.
Qed.

(** Two processors, of which the first runs. *)
Definition demo_smp_hw : Hardware := {|
  hw := unit; hw_write _ h := h; hw_inb _ h := (0, h); hw_lapic _ h := (0, h); hw_ioapic _ h := (0, h)
|}.

Definition demo_smp : @smp demo_smp_hw :=
  @Smp demo_smp_hw (@MkDev demo_smp_hw tt [] irqmask_init false true 0xFEE00000 2 0) (Kmem (fun _ => 0) 0 0x80400000) [].

Lemma startothers_starts_each_witness :
  exists s', @startothers demo_smp_hw [0; 1] 0x80103000 0x8010a000 [250; 49] (fun _ k => (3 <=? k)%nat) 5 2 demo_smp = Ok tt s' /\
    launched s' = [Launch 1 0x80401000 0x80103000 0x10a000].
Proof.
  destruct (@startothers_starts_each demo_smp_hw [0; 1] 0x80103000 0x8010a000 [250; 49] (fun _ k => (3 <=? k)%nat) 0x80110000 5 2 0 [0x80400000] [] demo_smp)
    as (s' & E & Hl & _).
  - split; [by vm_compute| |by apply NoDup_singleton]. constructor; [|constructor]. unfold page_ok. by vm_compute.
  - done.
  - done.
  - done.
  - done.
  - done.
  - done.
  - intros c. exists 3%nat. split; [lia|done].
  - exists s'. split; [exact E|]. rewrite Hl. reflexivity.
Defined.
