(* ===== verification/MainProps.v ===== *)
(** * The kernel comes up

    From the first call of [main] to the entry into the scheduler. *)

From S2P Require Import Prelude Bytes Params Ide Boot Mp CString FsState Bio Log Fs FsInode Kalloc Vm VmMap VmSpace Spinlock Kernel Proc ProcSpec.
From S2P Require Import UserInit Ulib Trap Devices Start Segment Cprintf Main MainSpec MemDemo Demo BootProps DeviceProps.

Section MainProps.
Context `{H : Hardware} `{C : Controller}.
Context (kend data trapret forkret mpenter_at entrypgdir : Z) (entryother initcode : list Z) (cpu_at : Z -> Z) (idt_at : Z)
  (vectors : nat -> Z) (consoleread : nat -> Z -> M kst (Z * list Z)) (consolewrite : nat -> list Z -> Z -> M kst Z)
  (imcr : Z) (visible : nat -> nat -> bool) (fuel : nat).








End MainProps.

(** ** A machine without multiprocessor tables *)



