(* ===== verification/Asm.v ===== *)
(** * The assembly sources

    The instructions [swtch.S], [trapasm.S], [usys.S], [initcode.S], [entry.S],
    [bootasm.S], [entryother.S] and the output of [vectors.pl] use, as a step
    function on the registers and the memory, and the sources themselves as
    listings of labels and instructions.  A listing runs until control leaves it:
    by a jump to an address or a label elsewhere, by a call of a routine in C, or
    by a software interrupt.  Of the flags only ZF and IF are followed. *)

From stdpp Require Import strings.
From S2P Require Import Prelude Bytes Params CString Kalloc Vm Proc Syscall Trap Segment.

Inductive reg := EAX | ECX | EDX | EBX | ESP | EBP | ESI | EDI.
Inductive sreg := CS | DS | ES | FS | GS | SS.
Inductive creg := CR0 | CR3 | CR4.

#[export] Instance reg_eq_dec : EqDecision reg.
Proof. solve_decision. Defined.
#[export] Instance sreg_eq_dec : EqDecision sreg.
Proof. solve_decision. Defined.
#[export] Instance creg_eq_dec : EqDecision creg.
Proof. solve_decision. Defined.

(** Flat memory: the address space the processor sees.  [r_in] counts the reads
    of ports, [r_out] lists the writes. *)
Record mstate := MS {
  r_reg : reg -> Z;
  r_seg : sreg -> Z;
  r_cr : creg -> Z;
  r_flags : Z;
  r_mem : mem;
  r_gdtr : Z * Z;
  r_in : nat;
  r_out : list (Z * Z)
}.

Definition set_fn {A} `{EqDecision A} (f : A -> Z) (x : A) (v : Z) : A -> Z := fun y => if decide (y = x) then v else f y.

Definition set_reg (r : reg) (v : Z) (s : mstate) : mstate :=
  MS (set_fn (r_reg s) r v) (r_seg s) (r_cr s) (r_flags s) (r_mem s) (r_gdtr s) (r_in s) (r_out s).
Definition set_sreg (r : sreg) (v : Z) (s : mstate) : mstate :=
  MS (r_reg s) (set_fn (r_seg s) r v) (r_cr s) (r_flags s) (r_mem s) (r_gdtr s) (r_in s) (r_out s).
Definition set_cr (r : creg) (v : Z) (s : mstate) : mstate :=
  MS (r_reg s) (r_seg s) (set_fn (r_cr s) r v) (r_flags s) (r_mem s) (r_gdtr s) (r_in s) (r_out s).
Definition set_fl (v : Z) (s : mstate) : mstate :=
  MS (r_reg s) (r_seg s) (r_cr s) v (r_mem s) (r_gdtr s) (r_in s) (r_out s).
Definition set_mm (m : mem) (s : mstate) : mstate :=
  MS (r_reg s) (r_seg s) (r_cr s) (r_flags s) m (r_gdtr s) (r_in s) (r_out s).
Definition set_gdtr (v : Z * Z) (s : mstate) : mstate :=
  MS (r_reg s) (r_seg s) (r_cr s) (r_flags s) (r_mem s) v (r_in s) (r_out s).

Definition FL_ZF : Z := 0x40.

(** ** Instructions *)

(** [$v], [%r], [d(%r)] and [(a)] *)
Inductive operand := Imm (v : Z) | R (r : reg) | At (d : Z) (r : reg) | Abs (a : Z).

Inductive instr :=
  | Movl (src dst : operand)
  | MovlFromCr (c : creg) (r : reg)
  | MovlToCr (r : reg) (c : creg)
  | Movw (v : Z) (r : reg)
  | MovwReg (src dst : reg)
  | MovwSeg (r : reg) (x : sreg)
  | Movb (v : Z) (r : reg)
  | Pushl (o : operand)
  | PushlSeg (x : sreg)
  | Popl (r : reg)
  | PoplSeg (x : sreg)
  | Pushal
  | Popal
  | Addl (v : Z) (r : reg)
  | Orl (v : Z) (r : reg)
  | Xorw (src dst : reg)
  | Testb (v : Z) (r : reg)
  | Jmp (l : string)
  | JmpReg (r : reg)
  | Jnz (l : string)
  | Ljmp (sel : Z) (l : string)
  | Call (f : string)
  | CallAbs (a : Z)
  | Ret
  | Iret
  | Int (n : Z)
  | Cli
  | Inb (port : Z)
  | Outb (port : Z)
  | Outw
  | Lgdt (a : Z).

(** A line of a source: a label or an instruction. *)
Inductive line := Label (l : string) | Ins (i : instr).

(** How control leaves a listing: to an address, to a label elsewhere, into a
    routine in C, by [int], or past its end. *)
Inductive stop := Goto (a : Z) | Leave (l : string) | CallC (f : string) | Raise (n : Z) | End.

Inductive next_step := Next (s : mstate) | Jump (l : string) (s : mstate) | Stop (w : stop) (s : mstate).

Section Exec.
(** [wide]: whether [pushl] of a segment register clears the upper half of the
    word or leaves it (processors do either); [at_ n]: the address of line [n] of
    the listing; [inputs n]: what the [n]-th read of a port delivers. *)
Context (wide : bool) (at_ : nat -> Z) (inputs : nat -> Z).

Definition place (s : mstate) (o : operand) : Z :=
  match o with
  | At d r => u32 (r_reg s r + d)
  | Abs a => a
  | Imm _ | R _ => 0
  end.

Definition value (s : mstate) (o : operand) : Z :=
  match o with
  | Imm v => u32 v
  | R r => r_reg s r
  | At _ _ | Abs _ => load32 (r_mem s) (place s o)
  end.

Definition assign (o : operand) (v : Z) (s : mstate) : mstate :=
  match o with
  | R r => set_reg r v s
  | At _ _ | Abs _ => set_mm (store32 (place s o) v (r_mem s)) s
  | Imm _ => s
  end.

Definition push (v : Z) (s : mstate) : mstate :=
  let a := u32 (r_reg s ESP - 4) in
  set_reg ESP a (set_mm (store32 a v (r_mem s)) s).

(** The word at the top of the stack, and the stack without it. *)
Definition top (s : mstate) : Z := load32 (r_mem s) (r_reg s ESP).
Definition drop4 (s : mstate) : mstate := set_reg ESP (u32 (r_reg s ESP + 4)) s.

Definition pop (r : reg) (s : mstate) : mstate := set_reg r (top s) (drop4 s).

Definition store_seg (a v : Z) (m : mem) : mem := if wide then store32 a v m else store16 a v m.

Definition push_seg (x : sreg) (s : mstate) : mstate :=
  let a := u32 (r_reg s ESP - 4) in
  set_reg ESP a (set_mm (store_seg a (r_seg s x) (r_mem s)) s).

Definition pop_seg (x : sreg) (s : mstate) : mstate := set_sreg x (u16 (top s)) (drop4 s).

(** The lower 16 and 8 bits of a register. *)
Definition low16 (v old : Z) : Z := Z.lor (Z.land old 0xffff0000) (u16 v).
Definition low8 (v old : Z) : Z := Z.lor (Z.land old 0xffffff00) (u8 v).

Definition with_zf (v : Z) (s : mstate) : mstate :=
  set_fl (if v =? 0 then Z.lor (r_flags s) FL_ZF else clr_flag (r_flags s) FL_ZF) s.

(** The privilege level of the code that runs. *)
Definition cpl (s : mstate) : Z := Z.land (r_seg s CS) 3.

(** [iret]: to the same level, or to an outer one with its own stack. *)
Definition iret (s : mstate) : mstate :=
  let s := drop4 s in
  let cs := u16 (top s) in
  let s := drop4 s in
  let fl := top s in
  let s := drop4 s in
  let s' := set_fl fl (set_sreg CS cs s) in
  if cpl s <? Z.land cs 3 then
    let sp := top s' in
    let s' := drop4 s' in
    set_sreg SS (u16 (top s')) (set_reg ESP sp s')
  else s'.

Definition exec (i : instr) (pc : nat) (s : mstate) : next_step :=
  match i with
  | Movl src dst => Next (assign dst (value s src) s)
  | MovlFromCr c r => Next (set_reg r (r_cr s c) s)
  | MovlToCr r c => Next (set_cr c (r_reg s r) s)
  | Movw v r => Next (set_reg r (low16 v (r_reg s r)) s)
  | MovwReg src dst => Next (set_reg dst (low16 (r_reg s src) (r_reg s dst)) s)
  | MovwSeg r x => Next (set_sreg x (u16 (r_reg s r)) s)
  | Movb v r => Next (set_reg r (low8 v (r_reg s r)) s)
  | Pushl o => Next (push (value s o) s)
  | PushlSeg x => Next (push_seg x s)
  | Popl r => Next (pop r s)
  | PoplSeg x => Next (pop_seg x s)
  | Pushal =>
      let sp := r_reg s ESP in
      Next (push (r_reg s EDI) (push (r_reg s ESI) (push (r_reg s EBP) (push sp (push (r_reg s EBX)
        (push (r_reg s EDX) (push (r_reg s ECX) (push (r_reg s EAX) s))))))))
  | Popal => Next (pop EAX (pop ECX (pop EDX (pop EBX (drop4 (pop EBP (pop ESI (pop EDI s))))))))
  | Addl v r => let w := u32 (r_reg s r + v) in Next (with_zf w (set_reg r w s))
  | Orl v r => let w := Z.lor (r_reg s r) v in Next (with_zf w (set_reg r w s))
  | Xorw src dst => let w := low16 (Z.lxor (r_reg s dst) (r_reg s src)) (r_reg s dst) in Next (with_zf (u16 w) (set_reg dst w s))
  | Testb v r => Next (with_zf (u8 (Z.land (r_reg s r) v)) s)
  | Jmp l => Jump l s
  | JmpReg r => Stop (Goto (r_reg s r)) s
  | Jnz l => if has (r_flags s) FL_ZF then Next s else Jump l s
  | Ljmp sel l => Jump l (set_sreg CS sel s)
  | Call f => Stop (CallC f) (push (at_ (S pc)) s)
  | CallAbs a => Stop (Goto (load32 (r_mem s) a)) (push (at_ (S pc)) s)
  | Ret => Stop (Goto (top s)) (drop4 s)
  | Iret => Stop (Goto (top s)) (iret s)
  | Int n => Stop (Raise n) s
  | Cli => Next (set_fl (clr_flag (r_flags s) FL_IF) s)
  | Inb port =>
      let v := u8 (inputs (r_in s)) in
      Next (MS (set_fn (r_reg s) EAX (low8 v (r_reg s EAX))) (r_seg s) (r_cr s) (r_flags s) (r_mem s) (r_gdtr s) (S (r_in s)) (r_out s))
  | Outb port =>
      Next (MS (r_reg s) (r_seg s) (r_cr s) (r_flags s) (r_mem s) (r_gdtr s) (r_in s) (r_out s ++ [(port, u8 (r_reg s EAX))]))
  | Outw =>
      Next (MS (r_reg s) (r_seg s) (r_cr s) (r_flags s) (r_mem s) (r_gdtr s) (r_in s) (r_out s ++ [(u16 (r_reg s EDX), u16 (r_reg s EAX))]))
  | Lgdt a => Next (set_gdtr (u16 (load32 (r_mem s) a), load32 (r_mem s) (a + 2)) s)
  end.

Fixpoint find_label (l : string) (prog : list line) : option nat :=
  match prog with
  | [] => None
  | Label l' :: prog' => if decide (l = l') then Some 0%nat else S <$> find_label l prog'
  | Ins _ :: prog' => S <$> find_label l prog'
  end.

(** Run the listing from line [pc]: how control leaves it, at which line, and
    the state then. *)
Fixpoint run (fuel : nat) (prog : list line) (pc : nat) (s : mstate) : option (stop * nat * mstate) :=
  match fuel with
  | O => None
  | S fuel' =>
      match prog !! pc with
      | None => Some (End, pc, s)
      | Some (Label _) => run fuel' prog (S pc) s
      | Some (Ins i) =>
          match exec i pc s with
          | Next s' => run fuel' prog (S pc) s'
          | Stop w s' => Some (w, pc, s')
          | Jump l s' =>
              match find_label l prog with
              | Some pc' => run fuel' prog pc' s'
              | None => Some (Leave l, pc, s')
              end
          end
      end
  end.
End Exec.

(** A trap: the processor goes through gate [n], changes to the kernel's stack
    when it comes from an outer level, and pushes what [iret] will need, with an
    error code for some exceptions.  [eip] is the address to return to; the
    result is the address reached and the state there, [None] is a fault. *)
Definition take_trap (t : cpu_tables) (idt : list gatedesc) (n : nat) (err : option Z) (eip : Z) (s : mstate) : option (Z * mstate) :=
  match idt !! n with
  | None => None
  | Some g =>
      match enter (gdt t) (cpl s) g with
      | None => None
      | Some (lvl, off, trap_gate) =>
          let s1 := if lvl <? cpl s
                    then push (r_reg s ESP) (push (r_seg s SS) (set_reg ESP (ts_esp0 t) (set_sreg SS (ts_ss0 t) s)))
                    else s in
          let s2 := push eip (push (r_seg s CS) (push (r_flags s) s1)) in
          let s3 := match err with Some e => push e s2 | None => s2 end in
          Some (off, set_sreg CS (Z.lor (gd_cs g) lvl) (set_fl (if trap_gate then r_flags s else clr_flag (r_flags s) FL_IF) s3))
      end
  end.

(** [int n], allowed by the gate's level only. *)
Definition take_int (t : cpu_tables) (idt : list gatedesc) (n : nat) (eip : Z) (s : mstate) : option (Z * mstate) :=
  match idt !! n with
  | Some g => if may_call (cpl s) g then take_trap t idt n None eip s else None
  | None => None
  end.

(** ** The sources *)

Local Open Scope string_scope.

(** [swtch(old, new)] *)
Definition swtch : list line :=
  [ Label "swtch";
    Ins (Movl (At 4 ESP) (R EAX));
    Ins (Movl (At 8 ESP) (R EDX));
    Ins (Pushl (R EBP));
    Ins (Pushl (R EBX));
    Ins (Pushl (R ESI));
    Ins (Pushl (R EDI));
    Ins (Movl (R ESP) (At 0 EAX));
    Ins (Movl (R EDX) (R ESP));
    Ins (Popl EDI);
    Ins (Popl ESI);
    Ins (Popl EBX);
    Ins (Popl EBP);
    Ins Ret ].

Definition SYS_exit : Z := 2.
Definition SYS_exec : Z := 7.

Definition implicit_exit : list line :=
  [ Label "implicit_exit";
    Ins (Pushl (R EAX));
    Ins (Movl (Imm SYS_exit) (R EAX));
    Ins (Int T_SYSCALL) ].

(** Entry point [i] as [vectors.pl] prints it; the processor pushes an error code
    for some of the exceptions itself. *)
Definition has_err (i : nat) : bool := (i =? 8)%nat || ((10 <=? i)%nat && (i <=? 14)%nat) || (i =? 17)%nat.

Definition vector (i : nat) : list line :=
  (if negb (has_err i) then [Ins (Pushl (Imm 0))] else []) ++
  [ Ins (Pushl (Imm (Z.of_nat i)));
    Ins (Jmp "alltraps") ].

Definition trapasm : list line :=
  [ Label "alltraps";
    Ins (PushlSeg DS);
    Ins (PushlSeg ES);
    Ins (PushlSeg FS);
    Ins (PushlSeg GS);
    Ins Pushal;
    Ins (Movw (Z.shiftl SEG_KDATA 3) EAX);
    Ins (MovwSeg EAX DS);
    Ins (MovwSeg EAX ES);
    Ins (Movw (Z.shiftl SEG_KCPU 3) EAX);
    Ins (MovwSeg EAX FS);
    Ins (MovwSeg EAX GS);
    Ins (Pushl (R ESP));
    Ins (Call "trap");
    Ins (Addl 4 ESP);
    Label "trapret";
    Ins Popal;
    Ins (PoplSeg GS);
    Ins (PoplSeg FS);
    Ins (PoplSeg ES);
    Ins (PoplSeg DS);
    Ins (Addl 8 ESP);
    Ins Iret ].

(** The lines at which [trapret] begins and at which [trap] returns. *)
Definition trapret_pc : nat := 15.
Definition trap_return_pc : nat := 14.

(** [SYSCALL(name)] with the number of [name]. *)
Definition usys (name : string) (num : Z) : list line :=
  [ Label name;
    Ins (Movl (Imm num) (R EAX));
    Ins (Int T_SYSCALL);
    Ins Ret ].

(** The names of [usys.S] with the numbers [syscall.h] gives them. *)
Definition usys_stubs : list (string * Z) :=
  [ ("fork", 1); ("exit", 2); ("wait", 3); ("pipe", 4); ("read", 5); ("write", 16); ("close", 21); ("kill", 6); ("exec", 7); ("open", 15);
    ("mknod", 17); ("unlink", 18); ("fstat", 8); ("link", 19); ("mkdir", 20); ("chdir", 9); ("dup", 10); ("getpid", 11); ("sbrk", 12);
    ("sleep", 13); ("uptime", 14); ("pstat", 22); ("printjob", 23); ("attachjob", 24); ("isJobEmpty", 25); ("fg", 26); ("waitpid", 27);
    ("signal", 28) ].

(** [init] and [argv] are the addresses of its data. *)
Definition initcode (init argv : Z) : list line :=
  [ Label "start";
    Ins (Pushl (Imm argv));
    Ins (Pushl (Imm init));
    Ins (Pushl (Imm 0));
    Ins (Movl (Imm SYS_exec) (R EAX));
    Ins (Int T_SYSCALL);
    Label "exit";
    Ins (Movl (Imm SYS_exit) (R EAX));
    Ins (Int T_SYSCALL);
    Ins (Jmp "exit") ].

(** ["/init\0"] with the NUL [.string] adds. *)
Definition initcode_path : list Z := [47; 105; 110; 105; 116; 0; 0].
Definition initcode_argv (init : Z) : list Z := le 4 init ++ le 4 0.

Definition CR0_PE : Z := 0x00000001.
Definition CR0_WP : Z := 0x00010000.
Definition CR0_PG : Z := 0x80000000.
Definition CR4_PSE : Z := 0x00000010.

(** [entrypgdir], [stack] and [main] are kernel addresses. *)
Definition entry (entrypgdir stack main : Z) : list line :=
  [ Label "entry";
    Ins (MovlFromCr CR4 EAX);
    Ins (Orl CR4_PSE EAX);
    Ins (MovlToCr EAX CR4);
    Ins (Movl (Imm (v2p entrypgdir)) (R EAX));
    Ins (MovlToCr EAX CR3);
    Ins (MovlFromCr CR0 EAX);
    Ins (Orl (Z.lor CR0_PG CR0_WP) EAX);
    Ins (MovlToCr EAX CR0);
    Ins (Movl (Imm (stack + KSTACKSIZE)) (R ESP));
    Ins (Movl (Imm main) (R EAX));
    Ins (JmpReg EAX) ].

(** [start] is the address the code is loaded at, [gdtdesc] that of its table
    descriptor. *)
Definition bootasm (start gdtdesc : Z) : list line :=
  [ Label "start";
    Ins Cli;
    Ins (Xorw EAX EAX);
    Ins (MovwSeg EAX DS);
    Ins (MovwSeg EAX ES);
    Ins (MovwSeg EAX SS);
    Label "seta20.1";
    Ins (Inb 0x64);
    Ins (Testb 0x2 EAX);
    Ins (Jnz "seta20.1");
    Ins (Movb 0xd1 EAX);
    Ins (Outb 0x64);
    Label "seta20.2";
    Ins (Inb 0x64);
    Ins (Testb 0x2 EAX);
    Ins (Jnz "seta20.2");
    Ins (Movb 0xdf EAX);
    Ins (Outb 0x60);
    Ins (Lgdt gdtdesc);
    Ins (MovlFromCr CR0 EAX);
    Ins (Orl CR0_PE EAX);
    Ins (MovlToCr EAX CR0);
    Ins (Ljmp (Z.shiftl SEG_KCODE 3) "start32");
    Label "start32";
    Ins (Movw (Z.shiftl SEG_KDATA 3) EAX);
    Ins (MovwSeg EAX DS);
    Ins (MovwSeg EAX ES);
    Ins (MovwSeg EAX SS);
    Ins (Movw 0 EAX);
    Ins (MovwSeg EAX FS);
    Ins (MovwSeg EAX GS);
    Ins (Movl (Imm start) (R ESP));
    Ins (Call "bootmain");
    Ins (Movw 0x8a00 EAX);
    Ins (MovwReg EAX EDX);
    Ins Outw;
    Ins (Movw 0x8ae0 EAX);
    Ins Outw;
    Label "spin";
    Ins (Jmp "spin") ].

Definition entryother (start gdtdesc : Z) : list line :=
  [ Label "start";
    Ins Cli;
    Ins (Xorw EAX EAX);
    Ins (MovwSeg EAX DS);
    Ins (MovwSeg EAX ES);
    Ins (MovwSeg EAX SS);
    Ins (Lgdt gdtdesc);
    Ins (MovlFromCr CR0 EAX);
    Ins (Orl CR0_PE EAX);
    Ins (MovlToCr EAX CR0);
    Ins (Ljmp (Z.shiftl SEG_KCODE 3) "start32");
    Label "start32";
    Ins (Movw (Z.shiftl SEG_KDATA 3) EAX);
    Ins (MovwSeg EAX DS);
    Ins (MovwSeg EAX ES);
    Ins (MovwSeg EAX SS);
    Ins (Movw 0 EAX);
    Ins (MovwSeg EAX FS);
    Ins (MovwSeg EAX GS);
    Ins (MovlFromCr CR4 EAX);
    Ins (Orl CR4_PSE EAX);
    Ins (MovlToCr EAX CR4);
    Ins (Movl (Abs (start - 12)) (R EAX));
    Ins (MovlToCr EAX CR3);
    Ins (MovlFromCr CR0 EAX);
    Ins (Orl (Z.lor (Z.lor CR0_PE CR0_PG) CR0_WP) EAX);
    Ins (MovlToCr EAX CR0);
    Ins (Movl (Abs (start - 4)) (R ESP));
    Ins (CallAbs (start - 8));
    Ins (Movw 0x8a00 EAX);
    Ins (MovwReg EAX EDX);
    Ins Outw;
    Ins (Movw 0x8ae0 EAX);
    Ins Outw;
    Label "spin";
    Ins (Jmp "spin") ].

(** [gdt] and [gdtdesc] of [bootasm.S] and [entryother.S]; [gdt] is at the
    address given. *)
Definition boot_gdt : list Z :=
  replicate 8 0 ++ SEG_ASM (Z.lor STA_X STA_R) 0 0xffffffff ++ SEG_ASM STA_W 0 0xffffffff.
Definition boot_gdtdesc (gdt : Z) : list Z := le 2 (Z.of_nat (length boot_gdt) - 1) ++ le 4 gdt.
