(* ===== verification/AsmSpec.v ===== *)
(** * Lemmas on the assembly sources

    What a context switch, the entry into a trap and the return from it do to
    registers and memory. *)

From stdpp Require Import strings.
From S2P Require Import Prelude Bytes Params CString Kalloc Vm Proc Syscall Trap Segment Asm.

Definition is_word (v : Z) : Prop := 0 <= v < 2 ^ 32.
Definition is_half (v : Z) : Prop := 0 <= v < 2 ^ 16.

(** Registers hold what fits into them. *)
Record regs_ok (s : mstate) : Prop := {
  ro_reg : forall r, is_word (r_reg s r);
  ro_seg : forall x, is_half (r_seg s x);
  ro_flags : is_word (r_flags s)
}.

(** A machine whose registers are 0 but for the stack pointer, in the code
    segment [cs]. *)
Definition demo_machine (esp cs : Z) (m : mem) : mstate :=
  MS (fun r => if decide (r = ESP) then esp else 0) (fun x => if decide (x = CS) then cs else 0) (fun _ => 0) 0 m (0, 0) 0 [].

Lemma demo_machine_ok esp cs m : is_word esp -> is_half cs -> regs_ok (demo_machine esp cs m).
Proof. intros He Hc. split; [intros r; cbn; by case_decide|intros x; cbn; by case_decide|done]. Qed.

(** [struct context] *)
Record context := Ctx { cx_edi : Z; cx_esi : Z; cx_ebx : Z; cx_ebp : Z; cx_eip : Z }.

Definition load_context (m : mem) (a : Z) : context :=
  Ctx (load32 m a) (load32 m (a + 4)) (load32 m (a + 8)) (load32 m (a + 12)) (load32 m (a + 16)).

(** [struct trapframe], without its padding *)
Record trapframe := Frame {
  f_edi : Z; f_esi : Z; f_ebp : Z; f_oesp : Z; f_ebx : Z; f_edx : Z; f_ecx : Z; f_eax : Z;
  f_gs : Z; f_fs : Z; f_es : Z; f_ds : Z; f_trapno : Z;
  f_err : Z; f_eip : Z; f_cs : Z; f_eflags : Z;
  f_esp : Z; f_ss : Z
}.

Definition load16 (m : mem) (a : Z) : Z := u16 (load32 m a).

Definition load_frame (m : mem) (a : Z) : trapframe :=
  Frame (load32 m a) (load32 m (a + 4)) (load32 m (a + 8)) (load32 m (a + 12)) (load32 m (a + 16)) (load32 m (a + 20)) (load32 m (a + 24))
    (load32 m (a + tf_eax)) (load16 m (a + 32)) (load16 m (a + 36)) (load16 m (a + tf_es)) (load16 m (a + tf_ds)) (load32 m (a + tf_trapno))
    (load32 m (a + tf_err)) (load32 m (a + tf_eip)) (load16 m (a + tf_cs)) (load32 m (a + tf_eflags))
    (load32 m (a + tf_esp)) (load16 m (a + tf_ss)).

Lemma load32_store32_ne m a b v : a + 4 <= b \/ b + 4 <= a -> load32 (store32 a v m) b = load32 m b.
Proof. intros H. apply load32_ext. intros x Hx. apply store32_other. lia. Qed.

Lemma load32_store32_at m a b v : a = b -> is_word v -> load32 (store32 a v m) b = v.
Proof. intros ->. apply load32_store32. Qed.

Lemma set_fn_eq {A} `{EqDecision A} (f : A -> Z) x v : set_fn f x v x = v.
Proof. unfold set_fn. by rewrite decide_True. Qed.
Lemma set_fn_ne {A} `{EqDecision A} (f : A -> Z) x y v : y <> x -> set_fn f x v y = f y.
Proof. intros. unfold set_fn. by rewrite decide_False. Qed.

Lemma load32_store_seg_ne wide m a b v : a + 4 <= b \/ b + 4 <= a -> load32 (store_seg wide a v m) b = load32 m b.
Proof.
  intros H. unfold store_seg. destruct wide; [by apply load32_store32_ne|]. apply load32_ext. intros x Hx.
  unfold store16, poke. by rewrite !(proj2 (Z.eqb_neq _ _)) by lia.
Qed.

Lemma store_seg_other wide m a x v : ~ a <= x < a + 4 -> store_seg wide a v m x = m x.
Proof.
  intros H. unfold store_seg. destruct wide; [by apply store32_other|]. unfold store16, poke.
  by rewrite !(proj2 (Z.eqb_neq _ _)) by lia.
Qed.

Lemma load16_store_seg_at wide m a b v : a = b -> is_half v -> load16 (store_seg wide a v m) b = v.
Proof.
  intros -> Hv. unfold load16, store_seg, is_half in *. destruct wide.
  - rewrite load32_store32 by lia. unfold u16, wrap. by apply Z.mod_small.
  - unfold load32, store16, poke. rewrite !Z.eqb_refl, (proj2 (Z.eqb_neq b (b + 1))) by lia.
    rewrite Z.shiftr_div_pow2 by lia. unfold u16, u8, wrap. pose proof (Z.div_mod v (2 ^ 8) ltac:(lia)).
    rewrite (Z.mod_small (v / 2 ^ 8)) by (split; [apply Z.div_pos; lia|apply Z.div_lt_upper_bound; lia]).
    rewrite Z.mul_add_distr_l, Z.add_assoc, (Z.add_comm (v mod 2 ^ 8)), <-H, Z.mul_assoc. change (2 ^ 8 * 2 ^ 8) with (2 ^ 16).
    rewrite (Z.mul_comm (2 ^ 16)), Z.mod_add by lia. by apply Z.mod_small.
Qed.

Lemma load16_store32_at m a b v : a = b -> is_half v -> load16 (store32 a v m) b = v.
Proof. apply (load16_store_seg_at true). Qed.

Lemma load16_store32_ne m a b v : a + 4 <= b \/ b + 4 <= a -> load16 (store32 a v m) b = load16 m b.
Proof. intros H. unfold load16. by rewrite load32_store32_ne. Qed.
Lemma load16_store_seg_ne wide m a b v : a + 4 <= b \/ b + 4 <= a -> load16 (store_seg wide a v m) b = load16 m b.
Proof. intros H. unfold load16. by rewrite load32_store_seg_ne. Qed.

Lemma u16_low16 v old : u16 (low16 v old) = u16 v.
Proof.
  unfold low16, u16, wrap. rewrite <-!Z.land_ones by lia. apply Z.bits_inj'. intros n Hn.
  rewrite !Z.land_spec, Z.lor_spec, !Z.land_spec. destruct (Z.ltb_spec n 16).
  - replace (Z.testbit 0xffff0000 n) with false by (change 0xffff0000 with (Z.shiftl 0xffff 16); by rewrite Z.shiftl_spec_low).
    by rewrite andb_false_r, orb_false_l, <-andb_assoc, andb_diag.
  - rewrite Z.ones_spec_high by lia. by rewrite !andb_false_r.
Qed.

(** Loads from a memory into which words were stored. *)
Ltac loads := repeat first [rewrite load32_store32_at by (unfold is_word in *; lia) | rewrite load32_store32_ne by lia
  | rewrite load16_store_seg_at by (done || lia) | rewrite load16_store32_at by (done || lia) | rewrite load32_store_seg_ne by lia
  | rewrite load16_store32_ne by lia | rewrite load16_store_seg_ne by lia].

Ltac regs := repeat first [rewrite set_fn_eq | rewrite set_fn_ne by done].

(** Addresses that do not wrap around, from the inside out. *)
Ltac small := repeat match goal with
  | |- context [u32 ?x] => lazymatch x with context [u32 _] => fail | _ => rewrite (u32_small x) by lia end
  end.

(** Running a listing line by line. *)
Section Lines.
Context (wide : bool) (at_ : nat -> Z) (inputs : nat -> Z) (prog : list line).

Lemma run_label fuel pc s l : prog !! pc = Some (Label l) ->
  run wide at_ inputs (S fuel) prog pc s = run wide at_ inputs fuel prog (S pc) s.
Proof. intros E. cbn [run]. by rewrite E. Qed.

Lemma run_next fuel pc s s' i : prog !! pc = Some (Ins i) -> exec wide at_ inputs i pc s = Next s' ->
  run wide at_ inputs (S fuel) prog pc s = run wide at_ inputs fuel prog (S pc) s'.
Proof. intros E E'. cbn [run]. by rewrite E, E'. Qed.

Lemma run_stop fuel pc s s' i w : prog !! pc = Some (Ins i) -> exec wide at_ inputs i pc s = Stop w s' ->
  run wide at_ inputs (S fuel) prog pc s = Some (w, pc, s').
Proof. intros E E'. cbn [run]. by rewrite E, E'. Qed.

Lemma run_jump fuel pc pc' s s' i l : prog !! pc = Some (Ins i) -> exec wide at_ inputs i pc s = Jump l s' -> find_label l prog = Some pc' ->
  run wide at_ inputs (S fuel) prog pc s = run wide at_ inputs fuel prog pc' s'.
Proof. intros E E' El. cbn [run]. by rewrite E, E', El. Qed.

Lemma run_leave fuel pc s s' i l : prog !! pc = Some (Ins i) -> exec wide at_ inputs i pc s = Jump l s' -> find_label l prog = None ->
  run wide at_ inputs (S fuel) prog pc s = Some (Leave l, pc, s').
Proof. intros E E' El. cbn [run]. by rewrite E, E', El. Qed.
End Lines.

(** [x + 4 + 4] is [x + 8]. *)
Ltac fold_offsets :=
  rewrite ?Z.add_0_r, <- ?Z.sub_add_distr, <- ?Z.add_assoc;
  repeat match goal with
    | |- context [Z.add (Zpos ?p) (Zpos ?q)] => let v := eval vm_compute in (Z.add (Zpos p) (Zpos q)) in change (Z.add (Zpos p) (Zpos q)) with v
    end.

(** What an instruction does, with the arithmetic on addresses done. *)
Ltac asm_exec :=
  cbv [exec assign value place push push_seg top drop4 pop pop_seg iret cpl set_reg set_sreg set_cr set_fl set_mm set_gdtr with_zf
       r_reg r_seg r_cr r_flags r_mem r_gdtr r_in r_out];
  regs; small; regs; fold_offsets; reflexivity.

(** One line of a listing. *)
Ltac asm_line := first
  [ erewrite run_label; [|reflexivity]
  | erewrite run_next; [|reflexivity|asm_exec]
  | erewrite run_stop; [|reflexivity|asm_exec]
  | erewrite run_jump; [|reflexivity|asm_exec|reflexivity]
  | erewrite run_leave; [|reflexivity|asm_exec|reflexivity] ].

(** Run the listing in the goal, and name the state in which it ends. *)
Ltac run_code prog :=
  lazymatch goal with |- context [run ?w ?a ?i ?f ?p ?pc ?s] =>
    let E := fresh "E" in eassert (run w a i f p pc s = _) as E by (unfold prog; repeat asm_line; reflexivity); rewrite E; clear E
  end.
Ltac after_run := lazymatch goal with |- context [Some (_, _, ?st) = _] => exists st end.

(** About to run [swtch(old, new)], called with a return address and the two
    arguments on the stack; [*old] does not lie where the registers are saved. *)
Record switching (s : mstate) (old new : Z) : Prop := {
  sw_regs : regs_ok s;
  sw_stack : 16 <= r_reg s ESP /\ r_reg s ESP + 12 <= 2 ^ 32;
  sw_old : load32 (r_mem s) (r_reg s ESP + 4) = old;
  sw_new : load32 (r_mem s) (r_reg s ESP + 8) = new;
  sw_old_ok : 0 <= old /\ old + 4 <= 2 ^ 32;
  sw_new_ok : 0 <= new /\ new + 20 < 2 ^ 32;
  sw_apart : old + 4 <= r_reg s ESP - 16 \/ r_reg s ESP + 4 <= old
}.

Section Spec.
Context (wide : bool) (at_ : nat -> Z) (inputs : nat -> Z).

Lemma swtch_spec s old new : let e := r_reg s ESP in let m := r_mem s in
  switching s old new ->
  exists s', let m' := r_mem s' in let c := load_context m' new in
    run wide at_ inputs 20 swtch 0 s = Some (Goto (cx_eip c), 13%nat, s') /\
    load32 m' old = e - 16 /\
    load_context m' (e - 16) = Ctx (r_reg s EDI) (r_reg s ESI) (r_reg s EBX) (r_reg s EBP) (load32 m e) /\
    (forall x, ~ e - 16 <= x < e -> ~ old <= x < old + 4 -> m' x = m x) /\
    r_reg s' EDI = cx_edi c /\ r_reg s' ESI = cx_esi c /\ r_reg s' EBX = cx_ebx c /\ r_reg s' EBP = cx_ebp c /\ r_reg s' ESP = new + 20 /\
    r_seg s' = r_seg s /\ r_cr s' = r_cr s /\ r_flags s' = r_flags s.
Proof.
  intros e m [[Hr _ _] [He1 He2] Ho Hn [Ho1 Ho2] [Hn1 Hn2] Hd].
  pose proof (Hr EDI). pose proof (Hr ESI). pose proof (Hr EBX). pose proof (Hr EBP). clear Hr.
  destruct s as [rg sg cr fl mm gd ni no]. cbn [r_reg r_mem] in *. subst m e.
  run_code swtch. rewrite Ho, Hn. after_run.
  cbv zeta. cbn [r_mem r_reg r_seg r_cr r_flags load_context cx_edi cx_esi cx_ebx cx_ebp cx_eip]. regs.
  split; [done|]. split; [by loads|]. split.
  { unfold load_context. f_equal; loads; [..|f_equal; lia]; done. }
  split; [|done]. intros x Hx Hx'. rewrite !store32_other by lia. done.
Qed.

Lemma trapret_spec s tf : let f := load_frame (r_mem s) tf in
  r_reg s ESP = tf -> cpl s = 0 -> 0 <= tf -> tf + 76 < 2 ^ 32 ->
  exists s', run wide at_ inputs 10 trapasm trapret_pc s = Some (Goto (f_eip f), 22%nat, s') /\ r_mem s' = r_mem s /\
    r_reg s' EDI = f_edi f /\ r_reg s' ESI = f_esi f /\ r_reg s' EBP = f_ebp f /\ r_reg s' EBX = f_ebx f /\ r_reg s' EDX = f_edx f /\
    r_reg s' ECX = f_ecx f /\ r_reg s' EAX = f_eax f /\
    r_seg s' GS = f_gs f /\ r_seg s' FS = f_fs f /\ r_seg s' ES = f_es f /\ r_seg s' DS = f_ds f /\
    r_seg s' CS = f_cs f /\ r_flags s' = f_eflags f /\
    if 0 <? Z.land (f_cs f) 3 then r_reg s' ESP = f_esp f /\ r_seg s' SS = f_ss f else r_reg s' ESP = tf + 68 /\ r_seg s' SS = r_seg s SS.
Proof.
  intros f Hesp Hcpl Htf Hmax. unfold f. destruct s as [rg sg cr fl mm gd ni no]. cbn [r_reg r_mem] in *. subst tf.
  change (Z.land (sg CS) 3 = 0) in Hcpl. run_code trapasm. rewrite Hcpl. after_run. split; [done|].
  cbn [load_frame f_cs load16]. fold (load16 mm (rg ESP + tf_cs)). change (rg ESP + 60) with (rg ESP + tf_cs). fold (load16 mm (rg ESP + tf_cs)).
  destruct (0 <? Z.land (load16 mm (rg ESP + tf_cs)) 3); cbn [r_mem r_reg r_seg r_flags]; regs; by split_and!.
Qed.

Lemma vector_spec n err s : let e := r_reg s ESP in
  is_Some err <-> has_err n = true -> (forall v, err = Some v -> load32 (r_mem s) e = v /\ is_word v) -> (n < 256)%nat -> 8 <= e -> e + 4 < 2 ^ 32 ->
  exists s' pc, run wide at_ inputs 5 (vector n) 0 s = Some (Leave "alltraps", pc, s') /\
    let tf := (if has_err n then e else e - 4) - 52 in
    r_reg s' ESP = tf + 48 /\ (forall r, r <> ESP -> r_reg s' r = r_reg s r) /\ r_seg s' = r_seg s /\ r_flags s' = r_flags s /\
    load32 (r_mem s') (tf + tf_trapno) = Z.of_nat n /\ load32 (r_mem s') (tf + tf_err) = default 0 err /\
    (forall x, ~ tf + 48 <= x < e -> r_mem s' x = r_mem s x).
Proof.
  intros e He Hv Hn He1 He2. destruct s as [rg sg cr fl mm gd ni no]. cbn [r_reg r_mem] in *. subst e.
  unfold vector. destruct (has_err n); cbn [negb app].
  - run_code vector. after_run. eexists. split; [done|]. cbv zeta. cbn [r_mem r_reg r_seg r_flags].
    destruct (proj2 He eq_refl) as [v ->]. destruct (Hv v eq_refl) as [Hl Hw]. unfold tf_trapno, tf_err. regs. loads. split; [lia|].
    split; [intros r Hr; by regs|]. split; [done|]. split; [done|]. split; [done|].
    split; [cbn; rewrite <-Hl; f_equal; lia|]. intros x Hx. by rewrite store32_other by lia.
  - destruct err as [v|]; [pose proof (proj1 He (ex_intro _ v eq_refl)); done|].
    run_code vector. after_run. eexists. split; [done|]. cbv zeta. cbn [r_mem r_reg r_seg r_flags default].
    unfold tf_trapno, tf_err. regs. loads. split; [lia|].
    split; [intros r Hr; by regs|]. split; [done|]. split; [done|]. split; [done|]. split; [done|].
    intros x Hx. by rewrite !store32_other by lia.
Qed.

(** What [alltraps] pushes below the words the vector has left. *)
Lemma alltraps_spec s tf : let m := r_mem s in
  (forall r, is_word (r_reg s r)) -> (forall x, is_half (r_seg s x)) -> r_reg s ESP = tf + 48 -> 8 <= tf -> tf + 76 < 2 ^ 32 -> is_word (at_ trap_return_pc) ->
  exists s', run wide at_ inputs 15 trapasm 0 s = Some (CallC "trap", 13%nat, s') /\
    r_reg s' ESP = tf - 8 /\ load32 (r_mem s') (tf - 4) = tf /\ top s' = at_ trap_return_pc /\
    load_frame (r_mem s') tf = Frame (r_reg s EDI) (r_reg s ESI) (r_reg s EBP) (tf + 32) (r_reg s EBX) (r_reg s EDX) (r_reg s ECX) (r_reg s EAX)
      (r_seg s GS) (r_seg s FS) (r_seg s ES) (r_seg s DS) (load32 m (tf + tf_trapno))
      (load32 m (tf + tf_err)) (load32 m (tf + tf_eip)) (load16 m (tf + tf_cs)) (load32 m (tf + tf_eflags))
      (load32 m (tf + tf_esp)) (load16 m (tf + tf_ss)) /\
    (r_seg s' DS, r_seg s' ES, r_seg s' FS, r_seg s' GS) =
      (Z.shiftl SEG_KDATA 3, Z.shiftl SEG_KDATA 3, Z.shiftl SEG_KCPU 3, Z.shiftl SEG_KCPU 3) /\
    r_seg s' CS = r_seg s CS /\ r_seg s' SS = r_seg s SS /\
    (forall x, ~ tf - 8 <= x < tf + 48 -> r_mem s' x = m x).
Proof.
  intros m Hr Hs He He1 He2 Hat. destruct s as [rg sg cr fl mm gd ni no]. cbn [r_reg r_mem r_seg] in *. subst m.
  assert (He' : tf = rg ESP - 48) by lia. subst tf. clear He.
  pose proof (Hr EDI). pose proof (Hr ESI). pose proof (Hr EBX). pose proof (Hr EBP). pose proof (Hr EAX). pose proof (Hr ECX). pose proof (Hr EDX).
  pose proof (Hs GS). pose proof (Hs FS). pose proof (Hs ES). pose proof (Hs DS).
  unfold trap_return_pc in *. run_code trapasm. after_run. split; [done|].
  unfold load_frame, top, tf_eax, tf_es, tf_ds, tf_trapno, tf_err, tf_eip, tf_cs, tf_eflags, tf_esp, tf_ss. cbn [r_mem r_reg r_seg].
  regs. split; [lia|]. split; [by loads|]. split; [by loads|]. split; [f_equal; loads; done || lia|].
  rewrite !u16_low16. split; [done|]. split; [done|]. split; [done|].
  intros x Hx. rewrite !store32_other by lia. by rewrite !store_seg_other by lia.
Qed.

(** From the entry point of vector [n] to the call of [trap]. *)
Definition to_trap (n : nat) (s : mstate) : option mstate :=
  match run wide at_ inputs 5 (vector n) 0 s with
  | Some (Leave l, _, s1) =>
      if decide (l = "alltraps"%string) then
        match run wide at_ inputs 15 trapasm 0 s1 with
        | Some (CallC f, _, s2) => if decide (f = "trap"%string) then Some s2 else None
        | _ => None
        end
      else None
  | _ => None
  end.

(** The frame for a trap that interrupts state [s] at [eip]; [sp] and [ss] are
    what lies above the frame when the trap comes from the kernel. *)
Definition frame_of (s : mstate) (n : nat) (err : option Z) (eip tf sp ss : Z) : trapframe :=
  Frame (r_reg s EDI) (r_reg s ESI) (r_reg s EBP) (tf + 32) (r_reg s EBX) (r_reg s EDX) (r_reg s ECX) (r_reg s EAX)
    (r_seg s GS) (r_seg s FS) (r_seg s ES) (r_seg s DS) (Z.of_nat n) (default 0 err) eip (r_seg s CS) (r_flags s) sp ss.

Record at_trap (s' : mstate) (tf : Z) : Prop := {
  at_esp : r_reg s' ESP = tf - 8;
  at_arg : load32 (r_mem s') (tf - 4) = tf;
  at_ret : top s' = at_ trap_return_pc;
  at_cs : r_seg s' CS = Z.shiftl SEG_KCODE 3;
  at_ds : forall x, x ∈ [DS; ES] -> r_seg s' x = Z.shiftl SEG_KDATA 3;
  at_gs : forall x, x ∈ [FS; GS] -> r_seg s' x = Z.shiftl SEG_KCPU 3
}.

Lemma push_facts v s a : r_reg s ESP = a -> 4 <= a < 2 ^ 32 ->
  exists s', push v s = s' /\ r_reg s' ESP = a - 4 /\ (forall r, r <> ESP -> r_reg s' r = r_reg s r) /\ r_seg s' = r_seg s /\
    r_mem s' = store32 (a - 4) v (r_mem s).
Proof.
  intros <- Ha. eexists. split; [reflexivity|]. unfold push, set_reg, set_mm. cbn [r_reg r_seg r_mem]. rewrite u32_small by lia.
  split; [by regs|]. split; [|done]. intros r Hr. by regs.
Qed.

(** The stack a trap uses: the kernel's when it comes from a program. *)
Lemma stack_for_trap t s tf : tf = (if 0 <? cpl s then ts_esp0 t - 8 else r_reg s ESP) - 68 ->
  8 <= tf -> tf + 76 < 2 ^ 32 -> regs_ok s ->
  exists s0, (if 0 <? cpl s then push (r_reg s ESP) (push (r_seg s SS) (set_reg ESP (ts_esp0 t) (set_sreg SS (ts_ss0 t) s))) else s) = s0 /\
    r_reg s0 ESP = tf + 68 /\ (forall r, r <> ESP -> r_reg s0 r = r_reg s r) /\ (forall x, x <> SS -> r_seg s0 x = r_seg s x) /\
    r_seg s0 SS = (if 0 <? cpl s then ts_ss0 t else r_seg s SS) /\
    ((0 <? cpl s) = true -> load32 (r_mem s0) (tf + tf_esp) = r_reg s ESP /\ load16 (r_mem s0) (tf + tf_ss) = r_seg s SS) /\
    (forall x, ~ tf + 68 <= x < (if 0 <? cpl s then tf + 76 else tf + 68) -> r_mem s0 x = r_mem s x).
Proof.
  intros Htf H1 H2 [Hr Hs _]. pose proof (Hr ESP). pose proof (Hs SS). destruct (0 <? cpl s).
  - set (b := set_reg ESP (ts_esp0 t) (set_sreg SS (ts_ss0 t) s)).
    destruct (push_facts (r_seg s SS) b (ts_esp0 t)) as (s1 & -> & A1 & A2 & A3 & A4); [done|lia|].
    destruct (push_facts (r_reg s ESP) s1 _ A1) as (s2 & -> & B1 & B2 & B3 & B4); [lia|]. exists s2. split; [done|].
    split; [lia|]. split; [intros r Hr'; rewrite B2, A2 by done; by apply set_fn_ne|].
    rewrite B3, A3, B4, A4. split; [intros x Hx; by apply set_fn_ne|]. split; [done|]. unfold tf_esp, tf_ss.
    split; [intros _; split; by loads|]. intros x Hx. by rewrite !store32_other by lia.
  - exists s. split; [done|]. split; [lia|]. done.
Qed.

(** What the processor has pushed when it reaches the entry point. *)
Record pushed (t : cpu_tables) (s s1 : mstate) (err : option Z) (eip tf : Z) : Prop := {
  pu_esp : r_reg s1 ESP = match err with Some _ => tf + 52 | None => tf + 56 end;
  pu_reg : forall r, r <> ESP -> r_reg s1 r = r_reg s r;
  pu_seg : forall x, x <> CS -> x <> SS -> r_seg s1 x = r_seg s x;
  pu_cs : r_seg s1 CS = Z.shiftl SEG_KCODE 3;
  pu_ss : r_seg s1 SS = if 0 <? cpl s then ts_ss0 t else r_seg s SS;
  pu_err : forall v, err = Some v -> load32 (r_mem s1) (tf + tf_err) = v;
  pu_eip : load32 (r_mem s1) (tf + tf_eip) = eip;
  pu_oldcs : load16 (r_mem s1) (tf + tf_cs) = r_seg s CS;
  pu_flags : load32 (r_mem s1) (tf + tf_eflags) = r_flags s;
  pu_outer : (0 <? cpl s) = true -> load32 (r_mem s1) (tf + tf_esp) = r_reg s ESP /\ load16 (r_mem s1) (tf + tf_ss) = r_seg s SS;
  pu_mem : forall x, ~ tf + 52 <= x < (if 0 <? cpl s then tf + 76 else tf + 68) -> r_mem s1 x = r_mem s x
}.

Lemma take_trap_spec t idt n err eip s g v b :
  let tf := (if 0 <? cpl s then ts_esp0 t - 8 else r_reg s ESP) - 68 in
  regs_ok s -> is_word eip -> (forall x, err = Some x -> is_word x) ->
  idt !! n = Some g -> enter (gdt t) (cpl s) g = Some (0, v, b) -> gd_cs g = Z.shiftl SEG_KCODE 3 -> 8 <= tf -> tf + 76 < 2 ^ 32 ->
  exists s1, take_trap t idt n err eip s = Some (v, s1) /\ pushed t s s1 err eip tf.
Proof.
  intros tf Hok Heip Hw Hg He Hcs Htf1 Htf2. unfold take_trap. rewrite Hg, He, Hcs. clear He Hg Hcs.
  change (Z.lor (Z.shiftl SEG_KCODE 3) 0) with (Z.shiftl SEG_KCODE 3).
  destruct (stack_for_trap t s tf eq_refl Htf1 Htf2 Hok) as (s0 & E & A1 & A2 & A3 & A4 & A5 & A6). rewrite E. clear E. destruct Hok as [Hr Hs Hf].
  destruct (push_facts (r_flags s) s0 _ A1) as (s1 & E & B1 & B2 & B3 & B4); [lia|]. rewrite E. clear E.
  destruct (push_facts (r_seg s CS) s1 _ B1) as (s2 & E & C1 & C2 & C3 & C4); [lia|]. rewrite E. clear E.
  destruct (push_facts eip s2 _ C1) as (s3 & E & D1 & D2 & D3 & D4); [lia|]. rewrite E. clear E.
  assert (exists s4, match err with Some e => push e s3 | None => s3 end = s4 /\ r_reg s4 ESP = match err with Some _ => tf + 52 | None => tf + 56 end /\
    (forall r, r <> ESP -> r_reg s4 r = r_reg s3 r) /\ r_seg s4 = r_seg s3 /\
    (forall x, ~ tf + 52 <= x < tf + 56 -> r_mem s4 x = r_mem s3 x) /\ (forall v, err = Some v -> load32 (r_mem s4) (tf + tf_err) = v))
    as (s4 & E & F1 & F2 & F3 & F4 & F5).
  { destruct err as [w|]; [|exists s3; split_and!; (done || lia)]. specialize (Hw w eq_refl).
    destruct (push_facts w s3 _ D1) as (s4 & E & F1 & F2 & F3 & F4); [lia|]. exists s4. split; [done|]. split; [lia|].
    split; [done|]. split; [done|]. rewrite F4. unfold tf_err. split; [intros x Hx; by rewrite store32_other by lia|].
    intros ? [= <-]. by loads. }
  rewrite E. clear E. eexists. split; [reflexivity|].
  assert (L : forall a, tf + 56 <= a -> load32 (r_mem s4) a = load32 (r_mem s3) a) by (intros a Ha; apply load32_ext; intros x Hx; apply F4; lia).
  assert (L' : forall a, tf + 56 <= a -> load16 (r_mem s4) a = load16 (r_mem s3) a) by (intros a Ha; unfold load16; by rewrite L).
  pose proof (Hs CS). split; unfold set_sreg, set_fl, tf_eip, tf_cs, tf_eflags, tf_esp, tf_ss in *; cbn [r_reg r_seg r_mem].
  - done.
  - intros r Hr'. by rewrite F2, D2, C2, B2, A2.
  - intros x Hx Hx'. rewrite set_fn_ne, F3, D3, C3, B3 by done. by apply A3.
  - by regs.
  - rewrite set_fn_ne, F3, D3, C3, B3 by done. exact A4.
  - exact F5.
  - rewrite L by lia. rewrite D4. by loads.
  - rewrite L' by lia. rewrite D4, C4. by loads.
  - rewrite L by lia. rewrite D4, C4, B4. by loads.
  - intros Ho. rewrite L, L', D4, C4, B4 by lia. loads. by apply A5.
  - intros x Hx. rewrite F4 by (destruct (0 <? cpl s); lia).
    rewrite D4, C4, B4, !store32_other by (destruct (0 <? cpl s); lia). apply A6. lia.
Qed.

Lemma to_trap_spec t idt n err eip s g v b : let outer := 0 <? cpl s in
  let e := if outer then ts_esp0 t - 8 else r_reg s ESP in let tf := e - 68 in
  regs_ok s -> is_word eip -> is_word (at_ trap_return_pc) -> (n < 256)%nat ->
  (is_Some err <-> has_err n = true) -> (forall x, err = Some x -> is_word x) ->
  idt !! n = Some g -> enter (gdt t) (cpl s) g = Some (0, v, b) -> gd_cs g = Z.shiftl SEG_KCODE 3 ->
  is_half (ts_ss0 t) -> 8 <= tf -> tf + 76 < 2 ^ 32 ->
  exists s1 s2, take_trap t idt n err eip s = Some (v, s1) /\ to_trap n s1 = Some s2 /\ at_trap s2 tf /\
    load_frame (r_mem s2) tf = (if outer then frame_of s n err eip tf (r_reg s ESP) (r_seg s SS)
      else frame_of s n err eip tf (load32 (r_mem s) (tf + tf_esp)) (load16 (r_mem s) (tf + tf_ss))) /\
    r_seg s2 SS = (if outer then ts_ss0 t else r_seg s SS) /\
    (forall x, ~ tf - 8 <= x < (if outer then tf + 76 else tf + 68) -> r_mem s2 x = r_mem s x).
Proof.
  intros outer e tf Hok Heip Hat Hn Herr Hw Hg He Hcs Hss Htf1 Htf2.
  destruct (take_trap_spec t idt n err eip s g v b Hok Heip Hw Hg He Hcs Htf1 Htf2) as (s1 & E1 & P). fold outer e tf in P.
  destruct P as [P1 P2 P3 P4 P5 P6 P7 P8 P9 P10 P11]. fold outer in P5, P10, P11. destruct Hok as [Hr Hs Hf].
  assert (Ht : (if has_err n then r_reg s1 ESP else r_reg s1 ESP - 4) - 52 = tf).
  { rewrite P1. destruct err; [rewrite (proj1 Herr) by eauto; lia|].
    destruct (has_err n); [by destruct (proj2 Herr eq_refl)|lia]. }
  destruct (vector_spec n err s1) as (s2 & pc & E2 & V); [done| |done|rewrite P1; destruct err; lia|rewrite P1; destruct err; lia|].
  { intros x ->. split; [|by apply Hw]. rewrite P1, <-(P6 x eq_refl). f_equal. }
  cbv zeta in V. rewrite Ht in V. destruct V as (V1 & V2 & V3 & V4 & V5 & V6 & V7).
  destruct (alltraps_spec s2 tf) as (s3 & E3 & W1 & W2 & W3 & W4 & W5 & W6 & W7 & W8); [..|exact V1|done|done|done|].
  { intros r. destruct (decide (r = ESP)) as [->|Hr']; [rewrite V1; unfold is_word; lia|]. rewrite V2, P2 by done. apply Hr. }
  { intros x. rewrite V3. destruct (decide (x = CS)) as [->|]; [rewrite P4; unfold is_half; by vm_compute|].
    destruct (decide (x = SS)) as [->|]; [rewrite P5; destruct outer; [done|apply Hs]|]. rewrite P3 by done. apply Hs. }
  exists s1, s3. split; [done|]. split; [unfold to_trap; by rewrite E2, decide_True, E3, decide_True by done|].
  assert (L : forall a, tf + 56 <= a -> load32 (r_mem s2) a = load32 (r_mem s1) a).
  { intros a Ha. apply load32_ext. intros x Hx. apply V7. rewrite P1. destruct err; lia. }
  split; [|split; [|split]].
  - injection W5 as S1 S2 S3 S4. split; [done|done|done|by rewrite W6, V3| |];
      intros x Hx; rewrite !elem_of_cons, elem_of_nil in Hx; destruct Hx as [-> |[-> |[]]]; done.
  - rewrite W4, V5, V6, !V2, !P2, V3, !P3 by done. unfold load16 in *. unfold tf_eip, tf_cs, tf_eflags, tf_esp, tf_ss in *.
    rewrite !L, P7, P8, P9 by lia. unfold frame_of. destruct outer; [destruct P10 as [-> ->]; done|].
    assert (L0 : forall a, tf + 68 <= a -> load32 (r_mem s1) a = load32 (r_mem s) a) by (intros a Ha; apply load32_ext; intros x Hx; apply P11; lia).
    by rewrite !L0 by lia.
  - by rewrite W7, V3.
  - intros x Hx. rewrite W8 by (destruct outer; lia). rewrite V7 by (rewrite P1; destruct outer, err; lia). apply P11. lia.
Qed.

(** [trap] has returned: its argument is on top of the stack, and the kernel's
    code segment is still in use. *)
Definition trap_done (s : mstate) (tf : Z) : Prop := r_reg s ESP = tf - 4 /\ cpl s = 0.

(** The registers after [trapret] from a frame that is that of [s], but for
    [%eax]. *)
Lemma trapret_resumes s s4 n err eip tf tf' sp ss eax : let outer := 0 <? cpl s in
  r_reg s4 ESP = tf -> cpl s4 = 0 -> 0 <= tf -> tf + 76 < 2 ^ 32 ->
  (if outer then sp = r_reg s ESP /\ ss = r_seg s SS else tf + 68 = r_reg s ESP /\ r_seg s4 SS = r_seg s SS) ->
  load_frame (r_mem s4) tf = frame_of (set_reg EAX eax s) n err eip tf' sp ss ->
  exists s5, run wide at_ inputs 10 trapasm trapret_pc s4 = Some (Goto eip, 22%nat, s5) /\ r_mem s5 = r_mem s4 /\
    r_reg s5 EAX = eax /\ (forall r, r <> EAX -> r_reg s5 r = r_reg s r) /\ (forall x, r_seg s5 x = r_seg s x) /\ r_flags s5 = r_flags s.
Proof.
  intros outer Hd Hc H1 H2 Hsp Hf.
  destruct (trapret_spec s4 tf Hd Hc H1 H2) as (s5 & E & M & R1 & R2 & R3 & R4 & R5 & R6 & R7 & S1 & S2 & S3 & S4 & S5 & F & SP).
  rewrite Hf in *. unfold frame_of, set_reg in *.
  cbn [f_edi f_esi f_ebp f_ebx f_edx f_ecx f_eax f_gs f_fs f_es f_ds f_cs f_eip f_eflags f_esp f_ss r_reg r_seg r_flags] in *.
  assert (N : forall r, r <> EAX -> set_fn (r_reg s) EAX eax r = r_reg s r) by (intros r Hr; by apply set_fn_ne).
  rewrite !N in * by done. rewrite set_fn_eq in R7. fold (cpl s) outer in SP.
  assert (r_reg s5 ESP = r_reg s ESP /\ r_seg s5 SS = r_seg s SS) as [R8 S6] by (destruct outer, Hsp, SP; split; congruence).
  exists s5. split; [done|]. split; [done|]. split; [done|]. split; [intros []; done|]. split; [intros []; done|done].
Qed.

(** The same from the return of [trap]. *)
Lemma trap_resumes s s4 n err eip tf sp ss eax : let outer := 0 <? cpl s in
  trap_done s4 tf -> 4 <= tf -> tf + 76 < 2 ^ 32 ->
  (if outer then sp = r_reg s ESP /\ ss = r_seg s SS else tf + 68 = r_reg s ESP /\ r_seg s4 SS = r_seg s SS) ->
  load_frame (r_mem s4) tf = frame_of (set_reg EAX eax s) n err eip tf sp ss ->
  exists s5, run wide at_ inputs 11 trapasm trap_return_pc s4 = Some (Goto eip, 22%nat, s5) /\ r_mem s5 = r_mem s4 /\
    r_reg s5 EAX = eax /\ (forall r, r <> EAX -> r_reg s5 r = r_reg s r) /\ (forall x, r_seg s5 x = r_seg s x) /\ r_flags s5 = r_flags s.
Proof.
  intros outer [He Hc] H1 H2 Hsp Hf. erewrite run_next; [|reflexivity|reflexivity].
  match goal with |- context [run _ _ _ 10 trapasm _ ?st] => set (s1 := st) end.
  apply (trapret_resumes s s1 n err eip tf tf sp ss eax); [|done|lia|done|done|done].
  change (set_fn (r_reg s4) ESP (u32 (r_reg s4 ESP + 4)) ESP = tf). regs. rewrite He, u32_small by lia. lia.
Qed.
End Spec.

(** ** The tables of a running process *)

Lemma switchuvm_tables ts kstack pgdir local c t : length (gdt c) = NSEGS ->
  switchuvm ts kstack pgdir (seginit local c) = Ok tt t ->
  gdt t !! 1%nat = Some (SEG (Z.lor STA_X STA_R) 0 0xffffffff 0) /\ ts_esp0 t = u32 (kstack + KSTACKSIZE) /\ ts_ss0 t = Z.shiftl SEG_KDATA 3.
Proof.
  intros Hl. unfold switchuvm, bind, modify. destruct (pgdir =? 0); [done|]. intros [= <-]. cbn [gdt ts_esp0 ts_ss0].
  split; [|done]. unfold seginit, set_seg. cbn [gdt].
  by destruct (gdt c) as [|d0 [|d1 [|d2 [|d3 [|d4 [|d5 [|d6 [|]]]]]]]].
Qed.

Lemma process_gate vectors idt t n lvl : length idt = 256%nat -> (n < 256)%nat -> (forall i, (i < 256)%nat -> is_word (vectors i)) ->
  gdt t !! 1%nat = Some (SEG (Z.lor STA_X STA_R) 0 0xffffffff 0) -> 0 <= lvl ->
  exists g, tvinit vectors idt !! n = Some g /\ enter (gdt t) lvl g = Some (0, vectors n, bool_decide (n = Z.to_nat T_SYSCALL)) /\
    gd_cs g = Z.shiftl SEG_KCODE 3 /\ may_call lvl g = (lvl <=? if bool_decide (n = Z.to_nat T_SYSCALL) then DPL_USER else 0).
Proof.
  intros Hl Hn Hv Ht Hlvl. rewrite tvinit_lookup by done. eexists. split; [reflexivity|]. split.
  - apply (SETGATE_enter _ _ _ _ _ _ Ht); try done. by apply Hv.
  - split; [done|]. by case_bool_decide.
Qed.

(** A routine in C has returned: the return address is off the stack, and the
    segments are as it found them. *)
Definition c_returned (s s' : mstate) : Prop := r_reg s' ESP = r_reg s ESP + 4 /\ forall x, r_seg s' x = r_seg s x.

Definition with_eax (v : Z) (f : trapframe) : trapframe :=
  Frame (f_edi f) (f_esi f) (f_ebp f) (f_oesp f) (f_ebx f) (f_edx f) (f_ecx f) v (f_gs f) (f_fs f) (f_es f) (f_ds f) (f_trapno f)
    (f_err f) (f_eip f) (f_cs f) (f_eflags f) (f_esp f) (f_ss f).

Lemma load_frame_eax m tf v : is_word v -> load_frame (store32 (tf + tf_eax) v m) tf = with_eax v (load_frame m tf).
Proof.
  intros Hv. unfold load_frame, with_eax. cbn [f_edi f_esi f_ebp f_oesp f_ebx f_edx f_ecx f_eax f_gs f_fs f_es f_ds f_trapno f_err f_eip f_cs f_eflags f_esp f_ss].
  unfold tf_eax, tf_es, tf_ds, tf_trapno, tf_err, tf_eip, tf_cs, tf_eflags, tf_esp, tf_ss. f_equal; by loads.
Qed.

Lemma with_eax_frame s n err eip tf sp ss v :
  with_eax v (frame_of s n err eip tf sp ss) = frame_of (set_reg EAX v s) n err eip tf sp ss.
Proof. unfold frame_of, with_eax, set_reg. cbn [r_reg r_seg r_flags]. by regs. Qed.

Lemma load32_moved m m' a a' : (forall o, 0 <= o < 4 -> m' (a' + o) = m (a + o)) -> load32 m' a' = load32 m a.
Proof.
  intros H. unfold load32. rewrite <-(Z.add_0_r a'), <-(Z.add_0_r a), H by lia. rewrite !Z.add_0_r. by rewrite !H by lia.
Qed.

(** A frame copied but for [%eax]. *)
Lemma load_frame_copied m m' tf tf' v : load32 m' (tf' + tf_eax) = v ->
  (forall o, 0 <= o < 76 -> ~ 28 <= o < 32 -> m' (tf' + o) = m (tf + o)) -> load_frame m' tf' = with_eax v (load_frame m tf).
Proof.
  intros <- H. assert (L : forall o, 0 <= o -> o + 4 <= 76 -> o + 4 <= 28 \/ 32 <= o -> load32 m' (tf' + o) = load32 m (tf + o)).
  { intros o O1 O2 O3. apply load32_moved. intros j Hj. rewrite <-!Z.add_assoc. apply H; lia. }
  unfold load_frame, with_eax, load16. cbn [f_edi f_esi f_ebp f_oesp f_ebx f_edx f_ecx f_eax f_gs f_fs f_es f_ds f_trapno f_err f_eip f_cs f_eflags f_esp f_ss].
  unfold tf_es, tf_ds, tf_trapno, tf_err, tf_eip, tf_cs, tf_eflags, tf_esp, tf_ss.
  pose proof (L 0 ltac:(lia) ltac:(lia) ltac:(lia)) as L0. rewrite !Z.add_0_r in L0.
  f_equal; first [exact L0 | reflexivity | apply L; lia | f_equal; apply L; lia].
Qed.

(** Resume [s] at [eip] with [eax]. *)
Definition resumed (s s' : mstate) (eax : Z) : Prop :=
  r_reg s' EAX = eax /\ (forall r, r <> EAX -> r_reg s' r = r_reg s r) /\ (forall x, r_seg s' x = r_seg s x) /\ r_flags s' = r_flags s.


(** The tables under which a process with this kernel stack runs. *)
Record process_tables (vectors : nat -> Z) (idt : list gatedesc) (kstack : Z) (t : cpu_tables) : Prop := {
  pt_idt : length idt = 256%nat;
  pt_vectors : forall i, (i < 256)%nat -> is_word (vectors i);
  pt_kstack : is_word (kstack + KSTACKSIZE);
  pt_tables : exists ts pgdir local c, length (gdt c) = NSEGS /\ switchuvm ts kstack pgdir (seginit local c) = Ok tt t
}.

Lemma process_trap wide at_ inputs vectors idt kstack t n err eip s : let outer := 0 <? cpl s in
  let tf := (if outer then kstack + KSTACKSIZE - 8 else r_reg s ESP) - 68 in
  process_tables vectors idt kstack t ->
  regs_ok s -> is_word eip -> is_word (at_ trap_return_pc) -> (n < 256)%nat -> (is_Some err <-> has_err n = true) ->
  (forall x, err = Some x -> is_word x) -> 8 <= tf -> tf + 76 < 2 ^ 32 ->
  exists s1 s2, take_trap t (tvinit vectors idt) n err eip s = Some (vectors n, s1) /\ to_trap wide at_ inputs n s1 = Some s2 /\
    at_trap at_ s2 tf /\
    load_frame (r_mem s2) tf = (if outer then frame_of s n err eip tf (r_reg s ESP) (r_seg s SS)
      else frame_of s n err eip tf (load32 (r_mem s) (tf + tf_esp)) (load16 (r_mem s) (tf + tf_ss))) /\
    r_seg s2 SS = (if outer then Z.shiftl SEG_KDATA 3 else r_seg s SS) /\
    (forall x, ~ tf - 8 <= x < (if outer then tf + 76 else tf + 68) -> r_mem s2 x = r_mem s x).
Proof.
  intros outer tf [Hidt Hv Hk (ts & pgdir & local & c & Hgdt & Ht)] Hok Heip Hat Hn He Hw H1 H2.
  destruct (switchuvm_tables _ _ _ _ _ _ Hgdt Ht) as (T1 & T2 & T3). rewrite u32_small in T2 by done.
  assert (Hcpl : 0 <= cpl s) by (apply Z.land_nonneg; lia).
  destruct (process_gate vectors idt t n (cpl s) Hidt Hn Hv T1 Hcpl) as (g & G1 & G2 & G3 & _).
  pose proof (to_trap_spec wide at_ inputs t (tvinit vectors idt) n err eip s g (vectors n) _ Hok Heip Hat Hn He Hw G1 G2 G3) as S.
  rewrite T2, T3 in S. apply S; [by vm_compute|done|done].
Qed.

(** From the return of [trap] back to the interrupted code. *)
Lemma c_return_resumes wide at_ inputs s s2 s3 n err eip kstack eax : let outer := 0 <? cpl s in
  let tf := (if outer then kstack + KSTACKSIZE - 8 else r_reg s ESP) - 68 in
  at_trap at_ s2 tf -> 4 <= tf -> tf + 76 < 2 ^ 32 ->
  load_frame (r_mem s2) tf = (if outer then frame_of s n err eip tf (r_reg s ESP) (r_seg s SS)
    else frame_of s n err eip tf (load32 (r_mem s) (tf + tf_esp)) (load16 (r_mem s) (tf + tf_ss))) ->
  r_seg s2 SS = (if outer then Z.shiftl SEG_KDATA 3 else r_seg s SS) ->
  c_returned s2 s3 -> load_frame (r_mem s3) tf = with_eax eax (load_frame (r_mem s2) tf) ->
  exists s4, run wide at_ inputs 11 trapasm trap_return_pc s3 = Some (Goto eip, 22%nat, s4) /\ resumed s s4 eax /\ r_mem s4 = r_mem s3.
Proof.
  intros outer tf [A1 A2 A3 A4 A5 A6] H1 H2 Hf Hss [C1 C2] Hf3. rewrite Hf in Hf3.
  assert (Hd : trap_done s3 tf). { split; [lia|]. unfold cpl. by rewrite C2, A4. }
  destruct outer eqn:Eo; rewrite with_eax_frame in Hf3.
  - destruct (trap_resumes wide at_ inputs s s3 n err eip tf (r_reg s ESP) (r_seg s SS) eax) as (s4 & E & M & R); [done|lia|done| |done|].
    { unfold outer in Eo. by rewrite Eo. }
    by exists s4.
  - destruct (trap_resumes wide at_ inputs s s3 n err eip tf _ _ eax Hd H1 H2 ltac:(fold outer; rewrite Eo; split; [lia|by rewrite C2]) Hf3)
      as (s4 & E & M & R).
    by exists s4.
Qed.
