(* ===== verification/AsmBoot.v ===== *)
(** * The boot code

    [bootasm.S], [entry.S] and [entryother.S] up to the first C routine, the boot
    page directory of [main.c], the first program [initcode.S] and the code a
    program returns to from [main]. *)

From stdpp Require Import strings.
From S2P Require Import Prelude Bytes Params CString Kalloc Vm Proc Syscall Trap Segment Devices Start Boot Asm AsmSpec.

Ltac each_seg := intros x Hx; repeat (apply elem_of_cons in Hx as [-> |Hx]; [by regs|]); by apply elem_of_nil in Hx.

Section Boot.
Context (wide : bool) (at_ : nat -> Z) (inputs : nat -> Z).

(** Where the wait for the keyboard controller begins and how it ends: the first
    read without the busy bit. *)
Definition ready_at (n j : nat) : Prop :=
  (n <= j)%nat /\ has (u8 (inputs j)) 2 = false /\ forall i, (n <= i < j)%nat -> has (u8 (inputs i)) 2 = true.

(** Registers and the like that the wait leaves alone. *)
Record waited (s s' : mstate) (j : nat) : Prop := {
  wa_reg : forall r, r <> EAX -> r_reg s' r = r_reg s r;
  wa_seg : r_seg s' = r_seg s;
  wa_cr : r_cr s' = r_cr s;
  wa_mem : r_mem s' = r_mem s;
  wa_gdtr : r_gdtr s' = r_gdtr s;
  wa_if : has (r_flags s') FL_IF = has (r_flags s) FL_IF;
  wa_in : r_in s' = S j;
  wa_out : r_out s' = r_out s
}.

Lemma u8_low8 v old : u8 (low8 v old) = u8 v.
Proof.
  unfold low8, u8, wrap. rewrite <-!Z.land_ones by lia. apply Z.bits_inj'. intros n Hn.
  rewrite !Z.land_spec, Z.lor_spec, !Z.land_spec. destruct (Z.ltb_spec n 8).
  - replace (Z.testbit 0xffffff00 n) with false by (change 0xffffff00 with (Z.shiftl 0xffffff 8); by rewrite Z.shiftl_spec_low).
    by rewrite andb_false_r, orb_false_l, <-andb_assoc, andb_diag.
  - rewrite Z.ones_spec_high by lia. by rewrite !andb_false_r.
Qed.

Lemma testb_busy v old : (u8 (Z.land (low8 v old) 2) =? 0) = negb (has (u8 v) 2).
Proof.
  assert (E : u8 (Z.land (low8 v old) 2) = Z.land (u8 (low8 v old)) 2).
  { unfold u8, wrap. rewrite <-!Z.land_ones by lia. rewrite <-Z.land_assoc, (Z.land_comm 2), Z.land_assoc. done. }
  rewrite E, u8_low8. unfold has. by destruct (Z.land (u8 v) 2 =? 0).
Qed.

Lemma zf_if (b : bool) f : has (if b then Z.lor f FL_ZF else clr_flag f FL_ZF) FL_IF = has f FL_IF.
Proof. destruct b; [apply has_set_diff|apply has_clr_diff]; try done; [exists 6|exists 9|exists 6|exists 9]; done. Qed.

Lemma zf_zf (b : bool) f : has (if b then Z.lor f FL_ZF else clr_flag f FL_ZF) FL_ZF = b.
Proof. destruct b; [apply has_set_same|apply has_clr_same]; exists 6; done. Qed.

(** The lines [l: inb; testb; jnz l] at [pc]. *)
Definition polls (prog : list line) (pc : nat) (l : string) : Prop :=
  prog !! pc = Some (Label l) /\ prog !! S pc = Some (Ins (Inb 0x64)) /\ prog !! S (S pc) = Some (Ins (Testb 2 EAX)) /\
  prog !! S (S (S pc)) = Some (Ins (Jnz l)) /\ find_label l prog = Some pc.

Lemma poll_once prog pc l s : polls prog pc l ->
  exists s1, waited s s1 (r_in s) /\ forall fuel, run wide at_ inputs (4 + fuel) prog pc s =
    run wide at_ inputs fuel prog (if has (u8 (inputs (r_in s))) 2 then pc else (4 + pc)%nat) s1.
Proof.
  intros (L0 & L1 & L2 & L3 & Lf). eexists. split; cycle 1.
  - intros fuel. cbn [Nat.add]. rewrite (run_label _ _ _ _ _ _ _ _ L0). erewrite (run_next _ _ _ _ _ _ _ _ _ L1); [|reflexivity].
    erewrite (run_next _ _ _ _ _ _ _ _ _ L2); [|reflexivity].
    cbn [run]. rewrite L3. cbn [exec with_zf set_fl r_flags r_reg]. rewrite set_fn_eq, zf_zf, testb_busy.
    assert (E : u8 (u8 (inputs (r_in s))) = u8 (inputs (r_in s))) by (unfold u8, wrap; by rewrite Z.mod_mod).
    rewrite E. destruct (has (u8 (inputs (r_in s))) 2); cbn [negb]; [by rewrite Lf|done].
  - split; try done; cbn [with_zf set_fl r_flags r_reg r_seg r_cr r_mem r_gdtr r_in r_out].
    + intros r Hr. by apply set_fn_ne.
    + apply zf_if.
Qed.

Lemma waited_trans s s1 s2 i j : waited s s1 i -> waited s1 s2 j -> waited s s2 j.
Proof. intros [] []. split; try congruence. intros r Hr. by rewrite wa_reg1, wa_reg0. Qed.

Lemma wait_loop prog pc l : polls prog pc l -> forall d s j, ready_at (r_in s) j -> (j = r_in s + d)%nat ->
  exists s', waited s s' j /\ forall fuel, run wide at_ inputs (4 * S d + fuel) prog pc s = run wide at_ inputs fuel prog (4 + pc) s'.
Proof.
  intros Hp. induction d as [|d IH]; intros s j (Hle & Hj & Hb) Ej; destruct (poll_once prog pc l s Hp) as (s1 & W & E).
  - assert (j = r_in s) as -> by lia. rewrite Hj in E. exists s1. split; [done|]. exact E.
  - rewrite Hb in E by lia. destruct (IH s1 j) as (s2 & W2 & E2).
    + rewrite (wa_in _ _ _ W). split; [lia|]. split; [done|]. intros i Hi. apply Hb. lia.
    + rewrite (wa_in _ _ _ W). lia.
    + exists s2. split; [by eapply waited_trans|]. intros fuel. replace (4 * S (S d) + fuel)%nat with (4 + (4 * S d + fuel))%nat by lia.
      by rewrite E, E2.
Qed.

(** The descriptor tables of the boot code in memory. *)
Definition has_gdt (m : mem) (gdtdesc gdt : Z) : Prop :=
  bytes_at m gdtdesc 6 = boot_gdtdesc gdt /\ bytes_at m gdt (length boot_gdt) = boot_gdt.

Lemma boot_gdt_flat : boot_gdt = replicate 8 0 ++ seg_bytes (SEG (Z.lor STA_X STA_R) 0 0xffffffff 0) ++ seg_bytes (SEG STA_W 0 0xffffffff 0).
Proof. vm_compute. reflexivity. Qed.

(** [lgdt] finds the table. *)
Lemma lgdt_finds m gdtdesc gdt : 0 <= gdt < 2 ^ 32 -> has_gdt m gdtdesc gdt ->
  u16 (load32 m gdtdesc) = 23 /\ load32 m (gdtdesc + 2) = gdt.
Proof.
  intros Hg [H _].
  assert (B : forall i v, boot_gdtdesc gdt !! i = Some v -> m (gdtdesc + Z.of_nat i) = v).
  { intros i v Hv. rewrite <-H in Hv. unfold bytes_at in Hv. apply list_lookup_fmap_Some in Hv as (a & -> & Ha).
    apply lookup_seqZ in Ha as [-> _]. done. }
  pose proof (B 0%nat _ eq_refl) as B0. pose proof (B 1%nat _ eq_refl) as B1. pose proof (B 2%nat _ eq_refl) as B2.
  pose proof (B 3%nat _ eq_refl) as B3. pose proof (B 4%nat _ eq_refl) as B4. pose proof (B 5%nat _ eq_refl) as B5. clear B H.
  pose proof (unle_le 4 gdt) as U. rewrite Z.mod_small in U by done. cbn [le unle] in U.
  change (Z.of_nat 0) with 0 in *. change (Z.of_nat 1) with 1 in *. change (Z.of_nat 2) with 2 in *. change (Z.of_nat 3) with 3 in *.
  change (Z.of_nat 4) with 4 in *. change (Z.of_nat 5) with 5 in *. rewrite Z.add_0_r in B0. unfold load32. split.
  - rewrite B0, B1. change ((Z.of_nat (length boot_gdt) - 1) mod 256) with 23. change ((Z.of_nat (length boot_gdt) - 1) / 256 mod 256) with 0.
    rewrite Z.add_0_l, Z.mul_assoc. change (2 ^ 8 * 2 ^ 8) with (2 ^ 16). unfold u16, wrap. rewrite Z.mul_comm, Z.mod_add by lia. done.
  - replace (gdtdesc + 2 + 1) with (gdtdesc + 3) by lia. replace (gdtdesc + 2 + 2) with (gdtdesc + 4) by lia.
    replace (gdtdesc + 2 + 3) with (gdtdesc + 5) by lia. rewrite B2, B3, B4, B5. lia.
Qed.

(** In protected mode with the boot code's segments and no interrupts. *)
Record protected (s : mstate) (gdt : Z) : Prop := {
  pm_cs : r_seg s CS = Z.shiftl SEG_KCODE 3;
  pm_data : forall x, x ∈ [DS; ES; SS] -> r_seg s x = Z.shiftl SEG_KDATA 3;
  pm_unused : forall x, x ∈ [FS; GS] -> r_seg s x = 0;
  pm_gdtr : r_gdtr s = (23, gdt);
  pm_pe : has (r_cr s CR0) CR0_PE = true;
  pm_if : has (r_flags s) FL_IF = false
}.

Lemma has_lor_pe v : has (Z.lor v CR0_PE) CR0_PE = true.
Proof. apply has_set_same. by exists 0. Qed.

Lemma bootasm_spec s start gdtdesc gdt j1 j2 :
  4 <= start < 2 ^ 32 -> is_word gdt -> is_word (at_ 33%nat) -> has_gdt (r_mem s) gdtdesc gdt -> ready_at (r_in s) j1 -> ready_at (S j1) j2 ->
  exists fuel s', run wide at_ inputs fuel (bootasm start gdtdesc) 0 s = Some (CallC "bootmain", 32%nat, s') /\
    protected s' gdt /\ r_reg s' ESP = start - 4 /\ load32 (r_mem s') (start - 4) = at_ 33%nat /\
    (forall x, ~ start - 4 <= x < start -> r_mem s' x = r_mem s x) /\
    r_out s' = r_out s ++ [(0x64, 0xd1); (0x60, 0xdf)].
Proof.
  intros Hst Hg Hat Hgdt H1 H2. destruct (lgdt_finds _ _ _ Hg Hgdt) as [G1 G2].
  exists (6 + (4 * S (j1 - r_in s) + (2 + (4 * S (j2 - S j1) + 30))))%nat.
  assert (P1 : polls (bootasm start gdtdesc) 6 "seta20.1") by done. assert (P2 : polls (bootasm start gdtdesc) 12 "seta20.2") by done.
  destruct s as [rg sg cr fl mm gd ni no]. cbn [r_in r_mem r_out] in *.
  unfold bootasm at 1. cbn [Nat.add]. do 6 asm_line. fold (bootasm start gdtdesc).
  match goal with |- context [run _ _ _ _ _ 6 ?st] => set (s1 := st) end.
  destruct (wait_loop _ _ _ P1 (j1 - ni) s1 j1) as (s2 & W & E); [done|cbn; destruct H1; lia|].
  rewrite E. clear E. destruct s2 as [rg2 sg2 cr2 fl2 mm2 gd2 ni2 no2], W as [_ _ W1 W2 _ W3 W4 W5].
  cbn [r_cr r_mem r_flags r_in r_out s1] in *. subst cr2 mm2 ni2 no2. rewrite zf_if, has_clr_same in W3 by (by exists 9). clear s1.
  unfold bootasm at 1. cbn [Nat.add]. do 2 asm_line. fold (bootasm start gdtdesc).
  match goal with |- context [run _ _ _ _ _ 12 ?st] => set (s3 := st) end.
  destruct (wait_loop _ _ _ P2 (j2 - S j1) s3 j2) as (s4 & W & E); [done|cbn; destruct H2; lia|]. rewrite E. clear E.
  destruct s4 as [rg4 sg4 cr4 fl4 mm4 gd4 ni4 no4], W as [_ _ W6 W7 _ W8 W9 W10].
  cbn [r_cr r_mem r_flags r_in r_out s3] in *. subst cr4 mm4 ni4 no4. rewrite W3 in W8. clear s3.
  unfold bootasm. run_code bootasm. after_run. split; [done|]. cbn [r_reg r_mem r_out]. regs. rewrite u8_low8. 
  split; [|split; [done|split; [by loads|split; [intros x Hx; by rewrite store32_other by lia|]]]].
  - split; cbn [r_seg r_gdtr r_cr r_flags]; regs; rewrite ?u16_low16.
    + done.
    + each_seg.
    + each_seg.
    + by rewrite G1, G2.
    + apply has_lor_pe.
    + by rewrite zf_if.
  - rewrite <-!app_assoc. cbn [app]. rewrite !u8_low8. done.
Qed.

(** Paging is on, with 4 MB pages. *)
Definition paging (s : mstate) (pgdir : Z) : Prop :=
  r_cr s CR3 = pgdir /\ has (r_cr s CR4) CR4_PSE = true /\ has (r_cr s CR0) CR0_PG = true /\ has (r_cr s CR0) CR0_WP = true.

Lemma has_lor_pg v : has (Z.lor v (Z.lor CR0_PG CR0_WP)) CR0_PG = true /\ has (Z.lor v (Z.lor CR0_PG CR0_WP)) CR0_WP = true.
Proof. change CR0_PG with (2 ^ 31). change CR0_WP with (2 ^ 16). rewrite !has_bit, !Z.lor_spec by lia. by rewrite !Z.pow2_bits_true, !orb_true_r by lia. Qed.

Lemma entry_spec s entrypgdir stack main : is_word (stack + KSTACKSIZE) -> is_word main ->
  exists s', run wide at_ inputs 13 (entry entrypgdir stack main) 0 s = Some (Goto main, 11%nat, s') /\
    paging s' (v2p entrypgdir) /\ r_reg s' ESP = stack + KSTACKSIZE /\ r_mem s' = r_mem s.
Proof.
  intros Hs Hm. unfold is_word in *. destruct s as [rg sg cr fl mm gd ni no]. run_code entry. after_run. split; [done|].
  unfold paging. cbn [r_cr r_reg r_mem]. regs. unfold v2p. rewrite u32_u32. split; [|done]. split; [done|].
  split; [apply has_set_same; by exists 4|]. apply has_lor_pg.
Qed.

Lemma has_lor_pepg v : has (Z.lor v (Z.lor (Z.lor CR0_PE CR0_PG) CR0_WP)) CR0_PE = true /\
  has (Z.lor v (Z.lor (Z.lor CR0_PE CR0_PG) CR0_WP)) CR0_PG = true /\ has (Z.lor v (Z.lor (Z.lor CR0_PE CR0_PG) CR0_WP)) CR0_WP = true.
Proof.
  change CR0_PE with (2 ^ 0). change CR0_PG with (2 ^ 31). change CR0_WP with (2 ^ 16). rewrite !has_bit, !Z.lor_spec by lia.
  by rewrite !Z.pow2_bits_true, !orb_true_r, ?orb_true_l, ?orb_true_r by lia.
Qed.

Lemma entryother_spec s start gdtdesc gdt stack : let m := r_mem s in
  is_word gdt -> is_word (at_ 29%nat) -> has_gdt m gdtdesc gdt -> load32 m (start - 4) = stack -> 4 <= stack < 2 ^ 32 ->
  stack <= start - 8 \/ start - 4 <= stack - 4 ->
  exists s', run wide at_ inputs 40 (entryother start gdtdesc) 0 s = Some (Goto (load32 m (start - 8)), 28%nat, s') /\
    protected s' gdt /\ paging s' (load32 m (start - 12)) /\ r_reg s' ESP = stack - 4 /\ r_out s' = r_out s.
Proof.
  intros m Hg Hat Hgdt Hst Hs Hd. destruct (lgdt_finds _ _ _ Hg Hgdt) as [G1 G2]. destruct s as [rg sg cr fl mm gd ni no]. cbn [r_mem r_out] in *. subst m.
  run_code entryother. after_run. split; [done|]. cbn [r_reg]. regs.
  split; [|split; [|by rewrite Hst]].
  - split; cbn [r_seg r_gdtr r_cr r_flags]; regs; rewrite ?u16_low16.
    + done.
    + each_seg.
    + each_seg.
    + by rewrite G1, G2.
    + apply has_lor_pepg.
    + rewrite !zf_if. apply has_clr_same. by exists 9.
  - unfold paging. cbn [r_cr]. regs. split; [done|]. split; [apply has_set_same; by exists 4|]. apply has_lor_pepg.
Qed.

(** ** Programs *)

(** A program whose [main] returns: the return address [exec] has put on the
    stack leads to [implicit_exit]. *)
Lemma implicit_exit_spec s : let e := r_reg s ESP in
  4 <= e -> e + 8 < 2 ^ 32 -> is_word (r_reg s EAX) ->
  exists s', run wide at_ inputs 4 implicit_exit 0 s = Some (Raise T_SYSCALL, 3%nat, s') /\ r_reg s' EAX = SYS_exit /\
    r_reg s' ESP = e - 4 /\ load32 (r_mem s') (e - 4) = r_reg s EAX /\ forall x, ~ e - 4 <= x < e -> r_mem s' x = r_mem s x.
Proof.
  intros e H1 H2 H3. destruct s as [rg sg cr fl mm gd ni no]. cbn [r_reg r_mem] in *. subst e. run_code implicit_exit. after_run.
  split; [done|]. cbn [r_reg r_mem]. regs. split; [done|]. split; [done|]. split; [by loads|]. intros x Hx. by rewrite store32_other by lia.
Qed.

Lemma initcode_spec s init argv : let e := r_reg s ESP in
  12 <= e < 2 ^ 32 -> is_word init -> is_word argv ->
  exists s', run wide at_ inputs 6 (initcode init argv) 0 s = Some (Raise T_SYSCALL, 5%nat, s') /\ r_reg s' EAX = SYS_exec /\
    r_reg s' ESP = e - 12 /\ load32 (r_mem s') (e - 8) = init /\ load32 (r_mem s') (e - 4) = argv /\
    forall x, ~ e - 12 <= x < e -> r_mem s' x = r_mem s x.
Proof.
  intros e H1 H2 H3. unfold is_word in *. destruct s as [rg sg cr fl mm gd ni no]. cbn [r_reg r_mem] in *. subst e.
  run_code initcode. after_run.
  split; [done|]. cbn [r_reg r_mem]. regs. split; [done|]. split; [done|]. split; [by loads|]. split; [by loads|].
  intros x Hx. by rewrite !store32_other by lia.
Qed.

(** After [exec] has failed it calls [exit] again and again. *)
Lemma initcode_exits s init argv pc : pc = 6%nat \/ pc = 9%nat ->
  exists s', run wide at_ inputs 4 (initcode init argv) pc s = Some (Raise T_SYSCALL, 8%nat, s') /\ r_reg s' EAX = SYS_exit.
Proof. intros [-> | ->]; destruct s as [rg sg cr fl mm gd ni no]; run_code initcode; after_run; (split; [done|]); cbn [r_reg]; by regs. Qed.
End Boot.

(** ** The boot page directory *)

Definition PTE_PS : Z := 0x080.

(** [entrypgdir] of [main.c], as a function of the index. *)
Definition entrypgdir (i : Z) : Z :=
  if (i =? 0) || (i =? Z.shiftr KERNBASE PDXSHIFT) then Z.lor (Z.lor (Z.lor 0 PTE_P) PTE_W) PTE_PS else 0.

(** The processor's translation through a directory of 4 MB pages. *)
Definition translate_big (pd : Z -> Z) (va : Z) : option Z :=
  let e := pd (PDX va) in
  if has e PTE_P && has e PTE_PS then Some (Z.land e 0xffc00000 + va mod 2 ^ PDXSHIFT) else None.

Lemma entrypgdir_maps a : is_word a -> translate_big entrypgdir a =
  if a <? 2 ^ 22 then Some a else if (KERNBASE <=? a) && (a <? KERNBASE + 2 ^ 22) then Some (a - KERNBASE) else None.
Proof.
  intros Ha. unfold translate_big, entrypgdir.
  rewrite PDX_spec by done. change (Z.shiftr KERNBASE PDXSHIFT) with 512. change KERNBASE with (2 ^ 22 * 512) in *. change PDXSHIFT with 22.
  unfold is_word in Ha. pose proof (Z.div_mod a (2 ^ 22) ltac:(lia)) as D. pose proof (Z.mod_pos_bound a (2 ^ 22) ltac:(lia)) as B.
  set (q := a / 2 ^ 22) in *. set (r := a mod 2 ^ 22) in *.
  destruct (Z.eqb_spec q 0) as [Eq|Hq]; [|destruct (Z.eqb_spec q 512) as [Eq|Hq']]; cbn [orb].
  - rewrite (proj2 (Z.ltb_lt a _)) by lia. change (Some (0 + r) = Some a). f_equal. lia.
  - rewrite (proj2 (Z.ltb_ge a _)), (proj2 (Z.leb_le _ a)), (proj2 (Z.ltb_lt a _)) by lia. cbn [andb].
    change (Some (0 + r) = Some (a - 2 ^ 22 * 512)). f_equal. lia.
  - rewrite (proj2 (Z.ltb_ge a _)) by lia. destruct (Z.leb_spec (2 ^ 22 * 512) a), (Z.ltb_spec a (2 ^ 22 * 512 + 2 ^ 22)); try done. lia.
Qed.
