(* ===== verification/AsmProps.v ===== *)
(** * Theorems on the assembly code

    Context switches, traps and system calls from the instruction that raises them
    to the one after it, the first steps of a process, and the boot code. *)

From stdpp Require Import strings.
From S2P Require Import Prelude Bytes Params CString FsState Kalloc Vm VmMap VmSpace VmUser Kernel Proc Syscall.
From S2P Require Import Sysproc Exec Console Trap ProcSpec UserInit Fs FsInode MemDemo Demo Segment Asm AsmSpec AsmBoot.

(** ** The context switch *)

(** A process that gives up the CPU in [swtch] continues when somebody
    switches back to it.  [swtch(old, new)] stores a pointer to the saved context
    in [*old] and enters the context [new]; after any time in which the stack it
    left is not written to, a [swtch] to the saved context, from whatever other
    stack and with whatever registers, returns to the caller of the first one,
    with the registers it must preserve, the stack pointer after the return, and
    the segments the other side runs with. *)
Theorem swtch_resumes wide at_ inputs s old new :
  let e := r_reg s ESP in switching s old new ->
  exists s1, let c := load_context (r_mem s1) new in
    run wide at_ inputs 20 swtch 0 s = Some (Goto (cx_eip c), 13%nat, s1) /\
    (r_reg s1 EDI, r_reg s1 ESI, r_reg s1 EBX, r_reg s1 EBP, r_reg s1 ESP) = (cx_edi c, cx_esi c, cx_ebx c, cx_ebp c, new + 20) /\
    (forall x, ~ e - 16 <= x < e -> ~ old <= x < old + 4 -> r_mem s1 x = r_mem s x) /\
    forall s2 old2, switching s2 old2 (load32 (r_mem s1) old) -> (forall x, e - 16 <= x < e + 4 -> r_mem s2 x = r_mem s1 x) ->
      r_reg s2 ESP <= e - 16 \/ e + 4 <= r_reg s2 ESP - 16 -> old2 + 4 <= e - 16 \/ e + 4 <= old2 ->
      exists s3, run wide at_ inputs 20 swtch 0 s2 = Some (Goto (load32 (r_mem s) e), 13%nat, s3) /\
        (forall r, r ∈ [EDI; ESI; EBX; EBP] -> r_reg s3 r = r_reg s r) /\ r_reg s3 ESP = e + 4 /\ (forall x, r_seg s3 x = r_seg s2 x).
Proof.
  intros e Hs. destruct (swtch_spec wide at_ inputs s old new Hs) as (s1 & E1 & S1 & S2 & S3 & R1 & R2 & R3 & R4 & R5 & _). fold e in S1, S2, S3.
  exists s1. split; [done|]. split; [congruence|]. split; [done|]. intros s2 old2 Hs2 Hm H1 H2. rewrite S1 in Hs2.
  destruct (swtch_spec wide at_ inputs s2 old2 (e - 16) Hs2) as (s3 & E3 & _ & _ & T3 & Q1 & Q2 & Q3 & Q4 & Q5 & Q6 & _).
  assert (Hc : load_context (r_mem s3) (e - 16) = load_context (r_mem s1) (e - 16)).
  { unfold load_context. f_equal; apply load32_ext; intros x Hx; rewrite T3 by lia; apply Hm; lia. }
  rewrite Hc, S2 in *. cbn [cx_eip cx_edi cx_esi cx_ebx cx_ebp] in *. exists s3. split; [done|]. split; [|split; [lia|by rewrite Q6]].
  intros r Hr. rewrite !elem_of_cons, elem_of_nil in Hr. by destruct Hr as [-> |[-> |[-> |[-> |[]]]]].
Qed.

(** A caller whose return address is 0x80101234 switches to an empty context;
    later another stack switches back to it. *)
Definition demo_away : mstate := demo_machine 0x8dfff000 8
  (store32 0x8dfff000 0x80101234 (store32 0x8dfff004 0x80112000 (store32 0x8dfff008 0x8dffe000 (fun _ => 0)))).
Definition demo_back (s1 : mstate) : mstate := demo_machine 0x8dfe0000 8 (store32 0x8dfe0004 0x80113000 (store32 0x8dfe0008 0x8dffeff0 (r_mem s1))).

Lemma swtch_resumes_witness : exists s1 s3, run false (fun _ => 0) (fun _ => 0) 20 swtch 0 demo_away = Some (Goto 0, 13%nat, s1) /\
  run false (fun _ => 0) (fun _ => 0) 20 swtch 0 (demo_back s1) = Some (Goto 0x80101234, 13%nat, s3).
Proof.
  destruct (swtch_resumes false (fun _ => 0) (fun _ => 0) demo_away 0x80112000 0x8dffe000) as (s1 & E & _ & _ & H).
  { split; [by apply demo_machine_ok|by vm_compute|by vm_compute|by vm_compute|lia|lia|by left; vm_compute]. }
  assert (Em : forall f : mstate -> Z, f <$> (snd <$> run false (fun _ => 0) (fun _ => 0) 20 swtch 0 demo_away) = Some (f s1)) by (intros f; by rewrite E).
  assert (E1 : Some (load32 (r_mem s1) 0x80112000) = Some 0x8dffeff0) by (rewrite <-(Em (fun x => load32 (r_mem x) _)); vm_compute; reflexivity).
  assert (E2 : Some (load32 (r_mem s1) 0x8dffe010) = Some 0) by (rewrite <-(Em (fun x => load32 (r_mem x) _)); vm_compute; reflexivity).
  injection E1 as E1. injection E2 as E2. destruct (H (demo_back s1) 0x80113000) as (s3 & E3 & _).
  - rewrite E1. clear. split; [by apply demo_machine_ok|by vm_compute|by vm_compute|by vm_compute|lia|lia|by left; vm_compute].
  - change (r_reg demo_away ESP) with 0x8dfff000. intros x Hx. unfold demo_back. cbn [r_mem demo_machine]. rewrite !store32_other by lia. done.
  - left. by vm_compute.
  - left. by vm_compute.
  - exists s1, s3. split; [|rewrite E3; reflexivity].
    rewrite E. change (cx_eip _) with (load32 (r_mem s1) 0x8dffe010). rewrite E2. reflexivity.
Defined.

(** ** Traps *)

(** C18: A trap is invisible to the code it interrupts.  Whatever the trap and
    wherever it comes from, with the tables the kernel has set up the processor
    reaches the entry point of its vector, and the code there calls [trap] on the
    kernel stack of the process with a frame that holds every register, the
    number and the error code, writing to no memory but that of the frame and the
    call; when [trap] returns and has changed nothing in the frame but [%eax],
    the interrupted code continues where it was, with every other register,
    segment and flag as it had them. *)
Theorem trap_transparent wide at_ inputs vectors idt kstack t n err eip s :
  let tf := (if 0 <? cpl s then kstack + KSTACKSIZE - 8 else r_reg s ESP) - 68 in
  process_tables vectors idt kstack t -> regs_ok s -> is_word eip -> is_word (at_ trap_return_pc) -> (n < 256)%nat ->
  (is_Some err <-> has_err n = true) -> (forall x, err = Some x -> is_word x) -> 8 <= tf -> tf + 76 < 2 ^ 32 ->
  exists s1 s2, take_trap t (tvinit vectors idt) n err eip s = Some (vectors n, s1) /\ to_trap wide at_ inputs n s1 = Some s2 /\
    load32 (r_mem s2) (r_reg s2 ESP + 4) = tf /\ load32 (r_mem s2) (r_reg s2 ESP) = at_ trap_return_pc /\
    (exists sp ss, load_frame (r_mem s2) tf = frame_of s n err eip tf sp ss /\ (cpl s <> 0 -> sp = r_reg s ESP /\ ss = r_seg s SS)) /\
    (forall x, ~ tf - 8 <= x < tf + 68 -> ~ (cpl s <> 0 /\ tf + 68 <= x < tf + 76) -> r_mem s2 x = r_mem s x) /\
    forall s3 eax, c_returned s2 s3 -> load_frame (r_mem s3) tf = with_eax eax (load_frame (r_mem s2) tf) ->
      exists s4, run wide at_ inputs 11 trapasm trap_return_pc s3 = Some (Goto eip, 22%nat, s4) /\ resumed s s4 eax /\ r_mem s4 = r_mem s3.
Proof.
  intros tf Ht Hok Heip Hat Hn He Hw H1 H2.
  destruct (process_trap wide at_ inputs vectors idt kstack t n err eip s Ht Hok Heip Hat Hn He Hw H1 H2)
    as (s1 & s2 & E1 & E2 & A & Hf & Hss & Hm). fold tf in A, Hf, Hm. exists s1, s2. split; [done|]. split; [done|].
  pose proof A as [A1 A2 A3 _ _ _]. rewrite A1. split; [rewrite <-A2 at 2; f_equal; lia|]. split; [by rewrite <-A1|].
  assert (Hcpl : 0 <= cpl s) by (apply Z.land_nonneg; lia).
  split; [rewrite Hf; destruct (Z.ltb_spec 0 (cpl s)); eexists _, _; (split; [done|]); [done|lia]|]. split.
  { intros x X1 X2. apply Hm. destruct (Z.ltb_spec 0 (cpl s)); lia. }
  intros s3 eax HC Hf3. exact (c_return_resumes wide at_ inputs s s2 s3 n err eip kstack eax A ltac:(lia) H2 Hf Hss HC Hf3).
Qed.

(** The tables of a process with its kernel stack at 0x8dffe000. *)
Definition demo_vectors (i : nat) : Z := 0x80106000 + 10 * Z.of_nat i.
Definition demo_idt : list gatedesc := replicate 256 zero_gate.
Definition demo_stack : Z := 0x8dffe000.
Definition demo_tables : cpu_tables :=
  match switchuvm 0x80110000 demo_stack 0x8dffd000 (seginit 0x80100000 (CpuTables (replicate 7 zero_seg) 0 0 0 0 0 0)) with
  | Ok _ t => t
  | _ => CpuTables [] 0 0 0 0 0 0
  end.

Lemma demo_tables_ok : process_tables demo_vectors demo_idt demo_stack demo_tables.
Proof.
  split; [reflexivity|intros i Hi; unfold is_word, demo_vectors; lia|by vm_compute|].
  exists 0x80110000, 0x8dffd000, 0x80100000, (CpuTables (replicate 7 zero_seg) 0 0 0 0 0 0). split; reflexivity.
Qed.

(** A program is interrupted by the timer. *)
Definition demo_program : mstate := demo_machine 0x2000 0x1b (fun _ => 0).

Lemma trap_transparent_witness : exists s1 s2 s4, take_trap demo_tables (tvinit demo_vectors demo_idt) 32 None 0x100 demo_program = Some (demo_vectors 32, s1) /\
  to_trap false (fun _ => 0x80107000) (fun _ => 0) 32 s1 = Some s2 /\
  run false (fun _ => 0x80107000) (fun _ => 0) 11 trapasm trap_return_pc (set_reg ESP (r_reg s2 ESP + 4) s2) = Some (Goto 0x100, 22%nat, s4) /\ resumed demo_program s4 0.
Proof.
  destruct (trap_transparent false (fun _ => 0x80107000) (fun _ => 0) demo_vectors demo_idt demo_stack demo_tables 32 None 0x100 demo_program)
    as (s1 & s2 & E1 & E2 & _ & _ & (sp & ss & Ef & _) & _ & H);
    [apply demo_tables_ok|by apply demo_machine_ok|done|done|lia|by split; [intros []|]|done|by vm_compute|by vm_compute|].
  destruct (H (set_reg ESP (r_reg s2 ESP + 4) s2) 0) as (s4 & E4 & R & _).
  - split; [|done]. unfold set_reg. cbn [r_reg]. by rewrite set_fn_eq.
  - unfold set_reg. cbn [r_mem]. rewrite Ef. reflexivity.
  - exists s1, s2, s4. split; [exact E1|]. split; [exact E2|]. split; [exact E4|exact R].
Defined.

(** ** A system call from end to end *)

Ltac kcbn := cbn [k_mem set_mem set_ptable km_mem k_ptable k_cur default from_option id p_tf p_state p_killed p_pid set_tf negb Z.eqb].

Lemma trap_getpid kend data trapret forkret dv stub junk cpuid cr2 kbd uart tf c k : let m := km_mem (k_mem k) in
  (k_cur k < length (k_ptable k))%nat -> p_state (cur_proc k) = RUNNING -> p_killed (cur_proc k) = 0 ->
  load32 m (tf + tf_trapno) = T_SYSCALL -> load32 m (tf + tf_eax) = 11 ->
  exists k', trap kend data trapret forkret dv stub junk cpuid false cr2 kbd uart tf c k = Ok c k' /\
    km_mem (k_mem k') = store32 (tf + tf_eax) (u32 (p_pid (cur_proc k))) m.
Proof.
  intros m Hcur Hst Hk Ht He. destruct k as [fs mm pp ft pt np ip cur tk out]. unfold cur_proc, proc_at in *. cbn [k_mem k_ptable k_cur] in *.
  destruct (lookup_lt_is_Some_2 _ _ Hcur) as [p Hp]. rewrite Hp in Hst, Hk |- *. cbn [default from_option id] in *. subst m.
  assert (Hp' : alter (set_tf tf) cur pt !! cur = Some (set_tf tf p)) by (by rewrite list_lookup_alter_eq, Hp).
  eexists. unfold trap, trap_syscall, syscall, bind, with_mem, peek, gets, on_cur, modify, cur_proc, proc_at. kcbn.
  rewrite Ht, Z.eqb_refl. kcbn. rewrite Hp. kcbn. rewrite Hk. kcbn. rewrite Hp'. kcbn. rewrite He.
  change (syscalls kend data trapret forkret dv stub junk (s32 11)) with (Some (returns sys_getpid)).
  unfold returns, sys_getpid, bind, gets, kstore, with_mem, on_mem, modify, cur_proc, proc_at, ret. kcbn. rewrite Hp'. kcbn.
  rewrite decide_True by done. kcbn. rewrite ?Hp'. kcbn. rewrite ?Hk. kcbn. split; reflexivity.
Qed.

(** The stub of [usys.S]: [int] with the number in [%eax], and the return. *)
Lemma usys_int wide at_ inputs name num s : is_word num ->
  run wide at_ inputs 4 (usys name num) 0 s = Some (Raise T_SYSCALL, 2%nat, set_reg EAX num s).
Proof. intros H. unfold usys. cbn [run lookup list_lookup exec assign value]. by rewrite u32_small by (unfold is_word in H; lia). Qed.

Lemma usys_ret wide at_ inputs name num s :
  run wide at_ inputs 4 (usys name num) 3 s = Some (Goto (top s), 3%nat, drop4 s).
Proof. done. Qed.

(** Machine memory as the memory of the kernel. *)
Definition with_memory (m : mem) (k : kernel) : kernel := set_mem (Kmem m (use_lock (k_mem k)) (freelist (k_mem k))) k.

(** C19: A call of [getpid] returns the pid of the calling process and changes
    nothing else for it: from the stub through [int], the vector, [alltraps],
    [trap] and [syscall], and back through [trapret] and [iret] to the
    instruction after the call. *)
Theorem getpid_returns wide at_ uat inputs vectors idt t kend data trapret forkret dv stub junk cpuid cr2 kbd uart c k s :
  let p := cur_proc k in let tf := p_kstack p + KSTACKSIZE - 76 in let esp := r_reg s ESP in
  process_tables vectors idt (p_kstack p) t -> regs_ok s -> is_word (at_ trap_return_pc) -> is_word (uat 3%nat) ->
  cpl s = DPL_USER -> 0 <= esp -> esp + 4 <= KERNBASE -> KERNBASE <= p_kstack p -> p_kstack p + KSTACKSIZE < 2 ^ 32 ->
  (k_cur k < length (k_ptable k))%nat -> p_state p = RUNNING -> p_killed p = 0 -> is_word (p_pid p) ->
  exists s1 s2 s3 k', run wide uat inputs 4 (usys "getpid" 11) 0 s = Some (Raise T_SYSCALL, 2%nat, s1) /\
    take_int t (tvinit vectors idt) (Z.to_nat T_SYSCALL) (uat 3%nat) s1 = Some (vectors (Z.to_nat T_SYSCALL), s2) /\
    to_trap wide at_ inputs (Z.to_nat T_SYSCALL) s2 = Some s3 /\
    trap kend data trapret forkret dv stub junk cpuid false cr2 kbd uart tf c (with_memory (r_mem s3) k) = Ok c k' /\
    forall s4, c_returned s3 s4 -> r_mem s4 = km_mem (k_mem k') ->
      exists s5 s6, run wide at_ inputs 11 trapasm trap_return_pc s4 = Some (Goto (uat 3%nat), 22%nat, s5) /\
        run wide uat inputs 4 (usys "getpid" 11) 3 s5 = Some (Goto (load32 (r_mem s) esp), 3%nat, s6) /\
        r_reg s6 EAX = p_pid p /\ r_reg s6 ESP = esp + 4 /\ (forall r, r <> EAX -> r <> ESP -> r_reg s6 r = r_reg s r) /\
        (forall x, r_seg s6 x = r_seg s x) /\ r_flags s6 = r_flags s /\ (forall x, x < KERNBASE -> r_mem s6 x = r_mem s x).
Proof.
  intros p tf esp Ht Hok Hat Huat Hcpl He1 He2 Hk1 Hk2 Hcur Hst Hkilled Hpid.
  set (s1 := set_reg EAX 11 s). exists s1.
  assert (Hok1 : regs_ok s1).
  { destruct Hok as [Hr Hs Hf]. split; [|done|done]. intros r. unfold s1, set_reg, set_fn. cbn. case_decide; [by vm_compute|apply Hr]. }
  assert (Hc1 : cpl s1 = 3) by done. change KERNBASE with 0x80000000 in *. pose proof (eq_refl : KSTACKSIZE = 4096) as EK.
  pose proof (process_trap wide at_ inputs vectors idt (p_kstack p) t (Z.to_nat T_SYSCALL) None (uat 3%nat) s1 Ht Hok1 Huat Hat) as S.
  rewrite Hc1 in S. change (0 <? 3) with true in S. cbv iota zeta in S. replace (p_kstack p + KSTACKSIZE - 8 - 68) with tf in S by lia.
  destruct S as (s2 & s3 & E1 & E2 & A & Hf & Hss & Hm); [by vm_compute; lia|vm_compute; by split; [intros []|]|done|lia|lia|].
  exists s2, s3.
  assert (Ef : forall f, load_frame (r_mem s3) tf = f -> load32 (r_mem s3) (tf + tf_trapno) = f_trapno f /\ load32 (r_mem s3) (tf + tf_eax) = f_eax f)
    by (by intros f <-).
  destruct (Ef _ Hf) as [F1 F2]. clear Ef.
  destruct (trap_getpid kend data trapret forkret dv stub junk cpuid cr2 kbd uart tf c (with_memory (r_mem s3) k)) as (k' & E3 & M'); [done..|].
  exists k'. split; [by apply usys_int; vm_compute|]. split.
  { unfold take_int. rewrite tvinit_lookup by (apply Ht || (vm_compute; lia)). by rewrite Hc1. }
  split; [done|]. split; [done|]. intros s4 HC Hm4. rewrite M' in Hm4. change (cur_proc (with_memory _ k)) with p in Hm4.
  change (km_mem (k_mem (with_memory _ k))) with (r_mem s3) in Hm4. rewrite u32_small in Hm4 by done.
  pose proof (c_return_resumes wide at_ inputs s1 s3 s4 (Z.to_nat T_SYSCALL) None (uat 3%nat) (p_kstack p) (p_pid p)) as S.
  rewrite Hc1 in S. change (0 <? 3) with true in S. cbv iota zeta in S. replace (p_kstack p + KSTACKSIZE - 8 - 68) with tf in S by lia.
  destruct S as (s5 & E5 & (R1 & R2 & R3 & R4) & M5); [done|lia|lia|done|done|done|rewrite Hm4; by apply load_frame_eax|].
  assert (Hlow : forall x, x < 0x80000000 -> r_mem s5 x = r_mem s x).
  { intros x Hx. rewrite M5, Hm4, store32_other, Hm by (unfold tf_eax; lia). done. }
  assert (Hesp : r_reg s5 ESP = esp) by (rewrite R2 by done; done).
  exists s5, (drop4 s5). split; [done|]. 
  assert (Htop : top s5 = load32 (r_mem s) esp) by (unfold top; rewrite Hesp; apply load32_ext; intros x Hx; apply Hlow; lia).
  split; [by rewrite usys_ret, Htop|].
  unfold drop4, set_reg. cbn [r_reg r_seg r_flags r_mem]. rewrite Hesp, u32_small by lia. regs. split; [done|]. split; [done|].
  split; [intros r X1 X2; rewrite set_fn_ne, R2 by done; unfold s1, set_reg; cbn; by regs|]. split; [exact R3|]. split; [exact R4|exact Hlow].
Qed.

Definition demo_asking : kernel := demo_kernel (boot ∅ 0) (Kmem (fun _ => 0) 0 0) 0 demo_stack.

Lemma getpid_returns_witness : exists s4 s5 s6, run false (fun _ => 0x80107000) (fun _ => 0) 11 trapasm trap_return_pc s4 = Some (Goto 0x103, 22%nat, s5) /\
  run false (fun n => 0x100 + Z.of_nat n) (fun _ => 0) 4 (usys "getpid" 11) 3 s5 = Some (Goto 0, 3%nat, s6) /\ r_reg s6 EAX = 1 /\ r_reg s6 ESP = 0x2004.
Proof.
  destruct (getpid_returns false (fun _ => 0x80107000) (fun n => 0x100 + Z.of_nat n) (fun _ => 0) demo_vectors demo_idt demo_tables
    demo_end demo_kdata 0 0 no_devices [] [] 0 0 [] [] console_init demo_asking demo_program) as (s1 & s2 & s3 & k' & _ & _ & _ & _ & H);
    [apply demo_tables_ok|by apply demo_machine_ok|done|done|reflexivity|by vm_compute|by vm_compute|by vm_compute|by vm_compute|
     by apply Nat.ltb_lt|reflexivity|reflexivity|by vm_compute|].
  destruct (H (set_mm (km_mem (k_mem k')) (set_reg ESP (r_reg s3 ESP + 4) s3))) as (s5 & s6 & E5 & E6 & A & B & _); [|done|].
  - split; [|done]. unfold set_mm, set_reg. cbn [r_reg]. by rewrite set_fn_eq.
  - eexists _, s5, s6. split; [exact E5|]. split; [exact E6|]. split; [exact A|exact B].
Defined.

(** ** The first steps of a child *)

(** The scheduler's state when it switches to the new process [q], whose kernel
    stack is as [fork] has left it in memory [m]: its own stack and the place
    where it keeps its context are elsewhere. *)
Record schedules (u : mstate) (m : mem) (q : proc) (old : Z) : Prop := {
  sc_switch : switching u old (p_context q);
  sc_kernel : cpl u = 0;
  sc_stack : forall x, in_page (p_kstack q) x -> r_mem u x = m x;
  sc_own : forall x, r_reg u ESP - 16 <= x < r_reg u ESP -> ~ in_page (p_kstack q) x;
  sc_old : forall x, old <= x < old + 4 -> ~ in_page (p_kstack q) x
}.

(** The switch to a new process enters [forkret], which will return to
    [trapret]. *)
Lemma enters_forkret kend wide at_ inputs trapret forkret u m q old : KERNBASE < kend -> page_ok kend (p_kstack q) ->
  p_context q = stack_context (p_kstack q) -> stack_ready trapret forkret m (p_kstack q) -> schedules u m q old ->
  exists u1, run wide at_ inputs 20 swtch 0 u = Some (Goto forkret, 13%nat, u1) /\ top u1 = trapret /\
    r_reg u1 ESP = stack_tf (p_kstack q) - 4 /\ cpl u1 = 0 /\ (forall x, in_page (p_kstack q) x -> r_mem u1 x = m x) /\
    forall x, ~ r_reg u ESP - 16 <= x < r_reg u ESP -> ~ old <= x < old + 4 -> r_mem u1 x = r_mem u x.
Proof.
  intros He Hpk Ec [Sr1 Sr2 _] [U1 U2 U3 U4 U5]. rewrite Ec in U1. set (k := p_kstack q) in *.
  destruct (swtch_spec wide at_ inputs u old _ U1) as (u1 & E1 & _ & _ & S3 & _ & _ & _ & _ & R5 & G & _).
  assert (PGSIZE = 4096 /\ KSTACKSIZE = 4096 /\ TF_SIZE = 76 /\ CONTEXT_SIZE = 20 /\ context_eip = 16) as (C1 & C2 & C3 & C4 & C5) by done.
  assert (P : forall x, in_page k x -> r_mem u1 x = m x) by (intros x Hx; rewrite S3, U3; [done|done|by intros ?%U4|by intros ?%U5]).
  assert (L : forall a, k <= a -> a + 4 <= k + 4096 -> load32 (r_mem u1) a = load32 m a).
  { intros a A1 A2. apply load32_ext. intros x Hx. apply P. unfold in_page. lia. }
  unfold stack_context, stack_tf in *. exists u1. split; [|split; [|split; [lia|split; [by unfold cpl; rewrite G|done]]]].
  - rewrite E1. cbn [load_context cx_eip]. rewrite L by lia. by rewrite <-Sr2.
  - unfold top. rewrite R5, <-Sr1, <-L by lia. f_equal. lia.
Qed.

(** C7: A child begins life as a copy of its parent.  After a successful [fork] in a
    system call of the program in state [su], the first [swtch] to the child
    enters [forkret], which returns to [trapret], and that resumes the program
    after its system call with all its registers, but with 0 in [%eax]. *)
Theorem child_resumes_parent kend data trapret forkret s i k l T stk c wide at_ inputs su n err eip tf :
  KERNBASE < kend -> 0 <= trapret < 2 ^ 32 -> 0 <= forkret < 2 ^ 32 -> data_ok data -> fork_ready kend s i k l T stk c ->
  cpl su = DPL_USER -> (forall x, is_half (r_seg su x)) ->
  load_frame (km_mem (k_mem s)) (p_tf (cur_proc s)) = frame_of su n err eip tf (r_reg su ESP) (r_seg su SS) ->
  wp (fork kend data trapret forkret) (fun pid s' => pid = k_nextpid s /\ let q := proc_at i s' in p_pid q = pid /\ p_kstack q = k /\ p_context q = stack_context k /\
    forall u old, schedules u (km_mem (k_mem s')) q old ->
      exists u1, run wide at_ inputs 20 swtch 0 u = Some (Goto forkret, 13%nat, u1) /\ top u1 = trapret /\
        forall u2, c_returned u1 u2 -> (forall x, r_reg u1 ESP <= x < p_kstack q + KSTACKSIZE -> r_mem u2 x = r_mem u1 x) ->
          exists u3, run wide at_ inputs 10 trapasm trapret_pc u2 = Some (Goto eip, 22%nat, u3) /\ resumed su u3 0) s.
Proof.
  intros He Ht Hf Hd Hr Hcpl Hseg Hframe. eapply wp_mono; [by apply (fork_spec kend data trapret forkret He Ht Hf s i k l T stk c Hd Hr)|].
  intros pid s' (-> & d & km & -> & Hm). split; [done|]. cbv zeta.
  pose proof Hr as [Hlen (Hi & _) _ Hne _ _ _ _ _ _].
  unfold forked. rewrite proc_at_slot by (done || (cbn; lia)). do 3 (split; [done|]). intros u old HS.
  assert (Hpk : page_ok kend k).
  { destruct (vo_free _ _ _ _ _ (uo_vm _ _ _ _ _ _ (fr_user _ _ _ _ _ _ _ _ Hr))) as [_ Hp _]. by apply Forall_cons in Hp as [? _]. }
  destruct Hm as [_ [Tc1 Tc2] Hst].
  destruct (enters_forkret kend wide at_ inputs trapret forkret u (km_mem km) (child_of s i k d) old He Hpk eq_refl Hst HS) as (u1 & E1 & Et & R5 & Hc & P & _).
  change (p_kstack (child_of s i k d)) with k in *.
  destruct (page_range_ok kend He k Hpk) as [Hkr _]. unfold KERNBASE, PHYSTOP in Hkr.
  assert (PGSIZE = 4096 /\ KSTACKSIZE = 4096 /\ TF_SIZE = 76) as (C1 & C2 & C3) by done.
  exists u1. split; [done|]. split; [done|]. intros u2 [Q1 Q2] Q3. unfold stack_tf in *. set (tf' := k + KSTACKSIZE - TF_SIZE) in *.
  destruct (trapret_resumes wide at_ inputs su u2 n err eip tf' tf (r_reg su ESP) (r_seg su SS) 0) as (u3 & E3 & _ & W);
    [lia|by unfold cpl; rewrite Q2|lia|lia|by rewrite Hcpl| |by exists u3].
  rewrite <-with_eax_frame, <-Hframe. apply load_frame_copied.
  - rewrite <-Tc1. apply load32_ext. intros x Hx. rewrite Q3, P by (rewrite ?R5; unfold in_page, tf_eax in *; lia). done.
  - intros o O1 O2. rewrite Q3, P by (rewrite ?R5; unfold in_page; lia). apply Tc2; unfold tf_eax; lia.
Qed.

(** The frame of a program that has just made a system call with all registers 0. *)
Definition demo_fork_stack (stk : Z) (m : mem) : mem :=
  store32 (demo_tf stk + tf_cs) 0x1b (fun x => if (stk <=? x) && (x <? stk + PGSIZE) then 0 else m x).

Lemma demo_fork_frame stk m : load_frame (demo_fork_stack stk m) (demo_tf stk) = frame_of (demo_machine 0 0x1b m) 0 None 0 (-32) 0 0.
Proof.
  assert (Z0 : forall o, 0 <= o -> o + 4 <= TF_SIZE -> o + 4 <= tf_cs \/ tf_cs + 4 <= o -> load32 (demo_fork_stack stk m) (demo_tf stk + o) = 0).
  { intros o O1 O2 O3. unfold demo_fork_stack. rewrite load32_store32_ne by lia. unfold load32, demo_tf, PGSIZE, KSTACKSIZE, TF_SIZE in *.
    by rewrite !(proj2 (Z.leb_le _ _)), !(proj2 (Z.ltb_lt _ _)) by lia. }
  assert (E0 : load32 (demo_fork_stack stk m) (demo_tf stk) = 0) by (rewrite <-(Z0 0) by (vm_compute; intuition congruence); f_equal; lia).
  assert (Ec : load32 (demo_fork_stack stk m) (demo_tf stk + tf_cs) = 0x1b) by (by apply load32_store32).
  unfold load_frame, load16, frame_of. rewrite E0, Ec, !Z0 by (vm_compute; intuition congruence). reflexivity.
Qed.

(** A scheduler about to enter the child. *)
Definition demo_scheduler (k : Z) (m : mem) : mstate :=
  demo_machine 0x80100000 8 (store32 0x80100004 0x80100100 (store32 0x80100008 (stack_context k) m)).

Lemma demo_schedules q k m m' : page_ok demo_end k -> p_kstack q = k -> p_context q = stack_context k -> (forall x, KERNBASE <= x -> m' x = m x) ->
  schedules (demo_scheduler k m') m q 0x80100100.
Proof.
  intros Hk Ek Ec Hm. destruct (page_range_ok demo_end ltac:(done) k Hk) as [Hr _]. unfold page_ok in Hk.
  assert (demo_end = 0x80200000 /\ PHYSTOP = 0xe000000 /\ KERNBASE = 0x80000000 /\ PGSIZE = 4096) as (E1 & E2 & E3 & E4) by done.
  assert (stack_context k = k + 4096 - 76 - 4 - 20) as Es by (by unfold stack_context, stack_tf, KSTACKSIZE, TF_SIZE, CONTEXT_SIZE; lia).
  split; rewrite ?Ek, ?Ec; [|done|..].
  - split; [by apply demo_machine_ok|by vm_compute| | |lia|lia|by right; vm_compute].
    + apply load32_store32. lia.
    + cbn [demo_scheduler r_mem demo_machine]. rewrite load32_store32_ne by (vm_compute; intuition congruence). apply load32_store32. lia.
  - intros x Hx. unfold in_page in Hx. cbn [demo_scheduler r_mem demo_machine]. rewrite !store32_other by lia. apply Hm. lia.
  - change (r_reg _ ESP) with 0x80100000. intros x Hx. unfold in_page. lia.
  - intros x Hx. unfold in_page. lia.
Qed.

Lemma child_resumes_parent_witness : exists km d stk su, let s := demo_kernel (boot ∅ 0) km d stk in
  wp (fork demo_end demo_kdata 0x80107000 0x80108000) (fun pid s' => pid = 2 /\
    exists u u1 u2 u3, run false (fun _ => 0) (fun _ => 0) 20 swtch 0 u = Some (Goto 0x80108000, 13%nat, u1) /\
      run false (fun _ => 0) (fun _ => 0) 10 trapasm trapret_pc u2 = Some (Goto 0, 22%nat, u3) /\ resumed su u3 0) s.
Proof.
  destruct (demo_process_with demo_fork_stack) as (km & d & stk & k & l & T & m & Hr & Hm).
  { intros stk m x Hx. unfold demo_fork_stack. rewrite store32_other by (unfold in_page, demo_tf, KSTACKSIZE, TF_SIZE, tf_cs, PGSIZE in *; lia).
    unfold in_page in Hx. by destruct (Z.leb_spec stk x), (Z.ltb_spec x (stk + PGSIZE)); [lia|..]. }
  exists km, d, stk, (demo_machine 0 0x1b m). intros s.
  assert (Hk : page_ok demo_end k).
  { destruct (vo_free _ _ _ _ _ (uo_vm _ _ _ _ _ _ (fr_user _ _ _ _ _ _ _ _ (Hr (boot ∅ 0))))) as [_ Hp _]. by apply Forall_cons in Hp as [? _]. }
  eapply wp_mono; [eapply (child_resumes_parent demo_end demo_kdata 0x80107000 0x80108000 s 1 k l T stk 0
    false (fun _ => 0) (fun _ => 0) (demo_machine 0 0x1b m) 0 None 0 (-32))|]; [done|done|done|apply demo_kdata_ok|apply Hr|reflexivity| | |].
  - intros x. cbn. by case_decide.
  - change (p_tf (cur_proc s)) with (demo_tf stk). change (km_mem (k_mem s)) with (km_mem km). rewrite Hm. apply demo_fork_frame.
  - intros pid s' (-> & _ & Ek & Ec & H). split; [reflexivity|].
    destruct (H _ _ (demo_schedules _ k _ _ Hk Ek Ec (fun _ _ => eq_refl))) as (u1 & E1 & _ & H1).
    destruct (H1 (set_reg ESP (r_reg u1 ESP + 4) u1)) as (u3 & E3 & R).
    { split; [|done]. unfold set_reg. cbn [r_reg]. by rewrite set_fn_eq. }
    { done. }
    eexists _, u1, _, u3. split; [exact E1|]. split; [exact E3|exact R].
Defined.

(** ** The first program and the end of programs *)

(** Execution of [initcode] begins with [exec("/init", { "/init", 0 })]; when that
    fails it calls [exit] for ever. *)
Lemma initcode_calls wide at_ inputs s init argv : let e := r_reg s ESP in let m := r_mem s in
  12 <= e < 2 ^ 32 -> is_word init -> is_word argv -> init + 7 <= e - 12 -> argv + 8 <= e - 12 ->
  (forall i b, initcode_path !! i = Some b -> m (init + Z.of_nat i) = b) -> load32 m argv = init -> load32 m (argv + 4) = 0 ->
  exists s', run wide at_ inputs 6 (initcode init argv) 0 s = Some (Raise T_SYSCALL, 5%nat, s') /\ r_reg s' EAX = SYS_exec /\
    let arg n := load32 (r_mem s') (r_reg s' ESP + 4 + 4 * n) in
    (forall i b, initcode_path !! i = Some b -> r_mem s' (arg 0 + Z.of_nat i) = b) /\
    load32 (r_mem s') (arg 1) = arg 0 /\ load32 (r_mem s') (arg 1 + 4) = 0 /\
    forall pc u, pc = 6%nat \/ pc = 9%nat ->
      exists u', run wide at_ inputs 4 (initcode init argv) pc u = Some (Raise T_SYSCALL, 8%nat, u') /\ r_reg u' EAX = SYS_exit.
Proof.
  intros e m H1 H2 H3 H4 H5 Hp Ha Hz.
  destruct (initcode_spec wide at_ inputs s init argv H1 H2 H3) as (s' & E & R1 & R2 & A0 & A1 & M). fold e in R2, A0, A1, M.
  exists s'. split; [done|]. split; [done|]. cbv zeta. rewrite R2.
  replace (e - 12 + 4 + 4 * 0) with (e - 8) by lia. replace (e - 12 + 4 + 4 * 1) with (e - 4) by lia. rewrite A0, A1.
  split; [|split; [|split]].
  - intros i b Hb. pose proof (lookup_lt_Some _ _ _ Hb) as Hi. change (length initcode_path) with 7%nat in Hi. rewrite M by lia. by apply Hp.
  - transitivity (load32 m argv); [|done]. apply load32_ext. intros x Hx. apply M. lia.
  - transitivity (load32 m (argv + 4)); [|done]. apply load32_ext. intros x Hx. apply M. lia.
  - intros pc u Hpc. by apply initcode_exits.
Qed.

(** A word stored in little-endian order. *)
Lemma load32_le m a v : is_word v -> (forall i b, le 4 v !! i = Some b -> m (a + Z.of_nat i) = b) -> load32 m a = v.
Proof.
  intros Hv B. pose proof (unle_le 4 v) as U. rewrite Z.mod_small in U by done. cbn [le unle] in U.
  pose proof (B 0%nat _ eq_refl) as B0. rewrite Z.add_0_r in B0. unfold load32.
  rewrite B0, (B 1%nat _ eq_refl : m (a + 1) = _), (B 2%nat _ eq_refl : m (a + 2) = _), (B 3%nat _ eq_refl : m (a + 3) = _). lia.
Qed.

(** The bytes [l] are in the image [init] from offset [a] on. *)
Definition holds_at (init : list Z) (a : Z) (l : list Z) : Prop := 0 <= a /\ forall i b, l !! i = Some b -> init !! (Z.to_nat a + i)%nat = Some b.

(** What the assembler makes of [initcode.S]: its data at the addresses the code
    refers to, before the part of the page that serves as the stack. *)
Record initcode_image (init : list Z) (path argv : Z) : Prop := {
  ii_path : holds_at init path initcode_path;
  ii_argv : holds_at init argv (initcode_argv path);
  ii_size : Z.of_nat (length init) <= PGSIZE - 12
}.

Lemma holds_at_end init a l : holds_at init a l -> l <> [] -> a + Z.of_nat (length l) <= Z.of_nat (length init).
Proof.
  intros [Ha H] Hl. destruct (lookup_lt_is_Some_2 l (length l - 1)) as [b Hb]; [destruct l; [done|cbn; lia]|].
  apply H, lookup_lt_Some in Hb. destruct l; [done|]. cbn [length] in *. lia.
Qed.

Lemma image_calls wide at_ inputs s init path argv : initcode_image init path argv ->
  r_reg s ESP = PGSIZE -> (forall va, 0 <= va < PGSIZE -> r_mem s va = nth (Z.to_nat va) init 0) ->
  exists s', run wide at_ inputs 6 (initcode path argv) 0 s = Some (Raise T_SYSCALL, 5%nat, s') /\ r_reg s' EAX = SYS_exec /\
    let arg n := load32 (r_mem s') (r_reg s' ESP + 4 + 4 * n) in
    (forall i b, initcode_path !! i = Some b -> r_mem s' (arg 0 + Z.of_nat i) = b) /\
    load32 (r_mem s') (arg 1) = arg 0 /\ load32 (r_mem s') (arg 1 + 4) = 0.
Proof.
  intros [Hp Ha Hs] He Hm. pose proof (holds_at_end _ _ _ Hp ltac:(done)) as Lp. pose proof (holds_at_end _ _ _ Ha ltac:(done)) as La.
  change (length initcode_path) with 7%nat in Lp. change (length (initcode_argv path)) with 8%nat in La.
  destruct Hp as [P0 Hp], Ha as [A0 Ha]. change PGSIZE with 4096 in *.
  assert (B : forall a (l : list Z), 0 <= a -> (forall i b, l !! i = Some b -> init !! (Z.to_nat a + i)%nat = Some b) ->
    forall i b, l !! i = Some b -> r_mem s (a + Z.of_nat i) = b).
  { intros a l A Hl i b Hb. apply Hl in Hb. pose proof (lookup_lt_Some _ _ _ Hb). rewrite Hm by lia.
    replace (Z.to_nat (a + Z.of_nat i)) with (Z.to_nat a + i)%nat by lia. by apply nth_lookup_Some. }
  pose proof (B _ _ A0 Ha) as HA. specialize (B _ _ P0 Hp).
  destruct (initcode_calls wide at_ inputs s path argv) as (s' & E & R & C1 & C2 & C3 & _); rewrite ?He;
    [lia|unfold is_word; lia|unfold is_word; lia|lia|lia|done| | |by exists s'].
  - apply load32_le; [unfold is_word; lia|]. intros i b Hb. apply HA. by apply lookup_app_l_Some.
  - apply load32_le; [done|]. intros i b Hb. rewrite <-(HA (4 + i)%nat b); [f_equal; lia|]. exact Hb.
Qed.

(** C8: The first process runs [/init].  After [userinit] the first [swtch] to the
    process enters [forkret], which returns to [trapret]; that goes to address 0
    in user mode with interrupts on, where the program [initcode] makes the system
    call [exec("/init", { "/init", 0 })]. *)
Theorem first_process_runs_init kend data trapret forkret dv s i k l x init path argv wide at_ inputs :
  KERNBASE < kend -> 0 <= trapret < 2 ^ 32 -> 0 <= forkret < 2 ^ 32 -> data_ok data ->
  length (k_ptable s) = NPROC -> lowest_unused s i -> kmem_ok kend (k_mem s) (k :: l) -> (1026 + x < length l)%nat ->
  icache_ok (icache (k_fs s)) -> (exists j p, icache (k_fs s) !! j = Some p /\ (caches_inode p ROOTDEV ROOTINO \/ i_ref p = 0)) ->
  initcode_image init path argv ->
  wp (userinit data trapret forkret dv init) (fun _ s' => let q := proc_at i s' in let m := km_mem (k_mem s') in
    k_initproc s' = Some i /\ p_state q = RUNNABLE /\ p_kstack q = k /\ p_context q = stack_context k /\
    (exists ip, p_cwd q = Some ip /\ caches_inode (inode_at ip (k_fs s')) ROOTDEV ROOTINO) /\
    forall u old, schedules u m q old -> PGSIZE <= r_reg u ESP - 16 -> PGSIZE <= old ->
      (forall va a, 0 <= va < PGSIZE -> vtrans m (p_pgdir q) va true = Some a -> r_mem u va = m a) ->
      exists u1, run wide at_ inputs 20 swtch 0 u = Some (Goto forkret, 13%nat, u1) /\ top u1 = trapret /\
        forall u2, c_returned u1 u2 -> (forall a, r_reg u1 ESP <= a < k + KSTACKSIZE -> r_mem u2 a = r_mem u1 a) ->
          (forall va, 0 <= va < PGSIZE -> r_mem u2 va = r_mem u1 va) ->
          exists u3 u4, run wide at_ inputs 10 trapasm trapret_pc u2 = Some (Goto 0, 22%nat, u3) /\ cpl u3 = DPL_USER /\ r_flags u3 = FL_IF /\
            run wide at_ inputs 6 (initcode path argv) 0 u3 = Some (Raise T_SYSCALL, 5%nat, u4) /\ r_reg u4 EAX = SYS_exec /\
            let arg n := load32 (r_mem u4) (r_reg u4 ESP + 4 + 4 * n) in
            (forall j b, initcode_path !! j = Some b -> r_mem u4 (arg 0 + Z.of_nat j) = b) /\
            load32 (r_mem u4) (arg 1) = arg 0 /\ load32 (r_mem u4) (arg 1 + 4) = 0) s.
Proof.
  intros He Ht Hf Hd Hlen Hun Hk Hl Hic Hroot Himg.
  assert (Hinit : Z.of_nat (length init) < PGSIZE) by (pose proof (ii_size _ _ _ Himg); lia).
  assert (Hpk : page_ok kend k) by (destruct Hk as [_ Hp _]; by apply Forall_cons in Hp as [? _]).
  eapply wp_mono; [by apply (userinit_spec kend data trapret forkret dv He Ht Hf s i k l init x)|].
  intros [] s' (I1 & _ & [F1 F2 F3 F4 F5 F6 F7 F8 F9] & _). cbv zeta. do 5 (split; [done|]). intros u old HS U1 U2 HV.
  rewrite <-F2 in F4, F6, Hpk.
  destruct (enters_forkret kend wide at_ inputs trapret forkret u _ _ old He Hpk F4 F6 HS) as (u1 & E1 & Et & R & Hc & P & M).
  rewrite F2 in *. exists u1. split; [done|]. split; [done|]. intros u2 [Q1 Q2] Q3 Q4.
  destruct (page_range_ok kend He k Hpk) as [Hkr _]. unfold KERNBASE, PHYSTOP in Hkr.
  assert (PGSIZE = 4096 /\ KSTACKSIZE = 4096 /\ TF_SIZE = 76) as (C1 & C2 & C3) by done.
  assert (Hfr : load_frame (r_mem u2) (stack_tf k) = load_frame first_frame 0).
  { assert (B : forall o, 0 <= o < TF_SIZE -> r_mem u2 (stack_tf k + o) = first_frame o)
      by (intros o Ho; rewrite Q3, P by (rewrite ?R; unfold in_page, stack_tf in *; lia); by apply F7).
    rewrite (load_frame_copied first_frame (r_mem u2) 0 (stack_tf k) 0); [reflexivity| |intros o Ho _; rewrite Z.add_0_l; apply B; lia].
    change 0 with (load32 first_frame tf_eax). apply load32_moved. intros o Ho. rewrite <-Z.add_assoc. apply B. unfold tf_eax. lia. }
  destruct (trapret_spec wide at_ inputs u2 (stack_tf k)) as (u3 & E3 & M3 & T); [rewrite Q1, R; lia|by unfold cpl; rewrite Q2|unfold stack_tf; lia..|].
  rewrite Hfr in E3, T. destruct T as (_ & _ & _ & _ & _ & _ & _ & _ & _ & _ & _ & T1 & T2 & T3 & _).
  destruct (image_calls wide at_ inputs u3 init path argv Himg) as (u4 & E4 & R4 & A4); [by rewrite T3| |].
  - intros va Hva. destruct (F8 va Hva) as (a & V1 & V2). rewrite M3, Q4, M, (HV va a Hva V1) by lia. done.
  - exists u3, u4. split; [done|]. split; [by unfold cpl; rewrite T1|]. split; [by rewrite T2|]. done.
Qed.

(** [initcode.S] as it is assembled. *)
Definition demo_initcode : list Z :=
  [0x68; 0x24; 0; 0; 0; 0x68; 0x1c; 0; 0; 0; 0x6a; 0; 0xb8; 7; 0; 0; 0; 0xcd; 0x40; 0xb8; 2; 0; 0; 0; 0xcd; 0x40; 0xeb; 0xf7] ++
  initcode_path ++ [0] ++ initcode_argv 0x1c.

Lemma demo_initcode_ok : initcode_image demo_initcode 0x1c 0x24.
Proof.
  split; [split; [done|]|split; [done|]|by vm_compute]; intros i b Hb.
  - do 7 (destruct i as [|i]; [exact Hb|]). discriminate Hb.
  - do 8 (destruct i as [|i]; [exact Hb|]). discriminate Hb.
Qed.

(** The user part of the memory as the processor sees it with page table [d]. *)
Definition demo_sees (m : mem) (d x : Z) : Z :=
  if x <? PGSIZE then match vtrans m d x true with Some a => m a | None => 0 end else m x.

Lemma first_process_runs_init_witness : exists km, let s := Kernel (boot ∅ 0) km ∅ [] (replicate NPROC zero_proc) 1 None 0 0 [] in
  wp (userinit demo_kdata 0x80107000 0x80108000 no_devices demo_initcode) (fun _ s' => k_initproc s' = Some 0%nat /\
    exists u u1 u2 u3 u4, run false (fun _ => 0) (fun _ => 0) 20 swtch 0 u = Some (Goto 0x80108000, 13%nat, u1) /\
      run false (fun _ => 0) (fun _ => 0) 10 trapasm trapret_pc u2 = Some (Goto 0, 22%nat, u3) /\
      run false (fun _ => 0) (fun _ => 0) 6 (initcode 0x1c 0x24) 0 u3 = Some (Raise T_SYSCALL, 5%nat, u4) /\ r_reg u4 EAX = SYS_exec) s.
Proof.
  destruct demo_memory as (km & l & _ & Hk & Hl & _). destruct l as [|k l]; [cbn in Hl; lia|]. exists km. intros s.
  assert (Hpk : page_ok demo_end k) by (destruct Hk as [_ Hp _]; by apply Forall_cons in Hp as [? _]).
  eapply wp_mono; [apply (first_process_runs_init demo_end demo_kdata 0x80107000 0x80108000 no_devices s 0 k l 0 demo_initcode 0x1c 0x24
    false (fun _ => 0) (fun _ => 0))|]; [done|done|done|apply demo_kdata_ok|reflexivity| |exact Hk|cbn [length] in Hl; lia| | |apply demo_initcode_ok|].
  - split; [by apply Nat.ltb_lt|]. split; [reflexivity|]. intros j Hj. lia.
  - apply boot_icache_ok.
  - exists 0%nat. eexists. split; [reflexivity|]. right. reflexivity.
  - intros [] s' (I & _ & Ek & Ec & _ & H). split; [exact I|].
    destruct (H (demo_scheduler k (demo_sees (km_mem (k_mem s')) (p_pgdir (proc_at 0 s')))) 0x80100100) as (u1 & E1 & _ & H1).
    + apply demo_schedules; [done|done|done|]. intros x Hx. unfold demo_sees. destruct (Z.ltb_spec x PGSIZE); [|done]. unfold KERNBASE, PGSIZE in *. lia.
    + by vm_compute.
    + by vm_compute.
    + intros va a Hva Hv. cbn [demo_scheduler demo_machine r_mem]. change PGSIZE with 4096 in *. rewrite !store32_other by lia.
      unfold demo_sees. destruct (Z.ltb_spec va PGSIZE); [|change PGSIZE with 4096 in *; lia]. by rewrite Hv.
    + destruct (H1 (set_reg ESP (r_reg u1 ESP + 4) u1)) as (u3 & u4 & E3 & _ & _ & E4 & R & _); [|done|done|].
      { split; [|done]. unfold set_reg. cbn [r_reg]. by rewrite set_fn_eq. }
      eexists _, u1, _, u3, u4. split; [exact E1|]. split; [exact E3|]. split; [exact E4|exact R].
Defined.


