(* ===== verification/StartProps.v ===== *)
(** * Starting the machine

    From the first instruction of the boot sector to [main], and the way of the
    other processors into the kernel. *)

From stdpp Require Import strings.
From S2P Require Import Prelude Bytes Params CString Exec Ide Boot BootProps Kalloc Vm Proc Trap Devices Start Segment Asm AsmSpec AsmBoot.

(** ** Starting the machine *)

(** C9: The machine boots.  The boot sector's assembly switches the processor to
    protected mode with flat segments, interrupts off and the A20 line enabled,
    and calls [bootmain] on the stack below itself; [bootmain] loads every segment
    of the kernel file into memory and returns the kernel's entry point; the code
    there turns paging on, takes the kernel's stack and jumps to [main], with a
    directory that maps the first 4 MB of memory both where that code runs and
    where [main] is linked. *)
Theorem machine_boots `{C : Controller} wide at_ at' inputs s (c : ctl) gdtdesc gdt j1 j2 pgdir stack main :
  let start := 0x7c00 in kernel_file c -> has_gdt (r_mem s) gdtdesc gdt -> is_word gdt -> is_word (at_ 33%nat) ->
  ready_at inputs (r_in s) j1 -> ready_at inputs (S j1) j2 -> is_word (stack + KSTACKSIZE) -> is_word main ->
  exists fuel s1, run wide at_ inputs fuel (bootasm start gdtdesc) 0 s = Some (CallC "bootmain", 32%nat, s1) /\
    protected s1 gdt /\ r_reg s1 ESP = start - 4 /\ r_out s1 = r_out s ++ [(0x64, 0xd1); (0x60, 0xdf)] /\
    exists b, bootmain (MkBoot (r_mem s1) c) = Ok (Some (elf_entry (kernel_elf c))) b /\
      (forall k, (k < kernel_phnum c)%nat -> seg_loaded c (bt_mem b) (kernel_ph c k)) /\
      (forall a, a < scratch -> ~ start - 4 <= a < start -> bt_mem b a = r_mem s a) /\
      forall s2, exists s3, run wide at' inputs 13 (Asm.entry pgdir stack main) 0 s2 = Some (Goto main, 11%nat, s3) /\
        paging s3 (v2p pgdir) /\ r_reg s3 ESP = stack + KSTACKSIZE /\
        forall a, 0 <= a < 2 ^ 22 -> translate_big entrypgdir a = Some a /\ translate_big entrypgdir (KERNBASE + a) = Some a.
Proof.
  intros start Hk Hg Hw Hat H1 H2 Hst Hm.
  destruct (bootasm_spec wide at_ inputs s start gdtdesc gdt j1 j2 ltac:(lia) Hw Hat Hg H1 H2) as (fuel & s1 & E1 & P & R & _ & M & O).
  exists fuel, s1. split; [done|]. split; [done|]. split; [done|]. split; [done|].
  destruct (wp_run _ _ _ (bootmain_spec (MkBoot (r_mem s1) c) Hk)) as (r & b & E & -> & L & B). exists b. split; [done|]. split; [done|].
  split; [intros a A1 A2; rewrite B by done; by apply M|]. intros s2.
  destruct (entry_spec wide at' inputs s2 pgdir stack main Hst Hm) as (s3 & E3 & P3 & R3 & _). exists s3. split; [done|]. split; [done|]. split; [done|].
  intros a Ha. rewrite !entrypgdir_maps by (unfold is_word, KERNBASE; lia). change KERNBASE with (2 ^ 31).
  rewrite !(proj2 (Z.ltb_lt a _)), (proj2 (Z.ltb_ge (2 ^ 31 + a) _)), (proj2 (Z.leb_le _ _)), (proj2 (Z.ltb_lt (2 ^ 31 + a) _)) by lia.
  split; [done|]. cbn [andb]. f_equal. lia.
Qed.

(** The boot sector's table at 0x7c60 with its descriptor behind it. *)
Definition demo_sector : mem := fun x => default 0 (if 0x7c60 <=? x then (boot_gdt ++ boot_gdtdesc 0x7c60) !! Z.to_nat (x - 0x7c60) else None).

Lemma machine_boots_witness : exists fuel s1 b s3,
  run false (fun n => 0x7c00 + Z.of_nat n) (fun _ => 0) fuel (bootasm 0x7c00 0x7c78) 0 (demo_machine 0 0 demo_sector) = Some (CallC "bootmain", 32%nat, s1) /\
  @bootmain toy_ctl (@MkBoot toy_ctl (r_mem s1) (bt_ctl demo_boot)) = Ok (Some (elf_entry (@kernel_elf toy_ctl (bt_ctl demo_boot)))) b /\
  run false (fun _ => 0) (fun _ => 0) 13 (Asm.entry 0x80109000 0x8010a000 0x80103000) 0 s1 = Some (Goto 0x80103000, 11%nat, s3).
Proof.
  destruct (@machine_boots toy_ctl false (fun n => 0x7c00 + Z.of_nat n) (fun _ => 0) (fun _ => 0) (demo_machine 0 0 demo_sector) (bt_ctl demo_boot)
    0x7c78 0x7c60 0 1 0x80109000 0x8010a000 0x80103000) as (fuel & s1 & E1 & _ & _ & _ & b & Eb & _ & _ & H).
  - apply demo_kernel_file.
  - split; vm_compute; reflexivity.
  - done.
  - by vm_compute.
  - split; [done|]. split; [done|]. cbn. lia.
  - split; [done|]. split; [done|]. intros i Hi. lia.
  - by vm_compute.
  - by vm_compute.
  - destruct (H s1) as (s3 & E3 & _). exists fuel, s1, b, s3. split; [exact E1|]. split; [exact Eb|exact E3].
Defined.

(** A started processor arrives where it was sent.  When [startothers] sends the
    start-up interrupts for a processor, the code of [entryother.S] runs on that
    processor with the memory as it is then: it enters protected mode and paging
    with the page table, takes the stack and jumps to the entry point that
    [startothers] has left for it. *)
Theorem started_cpu_arrives `{H : Hardware} wide at_ inputs (u : smp) c l s gdtdesc gdt :
  launched (note_launch c u) = launched u ++ [l] ->
  (forall x, 0 <= x < 0x8000 -> r_mem s x = km_mem (s_mem u) (p2v x)) ->
  has_gdt (r_mem s) gdtdesc gdt -> is_word gdt -> is_word (at_ 29%nat) -> KERNBASE <= l_stack l - 4 -> l_stack l < 2 ^ 32 ->
  exists s', run wide at_ inputs 40 (entryother 0x7000 gdtdesc) 0 s = Some (Goto (l_entry l), 28%nat, s') /\
    protected s' gdt /\ paging s' (l_pgdir l) /\ r_reg s' ESP = l_stack l - 4.
Proof.
  intros Hl Hm Hg Hw Hat Hs1 Hs2. unfold note_launch in Hl. cbn [launched] in Hl. apply app_inj_tail in Hl as [_ <-]. cbn [l_stack l_entry l_pgdir] in *.
  assert (L : forall d, 0 < d <= 12 -> 4 <= d -> load32 (r_mem s) (0x7000 - d) = load32 (km_mem (s_mem u)) (code - d)).
  { intros d D1 D2. apply load32_moved. intros o Ho. rewrite Hm by lia. f_equal. unfold code, p2v, KERNBASE. rewrite !u32_small by lia. lia. }
  change KERNBASE with 0x80000000 in *.
  destruct (entryother_spec wide at_ inputs s 0x7000 gdtdesc gdt (load32 (km_mem (s_mem u)) (code - 4)) Hw Hat Hg) as (s' & E & P & Q & R & _);
    [apply (L 4); lia|lia|lia|]. rewrite (L 8) in E by lia. rewrite (L 12) in Q by lia. exists s'. split; [exact E|]. split; [exact P|]. split; [exact Q|exact R].
Qed.
